(* ===== verification/_CoqProject ===== *)
-Q . S2P
Prelude.v
PyValue.v
PyText.v
JsonText.v
JsonRound.v
JsonPrefix.v
IpcV2.v
IpcV2Props.v
IpcV2Flow.v
IpcV2Reconnect.v
IpcWitnesses.v
Journal.v
JournalText.v
JournalProps.v
JournalWitnesses.v
Sql.v
TaskModels.v
TaskStore.v
TaskStoreInv.v
TaskStoreProps.v
TaskLifecycle.v
MergeRefs.v
TaskTransfer.v
TaskTransferProps.v
TaskBoard.v
TaskQueue.v
TaskQueueProps.v
Projector.v
TopoSort.v
Dispatch.v
DispatchProps.v
TaskWitnesses.v
MergeWitnesses.v
Health.v
HealthProps.v
Supervisor.v
SupervisorProps.v
SupervisorLive.v
SupervisorWitnesses.v
FileSystem.v
Org.v
FilePolicy.v
FilePolicyProps.v
ShellText.v
CommandPolicy.v
CommandPolicyProps.v
PolicyWitnesses.v
LoopGuards.v
LoopGuardsProps.v
RateGuard.v
Activity.v
Cascade.v
Mailbox.v
MailboxProps.v
Channels.v
ChannelProps.v
Messenger.v
MessengerProps.v
InboxFlow.v
InboxFlowProps.v
MailWitnesses.v
Executor.v
ExecutorProps.v
ExecutorRuns.v
ExecutorRecovery.v
ExecWitnesses.v
Fleet.v
FleetProps.v
Governor.v
GovernorProps.v
FleetWitnesses.v
Lease.v
Commands.v
CommandsProps.v
CommandWitnesses.v
InboxLimiter.v
Bootstrap.v
BootstrapProps.v
GuardWitnesses.v
