(* ===== verification/Prelude.v ===== *)
(** * AnimaWorks: a verification development

    AnimaWorks runs a fleet of autonomous agents ("animas"), each a process
    with a directory of its own, that take tasks from a shared database, talk
    to each other through mailboxes and call language models under shared
    credentials.  This library models the parts that decide what work happens,
    once and in order, and the guards that keep the fleet from overrunning
    itself.  Each file opens with its own description; names follow the source,
    some without the leading underscore of private names.

    ** The program and its model

    - Values and text.  [PyValue.v] has JSON values with Python's equality and
      truth; [PyText.v] the [str] methods; [JsonText.v] [json.dumps] and
      [json.loads] as printer and parser, [JsonRound.v] their round trip,
      [JsonPrefix.v] what is left of a text that was cut; [ShellText.v] the
      splitting of a command and [shlex.split]; [FileSystem.v] lexical paths,
      symbolic links and [Path.resolve].
    - Frames.  [IpcV2.v] is [core/supervisor/ipc_v2.py] with the handshakes of
      [task_runner_supervisor.py]: the frames between an anima and the runners
      of its tasks.  [IpcV2Props.v] (the wire contract and the invariant of a
      connection), [IpcV2Flow.v] (delivery), [IpcV2Reconnect.v] (what a
      reconnect loses), [IpcWitnesses.v].
    - Journal.  [Journal.v] is [core/memory/streaming_journal.py], the log
      written ahead of a streamed answer, with [JournalText.v],
      [JournalProps.v] (recovery after a crash) and [JournalWitnesses.v].
    - Tasks.  [core/taskboard/tasks.py] keeps canonical tasks, their attempts,
      delegation aliases, wake-ups and a claim switch in SQLite tables.
      [Sql.v] has tables as lists of rows in rowid order with their keys;
      [TaskModels.v] the rows, [TaskEntry], the shared state [world] (database,
      board, connection, clocks, identity of the running attempt);
      [TaskStore.v] the class [TaskStore], one definition per method, with
      nested transactions, rollback and post-commit callbacks.
      [TaskStoreInv.v] is the consistency invariant and its preservation;
      [TaskStoreProps.v] what claiming, finishing, cancelling and fencing
      guarantee; [TaskLifecycle.v] an abstract lifecycle of a task and the
      proof that the store refines it.
    - Merging animas.  [MergeRefs.v] is the part of
      [core/lifecycle/anima_merge/task_refs.py] that allocates identifiers and
      rewrites references in tasks; [TaskTransfer.v] the transfer of ownership
      in the store; [TaskTransferProps.v] and [MergeWitnesses.v].
    - Board.  [TaskBoard.v] is [core/taskboard/store.py]: attention metadata of
      a task and its audit trail.  [Projector.v] is
      [core/taskboard/projector.py]: the rows the board shows.
    - Queue.  [TaskQueue.v] is [core/memory/task_queue.py], the queue manager
      of one anima over the store, and the board projections it runs after a
      commit: the store declares the interface [PostCommit], the queue
      implements it and discharges the frame law [PostCommitFrame] the store's
      theorems use.  [TaskQueueProps.v] holds its theorems.
    - Publication.  [TopoSort.v] is [_topological_sort] of
      [core/supervisor/pending_executor.py]; [Dispatch.v] is
      [core/tasks_dispatch.py]: validation, batch publication, delegation,
      direct dispatch, declaration of results.  [DispatchProps.v] holds its
      theorems and [TaskWitnesses.v] a worked history of all the above.
    - Processes.  [Health.v] is the health decision on one anima's process
      ([core/supervisor/_mgr_health.py], [ProcessHandle.ping]); [Supervisor.v]
      the start, stop, restart, failure handling and recovery of one anima's
      process ([manager.py], [process_handle.py], [_mgr_reconcile.py]) as
      coroutines that interleave at their awaits.  [HealthProps.v],
      [SupervisorProps.v] (exclusion, one process), [SupervisorLive.v]
      (termination, schedules), [SupervisorWitnesses.v].
    - Fleet.  [Fleet.v] is the reconciliation pass over all animas
      ([core/supervisor/_mgr_reconcile.py]) with starts and stops as whole
      calls; [Governor.v] is [server/usage_governor.py], which suspends animas
      whose provider runs low, and whose state file the reconciliation and the
      start of the server read.  [FleetProps.v] (a pass simulates a program on
      each anima alone, and its table), [GovernorProps.v] (logins, a check,
      the two together), [FleetWitnesses.v].
    - Permissions.  [Org.v] is the hierarchy of animas and what it grants
      ([core/tooling/org_helpers.py], [handler.py]); [FilePolicy.v] the file
      checks ([core/file_access_policy.py], [core/tooling/handler_perms.py],
      [core/execution/_sdk_security.py]); [CommandPolicy.v] the command checks
      of both engines, the command hook and the cache of global patterns
      ([codex_command_hook.py], [core/config/global_permissions.py]).
      [FilePolicyProps.v], [CommandPolicyProps.v], [PolicyWitnesses.v].
    - Loop guards.  [LoopGuards.v] is [core/execution/loop_guards.py]: retry of
      a model call, empty answers, tool-free messages, runaway detection;
      [LoopGuardsProps.v] its theorems.
    - Mail.  [Mailbox.v] is the inbox directory of one anima and its archives
      ([core/messenger.py]): reading, archiving, quarantine and the sweep;
      [Channels.v] the shared channels and their access lists; [Messenger.v]
      sending, with its limits and its fallback to the host
      ([server/routes/internal.py]), read acknowledgements and the intake from
      external platforms; [InboxFlow.v] one run of an anima over its inbox
      ([core/_anima_inbox.py], [core/memory/dedup.py]), with the model's cycle
      and the messages that arrive during it as arguments.
      [MailboxProps.v], [ChannelProps.v], [MessengerProps.v],
      [InboxFlowProps.v], [MailWitnesses.v].
    - Executor.  [Executor.v] is the part of
      [core/supervisor/pending_executor.py] that works on the tasks of the
      store: recovery of attempts whose process died, delivery of wake-ups as
      messages, claims, the run of a task inline or in a child process, and the
      settlement of its attempt.  Its state joins the task store and the
      mailboxes; the model's session and the child are functions of the state.
      [ExecutorProps.v] (wake-ups), [ExecutorRuns.v] (how runs end),
      [ExecutorRecovery.v], [ExecWitnesses.v].  [Commands.v] is the part that
      works on the command descriptors of [state/background_tasks/], with their
      leases in [Lease.v] ([core/platform/processing_lease.py]);
      [CommandsProps.v], [CommandWitnesses.v].
    - Fleet limits.  [RateGuard.v] is [core/execution/rate_guard.py];
      [Activity.v] the reads of [core/memory/activity.py] that
      [Cascade.v], [core/cascade_limiter.py], counts; [InboxLimiter.v] is
      [core/supervisor/inbox_rate_limiter.py] as a transition system over the
      stretches of code between two suspension points of the event loop.
    - Bootstrap.  [Bootstrap.v] is [core/bootstrap_state.py] over a finite map
      of files; [BootstrapProps.v] its theorems.  [GuardWitnesses.v] has the
      worked instances of the guards, limits and the bootstrap.

    ** What the theorems show

    - The task database is consistent in every reachable state; a claim starts
      only what may start and under one attempt; a stale or foreign attempt
      changes nothing; an operation that raises changes nothing; completion,
      cancellation and the attempt history behave as their contracts say; the
      store refines the lifecycle.  A merge moves everything an anima owns, and
      under a planned mapping it cannot fail.
    - The board's audit trail replays to its state; reads of the queue agree
      with each other; the projection is exact.
    - The dependency sort terminates and decides exactly; an accepted batch is
      well formed and is published all or nothing.
    - Starts and stops of a process exclude each other, at most one process of
      an anima is alive, the supervisor always comes to rest, nothing is
      started during a shutdown, and a process that shows progress is left
      alone.
    - A reconciliation pass treats every anima by its table, as if it were
      alone; a check of the usage governor suspends exactly whom the policy
      names; after both, an anima runs exactly when it is enabled and not
      suspended; the automatic logins are bounded.
    - The file checks decide exactly by their tables of rules; other animas and
      other companies stay closed; the allow list binds every part of a
      command; the two engines agree; and the ways around the checks that the
      model showed.
    - A frame decodes to itself, a connection stays within its limits in every
      interleaving, a healthy connection delivers in order; a crash loses at
      most the unflushed tail of a streamed answer.
    - A run of the inbox accounts for every message, and what the model never
      answers is presented a bounded number of times; a message sent under a
      delivery identifier is delivered once; the sweep sorts by contents and
      age alone; a channel is an append-only log that only its members write;
      the record of external deliveries gives the intended verdicts.
    - However the run of a claimed task ends, its attempt is settled with the
      outcome on record; recovery ends exactly the attempts of dead processes;
      the outbox of the store and the mailboxes together deliver every
      wake-up once, to everybody concerned.  A command descriptor is run at
      most once, and one command of a task at a time.
    - The inbox limiter excludes and bounds runs in every interleaving;
      finalizing a bootstrap does what it says; a reported rate limit is seen
      by the fleet; the runaway detector equals its reference and the retry is
      bounded.

    Theorems that are not listed as properties (their comments carry no claim
    number) show further behaviour and the reported defects.

    ** Conventions

    A stateful method is a function [M S A] from the state to a result or an
    exception and the state; raising undoes nothing by itself, only the store's
    [transaction] rolls back.  The relation [within R] on runs carries
    invariants ([keeps]) and frames ([fixes]) through programs by the hint
    database [within].  JSON values are the type [json] with Python's equality,
    truthiness and dictionary order; a column or file of JSON is the value it
    encodes.  Strings are UTF-8 bytes.  Floats are exact rationals; NaN and
    infinities are left out.  [fetchone] is the first row in rowid order.
    Exception and refusal texts are shortened or replaced by a reason.  Paths
    contain no null bytes, and a leading double slash counts as one.  The
    clock, fresh identifiers, Python's text of compound values, time zones,
    regular expressions from configuration files, model overrides, workspaces,
    the working directory and the like are parameters, as classes ([Oracle],
    [Calendar], [DispatchEnv], [GuardEnv], [BootEnv], [IntText], [OsEnv],
    [Installation], [Regex], [Processes], [Wording], [Texts]) whose instances
    the worked histories give.

    ** Bounds and fuel

    The dependency sort runs with one unit of fuel per task and one more, and
    is proved to finish within it.  The search for descendants runs with one
    unit per configured anima and one more; resolving a path nests once per
    node of the file system at most ([FileSystem.realpath_total]); both are
    proved to finish.  The retry recurses on its remaining attempts; its waits
    have the ceiling of the delay as fuel, and more fuel changes nothing.  The
    search for a free archive name tries one name more than there are files,
    and the planner of a merge one candidate more than there are reserved
    identifiers; one of them is free.  Other recursions are structural.

    ** Not modelled

    Storage failures of SQLite, file locks and the HTTP proxy taken when a
    sandbox is denied storage; the import of legacy queues; the mechanics of
    subprocesses, signals and sockets below the frames; the interleaving of a
    reconciliation pass or a governor's check with other work (that of one
    process is in [Supervisor]), the generation of assets, the schedulers and
    the runner's own loop; the fetching of usage figures; model sessions,
    prompts, retrieval, tools, notification, voice, the server and the command
    line, which are input and output around the modelled decisions or
    third-party services.  Of the executor: the subprocesses of commands and the
    manager that keeps them, the pool of worker sessions, the periodic look for
    a cancellation, the drain at a shutdown.

    Of the mail: the private histories and their legacy log; the texts of
    prompts, episodes and automatic posts; directories that cannot be created
    or listed; entries of the counter file that are not integers; the names of
    overflow files (the directory is the list of what was written); recipients
    with a slash in their name.  The checks and defaults of the message model
    (pydantic) and the order of a directory listing are parameters ([Codec],
    [Listing]). *)

From stdpp Require Import prelude strings list.
From Stdlib Require Import QArith.

(* ------------------------------------------------------------------ *)
(** ** Python exceptions and the state-and-exception monad *)

(** The exception classes the modelled code raises or catches; the payload is
    the message (or, for [KeyError], the key). *)
Inductive exn :=
| ValueError (msg : string)
| TypeError (msg : string)
| RuntimeError (msg : string)
| KeyError (key : string)
| IntegrityError (table : string)
| IndexError (msg : string)
| AttributeError (msg : string)
| FileExistsError (msg : string)
| FileNotFoundError (msg : string)
| TimeoutError (msg : string)
| ConnectionError (msg : string)
| TaskExecError (msg : string)
| DeliveryError (msg : string)
| RecipientNotFoundError (name : string)
| ChannelNotFoundError (channel : string)
| ChannelAccessDeniedError (channel : string)
| IPCV2ProtocolError (msg : string)
| IPCV2PayloadTooLarge (msg : string)
| IPCV2ConnectionError (msg : string)
| IPCV2BackpressureTimeout (msg : string).

Inductive result (A : Type) :=
| Ok (a : A)
| Err (e : exn).
Arguments Ok {_} _.
Arguments Err {_} _.

#[global] Instance exn_eq_dec : EqDecision exn.
Proof. solve_decision. Defined.

(** A computation without state that returns or raises. *)
#[global] Instance result_ret : MRet result := λ A a, Ok a.
#[global] Instance result_bind : MBind result := λ A B f r,
  match r with Ok a => f a | Err e => Err e end.
Definition raise_if (b : bool) (e : exn) : result unit := if b then Err e else Ok tt.

(** A stateful Python computation: it reads and updates the shared state and
    either returns or raises.  As in Python, raising does not undo the
    updates already made; only [transaction] rolls back. *)
Definition M (S A : Type) : Type := S → result A * S.

#[global] Instance M_ret {S} : MRet (M S) := λ A a s, (Ok a, s).
#[global] Instance M_bind {S} : MBind (M S) := λ A B f m s,
  match m s with
  | (Ok a, s') => f a s'
  | (Err e, s') => (Err e, s')
  end.

Definition raise {S A} (e : exn) : M S A := λ s, (Err e, s).
Definition get {S} : M S S := λ s, (Ok s, s).
Definition gets {S A} (f : S → A) : M S A := λ s, (Ok (f s), s).
Definition modify {S} (f : S → S) : M S unit := λ s, (Ok tt, f s).
Definition lift {S A} (r : result A) : M S A := λ s, (r, s).
(** [try: m except Exception: h]. *)
Definition catch {S A} (m : M S A) (h : exn → M S A) : M S A := λ s,
  match m s with
  | (Ok a, s') => (Ok a, s')
  | (Err e, s') => h e s'
  end.
Definition guard_raise {S} (b : bool) (e : exn) : M S unit :=
  if b then raise e else mret tt.

(** [for x in l: f x]. *)
Fixpoint for_each {S A} (l : list A) (f : A → M S unit) : M S unit :=
  match l with
  | [] => mret tt
  | x :: l' => _ ← f x; for_each l' f
  end.

(** Value and final state of a run. *)
Abbreviation val_of r := (fst r).
Abbreviation state_of r := (snd r).

Definition is_ok {A} (r : result A) : bool :=
  match r with Ok _ => true | Err _ => false end.

(* ------------------------------------------------------------------ *)
(** ** Reasoning about runs *)

(** [within R m]: every run of [m], whether it returns or raises, relates its
    start state to its final state by [R].  With [R] a preorder the notion is
    compositional; invariants and frame conditions are instances. *)
Definition within {S A} (R : S → S → Prop) (m : M S A) : Prop :=
  ∀ s, R s (state_of (m s)).

(** The preorder of an invariant, and the preorder of a frame condition. *)
Definition keeps {S} (I : S → Prop) : S → S → Prop := λ s s', I s → I s'.
Definition fixes {S T} (f : S → T) : S → S → Prop := λ s s', f s' = f s.

#[global] Instance keeps_preorder {S} (I : S → Prop) : PreOrder (keeps I).
Proof. split; [intros s; unfold keeps; auto | intros s1 s2 s3; unfold keeps; auto]. Qed.
#[global] Instance fixes_preorder {S T} (f : S → T) : PreOrder (fixes f).
Proof. split; [intros s; unfold fixes; auto | intros s1 s2 s3; unfold fixes; congruence]. Qed.

Create HintDb within discriminated.
#[export] Hint Constants Opaque : within.
#[export] Hint Variables Opaque : within.

Section within.
Context {S : Type} {R : S → S → Prop} `{!PreOrder R}.

Lemma within_ret {A} (a : A) : within R (mret a : M S A).
Proof. intros s. reflexivity. Qed.

Lemma within_raise {A} e : within R (raise e : M S A).
Proof. intros s. reflexivity. Qed.

Lemma within_gets {A} (f : S → A) : within R (gets f).
Proof. intros s. reflexivity. Qed.

Lemma within_get : within R (@get S).
Proof. intros s. reflexivity. Qed.

Lemma within_lift {A} (r : result A) : within R (lift r : M S A).
Proof. intros s. reflexivity. Qed.

Lemma within_guard b e : within R (guard_raise b e : M S unit).
Proof. intros s. destruct b; reflexivity. Qed.

Lemma within_bind {A B} (m : M S A) (f : A → M S B) :
within R m → (∀ a, within R (f a)) → within R (m ≫= f).
Proof.
intros Hm Hf s. specialize (Hm s). unfold mbind, M_bind.
destruct (m s) as [[a|e] s'] eqn:E; simpl in *; [|done].
etrans; [exact Hm | apply Hf].
Qed.

Lemma within_catch {A} (m : M S A) h :
within R m → (∀ e, within R (h e)) → within R (catch m h).
Proof.
intros Hm Hh s. specialize (Hm s). unfold catch.
destruct (m s) as [[a|e] s'] eqn:E; simpl in *; [done|].
etrans; [exact Hm | apply Hh].
Qed.

Lemma within_for_each {A} (l : list A) (f : A → M S unit) :
(∀ a, a ∈ l → within R (f a)) → within R (for_each l f).
Proof.
induction l as [|x l IH]; intros Hf; [apply within_ret|].
apply within_bind; [apply Hf; left|]. intros _. apply IH.
intros a Ha. apply Hf. by right.
Qed.
End within.

Lemma within_ret_bind {S A B} (R : S → S → Prop) (m : M S A) (b : B) :
  within R m → within R (m ≫= λ _, mret b).
Proof.
  intros Hm s. specialize (Hm s). unfold mbind, M_bind. by destruct (m s) as [[a|e] s'].
Qed.

Lemma within_mono {S A} (R1 R2 : S → S → Prop) (m : M S A) :
  (∀ s s', R1 s s' → R2 s s') → within R1 m → within R2 m.
Proof. intros H Hm s. apply H, Hm. Qed.

Lemma within_modify {S} (R : S → S → Prop) (f : S → S) :
  (∀ s, R s (f s)) → within R (modify f).
Proof. intros H s. apply H. Qed.

#[export] Hint Resolve within_ret within_raise within_gets within_get within_lift
  within_guard within_bind within_catch within_for_each within_modify : within.

(** Walks through a program: binds, loops and branches are taken apart, the
    operations at the leaves are closed by the lemmas of [within]. *)
Ltac within_tac :=
  repeat (intros; first
    [ apply within_ret | apply within_raise | apply within_gets | apply within_get | apply within_lift
    | apply within_guard | assumption | solve [auto with within nocore]
    | apply within_bind | apply within_for_each
    | match goal with |- within _ (match ?x with _ => _ end) => destruct x end ]).

(** Unfolds one run of a monadic program into its nested matches. *)
Ltac run_unfold :=
  cbv beta delta [mbind M_bind mret M_ret result_bind result_ret raise_if raise get gets modify lift catch
    guard_raise] in *;
  cbn [fst snd] in *.
Ltac run_cases :=
  repeat (run_unfold; case_match; simplify_eq/=).

(* ------------------------------------------------------------------ *)
(** ** Lists, options and booleans *)

(** [any(p(x) for x in l)] and [all(p(x) for x in l)]. *)
Fixpoint any {A} (p : A → bool) (l : list A) : bool :=
  match l with [] => false | x :: l' => p x || any p l' end.
Definition all {A} (p : A → bool) (l : list A) : bool := negb (any (λ x, negb (p x)) l).

Lemma any_true {A} (p : A → bool) l : any p l = true ↔ ∃ x, x ∈ l ∧ p x = true.
Proof.
  induction l as [|x l IH]; simpl; [split; [done|intros (?&?%not_elem_of_nil&_); done]|].
  rewrite orb_true_iff, IH. setoid_rewrite elem_of_cons. naive_solver.
Qed.

Lemma any_false {A} (p : A → bool) l : any p l = false ↔ ∀ x, x ∈ l → p x = false.
Proof.
  induction l as [|x l IH]; simpl; [split; [by intros _ ? ?%not_elem_of_nil|done]|].
  rewrite orb_false_iff, IH. setoid_rewrite elem_of_cons. naive_solver.
Qed.

Lemma all_true {A} (p : A → bool) l : all p l = true ↔ ∀ x, x ∈ l → p x = true.
Proof.
  unfold all. rewrite negb_true_iff, any_false.
  split; intros H x Hx; specialize (H x Hx); by destruct (p x).
Qed.

Lemma any_app {A} (p : A → bool) l1 l2 : any p (l1 ++ l2) = any p l1 || any p l2.
Proof. induction l1 as [|x l1 IH]; simpl; [done|]. by rewrite IH, orb_assoc. Qed.

(** [x in xs] for strings. *)
Definition str_in (x : string) (xs : list string) : bool := bool_decide (x ∈ xs).

(** Python truthiness of a string. *)
Definition str_truthy (s : string) : bool := negb (bool_decide (s = "")).

(** [a or b] for strings. *)
Definition str_or (a b : string) : string := if str_truthy a then a else b.

Lemma filter_length_le {A} (P Q : A → Prop)
  `{!∀ x, Decision (P x), !∀ x, Decision (Q x)} (l : list A) :
  (∀ x, P x → Q x) → length (filter P l) ≤ length (filter Q l).
Proof.
  intros Hsub. induction l as [|x l IH]; simpl; [done|].
  rewrite !filter_cons. repeat case_decide; simpl; try lia.
  exfalso. auto.
Qed.

Lemma filter_ext_in {A} (P Q : A → Prop)
  `{!∀ x, Decision (P x), !∀ x, Decision (Q x)} (l : list A) :
  (∀ x, x ∈ l → P x ↔ Q x) → filter P l = filter Q l.
Proof.
  induction l as [|x l IH]; intros HPQ; [done|]. rewrite !filter_cons.
  assert (filter P l = filter Q l) as -> by (apply IH; intros; apply HPQ; by right).
  pose proof (HPQ x (list_elem_of_here x l)). repeat case_decide; tauto.
Qed.

Lemma filter_all {A} (P : A → Prop) `{!∀ x, Decision (P x)} (l : list A) :
  (∀ x, x ∈ l → P x) → filter P l = l.
Proof.
  induction l as [|x l IH]; intros HP; [done|]. rewrite filter_cons.
  rewrite decide_True by (apply HP; left). f_equal. apply IH. intros. apply HP. by right.
Qed.

(** Turns boolean tests in the context into propositions. *)
Ltac breflect :=
  repeat match goal with
  | H : _ && _ = true |- _ => apply andb_true_iff in H as [? ?]
  | H : _ || _ = false |- _ => apply orb_false_iff in H as [? ?]
  | H : negb _ = true |- _ => apply negb_true_iff in H
  | H : negb _ = false |- _ => apply negb_false_iff in H
  | H : bool_decide _ = true |- _ => apply bool_decide_eq_true in H
  | H : bool_decide _ = false |- _ => apply bool_decide_eq_false in H
  end.
