(* ===== verification/PyValue.v ===== *)
(** * JSON values with Python's semantics

    The JSON values the code keeps in task metadata, task inputs and state
    files, with the Python operations applied to them: truthiness, [==],
    [dict.get], item assignment, [{**a, **b}], [dict.pop].  A dictionary is an
    association list in insertion order, as Python keeps it; a column or file
    that holds JSON text is represented by the value the text encodes. *)

From stdpp Require Import prelude strings list pretty.
From Stdlib Require Import QArith Qminmax.
From S2P Require Import Prelude.

Inductive json :=
| JNull
| JBool (b : bool)
| JInt (z : Z)
| JFloat (q : Q)
| JStr (s : string)
| JList (l : list json)
| JObj (kvs : list (string * json)).

Abbreviation dict := (list (string * json)).

(** [bool(v)]. *)
Definition truthy (j : json) : bool :=
  match j with
  | JNull => false
  | JBool b => b
  | JInt z => negb (Z.eqb z 0)
  | JFloat q => negb (Qeq_bool q 0)
  | JStr s => str_truthy s
  | JList l => match l with [] => false | _ => true end
  | JObj kvs => match kvs with [] => false | _ => true end
  end.

(** [d.get(k)]: [None] when the key is absent. *)
Fixpoint dget {V} (k : string) (d : list (string * V)) : option V :=
  match d with
  | [] => None
  | (k', v) :: d' => if bool_decide (k = k') then Some v else dget k d'
  end.

(** [d.get(k, default)]. *)
Definition dget_default (k : string) (default : json) (d : dict) : json :=
  from_option id default (dget k d).

(** [d.get(k)] used as a value: a missing key yields Python's [None]. *)
Definition dget_none (k : string) (d : dict) : json := dget_default k JNull d.

(** [k in d]. *)
Definition dhas {V} (k : string) (d : list (string * V)) : bool :=
  match dget k d with Some _ => true | None => false end.

(** [d[k] = v]: in place when the key is present, at the end otherwise. *)
Fixpoint dset {V} (k : string) (v : V) (d : list (string * V)) : list (string * V) :=
  match d with
  | [] => [(k, v)]
  | (k', v') :: d' => if bool_decide (k = k') then (k', v) :: d' else (k', v') :: dset k v d'
  end.

(** [{**a, **b}], and [a.update(b)]. *)
Definition dmerge {V} (a b : list (string * V)) : list (string * V) := foldl (λ acc kv, dset (fst kv) (snd kv) acc) a b.

(** [d.pop(k, None)]. *)
Definition dpop {V} (k : string) (d : list (string * V)) : list (string * V) := filter (λ kv, fst kv ≠ k) d.

(** [d.setdefault(k, v)]. *)
Definition dsetdefault {V} (k : string) (v : V) (d : list (string * V)) : list (string * V) :=
  if dhas k d then d else dset k v d.

(** A number's value, for the numeric types: Python's [bool] is an [int]. *)
Definition num_of (j : json) : option Q :=
  match j with
  | JBool b => Some (if b then 1 else 0)
  | JInt z => Some (inject_Z z)
  | JFloat q => Some q
  | _ => None
  end%Q.

(** [isinstance(v, int)] yields the integer. *)
Definition int_of (j : json) : option Z :=
  match j with
  | JBool b => Some (if b then 1 else 0)
  | JInt z => Some z
  | _ => None
  end%Z.

Definition str_of (j : json) : option string :=
  match j with JStr s => Some s | _ => None end.

(** [str(v)] for the scalar types. *)
Definition py_str (j : json) : option string :=
  match j with
  | JNull => Some "None"
  | JBool b => Some (if b then "True" else "False")
  | JInt z => Some (pretty z)
  | JStr s => Some s
  | _ => None
  end.

(** Python's [==]: numbers compare by value across [bool], [int] and [float],
    dictionaries compare without regard to insertion order. *)
Fixpoint py_eq (x y : json) {struct x} : bool :=
  match x, y with
  | JNull, JNull => true
  | JStr a, JStr b => bool_decide (a = b)
  | JList l, JList m =>
      (fix go (l m : list json) : bool :=
         match l, m with
         | [], [] => true
         | a :: l', b :: m' => py_eq a b && go l' m'
         | _, _ => false
         end) l m
  | JObj d, JObj e =>
      bool_decide (length d = length e) &&
      (fix go (d : dict) : bool :=
         match d with
         | [] => true
         | (k, v) :: d' =>
             match dget k e with Some w => py_eq v w | None => false end && go d'
         end) d
  | _, _ =>
      match num_of x, num_of y with
      | Some p, Some q => Qeq_bool p q
      | _, _ => false
      end
  end.

(* ------------------------------------------------------------------ *)
(** ** Dictionary lemmas *)

Section dict.
Context {V : Type}.
Implicit Types (d a b e : list (string * V)) (v : V).

Lemma dget_dset k k' v d :
dget k (dset k' v d) = if decide (k = k') then Some v else dget k d.
Proof.
induction d as [|[k0 v0] d IH]; simpl.
- repeat case_bool_decide; repeat case_decide; naive_solver.
- repeat case_bool_decide; simpl; repeat case_bool_decide;
    repeat case_decide; simplify_eq; auto.
Qed.

Lemma dget_dset_eq k v d : dget k (dset k v d) = Some v.
Proof. rewrite dget_dset. by case_decide. Qed.

Lemma dget_dset_ne k k' v d : k ≠ k' → dget k (dset k' v d) = dget k d.
Proof. intros. rewrite dget_dset. by case_decide. Qed.

(** The right operand of a merge wins; later bindings of it win over
  earlier ones. *)
Lemma dget_dmerge k a b :
dget k (dmerge a b) =
  match dget k (reverse b) with Some v => Some v | None => dget k a end.
Proof.
induction b as [|[k0 v0] b IH] using rev_ind; simpl; [done|].
unfold dmerge in *. rewrite foldl_snoc, dget_dset; simpl.
rewrite reverse_snoc; simpl. case_decide; case_bool_decide; simplify_eq; auto.
Qed.

Lemma dget_app k d e :
dget k (d ++ e) = match dget k d with Some v => Some v | None => dget k e end.
Proof. induction d as [|[k0 v0] d IH]; simpl; [done|]. by case_bool_decide. Qed.

Lemma dget_dpop k k' d : dget k (dpop k' d) = if decide (k = k') then None else dget k d.
Proof.
unfold dpop. induction d as [|[k0 v0] d IH]; simpl; [by case_decide|].
rewrite filter_cons. destruct (decide (k = k')); subst; repeat case_decide; simpl;
  repeat case_bool_decide; simplify_eq/=; auto.
Qed.

Lemma dget_dpop_ne k k' d : k ≠ k' → dget k (dpop k' d) = dget k d.
Proof. intros. rewrite dget_dpop. by case_decide. Qed.

Lemma dget_elem k v d : dget k d = Some v → (k, v) ∈ d.
Proof.
induction d as [|[k0 v0] d IH]; simpl; [done|].
case_bool_decide; intros; simplify_eq; [left|right; auto].
Qed.

(** The Python invariant of a dictionary: one binding per key. *)
Definition dict_wf d : Prop := NoDup (fst <$> d).

Lemma dget_wf k v d : dict_wf d → (k, v) ∈ d → dget k d = Some v.
Proof.
unfold dict_wf. induction d as [|[k0 v0] d IH]; [by intros _ ?%not_elem_of_nil|].
rewrite fmap_cons, NoDup_cons. intros [Hk Hd] [[= -> ->]|Hin]%elem_of_cons; simpl.
- by rewrite bool_decide_eq_true_2.
- rewrite bool_decide_eq_false_2; [by apply IH|]. intros ->. apply Hk. by apply (list_elem_of_fmap_2 fst _ (k0, v)).
Qed.

Lemma dset_keys_in k v d : k ∈ fst <$> d → fst <$> dset k v d = fst <$> d.
Proof.
induction d as [|[k0 v0] d IH]; simpl; [by intros ?%not_elem_of_nil|].
rewrite elem_of_cons. intros Hk. case_bool_decide; simpl; [done|].
f_equal. apply IH. naive_solver.
Qed.

Lemma dset_keys_notin k v d : k ∉ fst <$> d → fst <$> dset k v d = (fst <$> d) ++ [k].
Proof.
induction d as [|[k0 v0] d IH]; simpl; [done|].
rewrite not_elem_of_cons. intros [Hk ?].
rewrite bool_decide_eq_false_2 by done. simpl. f_equal. by apply IH.
Qed.

Lemma dset_wf k v d : dict_wf d → dict_wf (dset k v d).
Proof.
unfold dict_wf. intros Hd. destruct (decide (k ∈ fst <$> d)).
- by rewrite dset_keys_in.
- rewrite dset_keys_notin by done.
  apply NoDup_app. split_and!; [done| |apply NoDup_singleton]. set_solver.
Qed.

Lemma dmerge_wf a b : dict_wf a → dict_wf (dmerge a b).
Proof.
revert a. induction b as [|[k v] b IH]; intros a Ha; [done|].
simpl. apply IH, dset_wf, Ha.
Qed.
End dict.

(** Equality with a string is equality. *)
Lemma py_eq_str j s : py_eq j (JStr s) = true → j = JStr s.
Proof. destruct j; simpl; try done. by intros ->%bool_decide_eq_true. Qed.

#[export] Hint Resolve dset_wf dmerge_wf : core.
