(* ===== verification/PyText.v ===== *)
(** * Text operations of the standard library

    The [str] methods the code uses, on strings as UTF-8 byte sequences:
    [strip], [in], [startswith], [join] and the lower-casing of the ASCII
    letters. *)

From Stdlib Require Import Ascii.
From stdpp Require Import prelude strings list.
From S2P Require Import Prelude.

Abbreviation code c := (nat_of_ascii c).

(** White space as [str.strip] sees it, on UTF-8 bytes: the ASCII blanks and
    the two- and three-byte space characters. *)
Definition ascii_space (n : nat) : bool :=
  (bool_decide (9 ≤ n) && bool_decide (n ≤ 13)) || (bool_decide (28 ≤ n) && bool_decide (n ≤ 32)).
Definition wide_space2 (a b : nat) : bool :=
  bool_decide (a = 194) && (bool_decide (b = 133) || bool_decide (b = 160)).
Definition wide_space3 (a b c : nat) : bool :=
  (bool_decide (a = 225) && bool_decide (b = 154) && bool_decide (c = 128)) ||
  (bool_decide (a = 226) && bool_decide (b = 128) &&
     ((bool_decide (128 ≤ c) && bool_decide (c ≤ 138)) || bool_decide (c ∈ [168; 169; 175]))) ||
  (bool_decide (a = 226) && bool_decide (b = 129) && bool_decide (c = 159)) ||
  (bool_decide (a = 227) && bool_decide (b = 128) && bool_decide (c = 128)).

(** [not s.strip()]. *)
Fixpoint blank (s : string) : bool :=
  match s with
  | EmptyString => true
  | String a s1 =>
      if ascii_space (code a) then blank s1 else
      match s1 with
      | String b s2 =>
          if wide_space2 (code a) (code b) then blank s2 else
          match s2 with
          | String c s3 => if wide_space3 (code a) (code b) (code c) then blank s3 else false
          | EmptyString => false
          end
      | EmptyString => false
      end
  end.

(** [s.lstrip()], [s.rstrip()], [s.strip()].  A byte inside a character never
    starts a space character, so the scans may go byte by byte. *)
Fixpoint lstrip (s : string) : string :=
  match s with
  | EmptyString => ""
  | String a s1 =>
      if ascii_space (code a) then lstrip s1 else
      match s1 with
      | String b s2 =>
          if wide_space2 (code a) (code b) then lstrip s2 else
          match s2 with
          | String c s3 => if wide_space3 (code a) (code b) (code c) then lstrip s3 else s
          | EmptyString => s
          end
      | EmptyString => s
      end
  end.
Fixpoint rstrip (s : string) : string :=
  if blank s then "" else
  match s with EmptyString => "" | String a s' => String a (rstrip s') end.
Definition strip (s : string) : string := rstrip (lstrip s).

(** [s.startswith(p)] and [p in s]. *)
Definition startswith (p s : string) : bool := String.prefix p s.
Fixpoint contains (p s : string) : bool :=
  startswith p s || match s with EmptyString => false | String _ s' => contains p s' end.

(** [s.lower()] on the ASCII letters. *)
Definition lower_ascii (c : Ascii.ascii) : Ascii.ascii :=
  if bool_decide (65 ≤ code c) && bool_decide (code c ≤ 90) then Ascii.ascii_of_nat (code c + 32) else c.
Fixpoint lower (s : string) : string :=
  match s with EmptyString => "" | String a s' => String (lower_ascii a) (lower s') end.

(** [sep.join(l)]. *)
Fixpoint join (sep : string) (l : list string) : string :=
  match l with
  | [] => ""
  | [x] => x
  | x :: l' => x +:+ sep +:+ join sep l'
  end.

Definition newline : string := String (Ascii.ascii_of_nat 10) "".

(** Stripping a blank text leaves nothing, and only that. *)
Lemma rstrip_nonblank s : blank s = false → rstrip s ≠ "".
Proof. destruct s as [|a s]; [done|]. intros Hb. cbn [rstrip]. by rewrite Hb. Qed.

(** [s.endswith(p)]. *)
Fixpoint endswith (p s : string) : bool :=
  bool_decide (s = p) || match s with EmptyString => false | String _ s' => endswith p s' end.

(** The characters of a text: a continuation byte belongs to the byte before. *)
Definition continuation (n : nat) : bool := bool_decide (128 ≤ n) && bool_decide (n ≤ 191).
Fixpoint split_chars (s : string) : list string * string :=
  match s with
  | EmptyString => ([], "")
  | String a s' =>
      let '(l, rest) := split_chars s' in
      if continuation (code a) then (l, String a rest) else (String a rest :: l, "")
  end.
Definition chars (s : string) : list string := fst (split_chars s).

(** [s.replace(p, "")] for a non-empty [p]; [skip] characters of an occurrence
    are still to be dropped. *)
Fixpoint remove_all (p : string) (skip : nat) (s : string) : string :=
  match s with
  | EmptyString => ""
  | String c s' =>
      match skip with
      | S k => remove_all p k s'
      | O => if startswith p s then remove_all p (String.length p - 1) s' else String c (remove_all p 0 s')
      end
  end.

(** [s.lstrip(cs)], [s.rstrip(cs)] and [s.strip(cs)] for a set of ASCII
    characters. *)
Fixpoint lstrip_chars (p : ascii → bool) (s : string) : string :=
  match s with
  | String c s' => if p c then lstrip_chars p s' else s
  | EmptyString => ""
  end.
Fixpoint rstrip_chars (p : ascii → bool) (s : string) : string :=
  match s with
  | EmptyString => ""
  | String c s' =>
      match rstrip_chars p s' with
      | EmptyString => if p c then "" else String c ""
      | t => String c t
      end
  end.
Definition strip_chars (p : ascii → bool) (s : string) : string := rstrip_chars p (lstrip_chars p s).

(** [s.splitlines()]: the bytes of the line break at the head of a text, all
    the breaks of [str] included. *)
Definition break_len (s : string) : nat :=
  match s with
  | String a s1 =>
      if bool_decide (code a = 13) then match s1 with String b _ => if bool_decide (code b = 10) then 2 else 1 | _ => 1 end
      else if bool_decide (code a ∈ [10; 11; 12; 28; 29; 30]) then 1
      else match s1 with
      | String b s2 =>
          if bool_decide (code a = 194) && bool_decide (code b = 133) then 2
          else match s2 with
          | String c _ =>
              if bool_decide (code a = 226) && bool_decide (code b = 128) && bool_decide (code c ∈ [168; 169]) then 3 else 0
          | EmptyString => 0
          end
      | EmptyString => 0
      end
  | EmptyString => 0
  end.
Fixpoint split_breaks (skip : nat) (s : string) : list string :=
  match s with
  | EmptyString => [""]
  | String a s' =>
      match skip with
      | S k => split_breaks k s'
      | O =>
          match break_len s with
          | S k => "" :: split_breaks k s'
          | O => match split_breaks 0 s' with l :: ls => String a l :: ls | [] => [] end
          end
      end
  end.
Definition splitlines (s : string) : list string :=
  let l := split_breaks 0 s in if bool_decide (last l = Some "") then removelast l else l.

(** [s[:n]] and [len(s)], in characters. *)
Definition take_chars (n : nat) (s : string) : string := join "" (take n (chars s)).
Definition char_count (s : string) : nat := length (chars s).

(* ------------------------------------------------------------------ *)
(** ** Concatenation *)

Lemma string_length_app s t : String.length (s +:+ t) = String.length s + String.length t.
Proof. induction s as [|a s IH]; simpl; [done|]. by rewrite IH. Qed.

Lemma string_app_inj_l s t u : s +:+ t = s +:+ u → t = u.
Proof. induction s as [|a s IH]; simpl; [done|]. intros [= ?]. auto. Qed.

Lemma string_app_inj_r s t u : s +:+ u = t +:+ u → s = t.
Proof.
  revert t. induction s as [|a s IH]; intros [|b t] E; simpl in *; [done|..].
  - apply (f_equal String.length) in E. rewrite !string_length_app in E. simpl in E. lia.
  - apply (f_equal String.length) in E. rewrite !string_length_app in E. simpl in E. lia.
  - change (String a (s +:+ u) = String b (t +:+ u)) in E. injection E as -> E. by rewrite (IH t).
Qed.

(** The order of [sorted] on strings. *)
Definition str_le (a b : string) : Prop := String.leb a b = true.
#[global] Instance str_le_dec : ∀ a b, Decision (str_le a b).
Proof. intros a b. unfold str_le. apply _. Defined.
