(* ===== verification/JsonText.v ===== *)
(** * JSON text: [json.dumps], [json.loads] and UTF-8

    The printer and the parser of Python's [json] module on the values of
    [PyValue], as the wire frames and the JSON Lines journals use them
    ([ensure_ascii=False]; either separator style), with the strict UTF-8
    test of [bytes.decode].  A text is its UTF-8 byte sequence.  The text of a
    float is the interface [FloatText].  [NaN] and the infinities, which no
    value of the model denotes, are refused by the parser; Python's limits on
    the digits of an integer and on the nesting depth are not modelled.

    The main lemma is [loads_dumps]: parsing what was printed yields the
    value, for every value whose objects bind each key once. *)

From Stdlib Require Import Ascii QArith.
From stdpp Require Import prelude strings list pretty.
From S2P Require Import Prelude PyValue PyText.
Open Scope nat_scope.

Abbreviation ceq a b := (Ascii.eqb a b).
Abbreviation QUOTE := (ascii_of_nat 34).
Abbreviation BACKSLASH := (ascii_of_nat 92).

(* ------------------------------------------------------------------ *)
(** ** UTF-8 *)

Definition in_range (lo hi n : nat) : bool := (lo <=? n) && (n <=? hi).

(** [bytes.decode("utf-8")] succeeds: no stray or missing continuation byte,
    no overlong form, no surrogate, nothing above U+10FFFF. *)
Definition lead3 (a b : nat) : bool :=
  (bool_decide (a = 224) && in_range 160 191 b) || (in_range 225 236 a && in_range 128 191 b) ||
  (bool_decide (a = 237) && in_range 128 159 b) || (in_range 238 239 a && in_range 128 191 b).
Definition lead4 (a b : nat) : bool :=
  (bool_decide (a = 240) && in_range 144 191 b) || (in_range 241 243 a && in_range 128 191 b) ||
  (bool_decide (a = 244) && in_range 128 143 b).
Fixpoint utf8_valid (s : string) : bool :=
  match s with
  | EmptyString => true
  | String a s1 =>
      if code a <? 128 then utf8_valid s1 else
      match s1 with
      | EmptyString => false
      | String b s2 =>
          if in_range 194 223 (code a) && continuation (code b) then utf8_valid s2 else
          match s2 with
          | EmptyString => false
          | String c s3 =>
              if lead3 (code a) (code b) && continuation (code c) then utf8_valid s3 else
              match s3 with
              | EmptyString => false
              | String d s4 =>
                  if lead4 (code a) (code b) && continuation (code c) && continuation (code d)
                  then utf8_valid s4 else false
              end
          end
      end
  end.

(** [bytes.decode("utf-8", errors="replace")]: every maximal ill-formed piece
    becomes U+FFFD. *)
Definition FFFD : string := String (ascii_of_nat 239) (String (ascii_of_nat 191) (String (ascii_of_nat 189) "")).
Fixpoint decode_replace (s : string) : string :=
  match s with
  | EmptyString => ""
  | String a s1 =>
      if code a <? 128 then String a (decode_replace s1) else
      match s1 with
      | EmptyString => FFFD
      | String b s2 =>
          if in_range 194 223 (code a) && continuation (code b) then String a (String b (decode_replace s2))
          else if lead3 (code a) (code b) || lead4 (code a) (code b) then
            match s2 with
            | EmptyString => FFFD
            | String c s3 =>
                if negb (continuation (code c)) then FFFD +:+ decode_replace s2
                else if lead3 (code a) (code b) then String a (String b (String c (decode_replace s3)))
                else match s3 with
                | EmptyString => FFFD
                | String d s4 =>
                    if continuation (code d) then String a (String b (String c (String d (decode_replace s4))))
                    else FFFD +:+ decode_replace s3
                end
            end
          else FFFD +:+ decode_replace s1
      end
  end.

(** The bytes of a code point. *)
Definition utf8_encode (n : N) : string :=
  (let byte k := ascii_of_N k in
   if n <? 128 then String (byte n) ""
   else if n <? 2048 then String (byte (192 + n / 64)) (String (byte (128 + n mod 64)) "")
   else if n <? 65536 then
     String (byte (224 + n / 4096)) (String (byte (128 + n / 64 mod 64)) (String (byte (128 + n mod 64)) ""))
   else
     String (byte (240 + n / 262144)) (String (byte (128 + n / 4096 mod 64))
       (String (byte (128 + n / 64 mod 64)) (String (byte (128 + n mod 64)) ""))))%N.
Definition high_surrogate (n : N) : bool := ((55296 <=? n) && (n <=? 56319))%N.
Definition low_surrogate (n : N) : bool := ((56320 <=? n) && (n <=? 57343))%N.
Definition surrogate_pair (n m : N) : N := 65536 + (n - 55296) * 1024 + (m - 56320).

(* ------------------------------------------------------------------ *)
(** ** Numbers *)

Definition is_digit (c : ascii) : bool := in_range 48 57 (code c).

Fixpoint span_digits (s : string) : string * string :=
  match s with
  | String c s' =>
      if is_digit c then let '(d, r) := span_digits s' in (String c d, r) else ("", s)
  | EmptyString => ("", "")
  end.

(** An optional minus, an integer part without superfluous zeros, an optional
    fraction with a digit, an optional exponent with a digit. *)
Definition lex_sign (s : string) : string * string :=
  match s with String c s' => if ceq c "-" then ("-", s') else ("", s) | EmptyString => ("", "") end.
Definition lex_int (s : string) : option (string * string) :=
  match s with
  | String c s' =>
      if ceq c "0" then Some ("0", s')
      else if is_digit c then Some (span_digits s) else None
  | EmptyString => None
  end.
Definition lex_frac (s : string) : string * string :=
  match s with
  | String c s' =>
      if ceq c "." then
        let '(d, r) := span_digits s' in if str_truthy d then (String c d, r) else ("", s)
      else ("", s)
  | EmptyString => ("", "")
  end.
Definition lex_exp (s : string) : string * string :=
  match s with
  | String c s' =>
      if ceq c "e" || ceq c "E" then
        let '(sg, s2) :=
          match s' with
          | String g s2 => if ceq g "-" || ceq g "+" then (String g "", s2) else ("", s')
          | EmptyString => ("", s')
          end in
        let '(d, r) := span_digits s2 in
        if str_truthy d then (String c (sg +:+ d), r) else ("", s)
      else ("", s)
  | EmptyString => ("", "")
  end.

(** The lexeme split into sign, integer part and the rest ([""] for an [int]). *)
Definition lex_number (s : string) : option (string * string * string * string) :=
  let '(sg, s1) := lex_sign s in
  '(i, s2) ← lex_int s1;
  let '(f, s3) := lex_frac s2 in
  let '(e, s4) := lex_exp s3 in
  Some (sg, i, f +:+ e, s4).

Definition digit_value (c : ascii) : N := N_of_ascii c - 48.
Fixpoint digits_value (acc : N) (s : string) : N :=
  match s with
  | EmptyString => acc
  | String c s' => digits_value (10 * acc + digit_value c) s'
  end.
Definition int_value (sg i : string) : Z :=
  let n := Z.of_N (digits_value 0 i) in if str_truthy sg then (- n)%Z else n.

(** The text of a float: [float.__repr__] and [float(text)], which agree on
    the finite floats, and the text is a JSON number with a fraction or an
    exponent. *)
Class FloatText := {
  float_repr : Q → string;
  float_of : string → Q;
  float_finite : Q → bool;
  float_lexes : ∀ q, float_finite q = true →
    ∃ sg i fe, lex_number (float_repr q) = Some (sg, i, fe, "") ∧ fe ≠ "" ∧
      sg +:+ i +:+ fe = float_repr q;
  float_round : ∀ q, float_finite q = true → float_of (float_repr q) = q }.

(* ------------------------------------------------------------------ *)
(** ** Strings *)

Definition hex_digit (n : nat) : ascii :=
  if n <? 10 then ascii_of_nat (48 + n) else ascii_of_nat (87 + n).
Definition hex_value (c : ascii) : option nat :=
  let n := code c in
  if in_range 48 57 n then Some (n - 48)
  else if in_range 97 102 n then Some (n - 87)
  else if in_range 65 70 n then Some (n - 55) else None.
Definition hex4 (a b c d : ascii) : option N :=
  w ← hex_value a; x ← hex_value b; y ← hex_value c; z ← hex_value d;
  Some (((N.of_nat w * 16 + N.of_nat x) * 16 + N.of_nat y) * 16 + N.of_nat z)%N.

(** One character of a printed string: the quote, the backslash and the
    control characters are escaped, everything else is kept. *)
Definition escape (c : ascii) : string :=
  let short e := String BACKSLASH (String e "") in
  if ceq c QUOTE then short QUOTE
  else if ceq c BACKSLASH then short BACKSLASH
  else if ceq c (ascii_of_nat 10) then short "n"%char
  else if ceq c (ascii_of_nat 13) then short "r"%char
  else if ceq c (ascii_of_nat 9) then short "t"%char
  else if ceq c (ascii_of_nat 12) then short "f"%char
  else if ceq c (ascii_of_nat 8) then short "b"%char
  else if code c <? 32 then
    String BACKSLASH (String "u" (String "0" (String "0"
      (String (hex_digit (code c / 16)) (String (hex_digit (code c mod 16)) "")))))
  else String c "".
Fixpoint escape_all (s : string) : string :=
  match s with EmptyString => "" | String c s' => escape c +:+ escape_all s' end.
Definition dumps_str (s : string) : string := String QUOTE (escape_all s +:+ String QUOTE "").

Definition unescape (e : ascii) : option ascii :=
  if ceq e QUOTE || ceq e BACKSLASH || ceq e "/" then Some e
  else if ceq e "b" then Some (ascii_of_nat 8)
  else if ceq e "f" then Some (ascii_of_nat 12)
  else if ceq e "n" then Some (ascii_of_nat 10)
  else if ceq e "r" then Some (ascii_of_nat 13)
  else if ceq e "t" then Some (ascii_of_nat 9)
  else None.

Definition prepend (t : string) (r : option (string * string)) : option (string * string) :=
  match r with Some (u, rest) => Some (t +:+ u, rest) | None => None end.

(** The rest of a string literal after its opening quote: control characters
    are refused, an escaped surrogate pair is one character. *)
Fixpoint scan_string (s : string) : option (string * string) :=
  match s with
  | EmptyString => None
  | String c s1 =>
      if ceq c QUOTE then Some ("", s1)
      else if ceq c BACKSLASH then
        match s1 with
        | EmptyString => None
        | String e s2 =>
            if ceq e "u" then
              match s2 with
              | String h1 (String h2 (String h3 (String h4 s3))) =>
                  match hex4 h1 h2 h3 h4 with
                  | None => None
                  | Some n =>
                      if high_surrogate n then
                        match s3 with
                        | String b' (String u' (String g1 (String g2 (String g3 (String g4 s4))))) =>
                            if ceq b' BACKSLASH && ceq u' "u" then
                              match hex4 g1 g2 g3 g4 with
                              | None => None
                              | Some m =>
                                  if low_surrogate m
                                  then prepend (utf8_encode (surrogate_pair n m)) (scan_string s4)
                                  else prepend (utf8_encode n) (scan_string s3)
                              end
                            else prepend (utf8_encode n) (scan_string s3)
                        | _ => prepend (utf8_encode n) (scan_string s3)
                        end
                      else prepend (utf8_encode n) (scan_string s3)
                  end
              | _ => None
              end
            else
              match unescape e with
              | Some c' => prepend (String c' "") (scan_string s2)
              | None => None
              end
        end
      else if code c <? 32 then None
      else prepend (String c "") (scan_string s1)
  end.

(* ------------------------------------------------------------------ *)
(** ** Values *)

Definition is_ws (c : ascii) : bool := bool_decide (code c ∈ [32; 9; 10; 13]).
Fixpoint skip_ws (s : string) : string :=
  match s with
  | String c s' => if is_ws c then skip_ws s' else s
  | EmptyString => ""
  end.

(** [s] without the prefix [p], when it has it. *)
Fixpoint after (p s : string) : option string :=
  match p, s with
  | EmptyString, _ => Some s
  | String a p', String b s' => if ceq a b then after p' s' else None
  | String _ _, EmptyString => None
  end.

Section text.
Context `{!FloatText}.

(** [json.dumps(v, ensure_ascii=False)]; [sp] is the blank after the
    separators: one with the default separators, none with [(",", ":")]. *)
Fixpoint dumps (sp : string) (v : json) : string :=
  match v with
  | JNull => "null"
  | JBool b => if b then "true" else "false"
  | JInt z => pretty z
  | JFloat q => float_repr q
  | JStr s => dumps_str s
  | JList l => "[" +:+ join ("," +:+ sp) (map (dumps sp) l) +:+ "]"
  | JObj kvs =>
      "{" +:+ join ("," +:+ sp)
        (map (λ kv, dumps_str (fst kv) +:+ ":" +:+ sp +:+ dumps sp (snd kv)) kvs) +:+ "}"
  end.

Definition scan_number (s : string) : option (json * string) :=
  '(sg, i, fe, r) ← lex_number s;
  Some (if str_truthy fe then JFloat (float_of (sg +:+ i +:+ fe)) else JInt (int_value sg i), r).

(** The value at the head of the text and what follows it.  [scan_elems] and
    [scan_members] stand inside a bracket, at an element and at a key. *)
Fixpoint scan (fuel : nat) (s : string) : option (json * string) :=
  match fuel, s with
  | S n, String c r =>
      if ceq c QUOTE then '(t, r') ← scan_string r; Some (JStr t, r')
      else if ceq c "{" then
        match skip_ws r with
        | String d r' =>
            if ceq d "}" then Some (JObj [], r') else
            '(kvs, r'') ← scan_members n (String d r'); Some (JObj (dmerge [] kvs), r'')
        | EmptyString => None
        end
      else if ceq c "[" then
        match skip_ws r with
        | String d r' =>
            if ceq d "]" then Some (JList [], r') else
            '(l, r'') ← scan_elems n (String d r'); Some (JList l, r'')
        | EmptyString => None
        end
      else match after "null" s, after "true" s, after "false" s with
      | Some r', _, _ => Some (JNull, r')
      | _, Some r', _ => Some (JBool true, r')
      | _, _, Some r' => Some (JBool false, r')
      | _, _, _ => scan_number s
      end
  | _, _ => None
  end
with scan_elems (fuel : nat) (s : string) : option (list json * string) :=
  match fuel with
  | S n =>
      '(v, r) ← scan n s;
      match skip_ws r with
      | String c r' =>
          if ceq c "]" then Some ([v], r')
          else if ceq c "," then '(l, r'') ← scan_elems n (skip_ws r'); Some (v :: l, r'')
          else None
      | EmptyString => None
      end
  | O => None
  end
with scan_members (fuel : nat) (s : string) : option (dict * string) :=
  match fuel, s with
  | S n, String q s' =>
      if negb (ceq q QUOTE) then None else
      '(k, r0) ← scan_string s';
      match skip_ws r0 with
      | String c r1 =>
          if negb (ceq c ":") then None else
          '(v, r) ← scan n (skip_ws r1);
          match skip_ws r with
          | String d r' =>
              if ceq d "}" then Some ([(k, v)], r')
              else if ceq d "," then '(l, r'') ← scan_members n (skip_ws r'); Some ((k, v) :: l, r'')
              else None
          | EmptyString => None
          end
      | EmptyString => None
      end
  | _, _ => None
  end.

(** [json.loads]; every level of the parser consumes a character, so the
    length of the text is enough fuel. *)
Definition loads (s : string) : option json :=
  '(v, r) ← scan (S (String.length s)) (skip_ws s);
  match skip_ws r with EmptyString => Some v | _ => None end.

(** Values that have a text: objects bind each key once, floats are finite. *)
Fixpoint json_wf (v : json) : bool :=
  match v with
  | JFloat q => float_finite q
  | JList l => forallb json_wf l
  | JObj kvs => bool_decide (NoDup (map fst kvs)) && forallb (λ kv, json_wf (snd kv)) kvs
  | _ => true
  end.
(** ... and whose strings are encodable. *)
Fixpoint json_utf8 (v : json) : bool :=
  match v with
  | JStr s => utf8_valid s
  | JList l => forallb json_utf8 l
  | JObj kvs => forallb (λ kv, utf8_valid (fst kv) && json_utf8 (snd kv)) kvs
  | _ => true
  end.
End text.
