(* ===== verification/JsonRound.v ===== *)
(** * Parsing undoes printing

    The lemmas behind the JSON round trip: string escapes, the digits of an
    integer, number lexemes, and then by induction on the value [loads_dumps].
    [dumps_utf8] shows that the printed text is valid UTF-8. *)

From Stdlib Require Import Ascii QArith.
From stdpp Require Import prelude strings list pretty.
From S2P Require Import Prelude PyValue PyText JsonText.
Open Scope nat_scope.

(* ------------------------------------------------------------------ *)
(** ** Strings *)

Lemma string_app_assoc (s t u : string) : (s +:+ t) +:+ u = s +:+ t +:+ u.
Proof. induction s as [|a s IH]; [done|]. exact (f_equal (String a) IH). Qed.
Lemma string_app_nil (s : string) : s +:+ "" = s.
Proof. induction s as [|a s IH]; [done|]. exact (f_equal (String a) IH). Qed.
Lemma string_cons_app a (s t : string) : String a s +:+ t = String a (s +:+ t).
Proof. done. Qed.

Lemma prepend_prepend a b r : prepend a (prepend b r) = prepend (a +:+ b) r.
Proof. destruct r as [[u rest]|]; simpl; [|done]. by rewrite string_app_assoc. Qed.

Lemma scan_escape c t : scan_string (escape c +:+ t) = prepend (String c "") (scan_string t).
Proof. destruct c as [[] [] [] [] [] [] [] []]; reflexivity. Qed.

Lemma scan_escape_all s rest :
  scan_string (escape_all s +:+ String QUOTE rest) = Some (s, rest).
Proof.
  induction s as [|c s IH]; [done|].
  cbn [escape_all]. by rewrite string_app_assoc, scan_escape, IH.
Qed.

Lemma dumps_str_app s rest :
  dumps_str s +:+ rest = String QUOTE (escape_all s +:+ String QUOTE rest).
Proof. unfold dumps_str. by rewrite string_cons_app, string_app_assoc. Qed.

(* ------------------------------------------------------------------ *)
(** ** Numbers *)

Fixpoint all_digits (s : string) : bool :=
  match s with EmptyString => true | String c s' => is_digit c && all_digits s' end.

(** The text after a number does not continue it. *)
Definition number_end (s : string) : bool :=
  match s with
  | EmptyString => true
  | String c _ => negb (is_digit c || ceq c "." || ceq c "e" || ceq c "E" || ceq c "-" || ceq c "+")
  end.

Lemma span_digits_app d rest :
  all_digits d = true → match rest with String c _ => is_digit c = false | _ => True end →
  span_digits (d +:+ rest) = (d, rest).
Proof.
  intros Hd Hr. induction d as [|c d IH].
  - destruct rest as [|c r]; [done|].
    change (span_digits (String c r) = ("", String c r)). cbn [span_digits]. by rewrite Hr.
  - simpl in Hd. apply andb_true_iff in Hd as [Hc Hd].
    rewrite string_cons_app. cbn [span_digits]. by rewrite Hc, (IH Hd).
Qed.

Lemma digit_char n : (n < 10)%N →
  is_digit (pretty_N_char n) = true ∧ digit_value (pretty_N_char n) = n ∧
  (n ≠ 0%N → ceq (pretty_N_char n) "0" = false).
Proof.
  intros Hn.
  assert (n = 0 ∨ n = 1 ∨ n = 2 ∨ n = 3 ∨ n = 4 ∨ n = 5 ∨ n = 6 ∨ n = 7 ∨ n = 8 ∨ n = 9)%N as Hc by lia.
  repeat destruct Hc as [->|Hc]; subst; done.
Qed.

(** The digits of a positive number: only digits, no leading zero, and the
    number is their value. *)
Definition leads_nonzero (s : string) : bool :=
  match s with String c _ => is_digit c && negb (ceq c "0") | EmptyString => false end.

Lemma pretty_go_digits x s : all_digits (pretty_N_go x s) = all_digits s.
Proof.
  revert s. induction (N.lt_wf_0 x) as [x _ IH]; intros s.
  assert (x = 0 ∨ 0 < x)%N as [->|Hx] by lia; [done|].
  rewrite pretty_N_go_step by done. rewrite IH by (apply N.div_lt; lia).
  cbn [all_digits]. by rewrite (proj1 (digit_char (x mod 10) ltac:(apply N.mod_lt; lia))).
Qed.

Lemma pretty_go_leads x s : (0 < x)%N → leads_nonzero (pretty_N_go x s) = true.
Proof.
  revert s. induction (N.lt_wf_0 x) as [x _ IH]; intros s Hx.
  rewrite pretty_N_go_step by done.
  destruct (decide (x < 10)%N).
  - rewrite N.div_small, N.mod_small by done. rewrite pretty_N_go_0. cbn [leads_nonzero].
    destruct (digit_char x) as (-> & _ & Hz); [done|]. by rewrite Hz by lia.
  - apply IH; [apply N.div_lt; lia|]. apply N.div_str_pos; lia.
Qed.

Lemma pretty_go_value x s : digits_value 0 (pretty_N_go x s) = digits_value x s.
Proof.
  revert s. induction (N.lt_wf_0 x) as [x _ IH]; intros s.
  assert (x = 0 ∨ 0 < x)%N as [->|Hx] by lia; [done|].
  rewrite pretty_N_go_step by done. rewrite IH by (apply N.div_lt; lia).
  cbn [digits_value]. rewrite (proj1 (proj2 (digit_char (x mod 10) ltac:(apply N.mod_lt; lia)))).
  by rewrite <- N.div_mod by lia.
Qed.

Lemma number_end_digit rest : number_end rest = true →
  match rest with String c _ => is_digit c = false | _ => True end.
Proof. destruct rest as [|c r]; [done|]. cbn [number_end]. by destruct (is_digit c). Qed.

Lemma lex_int_digits d rest :
  all_digits d = true → leads_nonzero d = true → number_end rest = true →
  lex_int (d +:+ rest) = Some (d, rest).
Proof.
  intros Hd Hl Hr. destruct d as [|c d]; [done|]. simpl in Hl.
  apply andb_true_iff in Hl as [Hc Hz]. apply negb_true_iff in Hz.
  pose proof (span_digits_app (String c d) rest Hd (number_end_digit _ Hr)) as Hs.
  rewrite string_cons_app in *. cbn [lex_int]. by rewrite Hz, Hc, Hs.
Qed.

Lemma lex_tail_end rest : number_end rest = true → lex_frac rest = ("", rest) ∧ lex_exp rest = ("", rest).
Proof.
  destruct rest as [|c r]; [done|]. cbn [number_end lex_frac lex_exp].
  rewrite negb_true_iff, !orb_false_iff.
  by intros [[[[[_ ->] ->] ->] _] _].
Qed.

Lemma lex_pos p rest : number_end rest = true →
  lex_int (pretty (Npos p) +:+ rest) = Some (pretty (Npos p), rest) ∧
  digits_value 0 (pretty (Npos p)) = Npos p ∧ leads_nonzero (pretty (Npos p)) = true.
Proof.
  intros Hr. change (pretty (Npos p)) with (pretty_N_go (Npos p) "").
  split_and!.
  - apply lex_int_digits; [by rewrite pretty_go_digits|by apply pretty_go_leads|done].
  - by rewrite pretty_go_value.
  - by apply pretty_go_leads.
Qed.

Lemma lex_sign_digit s : match s with String c _ => ceq c "-" = false | _ => True end → lex_sign s = ("", s).
Proof. destruct s as [|c s]; [done|]. cbn. by intros ->. Qed.

Lemma leads_not_minus s rest : leads_nonzero s = true → lex_sign (s +:+ rest) = ("", s +:+ rest).
Proof.
  intros Hl. apply lex_sign_digit. destruct s as [|c s]; [done|]. rewrite string_cons_app.
  apply Ascii.eqb_neq. by intros ->.
Qed.

(** An integer's text lexes to itself and has its value. *)
Lemma lex_pretty z rest : number_end rest = true →
  ∃ sg i, lex_number (pretty z +:+ rest) = Some (sg, i, "", rest) ∧ int_value sg i = z.
Proof.
  intros Hr. destruct (lex_tail_end rest Hr) as [Hf He].
  destruct z as [|p|p]; unfold lex_number.
  - exists "", "0". change (pretty 0%Z +:+ rest) with (String "0" rest). cbn. by rewrite Hf, He.
  - destruct (lex_pos p rest Hr) as (Hi & Hv & Hl).
    exists "", (pretty (Npos p)). change (pretty (Zpos p)) with (pretty (Npos p)).
    rewrite leads_not_minus by done. rewrite Hi. cbn. rewrite Hf, He. split; [done|].
    unfold int_value. by rewrite Hv.
  - destruct (lex_pos p rest Hr) as (Hi & Hv & Hl).
    exists "-", (pretty (Npos p)).
    change (pretty (Zneg p) +:+ rest) with (String "-" (pretty (Npos p) +:+ rest)).
    cbn [lex_sign]. change (ceq "-" "-") with true. cbn iota. rewrite Hi. cbn. rewrite Hf, He.
    split; [done|]. unfold int_value. by rewrite Hv.
Qed.

(** Lexing is not affected by what follows the number. *)
Section extend.
Context (rest : string) (Hrest : number_end rest = true).

Lemma span_digits_extend s d r : span_digits s = (d, r) → span_digits (s +:+ rest) = (d, r +:+ rest).
Proof.
  revert d r. induction s as [|c s IH]; intros d r.
  - intros [= <- <-]. apply (span_digits_app "" rest); [done|by apply number_end_digit].
  - rewrite string_cons_app. cbn [span_digits].
    destruct (is_digit c); [|by intros [= <- <-]].
    destruct (span_digits s) as [d' r']. intros [= <- <-]. by rewrite (IH d' r').
Qed.

Lemma lex_int_extend s i r : lex_int s = Some (i, r) → lex_int (s +:+ rest) = Some (i, r +:+ rest).
Proof.
  destruct s as [|c s]; [done|]. rewrite string_cons_app. cbn [lex_int].
  destruct (ceq c "0"); [by intros [= <- <-]|].
  destruct (is_digit c); [|done].
  intros [= Hs]. f_equal. by apply (span_digits_extend (String c s)).
Qed.

Lemma lex_frac_extend s f r : lex_frac s = (f, r) → lex_frac (s +:+ rest) = (f, r +:+ rest).
Proof.
  destruct s as [|c s]; [intros [= <- <-]; apply (lex_tail_end rest Hrest)|].
  rewrite string_cons_app. cbn [lex_frac]. destruct (ceq c "."); [|by intros [= <- <-]].
  destruct (span_digits s) as [d r'] eqn:Hs. rewrite (span_digits_extend _ _ _ Hs).
  destruct (str_truthy d); by intros [= <- <-].
Qed.

Lemma number_end_sign : match rest with String c _ => (ceq c "-" || ceq c "+") = false | _ => True end.
Proof.
  destruct rest as [|c r]; [done|]. cbn [number_end] in Hrest.
  rewrite negb_true_iff, !orb_false_iff in Hrest. apply orb_false_iff. naive_solver.
Qed.

Definition exp_sign (s : string) : string * string :=
  match s with
  | String g s2 => if ceq g "-" || ceq g "+" then (String g "", s2) else ("", s)
  | EmptyString => ("", s)
  end.
Lemma exp_sign_extend s g r : exp_sign s = (g, r) → exp_sign (s +:+ rest) = (g, r +:+ rest).
Proof.
  destruct s as [|c s].
  - intros [= <- <-]. change ("" +:+ rest) with rest. pose proof number_end_sign.
    destruct rest; cbn [exp_sign]; [done|]. by case_match.
  - rewrite string_cons_app. cbn [exp_sign]. case_match; by intros [= <- <-].
Qed.

Lemma lex_exp_extend s e r : lex_exp s = (e, r) → lex_exp (s +:+ rest) = (e, r +:+ rest).
Proof.
  destruct s as [|c s]; [intros [= <- <-]; apply (lex_tail_end rest Hrest)|].
  rewrite string_cons_app. cbn [lex_exp]. destruct (ceq c "e" || ceq c "E"); [|by intros [= <- <-]].
  fold (exp_sign s) (exp_sign (s +:+ rest)).
  destruct (exp_sign s) as [g s2] eqn:Hg. rewrite (exp_sign_extend _ _ _ Hg).
  destruct (span_digits s2) as [d r'] eqn:Hs. rewrite (span_digits_extend _ _ _ Hs).
  destruct (str_truthy d); by intros [= <- <-].
Qed.

Lemma lex_number_extend s sg i fe r :
  lex_number s = Some (sg, i, fe, r) → lex_number (s +:+ rest) = Some (sg, i, fe, r +:+ rest).
Proof.
  unfold lex_number. destruct (lex_sign s) as [sg' s1] eqn:Hsg.
  assert (s ≠ "" → lex_sign (s +:+ rest) = (sg', s1 +:+ rest)) as Hsg'.
  { destruct s as [|c s]; [done|]. intros _. rewrite string_cons_app. cbn [lex_sign] in *.
    destruct (ceq c "-"); by simplify_eq. }
  destruct (decide (s = "")) as [->|Hne]; [by injection Hsg as <- <-|]. rewrite Hsg' by done.
  destruct (lex_int s1) as [[i' s2]|] eqn:Hi; [|done]. rewrite (lex_int_extend _ _ _ Hi). cbn.
  destruct (lex_frac s2) as [f s3] eqn:Hf. rewrite (lex_frac_extend _ _ _ Hf).
  destruct (lex_exp s3) as [e s4] eqn:He. rewrite (lex_exp_extend _ _ _ He).
  by intros [= <- <- <- <-].
Qed.
End extend.

(* ------------------------------------------------------------------ *)
(** ** Values *)

(** Induction on a value with the hypothesis for every element and member. *)
Lemma json_nested_ind (P : json → Prop) :
  P JNull → (∀ b, P (JBool b)) → (∀ z, P (JInt z)) → (∀ q, P (JFloat q)) → (∀ s, P (JStr s)) →
  (∀ l, Forall P l → P (JList l)) →
  (∀ kvs, Forall (λ kv, P (snd kv)) kvs → P (JObj kvs)) → ∀ v, P v.
Proof.
  intros Hn Hb Hi Hf Hs Hl Ho. fix IH 1.
  intros [|b|z|q|s|l|kvs]; [apply Hn|apply Hb|apply Hi|apply Hf|apply Hs|apply Hl|apply Ho].
  - induction l as [|v l IHl]; constructor; [apply IH|apply IHl].
  - induction kvs as [|[k v] kvs IHl]; constructor; [apply IH|apply IHl].
Qed.

Definition number_head (s : string) : bool :=
  match s with String c _ => ceq c "-" || is_digit c | EmptyString => false end.
(** The characters a value's text can start with. *)
Definition value_head (s : string) : bool :=
  match s with
  | String c _ => negb (is_ws c || ceq c "]" || ceq c "}" || ceq c "," || ceq c ":")
  | EmptyString => false
  end.

Lemma number_value_head s : number_head s = true → value_head s = true.
Proof.
  destruct s as [|c s]; [done|]. cbn [number_head value_head].
  destruct c as [[] [] [] [] [] [] [] []]; (done || discriminate).
Qed.
Lemma lex_number_head s x : lex_number s = Some x → number_head s = true.
Proof.
  unfold lex_number. destruct s as [|c s]; [done|]. cbn [lex_sign number_head].
  destruct (ceq c "-"); [done|]. cbn [lex_int].
  destruct (Ascii.eqb_spec c "0") as [->|]; [done|]. by destruct (is_digit c).
Qed.

Lemma skip_ws_head s : value_head s = true → skip_ws s = s.
Proof.
  destruct s as [|c s]; [done|]. cbn [value_head skip_ws]. by destruct (is_ws c).
Qed.
Lemma value_head_app s t : value_head s = true → value_head (s +:+ t) = true.
Proof. by destruct s. Qed.

Lemma dset_fresh {V} k (v : V) d : k ∉ map fst d → dset k v d = d ++ [(k, v)].
Proof.
  induction d as [|[k' v'] d IH]; [done|]. cbn [map fst dset].
  rewrite not_elem_of_cons. intros [Hne Hd]. rewrite bool_decide_eq_false_2 by done.
  by rewrite (IH Hd).
Qed.
Lemma dmerge_fresh {V} (a b : list (string * V)) :
  NoDup (map fst (a ++ b)) → dmerge a b = a ++ b.
Proof.
  unfold dmerge. revert a. induction b as [|[k v] b IH]; intros a Hnd; [by rewrite app_nil_r|].
  cbn [foldl fst snd]. rewrite dset_fresh.
  - rewrite (IH (a ++ [(k, v)])); by rewrite <- app_assoc.
  - rewrite map_app in Hnd. apply NoDup_app in Hnd as (_ & Hd & _).
    intros Hin. apply (Hd _ Hin). left.
Qed.

Section round.
Context `{!FloatText} (sp : string) (Hsp : ∀ s, skip_ws (sp +:+ s) = skip_ws s).

Lemma scan_at_number n s : number_head s = true → scan (S n) s = scan_number s.
Proof.
  destruct s as [|c s]; [done|]. cbn [number_head].
  destruct c as [[] [] [] [] [] [] [] []]; (discriminate || reflexivity).
Qed.

Lemma dumps_head v : json_wf v = true → value_head (dumps sp v) = true.
Proof.
  destruct v as [|[]|z|q|s|l|kvs]; try done.
  - intros _. apply number_value_head.
    destruct (lex_pretty z "" eq_refl) as (sg & i & Hl & _).
    rewrite string_app_nil in Hl. by eapply lex_number_head.
  - intros Hq. apply number_value_head.
    destruct (float_lexes q Hq) as (sg & i & fe & Hl & _). by eapply lex_number_head.
Qed.

Lemma scan_int z n rest : number_end rest = true → scan (S n) (pretty z +:+ rest) = Some (JInt z, rest).
Proof.
  intros Hr. destruct (lex_pretty z rest Hr) as (sg & i & Hl & Hv).
  rewrite scan_at_number by (by eapply lex_number_head).
  unfold scan_number. rewrite Hl. cbn. by rewrite Hv.
Qed.

Lemma scan_float q n rest : float_finite q = true → number_end rest = true →
  scan (S n) (float_repr q +:+ rest) = Some (JFloat q, rest).
Proof.
  intros Hq Hr. destruct (float_lexes q Hq) as (sg & i & fe & Hl & Hfe & Ht).
  apply (lex_number_extend rest Hr) in Hl.
  rewrite scan_at_number by (by eapply lex_number_head).
  unfold scan_number. rewrite Hl. cbn. rewrite Ht, float_round by done.
  destruct fe; [done|]. done.
Qed.

(** The value of one element, in any context a container gives it. *)
Definition scans (v : json) : Prop := ∀ n rest,
  String.length (dumps sp v) ≤ n → number_end rest = true →
  scan n (dumps sp v +:+ rest) = Some (v, rest).

Lemma dumps_nonempty v : json_wf v = true → 0 < String.length (dumps sp v).
Proof. intros Hv%dumps_head. destruct (dumps sp v); [done|]. simpl. lia. Qed.

Lemma scan_elems_dumps v l n rest :
  Forall scans (v :: l) → forallb json_wf (v :: l) = true →
  String.length (join ("," +:+ sp) (map (dumps sp) (v :: l))) < n →
  scan_elems n (join ("," +:+ sp) (map (dumps sp) (v :: l)) +:+ String "]" rest) = Some (v :: l, rest).
Proof.
  revert v n. induction l as [|w l IH]; intros v n Hs Hwf Hn;
    apply Forall_cons in Hs as [Hv Hs]; cbn [forallb] in Hwf; apply andb_true_iff in Hwf as [Hv' Hwf];
    (destruct n as [|n]; [lia|]).
  - cbn [map join] in *. cbn [scan_elems]. by rewrite Hv by (done || lia).
  - change (join ("," +:+ sp) (map (dumps sp) (v :: w :: l))) with
      (dumps sp v +:+ ("," +:+ sp) +:+ join ("," +:+ sp) (map (dumps sp) (w :: l))) in *.
    rewrite !string_length_app in Hn. cbn [String.length] in Hn.
    rewrite !string_app_assoc. cbn [scan_elems]. rewrite Hv by (done || lia).
    change ("," +:+ ?t) with (String "," t). cbn [mbind option_bind skip_ws].
    change (is_ws ",") with false. cbn iota. change (ceq "," "]") with false. change (ceq "," ",") with true.
    cbn iota. rewrite Hsp, skip_ws_head.
    + rewrite IH by (done || lia). done.
    + apply value_head_app. cbn [map]. apply andb_true_iff in Hwf as [Hw _].
      apply dumps_head in Hw. destruct l; cbn [map join]; [done|]. by apply value_head_app.
Qed.

Abbreviation member kv := (dumps_str (fst kv) +:+ ":" +:+ sp +:+ dumps sp (snd kv)).

Lemma scan_member n kv rest :
  scans (snd kv) → json_wf (snd kv) = true → String.length (member kv) ≤ n → number_end rest = true →
  scan_members (S n) (member kv +:+ rest) =
    match skip_ws rest with
    | String d r' =>
        if ceq d "}" then Some ([kv], r')
        else if ceq d "," then '(l, r'') ← scan_members n (skip_ws r'); Some (kv :: l, r'')
        else None
    | EmptyString => None
    end.
Proof.
  destruct kv as [k v]. cbn [fst snd]. intros Hv Hwf Hn Hr.
  rewrite !string_length_app in Hn.
  rewrite string_app_assoc, dumps_str_app. cbn [scan_members].
  change (ceq QUOTE QUOTE) with true. cbn [negb]. rewrite scan_escape_all. cbn [mbind option_bind].
  change ((":" +:+ sp +:+ dumps sp v) +:+ rest) with (String ":" ((sp +:+ dumps sp v) +:+ rest)).
  cbn [skip_ws]. change (is_ws ":") with false. cbn iota. change (ceq ":" ":") with true. cbn [negb].
  rewrite string_app_assoc, Hsp, skip_ws_head by (by apply value_head_app, dumps_head).
  by rewrite Hv by (done || lia).
Qed.

Lemma member_head kvs t : kvs ≠ [] →
  ∃ r, join ("," +:+ sp) (map (λ kv, member kv) kvs) +:+ t = String QUOTE r.
Proof.
  destruct kvs as [|kv [|kv' kvs]]; [done|..]; intros _; cbn [map join];
    rewrite !string_app_assoc, dumps_str_app; eauto.
Qed.

Lemma scan_members_dumps kv kvs n rest :
  Forall (λ kv, scans (snd kv)) (kv :: kvs) → forallb (λ kv, json_wf (snd kv)) (kv :: kvs) = true →
  String.length (join ("," +:+ sp) (map (λ kv, member kv) (kv :: kvs))) < n →
  scan_members n (join ("," +:+ sp) (map (λ kv, member kv) (kv :: kvs)) +:+ String "}" rest)
    = Some (kv :: kvs, rest).
Proof.
  revert kv n. induction kvs as [|kv' kvs IH]; intros kv n Hs Hwf Hn;
    apply Forall_cons in Hs as [Hv Hs]; cbn [forallb] in Hwf; apply andb_true_iff in Hwf as [Hv' Hwf];
    (destruct n as [|n]; [lia|]).
  - cbn [map join] in *. by rewrite scan_member by (done || lia).
  - change (join ("," +:+ sp) (map (λ kv, member kv) (kv :: kv' :: kvs))) with
      (member kv +:+ ("," +:+ sp) +:+ join ("," +:+ sp) (map (λ kv, member kv) (kv' :: kvs))) in *.
    rewrite string_length_app, (string_length_app ("," +:+ sp)) in Hn.
    change (String.length ("," +:+ sp)) with (S (String.length sp)) in Hn.
    rewrite string_app_assoc, scan_member by (done || lia).
    rewrite !string_app_assoc. change ("," +:+ ?t) with (String "," t). cbn [skip_ws].
    change (is_ws ",") with false. cbn iota. change (ceq "," "}") with false. change (ceq "," ",") with true.
    cbn iota. rewrite Hsp. specialize (IH kv' n Hs Hwf ltac:(lia)).
    destruct (member_head (kv' :: kvs) (String "}" rest)) as [r E]; [done|]. rewrite E in *.
    change (skip_ws (String QUOTE r)) with (String QUOTE r). by rewrite IH.
Qed.

(** A hypothesis for the elements of a container, from one for each value. *)
Lemma scans_all {A} (f : A → json) l :
  Forall (λ x, json_wf (f x) = true → scans (f x)) l → forallb (λ x, json_wf (f x)) l = true →
  Forall (λ x, scans (f x)) l.
Proof.
  rewrite !Forall_forall, forallb_forall. intros IH Hwf x Hx. apply IH; [done|].
  apply Hwf. by apply list_elem_of_In.
Qed.

Lemma scan_list n v l rest :
  Forall scans (v :: l) → forallb json_wf (v :: l) = true →
  String.length (dumps sp (JList (v :: l))) ≤ S n →
  scan (S n) (dumps sp (JList (v :: l)) +:+ rest) = Some (JList (v :: l), rest).
Proof.
  intros Hs Hwf. cbn [dumps]. rewrite !string_length_app. cbn [String.length]. intros Hn.
  rewrite !string_app_assoc.
  pose proof (scan_elems_dumps v l n rest Hs Hwf ltac:(lia)) as E.
  change ("]" +:+ rest) with (String "]" rest). change ("[" +:+ ?t) with (String "[" t).
  assert (value_head (join ("," +:+ sp) (map (dumps sp) (v :: l)) +:+ String "]" rest) = true) as Hh.
  { apply value_head_app. cbn [forallb] in Hwf. apply andb_true_iff in Hwf as [Hw%dumps_head _].
    destruct l; cbn [map join]; [done|]. by apply value_head_app. }
  revert Hh E. generalize (join ("," +:+ sp) (map (dumps sp) (v :: l)) +:+ String "]" rest). intros t Hh E.
  cbn [scan]. rewrite skip_ws_head by done. destruct t as [|d t]; [done|].
  change (ceq "[" QUOTE) with false. change (ceq "[" "{") with false. change (ceq "[" "[") with true. cbn iota.
  destruct (Ascii.eqb_spec d "]") as [->|]; [done|]. by rewrite E.
Qed.

Lemma scan_obj n kv kvs rest :
  Forall (λ kv, scans (snd kv)) (kv :: kvs) → json_wf (JObj (kv :: kvs)) = true →
  String.length (dumps sp (JObj (kv :: kvs))) ≤ S n →
  scan (S n) (dumps sp (JObj (kv :: kvs)) +:+ rest) = Some (JObj (kv :: kvs), rest).
Proof.
  intros Hs. cbn [dumps json_wf]. intros [Hnd%bool_decide_eq_true Hwf]%andb_true_iff.
  rewrite string_length_app, (string_length_app _ "}"). cbn [String.length]. intros Hn.
  rewrite !string_app_assoc.
  pose proof (scan_members_dumps kv kvs n rest Hs Hwf ltac:(lia)) as E.
  change ("}" +:+ rest) with (String "}" rest). change ("{" +:+ ?t) with (String "{" t).
  destruct (member_head (kv :: kvs) (String "}" rest)) as [r Er]; [done|]. rewrite Er in *.
  change (scan (S n) (String "{" (String QUOTE r))) with
    ('(kvs, r'') ← scan_members n (String QUOTE r); Some (JObj (dmerge [] kvs), r'')).
  rewrite E. cbn [mbind option_bind]. by rewrite dmerge_fresh.
Qed.

(** Scanning a printed value yields it and stops at its end. *)
Lemma scan_dumps v : json_wf v = true → scans v.
Proof.
  induction v as [|b|z|q|s|l IH|kvs IH] using json_nested_ind; intros Hwf n rest Hn Hr;
    (destruct n as [|n]; [apply dumps_nonempty in Hwf; lia|]).
  - done.
  - by destruct b.
  - by apply scan_int.
  - by apply scan_float.
  - cbn [dumps]. rewrite dumps_str_app. cbn [scan]. change (ceq QUOTE QUOTE) with true. cbn iota.
    by rewrite scan_escape_all.
  - destruct l as [|v l]; [done|]. apply scan_list; [|done..]. by apply (scans_all id).
  - destruct kvs as [|kv kvs]; [done|]. apply scan_obj; [|done..].
    apply (scans_all snd); [done|]. by apply andb_true_iff in Hwf as [_ ?].
Qed.

(** [json.loads(json.dumps(v)) == v]. *)
Lemma loads_dumps v : json_wf v = true → loads (dumps sp v) = Some v.
Proof.
  intros Hwf. unfold loads. rewrite skip_ws_head by (by apply dumps_head).
  pose proof (scan_dumps v Hwf (S (String.length (dumps sp v))) "" ltac:(lia) eq_refl) as E.
  rewrite string_app_nil in E. by rewrite E.
Qed.
End round.

(* ------------------------------------------------------------------ *)
(** ** Printed text is UTF-8 *)

Lemma utf8_step a s1 : utf8_valid (String a s1) =
  (if code a <? 128 then utf8_valid s1 else
   match s1 with
   | EmptyString => false
   | String b s2 =>
       if in_range 194 223 (code a) && continuation (code b) then utf8_valid s2 else
       match s2 with
       | EmptyString => false
       | String c s3 =>
           if lead3 (code a) (code b) && continuation (code c) then utf8_valid s3 else
           match s3 with
           | EmptyString => false
           | String d s4 =>
               if lead4 (code a) (code b) && continuation (code c) && continuation (code d)
               then utf8_valid s4 else false
           end
       end
   end).
Proof. done. Qed.

Lemma utf8_app s t : utf8_valid s = true → utf8_valid t = true → utf8_valid (s +:+ t) = true.
Proof.
  intros Hs Ht. revert Hs.
  induction s as [s IH] using (induction_ltof1 _ String.length). unfold ltof in IH.
  destruct s as [|a s]; [done|]. rewrite string_cons_app, !utf8_step.
  destruct (code a <? 128); [apply IH; simpl; lia|].
  destruct s as [|b s]; [done|]. rewrite string_cons_app.
  destruct (_ && _); [apply IH; simpl; lia|].
  destruct s as [|c s]; [done|]. rewrite string_cons_app.
  destruct (_ && _); [apply IH; simpl; lia|].
  destruct s as [|d s]; [done|]. rewrite string_cons_app.
  destruct (_ && _); [apply IH; simpl; lia|done].
Qed.

Lemma utf8_ascii c s : code c < 128 → utf8_valid (String c s) = utf8_valid s.
Proof. intros Hc%Nat.ltb_lt. cbn [utf8_valid]. by rewrite Hc. Qed.

(** A character of a string is escaped by ASCII characters or kept. *)
Lemma escape_utf8 c t : utf8_valid t = true → code c < 128 → utf8_valid (escape c +:+ t) = true.
Proof. destruct c as [[] [] [] [] [] [] [] []]; intros Ht Hc; try exact Ht; exfalso; revert Hc; vm_compute; lia. Qed.
Lemma escape_high c : 128 ≤ code c → escape c = String c "".
Proof. destruct c as [[] [] [] [] [] [] [] []]; intros Hc; try reflexivity; exfalso; revert Hc; vm_compute; lia. Qed.
Lemma continuation_high n : continuation n = true → 128 ≤ n.
Proof. unfold continuation. intros. by breflect. Qed.
Lemma lead_high a b : lead3 a b = true ∨ lead4 a b = true → 128 ≤ b.
Proof.
  unfold lead3, lead4, in_range. intros [H|H];
    repeat (apply orb_true_iff in H as [H|H]); apply andb_true_iff in H as [_ H];
    apply andb_true_iff in H as [H%Nat.leb_le _]; lia.
Qed.

Lemma escape_all_high c s : 128 ≤ code c → escape_all (String c s) = String c (escape_all s).
Proof. intros Hc. cbn [escape_all]. by rewrite escape_high. Qed.

Lemma escape_all_utf8 s : utf8_valid s = true → utf8_valid (escape_all s) = true.
Proof.
  induction s as [s IH] using (induction_ltof1 _ String.length). unfold ltof in IH.
  destruct s as [|a s]; [done|]. rewrite utf8_step.
  destruct (Nat.ltb_spec (code a) 128) as [Ha|Ha].
  { intros Hs. apply escape_utf8; [|done]. apply IH; [simpl; lia|done]. }
  assert (code a <? 128 = false) as Ha' by (by apply Nat.ltb_ge).
  rewrite escape_all_high by done. destruct s as [|b s]; [done|].
  destruct (_ && _) eqn:E2.
  { apply andb_true_iff in E2 as E. destruct E as [_ Hb%continuation_high]. intros Hs.
    rewrite escape_all_high, utf8_step, Ha', E2 by done. apply IH; [simpl; lia|done]. }
  destruct s as [|c s]; [done|]. destruct (lead3 _ _ && _) eqn:E3.
  { apply andb_true_iff in E3 as E. destruct E as [Hb Hc%continuation_high]. intros Hs.
    apply (or_introl (B := lead4 (code a) (code b) = true)), lead_high in Hb.
    rewrite !escape_all_high, utf8_step, Ha', E2, E3 by done.
    apply IH; [simpl; lia|done]. }
  destruct s as [|d s]; [done|]. destruct (lead4 _ _ && _ && _) eqn:E4; [|done].
  apply andb_true_iff in E4 as E. destruct E as [[Hb Hc%continuation_high]%andb_true_iff Hd%continuation_high].
  apply (or_intror (A := lead3 (code a) (code b) = true)), lead_high in Hb.
  intros Hs. rewrite !escape_all_high, utf8_step, Ha', E2, E3, E4 by done.
  apply IH; [simpl; lia|done].
Qed.

Lemma dumps_str_utf8 s : utf8_valid s = true → utf8_valid (dumps_str s) = true.
Proof.
  intros Hs. unfold dumps_str. rewrite utf8_ascii by (vm_compute; lia).
  apply utf8_app; [by apply escape_all_utf8|done].
Qed.

(** The characters of a number. *)
Fixpoint str_all (p : ascii → bool) (s : string) : bool :=
  match s with EmptyString => true | String c s' => p c && str_all p s' end.
Definition numeric (c : ascii) : bool :=
  is_digit c || ceq c "-" || ceq c "+" || ceq c "." || ceq c "e" || ceq c "E".

Lemma str_all_app p s t : str_all p (s +:+ t) = str_all p s && str_all p t.
Proof.
  induction s as [|c s IH]; [done|]. rewrite string_cons_app. cbn [str_all]. by rewrite IH, andb_assoc.
Qed.
Lemma str_all_mono (p q : ascii → bool) s : (∀ c, p c = true → q c = true) → str_all p s = true → str_all q s = true.
Proof.
  intros Hpq. induction s as [|c s IH]; [done|]. cbn [str_all]. rewrite !andb_true_iff. naive_solver.
Qed.
Lemma ascii_utf8 s : str_all (λ c, code c <? 128) s = true → utf8_valid s = true.
Proof.
  induction s as [|c s IH]; [done|]. cbn [str_all]. intros [Hc%Nat.ltb_lt Hs]%andb_true_iff.
  rewrite utf8_ascii by lia. auto.
Qed.
Lemma numeric_utf8 s : str_all numeric s = true → utf8_valid s = true.
Proof.
  intros Hs. apply ascii_utf8. revert Hs. apply str_all_mono.
  intros c. destruct c as [[] [] [] [] [] [] [] []]; (done || discriminate).
Qed.

Lemma digits_numeric s : all_digits s = true → str_all numeric s = true.
Proof.
  induction s as [|c s IH]; [done|]. cbn [all_digits str_all]. intros [Hc Hs]%andb_true_iff.
  unfold numeric. rewrite Hc. auto.
Qed.
Lemma pretty_numeric (z : Z) : str_all numeric (pretty z) = true.
Proof.
  assert (∀ p, str_all numeric (pretty (Npos p)) = true) as Hp.
  { intros p. apply digits_numeric. change (pretty (Npos p)) with (pretty_N_go (Npos p) ""). by rewrite pretty_go_digits. }
  destruct z as [|p|p]; [done|apply Hp|]. exact (Hp p).
Qed.
Lemma span_digits_numeric s d r : span_digits s = (d, r) → str_all numeric d = true.
Proof.
  intros E. apply digits_numeric. revert d r E. induction s as [|c s IH]; cbn [span_digits]; [by intros ?? [= <- <-]|].
  destruct (is_digit c) eqn:Hc; [|by intros ?? [= <- <-]].
  destruct (span_digits s) as [d' r'] eqn:Es. intros d r [= <- <-]. cbn [all_digits]. rewrite Hc. by eapply IH.
Qed.
Lemma numeric_cons c d s : ceq c d = true → numeric d = true → str_all numeric (String c s) = str_all numeric s.
Proof. intros ->%Ascii.eqb_eq Hd. cbn [str_all]. by rewrite Hd. Qed.

Lemma lex_sign_numeric s sg r : lex_sign s = (sg, r) → str_all numeric sg = true.
Proof.
  destruct s as [|c s]; cbn [lex_sign]; [by intros [= <- <-]|].
  destruct (ceq c "-"); by intros [= <- <-].
Qed.
Lemma lex_int_numeric s i r : lex_int s = Some (i, r) → str_all numeric i = true.
Proof.
  destruct s as [|c s]; cbn [lex_int]; [done|]. destruct (ceq c "0"); [by intros [= <- <-]|].
  destruct (is_digit c); [|done]. intros [= E]. by apply (span_digits_numeric (String c s) i r).
Qed.
Lemma lex_frac_numeric s f r : lex_frac s = (f, r) → str_all numeric f = true.
Proof.
  destruct s as [|c s]; cbn [lex_frac]; [by intros [= <- <-]|].
  destruct (ceq c ".") eqn:Hc; [|by intros [= <- <-]].
  destruct (span_digits s) as [d r'] eqn:Hd. destruct (str_truthy d); intros [= <- <-]; [|done].
  rewrite (numeric_cons _ _ _ Hc) by done. by eapply span_digits_numeric.
Qed.
Lemma exp_sign_numeric s g r : exp_sign s = (g, r) → str_all numeric g = true.
Proof.
  destruct s as [|c s]; cbn [exp_sign]; [by intros [= <- <-]|].
  destruct (ceq c "-") eqn:Hm; [|destruct (ceq c "+") eqn:Hp]; intros [= <- <-]; try done.
  - by rewrite (numeric_cons _ _ _ Hm).
  - by rewrite (numeric_cons _ _ _ Hp).
Qed.
Lemma lex_exp_numeric s e r : lex_exp s = (e, r) → str_all numeric e = true.
Proof.
  destruct s as [|c s]; cbn [lex_exp]; [by intros [= <- <-]|].
  destruct (ceq c "e" || ceq c "E") eqn:Hc; [|by intros [= <- <-]]. fold (exp_sign s).
  destruct (exp_sign s) as [g s2] eqn:Hg. destruct (span_digits s2) as [d r'] eqn:Hd.
  destruct (str_truthy d); intros [= <- <-]; [|done].
  assert (str_all numeric (g +:+ d) = true)
    by (rewrite str_all_app; apply andb_true_iff; split; [by eapply exp_sign_numeric|by eapply span_digits_numeric]).
  apply orb_true_iff in Hc as [Hc|Hc]; by rewrite (numeric_cons _ _ _ Hc).
Qed.
Lemma lex_number_numeric s sg i fe r :
  lex_number s = Some (sg, i, fe, r) → str_all numeric (sg +:+ i +:+ fe) = true.
Proof.
  unfold lex_number. destruct (lex_sign s) as [sg' s1] eqn:Hsg.
  destruct (lex_int s1) as [[i' s2]|] eqn:Hi; [|done]. cbn.
  destruct (lex_frac s2) as [f s3] eqn:Hf. destruct (lex_exp s3) as [e s4] eqn:He.
  intros [= <- <- <- <-]. rewrite !str_all_app, !andb_true_iff. split_and!.
  - by eapply lex_sign_numeric.
  - by eapply lex_int_numeric.
  - by eapply lex_frac_numeric.
  - by eapply lex_exp_numeric.
Qed.
Lemma float_numeric `{!FloatText} q : float_finite q = true → str_all numeric (float_repr q) = true.
Proof. intros Hq. destruct (float_lexes q Hq) as (sg & i & fe & Hl & _ & <-). by eapply lex_number_numeric. Qed.

Lemma join_utf8 sep l : utf8_valid sep = true → Forall (λ s, utf8_valid s = true) l → utf8_valid (join sep l) = true.
Proof.
  intros Hsep. induction l as [|x [|y l] IH]; [done|by intros [? _]%Forall_cons|].
  intros [Hx Hl]%Forall_cons. change (join sep (x :: y :: l)) with (x +:+ sep +:+ join sep (y :: l)).
  apply utf8_app; [done|]. apply utf8_app; auto.
Qed.

Lemma dumps_utf8 `{!FloatText} sp v :
  utf8_valid sp = true → json_wf v = true → json_utf8 v = true → utf8_valid (dumps sp v) = true.
Proof.
  intros Hsp. induction v as [|[]|z|q|s|l IH|kvs IH] using json_nested_ind; cbn [json_wf json_utf8 dumps]; try done.
  - intros _ _. apply numeric_utf8, pretty_numeric.
  - intros Hq _. by apply numeric_utf8, float_numeric.
  - intros _. apply dumps_str_utf8.
  - intros Hwf Hu. apply utf8_app; [done|]. apply utf8_app; [|done]. apply join_utf8.
    + by apply utf8_app.
    + apply Forall_map. rewrite Forall_forall in *. rewrite forallb_forall in *.
      intros v Hv. apply IH; [done|..]; [apply Hwf|apply Hu]; by apply list_elem_of_In.
  - intros [_ Hwf]%andb_true_iff Hu. apply utf8_app; [done|]. apply utf8_app; [|done]. apply join_utf8.
    + by apply utf8_app.
    + apply Forall_map. rewrite Forall_forall in *. rewrite forallb_forall in *.
      intros [k v] Hv. specialize (IH _ Hv). apply list_elem_of_In in Hv.
      specialize (Hwf _ Hv). specialize (Hu _ Hv). apply andb_true_iff in Hu as [Hk Hu]. cbn [fst snd] in *.
      apply utf8_app; [by apply dumps_str_utf8|]. apply utf8_app; [done|]. apply utf8_app; auto.
Qed.

(* ------------------------------------------------------------------ *)
(** ** Printed text is one line *)

(** No control characters, so no line break. *)
Definition printable (c : ascii) : bool := 32 <=? code c.

Lemma escape_printable c : str_all printable (escape c) = true.
Proof. destruct c as [[] [] [] [] [] [] [] []]; reflexivity. Qed.
Lemma dumps_str_printable s : str_all printable (dumps_str s) = true.
Proof.
  unfold dumps_str. cbn [str_all]. rewrite str_all_app. cbn [str_all]. rewrite !andb_true_iff. split_and!; try done.
  induction s as [|c s IH]; [done|]. cbn [escape_all]. by rewrite str_all_app, escape_printable, IH.
Qed.
Lemma numeric_printable s : str_all numeric s = true → str_all printable s = true.
Proof.
  apply str_all_mono. intros c. destruct c as [[] [] [] [] [] [] [] []]; (done || discriminate).
Qed.
Lemma join_printable sep l :
  str_all printable sep = true → Forall (λ s, str_all printable s = true) l → str_all printable (join sep l) = true.
Proof.
  intros Hsep. induction l as [|x [|y l] IH]; [done|by intros [? _]%Forall_cons|].
  intros [Hx Hl]%Forall_cons. change (join sep (x :: y :: l)) with (x +:+ sep +:+ join sep (y :: l)).
  by rewrite !str_all_app, Hx, Hsep, (IH Hl).
Qed.
Lemma dumps_printable `{!FloatText} sp v :
  str_all printable sp = true → json_wf v = true → str_all printable (dumps sp v) = true.
Proof.
  intros Hsp. induction v as [|[]|z|q|s|l IH|kvs IH] using json_nested_ind; cbn [json_wf dumps]; try done.
  - intros _. apply numeric_printable, pretty_numeric.
  - intros Hq. by apply numeric_printable, float_numeric.
  - intros _. apply dumps_str_printable.
  - intros Hwf. rewrite !str_all_app, join_printable; [done|by rewrite str_all_app|].
    apply Forall_map. rewrite Forall_forall in *. rewrite forallb_forall in Hwf.
    intros v Hv. apply IH; [done|]. by apply Hwf, list_elem_of_In.
  - intros [_ Hwf]%andb_true_iff. rewrite !str_all_app, join_printable; [done|by rewrite str_all_app|].
    apply Forall_map. rewrite Forall_forall in *. rewrite forallb_forall in Hwf.
    intros kv Hv. rewrite !str_all_app, dumps_str_printable, Hsp, (IH kv Hv); [done|]. by apply Hwf, list_elem_of_In.
Qed.
