(* ===== verification/JsonPrefix.v ===== *)
(** * Truncated JSON text

    What the parser read does not depend on what follows it, so no proper
    prefix of a printed object is itself a JSON text: a line torn by a crash
    is recognised as corrupt. *)

From Stdlib Require Import Ascii QArith.
From stdpp Require Import prelude strings list pretty.
From S2P Require Import Prelude PyValue PyText JsonText JsonRound.
Open Scope nat_scope.

(* ------------------------------------------------------------------ *)
(** ** Reading further text *)

Lemma prepend_some t r u rest : prepend t r = Some (u, rest) →
  ∃ u', r = Some (u', rest) ∧ u = t +:+ u'.
Proof. destruct r as [[u' r']|]; [|done]. cbn. intros [= <- <-]. eauto. Qed.

Lemma skip_ws_more s u c r : skip_ws s = String c r → skip_ws (s +:+ u) = String c (r +:+ u).
Proof.
  induction s as [|a s IH]; [done|]. rewrite string_cons_app. cbn [skip_ws].
  destruct (is_ws a); [done|]. by intros [= -> ->].
Qed.

Lemma after_more p s u r : after p s = Some r → after p (s +:+ u) = Some (r +:+ u).
Proof.
  revert s. induction p as [|a p IH]; intros s; [by intros [= <-]|].
  destruct s as [|b s]; [done|]. rewrite string_cons_app. cbn [after]. destruct (ceq a b); [apply IH|done].
Qed.

(** An escape after its backslash: what it stands for and what follows. *)
Definition escape_seq (s1 : string) : option (string * string) :=
  match s1 with
  | EmptyString => None
  | String e s2 =>
      if ceq e "u" then
        match s2 with
        | String h1 (String h2 (String h3 (String h4 s3))) =>
            match hex4 h1 h2 h3 h4 with
            | None => None
            | Some n =>
                if high_surrogate n then
                  match s3 with
                  | String b' (String u' (String g1 (String g2 (String g3 (String g4 s4))))) =>
                      if ceq b' BACKSLASH && ceq u' "u" then
                        match hex4 g1 g2 g3 g4 with
                        | None => None
                        | Some m =>
                            if low_surrogate m
                            then Some (utf8_encode (surrogate_pair n m), s4)
                            else Some (utf8_encode n, s3)
                        end
                      else Some (utf8_encode n, s3)
                  | _ => Some (utf8_encode n, s3)
                  end
                else Some (utf8_encode n, s3)
            end
        | _ => None
        end
      else match unescape e with Some c' => Some (String c' "", s2) | None => None end
  end.

Lemma scan_string_step c s1 : scan_string (String c s1) =
  if ceq c QUOTE then Some ("", s1)
  else if ceq c BACKSLASH then
    match escape_seq s1 with Some (t, r) => prepend t (scan_string r) | None => None end
  else if code c <? 32 then None
  else prepend (String c "") (scan_string s1).
Proof.
  cbn [scan_string]. destruct (ceq c QUOTE); [done|]. destruct (ceq c BACKSLASH); [|done].
  destruct s1 as [|e s2]; [done|]. cbn [escape_seq]. destruct (ceq e "u").
  - destruct s2 as [|h1 [|h2 [|h3 [|h4 s3]]]]; try done. destruct (hex4 h1 h2 h3 h4) as [n|]; [|done].
    destruct (high_surrogate n); [|done].
    destruct s3 as [|b' [|u' [|g1 [|g2 [|g3 [|g4 s4]]]]]]; try done.
    destruct (ceq b' BACKSLASH && ceq u' "u"); [|done]. destruct (hex4 g1 g2 g3 g4) as [m|]; [|done].
    by destruct (low_surrogate m).
  - by destruct (unescape e).
Qed.

Lemma escape_seq_suffix s1 t r : escape_seq s1 = Some (t, r) → ∃ v, v ≠ "" ∧ s1 = v +:+ r.
Proof.
  destruct s1 as [|e s2]; [done|]. cbn [escape_seq]. destruct (ceq e "u").
  - destruct s2 as [|h1 [|h2 [|h3 [|h4 s3]]]]; try done. destruct (hex4 h1 h2 h3 h4) as [n|]; [|done].
    assert (∃ v, v ≠ "" ∧ String e (String h1 (String h2 (String h3 (String h4 s3)))) = v +:+ s3) as H5.
    { by exists (String e (String h1 (String h2 (String h3 (String h4 ""))))). }
    destruct (high_surrogate n); [|by intros [= <- <-]].
    destruct s3 as [|b' [|u' [|g1 [|g2 [|g3 [|g4 s4]]]]]]; try (by intros [= <- <-]).
    destruct (ceq b' BACKSLASH && ceq u' "u"); [|by intros [= <- <-]].
    destruct (hex4 g1 g2 g3 g4) as [m|]; [|done]. destruct (low_surrogate m); [|by intros [= <- <-]].
    intros [= <- <-]. by exists (String e (String h1 (String h2 (String h3 (String h4
      (String b' (String u' (String g1 (String g2 (String g3 (String g4 ""))))))))))).
  - destruct (unescape e); [|done]. intros [= <- <-]. by exists (String e "").
Qed.

(** [\u] at the head. *)
Definition u_escape (s : string) : bool :=
  match s with String b (String u _) => ceq b BACKSLASH && ceq u "u" | _ => false end.

Lemma short_literal s u : is_Some (scan_string s) → String.length s < 6 → u_escape (s +:+ u) = false.
Proof.
  destruct s as [|b s]; [by intros [? ?]|]. rewrite scan_string_step.
  destruct (Ascii.eqb_spec b QUOTE) as [->|]; [by destruct s; destruct u|].
  destruct (Ascii.eqb_spec b BACKSLASH) as [->|Hb].
  - destruct s as [|e s]; [by intros [? ?]|]. cbn [escape_seq]. rewrite !string_cons_app. cbn [u_escape].
    destruct (ceq e "u"); [|by rewrite andb_false_r].
    destruct s as [|h1 [|h2 [|h3 [|h4 s3]]]]; try (by intros [? ?]). cbn [String.length]. lia.
  - intros _ _. rewrite string_cons_app. cbn [u_escape]. destruct (s +:+ u); [done|].
    by rewrite (proj2 (Ascii.eqb_neq _ _) Hb).
Qed.

Definition after_high (n : N) (s3 : string) : option (string * string) :=
  match s3 with
  | String b' (String u' (String g1 (String g2 (String g3 (String g4 s4))))) =>
      if ceq b' BACKSLASH && ceq u' "u" then
        match hex4 g1 g2 g3 g4 with
        | None => None
        | Some m =>
            if low_surrogate m
            then Some (utf8_encode (surrogate_pair n m), s4)
            else Some (utf8_encode n, s3)
        end
      else Some (utf8_encode n, s3)
  | _ => Some (utf8_encode n, s3)
  end.
Lemma after_high_single n s : u_escape s = false → after_high n s = Some (utf8_encode n, s).
Proof.
  destruct s as [|b [|u [|g1 [|g2 [|g3 [|g4 s4]]]]]]; try done. cbn [u_escape after_high]. by intros ->.
Qed.
Lemma after_high_more n s3 u t r : after_high n s3 = Some (t, r) → is_Some (scan_string r) →
  after_high n (s3 +:+ u) = Some (t, r +:+ u).
Proof.
  intros H Hr. destruct (decide (String.length s3 < 6)) as [Hlen|Hlen].
  - assert (after_high n s3 = Some (utf8_encode n, s3)) as E.
    { destruct s3 as [|b [|u' [|g1 [|g2 [|g3 [|g4 s4]]]]]]; try done. cbn [String.length] in Hlen. lia. }
    rewrite E in H. injection H as <- <-. by apply after_high_single, short_literal.
  - destruct s3 as [|b [|u' [|g1 [|g2 [|g3 [|g4 s4]]]]]]; cbn [String.length] in Hlen; try lia.
    rewrite !string_cons_app. cbn [after_high] in *.
    destruct (ceq b BACKSLASH && ceq u' "u"); [|by injection H as <- <-].
    destruct (hex4 g1 g2 g3 g4) as [m|]; [|done]. by destruct (low_surrogate m); injection H as <- <-.
Qed.

Lemma escape_seq_more s1 u t r : escape_seq s1 = Some (t, r) → is_Some (scan_string r) →
  escape_seq (s1 +:+ u) = Some (t, r +:+ u).
Proof.
  intros H Hr. destruct s1 as [|e s2]; [done|]. rewrite string_cons_app. cbn [escape_seq] in *.
  destruct (ceq e "u"); [|by destruct (unescape e); [injection H as <- <-|]].
  destruct s2 as [|h1 [|h2 [|h3 [|h4 s3]]]]; try done. rewrite !string_cons_app.
  destruct (hex4 h1 h2 h3 h4) as [n|]; [|done].
  destruct (high_surrogate n); [|by injection H as <- <-]. by apply (after_high_more n s3 u t r).
Qed.

Lemma scan_string_more s u t r : scan_string s = Some (t, r) → scan_string (s +:+ u) = Some (t, r +:+ u).
Proof.
  revert t r. induction s as [s IH] using (induction_ltof1 _ String.length). unfold ltof in IH. intros t r.
  destruct s as [|c s1]; [done|]. rewrite string_cons_app, !scan_string_step.
  destruct (ceq c QUOTE); [by intros [= <- <-]|]. destruct (ceq c BACKSLASH).
  - destruct (escape_seq s1) as [[t' r']|] eqn:E; [|done].
    intros (t2 & Hr & ->)%prepend_some. rewrite (escape_seq_more s1 u t' r' E) by eauto.
    apply escape_seq_suffix in E as (v & Hv & ->). rewrite (IH r') with (t := t2) (r := r); [done| |done].
    cbn [String.length]. rewrite string_length_app. destruct v; [done|]. cbn [String.length]. lia.
  - destruct (code c <? 32); [done|]. intros (t2 & Hr & ->)%prepend_some.
    rewrite (IH s1) with (t := t2) (r := r); [done| |done]. cbn [String.length]. lia.
Qed.

(** ... and it is a suffix. *)
Lemma scan_string_suffix s t r : scan_string s = Some (t, r) → ∃ v, s = v +:+ r.
Proof.
  revert t r. induction s as [s IH] using (induction_ltof1 _ String.length). unfold ltof in IH. intros t r.
  destruct s as [|c s1]; [done|]. rewrite scan_string_step.
  destruct (ceq c QUOTE); [intros [= <- <-]; by exists (String c "")|]. destruct (ceq c BACKSLASH).
  - destruct (escape_seq s1) as [[t' r']|] eqn:E; [|done].
    intros (t2 & Hr & ->)%prepend_some. apply escape_seq_suffix in E as (v & Hv & ->).
    destruct (IH r') with (t := t2) (r := r) as [w ->]; [|done|exists (String c (v +:+ w)); by rewrite string_cons_app, string_app_assoc].
    cbn [String.length]. rewrite string_length_app. destruct v; [done|]. cbn [String.length]. lia.
  - destruct (code c <? 32); [done|]. intros (t2 & Hr & ->)%prepend_some.
    destruct (IH s1) with (t := t2) (r := r) as [w ->]; [cbn [String.length]; lia|done|]. by exists (String c w).
Qed.

(* ------------------------------------------------------------------ *)
(** ** Numbers *)

Lemma span_digits_more s u d r : span_digits s = (d, r) → r ≠ "" → span_digits (s +:+ u) = (d, r +:+ u).
Proof.
  revert d r. induction s as [|c s IH]; intros d r; [by intros [= <- <-]|].
  rewrite string_cons_app. cbn [span_digits]. destruct (is_digit c); [|by intros [= <- <-]].
  destruct (span_digits s) as [d' r']. intros [= <- <-] Hr. by rewrite (IH d' r').
Qed.
Lemma span_digits_suffix s d r : span_digits s = (d, r) → s = d +:+ r.
Proof.
  revert d r. induction s as [|c s IH]; intros d r; cbn [span_digits]; [by intros [= <- <-]|].
  destruct (is_digit c); [|by intros [= <- <-]].
  destruct (span_digits s) as [d' r']. intros [= <- <-]. by rewrite string_cons_app, <- (IH d' r').
Qed.

Lemma lex_int_more s u i r : lex_int s = Some (i, r) → r ≠ "" → lex_int (s +:+ u) = Some (i, r +:+ u).
Proof.
  destruct s as [|c s]; [done|]. rewrite string_cons_app. cbn [lex_int].
  destruct (ceq c "0"); [by intros [= <- <-]|]. destruct (is_digit c); [|done].
  intros E Hr. f_equal. apply (span_digits_more (String c s)); [congruence|done].
Qed.
Lemma lex_int_suffix s i r : lex_int s = Some (i, r) → s = i +:+ r.
Proof.
  destruct s as [|c s]; [done|]. cbn [lex_int].
  destruct (Ascii.eqb_spec c "0") as [->|]; [by intros [= <- <-]|]. destruct (is_digit c); [|done].
  intros E. apply (span_digits_suffix (String c s)). congruence.
Qed.

(** A part that reads nothing because no digit follows leaves its mark. *)
Lemma lex_frac_more s u f r : lex_frac s = (f, r) → r ≠ "" → startswith "." r = false →
  lex_frac (s +:+ u) = (f, r +:+ u).
Proof.
  destruct s as [|c s]; [by intros [= <- <-]|]. rewrite string_cons_app. cbn [lex_frac].
  destruct (Ascii.eqb_spec c ".") as [->|]; [|by intros [= <- <-]].
  destruct (span_digits s) as [d r'] eqn:E. destruct (str_truthy d) eqn:Hd.
  - intros [= <- <-] Hr _. by rewrite (span_digits_more s u d r' E Hr), Hd.
  - intros [= <- <-] _ Hs. by cbn in Hs; destruct s.
Qed.
Lemma lex_exp_more s u e r : lex_exp s = (e, r) → r ≠ "" → number_end r = true →
  lex_exp (s +:+ u) = (e, r +:+ u).
Proof.
  destruct s as [|c s]; [by intros [= <- <-]|]. rewrite string_cons_app. cbn [lex_exp].
  destruct (ceq c "e" || ceq c "E") eqn:Hc; [|by intros [= <- <-]].
  fold (exp_sign s) (exp_sign (s +:+ u)). destruct (exp_sign s) as [g s2] eqn:Hg.
  destruct (span_digits s2) as [d r'] eqn:E. destruct (str_truthy d) eqn:Hd.
  - intros [= <- <-] Hr _.
    assert (exp_sign (s +:+ u) = (g, s2 +:+ u)) as ->.
    { destruct s as [|x s]; [injection Hg as <- <-; cbn in E; injection E as <- <-; done|].
      rewrite string_cons_app. cbn [exp_sign] in *. by destruct (ceq x "-" || ceq x "+"); injection Hg as <- <-. }
    by rewrite (span_digits_more s2 u d r' E Hr), Hd.
  - intros [= <- <-] _. cbn [number_end]. rewrite negb_true_iff, !orb_false_iff.
    apply orb_true_iff in Hc as [->| ->]; naive_solver.
Qed.

Lemma lex_exp_stop s : startswith "." s = true → lex_exp s = ("", s).
Proof.
  destruct s as [|c s]; [done|]. unfold startswith. cbn [String.prefix]. destruct (ascii_dec "." c); [by subst|done].
Qed.
Lemma startswith_dot s : startswith "." s = true → number_end s = false.
Proof.
  destruct s as [|c s]; [done|]. unfold startswith. cbn [String.prefix]. destruct (ascii_dec "." c); [by subst|done].
Qed.

Lemma lex_number_more s u sg i fe r : lex_number s = Some (sg, i, fe, r) → r ≠ "" → number_end r = true →
  lex_number (s +:+ u) = Some (sg, i, fe, r +:+ u).
Proof.
  unfold lex_number. intros H Hr He. destruct s as [|c s]; [done|].
  destruct (lex_sign (String c s)) as [sg' s1] eqn:Hs.
  assert (lex_sign (String c s +:+ u) = (sg', s1 +:+ u)) as ->.
  { rewrite string_cons_app. cbn [lex_sign] in *. by destruct (ceq c "-"); injection Hs as <- <-. }
  destruct (lex_int s1) as [[i' s2]|] eqn:Hi; [|done]. cbn [mbind option_bind] in H.
  destruct (lex_frac s2) as [f s3] eqn:Hf. destruct (lex_exp s3) as [e s4] eqn:Hx. injection H as -> -> <- ->.
  assert (s3 ≠ "") as Hs3 by (intros ->; cbn in Hx; congruence).
  assert (startswith "." s3 = false) as Hdot.
  { destruct (startswith "." s3) eqn:Hd; [|done]. rewrite (lex_exp_stop s3 Hd) in Hx. injection Hx as _ <-.
    apply startswith_dot in Hd. congruence. }
  assert (s2 ≠ "") as Hs2 by (intros ->; cbn in Hf; congruence).
  rewrite (lex_int_more s1 u i s2 Hi Hs2). cbn [mbind option_bind].
  by rewrite (lex_frac_more s2 u f s3 Hf Hs3 Hdot), (lex_exp_more s3 u e r Hx Hr He).
Qed.

(* ------------------------------------------------------------------ *)
(** ** Values *)

Lemma closes_number r c r' : skip_ws r = String c r' → (ceq c "]" || ceq c "," || ceq c "}") = true →
  r ≠ "" ∧ number_end r = true.
Proof.
  destruct r as [|a r]; [done|]. intros Hs Hc. split; [done|]. cbn [skip_ws] in Hs. cbn [number_end].
  destruct (is_ws a) eqn:Ha.
  - clear Hs Hc. destruct a as [[] [] [] [] [] [] [] []]; (done || discriminate).
  - injection Hs as -> _. clear Ha. destruct c as [[] [] [] [] [] [] [] []]; (done || discriminate).
Qed.

Section scan.
Context `{FT : !FloatText}.

(** A number must be seen to end. *)
Definition ended (v : json) (r : string) : Prop :=
  match v with JInt _ | JFloat _ => r ≠ "" ∧ number_end r = true | _ => True end.

Lemma scan_number_more s u v r : scan_number s = Some (v, r) → ended v r → scan_number (s +:+ u) = Some (v, r +:+ u).
Proof.
  unfold scan_number. destruct (lex_number s) as [[[[sg i] fe] r']|] eqn:E; [|done].
  cbn [mbind option_bind]. intros [= <- <-] Hv.
  assert (r' ≠ "" ∧ number_end r' = true) as [Hr He] by (by destruct (str_truthy fe)).
  by rewrite (lex_number_more s u _ _ _ _ E Hr He).
Qed.

(** The words [null], [true] and [false], and numbers. *)
Definition scan_plain (s : string) : option (json * string) :=
  match after "null" s, after "true" s, after "false" s with
  | Some r', _, _ => Some (JNull, r')
  | _, Some r', _ => Some (JBool true, r')
  | _, _, Some r' => Some (JBool false, r')
  | _, _, _ => scan_number s
  end.
Lemma scan_number_head s x : scan_number s = Some x → number_head s = true.
Proof. unfold scan_number. destruct (lex_number s) eqn:E; [|done]. intros _. by eapply lex_number_head. Qed.
Lemma plain_number s : number_head s = true → scan_plain s = scan_number s.
Proof.
  destruct s as [|c s]; [done|]. cbn [number_head].
  destruct c as [[] [] [] [] [] [] [] []]; (discriminate || reflexivity).
Qed.
Lemma number_head_app s u : number_head s = true → number_head (s +:+ u) = true.
Proof. by destruct s. Qed.

Lemma after_head p c s : after (String c p) s = None ∨ ∃ s', s = String c s'.
Proof. destruct s as [|b s]; [by left|]. cbn [after]. destruct (Ascii.eqb_spec c b) as [->|]; eauto. Qed.

Lemma scan_plain_more s u v r : scan_plain s = Some (v, r) → ended v r → scan_plain (s +:+ u) = Some (v, r +:+ u).
Proof.
  unfold scan_plain at 1. destruct (after "null" s) as [r0|] eqn:Hn.
  { intros [= <- <-] _. unfold scan_plain. by rewrite (after_more _ _ u _ Hn). }
  destruct (after "true" s) as [r0|] eqn:Ht.
  { intros [= <- <-] _. destruct (after_head "rue" "t" s) as [H|[s' ->]]; [congruence|].
    unfold scan_plain. rewrite (after_more _ _ u _ Ht). by rewrite string_cons_app. }
  destruct (after "false" s) as [r0|] eqn:Hf.
  { intros [= <- <-] _. destruct (after_head "alse" "f" s) as [H|[s' ->]]; [congruence|].
    unfold scan_plain. rewrite (after_more _ _ u _ Hf). by rewrite string_cons_app. }
  intros H He. rewrite plain_number by (by eapply number_head_app, scan_number_head).
  by apply scan_number_more.
Qed.

Lemma scan_step n c r0 : scan (S n) (String c r0) =
  if ceq c QUOTE then '(t, r') ← scan_string r0; Some (JStr t, r')
  else if ceq c "{" then
    match skip_ws r0 with
    | String d r' => if ceq d "}" then Some (JObj [], r') else
        '(kvs, r'') ← scan_members n (String d r'); Some (JObj (dmerge [] kvs), r'')
    | EmptyString => None
    end
  else if ceq c "[" then
    match skip_ws r0 with
    | String d r' => if ceq d "]" then Some (JList [], r') else
        '(l, r'') ← scan_elems n (String d r'); Some (JList l, r'')
    | EmptyString => None
    end
  else scan_plain (String c r0).
Proof. done. Qed.

Definition scans_more (n : nat) : Prop :=
  (∀ s u v r, scan n s = Some (v, r) → ended v r → scan n (s +:+ u) = Some (v, r +:+ u)) ∧
  (∀ s u l r, scan_elems n s = Some (l, r) → scan_elems n (s +:+ u) = Some (l, r +:+ u)) ∧
  (∀ s u l r, scan_members n s = Some (l, r) → scan_members n (s +:+ u) = Some (l, r +:+ u)).

Lemma scan_more_value n : scans_more n → ∀ s u v r,
  scan (S n) s = Some (v, r) → ended v r → scan (S n) (s +:+ u) = Some (v, r +:+ u).
Proof.
  intros (_ & IHe & IHm) s u v r. destruct s as [|c s]; [done|]. rewrite string_cons_app, !scan_step.
  destruct (ceq c QUOTE).
  { destruct (scan_string s) as [[t r']|] eqn:E; [|done]. intros [= <- <-] _. by rewrite (scan_string_more s u t r' E). }
  destruct (ceq c "{").
  { destruct (skip_ws s) as [|d s'] eqn:E; [done|]. rewrite (skip_ws_more s u d s' E).
    destruct (ceq d "}"); [by intros [= <- <-]|].
    destruct (scan_members n (String d s')) as [[kvs r']|] eqn:Em; [|done]. intros [= <- <-] _.
    rewrite <- string_cons_app. by rewrite (IHm _ u _ _ Em). }
  destruct (ceq c "[").
  { destruct (skip_ws s) as [|d s'] eqn:E; [done|]. rewrite (skip_ws_more s u d s' E).
    destruct (ceq d "]"); [by intros [= <- <-]|].
    destruct (scan_elems n (String d s')) as [[l r']|] eqn:Em; [|done]. intros [= <- <-] _.
    rewrite <- string_cons_app. by rewrite (IHe _ u _ _ Em). }
  rewrite <- string_cons_app. apply scan_plain_more.
Qed.

Lemma ended_close v r c r' : skip_ws r = String c r' → (ceq c "]" || ceq c "," || ceq c "}") = true → ended v r.
Proof. intros H1 H2. pose proof (closes_number r c r' H1 H2). by destruct v. Qed.

Lemma scan_elems_step n s : scan_elems (S n) s =
  '(v, r) ← scan n s;
  match skip_ws r with
  | String c r' =>
      if ceq c "]" then Some ([v], r')
      else if ceq c "," then '(l, r'') ← scan_elems n (skip_ws r'); Some (v :: l, r'')
      else None
  | EmptyString => None
  end.
Proof. done. Qed.

Lemma scan_elems_nonempty n s x : scan_elems n s = Some x → s ≠ "".
Proof. destruct n as [|[|n]]; [done..|]. by intros H ->. Qed.
Lemma scan_members_nonempty n s x : scan_members n s = Some x → s ≠ "".
Proof. destruct n as [|n]; [done|]. by intros H ->. Qed.
Lemma scan_nonempty n s x : scan n s = Some x → s ≠ "".
Proof. destruct n as [|n]; [done|]. by intros H ->. Qed.
Lemma skip_ws_more' s u : skip_ws s ≠ "" → skip_ws (s +:+ u) = skip_ws s +:+ u.
Proof. destruct (skip_ws s) as [|c r] eqn:E; [done|]. intros _. by apply skip_ws_more. Qed.

Lemma scan_more_elems n : scans_more n → ∀ s u l r,
  scan_elems (S n) s = Some (l, r) → scan_elems (S n) (s +:+ u) = Some (l, r +:+ u).
Proof.
  intros (IHv & IHe & _) s u l r. rewrite !scan_elems_step.
  destruct (scan n s) as [[v r1]|] eqn:E; [|done]. cbn [mbind option_bind].
  destruct (skip_ws r1) as [|c r2] eqn:Es; [done|]. intros H.
  assert ((ceq c "]" || ceq c "," || ceq c "}") = true) as Hc by (by destruct (ceq c "]"); [|destruct (ceq c ",")]).
  rewrite (IHv s u v r1 E (ended_close v r1 c r2 Es Hc)). cbn [mbind option_bind].
  rewrite (skip_ws_more r1 u c r2 Es).
  destruct (ceq c "]"); [by injection H as <- <-|]. destruct (ceq c ","); [|done].
  destruct (scan_elems n (skip_ws r2)) as [[l' r3]|] eqn:Ee; [|done]. injection H as <- <-.
  rewrite skip_ws_more' by (by eapply scan_elems_nonempty). by rewrite (IHe _ u _ _ Ee).
Qed.

Lemma scan_members_step n s : scan_members (S n) s =
  match s with
  | EmptyString => None
  | String q s' =>
      if negb (ceq q QUOTE) then None else
      '(k, r0) ← scan_string s';
      match skip_ws r0 with
      | String c r1 =>
          if negb (ceq c ":") then None else
          '(v, r) ← scan n (skip_ws r1);
          match skip_ws r with
          | String d r' =>
              if ceq d "}" then Some ([(k, v)], r')
              else if ceq d "," then '(l, r'') ← scan_members n (skip_ws r'); Some ((k, v) :: l, r'')
              else None
          | EmptyString => None
          end
      | EmptyString => None
      end
  end.
Proof. by destruct s. Qed.

Lemma scan_more_members n : scans_more n → ∀ s u l r,
  scan_members (S n) s = Some (l, r) → scan_members (S n) (s +:+ u) = Some (l, r +:+ u).
Proof.
  intros (IHv & _ & IHm) s u l r. rewrite !scan_members_step.
  destruct s as [|q s]; [done|]. rewrite string_cons_app. destruct (negb (ceq q QUOTE)); [done|].
  destruct (scan_string s) as [[k r0]|] eqn:Ek; [|done]. rewrite (scan_string_more s u k r0 Ek). cbn [mbind option_bind].
  destruct (skip_ws r0) as [|c r1] eqn:Ec; [done|]. rewrite (skip_ws_more r0 u c r1 Ec).
  destruct (negb (ceq c ":")); [done|].
  destruct (scan n (skip_ws r1)) as [[v r2]|] eqn:E; [|done].
  rewrite skip_ws_more' by (by eapply scan_nonempty). cbn [mbind option_bind].
  destruct (skip_ws r2) as [|d r3] eqn:Es; [done|]. intros H.
  assert ((ceq d "]" || ceq d "," || ceq d "}") = true) as Hc.
  { destruct (ceq d "}"), (ceq d ","), (ceq d "]"); done. }
  rewrite (IHv _ u v r2 E (ended_close v r2 d r3 Es Hc)). cbn [mbind option_bind].
  rewrite (skip_ws_more r2 u d r3 Es).
  destruct (ceq d "}"); [by injection H as <- <-|]. destruct (ceq d ","); [|done].
  destruct (scan_members n (skip_ws r3)) as [[l' r4]|] eqn:Em; [|done]. injection H as <- <-.
  rewrite skip_ws_more' by (by eapply scan_members_nonempty). by rewrite (IHm _ u _ _ Em).
Qed.

Lemma scan_more n : scans_more n.
Proof.
  induction n as [|n IH]; [done|]. split_and!.
  - by apply scan_more_value.
  - by apply scan_more_elems.
  - by apply scan_more_members.
Qed.

(** More fuel reads the same. *)
Definition scans_fuel (n : nat) : Prop := ∀ m, n ≤ m →
  (∀ s x, scan n s = Some x → scan m s = Some x) ∧
  (∀ s x, scan_elems n s = Some x → scan_elems m s = Some x) ∧
  (∀ s x, scan_members n s = Some x → scan_members m s = Some x).
Lemma scan_fuel n : scans_fuel n.
Proof.
  induction n as [|n IH]; [done|]. intros m Hm. destruct m as [|m]; [lia|].
  destruct (IH m ltac:(lia)) as (IHv & IHe & IHm). split_and!.
  - intros [|c s] x; [done|]. rewrite !scan_step. destruct (ceq c QUOTE); [done|]. destruct (ceq c "{").
    { destruct (skip_ws s) as [|d s']; [done|]. destruct (ceq d "}"); [done|].
      destruct (scan_members n (String d s')) eqn:E; [|done]. by rewrite (IHm _ _ E). }
    destruct (ceq c "["); [|done].
    destruct (skip_ws s) as [|d s']; [done|]. destruct (ceq d "]"); [done|].
    destruct (scan_elems n (String d s')) eqn:E; [|done]. by rewrite (IHe _ _ E).
  - intros s x. rewrite !scan_elems_step. destruct (scan n s) as [[v r]|] eqn:E; [|done]. rewrite (IHv _ _ E).
    cbn [mbind option_bind]. destruct (skip_ws r) as [|c r']; [done|]. destruct (ceq c "]"); [done|].
    destruct (ceq c ","); [|done]. destruct (scan_elems n (skip_ws r')) eqn:Ee; [|done]. by rewrite (IHe _ _ Ee).
  - intros s x. rewrite !scan_members_step. destruct s as [|q s]; [done|]. destruct (negb (ceq q QUOTE)); [done|].
    destruct (scan_string s) as [[k r0]|]; [|done]. cbn [mbind option_bind].
    destruct (skip_ws r0) as [|c r1]; [done|]. destruct (negb (ceq c ":")); [done|].
    destruct (scan n (skip_ws r1)) as [[v r]|] eqn:E; [|done]. rewrite (IHv _ _ E). cbn [mbind option_bind].
    destruct (skip_ws r) as [|d r']; [done|]. destruct (ceq d "}"); [done|]. destruct (ceq d ","); [|done].
    destruct (scan_members n (skip_ws r')) eqn:Em; [|done]. by rewrite (IHm _ _ Em).
Qed.

(** A text that opens with a brace denotes an object or nothing. *)
Lemma scan_brace n s v r : scan n (String "{" s) = Some (v, r) → ∃ d, v = JObj d.
Proof.
  destruct n as [|n]; [done|]. rewrite scan_step. change (ceq "{" QUOTE) with false. change (ceq "{" "{") with true.
  cbn iota. destruct (skip_ws s) as [|d s']; [done|]. destruct (ceq d "}"); [intros [= <- <-]; eauto|].
  destruct (scan_members n (String d s')) as [[kvs r']|]; [|done]. intros [= <- <-]. eauto.
Qed.

(** What is left is a suffix of the text, behind the closing bracket. *)
Definition leaves (s r : string) : Prop := ∃ w, s = w +:+ r.
#[global] Instance leaves_preorder : PreOrder leaves.
Proof.
  split; [intros s; by exists ""|]. intros s t r [v ->] [w ->]. exists (v +:+ w). by rewrite string_app_assoc.
Qed.
Lemma leaves_cons c s : leaves (String c s) s.
Proof. by exists (String c ""). Qed.
Lemma leaves_skip_ws s : leaves s (skip_ws s).
Proof.
  induction s as [|c s IH]; [by exists ""|]. cbn [skip_ws]. destruct (is_ws c); [|reflexivity].
  etrans; [apply leaves_cons|exact IH].
Qed.
Lemma leaves_after p s r : after p s = Some r → leaves s r.
Proof.
  revert s. induction p as [|a p IH]; intros s; [by intros [= <-]|]. destruct s as [|b s]; [done|].
  cbn [after]. destruct (ceq a b); [|done]. intros H%IH. etrans; [apply leaves_cons|exact H].
Qed.
Lemma leaves_number s v r : scan_number s = Some (v, r) → leaves s r.
Proof.
  unfold scan_number, lex_number. destruct (lex_sign s) as [sg s1] eqn:Hs.
  destruct (lex_int s1) as [[i s2]|] eqn:Hi; [|done]. cbn [mbind option_bind].
  destruct (lex_frac s2) as [f s3] eqn:Hf. destruct (lex_exp s3) as [e s4] eqn:He. intros [= _ <-].
  assert (leaves s s1) as H1.
  { destruct s as [|c s]; cbn [lex_sign] in Hs; [by injection Hs as <- <-|].
    destruct (ceq c "-"); injection Hs as <- <-; [apply leaves_cons|reflexivity]. }
  assert (leaves s2 s3) as H3.
  { destruct s2 as [|c s2]; cbn [lex_frac] in Hf; [by injection Hf as <- <-|]. destruct (ceq c "."); [|by injection Hf as <- <-].
    destruct (span_digits s2) as [d r'] eqn:Ed. destruct (str_truthy d); injection Hf as <- <-; [|reflexivity].
    etrans; [apply leaves_cons|]. apply span_digits_suffix in Ed as ->. by exists d. }
  assert (leaves s3 s4) as H4.
  { destruct s3 as [|c s3]; cbn [lex_exp] in He; [by injection He as <- <-|].
    destruct (ceq c "e" || ceq c "E"); [|by injection He as <- <-]. fold (exp_sign s3) in He.
    destruct (exp_sign s3) as [g s3'] eqn:Hg. destruct (span_digits s3') as [d r'] eqn:Ed.
    destruct (str_truthy d); injection He as <- <-; [|reflexivity].
    etrans; [apply leaves_cons|]. trans s3'.
    - destruct s3 as [|x s3]; cbn [exp_sign] in Hg; [by injection Hg as <- <-|].
      destruct (ceq x "-" || ceq x "+"); injection Hg as <- <-; [apply leaves_cons|reflexivity].
    - apply span_digits_suffix in Ed as ->. by exists d. }
  etrans; [exact H1|]. trans s2; [apply lex_int_suffix in Hi as ->; by exists i|]. by trans s3.
Qed.
Lemma leaves_plain s v r : scan_plain s = Some (v, r) → leaves s r.
Proof.
  unfold scan_plain. destruct (after "null" s) eqn:Hn; [intros [= <- <-]; by eapply leaves_after|].
  destruct (after "true" s) eqn:Ht; [intros [= <- <-]; by eapply leaves_after|].
  destruct (after "false" s) eqn:Hf; [intros [= <- <-]; by eapply leaves_after|apply leaves_number].
Qed.

Definition scans_leave (n : nat) : Prop :=
  (∀ s v r, scan n s = Some (v, r) → leaves s r) ∧
  (∀ s l r, scan_elems n s = Some (l, r) → leaves s (String "]" r)) ∧
  (∀ s l r, scan_members n s = Some (l, r) → leaves s (String "}" r)).

Lemma scan_leaves_value n : scans_leave n → ∀ s v r, scan (S n) s = Some (v, r) → leaves s r.
Proof.
  intros (_ & IHe & IHm) s v r. destruct s as [|c s]; [done|]. rewrite scan_step.
  destruct (ceq c QUOTE).
  { destruct (scan_string s) as [[t r']|] eqn:E; [|done]. intros [= <- <-]. etrans; [apply leaves_cons|].
    by eapply scan_string_suffix. }
  pose proof (leaves_skip_ws s) as Hw. destruct (ceq c "{").
  { destruct (skip_ws s) as [|d s']; [done|]. intros H. etrans; [apply leaves_cons|]. etrans; [exact Hw|].
    destruct (ceq d "}"); [injection H as <- <-; apply leaves_cons|].
    destruct (scan_members n _) as [[kvs r']|] eqn:E; [|done]. injection H as <- <-.
    etrans; [exact (IHm _ _ _ E)|apply leaves_cons]. }
  destruct (ceq c "["); [|apply leaves_plain].
  destruct (skip_ws s) as [|d s']; [done|]. intros H. etrans; [apply leaves_cons|]. etrans; [exact Hw|].
  destruct (ceq d "]"); [injection H as <- <-; apply leaves_cons|].
  destruct (scan_elems n _) as [[kvs r']|] eqn:E; [|done]. injection H as <- <-.
  etrans; [exact (IHe _ _ _ E)|apply leaves_cons].
Qed.

Lemma scan_leaves n : scans_leave n.
Proof.
  induction n as [|n IH]; [done|]. destruct (IH) as (IHv & IHe & IHm). split_and!.
  - by apply scan_leaves_value.
  - intros s l r. rewrite scan_elems_step. destruct (scan n s) as [[v r1]|] eqn:E; [|done]. cbn [mbind option_bind].
    pose proof (leaves_skip_ws r1) as Hw. destruct (skip_ws r1) as [|c r2]; [done|]. intros H.
    etrans; [exact (IHv _ _ _ E)|]. etrans; [exact Hw|].
    destruct (Ascii.eqb_spec c "]") as [->|]; [by injection H as <- <-|]. destruct (ceq c ","); [|done].
    destruct (scan_elems n (skip_ws r2)) as [[l' r3]|] eqn:Ee; [|done]. injection H as <- <-.
    etrans; [apply leaves_cons|]. etrans; [apply leaves_skip_ws|]. exact (IHe _ _ _ Ee).
  - intros s l r. rewrite scan_members_step. destruct s as [|q s]; [done|]. destruct (negb (ceq q QUOTE)); [done|].
    destruct (scan_string s) as [[k r0]|] eqn:Ek; [|done]. cbn [mbind option_bind]. apply scan_string_suffix in Ek.
    pose proof (leaves_skip_ws r0) as Hw0. destruct (skip_ws r0) as [|c r1]; [done|]. destruct (negb (ceq c ":")); [done|].
    destruct (scan n (skip_ws r1)) as [[v r2]|] eqn:E; [|done]. cbn [mbind option_bind].
    pose proof (leaves_skip_ws r2) as Hw. destruct (skip_ws r2) as [|d r3]; [done|]. intros H.
    etrans; [apply leaves_cons|]. etrans; [exact Ek|]. etrans; [exact Hw0|]. etrans; [apply leaves_cons|].
    etrans; [apply leaves_skip_ws|]. etrans; [exact (IHv _ _ _ E)|]. etrans; [exact Hw|].
    destruct (Ascii.eqb_spec d "}") as [->|]; [by injection H as <- <-|]. destruct (ceq d ","); [|done].
    destruct (scan_members n (skip_ws r3)) as [[l' r4]|] eqn:Ee; [|done]. injection H as <- <-.
    etrans; [apply leaves_cons|]. etrans; [apply leaves_skip_ws|]. exact (IHm _ _ _ Ee).
Qed.

(** A text that opens with a brace is read only when its last character is the
    closing one. *)
Lemma brace_closes s : is_Some (loads (String "{" s)) → ∃ w r, s = w +:+ String "}" r ∧ skip_ws r = "".
Proof.
  intros [v H]. unfold loads in H. change (skip_ws (String "{" s)) with (String "{" s) in H.
  rewrite scan_step in H. change (ceq "{" QUOTE) with false in H. change (ceq "{" "{") with true in H. cbn iota in H.
  pose proof (leaves_skip_ws s) as [w0 Hw]. destruct (skip_ws s) as [|d s'] eqn:Es; [done|]. subst s.
  destruct (Ascii.eqb_spec d "}") as [->|].
  - cbn [mbind option_bind] in H. destruct (skip_ws s') eqn:E; [|done]. by exists w0, s'.
  - destruct (scan_members _ _) as [[kvs r]|] eqn:E; [|done]. cbn [mbind option_bind] in H.
    destruct (skip_ws r) eqn:Er; [|done]. apply (proj2 (proj2 (scan_leaves _))) in E as [w Hw].
    exists (w0 +:+ w), r. by rewrite Hw, string_app_assoc.
Qed.

(** No proper prefix of a printed object is a JSON text. *)
Lemma torn_object sp d p u :
  (∀ s, skip_ws (sp +:+ s) = skip_ws s) → json_wf (JObj d) = true →
  dumps sp (JObj d) = p +:+ u → u ≠ "" → loads p = None.
Proof.
  intros Hsp Hwf Hp Hu. destruct p as [|c p]; [done|].
  assert (c = "{"%char) as -> by (cbn [dumps] in Hp; rewrite !string_cons_app in Hp; by injection Hp).
  unfold loads. change (skip_ws (String "{" p)) with (String "{" p).
  set (n := S (String.length (String "{" p))).
  destruct (scan n (String "{" p)) as [[v r]|] eqn:E; [|done]. cbn [mbind option_bind].
  destruct (scan_brace _ _ _ _ E) as [d' ->].
  apply (proj1 (scan_more n) _ u) in E; [|done]. rewrite <- Hp in E.
  assert (n ≤ S (String.length (dumps sp (JObj d)))) as Hn by (unfold n; rewrite Hp, string_length_app; lia).
  apply (proj1 (scan_fuel n _ Hn)) in E.
  pose proof (scan_dumps sp Hsp (JObj d) Hwf (S (String.length (dumps sp (JObj d)))) "" ltac:(lia) eq_refl) as E'.
  rewrite string_app_nil, E in E'. injection E' as -> Hr. destruct r; [|done]. by destruct u.
Qed.
End scan.
