(* ===== verification/IpcV2.v ===== *)
(** * Frames and connections between an anima and its task runners

    [core/supervisor/ipc_v2.py]: the wire format (identity, envelope, JSON
    Lines frames of at most 4 MiB) and one duplex connection with its send
    window, cumulative acknowledgements and replay buffer; and the handshake
    of a (re)connection, the runner's half from [core/supervisor/task_runner.py]
    ([_connect]) and the root's half from
    [core/supervisor/task_runner_supervisor.py] ([_handle_connection]).

    A connection's reader is the list of lines still to be read and its writer
    the list of wires written so far; the outcome of every [drain] is an input.
    Error messages keep their constant part. *)

From Stdlib Require Import Ascii QArith.
From stdpp Require Import prelude strings list pretty.
From S2P Require Import Prelude PyValue PyText JsonText.
Open Scope Z_scope.

(* ------------------------------------------------------------------ *)
(** ** Constants *)

Definition IPC_V2_VERSION : Z := 2.
Definition IPC_V2_MAX_FRAME_BYTES : Z := 4 * 1024 * 1024.
Definition IPC_V2_WINDOW_MAX_FRAMES : Z := 64.
Definition IPC_V2_WINDOW_MAX_BYTES : Z := 4 * 1024 * 1024.
Definition IPC_V2_HALF_OPEN_TIMEOUT : Q := 15.
Definition IPC_LANES : list string := ["chat"; "heartbeat"; "cron"; "task"; "background"].
Definition BASE_FIELDS : list string :=
  ["v"; "kind"; "job_id"; "seq"; "root_epoch"; "attempt"; "lane"; "display_lane"].
Definition KIND_FIELDS (kind : string) : option (list string) :=
  if bool_decide (kind = "request") then Some ["request_id"; "method"; "params"]
  else if bool_decide (kind = "response") then Some ["request_id"; "result"; "error"]
  else if bool_decide (kind = "event") then Some ["event"; "data"]
  else None.

Definition protocol_error {A} (msg : string) : result A := Err (IPCV2ProtocolError msg).
Definition blen (s : string) : Z := Z.of_nat (String.length s).

(* ------------------------------------------------------------------ *)
(** ** Identity *)

Record IPCV2Identity := {
  ipc_job_id : json; ipc_root_epoch : json; ipc_attempt : json;
  ipc_lane : json; ipc_display_lane : json }.

(** Acceptance by [uuid.UUID(s)], on ASCII text: after removing the URN
    prefixes, braces and hyphens, 32 characters that [int(_, 16)] reads. *)
Fixpoint hex_groups (after_underscore : bool) (s : string) : bool :=
  match s with
  | EmptyString => negb after_underscore
  | String c s' =>
      if Ascii.eqb c "_" then if after_underscore then false else hex_groups true s'
      else match hex_value c with Some _ => hex_groups false s' | None => false end
  end.
Definition int16_ok (s : string) : bool :=
  let unsigned := match strip s with String c t => if Ascii.eqb c "+" then t else String c t | t => t end in
  if startswith "0x" unsigned || startswith "0X" unsigned then
    match unsigned with
    | String _ (String _ (String c t)) => if Ascii.eqb c "_" then hex_groups true t else hex_groups true (String c t)
    | _ => false
    end
  else hex_groups true unsigned.
Definition uuid_ok (s : string) : bool :=
  let bare := remove_all "-" 0 (strip_chars (λ c, Ascii.eqb c "{" || Ascii.eqb c "}")
                (remove_all "uuid:" 0 (remove_all "urn:" 0 s))) in
  bool_decide (length (chars bare) = 32%nat) && int16_ok bare.

Definition nonempty_str (j : json) : bool := match j with JStr s => str_truthy s | _ => false end.
(** [isinstance(v, int) and not isinstance(v, bool) and v >= lo]. *)
Definition int_at_least (lo : Z) (j : json) : bool := match j with JInt z => lo <=? z | _ => false end.

(** [v in S] for a set or dictionary of strings: an unhashable [v] raises. *)
Definition hash_member (j : json) (p : string → bool) : result bool :=
  match j with
  | JStr s => Ok (p s)
  | JList _ | JObj _ => Err (TypeError "unhashable type")
  | _ => Ok false
  end.

Definition validate (i : IPCV2Identity) : result unit :=
  _ ← raise_if (negb (nonempty_str (ipc_job_id i))) (IPCV2ProtocolError "job_id must be a non-empty string");
  _ ← raise_if (match ipc_root_epoch i with JStr s => negb (uuid_ok s) | _ => true end)
        (IPCV2ProtocolError "root_epoch must be a UUID string");
  _ ← raise_if (negb (int_at_least 1 (ipc_attempt i))) (IPCV2ProtocolError "attempt must be an integer >= 1");
  known ← hash_member (ipc_lane i) (λ s, str_in s IPC_LANES);
  _ ← raise_if (negb known) (IPCV2ProtocolError "invalid lane");
  raise_if (negb (nonempty_str (ipc_display_lane i))) (IPCV2ProtocolError "display_lane must be a non-empty string").

(** [==] of two identities. *)
Definition identity_eq (a b : IPCV2Identity) : bool :=
  py_eq (ipc_job_id a) (ipc_job_id b) && py_eq (ipc_root_epoch a) (ipc_root_epoch b) &&
  py_eq (ipc_attempt a) (ipc_attempt b) && py_eq (ipc_lane a) (ipc_lane b) &&
  py_eq (ipc_display_lane a) (ipc_display_lane b).

(* ------------------------------------------------------------------ *)
(** ** Envelope *)

Record IPCV2Envelope := {
  env_kind : string; env_identity : IPCV2Identity; env_seq : Z; env_body : dict }.

Definition to_dict (e : IPCV2Envelope) : dict :=
  dmerge [ ("v", JInt IPC_V2_VERSION); ("kind", JStr (env_kind e));
           ("job_id", ipc_job_id (env_identity e)); ("seq", JInt (env_seq e));
           ("root_epoch", ipc_root_epoch (env_identity e)); ("attempt", ipc_attempt (env_identity e));
           ("lane", ipc_lane (env_identity e)); ("display_lane", ipc_display_lane (env_identity e)) ]
         (env_body e).

Definition is_dict (j : json) : bool := match j with JObj _ => true | _ => false end.
Definition is_str (j : json) : bool := match j with JStr _ => true | _ => false end.
Definition is_bool (j : json) : bool := match j with JBool _ => true | _ => false end.
Definition not_none (j : json) : bool := match j with JNull => false | _ => true end.

Definition _validate_body (kind : string) (body : dict) : result unit :=
  if bool_decide (kind = "request") then
    _ ← raise_if (negb (nonempty_str (dget_none "request_id" body))) (IPCV2ProtocolError "request requires request_id");
    _ ← raise_if (negb (nonempty_str (dget_none "method" body))) (IPCV2ProtocolError "request requires method");
    raise_if (negb (is_dict (dget_default "params" (JObj []) body)))
      (IPCV2ProtocolError "request params must be an object")
  else if bool_decide (kind = "response") then
    _ ← raise_if (negb (nonempty_str (dget_none "request_id" body))) (IPCV2ProtocolError "response requires request_id");
    let has_result := not_none (dget_none "result" body) in
    let has_error := not_none (dget_none "error" body) in
    _ ← raise_if (bool_decide (has_result = has_error))
          (IPCV2ProtocolError "response must contain exactly one of result or error");
    if has_error then
      match dget_none "error" body with
      | JObj err =>
          _ ← raise_if (negb (is_str (dget_none "code" err)) || negb (is_str (dget_none "message" err)))
                (IPCV2ProtocolError "response error requires code and message");
          raise_if (negb (is_bool (dget_none "retryable" err)))
            (IPCV2ProtocolError "response error requires boolean retryable")
      | _ => protocol_error "response error must be an object"
      end
    else Ok tt
  else
    _ ← raise_if (negb (nonempty_str (dget_none "event" body))) (IPCV2ProtocolError "event requires event name");
    raise_if (negb (is_dict (dget_default "data" (JObj []) body))) (IPCV2ProtocolError "event data must be an object").

Definition is_crlf (c : ascii) : bool := bool_decide (code c = 10%nat) || bool_decide (code c = 13%nat).

Section wire.
Context `{!FloatText}.

Definition to_bytes (e : IPCV2Envelope) : result string :=
  let payload := dumps "" (JObj (to_dict e)) in
  if IPC_V2_MAX_FRAME_BYTES <? blen payload
  then Err (IPCV2PayloadTooLarge ("IPC v2 frame is " +:+ pretty (blen payload) +:+ " bytes"))
  else Ok (payload +:+ newline).

(** The checks on a decoded object. *)
Definition envelope_of_dict (data : dict) : result IPCV2Envelope :=
  _ ← raise_if (negb (py_eq (dget_none "v" data) (JInt IPC_V2_VERSION)) || is_bool (dget_none "v" data))
        (IPCV2ProtocolError "v must be integer 2");
  known ← hash_member (dget_none "kind" data) (λ k, bool_decide (is_Some (KIND_FIELDS k)));
  _ ← raise_if (negb known) (IPCV2ProtocolError "invalid kind");
  let kind := from_option id "" (str_of (dget_none "kind" data)) in
  let allowed := BASE_FIELDS ++ from_option id [] (KIND_FIELDS kind) in
  _ ← raise_if (any (λ kv, negb (str_in (fst kv) allowed)) data) (IPCV2ProtocolError "unknown field(s)");
  _ ← raise_if (any (λ k, negb (dhas k data)) BASE_FIELDS) (IPCV2ProtocolError "missing field(s)");
  let identity := {| ipc_job_id := dget_none "job_id" data; ipc_root_epoch := dget_none "root_epoch" data;
                     ipc_attempt := dget_none "attempt" data; ipc_lane := dget_none "lane" data;
                     ipc_display_lane := dget_none "display_lane" data |} in
  _ ← validate identity;
  _ ← raise_if (negb (int_at_least 1 (dget_none "seq" data))) (IPCV2ProtocolError "seq must be an integer >= 1");
  let body := filter (λ kv, fst kv ∉ BASE_FIELDS) data in
  _ ← _validate_body kind body;
  Ok {| env_kind := kind; env_identity := identity;
        env_seq := from_option id 0 (int_of (dget_none "seq" data)); env_body := body |}.

Definition from_bytes (payload : string) : result IPCV2Envelope :=
  let raw := rstrip_chars is_crlf payload in
  if IPC_V2_MAX_FRAME_BYTES <? blen raw
  then Err (IPCV2PayloadTooLarge ("IPC v2 frame is " +:+ pretty (blen raw) +:+ " bytes"))
  else
  match (if utf8_valid raw then loads raw else None) with
  | None => protocol_error "invalid JSON frame"
  | Some (JObj data) => envelope_of_dict data
  | Some _ => protocol_error "frame must be a JSON object"
  end.
End wire.

(** The error object of a response. *)
Definition ipc_v2_error (code message : string) (retryable : bool) (retry_after_ms : option Z) : dict :=
  [("code", JStr code); ("message", JStr message); ("retryable", JBool retryable)] ++
  match retry_after_ms with Some ms => [("retry_after_ms", JInt ms)] | None => [] end.

(* ------------------------------------------------------------------ *)
(** ** Connection *)

(** Sequence and replay state, retained across reconnects; [unacked] is an
    [OrderedDict]. *)
Record IPCV2ConnectionState := {
  st_identity : IPCV2Identity; send_seq : Z; received_seq : Z; last_acked_seq : Z;
  unacked : list (Z * string); unacked_bytes : Z }.

Definition fresh_state (i : IPCV2Identity) : IPCV2ConnectionState :=
  {| st_identity := i; send_seq := 0; received_seq := 0; last_acked_seq := 0; unacked := []; unacked_bytes := 0 |}.

(** [d[seq] = wire]. *)
Fixpoint od_set (seq : Z) (wire : string) (d : list (Z * string)) : list (Z * string) :=
  match d with
  | [] => [(seq, wire)]
  | (s, w) :: d' => if bool_decide (seq = s) then (s, wire) :: d' else (s, w) :: od_set seq wire d'
  end.

Definition set_send_seq (n : Z) (st : IPCV2ConnectionState) : IPCV2ConnectionState :=
  {| st_identity := st_identity st; send_seq := n; received_seq := received_seq st;
     last_acked_seq := last_acked_seq st; unacked := unacked st; unacked_bytes := unacked_bytes st |}.
Definition set_received (n : Z) (st : IPCV2ConnectionState) : IPCV2ConnectionState :=
  {| st_identity := st_identity st; send_seq := send_seq st; received_seq := n;
     last_acked_seq := last_acked_seq st; unacked := unacked st; unacked_bytes := unacked_bytes st |}.
Definition set_unacked (acked : Z) (u : list (Z * string)) (bytes : Z) (st : IPCV2ConnectionState) : IPCV2ConnectionState :=
  {| st_identity := st_identity st; send_seq := send_seq st; received_seq := received_seq st;
     last_acked_seq := acked; unacked := u; unacked_bytes := bytes |}.

(** What [reader.readline()] yields: a line ([""] at the end of the stream),
    a reset of the connection, or a line above the reader's limit. *)
Inductive read_event := Line (payload : string) | Reset | Overrun.
(** How [wait_for(writer.drain(), 5)] ends. *)
Inductive drain_result := Drained | DrainTimeout | DrainLost.

Record connection := {
  reader : list read_event; writer : list string; drains : list drain_result;
  state : IPCV2ConnectionState; monotonic : Q; last_traffic_at : Q; closed : bool }.

Definition set_state (st : IPCV2ConnectionState) (c : connection) : connection :=
  {| reader := reader c; writer := writer c; drains := drains c; state := st; monotonic := monotonic c;
     last_traffic_at := last_traffic_at c; closed := closed c |}.
Definition set_reader (r : list read_event) (c : connection) : connection :=
  {| reader := r; writer := writer c; drains := drains c; state := state c; monotonic := monotonic c;
     last_traffic_at := last_traffic_at c; closed := closed c |}.
Definition set_closed (c : connection) : connection :=
  {| reader := reader c; writer := writer c; drains := drains c; state := state c; monotonic := monotonic c;
     last_traffic_at := last_traffic_at c; closed := true |}.
Definition touch (c : connection) : connection :=
  {| reader := reader c; writer := writer c; drains := drains c; state := state c; monotonic := monotonic c;
     last_traffic_at := monotonic c; closed := closed c |}.

(** [IPCV2Connection(reader, writer, state)], on a new socket. *)
Definition new_connection (r : list read_event) (ds : list drain_result) (now : Q) (st : IPCV2ConnectionState) :
    result connection :=
  _ ← validate (st_identity st);
  Ok {| reader := r; writer := []; drains := ds; state := st; monotonic := now; last_traffic_at := now; closed := false |}.

Definition C := M connection.
Definition update_state (f : IPCV2ConnectionState → IPCV2ConnectionState) : C unit :=
  modify (λ c, set_state (f (state c)) c).

(** [writer.write(wire)]; the bytes are on their way whatever [drain] says. *)
Definition write_wire (wire : string) : C unit :=
  modify (λ c, {| reader := reader c; writer := writer c ++ [wire]; drains := drains c; state := state c;
                  monotonic := monotonic c; last_traffic_at := last_traffic_at c; closed := closed c |}).
Definition drain : C drain_result := λ c,
  match drains c with
  | [] => (Ok Drained, c)
  | d :: ds => (Ok d, {| reader := reader c; writer := writer c; drains := ds; state := state c;
                         monotonic := monotonic c; last_traffic_at := last_traffic_at c; closed := closed c |})
  end.

Definition _window_available (st : IPCV2ConnectionState) (frame_bytes : Z) : bool :=
  (Z.of_nat (length (unacked st)) <? IPC_V2_WINDOW_MAX_FRAMES) &&
  (unacked_bytes st + frame_bytes <=? IPC_V2_WINDOW_MAX_BYTES).

(** The loop over [list(unacked)]: the frames up to [ack_seq] leave. *)
Fixpoint pop_acked (ack_seq : Z) (u : list (Z * string)) (bytes : Z) : list (Z * string) * Z :=
  match u with
  | [] => ([], bytes)
  | (seq, wire) :: u' =>
      if ack_seq <? seq then (u, bytes) else pop_acked ack_seq u' (bytes - (blen wire - 1))
  end.

Definition _apply_ack (ack : json) : C unit :=
  _ ← guard_raise (negb (int_at_least 0 ack)) (IPCV2ProtocolError "ack_seq must be a non-negative integer");
  let ack_seq := from_option id 0 (int_of ack) in
  st ← gets state;
  _ ← guard_raise (send_seq st <? ack_seq) (IPCV2ProtocolError "ack_seq exceeds the last sent sequence");
  let '(u, bytes) := pop_acked ack_seq (unacked st) (unacked_bytes st) in
  update_state (set_unacked (Z.max (last_acked_seq st) ack_seq) u bytes).

(** [_wait_for_window]; [acks] are the acknowledgements that arrive in its
    five seconds. *)
Definition _wait_for_window (acks : list json) (frame_bytes : Z) : C unit :=
  st ← gets state;
  if _window_available st frame_bytes then mret tt else
  _ ← for_each acks _apply_ack;
  st' ← gets state;
  guard_raise (negb (_window_available st' frame_bytes))
    (IPCV2BackpressureTimeout "ACK window did not advance for 5 seconds").

Definition is_ack (kind : string) (body : dict) : bool :=
  bool_decide (kind = "event") && py_eq (dget_none "event" body) (JStr "ack").

Section connection.
Context `{!FloatText}.

(** One pass of [_send] under the send lock: the sequence number of the sent
    frame, or the size of the frame that has to wait. *)
Definition send_pass (kind : string) (body : dict) : C (Z + Z) :=
  c ← get;
  _ ← guard_raise (closed c) (IPCV2ConnectionError "connection is closed");
  let next_seq := send_seq (state c) + 1 in
  wire ← lift (to_bytes {| env_kind := kind; env_identity := st_identity (state c); env_seq := next_seq; env_body := body |});
  let frame_bytes := blen wire - 1 in
  if is_ack kind body || _window_available (state c) frame_bytes then
    _ ← write_wire wire;
    d ← drain;
    match d with
    | DrainTimeout =>
        _ ← modify set_closed; raise (IPCV2BackpressureTimeout "writer.drain() did not advance for 5 seconds")
    | DrainLost => _ ← modify set_closed; raise (IPCV2ConnectionError "write failed")
    | Drained =>
        _ ← update_state (set_send_seq next_seq);
        _ ← modify touch;
        _ ← (if is_ack kind body then mret tt
             else update_state (λ st, set_unacked (last_acked_seq st) (od_set next_seq wire (unacked st))
                                        (unacked_bytes st + frame_bytes) st));
        mret (inl next_seq)
    end
  else mret (inr frame_bytes).

(** [_send]; [waits] lists the acknowledgements arriving during each wait for
    the window. *)
Fixpoint _send (waits : list (list json)) (kind : string) (body : dict) : C Z :=
  r ← send_pass kind body;
  match r with
  | inl seq => mret seq
  | inr frame_bytes =>
      match waits with
      | [] => _ ← _wait_for_window [] frame_bytes; raise (IPCV2BackpressureTimeout "ACK window did not advance for 5 seconds")
      | acks :: ws => _ ← _wait_for_window acks frame_bytes; _send ws kind body
      end
  end.

Definition send_request (waits : list (list json)) (request_id method : string) (params : dict) : C Z :=
  _send waits "request" [("request_id", JStr request_id); ("method", JStr method); ("params", JObj params)].
Definition send_response (waits : list (list json)) (request_id : string) (result error : option dict) : C Z :=
  _send waits "response"
    (("request_id", JStr request_id) ::
     match error with
     | Some e => [("error", JObj e)]
     | None => [("result", from_option JObj JNull result)]
     end).
Definition send_event (waits : list (list json)) (event : string) (data : dict) : C Z :=
  _send waits "event" [("event", JStr event); ("data", JObj data)].
Definition _send_ack (seq : Z) : C unit :=
  _ ← _send [] "event" [("event", JStr "ack"); ("data", JObj [("ack_seq", JInt seq)])]; mret tt.

Definition read_ipc_v2_envelope (ev : read_event) : result IPCV2Envelope :=
  match ev with
  | Reset => Err (IPCV2ConnectionError "peer disconnected")
  | Overrun => Err (IPCV2PayloadTooLarge "IPC v2 frame exceeded the reader limit")
  | Line payload =>
      if bool_decide (payload = "") then Err (IPCV2ConnectionError "peer disconnected")
      else if IPC_V2_MAX_FRAME_BYTES <? blen (rstrip_chars is_crlf payload)
      then Err (IPCV2PayloadTooLarge "IPC v2 frame exceeded 4 MiB")
      else from_bytes payload
  end.

(** [envelope.body["data"].get("ack_seq")]. *)
Definition ack_seq_of (body : dict) : result json :=
  match dget "data" body with
  | None => Err (KeyError "data")
  | Some (JObj d) => Ok (dget_none "ack_seq" d)
  | Some _ => Err (AttributeError "get")
  end.

(** What a connection does with a decoded frame: [None] for an
    acknowledgement or a duplicate.  The body of [receive], and [accept_first]. *)
Definition accept (mismatch : string) (e : IPCV2Envelope) : C (option IPCV2Envelope) :=
  st ← gets state;
  _ ← guard_raise (negb (identity_eq (env_identity e) (st_identity st))) (IPCV2ProtocolError mismatch);
  _ ← modify touch;
  let duplicate := env_seq e <=? received_seq st in
  _ ← update_state (λ st, set_received (Z.max (received_seq st) (env_seq e)) st);
  if is_ack (env_kind e) (env_body e) then
    ack ← lift (ack_seq_of (env_body e));
    _ ← _apply_ack ack;
    mret None
  else
    _ ← _send_ack (env_seq e);
    mret (if duplicate then None else Some e).

Definition accept_first (e : IPCV2Envelope) : C (option IPCV2Envelope) :=
  accept "job identity does not match registry" e.

(** [receive]: reads until a frame is to be delivered; past the last event the
    stream has ended. *)
Fixpoint receive_from (evs : list read_event) : C IPCV2Envelope :=
  match evs with
  | [] => lift (read_ipc_v2_envelope (Line ""))
  | ev :: evs' =>
      _ ← modify (set_reader evs');
      e ← lift (read_ipc_v2_envelope ev);
      got ← accept "job identity changed within a connection" e;
      match got with Some e' => mret e' | None => receive_from evs' end
  end.
Definition receive : C IPCV2Envelope := λ c, receive_from (reader c) c.

(** [replay_after]: the timeout of a [drain] is not translated here. *)
Definition replay_after (received : Z) (through_seq : option Z) : C unit :=
  c ← get;
  _ ← for_each (unacked (state c)) (λ sw,
        if fst sw <=? received then mret tt
        else if match through_seq with Some t => t <? fst sw | None => false end then mret tt
        else
          _ ← write_wire (snd sw);
          d ← drain;
          match d with
          | Drained => mret tt
          | DrainTimeout => raise (TimeoutError "")
          | DrainLost => raise (ConnectionError "")
          end);
  modify touch.

Definition is_half_open (now : option Q) (c : connection) : bool :=
  let t := match now with Some n => if Qeq_bool n 0 then monotonic c else n | None => monotonic c end in
  Qle_bool IPC_V2_HALF_OPEN_TIMEOUT (t - last_traffic_at c)%Q.

(** [wait_for_ack]; [acks] are the acknowledgements that arrive in its five
    seconds. *)
Definition wait_for_ack (acks : list json) (seq : Z) : C unit :=
  st ← gets state;
  if seq <=? last_acked_seq st then mret tt else
  _ ← for_each acks _apply_ack;
  st' ← gets state;
  guard_raise (negb (seq <=? last_acked_seq st')) (IPCV2BackpressureTimeout "frame was not acknowledged within 5 seconds").

Definition close : C unit := modify set_closed.

(* ------------------------------------------------------------------ *)
(** ** Handshake *)

(** [_connect], one dial: say hello, then drop frames until the run request. *)
Definition hello_data (st : IPCV2ConnectionState) : dict :=
  [ ("capabilities", JObj [("reconnect", JBool true); ("steer", JBool false)]);
    ("last_received_seq", JInt (received_seq st)); ("last_acked_seq", JInt (last_acked_seq st)) ].
Definition is_event (name : string) (e : IPCV2Envelope) : bool :=
  bool_decide (env_kind e = "event") && py_eq (dget_none "event" (env_body e)) (JStr name).
Definition is_run (e : IPCV2Envelope) : bool :=
  bool_decide (env_kind e = "request") && py_eq (dget_none "method" (env_body e)) (JStr "run").
Fixpoint await_run (fuel : nat) : C IPCV2Envelope :=
  match fuel with
  | O => raise (IPCV2ConnectionError "peer disconnected")
  | S n => e ← receive; if is_event "hello_ack" e then await_run n else if is_run e then mret e else await_run n
  end.
Definition connect_dial (waits : list (list json)) : C IPCV2Envelope :=
  st ← gets state;
  _ ← send_event waits "hello" (hello_data st);
  c ← get;
  await_run (S (length (reader c))).

(** The registered job a runner connects for. *)
Record root_job := { job_request_id : string; job_params : dict; job_interrupt : option string }.

(** [_handle_connection] up to its receive loop, on a connection that carries
    the job's peer state: the capabilities the runner announced. *)
Definition hello_frame (accepted : option IPCV2Envelope) : result dict :=
  match accepted with
  | Some e =>
      if is_event "hello" e then
        match dget "data" (env_body e) with
        | Some (JObj d) => Ok d
        | Some _ => Err (AttributeError "get")
        | None => Err (KeyError "data")
        end
      else protocol_error "the first task runner frame must be hello"
  | None => protocol_error "the first task runner frame must be hello"
  end.
Definition hello_capabilities (data : dict) : result (bool * bool) :=
  let raw := dget_none "capabilities" data in
  match (if truthy raw then raw else JObj []) with
  | JObj caps =>
      let flag k := match dget k caps with Some (JBool true) => true | _ => false end in
      Ok (flag "reconnect", flag "steer")
  | _ => protocol_error "hello.capabilities must be an object"
  end.
Definition hello_ack_data (st : IPCV2ConnectionState) : dict :=
  [ ("capabilities", JObj [("reconnect", JBool true); ("steer", JBool true)]);
    ("last_received_seq", JInt (received_seq st)); ("last_acked_seq", JInt (last_acked_seq st)) ].
Definition handle_first (job : root_job) (first : IPCV2Envelope) : C (bool * bool) :=
  accepted ← accept_first first;
  data ← lift (hello_frame accepted);
  caps ← lift (hello_capabilities data);
  let last_received := dget_default "last_received_seq" (JInt 0) data in
  _ ← guard_raise (negb (int_at_least 0 last_received))
        (IPCV2ProtocolError "hello.last_received_seq must be a non-negative integer");
  st ← gets state;
  let replay_through := send_seq st in
  _ ← send_event [] "hello_ack" (hello_ack_data st);
  _ ← replay_after (from_option id 0 (int_of last_received)) (Some replay_through);
  _ ← send_request [] (job_request_id job) "run" (job_params job);
  _ ← (match job_interrupt job with
       | Some thread_id => _ ← send_event [] "interrupt" [("thread_id", JStr thread_id)]; mret tt
       | None => mret tt
       end);
  mret caps.

(** The answer to a runner whose job is not registered. *)
Definition reject_unknown : C Z :=
  send_event [] "protocol_error" (ipc_v2_error "UNKNOWN_JOB" "job is not registered" false None).

(** The frames a consumer gets out of a connection until it fails. *)
Fixpoint deliver (n : nat) (c : connection) : list IPCV2Envelope * connection :=
  match n with
  | O => ([], c)
  | S n' =>
      match receive c with
      | (Ok e, c') => let '(es, c'') := deliver n' c' in (e :: es, c'')
      | (Err _, c') => ([], c')
      end
  end.
End connection.
