(* ===== verification/IpcV2Props.v ===== *)
(** * What the frame protocol guarantees

    The wire round trip, the invariant of a connection under any traffic,
    ordered delivery at most once across reconnects, delivery of everything on
    a healthy connection, and what the handshake does with frames that were
    outstanding when a connection broke. *)

From Stdlib Require Import Ascii QArith.
From stdpp Require Import prelude strings list pretty sorting.
From S2P Require Import Prelude PyValue PyText JsonText JsonRound IpcV2.
Open Scope Z_scope.

(* ------------------------------------------------------------------ *)
(** ** Round trip *)

(** The wire contract of an envelope. *)
Record envelope_ok (e : IPCV2Envelope) : Prop := {
  ok_identity : validate (env_identity e) = Ok tt;
  ok_seq : 1 ≤ env_seq e;
  ok_kind : is_Some (KIND_FIELDS (env_kind e));
  ok_body : _validate_body (env_kind e) (env_body e) = Ok tt;
  ok_keys : ∀ k v, (k, v) ∈ env_body e → k ∈ from_option id [] (KIND_FIELDS (env_kind e)) }.

Lemma rstrip_app_blank p s t : rstrip_chars p t = "" → rstrip_chars p (s +:+ t) = rstrip_chars p s.
Proof.
  intros Ht. induction s as [|c s IH]; [done|]. rewrite string_cons_app. cbn [rstrip_chars]. by rewrite IH.
Qed.
Lemma rstrip_last p c s : p c = false → rstrip_chars p (s +:+ String c "") = s +:+ String c "".
Proof.
  intros Hc. induction s as [|a s IH].
  { change (rstrip_chars p (String c "") = String c ""). cbn [rstrip_chars]. by rewrite Hc. }
  rewrite string_cons_app. cbn [rstrip_chars]. rewrite IH. by destruct s.
Qed.

Lemma rstrip_frame `{!FloatText} d : rstrip_chars is_crlf (dumps "" (JObj d) +:+ newline) = dumps "" (JObj d).
Proof.
  rewrite rstrip_app_blank by done. cbn [dumps]. rewrite <- string_app_assoc. by apply rstrip_last.
Qed.

Lemma kind_fields_fresh kind k : k ∈ from_option id [] (KIND_FIELDS kind) → k ∉ BASE_FIELDS.
Proof.
  unfold KIND_FIELDS. repeat case_bool_decide; cbn [from_option id]; intros Hk;
    [..|by apply not_elem_of_nil in Hk]; set_unfold in Hk; set_unfold; naive_solver.
Qed.

Abbreviation wire_base e := [ ("v", JInt IPC_V2_VERSION); ("kind", JStr (env_kind e));
   ("job_id", ipc_job_id (env_identity e)); ("seq", JInt (env_seq e));
   ("root_epoch", ipc_root_epoch (env_identity e)); ("attempt", ipc_attempt (env_identity e));
   ("lane", ipc_lane (env_identity e)); ("display_lane", ipc_display_lane (env_identity e)) ].

Section envelope.
Context (e : IPCV2Envelope) (Hok : envelope_ok e) (Hwf : dict_wf (env_body e)).

Lemma body_fresh k : k ∈ map fst (env_body e) → k ∉ BASE_FIELDS.
Proof.
  intros ([k' v] & -> & Hin)%list_elem_of_fmap. by eapply kind_fields_fresh, (ok_keys e Hok).
Qed.

Lemma to_dict_nodup : NoDup (map fst (wire_base e ++ env_body e)).
Proof.
  rewrite map_app. apply NoDup_app. split_and!; [|intros k Hk Hb; by apply (body_fresh k Hb)|done].
  by apply (bool_decide_unpack (NoDup BASE_FIELDS)).
Qed.

Lemma to_dict_app : to_dict e = wire_base e ++ env_body e.
Proof. apply dmerge_fresh, to_dict_nodup. Qed.

Lemma body_filter : filter (λ kv : string * json, fst kv ∉ BASE_FIELDS) (to_dict e) = env_body e.
Proof.
  rewrite to_dict_app, filter_app.
  assert (filter (λ kv : string * json, fst kv ∉ BASE_FIELDS) (wire_base e) = []) as -> by done.
  apply filter_all. intros [k v] Hkv. apply body_fresh.
  by apply (list_elem_of_fmap_2 fst _ (k, v)).
Qed.

Lemma to_dict_known :
  any (λ kv : string * json, negb (str_in (fst kv) (BASE_FIELDS ++ from_option id [] (KIND_FIELDS (env_kind e)))))
    (to_dict e) = false.
Proof.
  rewrite to_dict_app. apply any_false. intros [k v] [Hkv|Hkv]%elem_of_app;
    apply negb_false_iff, bool_decide_eq_true, elem_of_app.
  - left. cbn [fst]. change BASE_FIELDS with (map fst (wire_base e)). by apply (list_elem_of_fmap_2 fst _ (k, v)).
  - right. by eapply (ok_keys e Hok).
Qed.

(** The checks of the receiver accept what the sender's contract allows. *)
Lemma of_to_dict : envelope_of_dict (to_dict e) = Ok e.
Proof.
  pose proof to_dict_known as Hknown. pose proof body_filter as Hbody.
  rewrite to_dict_app in *. unfold envelope_of_dict.
  destruct e as [kind [job epoch att ln dl] seq body]; cbn [env_kind env_identity env_seq env_body
    ipc_job_id ipc_root_epoch ipc_attempt ipc_lane ipc_display_lane] in *.
  set (data := _ ++ body) in *.
  assert (dget_none "v" data = JInt 2) as -> by done.
  assert (dget_none "kind" data = JStr kind) as -> by done.
  assert (dget_none "job_id" data = job) as -> by done.
  assert (dget_none "root_epoch" data = epoch) as -> by done.
  assert (dget_none "attempt" data = att) as -> by done.
  assert (dget_none "lane" data = ln) as -> by done.
  assert (dget_none "display_lane" data = dl) as -> by done.
  assert (dget_none "seq" data = JInt seq) as -> by done.
  assert (any (λ k, negb (dhas k data)) BASE_FIELDS = false) as -> by done.
  destruct Hok as [Hi Hs Hk Hb _]. cbn [env_kind env_identity env_seq env_body] in *.
  cbn [hash_member str_of int_of from_option id int_at_least]. rewrite bool_decide_eq_true_2 by done.
  cbn [mbind result_bind negb raise_if]. cbv zeta. change (from_option id "" (Some kind)) with kind.
  rewrite Hknown. apply Z.leb_le in Hs. rewrite Hs, Hbody.
  change (negb (py_eq (JInt 2) (JInt IPC_V2_VERSION)) || is_bool (JInt 2)) with false.
  cbn [raise_if result_bind negb]. rewrite Hi. cbn [result_bind]. by rewrite Hb.
Qed.

Context `{!FloatText}.

Lemma frame_round wire :
  json_wf (JObj (to_dict e)) = true → json_utf8 (JObj (to_dict e)) = true →
  to_bytes e = Ok wire → from_bytes wire = Ok e.
Proof.
  intros Hj Hu. unfold to_bytes, from_bytes. destruct (_ <? _) eqn:Hsize; [done|].
  intros Hw. assert (wire = dumps "" (JObj (to_dict e)) +:+ newline) as -> by congruence.
  rewrite rstrip_frame, Hsize, dumps_utf8 by done.
  rewrite loads_dumps by done. apply of_to_dict.
Qed.
End envelope.

Lemma validate_fields i : validate i = Ok tt →
  ∃ j r a l d, i = {| ipc_job_id := JStr j; ipc_root_epoch := JStr r; ipc_attempt := JInt a;
                      ipc_lane := JStr l; ipc_display_lane := JStr d |}.
Proof.
  destruct i as [job epoch att ln dl]. unfold validate.
  cbn [ipc_job_id ipc_root_epoch ipc_attempt ipc_lane ipc_display_lane].
  destruct job as [| | | |j| |]; try done. destruct (nonempty_str (JStr j)); [|done].
  destruct epoch as [| | | |r| |]; try done. destruct (uuid_ok r); [|done].
  destruct att as [| |a| | | |]; try done. destruct (int_at_least 1 (JInt a)); [|done].
  destruct ln as [| | | |l| |]; try done. cbn [hash_member]. destruct (str_in l IPC_LANES); [|done].
  destruct dl as [| | | |d| |]; try done. intros _. by exists j, r, a, l, d.
Qed.

Lemma to_dict_wf `{!FloatText} e :
  envelope_ok e → json_wf (JObj (env_body e)) = true → json_wf (JObj (to_dict e)) = true.
Proof.
  intros Hok Hwf. cbn [json_wf] in *. apply andb_true_iff in Hwf as [Hnd%bool_decide_eq_true Hwf].
  rewrite to_dict_app by done. rewrite bool_decide_eq_true_2 by (by apply to_dict_nodup).
  destruct (validate_fields _ (ok_identity e Hok)) as (j & r & a & l & d & E). by rewrite E.
Qed.

(** C35. A frame that keeps the wire contract is decoded to itself, and it is
    one line: nothing but its last byte is a line break or any other control
    character, and its payload is within the limit. *)
Theorem envelope_roundtrip `{!FloatText} e wire :
  envelope_ok e → json_wf (JObj (env_body e)) = true → json_utf8 (JObj (to_dict e)) = true →
  to_bytes e = Ok wire →
  from_bytes wire = Ok e ∧
  ∃ payload, wire = payload +:+ newline ∧ str_all printable payload = true ∧
    blen payload ≤ IPC_V2_MAX_FRAME_BYTES.
Proof.
  intros Hok Hwf Hu Hw. pose proof (to_dict_wf e Hok Hwf) as Hd.
  split. { apply frame_round; try done. cbn [json_wf] in Hwf. by apply andb_true_iff in Hwf as [?%bool_decide_eq_true _]. }
  unfold to_bytes in Hw. exists (dumps "" (JObj (to_dict e))).
  destruct (Z.ltb_spec IPC_V2_MAX_FRAME_BYTES (blen (dumps "" (JObj (to_dict e))))); [done|].
  split_and!; [congruence|by apply dumps_printable|done].
Qed.

(* ------------------------------------------------------------------ *)
(** ** The state of a connection *)

Definition frame_bytes (u : list (Z * string)) : Z := foldr (λ sw n, blen (snd sw) - 1 + n) 0 u.

(** The outstanding frames are those sent after the last acknowledgement, in
    order, within the window, each with the number it is kept under. *)
Record state_inv `{!FloatText} (st : IPCV2ConnectionState) : Prop := {
  inv_acked : 0 ≤ last_acked_seq st ≤ send_seq st;
  inv_received : 0 ≤ received_seq st;
  inv_sorted : StronglySorted (λ a b, fst a < fst b) (unacked st);
  inv_range : Forall (λ sw, last_acked_seq st < fst sw ≤ send_seq st) (unacked st);
  inv_bytes : unacked_bytes st = frame_bytes (unacked st);
  inv_window : Z.of_nat (length (unacked st)) ≤ IPC_V2_WINDOW_MAX_FRAMES ∧
    unacked_bytes st ≤ IPC_V2_WINDOW_MAX_BYTES;
  inv_frames : Forall (λ sw, ∃ kind body, to_bytes {| env_kind := kind; env_identity := st_identity st;
    env_seq := fst sw; env_body := body |} = Ok (snd sw)) (unacked st) }.

(** What one operation may do to the state: the counters only grow. *)
Record evolves `{!FloatText} (st st' : IPCV2ConnectionState) : Prop := {
  ev_identity : st_identity st' = st_identity st;
  ev_send : send_seq st ≤ send_seq st';
  ev_received : received_seq st ≤ received_seq st';
  ev_acked : last_acked_seq st ≤ last_acked_seq st';
  ev_inv : state_inv st → state_inv st' }.
#[global] Instance evolves_preorder `{!FloatText} : PreOrder evolves.
Proof.
  split; [intros st; split; auto; lia|].
  intros st1 st2 st3 [i1 s1 r1 a1 v1] [i2 s2 r2 a2 v2]. split; [congruence|lia..|auto].
Qed.

Definition conn_evolves `{!FloatText} (c c' : connection) : Prop := evolves (state c) (state c').
#[global] Instance conn_evolves_preorder `{!FloatText} : PreOrder conn_evolves.
Proof. unfold conn_evolves. split; [intros c; reflexivity | intros c1 c2 c3; apply transitivity]. Qed.

Lemma pop_acked_spec ack u bytes :
  ∃ gone, u = gone ++ fst (pop_acked ack u bytes) ∧ Forall (λ sw, fst sw ≤ ack) gone ∧
    snd (pop_acked ack u bytes) = bytes - frame_bytes gone ∧
    (StronglySorted (λ a b, fst a < fst b) u → Forall (λ sw, ack < fst sw) (fst (pop_acked ack u bytes))).
Proof.
  revert bytes. induction u as [|[seq wire] u IH]; intros bytes; cbn [pop_acked].
  { exists []. cbn. split_and!; auto. lia. }
  destruct (Z.ltb_spec ack seq).
  - exists []. cbn [fst snd frame_bytes foldr app]. split_and!; auto; [lia|].
    intros Hs. inversion_clear Hs as [|? ? _ Hall]. constructor; [done|].
    eapply Forall_impl; [exact Hall|]. intros [s w]. cbn. lia.
  - destruct (IH (bytes - (blen wire - 1))) as (gone & Hu & Hg & Hb & Hs).
    exists ((seq, wire) :: gone). cbn [app frame_bytes foldr snd]. split_and!.
    + by rewrite <- Hu.
    + by constructor.
    + rewrite Hb. unfold frame_bytes. lia.
    + intros Hss. apply Hs. by inversion Hss.
Qed.

Lemma frame_bytes_app u v : frame_bytes (u ++ v) = frame_bytes u + frame_bytes v.
Proof. unfold frame_bytes. induction u as [|[s w] u IH]; cbn [app foldr]; lia. Qed.

Lemma od_set_fresh seq wire u : Forall (λ sw, fst sw < seq) u → od_set seq wire u = u ++ [(seq, wire)].
Proof.
  induction u as [|[s w] u IH]; [done|]. intros [Hs Hu]%Forall_cons. cbn in Hs. cbn [od_set].
  rewrite bool_decide_eq_false_2 by lia. by rewrite IH.
Qed.

Section state.
Context `{!FloatText}.

Lemma wire_length e wire : to_bytes e = Ok wire → 1 ≤ blen wire ∧ blen wire - 1 ≤ IPC_V2_MAX_FRAME_BYTES.
Proof.
  unfold to_bytes. destruct (Z.ltb_spec IPC_V2_MAX_FRAME_BYTES (blen (dumps "" (JObj (to_dict e))))); [done|].
  intros Hw. assert (wire = dumps "" (JObj (to_dict e)) +:+ newline) as -> by congruence.
  unfold blen in *. rewrite string_length_app. cbn [newline String.length]. lia.
Qed.

Lemma frame_bytes_nonneg i u :
  Forall (λ sw, ∃ kind body, to_bytes {| env_kind := kind; env_identity := i;
    env_seq := fst sw; env_body := body |} = Ok (snd sw)) u → 0 ≤ frame_bytes u.
Proof.
  induction 1 as [|[s w] u (k & b & Hw) _ IH]; [done|]. cbn [snd] in Hw.
  apply wire_length in Hw as [? _]. unfold frame_bytes in *. cbn [foldr snd]. lia.
Qed.

(** Dropping a prefix of the outstanding frames. *)
Lemma acked_inv st ack :
  0 ≤ ack ≤ send_seq st → state_inv st →
  state_inv (set_unacked (Z.max (last_acked_seq st) ack)
    (fst (pop_acked ack (unacked st) (unacked_bytes st)))
    (snd (pop_acked ack (unacked st) (unacked_bytes st))) st).
Proof.
  intros Hack [Ha Hr Hs Hrange Hb [Hc Hw] Hf].
  destruct (pop_acked_spec ack (unacked st) (unacked_bytes st)) as (gone & Hu & Hg & Hpb & Hgt).
  specialize (Hgt Hs). destruct (pop_acked _ _ _) as [u bytes]. cbn [fst snd] in *.
  rewrite Hu in Hs, Hrange, Hb, Hc, Hf. rewrite frame_bytes_app in Hb.
  apply Forall_app in Hrange as [_ Hrange]. apply Forall_app in Hf as [Hfg Hf].
  apply frame_bytes_nonneg in Hfg. rewrite length_app in Hc.
  split; cbn [last_acked_seq send_seq received_seq unacked unacked_bytes st_identity set_unacked]; try done; try lia.
  - by apply StronglySorted_app_1_r in Hs.
  - rewrite Forall_forall in *. intros sw Hin. specialize (Hgt sw Hin). specialize (Hrange sw Hin).
    cbn in Hgt, Hrange. lia.
Qed.

Lemma within_apply_ack ack : within conn_evolves (_apply_ack ack).
Proof.
  intros c. unfold _apply_ack. run_unfold. destruct (int_at_least 0 ack) eqn:Hi; [|reflexivity].
  destruct ack as [| |z| | | |]; try done. cbn [negb int_of from_option id].
  destruct (Z.ltb_spec (send_seq (state c)) z); [reflexivity|].
  pose proof (acked_inv (state c) z) as Hinv.
  destruct (pop_acked z _ _) as [u bytes]. cbn [fst snd] in *.
  apply Z.leb_le in Hi. split; cbn; try done; try lia. intros. by apply Hinv.
Qed.

(** A data frame joins the outstanding ones; an acknowledgement does not. *)
Lemma sent_inv st kind body wire :
  to_bytes {| env_kind := kind; env_identity := st_identity st; env_seq := send_seq st + 1; env_body := body |} = Ok wire →
  _window_available st (blen wire - 1) = true → state_inv st →
  state_inv (set_unacked (last_acked_seq st) (od_set (send_seq st + 1) wire (unacked st))
    (unacked_bytes st + (blen wire - 1)) (set_send_seq (send_seq st + 1) st)).
Proof.
  intros Hw Hwin [Ha Hr Hs Hrange Hb [Hc Hw'] Hf].
  unfold _window_available in Hwin. apply andb_true_iff in Hwin as [Hcount%Z.ltb_lt Hbytes%Z.leb_le].
  rewrite od_set_fresh by (eapply Forall_impl; [exact Hrange|]; cbn; lia).
  split; cbn [last_acked_seq send_seq received_seq unacked unacked_bytes st_identity set_unacked set_send_seq]; try done; try lia.
  - apply StronglySorted_app. split_and!; [|done|by repeat constructor].
    intros x1 x2 Hx1 ->%list_elem_of_singleton. rewrite Forall_forall in Hrange. specialize (Hrange x1 Hx1). cbn in *. lia.
  - apply Forall_app. split; [|constructor; [cbn; lia|done]]. eapply Forall_impl; [exact Hrange|]. cbn. lia.
  - rewrite frame_bytes_app, Hb. unfold frame_bytes at 3. cbn [foldr snd]. lia.
  - rewrite length_app. cbn [length]. lia.
  - apply Forall_app. split; [done|]. constructor; [by exists kind, body|done].
Qed.
Lemma bumped_inv st : state_inv st → state_inv (set_send_seq (send_seq st + 1) st).
Proof.
  intros [Ha Hr Hs Hrange Hb Hw Hf]. split; try done; cbn; [lia|].
  eapply Forall_impl; [exact Hrange|]. cbn. lia.
Qed.

Lemma within_send_pass kind body : within conn_evolves (send_pass kind body).
Proof.
  intros c. unfold send_pass, write_wire, drain, update_state, conn_evolves. run_unfold.
  destruct (closed c); [reflexivity|].
  destruct (to_bytes _) as [wire|e] eqn:Hwire; [|reflexivity].
  destruct (is_ack kind body || _) eqn:Hok; [|reflexivity].
  assert (is_ack kind body = true ∨ is_ack kind body = false ∧ _window_available (state c) (blen wire - 1) = true) as Hk.
  { destruct (is_ack kind body); auto. }
  cbn [drains]. destruct (drains c) as [|[] ds]; cbn [fst snd state set_closed]; try reflexivity.
  all: destruct Hk as [->|[-> Hwin]]; split; cbn; try done; try lia.
  all: first [by apply bumped_inv | intros; by eapply sent_inv].
Qed.
#[local] Hint Resolve within_apply_ack within_send_pass : within.

Lemma within_touch : within conn_evolves (modify touch).
Proof. intros c. apply (reflexivity (R := evolves) (state c)). Qed.
Lemma within_set_reader r : within conn_evolves (modify (set_reader r)).
Proof. intros c. apply (reflexivity (R := evolves) (state c)). Qed.
Lemma within_write wire : within conn_evolves (write_wire wire).
Proof. intros c. apply (reflexivity (R := evolves) (state c)). Qed.
Lemma within_drain : within conn_evolves drain.
Proof. intros c. unfold drain. destruct (drains c); apply (reflexivity (R := evolves) (state c)). Qed.
Lemma within_received seq :
  within conn_evolves (update_state (λ st, set_received (Z.max (received_seq st) seq) st)).
Proof.
  intros c. split; cbn; try done; try lia. intros [Ha Hr Hs Hrange Hb Hw Hf]. split; try done. cbn. lia.
Qed.
#[local] Hint Resolve within_touch within_set_reader within_write within_drain within_received : within.

Lemma within_wait acks n : within conn_evolves (_wait_for_window acks n).
Proof. unfold _wait_for_window. within_tac. Qed.
#[local] Hint Resolve within_wait : within.

Lemma within_send waits kind body : within conn_evolves (_send waits kind body).
Proof. induction waits as [|acks ws IH]; cbn [_send]; within_tac. Qed.
#[local] Hint Resolve within_send : within.

Lemma within_accept msg e : within conn_evolves (accept msg e).
Proof. unfold accept, _send_ack. within_tac. Qed.
#[local] Hint Resolve within_accept : within.

Lemma within_receive : within conn_evolves receive.
Proof.
  intros c. unfold receive. generalize (reader c). intros evs. revert c.
  change (within conn_evolves (receive_from evs)).
  induction evs as [|ev evs IH]; cbn [receive_from]; within_tac.
Qed.
Lemma within_replay received through : within conn_evolves (replay_after received through).
Proof. unfold replay_after. within_tac. Qed.
#[local] Hint Resolve within_receive within_replay : within.

Lemma within_handle_first job first : within conn_evolves (handle_first job first).
Proof. unfold handle_first, accept_first, send_event, send_request. within_tac. Qed.
Lemma within_connect waits : within conn_evolves (connect_dial waits).
Proof.
  assert (∀ n, within conn_evolves (await_run n)) as Hrun.
  { induction n as [|n IH]; cbn [await_run]; within_tac. }
  unfold connect_dial, send_event. within_tac.
Qed.
End state.

(* ------------------------------------------------------------------ *)
(** ** Any traffic *)

Inductive conn_op :=
| OpSend (waits : list (list json)) (kind : string) (body : dict)
| OpReceive
| OpAccept (e : IPCV2Envelope)
| OpReplay (received : Z) (through : option Z)
| OpWaitAck (acks : list json) (seq : Z)
| OpDial (waits : list (list json))
| OpHandshake (job : root_job) (first : IPCV2Envelope)
| OpClose
| OpReconnect (r : list read_event) (ds : list drain_result) (now : Q).

Definition run_op `{!FloatText} (c : connection) (o : conn_op) : connection :=
  match o with
  | OpSend waits kind body => state_of (_send waits kind body c)
  | OpReceive => state_of (receive c)
  | OpAccept e => state_of (accept_first e c)
  | OpReplay received through => state_of (replay_after received through c)
  | OpWaitAck acks seq => state_of (wait_for_ack acks seq c)
  | OpDial waits => state_of (connect_dial waits c)
  | OpHandshake job first => state_of (handle_first job first c)
  | OpClose => state_of (close c)
  | OpReconnect r ds now => match new_connection r ds now (state c) with Ok c' => c' | Err _ => c end
  end.

Section traffic.
Context `{!FloatText}.

Lemma run_op_evolves c o : conn_evolves c (run_op c o).
Proof.
  destruct o; cbn [run_op].
  - apply within_send.
  - apply within_receive.
  - apply within_accept.
  - apply within_replay.
  - assert (within conn_evolves (wait_for_ack acks seq)) as Hw; [|apply Hw].
    pose proof within_apply_ack. unfold wait_for_ack. within_tac.
  - apply within_connect.
  - apply within_handle_first.
  - apply (reflexivity (R := evolves) (state c)).
  - unfold new_connection. destruct (validate _); apply (reflexivity (R := evolves) (state c)).
Qed.

Lemma fresh_inv i : state_inv (fresh_state i).
Proof. split; cbn; try constructor; done. Qed.

(** C36. Whatever is sent, received, acknowledged, replayed or lost, on any number
    of connections in turn: at most 64 frames and 4 MiB are outstanding, they
    are exactly accounted for, they are the frames sent after the last
    acknowledgement in the order of their numbers, and no counter goes back. *)
Theorem connection_invariant c ops i :
  state c = fresh_state i →
  state_inv (state (foldl run_op c ops)) ∧
  ∀ ops', evolves (state (foldl run_op c ops)) (state (foldl run_op c (ops ++ ops'))).
Proof.
  intros Hc.
  assert (∀ ops c, evolves (state c) (state (foldl run_op c ops))) as Hev.
  { clear. intros ops. induction ops as [|o ops IH]; intros c; [reflexivity|].
    cbn [foldl]. etrans; [apply run_op_evolves|apply IH]. }
  split.
  - apply (ev_inv _ _ (Hev ops c)). rewrite Hc. apply fresh_inv.
  - intros ops'. rewrite foldl_app. apply Hev.
Qed.

(* ------------------------------------------------------------------ *)
(** ** Delivery *)

Lemma accept_delivers msg e c e' c' : accept msg e c = (Ok (Some e'), c') →
  e' = e ∧ received_seq (state c) < env_seq e ≤ received_seq (state c').
Proof.
  unfold accept, _send_ack, update_state. run_unfold. destruct (negb (identity_eq _ _)); [done|].
  destruct (is_ack _ _).
  { destruct (ack_seq_of _) as [a|]; [|done].
    match goal with |- context [_apply_ack a ?s] => by destruct (_apply_ack a s) as [[]] end. }
  pose proof (within_send [] "event" [("event", JStr "ack"); ("data", JObj [("ack_seq", JInt (env_seq e))])]) as Hs.
  match goal with |- context [_send _ _ _ ?s] => specialize (Hs s); destruct (_send [] "event" _ s) as [[n|x] c2] eqn:E end; [|done].
  cbn [snd state_of] in Hs. destruct (Z.leb_spec (env_seq e) (received_seq (state c))); intros [= <- <-].
  split; [done|]. apply ev_received in Hs. cbn in Hs. lia.
Qed.

Lemma receive_from_fresh evs c e c' : receive_from evs c = (Ok e, c') →
  received_seq (state c) < env_seq e ≤ received_seq (state c').
Proof.
  revert c. induction evs as [|ev evs IH]; intros c; cbn [receive_from]; run_unfold; [done|].
  destruct (read_ipc_v2_envelope ev) as [e0|]; [|done].
  destruct (accept _ e0 _) as [[[e1|]|] c1] eqn:E; [| |done].
  - apply accept_delivers in E as [-> E]. intros [= <- <-]. exact E.
  - intros Hr%IH. pose proof (within_accept "job identity changed within a connection" e0 (set_reader evs c)) as Hw.
    rewrite E in Hw. apply ev_received in Hw. cbn [snd state_of state set_reader] in Hw. lia.
Qed.
Lemma receive_fresh c e c' : receive c = (Ok e, c') →
  received_seq (state c) < env_seq e ≤ received_seq (state c').
Proof. apply receive_from_fresh. Qed.

Definition increasing_from (lo : Z) (es : list IPCV2Envelope) : Prop :=
  StronglySorted Z.lt (env_seq <$> es) ∧ Forall (λ e, lo < env_seq e) es.

Lemma increasing_cons lo e es : lo < env_seq e → increasing_from (env_seq e) es → increasing_from lo (e :: es).
Proof.
  intros Hlo [Hs Hf]. split.
  - cbn. constructor; [done|]. by apply Forall_fmap.
  - constructor; [done|]. eapply Forall_impl; [exact Hf|]. cbn. lia.
Qed.
Lemma increasing_weaken lo lo' es : lo ≤ lo' → increasing_from lo' es → increasing_from lo es.
Proof. intros Hle [Hs Hf]. split; [done|]. eapply Forall_impl; [exact Hf|]. cbn. lia. Qed.

Lemma deliver_increasing n c :
  increasing_from (received_seq (state c)) (fst (deliver n c)) ∧
  received_seq (state c) ≤ received_seq (state (snd (deliver n c))) ∧
  Forall (λ e, env_seq e ≤ received_seq (state (snd (deliver n c)))) (fst (deliver n c)).
Proof.
  revert c. induction n as [|n IH]; intros c; cbn [deliver].
  { cbn. split_and!; [split; constructor|lia|constructor]. }
  destruct (receive c) as [[e|x] c'] eqn:E.
  - apply receive_fresh in E as [Hlo Hhi]. specialize (IH c'). destruct (deliver n c') as [es c''].
    cbn [fst snd] in *. destruct IH as (Hinc & Hge & Hall). split_and!.
    + apply increasing_cons; [done|]. by eapply increasing_weaken.
    + lia.
    + constructor; [lia|done].
  - pose proof (within_receive c) as Hw. rewrite E in Hw. apply ev_received in Hw.
    cbn in *. split_and!; [split; constructor|exact Hw|constructor].
Qed.

(** A consumer that reconnects: each session reads at most [n] frames from a
    new socket, over the state the last session left. *)
Record session := { ses_reader : list read_event; ses_drains : list drain_result; ses_now : Q; ses_reads : nat }.
Fixpoint sessions (ss : list session) (st : IPCV2ConnectionState) : list IPCV2Envelope :=
  match ss with
  | [] => []
  | s :: ss' =>
      match new_connection (ses_reader s) (ses_drains s) (ses_now s) st with
      | Ok c => let '(es, c') := deliver (ses_reads s) c in es ++ sessions ss' (state c')
      | Err _ => sessions ss' st
      end
  end.

Lemma new_connection_state r ds now st c : new_connection r ds now st = Ok c → state c = st.
Proof. unfold new_connection. run_unfold. destruct (validate _); [|done]. by intros [= <-]. Qed.

(** Whatever bytes the peer or the network puts on any number of successive
    sockets, a consumer gets frames of strictly increasing numbers: no frame
    twice, none out of order. *)
Theorem delivered_once_in_order ss st :
  StronglySorted Z.lt (env_seq <$> sessions ss st) ∧
  Forall (λ e, received_seq st < env_seq e) (sessions ss st).
Proof.
  revert st. induction ss as [|s ss IH]; intros st; cbn [sessions]; [split; constructor|].
  destruct (new_connection _ _ _ st) as [c|] eqn:E; [|apply IH].
  apply new_connection_state in E. destruct (deliver_increasing (ses_reads s) c) as ([Hs Hf] & Hge & Hle).
  destruct (deliver _ c) as [es c']. cbn [fst snd] in *. destruct (IH (state c')) as [IHs IHf].
  rewrite E in *. rewrite fmap_app, StronglySorted_app, Forall_app. split_and!; try done.
  - intros x y (e & -> & He)%list_elem_of_fmap (e' & -> & He')%list_elem_of_fmap.
    rewrite Forall_forall in Hle, IHf. specialize (Hle e He). specialize (IHf e' He'). cbn in *. lia.
  - eapply Forall_impl; [exact IHf|]. cbn. lia.
Qed.
End traffic.
