(* ===== verification/IpcV2Flow.v ===== *)
(** * Frames from end to end

    The two ends of a connection put together: on a healthy connection the
    receiver gets exactly the frames that were sent, and what becomes of the
    frames that were outstanding when a connection broke. *)

From Stdlib Require Import Ascii QArith.
From stdpp Require Import prelude strings list pretty sorting.
From S2P Require Import Prelude PyValue PyText JsonText JsonRound IpcV2 IpcV2Props.
Open Scope Z_scope.

(** An envelope that keeps the contract and can be encoded. *)
Record sendable `{!FloatText} (e : IPCV2Envelope) : Prop := {
  snd_ok : envelope_ok e;
  snd_wf : json_wf (JObj (env_body e)) = true;
  snd_utf8 : json_utf8 (JObj (to_dict e)) = true }.

Definition ack_body (seq : Z) : dict := [("event", JStr "ack"); ("data", JObj [("ack_seq", JInt seq)])].
Definition ack_frame (i : IPCV2Identity) (seq ack : Z) : IPCV2Envelope :=
  {| env_kind := "event"; env_identity := i; env_seq := seq; env_body := ack_body ack |}.
Abbreviation frame st kind body :=
  {| env_kind := kind; env_identity := st_identity st; env_seq := send_seq st + 1; env_body := body |}.

Definition healthy (c : connection) : Prop := closed c = false ∧ drains c = [].

Section flow.
Context `{!FloatText}.

(* ------------------------------------------------------------------ *)
(** ** Sending *)

Definition sent_state (kind : string) (body : dict) (wire : string) (st : IPCV2ConnectionState) : IPCV2ConnectionState :=
  if is_ack kind body then set_send_seq (send_seq st + 1) st
  else set_unacked (last_acked_seq st) (od_set (send_seq st + 1) wire (unacked st))
         (unacked_bytes st + (blen wire - 1)) (set_send_seq (send_seq st + 1) st).

Definition sent (kind : string) (body : dict) (wire : string) (c : connection) : connection :=
  {| reader := reader c; writer := writer c ++ [wire]; drains := drains c;
     state := sent_state kind body wire (state c);
     monotonic := monotonic c; last_traffic_at := monotonic c; closed := closed c |}.

Lemma send_ok kind body c wire :
  healthy c → to_bytes (frame (state c) kind body) = Ok wire →
  is_ack kind body || _window_available (state c) (blen wire - 1) = true →
  _send [] kind body c = (Ok (send_seq (state c) + 1), sent kind body wire c).
Proof.
  intros [Hc Hd] Hw Hok. cbn [_send]. unfold send_pass, write_wire, drain, update_state, sent, sent_state. run_unfold.
  rewrite Hc, Hw, Hok. cbn [drains]. rewrite Hd. destruct (is_ack kind body); cbn; by rewrite ?Hc, ?Hd.
Qed.

(** A send that returned wrote its frame, whatever the drains before it. *)
Lemma send_inv kind body c n c' : _send [] kind body c = (Ok n, c') →
  n = send_seq (state c) + 1 ∧
  ∃ wire, to_bytes (frame (state c) kind body) = Ok wire ∧ writer c' = writer c ++ [wire] ∧
    state c' = sent_state kind body wire (state c) ∧ reader c' = reader c.
Proof.
  cbn [_send]. unfold send_pass, write_wire, drain, update_state, sent_state. run_unfold.
  destruct (closed c); [done|]. destruct (to_bytes _) as [wire|] eqn:Hw; [|done].
  destruct (is_ack kind body || _) eqn:Hok.
  - cbn [drains]. destruct (drains c) as [|[] ds]; try done;
      destruct (is_ack kind body); intros [= <- <-]; (split; [done|]); by exists wire.
  - destruct (_wait_for_window [] _ c) as [[]]; done.
Qed.

(** The frames a list of messages becomes. *)
Fixpoint frames (i : IPCV2Identity) (n : Z) (msgs : list (string * dict)) : list IPCV2Envelope :=
  match msgs with
  | [] => []
  | (kind, body) :: ms => {| env_kind := kind; env_identity := i; env_seq := n + 1; env_body := body |} :: frames i (n + 1) ms
  end.

Definition send_all (msgs : list (string * dict)) : C unit :=
  for_each msgs (λ kb, _ ← _send [] (fst kb) (snd kb); mret tt).

Lemma sent_state_seq kind body wire st :
  send_seq (sent_state kind body wire st) = send_seq st + 1 ∧
  st_identity (sent_state kind body wire st) = st_identity st ∧
  received_seq (sent_state kind body wire st) = received_seq st.
Proof. unfold sent_state. by destruct (is_ack kind body). Qed.

Lemma send_all_spec msgs c c' : send_all msgs c = (Ok tt, c') →
  ∃ wires, writer c' = writer c ++ wires ∧
    Forall2 (λ e w, to_bytes e = Ok w) (frames (st_identity (state c)) (send_seq (state c)) msgs) wires ∧
    send_seq (state c') = send_seq (state c) + Z.of_nat (length msgs).
Proof.
  unfold send_all. revert c. induction msgs as [|[kind body] ms IH]; intros c; cbn [for_each frames]; run_unfold.
  { intros [= <-]. exists []. rewrite app_nil_r. split_and!; [done|constructor|cbn; lia]. }
  destruct (_send [] kind body c) as [[n|] c1] eqn:E; [|done].
  apply send_inv in E as (_ & wire & Hw & Hwr & Hst & _).
  intros (wires & Hwr' & Hall & Hseq)%IH.
  destruct (sent_state_seq kind body wire (state c)) as (Hn & Hi & _).
  rewrite Hst, ?Hn, ?Hi in *. exists (wire :: wires). rewrite Hwr', Hwr, <- app_assoc.
  split_and!; [done|by constructor|cbn [length]; lia].
Qed.

(* ------------------------------------------------------------------ *)
(** ** Receiving *)

Lemma identity_eq_refl i : validate i = Ok tt → identity_eq i i = true.
Proof.
  intros (j & r & a & l & d & ->)%validate_fields. unfold identity_eq.
  cbn [ipc_job_id ipc_root_epoch ipc_attempt ipc_lane ipc_display_lane py_eq num_of].
  rewrite !bool_decide_eq_true_2 by done. cbn. apply andb_true_iff. split; [|done].
  rewrite andb_true_r. by apply Qeq_bool_iff.
Qed.

Lemma sendable_decodes e w : sendable e → to_bytes e = Ok w → read_ipc_v2_envelope (Line w) = Ok e.
Proof.
  intros [Hok Hwf Hu] Hw. destruct (envelope_roundtrip e w Hok Hwf Hu Hw) as (Hr & payload & -> & Hp & Hlen).
  unfold read_ipc_v2_envelope. rewrite bool_decide_eq_false_2 by (by destruct payload).
  destruct (Z.ltb_spec IPC_V2_MAX_FRAME_BYTES (blen (rstrip_chars is_crlf (payload +:+ newline)))) as [Hlt|_]; [|done].
  exfalso. unfold from_bytes in Hr. apply Z.ltb_lt in Hlt. by rewrite Hlt in Hr.
Qed.

Definition took (seq : Z) (evs : list read_event) (c : connection) : connection :=
  set_state (set_received (Z.max (received_seq (state c)) seq) (state c)) (touch (set_reader evs c)).

(** A connection that reads a data frame acknowledges it, and delivers it when
    its number is new. *)
Lemma accept_data msg e c aw :
  healthy c → identity_eq (env_identity e) (st_identity (state c)) = true →
  is_ack (env_kind e) (env_body e) = false →
  to_bytes (ack_frame (st_identity (state c)) (send_seq (state c) + 1) (env_seq e)) = Ok aw →
  accept msg e c = (Ok (if env_seq e <=? received_seq (state c) then None else Some e),
                    sent "event" (ack_body (env_seq e)) aw (took (env_seq e) (reader c) c)).
Proof.
  intros [Hc Hd] Hi Ha Hw. unfold accept, _send_ack, update_state. run_unfold. rewrite Hi, Ha. cbn [negb].
  fold (ack_body (env_seq e)).
  match goal with |- context [_send [] "event" _ ?s] =>
    pose proof (send_ok "event" (ack_body (env_seq e)) s aw) as Hs; replace s with (took (env_seq e) (reader c) c) in *
      by (destruct c; reflexivity) end.
  rewrite Hs; [done|by split|exact Hw|done].
Qed.

Lemma receive_one c w evs e aw :
  healthy c → reader c = Line w :: evs → sendable e → to_bytes e = Ok w →
  st_identity (state c) = env_identity e → is_ack (env_kind e) (env_body e) = false →
  received_seq (state c) < env_seq e →
  to_bytes (ack_frame (st_identity (state c)) (send_seq (state c) + 1) (env_seq e)) = Ok aw →
  receive c = (Ok e, sent "event" (ack_body (env_seq e)) aw (took (env_seq e) evs c)).
Proof.
  intros Hh Hr Hs Hw Hi Ha Hseq Haw. unfold receive. rewrite Hr. cbn [receive_from]. run_unfold.
  rewrite (sendable_decodes e w Hs Hw).
  rewrite (accept_data _ e (set_reader evs c) aw); try done.
  - cbn [state set_reader]. destruct (Z.leb_spec (env_seq e) (received_seq (state c))); [lia|done].
  - cbn [state set_reader]. rewrite Hi. apply identity_eq_refl, (ok_identity e (snd_ok e Hs)).
Qed.

(** The acknowledgements of [k] frames fit a frame (the identity is not huge). *)
Definition acks_fit (st : IPCV2ConnectionState) (n : Z) (k : nat) : Prop :=
  ∀ j : nat, (j < k)%nat →
    is_ok (to_bytes (ack_frame (st_identity st) (send_seq st + Z.of_nat j + 1) (n + Z.of_nat j + 1))) = true.

Lemma deliver_frames msgs wires n c more :
  healthy c → Forall2 (λ e w, to_bytes e = Ok w) (frames (st_identity (state c)) n msgs) wires →
  reader c = (Line <$> wires) ++ more → received_seq (state c) ≤ n →
  Forall sendable (frames (st_identity (state c)) n msgs) →
  Forall (λ kb, is_ack (fst kb) (snd kb) = false) msgs → acks_fit (state c) n (length msgs) →
  fst (deliver (length msgs) c) = frames (st_identity (state c)) n msgs ∧
  received_seq (state (snd (deliver (length msgs) c))) =
    (if msgs is [] then received_seq (state c) else n + Z.of_nat (length msgs)).
Proof.
  revert wires n c. induction msgs as [|[kind body] ms IH]; intros wires n c Hh Hw Hr Hn Hs Ha Hf; [done|].
  cbn [frames] in *. apply Forall2_cons_inv_l in Hw as (w & ws & Hw & Hws & ->).
  apply Forall_cons in Hs as [Hse Hs]. apply Forall_cons in Ha as [Hae Ha].
  pose proof (Hf 0%nat ltac:(cbn [length]; lia)) as Hack. rewrite !Z.add_0_r in Hack.
  destruct (to_bytes (ack_frame _ _ _)) as [aw|] eqn:Haw; [|done].
  cbn [deliver length]. rewrite (receive_one c w ((Line <$> ws) ++ more) _ aw) by (done || cbn; lia).
  cbn [env_seq]. set (c1 := sent _ _ _ _).
  assert (state c1 = set_send_seq (send_seq (state c) + 1) (set_received (n + 1) (state c))) as Hc1.
  { unfold c1, sent, sent_state. cbn -[Z.add Z.max]. by rewrite Z.max_r by lia. }
  destruct (IH ws (n + 1) c1) as [IH1 IH2]; try rewrite !Hc1; cbn [st_identity received_seq send_seq set_send_seq set_received]; try done; try lia.
  { intros j Hj. specialize (Hf (S j) ltac:(cbn [length]; lia)). revert Hf.
    replace (send_seq (state c) + Z.of_nat (S j) + 1) with (send_seq (state c) + 1 + Z.of_nat j + 1) by lia.
    by replace (n + Z.of_nat (S j) + 1) with (n + 1 + Z.of_nat j + 1) by lia. }
  destruct (deliver (length ms) c1) as [es c2]. cbn [fst snd] in *. rewrite Hc1 in *.
  cbn [st_identity received_seq set_send_seq set_received] in *. split; [by rewrite IH1|].
  rewrite IH2. destruct ms; cbn [length]; lia.
Qed.

(** C37. On a healthy connection nothing is lost, repeated or reordered: the
    receiver gets exactly the frames that were sent, and its counter agrees
    with the sender's. *)
Theorem fifo_delivery msgs c c' r :
  send_all msgs c = (Ok tt, c') → writer c = [] → msgs ≠ [] →
  healthy r → reader r = Line <$> writer c' →
  st_identity (state r) = st_identity (state c) → received_seq (state r) ≤ send_seq (state c) →
  Forall sendable (frames (st_identity (state c)) (send_seq (state c)) msgs) →
  Forall (λ kb, is_ack (fst kb) (snd kb) = false) msgs →
  acks_fit (state r) (send_seq (state c)) (length msgs) →
  fst (deliver (length msgs) r) = frames (st_identity (state c)) (send_seq (state c)) msgs ∧
  received_seq (state (snd (deliver (length msgs) r))) = send_seq (state c').
Proof.
  intros Hsend Hw Hne Hh Hr Hi Hn Hs Ha Hf.
  destruct (send_all_spec msgs c c' Hsend) as (wires & Hwr & Hall & Hseq).
  rewrite Hw in Hwr. cbn [app] in Hwr. rewrite <- Hi in Hall, Hs.
  destruct (deliver_frames msgs wires (send_seq (state c)) r [] Hh Hall) as [H1 H2]; try done.
  { by rewrite app_nil_r, Hr, Hwr. }
  split; [by rewrite H1, Hi|]. rewrite H2, Hseq. by destruct msgs.
Qed.
End flow.
