(* ===== verification/IpcV2Reconnect.v ===== *)
(** * Outstanding frames across a reconnect

    The sequence state of both ends survives a broken connection and the root
    replays its outstanding frames in the handshake.  The theorems say what
    the code makes of that: the handshake's own frames carry higher numbers
    and come first, so the other end takes the replayed frames for duplicates;
    the acknowledgement of the hello releases every outstanding frame of the
    runner; and a frame whose write timed out leaves its number to the next. *)

From Stdlib Require Import Ascii QArith.
From stdpp Require Import prelude strings list pretty sorting.
From S2P Require Import Prelude PyValue PyText JsonText JsonRound IpcV2 IpcV2Props IpcV2Flow.
Open Scope Z_scope.

Section reconnect.
Context `{!FloatText}.

Definition grows (c c' : connection) : Prop := writer c `prefix_of` writer c'.
#[global] Instance grows_preorder : PreOrder grows.
Proof. unfold grows. split; [intros c; reflexivity | intros c1 c2 c3; apply transitivity]. Qed.

Lemma grows_same c c' : writer c' = writer c → grows c c'.
Proof. unfold grows. by intros ->. Qed.

Lemma within_grows_send_pass kind body : within grows (send_pass kind body).
Proof.
  intros c. unfold send_pass, write_wire, drain, update_state. run_unfold.
  destruct (closed c); [by apply grows_same|]. destruct (to_bytes _); [|by apply grows_same].
  destruct (is_ack kind body || _); [|by apply grows_same].
  cbn [drains]. destruct (drains c) as [|[] ds]; try destruct (is_ack kind body); eexists; reflexivity.
Qed.
Lemma within_grows_ack ack : within grows (_apply_ack ack).
Proof.
  intros c. unfold _apply_ack, update_state. run_unfold.
  destruct (negb _); [by apply grows_same|]. cbn iota. destruct (_ <? _); [by apply grows_same|].
  cbn iota. destruct (pop_acked _ _ _). by apply grows_same.
Qed.
#[local] Hint Resolve within_grows_send_pass within_grows_ack : within.
Lemma within_grows_send waits kind body : within grows (_send waits kind body).
Proof.
  induction waits as [|acks ws IH]; cbn [_send]; unfold _wait_for_window; within_tac.
Qed.
#[local] Hint Resolve within_grows_send : within.

(* ------------------------------------------------------------------ *)
(** ** Accepting a frame *)

Lemma accept_inv msg e c e' c' : accept msg e c = (Ok (Some e'), c') →
  e' = e ∧ is_ack (env_kind e) (env_body e) = false ∧
  _send [] "event" (ack_body (env_seq e)) (took (env_seq e) (reader c) c) = (Ok (send_seq (state c) + 1), c').
Proof.
  unfold accept, _send_ack, update_state. run_unfold. destruct (negb (identity_eq _ _)); [done|].
  destruct (is_ack _ _) eqn:Ha.
  { destruct (ack_seq_of _) as [a|]; [|done].
    match goal with |- context [_apply_ack a ?s] => by destruct (_apply_ack a s) as [[]] end. }
  fold (ack_body (env_seq e)).
  match goal with |- context [_send [] "event" _ ?s] =>
    replace s with (took (env_seq e) (reader c) c) by (destruct c; reflexivity) end.
  destruct (_send [] "event" _ _) as [[n|] c1] eqn:E; [|done].
  apply send_inv in E as Hn. destruct Hn as [-> _].
  destruct (_ <=? _); intros [= <- <-]. done.
Qed.

(** ... so the acknowledgement is the next frame written. *)
Lemma accept_writes msg e c e' c' : accept msg e c = (Ok (Some e'), c') →
  ∃ aw, to_bytes (ack_frame (st_identity (state c)) (send_seq (state c) + 1) (env_seq e)) = Ok aw ∧
    writer c' = writer c ++ [aw] ∧
    state c' = set_send_seq (send_seq (state c) + 1)
                 (set_received (Z.max (received_seq (state c)) (env_seq e)) (state c)).
Proof.
  intros (_ & _ & (_ & aw & Hw & Hwr & Hst & _)%send_inv)%accept_inv. by exists aw.
Qed.

Definition identity_utf8 (i : IPCV2Identity) : bool :=
  json_utf8 (ipc_job_id i) && json_utf8 (ipc_root_epoch i) && json_utf8 (ipc_attempt i) &&
  json_utf8 (ipc_lane i) && json_utf8 (ipc_display_lane i).

Lemma ack_sendable i seq ack :
  validate i = Ok tt → identity_utf8 i = true → 1 ≤ seq → sendable (ack_frame i seq ack).
Proof.
  intros Hv Hu Hs. unfold identity_utf8 in Hu. breflect. split.
  - split; try done.
    intros k v Hin. cbn [ack_frame env_body env_kind ack_body] in *. apply (list_elem_of_fmap_2 fst) in Hin. exact Hin.
  - done.
  - change (to_dict (ack_frame i seq ack)) with (wire_base (ack_frame i seq ack) ++ ack_body ack).
    cbn [json_utf8 app forallb fst snd ack_frame env_identity env_kind env_seq]. 
    repeat match goal with H : json_utf8 _ = true |- _ => rewrite H end. done.
Qed.

(** A frame read after an acknowledgement has a higher number. *)
Lemma deliver_past_ack n c w evs e :
  reader c = Line w :: evs → read_ipc_v2_envelope (Line w) = Ok e → is_ack (env_kind e) (env_body e) = true →
  Forall (λ e', env_seq e < env_seq e') (fst (deliver n c)).
Proof.
  intros Hr He Ha. destruct n as [|n]; [constructor|]. cbn [deliver].
  destruct (receive c) as [[e'|x] c'] eqn:E; [|constructor].
  assert (env_seq e < env_seq e' ≤ received_seq (state c')) as [Hlt Hle].
  { unfold receive in E. rewrite Hr in E. cbn [receive_from] in E. run_unfold. rewrite He in E.
    destruct (accept _ e _) as [[[e1|]|] c1] eqn:Eacc; [| |done].
    { apply accept_inv in Eacc as (_ & Hna & _). congruence. }
    assert (env_seq e ≤ received_seq (state c1)) as Hge.
    { unfold accept, update_state in Eacc. run_unfold. destruct (negb _); [done|]. rewrite Ha in Eacc.
      destruct (ack_seq_of _) as [a|]; [|done].
      match type of Eacc with context [_apply_ack a ?s] =>
        pose proof (within_apply_ack a s) as Hw; destruct (_apply_ack a s) as [[]] end; [|done].
      injection Eacc as <-. apply ev_received in Hw. cbn in Hw. lia. }
    apply receive_from_fresh in E. lia. }
  destruct (deliver_increasing n c') as ([_ Hf] & _). destruct (deliver n c') as [es c''].
  cbn [fst] in *. constructor; [done|]. eapply Forall_impl; [exact Hf|]. cbn. lia.
Qed.

(* ------------------------------------------------------------------ *)
(** ** The root's replay *)

(** [hello.last_received_seq]. *)
Definition hello_received (e : IPCV2Envelope) : Z :=
  match dget "data" (env_body e) with
  | Some (JObj d) => from_option id 0 (int_of (dget_default "last_received_seq" (JInt 0) d))
  | _ => 0
  end.

Definition replay_one (received : Z) (through_seq : option Z) (sw : Z * string) : C unit :=
  if fst sw <=? received then mret tt
  else if match through_seq with Some t => t <? fst sw | None => false end then mret tt
  else
    _ ← write_wire (snd sw);
    d ← drain;
    match d with
    | Drained => mret tt
    | DrainTimeout => raise (TimeoutError "")
    | DrainLost => raise (ConnectionError "")
    end.

Lemma within_grows_replay_one lr t sw : within grows (replay_one lr t sw).
Proof.
  intros c. unfold replay_one, write_wire, drain. run_unfold.
  destruct (_ <=? _); [by apply grows_same|]. destruct (match t with Some _ => _ | None => _ end); [by apply grows_same|].
  cbn [drains]. destruct (drains c) as [|[] ds]; eexists; reflexivity.
Qed.

Lemma replay_grows lr t u c c' : for_each u (replay_one lr t) c = (Ok tt, c') → grows c c'.
Proof.
  intros Hrun. pose proof (within_for_each (R := grows) u (replay_one lr t) (λ a _, within_grows_replay_one lr t a) c) as Hg.
  by rewrite Hrun in Hg.
Qed.

Lemma replay_writes lr t u c c' :
  for_each u (replay_one lr (Some t)) c = (Ok tt, c') →
  ∀ sw, sw ∈ u → lr < fst sw → fst sw ≤ t → snd sw ∈ writer c'.
Proof.
  revert c. induction u as [|sw0 u IH]; intros c Hrun sw Hin Hlr Ht; [by apply not_elem_of_nil in Hin|].
  cbn [for_each] in Hrun. unfold mbind, M_bind in Hrun.
  destruct (replay_one lr (Some t) sw0 c) as [[[]|] c1] eqn:E; [|done].
  apply elem_of_cons in Hin as [->|Hin]; [|by eapply IH].
  assert (snd sw0 ∈ writer c1) as Hw.
  { unfold replay_one, write_wire, drain in E. run_unfold.
    destruct (Z.leb_spec (fst sw0) lr); [lia|]. destruct (Z.ltb_spec t (fst sw0)); [lia|].
    cbn [drains] in E. destruct (drains c) as [|[] ds]; simplify_eq; apply elem_of_app; right; left. }
  apply replay_grows in Hrun as [l ->]. apply elem_of_app. by left.
Qed.

(** The stages of an accepted handshake. *)
Lemma handle_first_inv job first c caps c' : handle_first job first c = (Ok caps, c') →
  ∃ c1 c2 c3 n, accept_first first c = (Ok (Some first), c1) ∧
    send_event [] "hello_ack" (hello_ack_data (state c1)) c1 = (Ok n, c2) ∧
    for_each (unacked (state c2)) (replay_one (hello_received first) (Some (send_seq (state c1)))) c2 = (Ok tt, c3) ∧
    grows c3 c'.
Proof.
  unfold handle_first. run_unfold.
  destruct (accept_first first c) as [[acc|] c1] eqn:Ea; [|done].
  destruct acc as [e|]; [|done]. apply accept_inv in Ea as Hi. destruct Hi as (-> & _ & _).
  unfold hello_frame, hello_received. destruct (is_event "hello" first); [|done].
  destruct (dget "data" (env_body first)) as [[| | | | | |d]|]; try done.
  destruct (hello_capabilities d) as [caps'|]; [|done]. destruct (negb _); [done|].
  destruct (send_event _ _ _ c1) as [[n|] c2] eqn:Es; [|done].
  unfold replay_after. run_unfold. fold (replay_one (from_option id 0 (int_of (dget_default "last_received_seq" (JInt 0) d))) (Some (send_seq (state c1)))).
  destruct (for_each _ _ c2) as [[[]|] c3] eqn:Er; [|done].
  intros Hrest. exists c1, c2, c3, n. split_and!; try done.
  pose proof (within_grows_send [] "request" [("request_id", JStr (job_request_id job)); ("method", JStr "run");
    ("params", JObj (job_params job))] (touch c3)) as Hg.
  unfold send_request in Hrest. destruct (_send [] "request" _ (touch c3)) as [[m|] c4] eqn:Em; [|done].
  cbn [snd state_of] in Hg. change (grows (touch c3) c4) with (grows c3 c4) in Hg. etrans; [exact Hg|].
  destruct (job_interrupt job) as [th|]; [|injection Hrest as _ <-; reflexivity].
  unfold send_event in Hrest.
  pose proof (within_grows_send [] "event" [("event", JStr "interrupt"); ("data", JObj [("thread_id", JStr th)])] c4) as Hg2.
  destruct (_send [] "event" _ c4) as [[k|] c5]; [|done]. by injection Hrest as _ <-.
Qed.

(** Every outstanding frame beyond what the runner reported is written again
    in the handshake, and none of the outstanding frames is delivered to the
    runner that reads what was written: the acknowledgement of the hello and
    the hello_ack come first and carry higher numbers, so the replayed frames
    count as duplicates. *)
Theorem replay_is_dropped job first c caps c' n runner :
  handle_first job first c = (Ok caps, c') → writer c = [] → state_inv (state c) →
  validate (st_identity (state c)) = Ok tt → identity_utf8 (st_identity (state c)) = true →
  reader runner = Line <$> writer c' →
  (∀ seq wire, (seq, wire) ∈ unacked (state c) → hello_received first < seq → wire ∈ writer c') ∧
  (∀ e, e ∈ fst (deliver n runner) → env_seq e ∉ fst <$> unacked (state c)).
Proof.
  intros Hrun Hw Hinv Hv Hu Hr.
  destruct (handle_first_inv job first c caps c' Hrun) as (c1 & c2 & c3 & k & Ha & Hs & Hrep & Hg).
  pose proof (within_accept "job identity does not match registry" first c) as Hev.
  unfold accept_first in Ha. rewrite Ha in Hev. apply accept_writes in Ha as (aw & Haw & Hwr & Hst).
  pose proof (ev_inv _ _ Hev Hinv) as Hinv1. cbn [snd state_of] in Hinv1.
  apply send_inv in Hs as (_ & hw & _ & Hwr2 & Hst2 & _).
  pose proof (inv_range _ Hinv) as Hrange. rewrite Forall_forall in Hrange.
  split.
  - intros seq wire Hin Hlt. destruct Hg as [l Hl]. rewrite Hl. apply elem_of_app. left.
    apply (replay_writes _ _ _ _ _ Hrep (seq, wire)); cbn [fst]; [|done|].
    + rewrite Hst2. unfold sent_state. change (is_ack "event" _) with false. cbn iota. cbn [unacked set_unacked].
      rewrite od_set_fresh; [apply elem_of_app; left; by rewrite Hst|].
      eapply Forall_impl; [exact (inv_range _ Hinv1)|]. cbn. lia.
    + rewrite Hst. cbn [send_seq set_send_seq]. specialize (Hrange _ Hin). cbn in Hrange. lia.
  - intros e He. assert (writer c' = aw :: tail (writer c')) as Hhd.
    { apply replay_grows in Hrep as [l2 Hl2]. destruct Hg as [l ->]. by rewrite Hl2, Hwr2, Hwr, Hw. }
    pose proof (inv_acked _ Hinv) as Hacked.
    assert (sendable (ack_frame (st_identity (state c)) (send_seq (state c) + 1) (env_seq first))) as Hsend
      by (apply ack_sendable; (done || lia)).
    pose proof (deliver_past_ack n runner aw (Line <$> tail (writer c')) _
      ltac:(rewrite Hr, Hhd; reflexivity) (sendable_decodes _ _ Hsend Haw) eq_refl) as Hd.
    rewrite Forall_forall in Hd. specialize (Hd e He). cbn [env_seq ack_frame] in Hd.
    intros (sw & Heq & Hsw)%list_elem_of_fmap. specialize (Hrange sw Hsw). cbn in *. lia.
Qed.

(* ------------------------------------------------------------------ *)
(** ** The runner's outstanding frames *)

Lemma pop_all ack u bytes : Forall (λ sw, fst sw ≤ ack) u → fst (pop_acked ack u bytes) = [].
Proof.
  intros Hu. revert bytes. induction Hu as [|[s w] u Hs _ IH]; intros bytes; [done|]. cbn [pop_acked fst] in *.
  destruct (Z.ltb_spec ack s); [lia|apply IH].
Qed.

(** The root acknowledges the hello of a reconnecting runner by its number,
    which is above that of every frame the runner still holds: the runner
    releases them all, although the root got none of them. *)
Theorem hello_releases_lost_frames c n c1 r msg e r1 msg' e' res c2 :
  state_inv (state c) → send_event [] "hello" (hello_data (state c)) c = (Ok n, c1) →
  env_seq e = n → accept msg e r = (Ok (Some e), r1) →
  read_ipc_v2_envelope (Line (List.last (writer r1) "")) = Ok e' →
  validate (st_identity (state r)) = Ok tt → identity_utf8 (st_identity (state r)) = true → 0 ≤ send_seq (state r) →
  accept msg' e' c1 = (Ok res, c2) →
  unacked (state c2) = [] ∧ last_acked_seq (state c2) = n.
Proof.
  intros Hinv Hsend Hn Hacc Hread Hv Hu Hseq Hack.
  apply accept_writes in Hacc as (aw & Haw & Hwr & _).
  rewrite Hwr, last_last in Hread.
  assert (sendable (ack_frame (st_identity (state r)) (send_seq (state r) + 1) (env_seq e))) as Hs
    by (apply ack_sendable; (done || lia)).
  rewrite (sendable_decodes _ _ Hs Haw) in Hread. injection Hread as <-.
  pose proof (within_send [] "event" [("event", JStr "hello"); ("data", JObj (hello_data (state c)))] c) as Hev.
  unfold send_event in Hsend. rewrite Hsend in Hev. pose proof (ev_inv _ _ Hev Hinv) as Hinv1. cbn [snd state_of] in Hinv1.
  apply send_inv in Hsend as (Hn' & hw & _ & _ & Hst & _).
  destruct (sent_state_seq "event" [("event", JStr "hello"); ("data", JObj (hello_data (state c)))] hw (state c)) as (Hss & _ & _).
  rewrite <- Hst in Hss. clear Hst.
  unfold accept, _apply_ack, update_state in Hack. run_unfold. destruct (negb (identity_eq _ _)); [done|].
  cbn [ack_frame env_kind env_body] in Hack.
  change (is_ack "event" (ack_body (env_seq e))) with true in Hack.
  change (ack_seq_of (ack_body (env_seq e))) with (Ok (JInt (env_seq e))) in Hack. cbn iota in Hack.
  destruct (int_at_least 0 (JInt (env_seq e))) eqn:Hge; [|done]. cbn [negb] in Hack.
  destruct (_ <? _); [done|]. cbn iota in Hack.
  set (p := pop_acked _ _ _) in Hack.
  assert (fst p = []) as Hp.
  { apply pop_all. eapply Forall_impl; [exact (inv_range _ Hinv1)|]. cbn. lia. }
  destruct p as [u b]. cbn [fst] in Hp. subst u. injection Hack as _ <-. split; [done|].
  cbn -[Z.max]. pose proof (inv_acked _ Hinv1) as Hl. cbn in Hl. lia.
Qed.

(* ------------------------------------------------------------------ *)
(** ** A write that timed out *)

(** A failed drain leaves the sequence state as it was although the frame is
    on the wire.  The next frame, the hello of the reconnect, gets the same
    number, and a root that did receive the first one refuses the handshake. *)
Theorem failed_drain_blocks_reconnect kind body c d ds wire job e p :
  closed c = false → drains c = d :: ds → d ≠ Drained →
  to_bytes (frame (state c) kind body) = Ok wire →
  is_ack kind body || _window_available (state c) (blen wire - 1) = true →
  send_seq (state c) + 1 ≤ received_seq (state p) →
  env_seq e = send_seq (state (state_of (_send [] kind body c))) + 1 →
  is_ok (val_of (_send [] kind body c)) = false ∧
  writer (state_of (_send [] kind body c)) = writer c ++ [wire] ∧
  state (state_of (_send [] kind body c)) = state c ∧
  is_ok (val_of (handle_first job e p)) = false.
Proof.
  intros Hc Hd Hne Hw Hok Hp.
  assert (is_ok (val_of (_send [] kind body c)) = false ∧
    writer (state_of (_send [] kind body c)) = writer c ++ [wire] ∧
    state (state_of (_send [] kind body c)) = state c) as (H1 & H2 & H3).
  { cbn [_send]. unfold send_pass, write_wire, drain, update_state. run_unfold. rewrite Hc, Hw, Hok.
    cbn [drains]. rewrite Hd. by destruct d. }
  rewrite H3. intros He. split_and!; [done..|].
  unfold handle_first, accept_first. run_unfold.
  destruct (accept _ e p) as [[[e'|]|] p1] eqn:E; [|done..].
  apply accept_delivers in E as [_ E]. lia.
Qed.
End reconnect.
