(* ===== verification/IpcWitnesses.v ===== *)
(** * Witnesses for the connection protocol

    Concrete frames, connections and handshakes at which the theorems of
    [IpcV2Props], [IpcV2Flow] and [IpcV2Reconnect] apply. *)

From Stdlib Require Import Ascii QArith.
From stdpp Require Import prelude strings list pretty sorting.
From S2P Require Import Prelude PyValue PyText JsonText JsonRound IpcV2 IpcV2Props IpcV2Flow IpcV2Reconnect.
Open Scope Z_scope.

#[local] Instance Q_eq_dec : EqDecision Q.
Proof. solve_decision. Defined.

(** A [FloatText] with two floats. *)
Definition float_table : list (Q * string) := [(0%Q, "0.0"); ((3 # 2)%Q, "1.5")].
Definition table_repr (q : Q) : string :=
  from_option snd "" (list_find (λ qs, fst qs = q) float_table ≫= λ x, Some (snd x)).
Definition table_of (s : string) : Q :=
  from_option fst 0%Q (list_find (λ qs, snd qs = s) float_table ≫= λ x, Some (snd x)).
Lemma table_lexes q : bool_decide (q ∈ fst <$> float_table) = true →
  ∃ sg i fe, lex_number (table_repr q) = Some (sg, i, fe, "") ∧ fe ≠ "" ∧ sg +:+ i +:+ fe = table_repr q.
Proof.
  intros Hq%bool_decide_eq_true. cbn in Hq. rewrite !elem_of_cons, elem_of_nil in Hq.
  destruct Hq as [->|[->|[]]]; [exists "", "0", ".0"|exists "", "1", ".5"]; done.
Qed.
Lemma table_round q : bool_decide (q ∈ fst <$> float_table) = true → table_of (table_repr q) = q.
Proof.
  intros Hq%bool_decide_eq_true. cbn in Hq. rewrite !elem_of_cons, elem_of_nil in Hq.
  by destruct Hq as [->|[->|[]]].
Qed.
#[export] Instance table_text : FloatText :=
  {| float_repr := table_repr; float_of := table_of;
     float_finite := λ q, bool_decide (q ∈ fst <$> float_table);
     float_lexes := table_lexes; float_round := table_round |}.

Definition ident : IPCV2Identity :=
  {| ipc_job_id := JStr "job-7f2"; ipc_root_epoch := JStr "550e8400-e29b-41d4-a716-446655440000";
     ipc_attempt := JInt 1; ipc_lane := JStr "task"; ipc_display_lane := JStr "background" |}.
Definition progress_body : dict :=
  [("event", JStr "progress"); ("data", JObj [("pid", JInt 4711); ("progress_at", JFloat (3 # 2)%Q);
     ("note", JStr (String QUOTE newline))])].
Definition progress_frame (seq : Z) : IPCV2Envelope :=
  {| env_kind := "event"; env_identity := ident; env_seq := seq; env_body := progress_body |}.
Definition wire_of (e : IPCV2Envelope) : string := match to_bytes e with Ok w => w | Err _ => "" end.

Lemma event_sendable seq name data :
  1 ≤ seq → name ≠ "" → utf8_valid name = true → json_wf (JObj data) = true → json_utf8 (JObj data) = true →
  sendable {| env_kind := "event"; env_identity := ident; env_seq := seq;
              env_body := [("event", JStr name); ("data", JObj data)] |}.
Proof.
  intros Hs Hn Hu Hw Hd. split.
  - split; [done|done|done| |].
    + unfold _validate_body. cbn [env_kind env_body]. rewrite !bool_decide_eq_false_2 by done.
      change (dget_none "event" _) with (JStr name). cbn [nonempty_str]. unfold str_truthy.
      by rewrite bool_decide_eq_false_2.
    + intros k v Hin. apply (list_elem_of_fmap_2 fst) in Hin. exact Hin.
  - apply andb_true_iff. split; [done|].
    change (true && (json_wf (JObj data) && true) = true). by rewrite Hw.
  - change (utf8_valid name && (json_utf8 (JObj data) && true) = true). by rewrite Hu, Hd.
Qed.

Lemma envelope_roundtrip_witness :
  from_bytes (wire_of (progress_frame 7)) = Ok (progress_frame 7).
Proof.
  destruct (event_sendable 7 "progress" [("pid", JInt 4711); ("progress_at", JFloat (3 # 2)%Q);
     ("note", JStr (String QUOTE newline))]) as [Hok Hw Hu]; [done..|].
  apply (envelope_roundtrip (progress_frame 7) (wire_of (progress_frame 7))); [exact Hok|exact Hw|exact Hu|].
  vm_compute. reflexivity.
Defined.

Lemma run_eq {S A} (m : M S A) s a : val_of (m s) = Ok a → m s = (Ok a, state_of (m s)).
Proof. destruct (m s). cbn. by intros ->. Qed.

Definition conn_over (st : IPCV2ConnectionState) (r : list read_event) (ds : list drain_result) : connection :=
  {| reader := r; writer := []; drains := ds; state := st; monotonic := 100; last_traffic_at := 100; closed := false |}.

Lemma connection_invariant_witness :
  let c := foldl run_op (conn_over (fresh_state ident) [] [])
             [OpSend [] "event" progress_body; OpDial []; OpReconnect [] [] 7%Q; OpAccept (ack_frame ident 1 1)] in
  state_inv (state c) ∧ fst <$> unacked (state c) = [2].
Proof.
  split; [|vm_compute; reflexivity].
  exact (proj1 (connection_invariant (conn_over (fresh_state ident) [] [])
    [OpSend [] "event" progress_body; OpDial []; OpReconnect [] [] 7%Q; OpAccept (ack_frame ident 1 1)] ident eq_refl)).
Defined.

Definition two_messages : list (string * dict) := [("event", progress_body); ("event", progress_body)].
Definition sender_done : connection := state_of (send_all two_messages (conn_over (fresh_state ident) [] [])).

Lemma fifo_delivery_witness :
  fst (deliver 2 (conn_over (fresh_state ident) (Line <$> writer sender_done) [])) =
    [progress_frame 1; progress_frame 2].
Proof.
  apply (fifo_delivery two_messages (conn_over (fresh_state ident) [] []) sender_done
           (conn_over (fresh_state ident) (Line <$> writer sender_done) []));
    [apply run_eq; vm_compute; reflexivity|reflexivity|done|done|reflexivity|reflexivity|done|..].
  - apply Forall_cons; split; [|apply Forall_singleton]; apply event_sendable; done.
  - repeat constructor.
  - intros [|[|j]] Hj; [vm_compute; reflexivity..|cbn in Hj; lia].
Defined.

(** A root whose frame 4 (an injected message) was lost with the connection. *)
Definition inject_frame : IPCV2Envelope :=
  {| env_kind := "event"; env_identity := ident; env_seq := 4;
     env_body := [("event", JStr "inject_message"); ("data", JObj [("text", JStr "stop")])] |}.
Definition root_state : IPCV2ConnectionState :=
  {| st_identity := ident; send_seq := 4; received_seq := 3; last_acked_seq := 3;
     unacked := [(4, wire_of inject_frame)]; unacked_bytes := blen (wire_of inject_frame) - 1 |}.
Definition runner_state : IPCV2ConnectionState :=
  {| st_identity := ident; send_seq := 3; received_seq := 3; last_acked_seq := 2;
     unacked := [(3, wire_of (progress_frame 3))]; unacked_bytes := blen (wire_of (progress_frame 3)) - 1 |}.
Definition hello : IPCV2Envelope :=
  {| env_kind := "event"; env_identity := ident; env_seq := 4;
     env_body := [("event", JStr "hello"); ("data", JObj (hello_data runner_state))] |}.
Definition job : root_job := {| job_request_id := "req-91"; job_params := []; job_interrupt := None |}.
Definition root_after : connection := state_of (handle_first job hello (conn_over root_state [] [])).

Definition runner_hello : connection :=
  state_of (send_event [] "hello" (hello_data runner_state) (conn_over runner_state [] [])).

Lemma root_state_inv : state_inv root_state.
Proof.
  split; [vm_compute; done|vm_compute; done|apply StronglySorted_cons; split; constructor
         |apply Forall_singleton; vm_compute; done|vm_compute; done|vm_compute; done|].
  apply Forall_singleton. exists "event", (env_body inject_frame). vm_compute. reflexivity.
Qed.
Lemma runner_state_inv : state_inv runner_state.
Proof.
  split; [vm_compute; done|vm_compute; done|apply StronglySorted_cons; split; constructor
         |apply Forall_singleton; vm_compute; done|vm_compute; done|vm_compute; done|].
  apply Forall_singleton. exists "event", progress_body. vm_compute. reflexivity.
Qed.

Lemma replay_is_dropped_witness :
  wire_of inject_frame ∈ writer root_after ∧
  env_seq <$> fst (deliver 10 (conn_over (state runner_hello) (Line <$> writer root_after) [])) = [6; 7] ∧
  ∀ e, e ∈ fst (deliver 10 (conn_over (state runner_hello) (Line <$> writer root_after) [])) → env_seq e ∉ [4].
Proof.
  destruct (replay_is_dropped job hello (conn_over root_state [] []) (true, false) root_after 10
    (conn_over (state runner_hello) (Line <$> writer root_after) [])) as [H1 H2];
    [unfold root_after; apply run_eq; vm_compute; reflexivity|reflexivity|apply root_state_inv
    |vm_compute; reflexivity|vm_compute; reflexivity|cbn [conn_over reader]; reflexivity|].
  split; [apply (H1 4 (wire_of inject_frame)); [cbn [conn_over state root_state unacked]; left|vm_compute; done]|].
  split; [vm_compute; reflexivity|]. cbn [conn_over state root_state unacked fmap list_fmap fst] in H2. exact H2.
Defined.

(** A runner whose frame 3 never reached the root, which has received 2. *)
Definition root_behind : IPCV2ConnectionState :=
  {| st_identity := ident; send_seq := 4; received_seq := 2; last_acked_seq := 4; unacked := []; unacked_bytes := 0 |}.
Definition root_accepts : connection := state_of (accept_first hello (conn_over root_behind [] [])).

Lemma hello_releases_lost_frames_witness :
  fst <$> unacked (state runner_hello) = [3; 4] ∧
  unacked (state (state_of (accept "" (ack_frame ident 5 4) runner_hello))) = [].
Proof.
  split; [vm_compute; reflexivity|].
  apply (hello_releases_lost_frames (conn_over runner_state [] []) 4 runner_hello (conn_over root_behind [] [])
    "job identity does not match registry" hello root_accepts "" (ack_frame ident 5 4) None
    (state_of (accept "" (ack_frame ident 5 4) runner_hello)));
    [apply runner_state_inv|apply run_eq; vm_compute; reflexivity|reflexivity|apply run_eq; vm_compute; reflexivity
    |vm_compute; reflexivity|reflexivity|reflexivity|vm_compute; done|apply run_eq; vm_compute; reflexivity].
Defined.

Definition root_ahead : IPCV2ConnectionState :=
  {| st_identity := ident; send_seq := 4; received_seq := 4; last_acked_seq := 4; unacked := []; unacked_bytes := 0 |}.
Lemma failed_drain_blocks_reconnect_witness :
  val_of (handle_first job hello (conn_over root_ahead [] [])) =
    Err (IPCV2ProtocolError "the first task runner frame must be hello") ∧
  is_ok (val_of (handle_first job hello (conn_over root_ahead [] []))) = false.
Proof.
  split; [vm_compute; reflexivity|].
  apply (failed_drain_blocks_reconnect "event" progress_body (conn_over runner_state [] [DrainTimeout]) DrainTimeout []
    (wire_of (progress_frame 4)) job hello (conn_over root_ahead [] [])); try done; vm_compute; done.
Defined.
