(* ===== verification/Journal.v ===== *)
(** * The streaming journal

    [core/memory/streaming_journal.py]: the write-ahead log of one streaming
    session.  The state is the journal object (its open handle, the text not
    yet written, the time of the last flush) and the disk: the journal file of
    this session and thread, the file under the old name, and the episode
    files.  What an operation meets in its environment is an argument: the two
    clocks, the date for file names, and whether input and output succeed.

    A crash forgets the object and keeps the disk. *)

From Stdlib Require Import Ascii QArith.
From stdpp Require Import prelude strings list pretty.
From S2P Require Import Prelude PyValue PyText JsonText.
Open Scope nat_scope.

Definition FLUSH_INTERVAL_SEC : Q := 1.
Definition FLUSH_SIZE_CHARS : nat := 500.

Record JournalRecovery := {
  rec_trigger : json; rec_from_person : json; rec_session_id : json; rec_started_at : json;
  rec_text : string; rec_tool_calls : list dict; rec_last_event_at : json; rec_is_complete : bool }.

(** The journal object. *)
Record StreamingJournal := { j_fd : bool; j_buffer : string; j_last_flush : Q; j_finalized : bool }.
Definition new_journal : StreamingJournal := {| j_fd := false; j_buffer := ""; j_last_flush := 0; j_finalized := false |}.

Record disk := { journal_file : option string; legacy_file : option string; episodes : list (string * string) }.
Record world := { jobj : StreamingJournal; jdisk : disk }.

(** The environment of one call. *)
Record env := {
  e_monotonic : Q; e_iso : string; e_date : string; e_hhmmss : string; e_open_ok : bool; e_write_ok : bool; e_unlink_ok : bool }.

Definition set_journal_file (f : option string) (d : disk) : disk :=
  {| journal_file := f; legacy_file := legacy_file d; episodes := episodes d |}.
Definition set_obj (o : StreamingJournal) (w : world) : world := {| jobj := o; jdisk := jdisk w |}.
Definition set_disk (d : disk) (w : world) : world := {| jobj := jobj w; jdisk := d |}.

Section journal.
Context `{!FloatText}.

(* ------------------------------------------------------------------ *)
(** ** Writing *)

(** An event line is appended to the file the handle is open on; a failing
    write is logged and dropped. *)
Definition event_line (stamp : string) (event : dict) : string :=
  dumps "" (JObj (dsetdefault "ts" (JStr stamp) event)) +:+ newline.
Definition _write_event (e : env) (event : dict) (w : world) : world :=
  if negb (j_fd (jobj w)) then w
  else if negb (e_write_ok e) then w
  else set_disk (set_journal_file
         (match journal_file (jdisk w) with
          | Some f => Some (f +:+ event_line (e_iso e) event)
          | None => None
          end) (jdisk w)) w.

Definition _flush_buffer (e : env) (w : world) : world :=
  if bool_decide (j_buffer (jobj w) = "") || negb (j_fd (jobj w)) then w else
  let w1 := _write_event e [("ev", JStr "text"); ("t", JStr (j_buffer (jobj w)))] w in
  set_obj {| j_fd := j_fd (jobj w1); j_buffer := ""; j_last_flush := e_monotonic e;
             j_finalized := j_finalized (jobj w1) |} w1.

Definition _close_fd (w : world) : world :=
  set_obj {| j_fd := false; j_buffer := j_buffer (jobj w); j_last_flush := j_last_flush (jobj w);
             j_finalized := j_finalized (jobj w) |} w.

Definition inactive (w : world) : bool := negb (j_fd (jobj w)) || j_finalized (jobj w).

Definition write_text (e : env) (text : string) (w : world) : world :=
  if inactive w then w else
  let o := jobj w in
  let w1 := set_obj {| j_fd := j_fd o; j_buffer := j_buffer o +:+ text; j_last_flush := j_last_flush o;
                       j_finalized := j_finalized o |} w in
  if (FLUSH_SIZE_CHARS <=? char_count (j_buffer (jobj w1)))
     || Qle_bool FLUSH_INTERVAL_SEC (e_monotonic e - j_last_flush (jobj w1))
  then _flush_buffer e w1 else w1.

Definition tool_id_field (tool_id : string) : dict := if str_truthy tool_id then [("tool_id", JStr tool_id)] else [].

Definition write_tool_start (e : env) (tool args_summary tool_id : string) (w : world) : world :=
  if inactive w then w else
  _write_event e ([("ev", JStr "tool_start"); ("tool", JStr tool); ("args_summary", JStr (take_chars 200 args_summary))]
                  ++ tool_id_field tool_id) (_flush_buffer e w).

Definition write_tool_end (e : env) (tool result_summary tool_id : string) (w : world) : world :=
  if inactive w then w else
  _write_event e ([("ev", JStr "tool_end"); ("tool", JStr tool); ("result_summary", JStr (take_chars 200 result_summary))]
                  ++ tool_id_field tool_id) (_flush_buffer e w).

Definition finalize (e : env) (summary : string) (w : world) : world :=
  if inactive w then w else
  let w1 := _write_event e [("ev", JStr "done"); ("summary", JStr (take_chars 500 summary))] (_flush_buffer e w) in
  let o := jobj w1 in
  let w2 := _close_fd (set_obj {| j_fd := j_fd o; j_buffer := j_buffer o; j_last_flush := j_last_flush o; j_finalized := true |} w1) in
  if e_unlink_ok e then set_disk (set_journal_file None (jdisk w2)) w2 else w2.

Definition close (e : env) (w : world) : world :=
  if j_finalized (jobj w) then w
  else _close_fd (if j_fd (jobj w) && str_truthy (j_buffer (jobj w)) then _flush_buffer e w else w).

(* ------------------------------------------------------------------ *)
(** ** Recovery *)

(** The state of the loop over the lines. *)
Record scan_state := {
  s_trigger : json; s_from : json; s_session : json; s_started : json; s_last : json;
  s_parts : list json; s_tools : list dict; s_complete : bool }.
Definition scan_start : scan_state :=
  {| s_trigger := JStr ""; s_from := JStr ""; s_session := JStr ""; s_started := JStr ""; s_last := JStr "";
     s_parts := []; s_tools := []; s_complete := false |}.

(** Updates the last element of [l] that satisfies [p], if there is one. *)
Fixpoint update_first (p : dict → bool) (f : dict → dict) (l : list dict) : option (list dict) :=
  match l with
  | [] => None
  | x :: l' => if p x then Some (f x :: l') else cons x <$> update_first p f l'
  end.
Definition update_last (p : dict → bool) (f : dict → dict) (l : list dict) : option (list dict) :=
  reverse <$> update_first p f (reverse l).

Definition tool_started (entry : dict) : dict :=
  [("tool", dget_default "tool" (JStr "") entry); ("args_summary", dget_default "args_summary" (JStr "") entry);
   ("status", JStr "started")] ++
  (if truthy (dget_none "tool_id" entry) then [("tool_id", dget_none "tool_id" entry)] else []).

(** Matching a tool's end to its start: by identifier, else by name; the
    latest start that has not ended. *)
Definition is_started (tc : dict) : bool := py_eq (dget_none "status" tc) (JStr "started").
Definition tool_ended (entry : dict) (calls : list dict) : list dict :=
  let tool_name := dget_default "tool" (JStr "") entry in
  let end_id := dget_default "tool_id" (JStr "") entry in
  let result := dget_default "result_summary" (JStr "") entry in
  let complete tc := dset "result_summary" result (dset "status" (JStr "completed") tc) in
  match (if truthy end_id then update_last (λ tc, py_eq (dget_none "tool_id" tc) end_id && is_started tc) complete calls
         else None) with
  | Some calls' => calls'
  | None =>
      match update_last (λ tc, py_eq (dget_none "tool" tc) tool_name && is_started tc) complete calls with
      | Some calls' => calls'
      | None =>
          calls ++ [[("tool", tool_name); ("result_summary", result); ("status", JStr "completed")] ++
                    (if truthy end_id then [("tool_id", end_id)] else [])]
      end
  end.

Definition scan_entry (entry : dict) (s : scan_state) : scan_state :=
  let ev := dget_default "ev" (JStr "") entry in
  let ts := dget_default "ts" (JStr "") entry in
  let tagged name := py_eq ev (JStr name) in
  let s1 := if truthy ts then
      {| s_trigger := s_trigger s; s_from := s_from s; s_session := s_session s; s_started := s_started s; s_last := ts;
         s_parts := s_parts s; s_tools := s_tools s; s_complete := s_complete s |} else s in
  let with_tools l :=
      {| s_trigger := s_trigger s1; s_from := s_from s1; s_session := s_session s1; s_started := s_started s1;
         s_last := s_last s1; s_parts := s_parts s1; s_tools := l; s_complete := s_complete s1 |} in
  if tagged "start" then
    {| s_trigger := dget_default "trigger" (JStr "") entry; s_from := dget_default "from" (JStr "") entry;
       s_session := dget_default "session_id" (JStr "") entry; s_started := ts; s_last := s_last s1;
       s_parts := s_parts s1; s_tools := s_tools s1; s_complete := s_complete s1 |}
  else if tagged "text" then
    {| s_trigger := s_trigger s1; s_from := s_from s1; s_session := s_session s1; s_started := s_started s1;
       s_last := s_last s1; s_parts := s_parts s1 ++ [dget_default "t" (JStr "") entry]; s_tools := s_tools s1;
       s_complete := s_complete s1 |}
  else if tagged "tool_start" then with_tools (s_tools s1 ++ [tool_started entry])
  else if tagged "tool_end" then with_tools (tool_ended entry (s_tools s1))
  else if tagged "done" then
    {| s_trigger := s_trigger s1; s_from := s_from s1; s_session := s_session s1; s_started := s_started s1;
       s_last := s_last s1; s_parts := s_parts s1; s_tools := s_tools s1; s_complete := true |}
  else s1.

(** One line of the file: blank and corrupt lines are skipped, a JSON value
    that is not an object raises. *)
Definition scan_line (line : string) (s : scan_state) : result scan_state :=
  let line' := strip line in
  if bool_decide (line' = "") then Ok s else
  match loads line' with
  | None => Ok s
  | Some (JObj entry) => Ok (scan_entry entry s)
  | Some _ => Err (AttributeError "get")
  end.
Fixpoint scan_lines (lines : list string) (s : scan_state) : result scan_state :=
  match lines with
  | [] => Ok s
  | l :: ls => s' ← scan_line l s; scan_lines ls s'
  end.

(** ["".join(text_parts)]. *)
Fixpoint join_parts (l : list json) : result string :=
  match l with
  | [] => Ok ""
  | JStr t :: l' => r ← join_parts l'; Ok (t +:+ r)
  | _ :: _ => Err (TypeError "sequence item: expected str instance")
  end.

Definition recover_text (raw : string) : result JournalRecovery :=
  s ← scan_lines (splitlines (decode_replace raw)) scan_start;
  text ← join_parts (s_parts s);
  Ok {| rec_trigger := s_trigger s; rec_from_person := s_from s; rec_session_id := s_session s;
        rec_started_at := s_started s; rec_text := text; rec_tool_calls := s_tools s;
        rec_last_event_at := s_last s; rec_is_complete := s_complete s |}.

(** [recover]; [old_name] says that the file may still have its old name (the
    default thread of the chat session). *)
Definition migrate_legacy (old_name : bool) (d : disk) : disk :=
  match journal_file d, legacy_file d with
  | None, Some f => if old_name then {| journal_file := Some f; legacy_file := None; episodes := episodes d |} else d
  | _, _ => d
  end.
Definition recover (old_name read_ok : bool) (d : disk) : result (option JournalRecovery) * disk :=
  let d1 := migrate_legacy old_name d in
  match journal_file d1 with
  | None => (Ok None, d1)
  | Some raw =>
      if read_ok then (r ← recover_text raw; Ok (Some r), d1) else (Ok None, d1)
  end.

Definition confirm_recovery (old_name : bool) (d : disk) : disk :=
  {| journal_file := None; legacy_file := if old_name then None else legacy_file d; episodes := episodes d |}.

(** A recovered orphan becomes an episode file. *)
Definition py_text (v : json) : string := from_option id "" (py_str v).
Definition recovery_page (r : JournalRecovery) : string :=
  join newline [ "# Recovered Streaming Journal (" +:+ py_text (rec_trigger r) +:+ ")";
    "- from: " +:+ py_text (rec_from_person r); "- session_id: " +:+ py_text (rec_session_id r);
    "- started_at: " +:+ py_text (rec_started_at r); "- last_event_at: " +:+ py_text (rec_last_event_at r);
    "- complete: " +:+ (if rec_is_complete r then "True" else "False"); ""; "## Recovered Text"; ""; rec_text r ].
Definition _persist_recovery (e : env) (r : JournalRecovery) (d : disk) : disk :=
  if e_write_ok e then
    {| journal_file := journal_file d; legacy_file := legacy_file d;
       episodes := dset (e_date e +:+ "_recovered-" +:+ e_hhmmss e +:+ ".md") (recovery_page r) (episodes d) |}
  else d.

(** [open]: an orphan is recovered first, then the file is truncated. *)
Definition open (e : env) (old_name : bool) (trigger from_person session_id : string) : M world unit :=
  w ← get;
  _ ← (match journal_file (jdisk w) with
       | None => mret tt
       | Some _ =>
           let '(res, d) := recover old_name true (jdisk w) in
           _ ← modify (set_disk d);
           rec ← lift res;
           match rec with
           | Some r => if str_truthy (rec_text r) then modify (λ w, set_disk (_persist_recovery e r (jdisk w)) w) else mret tt
           | None => mret tt
           end
       end);
  if negb (e_open_ok e) then
    modify (λ w, set_obj {| j_fd := false; j_buffer := j_buffer (jobj w); j_last_flush := j_last_flush (jobj w);
                            j_finalized := j_finalized (jobj w) |} w)
  else
    modify (λ w, _write_event e [("ev", JStr "start"); ("trigger", JStr trigger); ("from", JStr from_person);
                                 ("session_id", JStr session_id)]
      {| jobj := {| j_fd := true; j_buffer := ""; j_last_flush := e_monotonic e; j_finalized := false |};
         jdisk := set_journal_file (Some "") (jdisk w) |}).

(** Which threads have an orphan: the default one under either name, then the
    threads with a file of their own, in the order the directory lists them. *)
Definition has_orphan (old_name : bool) (threads : list string) (d : disk) : bool :=
  bool_decide (is_Some (journal_file d)) || (old_name && bool_decide (is_Some (legacy_file d))) ||
  bool_decide (threads ≠ []).
Definition list_orphan_thread_ids (session_type : string) (old_name : bool) (threads : list string) (d : disk) : list string :=
  (if bool_decide (is_Some (journal_file d)) || (old_name && bool_decide (is_Some (legacy_file d))) then ["default"] else []) ++
  filter (λ tid, tid ≠ session_type) threads.
End journal.
