(* ===== verification/JournalText.v ===== *)
(** * Lines of a journal file

    Text that stays on one line, the lines [splitlines] finds in a file of
    event lines, and what decoding and stripping make of a torn last line. *)

From Stdlib Require Import Ascii QArith.
From stdpp Require Import prelude strings list pretty.
From S2P Require Import Prelude PyValue PyText JsonText JsonRound JsonPrefix.
Open Scope nat_scope.

(* ------------------------------------------------------------------ *)
(** ** Text without line breaks *)

(** Valid UTF-8 without U+0085, U+2028 and U+2029, the line breaks of
    [splitlines] that JSON does not escape. *)
Definition wide_break2 (a b : nat) : bool := bool_decide (a = 194) && bool_decide (b = 133).
Definition wide_break3 (a b c : nat) : bool := bool_decide (a = 226) && bool_decide (b = 128) && bool_decide (c ∈ [168; 169]).
Fixpoint line_text (s : string) : bool :=
  match s with
  | EmptyString => true
  | String a s1 =>
      if code a <? 128 then line_text s1 else
      match s1 with
      | EmptyString => false
      | String b s2 =>
          if in_range 194 223 (code a) && continuation (code b)
          then negb (wide_break2 (code a) (code b)) && line_text s2 else
          match s2 with
          | EmptyString => false
          | String c s3 =>
              if lead3 (code a) (code b) && continuation (code c)
              then negb (wide_break3 (code a) (code b) (code c)) && line_text s3 else
              match s3 with
              | EmptyString => false
              | String d s4 =>
                  if lead4 (code a) (code b) && continuation (code c) && continuation (code d)
                  then line_text s4 else false
              end
          end
      end
  end.

Lemma line_text_step a s1 : line_text (String a s1) =
  (if code a <? 128 then line_text s1 else
   match s1 with
   | EmptyString => false
   | String b s2 =>
       if in_range 194 223 (code a) && continuation (code b)
       then negb (wide_break2 (code a) (code b)) && line_text s2 else
       match s2 with
       | EmptyString => false
       | String c s3 =>
           if lead3 (code a) (code b) && continuation (code c)
           then negb (wide_break3 (code a) (code b) (code c)) && line_text s3 else
           match s3 with
           | EmptyString => false
           | String d s4 =>
               if lead4 (code a) (code b) && continuation (code c) && continuation (code d)
               then line_text s4 else false
           end
       end
   end).
Proof. done. Qed.

(** Induction on the characters of such a text. *)
Lemma line_text_ind (P : string → Prop) :
  P "" →
  (∀ a s, code a < 128 → line_text s = true → P s → P (String a s)) →
  (∀ a b s, in_range 194 223 (code a) = true → continuation (code b) = true → wide_break2 (code a) (code b) = false →
     line_text s = true → P s → P (String a (String b s))) →
  (∀ a b c s, lead3 (code a) (code b) = true → continuation (code c) = true →
     wide_break3 (code a) (code b) (code c) = false → line_text s = true → P s → P (String a (String b (String c s)))) →
  (∀ a b c d s, lead4 (code a) (code b) = true → continuation (code c) = true → continuation (code d) = true →
     line_text s = true → P s → P (String a (String b (String c (String d s))))) →
  ∀ s, line_text s = true → P s.
Proof.
  intros H0 H1 H2 H3 H4 s. induction s as [s IH] using (induction_ltof1 _ String.length). unfold ltof in IH.
  destruct s as [|a s]; [done|]. rewrite line_text_step.
  destruct (Nat.ltb_spec (code a) 128); [intros Hs; apply H1; [done..|]; apply IH; [simpl; lia|done]|].
  destruct s as [|b s]; [done|]. destruct (in_range 194 223 (code a) && continuation (code b)) eqn:E2.
  { apply andb_true_iff in E2 as [Ha Hb]. intros [Hw Hs]%andb_true_iff. apply negb_true_iff in Hw.
    apply H2; [done..|]. apply IH; [simpl; lia|done]. }
  destruct s as [|c s]; [done|]. destruct (lead3 (code a) (code b) && continuation (code c)) eqn:E3.
  { apply andb_true_iff in E3 as [Ha Hc]. intros [Hw Hs]%andb_true_iff. apply negb_true_iff in Hw.
    apply H3; [done..|]. apply IH; [simpl; lia|done]. }
  destruct s as [|d s]; [done|]. destruct (lead4 (code a) (code b) && continuation (code c) && continuation (code d)) eqn:E4; [|done].
  apply andb_true_iff in E4 as [[Ha Hc]%andb_true_iff Hd]. intros Hs. apply H4; [done..|]. apply IH; [simpl; lia|done].
Qed.

Lemma in_range_bounds lo hi n : in_range lo hi n = true → lo ≤ n ≤ hi.
Proof. unfold in_range. rewrite andb_true_iff, !Nat.leb_le. done. Qed.
Lemma continuation_bounds n : continuation n = true → 128 ≤ n ≤ 191.
Proof. unfold continuation. intros. breflect. lia. Qed.
Lemma lead3_bounds a b : lead3 a b = true → 224 ≤ a ≤ 239 ∧ 128 ≤ b ≤ 191.
Proof.
  unfold lead3. intros H. repeat (apply orb_true_iff in H as [H|H]);
    apply andb_true_iff in H as [Ha Hb]; apply in_range_bounds in Hb;
    first [apply bool_decide_eq_true in Ha | apply in_range_bounds in Ha]; lia.
Qed.
Lemma lead4_bounds a b : lead4 a b = true → 240 ≤ a ≤ 244 ∧ 128 ≤ b ≤ 191.
Proof.
  unfold lead4. intros H. repeat (apply orb_true_iff in H as [H|H]);
    apply andb_true_iff in H as [Ha Hb]; apply in_range_bounds in Hb;
    first [apply bool_decide_eq_true in Ha | apply in_range_bounds in Ha]; lia.
Qed.

Lemma utf8_step2 a b s : in_range 194 223 (code a) = true → continuation (code b) = true →
  utf8_valid (String a (String b s)) = utf8_valid s.
Proof.
  intros Ha Hb. rewrite utf8_step. apply in_range_bounds in Ha as ?. destruct (Nat.ltb_spec (code a) 128); [lia|].
  by rewrite Ha, Hb.
Qed.
Lemma utf8_step3 a b c s : lead3 (code a) (code b) = true → continuation (code c) = true →
  utf8_valid (String a (String b (String c s))) = utf8_valid s.
Proof.
  intros Ha Hc. rewrite utf8_step. apply lead3_bounds in Ha as ?. destruct (Nat.ltb_spec (code a) 128); [lia|].
  assert (in_range 194 223 (code a) = false) as ->.
  { destruct (in_range 194 223 (code a)) eqn:E; [|done]. apply in_range_bounds in E. lia. }
  cbn [andb]. by rewrite Ha, Hc.
Qed.
Lemma utf8_step4 a b c d s : lead4 (code a) (code b) = true → continuation (code c) = true → continuation (code d) = true →
  utf8_valid (String a (String b (String c (String d s)))) = utf8_valid s.
Proof.
  intros Ha Hc Hd. rewrite utf8_step. apply lead4_bounds in Ha as ?. destruct (Nat.ltb_spec (code a) 128); [lia|].
  assert (in_range 194 223 (code a) = false) as ->.
  { destruct (in_range 194 223 (code a)) eqn:E; [|done]. apply in_range_bounds in E. lia. }
  assert (lead3 (code a) (code b) = false) as ->.
  { destruct (lead3 (code a) (code b)) eqn:E; [|done]. apply lead3_bounds in E. lia. }
  cbn [andb]. by rewrite Ha, Hc, Hd.
Qed.

Lemma line_text_utf8 s : line_text s = true → utf8_valid s = true.
Proof.
  revert s. apply (line_text_ind (λ s, utf8_valid s = true)); [done|..]; intros.
  - by rewrite utf8_ascii.
  - by rewrite utf8_step2.
  - by rewrite utf8_step3.
  - by rewrite utf8_step4.
Qed.

(* ------------------------------------------------------------------ *)
(** ** No line break anywhere *)

Fixpoint clean (s : string) : bool :=
  match s with EmptyString => true | String _ s' => bool_decide (break_len s = 0) && clean s' end.

Lemma break_len_other a s :
  code a ∉ [10; 11; 12; 13; 28; 29; 30; 194; 226] → break_len (String a s) = 0.
Proof.
  rewrite !not_elem_of_cons. intros (?&?&?&?&?&?&?&?&?&_). cbn [break_len].
  rewrite bool_decide_eq_false_2 by done.
  rewrite bool_decide_eq_false_2 by (rewrite !not_elem_of_cons, elem_of_nil; tauto).
  destruct s as [|b [|c s]]; [done|..];
    rewrite !(bool_decide_eq_false_2 (code a = 194)), ?(bool_decide_eq_false_2 (code a = 226)) by done; done.
Qed.

Lemma clean_cons a s : code a ∉ [10; 11; 12; 13; 28; 29; 30; 194; 226] → clean (String a s) = clean s.
Proof. intros Ha. cbn [clean]. by rewrite (break_len_other a s Ha), bool_decide_eq_true_2. Qed.
Lemma clean_high a s : 128 ≤ code a → code a ≠ 194 → code a ≠ 226 → clean (String a s) = clean s.
Proof. intros. apply clean_cons. rewrite !not_elem_of_cons, elem_of_nil. lia. Qed.
Lemma clean_printable s t : str_all printable s = true → str_all (λ c, code c <? 128) s = true → clean (s +:+ t) = clean t.
Proof.
  induction s as [|c s IH]; [done|]. cbn [str_all]. intros [Hp Hs]%andb_true_iff [Ha Hs']%andb_true_iff.
  apply Nat.leb_le in Hp. apply Nat.ltb_lt in Ha. rewrite string_cons_app, clean_cons; [auto|].
  rewrite !not_elem_of_cons, elem_of_nil. lia.
Qed.
Lemma escape_ascii c : code c < 128 → str_all (λ c, code c <? 128) (escape c) = true.
Proof. destruct c as [[] [] [] [] [] [] [] []]; intros Hc; try reflexivity; exfalso; revert Hc; vm_compute; lia. Qed.

Lemma clean_two a b s : 194 ≤ code a ≤ 223 → 128 ≤ code b ≤ 191 → wide_break2 (code a) (code b) = false →
  clean (String a (String b s)) = clean s.
Proof.
  intros Ha Hb Hw. change (clean (String a (String b s))) with
    (bool_decide (break_len (String a (String b s)) = 0) && clean (String b s)).
  rewrite (clean_high b s) by lia. unfold wide_break2 in Hw. cbn [break_len].
  rewrite (bool_decide_eq_false_2 (code a = 13)) by lia.
  rewrite (bool_decide_eq_false_2 (code a ∈ _)) by (rewrite !not_elem_of_cons, elem_of_nil; lia).
  rewrite Hw. destruct s as [|c s]; [done|]. by rewrite (bool_decide_eq_false_2 (code a = 226)) by lia.
Qed.
Lemma clean_three a b c s : 224 ≤ code a ≤ 239 → 128 ≤ code b ≤ 191 → 128 ≤ code c ≤ 191 →
  wide_break3 (code a) (code b) (code c) = false → clean (String a (String b (String c s))) = clean s.
Proof.
  intros Ha Hb Hc Hw. change (clean (String a (String b (String c s)))) with
    (bool_decide (break_len (String a (String b (String c s))) = 0) && clean (String b (String c s))).
  rewrite (clean_high b), (clean_high c) by lia. unfold wide_break3 in Hw. cbn [break_len].
  rewrite (bool_decide_eq_false_2 (code a = 13)) by lia.
  rewrite (bool_decide_eq_false_2 (code a ∈ _)) by (rewrite !not_elem_of_cons, elem_of_nil; lia).
  rewrite (bool_decide_eq_false_2 (code a = 194)) by lia. cbn [andb]. by rewrite Hw.
Qed.

(** A string's contents are clean once escaped. *)
Lemma escape_all_clean s t : line_text s = true → clean t = true → clean (escape_all s +:+ t) = true.
Proof.
  intros Hs Ht. revert s Hs. apply (line_text_ind (λ s, clean (escape_all s +:+ t) = true)); [done|..].
  - intros a s Ha _ IH. cbn [escape_all]. rewrite string_app_assoc, clean_printable; [done|apply escape_printable|].
    by apply escape_ascii.
  - intros a b s Ha%in_range_bounds Hb%continuation_bounds Hw _ IH.
    rewrite !escape_all_high, !string_cons_app, clean_two by (done || lia). done.
  - intros a b c s [Ha Hb]%lead3_bounds Hc%continuation_bounds Hw _ IH.
    rewrite !escape_all_high, !string_cons_app, clean_three by (done || lia). done.
  - intros a b c d s [Ha Hb]%lead4_bounds Hc%continuation_bounds Hd%continuation_bounds _ IH.
    rewrite !escape_all_high, !string_cons_app, !clean_high by lia. done.
Qed.

Lemma dumps_str_clean s t : line_text s = true → clean t = true → clean (dumps_str s +:+ t) = true.
Proof.
  intros Hs Ht. rewrite dumps_str_app. change (String QUOTE ?x) with (String QUOTE "" +:+ x).
  rewrite clean_printable by done. apply escape_all_clean; [done|].
  rewrite <- Ht. by apply (clean_printable (String QUOTE "") t).
Qed.

(** The printed form of an object with string values. *)
Definition str_dict (kss : list (string * string)) : dict := prod_map id JStr <$> kss.
Definition dict_text (kss : list (string * string)) : bool :=
  forallb (λ ks, line_text (fst ks) && line_text (snd ks)) kss.

Section lines.
Context `{!FloatText}.
(** The blank after the separators: none in the journal, one elsewhere. *)
Context (sp : string) (sp_printable : str_all printable sp = true) (sp_ascii : str_all (λ c, code c <? 128) sp = true).

Lemma join_clean kss t : dict_text kss = true → clean t = true →
  clean (join ("," +:+ sp) (map (λ kv, dumps_str (fst kv) +:+ ":" +:+ sp +:+ dumps sp (snd kv)) (str_dict kss)) +:+ t) = true.
Proof.
  intros Hk Ht. induction kss as [|[k v] kss IH]; [done|].
  cbn [dict_text forallb fst snd] in Hk. apply andb_true_iff in Hk as [[Hk Hv]%andb_true_iff Hks].
  specialize (IH Hks). destruct kss as [|kv kss].
  - cbn [str_dict fmap list_fmap prod_map map join fst snd id dumps].
    rewrite !string_app_assoc. apply dumps_str_clean; [done|]. do 2 rewrite clean_printable by done.
    by apply dumps_str_clean.
  - change (str_dict ((k, v) :: kv :: kss)) with ((k, JStr v) :: str_dict (kv :: kss)). cbn [map].
    match goal with |- clean (join _ (?x :: ?l) +:+ t) = true =>
      change (join ("," +:+ sp) (x :: l)) with (x +:+ ("," +:+ sp) +:+ join ("," +:+ sp) l) end.
    rewrite !string_app_assoc. cbn [fst snd dumps]. apply dumps_str_clean; [done|].
    do 2 rewrite clean_printable by done. apply dumps_str_clean; [done|].
    do 2 rewrite clean_printable by done. exact IH.
Qed.
Lemma object_clean kss t : dict_text kss = true → clean t = true → clean (dumps sp (JObj (str_dict kss)) +:+ t) = true.
Proof.
  intros Hk Ht. cbn [dumps]. rewrite !string_app_assoc. rewrite clean_printable by done.
  apply join_clean; [done|]. by rewrite clean_printable.
Qed.
Lemma object_wf kss : NoDup (fst <$> kss) → json_wf (JObj (str_dict kss)) = true.
Proof.
  intros Hnd. cbn [json_wf]. apply andb_true_iff. split.
  - apply bool_decide_eq_true. unfold str_dict. change (map fst) with (fmap (M := list) (B := string) (A := string * json) fst).
    rewrite <- list_fmap_compose. exact Hnd.
  - clear Hnd. by induction kss.
Qed.
Lemma object_utf8 kss : forallb (λ ks, utf8_valid (fst ks) && utf8_valid (snd ks)) kss = true → NoDup (fst <$> kss) →
  utf8_valid (dumps sp (JObj (str_dict kss))) = true.
Proof.
  intros Hk Hnd. apply dumps_utf8; [by apply ascii_utf8|by apply object_wf|]. cbn [json_utf8]. clear Hnd.
  induction kss as [|[k v] kss IH]; [done|]. cbn [forallb fst snd] in Hk. apply andb_true_iff in Hk as [Hkv Hks].
  cbn [str_dict fmap list_fmap prod_map forallb fst snd id json_utf8]. rewrite Hkv. by apply IH.
Qed.
Lemma dict_text_utf8 kss : dict_text kss = true → forallb (λ ks, utf8_valid (fst ks) && utf8_valid (snd ks)) kss = true.
Proof.
  unfold dict_text. rewrite !forallb_forall. intros Hk x Hx. specialize (Hk x Hx).
  apply andb_true_iff in Hk as [H1 H2]. by rewrite !line_text_utf8.
Qed.
End lines.

(* ------------------------------------------------------------------ *)
(** ** The lines of a file *)

Abbreviation LF := (ascii_of_nat 10).

Lemma break_len_ext a l rest : break_len (String a l) = 0 → break_len (String a (l +:+ String LF rest)) = 0.
Proof.
  cbn [break_len]. destruct (bool_decide (code a = 13)); [by destruct l as [|b l]; [|destruct (bool_decide _)]|].
  destruct (bool_decide (code a ∈ _)); [done|].
  destruct l as [|b l].
  - intros _. change ("" +:+ String LF rest) with (String LF rest).
    destruct (bool_decide (code a = 194)), (bool_decide (code a = 226)); by destruct rest.
  - rewrite string_cons_app. destruct (_ && _); [done|]. destruct l as [|c l].
    + intros _. change ("" +:+ String LF rest) with (String LF rest).
      by destruct (bool_decide (code a = 226) && bool_decide (code b = 128)).
    + by rewrite string_cons_app.
Qed.

Lemma split_line l rest : clean l = true → split_breaks 0 (l +:+ String LF rest) = l :: split_breaks 0 rest.
Proof.
  induction l as [|a l IH]; [done|]. cbn [clean]. intros [Hb%bool_decide_eq_true Hl]%andb_true_iff.
  rewrite string_cons_app. cbn [split_breaks]. rewrite (break_len_ext a l rest Hb). by rewrite IH.
Qed.
Lemma split_last l : clean l = true → split_breaks 0 l = [l].
Proof.
  induction l as [|a l IH]; [done|]. cbn [clean]. intros [Hb%bool_decide_eq_true Hl]%andb_true_iff.
  cbn [split_breaks]. rewrite Hb. by rewrite IH.
Qed.

(** U+2028, which JSON leaves in a line and [splitlines] breaks at. *)
Definition LINE_SEPARATOR : string := String (ascii_of_nat 226) (String (ascii_of_nat 128) (String (ascii_of_nat 168) "")).

Lemma escape_all_app s t : escape_all (s +:+ t) = escape_all s +:+ escape_all t.
Proof. induction s as [|c s IH]; [done|]. rewrite string_cons_app. cbn [escape_all]. by rewrite IH, string_app_assoc. Qed.
Lemma split_separator l rest : clean l = true →
  split_breaks 0 (l +:+ LINE_SEPARATOR +:+ rest) = l :: split_breaks 0 rest.
Proof.
  induction l as [|a l IH]; [done|]. cbn [clean]. intros [Hb%bool_decide_eq_true Hl]%andb_true_iff.
  rewrite string_cons_app. cbn [split_breaks].
  assert (break_len (String a (l +:+ LINE_SEPARATOR +:+ rest)) = 0) as ->; [|by rewrite IH].
  revert Hb. cbn [break_len]. destruct (bool_decide (code a = 13)); [by destruct l as [|b l]; [|destruct (bool_decide _)]|].
  destruct (bool_decide (code a ∈ _)); [done|].
  destruct l as [|b l]; [intros _; by destruct (bool_decide (code a = 194)), (bool_decide (code a = 226))|].
  rewrite string_cons_app. destruct (_ && _); [done|].
  destruct l as [|c l]; [intros _; by destruct (bool_decide (code a = 226) && bool_decide (code b = 128))|].
  by rewrite string_cons_app.
Qed.

(** A file of complete lines and whatever comes after the last of them. *)
Definition file_text (ls : list string) (tail : string) : string := foldr (λ l acc, l +:+ String LF acc) tail ls.
Lemma file_text_snoc ls l t : file_text (ls ++ [l]) t = file_text ls (l +:+ String LF t).
Proof. unfold file_text. by rewrite foldr_app. Qed.
Lemma file_text_tail ls t u : file_text ls (t +:+ u) = file_text ls t +:+ u.
Proof.
  induction ls as [|l ls IH]; [done|]. unfold file_text in *. cbn [foldr]. rewrite IH.
  by rewrite string_app_assoc, string_cons_app.
Qed.

Lemma splitlines_file ls tail : Forall (λ l, clean l = true) ls → clean tail = true →
  splitlines (file_text ls tail) = ls ++ (if bool_decide (tail = "") then [] else [tail]).
Proof.
  intros Hls Ht. unfold splitlines.
  assert (split_breaks 0 (file_text ls tail) = ls ++ [tail]) as ->.
  { induction Hls as [|l ls Hl _ IH]; [by apply split_last|]. 
    change (file_text (l :: ls) tail) with (l +:+ String LF (file_text ls tail)). by rewrite split_line, IH. }
  rewrite last_snoc. case_bool_decide as Hb; case_bool_decide as Hb'; try done; [|congruence..].
  subst. rewrite removelast_last. by rewrite app_nil_r.
Qed.

(* ------------------------------------------------------------------ *)
(** ** Decoding *)

Lemma decode_app s t : utf8_valid s = true → decode_replace (s +:+ t) = s +:+ decode_replace t.
Proof.
  induction s as [s IH] using (induction_ltof1 _ String.length). unfold ltof in IH.
  destruct s as [|a s]; [done|]. rewrite utf8_step, !string_cons_app. cbn [decode_replace].
  destruct (code a <? 128); [intros Hs; f_equal; apply IH; [simpl; lia|done]|].
  destruct s as [|b s]; [done|]. rewrite !string_cons_app.
  destruct (_ && _); [intros Hs; do 2 f_equal; apply IH; [simpl; lia|done]|].
  destruct s as [|c s]; [done|]. rewrite !string_cons_app.
  destruct (lead3 _ _); cbn [andb orb].
  { destruct (continuation (code c)); cbn [negb]; [intros Hs; do 3 f_equal; apply IH; [simpl; lia|done]|].
    destruct s as [|d s]; [done|]. by rewrite andb_false_r. }
  destruct s as [|d s]; [done|]. rewrite !string_cons_app.
  destruct (lead4 _ _); [|done]. cbn [andb]. destruct (continuation (code c)); [|done]. cbn [andb negb].
  destruct (continuation (code d)); [|done]. intros Hs. do 4 f_equal. apply IH; [simpl; lia|done].
Qed.

(** A text cut anywhere decodes to itself, or loses its last, incomplete
    character to U+FFFD. *)
Definition cut (p t : string) : Prop := t = p ∨ ∃ p' x, p = p' +:+ x ∧ t = p' +:+ FFFD.
Lemma cut_cons a p t : cut p t → cut (String a p) (String a t).
Proof.
  intros [->|(p' & x & -> & ->)]; [by left|]. right. by exists (String a p'), x.
Qed.
Lemma cut_here p : cut p FFFD.
Proof. right. by exists "", p. Qed.

Lemma decode_cut p u : utf8_valid (p +:+ u) = true → cut p (decode_replace p).
Proof.
  induction p as [p IH] using (induction_ltof1 _ String.length). unfold ltof in IH.
  destruct p as [|a p]; [by left|]. rewrite string_cons_app, utf8_step. cbn [decode_replace].
  destruct (code a <? 128); [intros; apply cut_cons, IH; [simpl; lia|done]|].
  destruct p as [|b p]; [intros _; apply cut_here|]. rewrite string_cons_app.
  destruct (_ && _); [intros; do 2 apply cut_cons; apply IH; [simpl; lia|done]|].
  destruct p as [|c p].
  { intros Hv. assert (lead3 (code a) (code b) || lead4 (code a) (code b) = true) as ->; [|apply cut_here].
    destruct u as [|c u]; [done|]. change ("" +:+ String c u) with (String c u) in Hv.
    destruct (lead3 _ _); [done|]. cbn [andb orb] in *. destruct u as [|d u]; [done|]. by destruct (lead4 _ _). }
  rewrite string_cons_app. destruct (lead3 _ _); cbn [andb orb].
  { destruct (continuation (code c)); cbn [negb]; [intros; do 3 apply cut_cons; apply IH; [simpl; lia|done]|].
    rewrite andb_false_r. destruct (p +:+ u); done. }
  destruct p as [|d p].
  { intros Hv. change ("" +:+ u) with u in Hv. destruct u as [|d u]; [done|].
    destruct (lead4 _ _); [|done]. cbn [andb] in Hv. destruct (continuation (code c)); [apply cut_here|done]. }
  rewrite string_cons_app. destruct (lead4 _ _); [|done]. cbn [andb].
  destruct (continuation (code c)); [|done]. cbn [andb negb].
  destruct (continuation (code d)); [|done]. intros. do 4 apply cut_cons. apply IH; [simpl; lia|done].
Qed.

(* ------------------------------------------------------------------ *)
(** ** Stripping *)

(** The bytes a space character can end with. *)
Definition space_end (n : nat) : bool :=
  ascii_space n || bool_decide (n ∈ [128; 129; 130; 131; 132; 133; 134; 135; 136; 137; 138; 159; 160; 168; 169; 175]).

Lemma wide_space2_end a b : wide_space2 a b = true → space_end b = true.
Proof. unfold wide_space2. intros H. apply andb_true_iff in H as [_ H]. apply orb_true_iff in H as [H|H]; apply bool_decide_eq_true in H; by subst. Qed.
Lemma wide_space3_end a b c : wide_space3 a b c = true → space_end c = true.
Proof.
  unfold wide_space3, space_end. intros H. apply orb_true_iff. right. apply bool_decide_eq_true.
  repeat (apply orb_true_iff in H as [H|H]); repeat (apply andb_true_iff in H as [? H]);
    try (apply orb_true_iff in H as [H|H]); breflect; set_unfold; lia.
Qed.

Lemma blank_last s c : space_end (code c) = false → blank (s +:+ String c "") = false.
Proof.
  intros Hc. assert (ascii_space (code c) = false) as Hc1 by (unfold space_end in Hc; by apply orb_false_iff in Hc as [? _]).
  induction s as [s IH] using (induction_ltof1 _ String.length). unfold ltof in IH.
  destruct s as [|a s]; [change ("" +:+ String c "") with (String c ""); cbn [blank]; by rewrite Hc1|].
  rewrite string_cons_app. cbn [blank]. destruct (ascii_space (code a)); [apply IH; simpl; lia|].
  destruct s as [|b s].
  { change ("" +:+ String c "") with (String c ""). cbn iota beta.
    destruct (wide_space2 (code a) (code c)) eqn:E; [apply wide_space2_end in E; congruence|done]. }
  rewrite string_cons_app. destruct (wide_space2 _ _); [apply IH; simpl; lia|].
  destruct s as [|d s].
  { change ("" +:+ String c "") with (String c ""). cbn iota beta.
    destruct (wide_space3 (code a) (code b) (code c)) eqn:E; [apply wide_space3_end in E; congruence|done]. }
  rewrite string_cons_app. destruct (wide_space3 _ _ _); [apply IH; simpl; lia|done].
Qed.

Lemma rstrip_step a s : rstrip (String a s) = if blank (String a s) then "" else String a (rstrip s).
Proof. done. Qed.
Lemma rstrip_ends s c : space_end (code c) = false → rstrip (s +:+ String c "") = s +:+ String c "".
Proof.
  intros Hc. induction s as [|a s IH].
  - change ("" +:+ String c "") with (String c ""). rewrite rstrip_step.
    pose proof (blank_last "" c Hc) as Hb. change ("" +:+ String c "") with (String c "") in Hb. by rewrite Hb.
  - rewrite string_cons_app, rstrip_step. pose proof (blank_last (String a s) c Hc) as Hb.
    rewrite string_cons_app in Hb. by rewrite Hb, IH.
Qed.
(** A visible ASCII character inside a text: nothing up to it is stripped. *)
Lemma blank_visible s c t : ascii_space (code c) = false → code c < 128 → blank (s +:+ String c t) = false.
Proof.
  intros Hc Hlt.
  assert (∀ a, wide_space2 a (code c) = false) as H2 by
    (intros a; destruct (wide_space2 a (code c)) eqn:E; [apply wide_space2_end in E|done];
     unfold space_end in E; rewrite Hc in E; apply bool_decide_eq_true in E; set_unfold; lia).
  assert (∀ a b, wide_space3 a b (code c) = false ∧ wide_space3 a (code c) b = false ∧
    wide_space2 (code c) b = false ∧ wide_space3 (code c) a b = false) as H3.
  { intros a b. unfold wide_space2, wide_space3.
    repeat match goal with |- context [bool_decide (code c = ?n)] => rewrite (bool_decide_eq_false_2 (code c = n)) by lia end.
    rewrite ?andb_false_r, ?andb_false_l, ?orb_false_r. repeat split; try done.
    rewrite (bool_decide_eq_false_2 (128 ≤ code c)) by lia. rewrite (bool_decide_eq_false_2 (code c ∈ _)) by (set_unfold; lia).
    by rewrite ?andb_false_r. }
  induction s as [s IH] using (induction_ltof1 _ String.length). unfold ltof in IH.
  destruct s as [|a s].
  { change ("" +:+ String c t) with (String c t). cbn [blank]. rewrite Hc. destruct t as [|b t]; [done|].
    destruct (H3 (code b) (code b)) as (_ & _ & -> & _). destruct t as [|d t]; [done|].
    by destruct (H3 (code b) (code d)) as (_ & _ & _ & ->). }
  rewrite string_cons_app. cbn [blank]. destruct (ascii_space (code a)); [apply IH; simpl; lia|].
  destruct s as [|b s].
  { change ("" +:+ String c t) with (String c t). cbn iota beta. rewrite H2. destruct t as [|d t]; [done|].
    by destruct (H3 (code a) (code d)) as (_ & -> & _). }
  rewrite string_cons_app. destruct (wide_space2 _ _); [apply IH; simpl; lia|].
  destruct s as [|d s].
  { change ("" +:+ String c t) with (String c t). cbn iota beta. by destruct (H3 (code a) (code b)) as (-> & _). }
  rewrite string_cons_app. destruct (wide_space3 _ _ _); [apply IH; simpl; lia|done].
Qed.
Lemma rstrip_visible s c t : ascii_space (code c) = false → code c < 128 →
  rstrip (s +:+ String c t) = s +:+ String c (rstrip t).
Proof.
  intros Hc Hlt. induction s as [|a s IH].
  - change ("" +:+ ?x) with x. rewrite rstrip_step. pose proof (blank_visible "" c t Hc Hlt) as Hb.
    change ("" +:+ ?x) with x in Hb. by rewrite Hb.
  - rewrite !string_cons_app, rstrip_step. pose proof (blank_visible (String a s) c t Hc Hlt) as Hb.
    rewrite string_cons_app in Hb. by rewrite Hb, IH.
Qed.
Lemma rstrip_prefix s : ∃ x, s = rstrip s +:+ x.
Proof.
  induction s as [|a s [x Hx]]; [by exists ""|]. rewrite rstrip_step.
  destruct (blank (String a s)); [by exists (String a s)|]. exists x. by rewrite string_cons_app, <- Hx.
Qed.
Lemma lstrip_brace s : lstrip (String "{" s) = String "{" s.
Proof. by destruct s as [|b [|c s]]. Qed.
Lemma strip_brace s : strip (String "{" s) = rstrip (String "{" s).
Proof. unfold strip. by rewrite lstrip_brace. Qed.

(* ------------------------------------------------------------------ *)
(** ** Torn lines *)

Fixpoint last_char (d : ascii) (s : string) : ascii :=
  match s with EmptyString => d | String c s' => last_char c s' end.
Lemma last_char_app d s c t : last_char d (s +:+ String c t) = last_char c t.
Proof. revert d. induction s as [|a s IH]; intros d; [done|]. rewrite string_cons_app. apply IH. Qed.
Lemma last_char_ws c r : skip_ws r = "" → last_char c r = c ∨ is_ws (last_char c r) = true.
Proof.
  revert c. induction r as [|a r IH]; intros c; [by left|]. cbn [skip_ws last_char].
  destruct (is_ws a) eqn:Ha; [|done]. intros Hr. destruct (IH a Hr) as [->|H]; by right.
Qed.

Section torn.
Context `{FT : !FloatText}.

Lemma dumps_object d : ∃ m, dumps "" (JObj d) = String "{" (m +:+ "}").
Proof. cbn [dumps]. eexists. reflexivity. Qed.

Lemma strip_object d : strip (dumps "" (JObj d)) = dumps "" (JObj d).
Proof.
  destruct (dumps_object d) as [m E]. rewrite E, strip_brace. rewrite <- string_cons_app. by apply rstrip_ends.
Qed.

(** A line cut short, decoded and stripped, is no JSON text. *)
Lemma torn_line d p u t :
  json_wf (JObj d) = true → dumps "" (JObj d) = p +:+ u → u ≠ "" → cut p t → t ≠ "" → loads (strip t) = None.
Proof.
  intros Hwf Hp Hu [->|(p' & x & -> & ->)] Hne.
  - destruct (dumps_object d) as [m E]. destruct p as [|a p]; [done|].
    assert (a = "{"%char) as -> by (rewrite E, string_cons_app in Hp; by injection Hp).
    rewrite strip_brace. destruct (rstrip_prefix (String "{" p)) as [y Hy].
    apply (torn_object "" d _ (y +:+ u)); [done|done| |by destruct y].
    by rewrite <- string_app_assoc, <- Hy.
  - destruct p' as [|a p'].
    { change ("" +:+ FFFD) with FFFD. reflexivity. }
    destruct (dumps_object d) as [m E].
    assert (a = "{"%char) as -> by (rewrite E, !string_cons_app in Hp; by injection Hp).
    rewrite string_cons_app, strip_brace, <- string_cons_app.
    change FFFD with ((String (ascii_of_nat 239) (String (ascii_of_nat 191) "")) +:+ String (ascii_of_nat 189) "").
    rewrite <- string_app_assoc, rstrip_ends by done. rewrite string_app_assoc, string_cons_app.
    destruct (loads _) as [v|] eqn:El; [|done]. exfalso.
    destruct (brace_closes _ (mk_is_Some _ _ El)) as (w & r & Hw & Hr).
    apply (f_equal (last_char "{")) in Hw. rewrite last_char_app in Hw.
    rewrite <- string_app_assoc, last_char_app in Hw. cbn [last_char] in Hw.
    destruct (last_char_ws "}" r Hr) as [Hl|Hl]; rewrite <- Hw in Hl; done.
Qed.
End torn.
