(* ===== verification/JournalProps.v ===== *)
(** * What survives a crash

    A journal file is the list of its events; recovery reads back exactly the
    events that were written completely, and what is lost is the unflushed
    tail of the text. *)

From Stdlib Require Import Ascii QArith.
From stdpp Require Import prelude strings list pretty.
From S2P Require Import Prelude PyValue PyText JsonText JsonRound JsonPrefix Journal JournalText.
Open Scope nat_scope.

(* ------------------------------------------------------------------ *)
(** ** Events *)

Inductive jevent :=
| EStart (trigger from_person session_id ts : string)
| EText (t ts : string)
| EToolStart (tool args tool_id ts : string)
| EToolEnd (tool result tool_id ts : string).

Definition id_field (tool_id : string) : list (string * string) := if str_truthy tool_id then [("tool_id", tool_id)] else [].
Definition fields (ev : jevent) : list (string * string) :=
  match ev with
  | EStart tr fr se ts => [("ev", "start"); ("trigger", tr); ("from", fr); ("session_id", se); ("ts", ts)]
  | EText t ts => [("ev", "text"); ("t", t); ("ts", ts)]
  | EToolStart tool args i ts => [("ev", "tool_start"); ("tool", tool); ("args_summary", args)] ++ id_field i ++ [("ts", ts)]
  | EToolEnd tool res i ts => [("ev", "tool_end"); ("tool", tool); ("result_summary", res)] ++ id_field i ++ [("ts", ts)]
  end.
Definition event_strings (ev : jevent) : list string :=
  match ev with
  | EStart tr fr se ts => [tr; fr; se; ts]
  | EText t ts => [t; ts]
  | EToolStart tool x i ts | EToolEnd tool x i ts => [tool; x; i; ts]
  end.
Definition good_event (ev : jevent) : Prop := Forall (λ s, line_text s = true) (event_strings ev).

Definition event_text (ev : jevent) : string := match ev with EText t _ => t | _ => "" end.
Definition log_text (log : list jevent) : string := foldr (λ ev acc, event_text ev +:+ acc) "" log.
(** What a log says about the tools. *)
Definition tool_step (calls : list dict) (ev : jevent) : list dict :=
  match ev with
  | EToolStart _ _ _ _ => calls ++ [tool_started (str_dict (fields ev))]
  | EToolEnd _ _ _ _ => tool_ended (str_dict (fields ev)) calls
  | _ => calls
  end.

Lemma log_text_snoc log ev : log_text (log ++ [ev]) = log_text log +:+ event_text ev.
Proof.
  induction log as [|e log IH]; [cbn; by rewrite string_app_nil|].
  change (log_text ((e :: log) ++ [ev])) with (event_text e +:+ log_text (log ++ [ev])).
  by rewrite IH, <- string_app_assoc.
Qed.

Lemma fields_wf ev : NoDup (fst <$> fields ev).
Proof.
  destruct ev; cbn [fields]; unfold id_field; try destruct (str_truthy _); by apply (bool_decide_unpack _).
Qed.
Lemma fields_text ev : good_event ev → dict_text (fields ev) = true.
Proof.
  unfold good_event. destruct ev as [tr fr se ts|t ts|to ar i ts|to re i ts]; cbn [event_strings fields];
    rewrite ?Forall_cons; intros H; destruct_and!; unfold id_field; try destruct (str_truthy i);
    cbn [dict_text forallb app fst snd];
    repeat match goal with H : line_text _ = true |- _ => rewrite H; clear H end; reflexivity.
Qed.

(** One event, as the recovery loop sees it. *)
Lemma scan_event ev s :
  s_parts (scan_entry (str_dict (fields ev)) s) = s_parts s ++ (if ev is EText t _ then [JStr t] else []) ∧
  s_tools (scan_entry (str_dict (fields ev)) s) = tool_step (s_tools s) ev ∧
  s_complete (scan_entry (str_dict (fields ev)) s) = s_complete s ∧
  (if ev is EStart tr fr se ts
   then s_trigger (scan_entry (str_dict (fields ev)) s) = JStr tr ∧ s_from (scan_entry (str_dict (fields ev)) s) = JStr fr ∧
        s_session (scan_entry (str_dict (fields ev)) s) = JStr se ∧ s_started (scan_entry (str_dict (fields ev)) s) = JStr ts
   else s_trigger (scan_entry (str_dict (fields ev)) s) = s_trigger s ∧ s_from (scan_entry (str_dict (fields ev)) s) = s_from s ∧
        s_session (scan_entry (str_dict (fields ev)) s) = s_session s ∧ s_started (scan_entry (str_dict (fields ev)) s) = s_started s).
Proof.
  destruct ev as [tr fr se ts|t ts|to ar i ts|to re i ts]; unfold scan_entry; cbn [fields].
  - change (dget_default "ev" (JStr "") _) with (JStr "start").
    change (dget_default "ts" (JStr "") _) with (JStr ts).
    destruct (truthy (JStr ts)); cbn; by rewrite app_nil_r.
  - change (dget_default "ev" (JStr "") _) with (JStr "text"). by destruct (truthy _).
  - change (dget_default "ev" (JStr "") _) with (JStr "tool_start").
    destruct (truthy (dget_default "ts" _ _)); cbn; by rewrite app_nil_r.
  - change (dget_default "ev" (JStr "") _) with (JStr "tool_end").
    destruct (truthy (dget_default "ts" _ _)); cbn -[tool_ended]; by rewrite app_nil_r.
Qed.

Definition scan_log (log : list jevent) (s : scan_state) : scan_state :=
  foldl (λ s ev, scan_entry (str_dict (fields ev)) s) s log.

Definition not_start (ev : jevent) : Prop := if ev is EStart _ _ _ _ then False else True.

Lemma scan_log_spec log s :
  s_parts (scan_log log s) = s_parts s ++ (JStr <$> omap (λ ev, if ev is EText t _ then Some t else None) log) ∧
  s_tools (scan_log log s) = foldl tool_step (s_tools s) log ∧
  s_complete (scan_log log s) = s_complete s ∧
  (Forall not_start log → s_trigger (scan_log log s) = s_trigger s ∧ s_from (scan_log log s) = s_from s ∧
     s_session (scan_log log s) = s_session s ∧ s_started (scan_log log s) = s_started s).
Proof.
  unfold scan_log. revert s. induction log as [|ev log IH]; intros s; cbn [foldl].
  { split_and!; [by rewrite app_nil_r|done..]. }
  destruct (IH (scan_entry (str_dict (fields ev)) s)) as (Hp & Ht & Hc & Hs).
  destruct (scan_event ev s) as (Hp' & Ht' & Hc' & Hs'). rewrite Hp, Ht, Hc, Hp', Ht', Hc'. split_and!.
  - rewrite <- app_assoc. f_equal. by destruct ev.
  - done.
  - done.
  - intros [Hev Hlog]%Forall_cons. destruct (Hs Hlog) as (-> & -> & -> & ->). by destruct ev.
Qed.

Lemma join_texts ts : join_parts (JStr <$> ts) = Ok (foldr (λ t acc, t +:+ acc) "" ts).
Proof. induction ts as [|t ts IH]; [done|]. cbn. by rewrite IH. Qed.
Lemma log_text_omap log :
  foldr (λ t acc, t +:+ acc) "" (omap (λ ev, if ev is EText t _ then Some t else None) log) = log_text log.
Proof. induction log as [|[] log IH]; cbn; [done|..]; by rewrite ?IH. Qed.

Section props.
Context `{FT : !FloatText}.

Definition line_of (ev : jevent) : string := dumps "" (JObj (str_dict (fields ev))).

Lemma line_clean ev : good_event ev → clean (line_of ev) = true.
Proof.
  intros Hg%fields_text. unfold line_of. rewrite <- (string_app_nil (dumps _ _)). by apply object_clean.
Qed.
Lemma line_good ev : good_event ev → json_wf (JObj (str_dict (fields ev))) = true ∧ utf8_valid (line_of ev) = true.
Proof.
  intros Hg%fields_text. split; [apply object_wf, fields_wf|].
  apply object_utf8; [done|by apply dict_text_utf8|apply fields_wf].
Qed.

Lemma scan_line_event ev s : good_event ev → scan_line (line_of ev) s = Ok (scan_entry (str_dict (fields ev)) s).
Proof.
  intros Hg. destruct (line_good ev Hg) as [Hwf _]. unfold scan_line, line_of. rewrite strip_object.
  rewrite bool_decide_eq_false_2 by (destruct (dumps_object (str_dict (fields ev))) as [m ->]; done).
  by rewrite loads_dumps.
Qed.

Lemma scan_lines_log log rest s : Forall good_event log →
  scan_lines ((line_of <$> log) ++ rest) s = scan_lines rest (scan_log log s).
Proof.
  intros Hlog. revert s. induction Hlog as [|ev log Hev _ IH]; intros s; [done|].
  cbn [fmap list_fmap app scan_lines]. rewrite scan_line_event by done. apply IH.
Qed.

(** What a crash leaves behind the complete lines: nothing, or a piece of the
    line being written. *)
Definition torn_tail (p : string) : Prop := p = "" ∨ ∃ ev u, good_event ev ∧ line_of ev = p +:+ u ∧ u ≠ "".

Lemma clean_prefix p u : clean (p +:+ u) = true → clean p = true.
Proof.
  induction p as [|a p IH]; [done|]. rewrite string_cons_app. cbn [clean].
  intros [Hb%bool_decide_eq_true Hp]%andb_true_iff. apply andb_true_iff. split; [|auto].
  apply bool_decide_eq_true. revert Hb. cbn [break_len].
  destruct (bool_decide (code a = 13)); [by destruct (p +:+ u) as [|b l]; [|destruct (bool_decide _)]|].
  destruct (bool_decide (code a ∈ _)); [done|].
  destruct p as [|b p]; [done|]. rewrite string_cons_app. destruct (_ && _); [done|].
  destruct p as [|c p]; [done|]. by rewrite string_cons_app.
Qed.
Lemma clean_fffd p : clean p = true → clean (p +:+ FFFD) = true.
Proof.
  induction p as [|a p IH]; [done|]. rewrite string_cons_app. cbn [clean].
  intros [Hb%bool_decide_eq_true Hp]%andb_true_iff. apply andb_true_iff. split; [|auto].
  apply bool_decide_eq_true. revert Hb. cbn [break_len].
  destruct (bool_decide (code a = 13)); [by destruct p as [|b l]; [|destruct (bool_decide _)]|].
  destruct (bool_decide (code a ∈ _)); [done|].
  destruct p as [|b p].
  { intros _. by destruct (bool_decide (code a = 194)), (bool_decide (code a = 226)). }
  rewrite string_cons_app. destruct (_ && _); [done|].
  destruct p as [|c p]; [intros _; by destruct (bool_decide (code a = 226) && bool_decide (code b = 128))|].
  by rewrite string_cons_app.
Qed.
Lemma cut_clean p t : clean p = true → cut p t → clean t = true.
Proof. intros Hp [->|(p' & x & -> & ->)]; [done|]. by apply clean_fffd, (clean_prefix p' x). Qed.

(** The tail contributes nothing. *)
Lemma scan_tail p t s : torn_tail p → cut p t →
  clean t = true ∧ scan_lines (if bool_decide (t = "") then [] else [t]) s = Ok s.
Proof.
  intros [->|(ev & u & Hg & Hl & Hu)] Hcut.
  - destruct Hcut as [->|(p' & x & Hx & ->)]; [done|]. destruct p'; [|done].
    change ("" +:+ FFFD) with FFFD. split; [done|]. by rewrite bool_decide_eq_false_2.
  - assert (clean t = true) as Hct.
    { eapply cut_clean; [|exact Hcut]. apply (clean_prefix p u). rewrite <- Hl. by apply line_clean. }
    split; [done|]. case_bool_decide as Hne; [done|].
    cbn [scan_lines]. unfold scan_line. case_bool_decide; [done|].
    by rewrite (torn_line _ p u t (proj1 (line_good ev Hg)) Hl Hu Hcut Hne).
Qed.

Lemma log_file_snoc ls l : file_text (ls ++ [l]) "" = file_text ls "" +:+ (l +:+ newline).
Proof. by rewrite file_text_snoc, <- file_text_tail. Qed.
Lemma file_text_utf8 ls : Forall (λ l, utf8_valid l = true) ls → utf8_valid (file_text ls "") = true.
Proof.
  induction 1 as [|l ls Hl _ IH]; [done|]. change (file_text (l :: ls) "") with (l +:+ String LF (file_text ls "")).
  apply utf8_app; [done|]. by rewrite utf8_ascii by (vm_compute; lia).
Qed.

(** Recovery of a file of events with a torn tail. *)
Lemma recover_events log p : Forall good_event log → torn_tail p →
  recover_text (file_text (line_of <$> log) "" +:+ p) =
  Ok {| rec_trigger := s_trigger (scan_log log scan_start); rec_from_person := s_from (scan_log log scan_start);
        rec_session_id := s_session (scan_log log scan_start); rec_started_at := s_started (scan_log log scan_start);
        rec_text := log_text log; rec_tool_calls := foldl tool_step [] log;
        rec_last_event_at := s_last (scan_log log scan_start); rec_is_complete := false |}.
Proof.
  intros Hlog Hp. unfold recover_text.
  assert (cut p (decode_replace p)) as Hcut.
  { destruct Hp as [->|(ev & u & Hg & Hl & _)]; [by left|]. apply (decode_cut p u). rewrite <- Hl. by apply line_good. }
  rewrite decode_app.
  2:{ apply file_text_utf8, Forall_fmap. eapply Forall_impl; [exact Hlog|]. intros ev Hev. by apply line_good. }
  rewrite <- file_text_tail. change ("" +:+ decode_replace p) with (decode_replace p). destruct (scan_tail p (decode_replace p) (scan_log log scan_start) Hp Hcut) as [Hct Hs].
  rewrite splitlines_file; [|apply Forall_fmap; eapply Forall_impl; [exact Hlog|]; intros ev Hev; by apply line_clean|done].
  rewrite scan_lines_log, Hs by done. cbn [mbind result_bind].
  destruct (scan_log_spec log scan_start) as (Hparts & Htools & Hc & _).
  rewrite Hparts. cbn [s_parts scan_start app]. rewrite join_texts, log_text_omap. cbn [mbind result_bind].
  by rewrite Htools, Hc.
Qed.

(* ------------------------------------------------------------------ *)
(** ** Writing *)

Inductive jop :=
| OText (e : env) (text : string)
| OToolStart (e : env) (tool args_summary tool_id : string)
| OToolEnd (e : env) (tool result_summary tool_id : string).

Definition run_jop (w : world) (o : jop) : world :=
  match o with
  | OText e t => write_text e t w
  | OToolStart e tool args i => write_tool_start e tool args i w
  | OToolEnd e tool res i => write_tool_end e tool res i w
  end.
Definition op_env (o : jop) : env := match o with OText e _ | OToolStart e _ _ _ | OToolEnd e _ _ _ => e end.
(** The text a session streamed, and the time of its last fragment. *)
Definition streamed (ops : list jop) : string := foldr (λ o acc, (if o is OText _ t then t else "") +:+ acc) "" ops.
Definition last_text_at (ops : list jop) : option Q :=
  foldl (λ t o, if o is OText e _ then Some (e_monotonic e) else t) None ops.

(** The strings that reach the file are single lines and the writes succeed. *)
Definition op_ok (o : jop) : Prop :=
  e_write_ok (op_env o) = true ∧ line_text (e_iso (op_env o)) = true ∧
  match o with
  | OText _ t => line_text t = true
  | OToolStart _ tool x i | OToolEnd _ tool x i =>
      line_text tool = true ∧ line_text (take_chars 200 x) = true ∧ line_text i = true
  end.

(** The file is a log of events, and with the buffer it accounts for all the
    text. *)
Record jcore (w : world) (log : list jevent) (written : string) : Prop := {
  ji_fd : j_fd (jobj w) = true;
  ji_live : j_finalized (jobj w) = false;
  ji_file : journal_file (jdisk w) = Some (file_text (line_of <$> log) "");
  ji_good : Forall good_event log;
  ji_text : log_text log +:+ j_buffer (jobj w) = written;
  ji_line : line_text (j_buffer (jobj w)) = true }.
(** Between calls the buffer is small and young. *)
Record jinv (w : world) (log : list jevent) (written : string) (last : option Q) : Prop := {
  ji_core : jcore w log written;
  ji_size : char_count (j_buffer (jobj w)) < FLUSH_SIZE_CHARS;
  ji_time : j_buffer (jobj w) ≠ "" → ∃ t, last = Some t ∧ Qle_bool FLUSH_INTERVAL_SEC (t - j_last_flush (jobj w)) = false }.

Lemma line_text_app s t : line_text s = true → line_text t = true → line_text (s +:+ t) = true.
Proof.
  intros Hs Ht. revert s Hs. apply (line_text_ind (λ s, line_text (s +:+ t) = true)); [done|..]; intros; rewrite !string_cons_app, line_text_step.
  - by rewrite (proj2 (Nat.ltb_lt _ _)).
  - apply in_range_bounds in H as ?. rewrite (proj2 (Nat.ltb_ge _ _)) by lia. by rewrite H, H0, H1.
  - apply lead3_bounds in H as ?. rewrite (proj2 (Nat.ltb_ge _ _)) by lia.
    destruct (in_range 194 223 (code a)) eqn:E; [apply in_range_bounds in E; lia|]. cbn [andb]. by rewrite H, H0, H1.
  - apply lead4_bounds in H as ?. rewrite (proj2 (Nat.ltb_ge _ _)) by lia.
    destruct (in_range 194 223 (code a)) eqn:E; [apply in_range_bounds in E; lia|].
    destruct (lead3 (code a) (code b)) eqn:E3; [apply lead3_bounds in E3; lia|]. cbn [andb]. by rewrite H, H0, H1.
Qed.

Ltac journal_cbn :=
  cbn [set_disk set_obj set_journal_file jobj jdisk j_fd j_buffer j_last_flush j_finalized journal_file].

(** An event appended to the file. *)
Lemma write_event_core e w log written ev event :
  jcore w log written → e_write_ok e = true → event_line (e_iso e) event = line_of ev +:+ newline →
  good_event ev → event_text ev = "" → jcore (_write_event e event w) (log ++ [ev]) written.
Proof.
  intros [Hfd Hlive Hfile Hgood Htext Hline] Hok Hev Hg Hemp. unfold _write_event. rewrite Hfd, Hok, Hfile. cbn [negb].
  split; journal_cbn; try done.
  - rewrite fmap_app. change (line_of <$> [ev]) with [line_of ev]. by rewrite log_file_snoc, Hev.
  - apply Forall_app. split; [done|]. by apply Forall_singleton.
  - by rewrite log_text_snoc, Hemp, string_app_nil.
Qed.
Lemma write_event_obj e event w : jobj (_write_event e event w) = jobj w.
Proof. unfold _write_event. by destruct (j_fd (jobj w)), (e_write_ok e). Qed.

Lemma flush_core e w log written :
  jcore w log written → e_write_ok e = true → line_text (e_iso e) = true →
  ∃ more, jcore (_flush_buffer e w) (log ++ more) written ∧ Forall not_start more ∧ j_buffer (jobj (_flush_buffer e w)) = "".
Proof.
  intros Hinv Hok Hiso. unfold _flush_buffer.
  case_bool_decide as Hb; [exists []; by rewrite app_nil_r|].
  destruct Hinv as [Hfd Hlive Hfile Hgood Htext Hline].
  rewrite Hfd. cbn [orb negb]. exists [EText (j_buffer (jobj w)) (e_iso e)]. split; [|split; [by repeat constructor|done]].
  unfold _write_event. rewrite Hfd, Hok, Hfile. cbn [negb].
  split; journal_cbn; try done.
  - rewrite fmap_app. change (line_of <$> [EText (j_buffer (jobj w)) (e_iso e)]) with [line_of (EText (j_buffer (jobj w)) (e_iso e))].
    rewrite log_file_snoc. reflexivity.
  - apply Forall_app. split; [done|]. apply Forall_singleton. by repeat constructor.
  - by rewrite log_text_snoc, string_app_nil.
Qed.

Lemma empty_buffer_inv w log written last : jcore w log written → j_buffer (jobj w) = "" → jinv w log written last.
Proof. intros Hc Hb. split; [done|rewrite Hb; vm_compute; lia|by rewrite Hb]. Qed.

(** A tool event is written behind the flushed text. *)
Lemma tool_event_inv e w log written last ev event :
  jcore w log written → e_write_ok e = true → line_text (e_iso e) = true →
  event_line (e_iso e) event = line_of ev +:+ newline → good_event ev → event_text ev = "" → not_start ev →
  ∃ more, jinv (_write_event e event (_flush_buffer e w)) (log ++ more) written last ∧ Forall not_start more.
Proof.
  intros Hc Hok Hiso Hev Hg Ht Hns. destruct (flush_core e w log written Hc Hok Hiso) as (more & Hc' & Hm & Hb).
  exists (more ++ [ev]). rewrite app_assoc. split.
  - apply empty_buffer_inv; [by apply write_event_core|]. by rewrite write_event_obj.
  - apply Forall_app. split; [done|]. by apply Forall_singleton.
Qed.

Lemma run_jop_inv w log written last o :
  jinv w log written last → op_ok o →
  ∃ more, jinv (run_jop w o) (log ++ more) (written +:+ (if o is OText _ t then t else ""))
            (if o is OText e _ then Some (e_monotonic e) else last) ∧ Forall not_start more.
Proof.
  intros [Hc Hsize Htime] (Hok & Hiso & Ho).
  assert (inactive w = false) as Hact by (unfold inactive; by rewrite (ji_fd _ _ _ Hc), (ji_live _ _ _ Hc)).
  destruct o as [e t|e tool x i|e tool x i]; cbn [op_env] in *; cbn [run_jop].
  - unfold write_text. rewrite Hact. set (w1 := set_obj _ w).
    assert (jcore w1 log (written +:+ t)) as Hc1.
    { destruct Hc as [Hfd Hlive Hfile Hgood Htext Hline]. split; unfold w1; journal_cbn; try done.
      - by rewrite <- Htext, string_app_assoc.
      - by apply line_text_app. }
    destruct (_ || _) eqn:Hflush.
    + destruct (flush_core e w1 log _ Hc1 Hok Hiso) as (more & Hc' & Hm & Hb). exists more. split; [|done].
      by apply empty_buffer_inv.
    + apply orb_false_iff in Hflush as [Hn%Nat.leb_gt Hq]. exists []. rewrite app_nil_r. split; [|done].
      split; [done|exact Hn|]. intros _. by exists (e_monotonic e).
  - rewrite string_app_nil. unfold write_tool_start. rewrite Hact. destruct Ho as (Htool & Hx & Hi).
    apply (tool_event_inv e w log written last (EToolStart tool (take_chars 200 x) i (e_iso e))); try done.
    + unfold tool_id_field, line_of. cbn [fields]. unfold id_field. by destruct (str_truthy i).
    + by repeat constructor.
  - rewrite string_app_nil. unfold write_tool_end. rewrite Hact. destruct Ho as (Htool & Hx & Hi).
    apply (tool_event_inv e w log written last (EToolEnd tool (take_chars 200 x) i (e_iso e))); try done.
    + unfold tool_id_field, line_of. cbn [fields]. unfold id_field. by destruct (str_truthy i).
    + by repeat constructor.
Qed.

Lemma run_jops_inv ops w log written last :
  jinv w log written last → Forall op_ok ops →
  ∃ more, jinv (foldl run_jop w ops) (log ++ more) (written +:+ streamed ops)
            (foldl (λ t o, if o is OText e _ then Some (e_monotonic e) else t) last ops) ∧ Forall not_start more.
Proof.
  intros Hinv Hops. revert w log written last Hinv. induction Hops as [|o ops Ho _ IH]; intros w log written last Hinv.
  { exists []. rewrite app_nil_r. split; [|done]. cbn [foldl streamed foldr]. by rewrite string_app_nil. }
  destruct (run_jop_inv w log written last o Hinv Ho) as (more & Hinv' & Hm).
  destruct (IH _ _ _ _ Hinv') as (more' & Hinv'' & Hm'). exists (more ++ more').
  change (streamed (o :: ops)) with ((if o is OText _ t then t else "") +:+ streamed ops).
  rewrite <- string_app_assoc, app_assoc. split; [exact Hinv''|]. apply Forall_app. by split.
Qed.

Lemma open_fresh e old tr fr se o d :
  journal_file d = None → e_open_ok e = true → e_write_ok e = true →
  Forall (λ s, line_text s = true) [tr; fr; se; e_iso e] →
  val_of (open e old tr fr se {| jobj := o; jdisk := d |}) = Ok tt ∧
  jinv (state_of (open e old tr fr se {| jobj := o; jdisk := d |})) [EStart tr fr se (e_iso e)] "" None.
Proof.
  intros Hd Ho Hw Hs. unfold open. run_unfold. cbn [jdisk]. rewrite Hd. unfold mret, M_ret. rewrite Ho. cbn [negb].
  split; [done|]. apply empty_buffer_inv; [|unfold _write_event; cbn [jobj j_fd negb]; by rewrite Hw].
  unfold _write_event. cbn [jobj jdisk j_fd negb set_journal_file journal_file]. rewrite Hw. cbn [negb].
  split; journal_cbn; try done. by apply Forall_singleton.
Qed.


Definition text_head : string :=
  String "{" (dumps_str "ev" +:+ ":" +:+ dumps_str "text" +:+ "," +:+ dumps_str "t" +:+ ":" +:+ String QUOTE "").
Definition text_tail (ts : string) : string :=
  String QUOTE ("," +:+ dumps_str "ts" +:+ ":" +:+ dumps_str ts +:+ "}").
Lemma text_line s ts : line_of (EText s ts) = text_head +:+ escape_all s +:+ text_tail ts.
Proof.
  change (line_of (EText s ts)) with
    (text_head +:+ ((escape_all s +:+ String QUOTE "") +:+ "," +:+ dumps_str "ts" +:+ ":" +:+ dumps_str ts) +:+ "}").
  by rewrite !string_app_assoc.
Qed.

Lemma text_tail_corrupt ts s : scan_line (text_tail ts) s = Ok s.
Proof.
  assert (strip (text_tail ts) = text_tail ts) as Hs.
  { unfold strip. assert (lstrip (text_tail ts) = text_tail ts) as -> by done. unfold text_tail.
    rewrite <- !string_app_assoc, <- string_cons_app. by apply rstrip_ends. }
  unfold scan_line. rewrite Hs. rewrite bool_decide_eq_false_2 by done.
  assert (loads (text_tail ts) = None) as ->; [|done]. reflexivity.
Qed.

Lemma separator_line a ts : line_of (EText (a +:+ LINE_SEPARATOR) ts) =
  (text_head +:+ escape_all a) +:+ LINE_SEPARATOR +:+ text_tail ts.
Proof. rewrite text_line, escape_all_app. by rewrite !string_app_assoc. Qed.

Lemma text_head_corrupt a (ts : string) s : scan_line (text_head +:+ escape_all a) s = Ok s.
Proof.
  unfold scan_line. case_bool_decide; [done|].
  rewrite (torn_line (str_dict (fields (EText (a +:+ LINE_SEPARATOR) ts)))
    (text_head +:+ escape_all a) (LINE_SEPARATOR +:+ text_tail ts) (text_head +:+ escape_all a));
    [done|apply object_wf, fields_wf|apply separator_line|done|by left|done].
Qed.

Lemma separator_split ev a ts : good_event ev → line_text a = true → line_text ts = true →
  splitlines (file_text [line_of ev; line_of (EText (a +:+ LINE_SEPARATOR) ts)] "") =
    [line_of ev; text_head +:+ escape_all a; text_tail ts].
Proof.
  intros Hg Ha Hts.
  assert (clean (text_head +:+ escape_all a) = true) as Hl1.
  { rewrite clean_printable by done. rewrite <- (string_app_nil (escape_all a)). by apply escape_all_clean. }
  assert (clean (text_tail ts) = true) as Hl2.
  { unfold text_tail. rewrite clean_cons by (by apply (bool_decide_unpack _)).
    do 3 rewrite clean_printable by done. by apply dumps_str_clean. }
  unfold splitlines. change (file_text [?x; ?y] "") with (x +:+ String LF (y +:+ String LF "")).
  rewrite split_line by (by apply line_clean).
  rewrite separator_line, !(string_app_assoc (text_head +:+ escape_all a)), (string_app_assoc LINE_SEPARATOR).
  rewrite split_separator, split_line by done. done.
Qed.

Lemma separator_utf8 a ts : line_text a = true → line_text ts = true →
  utf8_valid (line_of (EText (a +:+ LINE_SEPARATOR) ts)) = true.
Proof.
  intros Ha%line_text_utf8 Hts%line_text_utf8. apply object_utf8; [done| |apply fields_wf].
  assert (utf8_valid (a +:+ LINE_SEPARATOR) = true) as Has by (by apply utf8_app).
  cbn [fields forallb fst snd]. by rewrite Has, Hts.
Qed.

(** A flushed text that ends in a line separator (U+2028) is not
    recovered: JSON leaves the separator in the line, the reader breaks the
    line there and skips both halves as corrupt. *)
Theorem line_separator_loses_text tr fr se ts a ts' :
  good_event (EStart tr fr se ts) → line_text a = true → line_text ts' = true →
  ∃ r, recover_text (file_text [line_of (EStart tr fr se ts); line_of (EText (a +:+ LINE_SEPARATOR) ts')] "") = Ok r ∧
    rec_trigger r = JStr tr ∧ rec_text r = "".
Proof.
  intros Hg Ha Hts. unfold recover_text. rewrite <- (string_app_nil (file_text _ "")), decode_app, string_app_nil.
  2:{ apply file_text_utf8. apply Forall_cons. split; [by apply line_good|]. by apply Forall_singleton, separator_utf8. }
  rewrite separator_split by done. cbn [scan_lines]. rewrite scan_line_event by done. cbn [mbind result_bind].
  destruct (scan_event (EStart tr fr se ts) scan_start) as (Hp & _ & _ & Ht & _).
  set (s1 := scan_entry _ _) in *. clearbody s1.
  rewrite (text_head_corrupt a ts'). cbn [mbind result_bind]. rewrite text_tail_corrupt. cbn [mbind result_bind].
  rewrite Hp. cbn [app scan_start s_parts join_parts mbind result_bind].
  eexists. split; [reflexivity|]. cbn [rec_trigger rec_text]. split; [exact Ht|reflexivity].
Qed.
End props.
