(* ===== verification/JournalWitnesses.v ===== *)
(** * Witnesses for the streaming journal

    A session that streams text around a tool call and crashes while a line is
    being written, in the middle of a character. *)

From Stdlib Require Import Ascii QArith.
From stdpp Require Import prelude strings list pretty.
From S2P Require Import Prelude PyValue PyText JsonText JsonRound JsonPrefix Journal JournalText JournalProps IpcWitnesses.
Open Scope nat_scope.

Definition at_time (t : Q) : env :=
  {| e_monotonic := t; e_iso := "2026-08-07T10:00:00+09:00"; e_date := "2026-08-07"; e_hhmmss := "100000";
     e_open_ok := true; e_write_ok := true; e_unlink_ok := true |}.
Definition empty_disk : disk := {| journal_file := None; legacy_file := None; episodes := [] |}.
Definition session_ops : list jop :=
  [ OText (at_time (1 # 2)) "Looking it up. "; OToolStart (at_time 1) "read_file" "notes.md" "call-1";
    OToolEnd (at_time (5 # 4)) "read_file" "42 lines" "call-1"; OText (at_time (3 # 2)) "Done: " ].
Definition journal_start : world := state_of (open (at_time 0) true "chat" "taka" "s1" {| jobj := new_journal; jdisk := empty_disk |}).
Definition crashed : world := foldl run_jop journal_start session_ops.
Definition crash_file : string := from_option id "" (journal_file (jdisk crashed)).

(** A three-byte character, and the line that was being written, cut after its
    second byte. *)
Definition wide_char : string := String (ascii_of_nat 228) (String (ascii_of_nat 184) (String (ascii_of_nat 150) "")).
Definition unwritten : jevent := EText wide_char "2026-08-07T10:00:03+09:00".
Definition torn : string := String.substring 0 20 (line_of unwritten).
Definition rest_of_line : string := String.substring 20 (String.length (line_of unwritten)) (line_of unwritten).


Lemma line_separator_loses_text_witness :
  ∃ r, recover_text (file_text [line_of (EStart "chat" "taka" "s1" "t0"); line_of (EText ("kept?" +:+ LINE_SEPARATOR) "t1")] "") = Ok r ∧
    rec_text r = "".
Proof.
  destruct (line_separator_loses_text "chat" "taka" "s1" "t0" "kept?" "t1") as (r & Hr & _ & Ht).
  - by repeat constructor.
  - reflexivity.
  - reflexivity.
  - exists r. split; [exact Hr|exact Ht].
Defined.
