(* ===== verification/Sql.v ===== *)
(** * Tables

    The SQLite tables of the task database as lists of rows in rowid order,
    with the statements the code issues: keyed and filtered [SELECT],
    [UPDATE ... WHERE], [INSERT] under a primary key, [INSERT OR IGNORE] and
    [INSERT ... ON CONFLICT DO UPDATE].  The key function of a table is its
    primary key; [unique] is the constraint SQLite enforces. *)

From stdpp Require Import prelude strings list.
From S2P Require Import Prelude.

(** [UPDATE t SET ... WHERE p]. *)
Definition update_where {R} (p : R → bool) (f : R → R) (t : list R) : list R :=
  (λ r, if p r then f r else r) <$> t.

Lemma elem_of_update_where {R} (p : R → bool) f t r :
  r ∈ update_where p f t ↔ ∃ r0, r0 ∈ t ∧ r = if p r0 then f r0 else r0.
Proof. unfold update_where. rewrite list_elem_of_fmap. naive_solver. Qed.

Section table.
Context {K R : Type} `{EqDecision K} (key : R → K).
Implicit Types (t : list R) (k : K) (r : R).

(** [SELECT * FROM t WHERE key=k], [fetchone()]. *)
Fixpoint select_key k t : option R :=
match t with
| [] => None
| r :: t' => if bool_decide (key r = k) then Some r else select_key k t'
end.

(** [UPDATE t SET ... WHERE key=k]. *)
Definition update_key k (f : R → R) t : list R :=
update_where (λ r, bool_decide (key r = k)) f t.

(** [INSERT INTO t VALUES r]: [None] is the violation of the primary key. *)
Definition insert_row r t : option (list R) :=
match select_key (key r) t with Some _ => None | None => Some (t ++ [r]) end.

(** [INSERT OR IGNORE INTO t VALUES r]. *)
Definition insert_or_ignore r t : list R :=
match select_key (key r) t with Some _ => t | None => t ++ [r] end.

(** [INSERT INTO t VALUES r ON CONFLICT(key) DO UPDATE SET f]. *)
Definition upsert r (f : R → R) t : list R :=
match select_key (key r) t with Some _ => update_key (key r) f t | None => t ++ [r] end.

Definition unique t : Prop := NoDup (key <$> t).

(* -------------------------------------------------------------- *)

Lemma select_key_Some k t r : select_key k t = Some r → r ∈ t ∧ key r = k.
Proof.
induction t as [|x t IH]; simpl; [done|].
case_bool_decide; intros; simplify_eq.
- split; [left|done].
- destruct IH; [done|]. split; [by right|done].
Qed.

Lemma select_key_None k t : select_key k t = None ↔ k ∉ key <$> t.
Proof.
induction t as [|x t IH]; simpl; [split; [by intros _ ?%not_elem_of_nil|done]|].
rewrite not_elem_of_cons. case_bool_decide; naive_solver.
Qed.

Lemma select_key_elem t r : unique t → r ∈ t → select_key (key r) t = Some r.
Proof.
unfold unique. induction t as [|x t IH]; simpl; [by intros _ ?%not_elem_of_nil|].
rewrite NoDup_cons, elem_of_cons. intros [Hx Ht] [->|Hr].
- by case_bool_decide.
- case_bool_decide as Hk; [|by apply IH].
  exfalso. apply Hx. rewrite Hk. by apply list_elem_of_fmap_2.
Qed.

Lemma select_key_spec t k r : unique t → select_key k t = Some r ↔ r ∈ t ∧ key r = k.
Proof.
intros Hu. split; [apply select_key_Some|].
intros [Hr <-]. by apply select_key_elem.
Qed.

Lemma elem_of_update_key k f t r :
r ∈ update_key k f t ↔
  ∃ r0, r0 ∈ t ∧ ((key r0 = k ∧ r = f r0) ∨ (key r0 ≠ k ∧ r = r0)).
Proof.
unfold update_key. rewrite elem_of_update_where.
split; intros (r0 & Hr0 & H); exists r0; (split; [done|]).
- case_bool_decide; auto.
- destruct H as [[? ->]|[? ->]]; by case_bool_decide.
Qed.

Lemma update_where_keys p f t :
(∀ r, r ∈ t → p r = true → key (f r) = key r) → key <$> update_where p f t = key <$> t.
Proof.
induction t as [|r t IH]; intros H; [done|].
unfold update_where in *. simpl. f_equal.
- destruct (p r) eqn:E; [apply H; [left|done]|done].
- apply IH. intros r' ?. apply H. by right.
Qed.

Lemma update_key_keys k f t :
(∀ r, r ∈ t → key r = k → key (f r) = k) → key <$> update_key k f t = key <$> t.
Proof.
intros H. apply update_where_keys. intros r Hr Hk%bool_decide_eq_true.
rewrite Hk. by apply H.
Qed.

Lemma update_where_unique p f t :
(∀ r, r ∈ t → p r = true → key (f r) = key r) → unique t → unique (update_where p f t).
Proof. intros H. unfold unique. by rewrite update_where_keys. Qed.

Lemma update_key_unique k f t :
(∀ r, r ∈ t → key r = k → key (f r) = k) → unique t → unique (update_key k f t).
Proof. intros H. unfold unique. by rewrite update_key_keys. Qed.

Lemma select_update_key k k' f t :
(∀ r, key r = k → key (f r) = k) →
select_key k' (update_key k f t) =
  if decide (k' = k) then f <$> select_key k' t else select_key k' t.
Proof.
intros H. induction t as [|r t IH]; simpl; [by case_decide|].
unfold update_key, update_where in *. simpl.
destruct (decide (key r = k)) as [Hk|Hk].
- rewrite (bool_decide_eq_true_2 (key r = k)), (H r Hk), Hk by done.
  destruct (decide (k = k')) as [->|]; [rewrite decide_True, !bool_decide_eq_true_2; done|].
  rewrite decide_False, !bool_decide_eq_false_2 by congruence.
  rewrite IH. by rewrite decide_False by congruence.
- rewrite (bool_decide_eq_false_2 (key r = k)) by done.
  destruct (decide (key r = k')) as [<-|].
  + rewrite decide_False, !bool_decide_eq_true_2; done.
  + rewrite !bool_decide_eq_false_2 by done. done.
Qed.

Lemma select_app k t1 t2 :
select_key k (t1 ++ t2) =
  match select_key k t1 with Some r => Some r | None => select_key k t2 end.
Proof. induction t1 as [|r t1 IH]; simpl; [done|]. by case_bool_decide. Qed.

Lemma insert_row_Some r t t' :
insert_row r t = Some t' → t' = t ++ [r] ∧ key r ∉ key <$> t.
Proof.
unfold insert_row. destruct (select_key (key r) t) eqn:E; [done|].
intros; simplify_eq. by apply select_key_None in E.
Qed.

Lemma unique_snoc r t : key r ∉ key <$> t → unique t → unique (t ++ [r]).
Proof.
unfold unique. intros Hr Ht. rewrite fmap_app. apply NoDup_app.
split_and!; [done| |apply NoDup_singleton]. simpl. set_solver.
Qed.

Lemma insert_row_unique r t t' : insert_row r t = Some t' → unique t → unique t'.
Proof. intros [-> ?]%insert_row_Some. by apply unique_snoc. Qed.

Lemma insert_or_ignore_unique r t : unique t → unique (insert_or_ignore r t).
Proof.
intros Ht. unfold insert_or_ignore.
destruct (select_key (key r) t) eqn:E; [done|].
apply unique_snoc; [by apply select_key_None|done].
Qed.

Lemma upsert_unique r f t :
(∀ r', key r' = key r → key (f r') = key r) → unique t → unique (upsert r f t).
Proof.
intros Hf Ht. unfold upsert. destruct (select_key (key r) t) eqn:E.
- apply update_key_unique; auto.
- apply unique_snoc; [by apply select_key_None|done].
Qed.

Lemma select_upsert r f t k :
(∀ r', key r' = key r → key (f r') = key r) →
select_key k (upsert r f t) =
  if decide (k = key r)
  then Some (match select_key (key r) t with Some r' => f r' | None => r end)
  else select_key k t.
Proof.
intros Hf. unfold upsert. destruct (select_key (key r) t) as [r'|] eqn:E.
- rewrite select_update_key by done. case_decide; [subst; by rewrite E|done].
- rewrite select_app. simpl. case_decide; subst.
  + rewrite E. by rewrite bool_decide_eq_true_2.
  + rewrite bool_decide_eq_false_2 by congruence.
    by destruct (select_key k t).
Qed.

Lemma elem_of_insert_or_ignore r t r' :
r' ∈ insert_or_ignore r t → r' ∈ t ∨ (r' = r ∧ select_key (key r) t = None).
Proof.
unfold insert_or_ignore. destruct (select_key (key r) t) eqn:E; [auto|]. set_solver.
Qed.

Lemma elem_of_upsert r f t r' :
r' ∈ upsert r f t →
  (r' = r ∧ select_key (key r) t = None) ∨
  (∃ r0, r0 ∈ t ∧ ((key r0 = key r ∧ r' = f r0) ∨ (key r0 ≠ key r ∧ r' = r0))).
Proof.
unfold upsert. destruct (select_key (key r) t) eqn:E.
- rewrite elem_of_update_key. auto.
- rewrite elem_of_app, list_elem_of_singleton. intros [?| ->]; [|auto].
  right. exists r'. split; [done|]. right. split; [|done].
  apply select_key_None in E. intros Heq. apply E. rewrite <- Heq.
  by apply list_elem_of_fmap_2.
Qed.

(** Counting rows after a keyed update that makes one row qualify. *)
Lemma count_update_key (P : R → Prop) `{!∀ r, Decision (P r)} k f t r :
unique t → select_key k t = Some r → ¬ P r → P (f r) →
length (filter P (update_key k f t)) = S (length (filter P t)).
Proof.
intros Hu Hs Hr Hfr. unfold unique in Hu.
induction t as [|x t IH]; simpl in *; [done|].
apply NoDup_cons in Hu as [Hx Hu]. unfold update_key, update_where in *. csimpl.
case_bool_decide as Hk; simplify_eq.
- rewrite !filter_cons, decide_True, decide_False by done. simpl. do 2 f_equal.
  clear IH. induction t as [|y t IH]; [done|]. csimpl in *. apply not_elem_of_cons in Hx as [Hxy Hx].
  apply NoDup_cons in Hu as [_ Hu]. rewrite bool_decide_eq_false_2 by done.
  rewrite !filter_cons, IH by done. done.
- rewrite !filter_cons. case_decide; simpl; by rewrite IH.
Qed.
End table.

(** Keys stay distinct among the rows a filter keeps. *)
Lemma NoDup_filter_key {R K1 K2} (key1 : R → K1) (key2 : R → K2)
    (P : R → Prop) `{!∀ r, Decision (P r)} (t : list R) :
  (∀ r r', r ∈ t → r' ∈ t → P r → P r' → key1 r = key1 r' → key2 r = key2 r') →
  unique key2 t → NoDup (key1 <$> filter P t).
Proof.
  intros Hk Hu. induction t as [|r t IH]; [apply NoDup_nil_2|]. unfold unique in Hu. rewrite fmap_cons in Hu.
  apply NoDup_cons in Hu as [Hr Hu].
  assert (NoDup (key1 <$> filter P t)) as IH'.
  { apply IH; [|done]. intros ? ? ? ?. apply Hk; by right. }
  rewrite filter_cons. case_decide as HP; [|done]. rewrite fmap_cons. apply NoDup_cons. split; [|done].
  intros (r' & Heq & [HP' Hr']%list_elem_of_filter)%list_elem_of_fmap. apply Hr.
  rewrite (Hk r r'); [by apply list_elem_of_fmap_2|left|by right|done..].
Qed.

#[export] Hint Resolve insert_or_ignore_unique : core.
