(* ===== verification/TaskModels.v ===== *)
(** * Data of the task system

    The records behind [core/schemas.py] (TaskEntry), [core/taskboard/models.py]
    (TaskBoard metadata) and the SQLite schemas of [core/taskboard/tasks.py]
    and [core/taskboard/store.py], and the state a task operation runs in: the
    database, the thread-local connection of [TaskStore], the execution
    identity of the process, and the readings of the clock and of [uuid4]. *)

From stdpp Require Import prelude strings list.
From Stdlib Require Import QArith.
From S2P Require Import Prelude PyValue Sql.

(* ------------------------------------------------------------------ *)
(** ** Task entries *)

Inductive task_source := SrcHuman | SrcAnima.

#[global] Instance task_source_eq_dec : EqDecision task_source.
Proof. solve_decision. Defined.

Record TaskEntry := mk_entry {
  task_id : string;
  ts : string;
  source : task_source;
  original_instruction : string;
  assignee : string;
  status : string;
  summary : string;
  relay_chain : list string;
  updated_at : string;
  meta : dict
}.

Definition set_task_id (v : string) (e : TaskEntry) : TaskEntry :=
  mk_entry v (ts e) (source e) (original_instruction e) (assignee e) (status e)
    (summary e) (relay_chain e) (updated_at e) (meta e).
Definition set_status (v : string) (e : TaskEntry) : TaskEntry :=
  mk_entry (task_id e) (ts e) (source e) (original_instruction e) (assignee e) v
    (summary e) (relay_chain e) (updated_at e) (meta e).
Definition set_summary (v : string) (e : TaskEntry) : TaskEntry :=
  mk_entry (task_id e) (ts e) (source e) (original_instruction e) (assignee e) (status e)
    v (relay_chain e) (updated_at e) (meta e).
Definition set_updated_at (v : string) (e : TaskEntry) : TaskEntry :=
  mk_entry (task_id e) (ts e) (source e) (original_instruction e) (assignee e) (status e)
    (summary e) (relay_chain e) v (meta e).
Definition set_meta (v : dict) (e : TaskEntry) : TaskEntry :=
  mk_entry (task_id e) (ts e) (source e) (original_instruction e) (assignee e) (status e)
    (summary e) (relay_chain e) (updated_at e) v.

(** The events [TaskStore.apply] merges: a full entry, or a partial update
    (the dictionaries the queue manager builds, [_event="update"]). *)
Inductive task_event :=
| EvEntry (e : TaskEntry)
| EvUpdate (id : string) (new_status new_summary new_updated_at : option string)
    (meta_patch : option dict).

Definition event_task_id (ev : task_event) : string :=
  match ev with EvEntry e => task_id e | EvUpdate id _ _ _ _ => id end.

(* ------------------------------------------------------------------ *)
(** ** The task tables *)

(** [tasks].  [row_current] is the fencing token of the running attempt; the
    column holds NULL or a [uuid4().hex], so its truth test is [is_Some]. *)
Record task_row := mk_task {
  row_anima : string;
  row_task_id : string;
  row_entry : TaskEntry;
  row_input : option dict;
  row_ready : bool;
  row_current : option string;
  row_archived : bool
}.
Definition task_key (r : task_row) : string * string := (row_anima r, row_task_id r).

Definition set_row_entry (v : TaskEntry) (r : task_row) : task_row :=
  mk_task (row_anima r) (row_task_id r) v (row_input r) (row_ready r) (row_current r)
    (row_archived r).
Definition set_row_input (v : option dict) (r : task_row) : task_row :=
  mk_task (row_anima r) (row_task_id r) (row_entry r) v (row_ready r) (row_current r)
    (row_archived r).
Definition set_row_ready (v : bool) (r : task_row) : task_row :=
  mk_task (row_anima r) (row_task_id r) (row_entry r) (row_input r) v (row_current r)
    (row_archived r).
Definition set_row_current (v : option string) (r : task_row) : task_row :=
  mk_task (row_anima r) (row_task_id r) (row_entry r) (row_input r) (row_ready r) v
    (row_archived r).
Definition set_row_archived (v : bool) (r : task_row) : task_row :=
  mk_task (row_anima r) (row_task_id r) (row_entry r) (row_input r) (row_ready r)
    (row_current r) v.

(** [task_attempts]. *)
Record attempt_row := mk_attempt {
  att_token : string;
  att_anima : string;
  att_task_id : string;
  att_number : nat;
  att_identity : dict;
  att_started_at : string;
  att_ended_at : option string;
  att_stop_kind : option string;
  att_result_ref : option string
}.
Definition attempt_task (a : attempt_row) : string * string := (att_anima a, att_task_id a).
Definition attempt_live (a : attempt_row) : bool :=
  match att_ended_at a with None => true | Some _ => false end.

Definition end_attempt (at_ : string) (stop_kind result_ref : string) (a : attempt_row) :
    attempt_row :=
  mk_attempt (att_token a) (att_anima a) (att_task_id a) (att_number a) (att_identity a)
    (att_started_at a) (Some at_) (Some stop_kind) (Some result_ref).
Definition set_att_identity (v : dict) (a : attempt_row) : attempt_row :=
  mk_attempt (att_token a) (att_anima a) (att_task_id a) (att_number a) v
    (att_started_at a) (att_ended_at a) (att_stop_kind a) (att_result_ref a).

(** [task_aliases]: [viewer] tracks task [task_id] of [anima] as [alias]. *)
Record alias_row := mk_alias {
  al_viewer : string;
  al_alias : string;
  al_anima : string;
  al_task_id : string
}.
Definition alias_key (r : alias_row) : string * string := (al_viewer r, al_alias r).

(** [task_imports]. *)
Record import_row := mk_import {
  imp_anima : string;
  imp_at : string;
  imp_source_path : string;
  imp_report : dict
}.

(** [task_wakeups]. *)
Record wakeup_row := mk_wakeup {
  wk_anima : string;
  wk_task_id : string;
  wk_token : string;
  wk_reason : string;
  wk_created_at : string;
  wk_acknowledged_at : option string
}.
Definition wakeup_key (r : wakeup_row) : string * string * string :=
  (wk_anima r, wk_task_id r, wk_token r).
Definition acknowledge (at_ : string) (r : wakeup_row) : wakeup_row :=
  mk_wakeup (wk_anima r) (wk_task_id r) (wk_token r) (wk_reason r) (wk_created_at r) (Some at_).

(** [task_claim_control]. *)
Record claim_control := mk_control { cc_anima : string; cc_paused : bool }.

Record db := mk_db {
  tasks : list task_row;
  task_attempts : list attempt_row;
  task_aliases : list alias_row;
  task_imports : list import_row;
  task_wakeups : list wakeup_row;
  task_claim_control : list claim_control
}.

Definition empty_db : db := mk_db [] [] [] [] [] [].

Definition set_tasks (v : list task_row) (d : db) : db :=
  mk_db v (task_attempts d) (task_aliases d) (task_imports d) (task_wakeups d)
    (task_claim_control d).
Definition set_attempts (v : list attempt_row) (d : db) : db :=
  mk_db (tasks d) v (task_aliases d) (task_imports d) (task_wakeups d)
    (task_claim_control d).
Definition set_aliases (v : list alias_row) (d : db) : db :=
  mk_db (tasks d) (task_attempts d) v (task_imports d) (task_wakeups d)
    (task_claim_control d).
Definition set_imports (v : list import_row) (d : db) : db :=
  mk_db (tasks d) (task_attempts d) (task_aliases d) v (task_wakeups d)
    (task_claim_control d).
Definition set_wakeups (v : list wakeup_row) (d : db) : db :=
  mk_db (tasks d) (task_attempts d) (task_aliases d) (task_imports d) v
    (task_claim_control d).
Definition set_control (v : list claim_control) (d : db) : db :=
  mk_db (tasks d) (task_attempts d) (task_aliases d) (task_imports d) (task_wakeups d) v.

(* ------------------------------------------------------------------ *)
(** ** TaskBoard metadata *)

Inductive AttentionVisibility := ACTIVE | SNOOZED | EXPIRED | ARCHIVED | TOMBSTONED.
Inductive BoardColumn := TODO | RUNNING | BLOCKED | WAITING | REVIEW | DONE | SUPPRESSED.

#[global] Instance visibility_eq_dec : EqDecision AttentionVisibility.
Proof. solve_decision. Defined.
#[global] Instance column_eq_dec : EqDecision BoardColumn.
Proof. solve_decision. Defined.

Definition visibility_value (v : AttentionVisibility) : string :=
  match v with
  | ACTIVE => "active" | SNOOZED => "snoozed" | EXPIRED => "expired"
  | ARCHIVED => "archived" | TOMBSTONED => "tombstoned"
  end.

Record TaskBoardMetadata := mk_metadata {
  md_anima_name : string;
  md_task_id : string;
  md_visibility : AttentionVisibility;
  md_column : option BoardColumn;
  md_position : option Q;
  md_expires_at : option string;
  md_snoozed_until : option string;
  md_last_notified_at : option string;
  md_notification_key : option string;
  md_surface_count : nat;
  md_source_ref : option string;
  md_replaced_by : option string;
  md_tombstone_reason : option string;
  md_updated_at : string;
  md_updated_by : string
}.
Definition metadata_key (m : TaskBoardMetadata) : string * string :=
  (md_anima_name m, md_task_id m).

(** [taskboard_events]. *)
Record board_event := mk_board_event {
  be_id : nat;
  be_ts : string;
  be_actor : string;
  be_event_type : string;
  be_anima_name : string;
  be_task_id : string;
  be_payload : dict
}.

Record board := mk_board {
  taskboard_metadata : list TaskBoardMetadata;
  taskboard_events : list board_event;
  (** the AUTOINCREMENT sequence of [taskboard_events.id] *)
  events_seq : nat
}.

Definition empty_board : board := mk_board [] [] 0.

(* ------------------------------------------------------------------ *)
(** ** The state of a task operation *)

(** The execution identity of a process working on an attempt. *)
Record attempt_identity := mk_identity {
  id_anima : string;
  id_task_id : string;
  id_token : string
}.

(** The environment variable ANIMAWORKS_TASK_IDENTITY. *)
Inductive env_identity :=
| EnvUnset                  (** unset or empty *)
| EnvMalformed              (** not JSON *)
| EnvJson (j : json).

Inductive conn_mode := ReadOnly | ReadWrite.

(** The callbacks [TaskStore.after_commit] collects: the TaskBoard projections
    [TaskQueueManager] registers for a status change. *)
Inductive callback :=
| SyncArchived (anima task_id : string)
| SyncReactivated (anima task_id : string).

(** [w_conn], [w_after] are the thread-local fields of [TaskStore];
    [w_clock] and [w_uuid] count the readings of the clock and of [uuid4]. *)
Record world := mk_world {
  w_db : db;
  w_board : board;
  w_conn : option conn_mode;
  w_after : list callback;
  w_clock : nat;
  w_uuid : nat;
  w_ctx_identity : option attempt_identity;
  w_env_identity : env_identity
}.

Definition set_db (v : db) (w : world) : world :=
  mk_world v (w_board w) (w_conn w) (w_after w) (w_clock w) (w_uuid w)
    (w_ctx_identity w) (w_env_identity w).
Definition set_board (v : board) (w : world) : world :=
  mk_world (w_db w) v (w_conn w) (w_after w) (w_clock w) (w_uuid w)
    (w_ctx_identity w) (w_env_identity w).
Definition set_conn (v : option conn_mode) (w : world) : world :=
  mk_world (w_db w) (w_board w) v (w_after w) (w_clock w) (w_uuid w)
    (w_ctx_identity w) (w_env_identity w).
Definition set_after (v : list callback) (w : world) : world :=
  mk_world (w_db w) (w_board w) (w_conn w) v (w_clock w) (w_uuid w)
    (w_ctx_identity w) (w_env_identity w).

(** The outside world: successive readings of [now_iso()] and of
    [uuid.uuid4().hex], and Python's text of the compound JSON values. *)
Class Oracle := {
  now_at : nat → string;
  uuid_at : nat → string;
  py_repr : json → string
}.

Section oracle.
Context `{Oracle}.

(** [str(v)]. *)
Definition str_json (j : json) : string :=
match py_str j with Some s => s | None => py_repr j end.

Definition now_iso : M world string := λ w,
(Ok (now_at (w_clock w)),
 mk_world (w_db w) (w_board w) (w_conn w) (w_after w) (S (w_clock w)) (w_uuid w)
   (w_ctx_identity w) (w_env_identity w)).

Definition uuid4 : M world string := λ w,
(Ok (uuid_at (w_uuid w)),
 mk_world (w_db w) (w_board w) (w_conn w) (w_after w) (w_clock w) (S (w_uuid w))
   (w_ctx_identity w) (w_env_identity w)).
End oracle.

(** [db.execute(UPDATE/INSERT ...)]. *)
Definition exec (f : db → db) : M world unit := modify (λ w, set_db (f (w_db w)) w).
(** [db.execute(SELECT ...)]. *)
Definition query {A} (f : db → A) : M world A := gets (λ w, f (w_db w)).
