(* ===== verification/TaskStore.v ===== *)
(** * The durable task store ([core/taskboard/tasks.py])

    Every operation of [TaskStore] as a program over [world]: short
    transactions over the task tables, the fenced execution attempts, the
    aliases of delegated tasks and the durable wakeups.  The callbacks run
    after a commit are an interface ([PostCommit]) implemented by the queue
    manager. *)

From stdpp Require Import prelude strings list gmap sorting.
From S2P Require Import Prelude PyValue Sql TaskModels.

(* ------------------------------------------------------------------ *)
(** ** Execution identities *)

(** The JSON value of ANIMAWORKS_TASK_IDENTITY, when it is an identity. *)
Definition identity_of_json (j : json) : option attempt_identity :=
  match j with
  | JObj d =>
      match dget "anima" d, dget "task_id" d, dget "token" d with
      | Some (JStr a), Some (JStr t), Some (JStr k) =>
          if str_truthy a && str_truthy t && str_truthy k
          then Some (mk_identity a t k) else None
      | _, _, _ => None
      end
  | _ => None
  end.

(** The context variable wins over the environment variable. *)
Definition identity_result (w : world) : result (option attempt_identity) :=
  match w_ctx_identity w with
  | Some i => Ok (Some i)
  | None =>
      match w_env_identity w with
      | EnvUnset => Ok None
      | EnvMalformed => Err (ValueError "JSONDecodeError")
      | EnvJson j =>
          match identity_of_json j with
          | Some i => Ok (Some i)
          | None => Err (ValueError "Invalid task execution identity")
          end
      end
  end.

Definition current_attempt_identity : M world (option attempt_identity) :=
  λ w, (identity_result w, w).

Definition set_ctx_identity (v : option attempt_identity) (w : world) : world :=
  mk_world (w_db w) (w_board w) (w_conn w) (w_after w) (w_clock w) (w_uuid w) v
    (w_env_identity w).

(** [with attempt_scope(identity): body]. *)
Definition attempt_scope {A} (identity : option attempt_identity) (body : M world A) :
    M world A := λ w,
  let '(r, w') := body (set_ctx_identity identity w) in
  (r, set_ctx_identity (w_ctx_identity w) w').

(** The fence: the caller acts for attempt [token] of this very task, and the
    task's running attempt is not that one. *)
Definition stale_identity (identity : option attempt_identity) (key : string * string)
    (existing : option task_row) : bool :=
  match identity with
  | Some i =>
      bool_decide ((id_anima i, id_task_id i) = key) &&
      match existing with
      | Some r => negb (bool_decide (row_current r = Some (id_token i)))
      | None => true
      end
  | None => false
  end.

(* ------------------------------------------------------------------ *)
(** ** Connections *)

(** What the store asks of the callbacks it runs after a commit. *)
Class PostCommit := run_hook : callback → M world unit.

Section connection.
Context `{PostCommit}.

(** Post-commit callbacks run in order; a failing one is logged and skipped. *)
Definition run_callbacks (cbs : list callback) : M world unit :=
for_each cbs (λ cb, catch (run_hook cb) (λ _, mret tt)).

Definition reader {A} (body : M world A) : M world A := λ w,
match w_conn w with
| Some _ => body w
| None =>
    let '(r, w') := body (set_conn (Some ReadOnly) w) in
    (r, set_conn None (set_db (w_db w) w'))
end.

Definition transaction {A} (body : M world A) : M world A := λ w,
match w_conn w with
| Some ReadOnly =>
    (Err (RuntimeError "Cannot mutate tasks inside a read-only snapshot"), w)
| Some ReadWrite => body w
| None =>
    let '(r, w') := body (set_after [] (set_conn (Some ReadWrite) w)) in
    match r with
    | Err e => (Err e, set_after [] (set_conn None (set_db (w_db w) w')))
    | Ok a =>
        let callbacks := w_after w' in
        (Ok a, state_of (run_callbacks callbacks (set_after [] (set_conn None w'))))
    end
end.

Definition after_commit (cb : callback) : M world unit :=
w ← get;
match w_conn w with
| Some _ => modify (λ w, set_after (w_after w ++ [cb]) w)
| None => run_hook cb
end.
End connection.

(* ------------------------------------------------------------------ *)
(** ** Resolution and views *)

(** The first row satisfying a condition ([fetchone()] of a scan). *)
Fixpoint select_first {R} (p : R → bool) (t : list R) : option R :=
  match t with
  | [] => None
  | r :: t' => if p r then Some r else select_first p t'
  end.

Definition resolve (d : db) (anima tid : string) : string * string :=
  match select_key alias_key (anima, tid) (task_aliases d) with
  | Some a => (al_anima a, al_task_id a)
  | None =>
      match select_key task_key (anima, tid) (tasks d) with
      | Some _ => (anima, tid)
      | None =>
          match select_first
                  (λ a, bool_decide (al_anima a = anima) && bool_decide (al_alias a = tid))
                  (task_aliases d) with
          | Some a => (anima, al_task_id a)
          | None =>
              match select_first
                      (λ a, bool_decide (al_viewer a = anima) && bool_decide (al_task_id a = tid))
                      (task_aliases d) with
              | Some a => (al_anima a, al_task_id a)
              | None => (anima, tid)
              end
          end
      end
  end.

(** How a task of [owner] looks to an anima that tracks it under [shown_as]:
    unfinished work shows as delegated, the real state is in the metadata. *)
Definition delegated_view (owner real_id shown_as : string) (e : TaskEntry) : TaskEntry :=
  let m := dset "delegated_status" (JStr (status e))
             (dset "delegated_task_id" (JStr real_id)
                (dset "delegated_to" (JStr owner) (meta e))) in
  let e' := set_meta m (set_task_id shown_as e) in
  if str_in (status e) ["pending"; "in_progress"] then set_status "delegated" e' else e'.

Definition row_visible (archived : bool) (r : task_row) : bool := archived || negb (row_archived r).

Definition read_view (anima : string) (archived : bool) (d : db) : list (string * TaskEntry) :=
  let own := filter (λ r, row_anima r = anima ∧ row_visible archived r = true) (tasks d) in
  let base := foldl (λ m r, dset (task_id (row_entry r)) (row_entry r) m) [] own in
  foldl (λ m a,
      match select_key task_key (al_anima a, al_task_id a) (tasks d) with
      | Some t =>
          if row_visible archived t
          then dset (al_alias a) (delegated_view (al_anima a) (al_task_id a) (al_alias a) (row_entry t)) m
          else m
      | None => m
      end) base (filter (λ a, al_viewer a = anima) (task_aliases d)).

Definition get_view (anima tid : string) (d : db) : option TaskEntry :=
  let '(owner, resolved) := resolve d anima tid in
  match select_key task_key (owner, resolved) (tasks d) with
  | None => None
  | Some r =>
      if bool_decide (owner = anima) then Some (row_entry r)
      else Some (delegated_view owner resolved tid (row_entry r))
  end.

(* ------------------------------------------------------------------ *)
(** ** Operations *)

Definition terminal (st : string) : bool := str_in st ["done"; "cancelled"].

(** [entry[key] = event[key]] for the keys an update carries. *)
Definition merge_update (st sm up : option string) (mp : option dict) (e : TaskEntry) : TaskEntry :=
  let e1 := match st with Some v => set_status v e | None => e end in
  let e2 := match sm with Some v => set_summary v e1 | None => e1 end in
  let e3 := match up with Some v => set_updated_at v e2 | None => e2 end in
  match mp with Some m => set_meta (dmerge (meta e3) m) e3 | None => e3 end.

(** [task_attempts]: primary key [token], and UNIQUE(anima, task_id, number). *)
Definition attempt_clash (a b : attempt_row) : bool :=
  bool_decide (att_token a = att_token b) ||
  (bool_decide (attempt_task a = attempt_task b) && bool_decide (att_number a = att_number b)).

Definition insert_attempt (a : attempt_row) : M world unit :=
  d ← query id;
  if any (attempt_clash a) (task_attempts d) then raise (IntegrityError "task_attempts")
  else exec (λ d, set_attempts (task_attempts d ++ [a]) d).

(** [SELECT COALESCE(MAX(number),0)+1 FROM task_attempts WHERE anima=? AND task_id=?]. *)
Definition next_number (key : string * string) (d : db) : nat :=
  S (max_list (att_number <$> filter (λ a, attempt_task a = key) (task_attempts d))).

Definition acknowledge_task (now : string) (key : string * string) (d : db) : db :=
  set_wakeups
    (update_where (λ k, bool_decide ((wk_anima k, wk_task_id k) = key) &&
                        negb (bool_decide (is_Some (wk_acknowledged_at k))))
       (acknowledge now) (task_wakeups d)) d.

Definition add_wakeup (k : wakeup_row) (d : db) : db :=
  set_wakeups (insert_or_ignore wakeup_key k (task_wakeups d)) d.

(** The dependencies of an input: a list of task identifiers (the form
    [validate_task_payloads] admits); any other value cannot be bound. *)
Definition depends_on (payload : dict) : result (list string) :=
  match dget_default "depends_on" (JList []) payload with
  | JList l =>
      match mapM str_of l with
      | Some deps => Ok deps
      | None => Err (TypeError "depends_on")
      end
  | _ => Err (TypeError "depends_on")
  end.

(** [ORDER BY created_at]. *)
Definition wakeup_le (a b : wakeup_row) : Prop :=
  String.leb (wk_created_at a) (wk_created_at b) = true.
#[global] Instance wakeup_le_dec : ∀ a b, Decision (wakeup_le a b).
Proof. intros a b. unfold wakeup_le. apply _. Defined.

(** One unfinished task with its input, as reference rewriting sees it. *)
Record reference := mk_reference { ref_entry : TaskEntry; ref_input : option dict }.

(** Python's [==] on entries and inputs. *)
Definition entry_eq (a b : TaskEntry) : bool :=
  bool_decide (task_id a = task_id b) && bool_decide (ts a = ts b) &&
  bool_decide (source a = source b) &&
  bool_decide (original_instruction a = original_instruction b) &&
  bool_decide (assignee a = assignee b) && bool_decide (status a = status b) &&
  bool_decide (summary a = summary b) && bool_decide (relay_chain a = relay_chain b) &&
  bool_decide (updated_at a = updated_at b) && py_eq (JObj (meta a)) (JObj (meta b)).
Definition input_eq (a b : option dict) : bool :=
  match a, b with
  | Some p, Some q => py_eq (JObj p) (JObj q)
  | None, None => true
  | _, _ => false
  end.
Definition reference_eq (a b : reference) : bool :=
  entry_eq (ref_entry a) (ref_entry b) && input_eq (ref_input a) (ref_input b).

(** The fields a reference rewrite must leave alone. *)
Definition immutable_fields (before after : reference) : result unit :=
  let b := ref_entry before in let a := ref_entry after in
  let input_id r := dget_none "task_id" (default [] (ref_input r)) in
  if negb (bool_decide (task_id a = task_id b))
  then Err (ValueError "Reference rewrite cannot change task_id")
  else if negb (bool_decide (assignee a = assignee b))
  then Err (ValueError "Reference rewrite cannot change assignee")
  else if negb (bool_decide (status a = status b))
  then Err (ValueError "Reference rewrite cannot change status")
  else if negb (bool_decide (original_instruction a = original_instruction b))
  then Err (ValueError "Reference rewrite cannot change original_instruction")
  else if negb (py_eq (input_id after) (input_id before))
  then Err (ValueError "Reference rewrite cannot change input task ID")
  else Ok tt.

Section operations.
Context `{PostCommit, Oracle}.

Definition read (anima : string) (archived : bool) : M world (list (string * TaskEntry)) :=
reader (query (read_view anima archived)).

Definition get_task (anima tid : string) : M world (option TaskEntry) :=
reader (query (get_view anima tid)).

Definition alias (viewer alias_id anima tid : string) : M world unit :=
transaction (
  existing ← query (λ d, select_key alias_key (viewer, alias_id) (task_aliases d));
  _ ← guard_raise
        match existing with
        | Some a => negb (bool_decide ((al_anima a, al_task_id a) = (anima, tid)))
        | None => false
        end (ValueError "Task alias already names another task");
  exec (λ d, set_aliases
               (insert_or_ignore alias_key (mk_alias viewer alias_id anima tid) (task_aliases d)) d)).

Definition apply (anima : string) (ev : task_event) : M world unit :=
transaction (
  '(owner, tid) ← query (λ d, resolve d anima (event_task_id ev));
  existing ← query (λ d, select_key task_key (owner, tid) (tasks d));
  identity ← current_attempt_identity;
  _ ← guard_raise (stale_identity identity (owner, tid) existing)
        (ValueError "Stale task attempt cannot change the current task");
  match ev with
  | EvUpdate _ st sm up mp =>
      match existing with
      | None => mret tt
      | Some row =>
          let entry := row_entry row in
          let new_status := default (status entry) st in
          let was_cancelled := bool_decide (status entry = "cancelled") in
          if was_cancelled && bool_decide (new_status = "pending")
             && bool_decide (is_Some (row_current row))
          then raise (ValueError "Cannot reopen a cancelled task until its active attempt stops")
          else if was_cancelled && negb (str_in new_status ["cancelled"; "pending"])
          then mret tt
          else
            let entry' := merge_update st sm up mp entry in
            exec (λ d, set_tasks
              (update_key task_key (owner, tid)
                 (λ r, set_row_ready (if terminal new_status then false else row_ready r)
                         (set_row_archived false (set_row_entry entry' r)))
                 (tasks d)) d)
      end
  | EvEntry entry =>
      let target := dget_none "delegated_to" (meta entry) in
      let child := dget_none "delegated_task_id" (meta entry) in
      if bool_decide (status entry = "delegated") && truthy target && truthy child then
        alias anima (task_id entry) (str_json target) (str_json child)
      else
          _ ← guard_raise
                match existing with Some r => bool_decide (is_Some (row_current r)) | None => false end
                (ValueError "Task is running; cannot replace its input");
          _ ← guard_raise
                match existing with Some r => bool_decide (is_Some (row_input r)) | None => false end
                (ValueError "Task already has execution input; use update or explicit resume");
          exec (λ d, set_tasks
            (upsert task_key (mk_task anima (task_id entry) entry None false None false)
               (λ r, set_row_archived false (set_row_entry entry r)) (tasks d)) d)
  end).

Definition submit (anima : string) (entry : TaskEntry) (payload : dict) (resume : bool) :
  M world bool :=
if negb (py_eq (dget_none "task_id" payload) (JStr (task_id entry)))
then raise (ValueError "Task input ID differs from task entry ID")
else transaction (
  let key := (anima, task_id entry) in
  previous ← query (λ d, select_key task_key key (tasks d));
  identity ← current_attempt_identity;
  _ ← guard_raise (stale_identity identity key previous)
        (ValueError "Stale task attempt cannot publish or resume itself");
  let publish : M world bool :=
    now ← now_iso;
    let entry' := set_updated_at now (set_status "pending" entry) in
    _ ← exec (λ d, set_tasks
          (upsert task_key (mk_task anima (task_id entry) entry' (Some payload) true None false)
             (λ r, set_row_archived false (set_row_ready true
                     (set_row_input (Some payload) (set_row_entry entry' r)))) (tasks d)) d);
    ack ← now_iso;
    _ ← exec (acknowledge_task ack key);
    mret true in
  match previous with
  | Some r =>
      if bool_decide (is_Some (row_current r))
      then if resume then raise (ValueError "Cannot resume an active attempt") else mret false
      else if bool_decide (is_Some (row_input r)) && negb resume then mret false
      else if resume && terminal (status (row_entry r))
      then raise (ValueError "A terminal task cannot be resumed; create a new task")
      else publish
  | None => publish
  end).

Definition resume (anima tid : string) : M world TaskEntry :=
transaction (
  '(owner, rid) ← query (λ d, resolve d anima tid);
  row ← query (λ d, select_key task_key (owner, rid) (tasks d));
  match row with
  | None => raise (ValueError "Task not found")
  | Some r =>
      identity ← current_attempt_identity;
      _ ← guard_raise (stale_identity identity (owner, rid) (Some r))
            (ValueError "Stale task attempt cannot resume itself");
      _ ← guard_raise (bool_decide (is_Some (row_current r)))
            (ValueError "Cannot resume an active attempt; stop it first");
      _ ← guard_raise (negb (bool_decide (is_Some (row_input r))))
            (ValueError "Task has no saved execution input; it is a backlog entry");
      now ← now_iso;
      let updated := set_updated_at now (set_status "pending" (row_entry r)) in
      _ ← exec (λ d, set_tasks
            (update_key task_key (owner, rid)
               (λ r, set_row_archived false (set_row_ready true (set_row_entry updated r)))
               (tasks d)) d);
      ack ← now_iso;
      _ ← exec (acknowledge_task ack (owner, rid));
      mret updated
  end).

(** Ready inputs in rowid order; decoding a NULL input is an error. *)
Definition pending (anima : string) : M world (list dict) :=
reader (
  rows ← query (λ d, filter (λ r, row_anima r = anima ∧ row_ready r = true ∧
                                  row_current r = None ∧ row_archived r = false) (tasks d));
  match mapM row_input rows with
  | Some inputs => mret inputs
  | None => raise (TypeError "the JSON object must be str, not NoneType")
  end).

Definition executable_ids (anima : string) : M world (gset string) :=
reader (query (λ d, list_to_set (row_task_id <$>
  filter (λ r, row_anima r = anima ∧ is_Some (row_input r) ∧ row_archived r = false) (tasks d)))).

(** The dependency loop of [claim]: true when every dependency is done; a
  cancelled one unschedules the task and leaves a wakeup. *)
Fixpoint check_dependencies (anima tid : string) (deps : list string) : M world bool :=
match deps with
| [] => mret true
| dep :: rest =>
    '(owner, did) ← query (λ d, resolve d anima dep);
    row ← query (λ d, select_key task_key (owner, did) (tasks d));
    match row with
    | None => mret false
    | Some r =>
        if bool_decide (status (row_entry r) = "cancelled") then
          _ ← exec (λ d, set_tasks (update_key task_key (anima, tid) (set_row_ready false) (tasks d)) d);
          now ← now_iso;
          _ ← exec (add_wakeup (mk_wakeup anima tid ("dependency-" +:+ tid +:+ "-" +:+ dep)
                                  "dependency_cancelled" now None));
          mret false
        else if bool_decide (is_Some (row_current r)) || negb (bool_decide (status (row_entry r) = "done"))
        then mret false
        else check_dependencies anima tid rest
    end
end.

(** Whether the running inputs of the same batch forbid starting [payload]. *)
Definition batch_blocked (payload : dict) (active : list dict) : bool :=
let parallel p := truthy (dget_default "parallel" (JBool false) p) in
let batch p := dget_none "batch_id" p in
let is_serial := truthy (batch payload) && negb (parallel payload) in
let same_batch := filter (λ p, truthy (batch p) && py_eq (batch p) (batch payload) = true) active in
bool_decide (same_batch ≠ []) && (is_serial || any (λ p, negb (parallel p)) same_batch).

Definition start_attempt (anima tid : string) (identity payload : dict) (entry : TaskEntry) :
  M world (option dict) :=
number ← query (next_number (anima, tid));
token ← uuid4;
started ← now_iso;
let entry' :=
  set_meta (dpop "last_run_note" (dpop "last_run_ended_at" (dpop "last_run_stop_kind" (meta entry))))
    (set_updated_at started (set_status "in_progress" entry)) in
_ ← insert_attempt (mk_attempt token anima tid number identity started None None None);
_ ← exec (λ d, set_tasks
      (update_key task_key (anima, tid)
         (λ r, set_row_entry entry' (set_row_ready false (set_row_current (Some token) r)))
         (tasks d)) d);
mret (Some (dset "_attempt_number" (JInt (Z.of_nat number))
              (dset "_attempt_token" (JStr token) payload))).

Definition claims_paused (control : option claim_control) : bool :=
match control with Some c => cc_paused c | None => false end.

Definition claim (anima tid : string) (identity : dict) (max_active : Z) : M world (option dict) :=
transaction (
  control ← query (λ d, select_key cc_anima anima (task_claim_control d));
  if claims_paused control then mret None else
  row ← query (λ d, select_key task_key (anima, tid) (tasks d));
  match row with
  | None => mret None
  | Some r =>
      match row_input r with
      | None => mret None
      | Some payload =>
          if negb (row_ready r) || bool_decide (is_Some (row_current r)) then mret None else
          if negb (bool_decide (status (row_entry r) = "pending")) then mret None else
          active ← query (λ d, filter (λ t, row_anima t = anima ∧ is_Some (row_current t)) (tasks d));
          if bool_decide (max_active ≤ Z.of_nat (length active))%Z then mret None else
          match mapM row_input active with
          | None => raise (TypeError "the JSON object must be str, not NoneType")
          | Some inputs =>
              if batch_blocked payload inputs then mret None else
              deps ← lift (depends_on payload);
              ready ← check_dependencies anima tid deps;
              if ready : bool then start_attempt anima tid identity payload (row_entry r)
              else mret None
          end
      end
  end).

Definition pause_claims (anima : string) (paused : bool) : M world unit :=
transaction (
  exec (λ d, set_control
    (upsert cc_anima (mk_control anima paused) (λ c, mk_control (cc_anima c) paused)
       (task_claim_control d)) d)).

Definition get_input (anima tid : string) : M world (option dict) :=
reader (query (λ d,
  let '(owner, rid) := resolve d anima tid in
  match select_key task_key (owner, rid) (tasks d) with
  | Some r => row_input r
  | None => None
  end)).

Definition set_identity (token : string) (identity : dict) : M world bool :=
transaction (
  row ← query (λ d, select_key att_token token (task_attempts d));
  match row with
  | Some a =>
      if attempt_live a then
        _ ← exec (λ d, set_attempts
              (update_key att_token token (set_att_identity (dmerge (att_identity a) identity))
                 (task_attempts d)) d);
        mret true
      else mret false
  | None => mret false
  end).

(** [SELECT t.* FROM tasks t JOIN task_attempts a ON a.token=t.current_attempt
   WHERE a.token=? AND a.ended_at IS NULL]. *)
Definition attempt_task_row (token : string) (d : db) : option task_row :=
match select_key att_token token (task_attempts d) with
| Some a =>
    if attempt_live a
    then select_first (λ t, bool_decide (row_current t = Some token)) (tasks d)
    else None
| None => None
end.

Definition finish (token st stop_kind : string) (summary_ : option string) (result_ref : string) :
  M world bool :=
if negb (str_in st ["pending"; "done"; "cancelled"])
then raise (ValueError ("Invalid attempt outcome: " +:+ st))
else transaction (
  row ← query (attempt_task_row token);
  match row with
  | None => mret false
  | Some r =>
      let entry := row_entry r in
      let st' := if bool_decide (status entry = "cancelled") then "cancelled" else st in
      now ← now_iso;
      let e1 := set_updated_at now (set_status st' entry) in
      let e2 := match summary_ with Some s => set_summary s e1 | None => e1 end in
      let e3 := set_meta (dset "last_attempt_token" (JStr token)
                            (dset "last_run_stop_kind" (JStr stop_kind) (meta e2))) e2 in
      _ ← exec (λ d, set_attempts
            (update_key att_token token (end_attempt now stop_kind result_ref) (task_attempts d)) d);
      _ ← exec (λ d, set_tasks
            (update_key task_key (task_key r)
               (λ t, set_row_ready false (set_row_current None (set_row_entry e3 t))) (tasks d)) d);
      _ ← (if bool_decide (st' = "pending")
           then exec (add_wakeup (mk_wakeup (row_anima r) (row_task_id r) token stop_kind now None))
           else if bool_decide (st' = "done") &&
                   match row_input r with
                   | Some p => truthy (dget_none "reply_to" p)
                   | None => false
                   end
           then exec (add_wakeup (mk_wakeup (row_anima r) (row_task_id r) token "completion" now None))
           else mret tt);
      mret true
  end).

Definition active_attempts (anima : string) : M world (list attempt_row) :=
reader (query (λ d, filter (λ a, att_anima a = anima ∧ att_ended_at a = None) (task_attempts d))).

Definition acknowledge_wakeup (anima token : string) : M world unit :=
transaction (
  now ← now_iso;
  exec (λ d, set_wakeups
    (update_where (λ k, bool_decide (wk_anima k = anima) && bool_decide (wk_token k = token))
       (acknowledge now) (task_wakeups d)) d)).

Definition compactable (anima : string) (r : task_row) : bool :=
bool_decide (row_anima r = anima) && negb (row_archived r) &&
bool_decide (row_current r = None) && terminal (status (row_entry r)).

Definition compact (anima : string) : M world nat :=
transaction (
  n ← query (λ d, length (filter (λ r, compactable anima r = true) (tasks d)));
  _ ← exec (λ d, set_tasks (update_where (compactable anima) (set_row_archived true) (tasks d)) d);
  mret n).

(** Unacknowledged wakeups, oldest first. *)
Definition wakeups (anima : string) : M world (list wakeup_row) :=
reader (query (λ d, merge_sort wakeup_le
  (filter (λ k, wk_anima k = anima ∧ wk_acknowledged_at k = None) (task_wakeups d)))).

Definition reference_records (anima : string) : M world (list (string * reference)) :=
reader (query (λ d, (λ r, (row_task_id r, mk_reference (row_entry r) (row_input r))) <$>
  filter (λ r, row_anima r = anima ∧ row_archived r = false ∧
               terminal (status (row_entry r)) = false) (tasks d))).

Fixpoint rewrite_loop (anima : string) (transform : reference → result reference)
  (records : list (string * reference)) : M world (list (string * reference * reference)) :=
match records with
| [] => mret []
| (tid, before) :: rest =>
    after ← lift (transform before);
    if reference_eq before after then rewrite_loop anima transform rest else
    _ ← lift (immutable_fields before after);
    row ← query (λ d, select_key task_key (anima, tid) (tasks d));
    match row with
    | None => raise (TypeError "'NoneType' object is not subscriptable")
    | Some r =>
        _ ← guard_raise (bool_decide (is_Some (row_current r)))
              (RuntimeError "Cannot rewrite references for an active task attempt");
        _ ← exec (λ d, set_tasks
              (update_key task_key (anima, tid)
                 (λ r, set_row_input (ref_input after) (set_row_entry (ref_entry after) r)) (tasks d)) d);
        changes ← rewrite_loop anima transform rest;
        mret ((tid, before, after) :: changes)
    end
end.

Definition rewrite_references (anima : string) (transform : reference → result reference) :
  M world (list (string * reference * reference)) :=
transaction (records ← reference_records anima; rewrite_loop anima transform records).

(** Gate, invalid legacy rows, unended attempts, owned tasks, ready tasks. *)
Definition maintenance_status (anima : string) : M world (bool * json * nat * nat * nat) :=
transaction (query (λ d,
  (claims_paused (select_key cc_anima anima (task_claim_control d)),
   from_option (λ i, dget_default "invalid_rows" (JInt 0) (imp_report i)) (JInt 0)
     (select_key imp_anima anima (task_imports d)),
   length (filter (λ a, att_anima a = anima ∧ att_ended_at a = None) (task_attempts d)),
   length (filter (λ r, row_anima r = anima) (tasks d)),
   length (filter (λ r, row_anima r = anima ∧ row_ready r = true) (tasks d))))).
End operations.

(* ------------------------------------------------------------------ *)
(** ** Runs seen through the database *)

(** The callbacks run after a commit work on the board only. *)
Class PostCommitFrame `{PostCommit} : Prop :=
  hook_frame : ∀ cb, within (fixes (λ w, (w_db w, w_conn w, w_after w))) (run_hook cb).

(** A relation between the databases before and after. *)
Definition on_db (R : db → db → Prop) : world → world → Prop :=
  λ w w', R (w_db w) (w_db w').

#[global] Instance on_db_preorder R `{!PreOrder R} : PreOrder (on_db R).
Proof. split; [intros w; unfold on_db; reflexivity|intros w1 w2 w3; unfold on_db; apply transitivity]. Qed.

Section transactions.
Context `{PostCommitFrame, Oracle}.

Lemma run_callbacks_frame cbs :
within (fixes (λ w, (w_db w, w_conn w, w_after w))) (run_callbacks cbs).
Proof.
apply within_for_each. intros cb _. apply within_catch; [apply hook_frame|].
intros _. apply within_ret.
Qed.

Lemma within_transaction {R : db → db → Prop} `{!Reflexive R} {A} (body : M world A) :
within (on_db R) body → within (on_db R) (transaction body).
Proof.
intros Hb w. unfold transaction. destruct (w_conn w) as [[]|]; [unfold on_db; reflexivity|apply Hb|].
specialize (Hb (set_after [] (set_conn (Some ReadWrite) w))).
destruct (body _) as [[a|e] w'] eqn:E; unfold on_db in *; simpl in *; [|reflexivity].
pose proof (run_callbacks_frame (w_after w') (set_after [] (set_conn None w'))) as Hf.
unfold fixes in Hf. simpl in Hf. injection Hf as -> _ _. done.
Qed.

(** A run of an outermost transaction: its database is the body's when the
  body returns and the original one when it raises; no connection stays
  open and no callback stays queued. *)
Definition begin_write (w : world) : world := set_after [] (set_conn (Some ReadWrite) w).

Lemma transaction_top {A} (body : M world A) w :
w_conn w = None →
val_of (transaction body w) = val_of (body (begin_write w)) ∧
w_db (state_of (transaction body w)) =
  match val_of (body (begin_write w)) with
  | Ok _ => w_db (state_of (body (begin_write w)))
  | Err _ => w_db w
  end ∧
w_conn (state_of (transaction body w)) = None ∧
w_after (state_of (transaction body w)) = [].
Proof.
intros Hc. unfold transaction. rewrite Hc. fold (begin_write w).
destruct (body (begin_write w)) as [[a|e] w'] eqn:E; simpl; [|done].
pose proof (run_callbacks_frame (w_after w') (set_after [] (set_conn None w'))) as Hf.
unfold fixes in Hf. simpl in Hf. by injection Hf as -> -> ->.
Qed.

(** The same for a run given by its outcome. *)
Lemma transaction_ok {A} (body : M world A) w a w' :
w_conn w = None → transaction body w = (Ok a, w') →
∃ w1, body (begin_write w) = (Ok a, w1) ∧ w_db w' = w_db w1.
Proof.
intros Hc Ht. destruct (transaction_top body w Hc) as (Hv & Hd & _). rewrite Ht in Hv, Hd.
destruct (body (begin_write w)) as [r w1]. simpl in *. subst r. eauto.
Qed.

Lemma transaction_err {A} (body : M world A) w e w' :
w_conn w = None → transaction body w = (Err e, w') → w_db w' = w_db w.
Proof.
intros Hc Ht. destruct (transaction_top body w Hc) as (Hv & Hd & _). rewrite Ht in Hv, Hd.
destruct (body (begin_write w)) as [r w1]. simpl in *. by subst r.
Qed.

Lemma transaction_run {A} (body : M world A) w a w1 :
w_conn w = None → body (begin_write w) = (Ok a, w1) →
val_of (transaction body w) = Ok a ∧ w_db (state_of (transaction body w)) = w_db w1.
Proof.
intros Hc Hb. destruct (transaction_top body w Hc) as (Hv & Hd & _).
rewrite Hb in Hv, Hd. by simpl in *.
Qed.

End transactions.

Section on_db.
Context `{Oracle} {R : db → db → Prop} `{!PreOrder R}.

Lemma within_reader {A} (body : M world A) :
within (on_db R) body → within (on_db R) (reader body).
Proof.
intros Hb w. unfold reader. destruct (w_conn w) as [c|]; [apply Hb|].
destruct (body _) as [r w'] eqn:E; unfold on_db in *; simpl in *. reflexivity.
Qed.

Lemma within_exec f : (∀ d, R d (f d)) → within (on_db R) (exec f).
Proof. intros Hf w. apply Hf. Qed.

Lemma within_query {A} (f : db → A) : within (on_db R) (query f).
Proof. intros w. unfold on_db. reflexivity. Qed.

Lemma within_now : within (on_db R) now_iso.
Proof. intros w. unfold on_db. reflexivity. Qed.

Lemma within_uuid : within (on_db R) uuid4.
Proof. intros w. unfold on_db. reflexivity. Qed.

Lemma within_identity : within (on_db R) current_attempt_identity.
Proof.
intros w. unfold on_db. reflexivity.
Qed.
End on_db.

#[export] Hint Resolve within_transaction within_reader within_exec within_query within_now
  within_uuid within_identity : within.
