(* ===== verification/TaskStoreInv.v ===== *)
(** * The invariant of the task database

    The consistency of the task tables that fenced execution rests on, and the
    proof that every operation of [TaskStore] keeps it.  The central clause is
    the fence: the running attempts recorded in [tasks] and the unended rows
    of [task_attempts] are the same. *)

From stdpp Require Import prelude strings list gmap.
From S2P Require Import Prelude PyValue Sql TaskModels TaskStore.

(* ------------------------------------------------------------------ *)
(** ** The invariant *)

(** A row on its own: it is filed under its entry's and its input's identifier; scheduled work
    has saved input and no running attempt; running work has saved input;
    archived work is neither running nor pending. *)
Record row_ok (r : task_row) : Prop := {
  ok_id : task_id (row_entry r) = row_task_id r;
  ok_input : ∀ p, row_input r = Some p → dget "task_id" p = Some (JStr (row_task_id r));
  ok_ready : row_ready r = true → is_Some (row_input r) ∧ row_current r = None;
  ok_running : is_Some (row_current r) → is_Some (row_input r);
  ok_archived : row_archived r = true → row_current r = None ∧ status (row_entry r) ≠ "pending"
}.

(** The (task, token) pairs running according to [tasks], and those unended
    according to [task_attempts]. *)
Definition running (t : list task_row) : list ((string * string) * string) :=
  omap (λ r, (λ tok, (task_key r, tok)) <$> row_current r) t.
Definition live (a : list attempt_row) : list ((string * string) * string) :=
  (λ x, (attempt_task x, att_token x)) <$> filter (λ x, attempt_live x = true) a.

Definition attempt_slot (a : attempt_row) : (string * string) * nat :=
  (attempt_task a, att_number a).

Record inv (d : db) : Prop := {
  inv_tasks : unique task_key (tasks d);
  inv_tokens : unique att_token (task_attempts d);
  inv_slots : unique attempt_slot (task_attempts d);
  inv_aliases : unique alias_key (task_aliases d);
  inv_wakeups : unique wakeup_key (task_wakeups d);
  inv_control : unique cc_anima (task_claim_control d);
  inv_rows : Forall row_ok (tasks d);
  inv_owned : ∀ a, a ∈ task_attempts d → attempt_task a ∈ task_key <$> tasks d;
  inv_fence : ∀ x, x ∈ running (tasks d) ↔ x ∈ live (task_attempts d)
}.

Definition winv (w : world) : Prop := inv (w_db w).

(* ------------------------------------------------------------------ *)
(** ** Generic lemmas *)

Lemma running_cons r t :
  running (r :: t) =
    match row_current r with Some tok => (task_key r, tok) :: running t | None => running t end.
Proof. unfold running. csimpl. by destruct (row_current r). Qed.

Lemma elem_of_running t k tok :
  (k, tok) ∈ running t ↔ ∃ r, r ∈ t ∧ task_key r = k ∧ row_current r = Some tok.
Proof.
  unfold running. rewrite list_elem_of_omap. split.
  - intros (r & Hr & Heq). destruct (row_current r) eqn:E; simplify_eq/=. eauto.
  - intros (r & Hr & <- & Hc). exists r. by rewrite Hc.
Qed.

Lemma elem_of_live a k tok :
  (k, tok) ∈ live a ↔ ∃ x, x ∈ a ∧ attempt_task x = k ∧ att_token x = tok ∧ attempt_live x = true.
Proof.
  unfold live. rewrite list_elem_of_fmap. setoid_rewrite list_elem_of_filter.
  split; [intros (x & Heq & ? & ?); simplify_eq; eauto 10|].
  intros (x & ? & <- & <- & ?). eauto 10.
Qed.

(** A row change that moves neither the key nor the running attempt. *)
Record row_step (f : task_row → task_row) (r : task_row) : Prop := {
  rs_key : task_key (f r) = task_key r;
  rs_current : row_current (f r) = row_current r;
  rs_ok : row_ok r → row_ok (f r)
}.

Lemma running_fmap f t : (∀ r, r ∈ t → row_step f r) → running (f <$> t) = running t.
Proof.
  induction t as [|r t IH]; intros Hf; [done|].
  destruct (Hf r) as [Hk Hc _]; [left|].
  assert (running (f <$> t) = running t) as IH' by (apply IH; intros; apply Hf; by right).
  rewrite fmap_cons, !running_cons. by rewrite Hc, Hk, IH'.
Qed.

Lemma inv_fmap_tasks d f :
  inv d → (∀ r, r ∈ tasks d → row_step f r) → inv (set_tasks (f <$> tasks d) d).
Proof.
  intros [] Hf.
  assert (task_key <$> (f <$> tasks d) = task_key <$> tasks d) as Hkeys.
  { rewrite <- list_fmap_compose. apply list_fmap_ext. intros i r Hr.
    apply (Hf r). by eapply list_elem_of_lookup_2. }
  split; simpl; try done.
  - unfold unique. by rewrite Hkeys.
  - apply Forall_fmap, Forall_forall. intros r Hr. apply (Hf r); [done|].
    by eapply Forall_forall.
  - intros a Ha. rewrite Hkeys. auto.
  - by rewrite running_fmap.
Qed.

Lemma inv_update_key d k f :
  inv d → (∀ r, r ∈ tasks d → task_key r = k → row_step f r) →
  inv (set_tasks (update_key task_key k f (tasks d)) d).
Proof.
  intros Hd Hf. unfold update_key, update_where. apply inv_fmap_tasks; [done|].
  intros r Hr. destruct (decide (task_key r = k)) as [Hk|Hk].
  - destruct (Hf r Hr Hk) as [Hk' Hc Hok].
    split; by rewrite (bool_decide_eq_true_2 (task_key r = k)).
  - split; by rewrite (bool_decide_eq_false_2 (task_key r = k)).
Qed.

Lemma inv_update_where d p f :
  inv d → (∀ r, r ∈ tasks d → p r = true → row_step f r) →
  inv (set_tasks (update_where p f (tasks d)) d).
Proof.
  intros Hd Hf. unfold update_where. apply inv_fmap_tasks; [done|].
  intros r Hr. destruct (p r) eqn:Hp.
  - destruct (Hf r Hr Hp) as [Hk' Hc Hok]. by split; rewrite Hp.
  - by split; rewrite Hp.
Qed.

Lemma inv_new_row d r :
  inv d → select_key task_key (task_key r) (tasks d) = None → row_ok r → row_current r = None →
  inv (set_tasks (tasks d ++ [r]) d).
Proof.
  intros [] Hnew Hok Hc. split; simpl; try done.
  - apply unique_snoc; [by apply select_key_None|done].
  - by apply Forall_app; auto using Forall_singleton.
  - intros a Ha. rewrite fmap_app, elem_of_app. auto.
  - intros x. unfold running. rewrite omap_app. simpl. rewrite Hc. simpl.
    rewrite app_nil_r. auto.
Qed.

Lemma inv_upsert d r f :
  inv d → row_ok r → row_current r = None →
  (∀ r', r' ∈ tasks d → task_key r' = task_key r → row_step f r') →
  inv (set_tasks (upsert task_key r f (tasks d)) d).
Proof.
  intros Hd Hok Hc Hf. unfold upsert.
  destruct (select_key task_key (task_key r) (tasks d)) eqn:E.
  - by apply inv_update_key.
  - by apply inv_new_row.
Qed.

Lemma inv_set_wakeups d v : inv d → unique wakeup_key v → inv (set_wakeups v d).
Proof. intros [] Hv. by split. Qed.
Lemma inv_set_aliases d v : inv d → unique alias_key v → inv (set_aliases v d).
Proof. intros [] Hv. by split. Qed.
Lemma inv_set_control d v : inv d → unique cc_anima v → inv (set_control v d).
Proof. intros [] Hv. by split. Qed.

Lemma inv_acknowledge_task d now k : inv d → inv (acknowledge_task now k d).
Proof.
  intros Hd. apply inv_set_wakeups; [done|].
  apply update_where_unique; [done|apply Hd].
Qed.

Lemma inv_add_wakeup d k : inv d → inv (add_wakeup k d).
Proof. intros Hd. apply inv_set_wakeups; [done|]. apply insert_or_ignore_unique, Hd. Qed.

Lemma inv_row d r : inv d → r ∈ tasks d → row_ok r.
Proof. intros [] Hr. by eapply Forall_forall. Qed.

#[export] Hint Resolve inv_acknowledge_task inv_add_wakeup : core.

(** At most one row, hence one attempt, runs under a given token. *)
Lemma running_token_unique d k k' tok :
  inv d → (k, tok) ∈ running (tasks d) → (k', tok) ∈ running (tasks d) → k = k'.
Proof.
  intros Hd H1%(inv_fence _ Hd) H2%(inv_fence _ Hd).
  apply elem_of_live in H1 as (a & Ha & <- & Ht & _).
  apply elem_of_live in H2 as (b & Hb & <- & Ht' & _).
  pose proof (select_key_elem _ _ _ (inv_tokens _ Hd) Ha) as Ea.
  pose proof (select_key_elem _ _ _ (inv_tokens _ Hd) Hb) as Eb.
  congruence.
Qed.

(** A running row is found by its key, so a task runs at most one attempt. *)
Lemma running_attempt_unique d k tok tok' :
  inv d → (k, tok) ∈ running (tasks d) → (k, tok') ∈ running (tasks d) → tok = tok'.
Proof.
  intros Hd (r & Hr & <- & Hc)%elem_of_running (r' & Hr' & Hk & Hc')%elem_of_running.
  pose proof (select_key_elem _ _ _ (inv_tasks _ Hd) Hr) as E.
  pose proof (select_key_elem _ _ _ (inv_tasks _ Hd) Hr') as E'.
  rewrite Hk in E'. congruence.
Qed.

(* ------------------------------------------------------------------ *)
(** ** Preservation *)

Definition keeps_inv : db → db → Prop := keeps inv.
#[global] Instance keeps_inv_preorder : PreOrder keeps_inv := keeps_preorder inv.

(** Runs a body on a database satisfying the invariant and splits its
    branches. *)
Ltac body_unfold :=
  cbv beta delta [mbind M_bind mret M_ret raise get gets modify lift guard_raise
    query exec now_iso uuid4 current_attempt_identity] in *;
  cbn [fst snd w_db set_db set_board set_conn set_after] in *.
Ltac body_cases := repeat (body_unfold; case_match; simplify_eq/=).

Lemma merge_update_task_id st sm up mp e : task_id (merge_update st sm up mp e) = task_id e.
Proof. by destruct st, sm, up, mp. Qed.

Lemma terminal_not_pending st : terminal st = true → st ≠ "pending".
Proof. by intros ? ->. Qed.

(** The identifier test of [submit]. *)
Lemma payload_id p s :
  py_eq (dget_none "task_id" p) (JStr s) = true → dget "task_id" p = Some (JStr s).
Proof.
  intros Hp%py_eq_str. unfold dget_none, dget_default in Hp.
  destruct (dget "task_id" p); simplify_eq/=. done.
Qed.

(** The rows the operations insert. *)
Lemma backlog_row_ok a e : row_ok (mk_task a (task_id e) e None false None false).
Proof. split; simpl; try done; by intros [? ?]. Qed.

Lemma published_row_ok a i e p :
  task_id e = i → dget "task_id" p = Some (JStr i) →
  row_ok (mk_task a i e (Some p) true None false).
Proof. intros ? ?. split; simpl; try done; naive_solver. Qed.

Lemma entry_row_step r a e :
  task_key r = (a, task_id e) → row_step (λ r, set_row_archived false (set_row_entry e r)) r.
Proof. intros Hk. split; [done..|]. intros []. injection Hk as ? ?. split; simpl; auto; done. Qed.

(** The row changes of the operations, each applied to the row read before. *)
Section row_steps.
Context (d : db) (k : string * string) (Hd : inv d).

Lemma selected_row r t :
r ∈ tasks d → task_key r = k → select_key task_key k (tasks d) = Some t → r = t ∧ row_ok r.
Proof.
intros Hr Hk Ht. split; [|by eapply inv_row].
pose proof (select_key_elem _ _ _ (inv_tasks _ Hd) Hr). congruence.
Qed.

Lemma update_row_step r t st sm up mp (b : task_row → bool) :
select_key task_key k (tasks d) = Some t → r ∈ tasks d → task_key r = k →
(b r = true → row_ready r = true) →
row_step (λ r, set_row_ready (b r) (set_row_archived false
                 (set_row_entry (merge_update st sm up mp (row_entry t)) r))) r.
Proof.
intros Ht Hr Hk Hb. destruct (selected_row r t) as [<- []]; [done..|].
split; [done..|]. intros _. split; simpl; rewrite ?merge_update_task_id; naive_solver.
Qed.

(** No row of key [k] is running when the row read was idle or absent. *)
Lemma idle_row r o :
select_key task_key k (tasks d) = o →
from_option (λ t, bool_decide (is_Some (row_current t))) false o = false →
r ∈ tasks d → task_key r = k → row_current r = None.
Proof.
intros Ho Hidle Hr Hk. pose proof (select_key_elem _ _ _ (inv_tasks _ Hd) Hr) as E.
rewrite Hk in E. simplify_eq. rewrite E in Hidle. simpl in Hidle. breflect.
by apply eq_None_not_Some.
Qed.

Lemma publish_row_step r e payload :
row_current r = None → task_id e = snd k → dget "task_id" payload = Some (JStr (snd k)) →
r ∈ tasks d → task_key r = k →
row_step (λ r, set_row_archived false (set_row_ready true
                 (set_row_input (Some payload) (set_row_entry e r)))) r.
Proof.
intros Hc He Hp Hr <-. split; [done..|]. intros _. split; simpl in *; try done.
all: rewrite ?Hc; naive_solver.
Qed.

Lemma resume_row_step r t e :
select_key task_key k (tasks d) = Some t → task_id e = task_id (row_entry t) →
is_Some (row_input t) → row_current r = None → r ∈ tasks d → task_key r = k →
row_step (λ r, set_row_archived false (set_row_ready true (set_row_entry e r))) r.
Proof.
intros Ht He Hi Hc Hr Hk. destruct (selected_row r t) as [<- []]; [done..|].
split; [done..|]. intros _. split; simpl; rewrite ?Hc, ?He; naive_solver.
Qed.

Lemma compact_row_step anima r :
compactable anima r = true → row_step (set_row_archived true) r.
Proof.
unfold compactable. intros Hc. breflect.
split; [done..|]. intros []. split; simpl; auto using terminal_not_pending.
Qed.
End row_steps.

(** Starting an attempt: the attempt row and the task's token are written
    together. *)
Definition start_rows (a : attempt_row) (e : TaskEntry) (d : db) : db :=
  set_tasks
    (update_key task_key (attempt_task a)
       (λ r, set_row_entry e (set_row_ready false (set_row_current (Some (att_token a)) r))) (tasks d))
    (set_attempts (task_attempts d ++ [a]) d).

Lemma running_update_key t k f :
  (∀ r, task_key r = k → task_key (f r) = k) → unique task_key t →
  ∀ x, x ∈ running (update_key task_key k f t) ↔
       (x ∈ running t ∧ fst x ≠ k) ∨
       (fst x = k ∧ ∃ r, r ∈ t ∧ task_key r = k ∧ row_current (f r) = Some (snd x)).
Proof.
  intros Hf Hu [k' tok]. simpl. rewrite !elem_of_running. setoid_rewrite elem_of_update_key.
  split.
  - intros (r & (r0 & Hr0 & [[Hk ->]|[Hk ->]]) & Hk' & Hc); simplify_eq.
    + right. rewrite (Hf r0) by done. eauto 10.
    + left. split; [eauto 10|done].
  - intros [((r & Hr & Hk & Hc) & Hne)|(Hk & r & Hr & Hkr & Hc)]; subst.
    + exists r. split; [|done]. exists r. auto.
    + exists (f r). split; [|split; [by apply Hf|done]]. exists r. auto.
Qed.

Lemma live_snoc a l :
  attempt_live a = true → ∀ x, x ∈ live (l ++ [a]) ↔ x ∈ live l ∨ x = (attempt_task a, att_token a).
Proof.
  intros Ha x. unfold live. rewrite filter_app, fmap_app, elem_of_app.
  rewrite filter_cons, decide_True by done. simpl. by rewrite list_elem_of_singleton.
Qed.

Lemma inv_start d a e r :
  inv d → select_key task_key (attempt_task a) (tasks d) = Some r →
  row_current r = None → is_Some (row_input r) → row_archived r = false →
  task_id e = task_id (row_entry r) → attempt_live a = true →
  any (attempt_clash a) (task_attempts d) = false →
  inv (start_rows a e d).
Proof.
  intros Hd Hsel Hc Hi Har He Hlive Hclash.
  destruct (select_key_Some _ _ _ _ Hsel) as [Hr Hk].
  assert (∀ b, b ∈ task_attempts d →
    att_token a ≠ att_token b ∧ attempt_slot a ≠ attempt_slot b) as Hfresh.
  { intros b Hb. rewrite any_false in Hclash. specialize (Hclash b Hb).
    unfold attempt_clash in Hclash. apply orb_false_iff in Hclash as [Ht Hs]. breflect.
    split; [done|]. intros Heq. apply pair_eq in Heq as [Ha Hn].
    by rewrite !bool_decide_eq_true_2 in Hs by done. }
  pose proof (selected_row d (attempt_task a) Hd) as Hsame.
  destruct Hd. unfold start_rows. split; simpl; try done.
  - apply update_key_unique; done.
  - apply unique_snoc; [|done]. intros (b & Hb & Hb')%list_elem_of_fmap. by destruct (Hfresh b).
  - apply unique_snoc; [|done]. intros (b & Hb & Hb')%list_elem_of_fmap. by destruct (Hfresh b).
  - apply Forall_forall. intros r' (r0 & Hr0 & [[Hk0 ->]|[Hk0 ->]])%elem_of_update_key;
      [|by eapply Forall_forall].
    destruct (Hsame r0 r) as [-> []]; [done..|]. split; simpl; [congruence|done|done|by auto|by rewrite Har].
  - intros b. rewrite elem_of_app, list_elem_of_singleton, update_key_keys by done.
    intros [Hb| ->]; [auto|]. rewrite <- Hk. by apply list_elem_of_fmap_2.
  - intros x. rewrite running_update_key, live_snoc, <- inv_fence0 by done. simpl.
    split; [intros [[Hx _]|(Hx & r0 & Hr0 & Hk0 & Heq)]; [by left|right; destruct x; simplify_eq/=; done]|].
    intros [Hx| ->]; [left|right; eauto 10]. split; [done|]. destruct x as [k' tok].
    intros ?; simplify_eq/=. apply elem_of_running in Hx as (r0 & Hr0 & Hk0 & Hc0).
    destruct (Hsame r0 r) as [-> _]; [done..|]. congruence.
Qed.

(** A change of attempt rows that keeps their identity and liveness. *)
Lemma inv_map_attempts d tok f :
  inv d → (∀ a, att_token (f a) = att_token a) → (∀ a, attempt_slot (f a) = attempt_slot a) →
  (∀ a, attempt_live (f a) = attempt_live a) →
  inv (set_attempts (update_key att_token tok f (task_attempts d)) d).
Proof.
  intros [] Ht Hs Hl.
  assert (∀ a, attempt_task (f a) = attempt_task a) as Hk.
  { intros a. specialize (Hs a). by apply pair_eq in Hs as [? _]. }
  split; simpl; try done.
  - apply update_key_unique; [intros; by rewrite Ht|done].
  - apply update_where_unique; [intros; by rewrite Hs|done].
  - intros a (b & Hb & [[_ ->]|[_ ->]])%elem_of_update_key; rewrite ?Hk; auto.
  - intros [k x]. rewrite inv_fence0, !elem_of_live. setoid_rewrite elem_of_update_key. split.
    + intros (a & Ha & <- & <- & Hla). destruct (decide (att_token a = tok)).
      * exists (f a). rewrite Ht, Hk, Hl. eauto 10.
      * exists a. eauto 10.
    + intros (a & (b & Hb & [[_ ->]|[_ ->]]) & <- & <- & Hla); [|eauto 10].
      rewrite Hl in Hla. rewrite Ht, Hk. eauto 10.
Qed.

(** Ending an attempt: the attempt row is closed and the task's token cleared
    together. *)
Definition finish_rows (r : task_row) (now kind ref tok : string) (e : TaskEntry) (d : db) : db :=
  set_tasks
    (update_key task_key (task_key r)
       (λ t, set_row_ready false (set_row_current None (set_row_entry e t))) (tasks d))
    (set_attempts (update_key att_token tok (end_attempt now kind ref) (task_attempts d)) d).

Lemma select_first_Some {R} (p : R → bool) t r : select_first p t = Some r → r ∈ t ∧ p r = true.
Proof.
  induction t as [|x t IH]; simpl; [done|]. case_match; intros; simplify_eq.
  - split; [left|done].
  - destruct IH; [done|]. split; [by right|done].
Qed.

Lemma attempt_task_row_Some tok d r :
  attempt_task_row tok d = Some r → r ∈ tasks d ∧ row_current r = Some tok.
Proof.
  unfold attempt_task_row. repeat case_match; try done.
  intros [? ?%bool_decide_eq_true]%select_first_Some. done.
Qed.

Lemma inv_finish d tok r now kind ref e :
  inv d → attempt_task_row tok d = Some r → task_id e = task_id (row_entry r) →
  inv (finish_rows r now kind ref tok e d).
Proof.
  intros Hd [Hr Hc]%attempt_task_row_Some He.
  pose proof (selected_row d (task_key r) Hd) as Hsame.
  pose proof (select_key_elem _ _ _ (inv_tasks _ Hd) Hr) as Hsel.
  pose proof (running_token_unique d (task_key r)) as Huniq.
  assert ((task_key r, tok) ∈ running (tasks d)) as Hrun.
  { apply elem_of_running. eauto. }
  specialize (λ k', Huniq k' tok Hd Hrun).
  destruct Hd. split; simpl; try done.
  - by apply update_key_unique.
  - by apply update_key_unique.
  - by apply update_where_unique.
  - apply Forall_forall. intros r' (r0 & Hr0 & [[Hk0 ->]|[Hk0 ->]])%elem_of_update_key;
      [|by eapply Forall_forall].
    destruct (Hsame r0 r) as [-> []]; [done..|].
    split; simpl; [congruence|done|done|by intros [? ?]|].
    intros [? ?]%ok_archived0. congruence.
  - intros a (b & Hb & [[_ ->]|[_ ->]])%elem_of_update_key; rewrite update_key_keys by done; exact (inv_owned0 b Hb).
  - intros [k x]. rewrite running_update_key by done. simpl.
    rewrite inv_fence0. rewrite !elem_of_live. setoid_rewrite elem_of_update_key. split.
    + intros [((a & Ha & <- & <- & Hla) & Hne)|(_ & r0 & _ & _ & ?)]; [|done].
      exists a. split; [|done]. exists a. split; [done|right; split; [|done]].
      intros Htok. apply Hne. symmetry. apply Huniq. apply inv_fence0, elem_of_live. eauto.
    + intros (a & (b & Hb & [[_ ->]|[Hne ->]]) & <- & <- & Hla); [done|].
      left. split; [eauto|]. intros Hk. apply Hne.
      assert ((attempt_task b, att_token b) ∈ running (tasks d)) as Hb'.
      { apply inv_fence0, elem_of_live. eauto. }
      rewrite Hk in Hb'. apply elem_of_running in Hb' as (r0 & Hr0 & Hk0 & Hc0).
      destruct (Hsame r0 r) as [-> _]; [done..|]. congruence.
Qed.

Section preservation.
Context `{PostCommitFrame, Oracle}.

Lemma alias_keeps viewer aid anima tid : within (on_db keeps_inv) (alias viewer aid anima tid).
Proof.
apply within_transaction. intros w Hw. body_cases; try done.
all: apply inv_set_aliases; [done|]; apply insert_or_ignore_unique, Hw.
Qed.

Lemma apply_keeps anima ev : within (on_db keeps_inv) (apply anima ev).
Proof.
apply within_transaction. intros w Hw.
body_cases; try done; try (by apply alias_keeps).
all: try (apply inv_upsert; [done|apply backlog_row_ok|done|];
          intros r' _ Hk; by eapply entry_row_step).
all: apply inv_update_key; [done|]; intros r Hr Hk; eapply update_row_step; simpl; done || eauto.
Qed.

Lemma submit_keeps anima entry payload res :
within (on_db keeps_inv) (submit anima entry payload res).
Proof.
unfold submit. destruct (negb _) eqn:Hid; [apply within_raise|].
apply negb_false_iff, payload_id in Hid.
apply within_transaction. intros w Hw. body_cases; try done.
all: apply inv_acknowledge_task, inv_upsert; [done|by apply published_row_ok|done|].
all: intros r' Hr' Hk; eapply publish_row_step; [| | |exact Hr'|exact Hk]; [|done|done].
all: by eapply idle_row.
Qed.

Lemma resume_keeps anima tid : within (on_db keeps_inv) (resume anima tid).
Proof.
apply within_transaction. intros w Hw. body_cases; try done.
apply inv_acknowledge_task, inv_update_key; [done|]. intros r Hr Hk.
eapply resume_row_step; [done|done|done|by breflect| |exact Hr|exact Hk].
by eapply idle_row.
Qed.

Lemma pause_claims_keeps anima b : within (on_db keeps_inv) (pause_claims anima b).
Proof.
apply within_transaction. intros w Hw. body_unfold.
apply inv_set_control; [done|]. apply upsert_unique; [done|apply Hw].
Qed.

Lemma acknowledge_wakeup_keeps anima tok : within (on_db keeps_inv) (acknowledge_wakeup anima tok).
Proof.
apply within_transaction. intros w Hw. body_unfold.
apply inv_set_wakeups; [done|]. apply update_where_unique; [done|apply Hw].
Qed.

Lemma compact_keeps anima : within (on_db keeps_inv) (compact anima).
Proof.
apply within_transaction. intros w Hw. body_unfold.
apply inv_update_where; [done|]. intros r Hr Hc. by apply compact_row_step in Hc.
Qed.
Lemma check_dependencies_keeps anima tid deps :
within (on_db keeps_inv) (check_dependencies anima tid deps).
Proof.
induction deps as [|dep deps IH]; [apply within_ret|]. intros w Hw.
simpl. body_cases; try done; [|by apply IH].
apply inv_add_wakeup, inv_update_key; [done|]. intros r Hr Hk.
split; [done..|]. intros []. by split.
Qed.

(** A positive answer of the dependency loop touches nothing. *)
Lemma check_dependencies_true anima tid deps w w' :
check_dependencies anima tid deps w = (Ok true, w') →
w' = w ∧ Forall (λ dep, ∃ r, select_key task_key (resolve (w_db w) anima dep) (tasks (w_db w)) = Some r
                           ∧ status (row_entry r) = "done" ∧ row_current r = None) deps.
Proof.
induction deps as [|dep deps IH]; simpl.
{ body_unfold. intros; simplify_eq. auto. }
body_cases; try done. intros [-> Hall]%IH. split; [done|]. constructor; [|done].
match goal with H : _ || _ = false |- _ => apply orb_false_iff in H as [? ?] end. breflect.
eexists. split; [|split; [done|by apply eq_None_not_Some]]. by match goal with H : resolve _ _ _ = _ |- _ => rewrite H end.
Qed.

(** What a started attempt writes, or the failed insertion. *)
Lemma start_attempt_run anima tid identity payload entry w :
let a := mk_attempt (uuid_at (w_uuid w)) anima tid (next_number (anima, tid) (w_db w)) identity
           (now_at (w_clock w)) None None None in
let e := set_meta (dpop "last_run_note" (dpop "last_run_ended_at"
           (dpop "last_run_stop_kind" (meta entry))))
           (set_updated_at (now_at (w_clock w)) (set_status "in_progress" entry)) in
let '(r, w') := start_attempt anima tid identity payload entry w in
if any (attempt_clash a) (task_attempts (w_db w))
then r = Err (IntegrityError "task_attempts") ∧ w_db w' = w_db w
else r = Ok (Some (dset "_attempt_number" (JInt (Z.of_nat (att_number a)))
                     (dset "_attempt_token" (JStr (att_token a)) payload)))
     ∧ w_db w' = start_rows a e (w_db w).
Proof.
intros a e. unfold start_attempt, insert_attempt. body_unfold. simpl. fold a.
destruct (any (attempt_clash a) (task_attempts (w_db w))) eqn:E; done.
Qed.

Lemma claim_keeps anima tid identity n : within (on_db keeps_inv) (claim anima tid identity n).
Proof.
apply within_transaction. intros w Hw. body_cases; try done.
all: match goal with
     | E : check_dependencies ?a ?t ?l ?w0 = (_, ?w1) |- _ =>
         pose proof (check_dependencies_keeps a t l w0 Hw) as Hk; rewrite E in Hk; simpl in Hk
     end; try done.
match goal with E : check_dependencies _ _ _ _ = (Ok true, _) |- _ =>
  apply check_dependencies_true in E as [-> _] end.
match goal with |- inv (w_db (state_of (start_attempt ?a ?t ?i ?p ?e ?w0))) =>
  pose proof (start_attempt_run a t i p e w0) as Hrun end.
destruct (start_attempt _ _ _ _ _ _) as [res w1] eqn:Est. simpl in *.
case_match; destruct Hrun as [_ ->]; [done|].
breflect. eapply inv_start; eauto.
- by apply eq_None_not_Some.
- match goal with E : select_key task_key _ _ = Some ?t |- row_archived ?t = false =>
    apply select_key_Some in E as [E _]; apply (inv_row _ _ Hw) in E as [] end.
  destruct (row_archived t) eqn:Ear; [|done]. naive_solver.
Qed.

Lemma set_identity_keeps tok identity : within (on_db keeps_inv) (set_identity tok identity).
Proof.
apply within_transaction. intros w Hw. body_cases; try done. by apply inv_map_attempts.
Qed.

Lemma finish_keeps tok st kind sm ref : within (on_db keeps_inv) (finish tok st kind sm ref).
Proof.
unfold finish. case_match; [apply within_raise|].
apply within_transaction. intros w Hw. body_cases; try done.
all: try apply inv_add_wakeup.
all: eapply inv_finish; done.
Qed.

(** A reference transform never invents execution input. *)
Definition transform_ok (transform : reference → result reference) : Prop :=
∀ b a, transform b = Ok a → ref_input b = None → ref_input a = None.

(** The records still to rewrite describe the rows as they are. *)
Definition snapshot_ok (anima : string) (records : list (string * reference)) (d : db) : Prop :=
NoDup (fst <$> records) ∧
∀ tid b, (tid, b) ∈ records → ∀ r, r ∈ tasks d → task_key r = (anima, tid) →
  row_entry r = ref_entry b ∧ row_input r = ref_input b.

Lemma rewrite_input_kept b a r p :
row_ok r → row_input r = ref_input b → ref_input b = Some p → immutable_fields b a = Ok tt →
∃ q, ref_input a = Some q ∧ dget "task_id" q = Some (JStr (row_task_id r)).
Proof.
intros [_ Hin _ _ _] Hi Hp Him. unfold immutable_fields in Him.
repeat (case_match; [done|]). breflect. clear Him. rewrite Hp in Hi. specialize (Hin p Hi).
match goal with E : py_eq _ _ = true |- _ => revert E end.
rewrite Hp. simpl. unfold dget_none at 2, dget_default. rewrite Hin. simpl.
intros E%payload_id. destruct (ref_input a) as [q|]; [eauto|done].
Qed.

Lemma rewrite_row_step d anima tid b a r :
inv d → r ∈ tasks d → task_key r = (anima, tid) →
row_entry r = ref_entry b → row_input r = ref_input b →
(ref_input b = None → ref_input a = None) → immutable_fields b a = Ok tt →
row_step (λ r, set_row_input (ref_input a) (set_row_entry (ref_entry a) r)) r.
Proof.
intros Hd Hr [= Ha Ht] He Hi Hnone Him. split; [done..|]. intros Hok.
pose proof (λ p Hp, rewrite_input_kept b a r p Hok Hi Hp Him) as Hsome.
unfold immutable_fields in Him. repeat (case_match; [done|]). breflect. clear Him.
destruct Hok as [Hid Hin Hrd Hrun Har].
rewrite Hi in *. split; simpl; rewrite ?He in *; try congruence.
- intros p Hp. destruct (ref_input b) as [p'|]; [|naive_solver].
  destruct (Hsome p') as (q & Hq & ?); [done|]. congruence.
- intros [[p Hp] ?]%Hrd. destruct (Hsome p) as (q & -> & _); eauto.
- intros [p Hp]%Hrun. destruct (Hsome p) as (q & -> & _); eauto.
- intros [? ?]%Har. split; [done|]. congruence.
Qed.

(** The reference loop visits idle rows one by one; whatever preorder [Q]
  each rewritten row respects, the whole loop respects. *)
Lemma rewrite_loop_run (Q : db → db → Prop) `{!PreOrder Q} anima transform records w :
transform_ok transform →
(∀ d tid b a r, inv d → select_key task_key (anima, tid) (tasks d) = Some r →
   row_entry r = ref_entry b → row_input r = ref_input b → row_current r = None →
   (ref_input b = None → ref_input a = None) → immutable_fields b a = Ok tt →
   Q d (set_tasks (update_key task_key (anima, tid)
          (λ r, set_row_input (ref_input a) (set_row_entry (ref_entry a) r)) (tasks d)) d)) →
inv (w_db w) → snapshot_ok anima records (w_db w) →
let d' := w_db (state_of (rewrite_loop anima transform records w)) in
inv d' ∧ Q (w_db w) d'.
Proof.
intros Htr HQ. simpl. revert w.
induction records as [|[tid b] records IH]; intros w Hw [Hnd Hsnap]; [by split|].
apply NoDup_cons in Hnd as [Hni Hnd]. simpl. body_unfold.
destruct (transform b) as [a|e] eqn:Ea; [|by split]. case_match.
{ apply IH; [done|]. split; [done|]. intros. eapply Hsnap; eauto. by right. }
destruct (immutable_fields b a) as [[]|e] eqn:Eim; [|by split].
destruct (select_key task_key (anima, tid) (tasks (w_db w))) as [r|] eqn:Esel; [|by split].
destruct (bool_decide (is_Some (row_current r))) eqn:Ecur; [by split|]. breflect. simpl.
match goal with |- context [rewrite_loop anima transform records ?w1] => set (w' := w1) end.
destruct (select_key_Some _ _ _ _ Esel) as [Hr Hk].
destruct (Hsnap tid b) with (r := r) as [He Hi]; [left|done|done|].
assert (Q (w_db w) (w_db w')) as HQ'.
{ eapply HQ; eauto. by apply eq_None_not_Some. }
assert (inv (w_db (state_of (rewrite_loop anima transform records w'))) ∧
        Q (w_db w') (w_db (state_of (rewrite_loop anima transform records w')))) as [Hres HQres].
{ apply IH.
  - apply inv_update_key; [done|]. intros r0 Hr0 Hk0.
    destruct (Hsnap tid b) with (r := r0) as [He0 Hi0]; [left|done|done|].
    eapply rewrite_row_step; eauto.
  - split; [done|]. intros tid' b' Hb' r0 Hr0 Hk0.
    apply elem_of_update_key in Hr0 as (r1 & Hr1 & [[Hk1 ->]|[Hk1 ->]]).
    + exfalso. change (task_key r1 = (anima, tid')) in Hk0. rewrite Hk1 in Hk0. simplify_eq.
      apply Hni. by apply (list_elem_of_fmap_2 fst _ (tid', b')).
    + eapply Hsnap; eauto. by right. }
assert (Q (w_db w) (w_db (state_of (rewrite_loop anima transform records w')))) by (by etrans).
by destruct (rewrite_loop anima transform records w') as [[] ?].
Qed.

Lemma reference_records_snapshot anima d :
inv d →
snapshot_ok anima ((λ r, (row_task_id r, mk_reference (row_entry r) (row_input r))) <$>
  filter (λ r, row_anima r = anima ∧ row_archived r = false ∧
               terminal (status (row_entry r)) = false) (tasks d)) d.
Proof.
intros Hd. split.
- rewrite <- list_fmap_compose. apply NoDup_fmap_2_strong.
  + intros r r' ((Ha1 & _) & Hr1)%list_elem_of_filter ((Ha2 & _) & Hr2)%list_elem_of_filter Heq.
    simpl in Heq.
    pose proof (select_key_elem _ _ _ (inv_tasks _ Hd) Hr1) as E1.
    pose proof (select_key_elem _ _ _ (inv_tasks _ Hd) Hr2) as E2.
    unfold task_key in *. congruence.
  + apply NoDup_filter, (NoDup_fmap_1 task_key), Hd.
- intros tid b (r & Heq & ((Ha & _) & Hr)%list_elem_of_filter)%list_elem_of_fmap r' Hr' Hk.
  simplify_eq. destruct (selected_row d (task_key r) Hd r' r) as [-> _]; [done|exact Hk| |done].
  by apply select_key_elem; [apply Hd|].
Qed.

Lemma rewrite_references_run (Q : db → db → Prop) `{!PreOrder Q} anima transform :
transform_ok transform →
(∀ d tid b a r, inv d → select_key task_key (anima, tid) (tasks d) = Some r →
   row_entry r = ref_entry b → row_input r = ref_input b → row_current r = None →
   (ref_input b = None → ref_input a = None) → immutable_fields b a = Ok tt →
   Q d (set_tasks (update_key task_key (anima, tid)
          (λ r, set_row_input (ref_input a) (set_row_entry (ref_entry a) r)) (tasks d)) d)) →
within (on_db (λ d d', inv d → inv d' ∧ Q d d')) (rewrite_references anima transform).
Proof.
intros Htr HQ. assert (Reflexive (λ d d', inv d → inv d' ∧ Q d d')) by (by intros d).
apply within_transaction. intros w Hw. unfold reference_records, reader. body_unfold. destruct (w_conn w); simpl.
all: match goal with |- context [rewrite_loop _ _ ?l ?w1] =>
       exact (rewrite_loop_run Q anima transform l w1 Htr HQ Hw
                (reference_records_snapshot anima (w_db w) Hw)) end.
Qed.

Lemma rewrite_references_keeps anima transform :
transform_ok transform → within (on_db keeps_inv) (rewrite_references anima transform).
Proof.
intros Htr. eapply within_mono; [|by apply (rewrite_references_run (fixes (λ _, tt)))].
intros w w' Hw Hd. by apply Hw.
Qed.
End preservation.
