(* ===== verification/TaskStoreProps.v ===== *)
(** * What the task store guarantees

    The operations of [TaskStore] as the steps of a transition system over the
    database, each step one top-level operation of some process; interleavings
    of processes are sequences of steps, since every operation is one SQLite
    write transaction.  The theorems: the invariant on reachable databases,
    fenced execution, claiming, cancellation, idempotent publication, the
    append-only attempt history, and the task life cycle as a refinement. *)

From stdpp Require Import prelude strings list gmap relations.
From S2P Require Import Prelude PyValue Sql TaskModels TaskStore TaskStoreInv.

(* ------------------------------------------------------------------ *)
(** ** Steps *)

Inductive store_op :=
| OpApply (anima : string) (ev : task_event)
| OpAlias (viewer alias_id anima tid : string)
| OpSubmit (anima : string) (entry : TaskEntry) (payload : dict) (resume : bool)
| OpResume (anima tid : string)
| OpClaim (anima tid : string) (identity : dict) (max_active : Z)
| OpPause (anima : string) (paused : bool)
| OpSetIdentity (token : string) (identity : dict)
| OpFinish (token st stop_kind : string) (summary_ : option string) (result_ref : string)
| OpAcknowledge (anima token : string)
| OpCompact (anima : string)
| OpRewrite (anima : string) (transform : reference → result reference).

Definition op_ok (op : store_op) : Prop :=
  match op with OpRewrite _ tr => transform_ok tr | _ => True end.

Section steps.
Context `{PostCommit, Oracle}.

Definition run_op (op : store_op) : M world unit :=
match op with
| OpApply a ev => apply a ev
| OpAlias v al a t => alias v al a t
| OpSubmit a e p r => _ ← submit a e p r; mret tt
| OpResume a t => _ ← resume a t; mret tt
| OpClaim a t i n => _ ← claim a t i n; mret tt
| OpPause a b => pause_claims a b
| OpSetIdentity k i => _ ← set_identity k i; mret tt
| OpFinish k st sk sm rr => _ ← finish k st sk sm rr; mret tt
| OpAcknowledge a k => acknowledge_wakeup a k
| OpCompact a => _ ← compact a; mret tt
| OpRewrite a tr => _ ← rewrite_references a tr; mret tt
end.

(** One top-level operation of a process in any state of its own. *)
Inductive step : db → db → Prop :=
| step_op op w :
  op_ok op → w_conn w = None → step (w_db w) (w_db (state_of (run_op op w))).

Definition reachable (d : db) : Prop := rtc step empty_db d.
End steps.

Lemma empty_db_inv : inv empty_db.
Proof.
  split; simpl; try apply NoDup_nil; try done; try apply Forall_nil; try done.
  by intros ? ?%not_elem_of_nil.
Qed.

Section invariant.
Context `{PostCommitFrame, Oracle}.

Lemma run_op_keeps op : op_ok op → within (on_db keeps_inv) (run_op op).
Proof.
intros Hop. destruct op; simpl;
  try (apply within_bind; [|intros; apply within_ret]);
  eauto using apply_keeps, alias_keeps, submit_keeps, resume_keeps, claim_keeps,
    pause_claims_keeps, set_identity_keeps, finish_keeps, acknowledge_wakeup_keeps,
    compact_keeps, rewrite_references_keeps.
Qed.

Lemma step_inv d d' : step d d' → inv d → inv d'.
Proof. intros [op w Hop Hc] Hd. by apply (run_op_keeps op Hop w). Qed.

Lemma reachable_inv d : reachable d → inv d.
Proof.
intros Hr. unfold reachable in Hr. remember empty_db as d0 eqn:E.
assert (inv d0) as Hd0 by (subst; apply empty_db_inv). clear E.
induction Hr; eauto using step_inv.
Qed.
End invariant.

(* ------------------------------------------------------------------ *)
(** ** Claiming *)

(** The tasks of an anima with a running attempt. *)
Definition active_tasks (anima : string) (d : db) : list task_row :=
  filter (λ t, row_anima t = anima ∧ is_Some (row_current t)) (tasks d).

(** A dependency is satisfied: it resolves to a finished, idle task. *)
Definition dependency_done (anima : string) (d : db) (dep : string) : Prop :=
  ∃ r, select_key task_key (resolve d anima dep) (tasks d) = Some r
       ∧ status (row_entry r) = "done" ∧ row_current r = None.

(** Everything [claim] demands of the task it starts. *)
Record claimable (anima tid : string) (n : Z) (d : db) (r : task_row) (payload : dict)
    (deps : list string) : Prop := {
  cl_row : select_key task_key (anima, tid) (tasks d) = Some r;
  cl_input : row_input r = Some payload;
  cl_ready : row_ready r = true;
  cl_idle : row_current r = None;
  cl_pending : status (row_entry r) = "pending";
  cl_unpaused : claims_paused (select_key cc_anima anima (task_claim_control d)) = false;
  cl_capacity : (Z.of_nat (length (active_tasks anima d)) < n)%Z;
  cl_batch : ∃ inputs, mapM row_input (active_tasks anima d) = Some inputs
                       ∧ batch_blocked payload inputs = false;
  cl_deps : depends_on payload = Ok deps;
  cl_deps_done : Forall (dependency_done anima d) deps
}.

Section claiming.
Context `{PostCommitFrame, Oracle}.

Definition new_attempt (anima tid : string) (identity : dict) (w : world) : attempt_row :=
mk_attempt (uuid_at (w_uuid w)) anima tid (next_number (anima, tid) (w_db w)) identity
  (now_at (w_clock w)) None None None.
Definition started_entry (e : TaskEntry) (w : world) : TaskEntry :=
set_meta (dpop "last_run_note" (dpop "last_run_ended_at" (dpop "last_run_stop_kind" (meta e))))
  (set_updated_at (now_at (w_clock w)) (set_status "in_progress" e)).

Lemma claim_success anima tid identity n w p w' :
w_conn w = None → claim anima tid identity n w = (Ok (Some p), w') →
∃ r payload deps,
  claimable anima tid n (w_db w) r payload deps ∧
  any (attempt_clash (new_attempt anima tid identity w)) (task_attempts (w_db w)) = false ∧
  p = dset "_attempt_number" (JInt (Z.of_nat (next_number (anima, tid) (w_db w))))
        (dset "_attempt_token" (JStr (uuid_at (w_uuid w))) payload) ∧
  w_db w' = start_rows (new_attempt anima tid identity w) (started_entry (row_entry r) w) (w_db w).
Proof.
intros Hc (w1 & Hrun & Hdb)%transaction_ok; [|done].
revert Hrun. body_cases; try done.
match goal with E : check_dependencies _ _ _ _ = _ |- _ =>
  apply check_dependencies_true in E as [-> Hdeps] end.
match goal with |- start_attempt ?a ?t ?i ?p0 ?e ?w0 = _ → _ =>
  pose proof (start_attempt_run a t i p0 e w0) as Hst end.
intros Hrun. rewrite Hrun in Hst. simpl in Hst.
destruct (any _ _) eqn:Hclash in Hst; [by destruct Hst|]. destruct Hst as [Hp Hd1].
eexists _, _, _. split; [|split; [exact Hclash|split; [by injection Hp|by rewrite Hdb, Hd1]]].
match goal with E : _ || _ = false |- _ => apply orb_false_iff in E as [? ?] end. breflect.
split; eauto. 
- by apply eq_None_not_Some.
- unfold active_tasks. lia.
Qed.

Lemma next_number_above k d a :
a ∈ task_attempts d → attempt_task a = k → att_number a < next_number k d.
Proof.
intros Ha Hk. unfold next_number. apply Nat.lt_succ_r, max_list_elem_of_le.
apply list_elem_of_fmap_2, list_elem_of_filter. done.
Qed.

Lemma start_rows_active anima tid a e d r :
inv d → attempt_task a = (anima, tid) → select_key task_key (anima, tid) (tasks d) = Some r →
row_current r = None →
length (active_tasks anima (start_rows a e d)) = S (length (active_tasks anima d)).
Proof.
intros Hd Ha Hs Hc. unfold active_tasks, start_rows. simpl. rewrite Ha.
apply (count_update_key task_key) with (r := r); [apply Hd|done| |].
- rewrite Hc. by intros [_ [? ?]].
- apply select_key_Some in Hs as [_ Hk]. injection Hk as ? ?. simpl. eauto.
Qed.

Lemma start_rows_select a e d r k :
select_key task_key (attempt_task a) (tasks d) = Some r →
select_key task_key k (tasks (start_rows a e d)) =
  if decide (k = attempt_task a)
  then Some (set_row_entry e (set_row_ready false (set_row_current (Some (att_token a)) r)))
  else select_key task_key k (tasks d).
Proof.
intros Hs. unfold start_rows. simpl. rewrite select_update_key by done.
case_decide; subst; [by rewrite Hs|done].
Qed.
End claiming.

Section atomicity.
Context `{PostCommitFrame, Oracle}.

Lemma transaction_raises {A} (body : M world A) w :
w_conn w = None → is_ok (val_of (body (begin_write w))) = false →
is_ok (val_of (transaction body w)) = false ∧ w_db (state_of (transaction body w)) = w_db w.
Proof.
intros Hc Hb. destruct (transaction_top body w Hc) as (Hv & Hd & _). rewrite Hv, Hd.
by destruct (val_of (body (begin_write w))).
Qed.

Definition atomic_run {A} (m : M world A) (w : world) : Prop :=
(is_ok (val_of (m w)) = false → w_db (state_of (m w)) = w_db w) ∧
w_conn (state_of (m w)) = None ∧ w_after (state_of (m w)) = [].

Lemma atomic_transaction {A} (body : M world A) w :
w_conn w = None → atomic_run (transaction body) w.
Proof.
intros Hc. destruct (transaction_top body w Hc) as (Hv & Hd & Hn & Ha). split_and!; [|done..].
rewrite Hv, Hd. by destruct (val_of (body (begin_write w))).
Qed.

Lemma atomic_bind_ret {A} (m : M world A) w :
atomic_run m w → atomic_run (m ≫= λ _, mret tt) w.
Proof.
unfold atomic_run. run_unfold. by destruct (m w) as [[] ?].
Qed.
End atomicity.

(* ------------------------------------------------------------------ *)
(** ** Completion *)

(** The wakeup of a completed attempt, on top of the closed rows. *)
Definition finish_wakeups (k : option wakeup_row) (d : db) : db :=
  match k with Some k => add_wakeup k d | None => d end.

Lemma finish_wakeups_tasks k d : tasks (finish_wakeups k d) = tasks d.
Proof. by destruct k. Qed.
Lemma finish_wakeups_attempts k d : task_attempts (finish_wakeups k d) = task_attempts d.
Proof. by destruct k. Qed.
Lemma finish_wakeups_added k d :
  ∀ x, wakeup_key <$> k = Some x → x ∈ wakeup_key <$> task_wakeups (finish_wakeups k d).
Proof.
  intros x Hx. destruct k as [k|]; simplify_eq/=. unfold insert_or_ignore.
  destruct (select_key wakeup_key (wakeup_key k) (task_wakeups d)) eqn:E.
  - apply select_key_Some in E as [E <-]. by apply list_elem_of_fmap_2.
  - rewrite fmap_app. apply elem_of_app. right. by left.
Qed.

Lemma running_attempt_row d r tok :
  inv d → r ∈ tasks d → row_current r = Some tok →
  ∃ a, select_key att_token tok (task_attempts d) = Some a ∧ attempt_live a = true ∧
       attempt_task a = task_key r.
Proof.
  intros Hd Hr Hc.
  assert ((task_key r, tok) ∈ live (task_attempts d)) as Hl.
  { apply Hd, elem_of_running. eauto. }
  apply elem_of_live in Hl as (a & Ha & Hk & <- & Hlive). exists a.
  split; [|done]. by apply select_key_elem; [apply Hd|].
Qed.

Lemma select_first_unique {R} (p : R → bool) t r :
  r ∈ t → p r = true → (∀ r', r' ∈ t → p r' = true → r' = r) → select_first p t = Some r.
Proof.
  induction t as [|x t IH]; [by intros ?%not_elem_of_nil|]. intros Hr Hp Hu. simpl.
  destruct (p x) eqn:E; [f_equal; apply Hu; [left|done]|].
  apply IH; [|done|intros; apply Hu; [by right|done]].
  apply elem_of_cons in Hr as [->|?]; [congruence|done].
Qed.

(** The running row is the one the completion query finds. *)
Lemma attempt_task_row_running d r tok :
  inv d → r ∈ tasks d → row_current r = Some tok → attempt_task_row tok d = Some r.
Proof.
  intros Hd Hr Hc. destruct (running_attempt_row d r tok Hd Hr Hc) as (a & Ha & Hl & _).
  unfold attempt_task_row. rewrite Ha, Hl. apply select_first_unique; [done|by apply bool_decide_eq_true|].
  intros r' Hr' Hc'%bool_decide_eq_true.
  assert (task_key r' = task_key r) as Hk.
  { eapply running_token_unique; [done|apply elem_of_running; eauto..]. }
  pose proof (select_key_elem _ _ _ (inv_tasks _ Hd) Hr).
  pose proof (select_key_elem _ _ _ (inv_tasks _ Hd) Hr'). congruence.
Qed.

Section completion.
Context `{PostCommitFrame, Oracle}.

Lemma finish_success tok st kind sm ref w r :
w_conn w = None → inv (w_db w) → st ∈ ["pending"; "done"; "cancelled"] →
r ∈ tasks (w_db w) → row_current r = Some tok →
let st' := if bool_decide (status (row_entry r) = "cancelled") then "cancelled" else st in
∃ e k, val_of (finish tok st kind sm ref w) = Ok true ∧
  w_db (state_of (finish tok st kind sm ref w)) =
    finish_wakeups k (finish_rows r (now_at (w_clock w)) kind ref tok e (w_db w)) ∧
  status e = st' ∧
  (st' = "pending" → wakeup_key <$> k = Some (row_anima r, row_task_id r, tok)).
Proof.
intros Hc Hd Hst Hr Hcur st'. unfold finish, str_in. rewrite bool_decide_eq_true_2 by done. simpl.
pose proof (attempt_task_row_running _ _ _ Hd Hr Hcur) as Hrow.
match goal with |- context [transaction ?b w] =>
  destruct (b (begin_write w)) as [v w1] eqn:E;
  assert (∃ e k, v = Ok true ∧
    w_db w1 = finish_wakeups k (finish_rows r (now_at (w_clock w)) kind ref tok e (w_db w)) ∧
    status e = st' ∧
    (st' = "pending" → wakeup_key <$> k = Some (row_anima r, row_task_id r, tok)))
    as (e & k & -> & Hdb & He & Hk)
end.
{ revert E. body_unfold. simpl. rewrite Hrow. fold st'.
  destruct (bool_decide (st' = "pending")) eqn:Ep; [|destruct (_ && _) eqn:Ed]; simpl; intros; simplify_eq.
  all: breflect; eexists _.
  1-2: eexists (Some _). 3: eexists None.
  all: split; [done|split; [done|split; [by destruct sm|done]]]. }
exists e, k. destruct (transaction_run _ _ _ _ Hc E) as [Hv Hdb']. rewrite Hv, Hdb'. done.
Qed.
End completion.

(* ------------------------------------------------------------------ *)
(** ** Cancellation *)

Definition cancelled_at (k : string * string) (d : db) : Prop :=
  ∃ r, select_key task_key k (tasks d) = Some r ∧ status (row_entry r) = "cancelled".

(** The operations that may put a cancelled task back to work: an update to
    pending, a new entry or publication under its identifier, a resume. *)
Definition requeues (op : store_op) : bool :=
  match op with
  | OpApply _ (EvUpdate _ (Some st) _ _ _) => bool_decide (st = "pending")
  | OpApply _ (EvEntry _) | OpSubmit _ _ _ _ | OpResume _ _ => true
  | _ => false
  end.

Lemma cancelled_update_key k k' f d d' :
  (∀ r, task_key (f r) = task_key r) →
  (∀ r, select_key task_key k (tasks d) = Some r → k = k' → status (row_entry r) = "cancelled" →
        status (row_entry (f r)) = "cancelled") →
  cancelled_at k d → cancelled_at k (set_tasks (update_key task_key k' f (tasks d)) d').
Proof.
  intros Hf Hs (r & Hr & Hst). unfold cancelled_at. simpl.
  rewrite select_update_key by (intros; by rewrite Hf). case_decide as Hk; [|eauto].
  rewrite Hr. simpl. eauto.
Qed.

Lemma select_update_where_static p f t k :
  (∀ r, task_key (f r) = task_key r) →
  select_key task_key k (update_where p f t) =
    (λ r, if p r : bool then f r else r) <$> select_key task_key k t.
Proof.
  intros Hf. induction t as [|r t IH]; [done|]. unfold update_where in *. csimpl.
  assert (task_key (if p r then f r else r) = task_key r) as -> by (by case_match).
  by case_bool_decide.
Qed.

(** From an invariant database with task [k] cancelled to one with it cancelled. *)
Definition keeps_cancelled (k : string * string) : db → db → Prop :=
  λ d d', inv d → cancelled_at k d → cancelled_at k d'.
#[global] Instance keeps_cancelled_refl k : Reflexive (keeps_cancelled k).
Proof. by intros d ? ?. Qed.

Section cancellation.
Context `{PostCommitFrame, Oracle} (k : string * string).

Lemma static_cancelled {A} (m : M world A) :
within (on_db (λ d d', tasks d' = tasks d)) m → within (on_db (keeps_cancelled k)) m.
Proof.
intros Hm. eapply within_mono; [|exact Hm]. intros w w' Ht _ (r & Hr & Hs).
unfold on_db in Ht. exists r. by rewrite Ht.
Qed.

Lemma check_dependencies_cancelled anima tid deps :
within (on_db (keeps (cancelled_at k))) (check_dependencies anima tid deps).
Proof.
induction deps as [|dep deps IH]; [apply within_ret|]. intros w Hk.
simpl. body_cases; try done; [|by apply IH].
by apply cancelled_update_key.
Qed.

Lemma claim_cancelled anima tid identity n :
within (on_db (keeps_cancelled k)) (claim anima tid identity n).
Proof.
apply within_transaction. intros w _ Hk. body_cases; try done.
all: match goal with
     | E : check_dependencies ?a ?t ?l ?w0 = (_, ?w1) |- _ =>
         pose proof (check_dependencies_cancelled a t l w0 Hk) as Hk1; rewrite E in Hk1; simpl in Hk1
     end; try done.
match goal with E : check_dependencies _ _ _ _ = (Ok true, _) |- _ =>
  apply check_dependencies_true in E as [-> _] end.
match goal with |- cancelled_at _ (w_db (state_of (start_attempt ?a ?t ?i ?p ?e ?w0))) =>
  pose proof (start_attempt_run a t i p e w0) as Hrun end.
destruct (start_attempt _ _ _ _ _ _) as [res w1] eqn:Est. simpl in *.
case_match; destruct Hrun as [_ ->]; [done|].
apply cancelled_update_key; [done| |done]. intros r Hr Hkk Hst.
unfold attempt_task in Hkk. simpl in *. breflect. congruence.
Qed.

Lemma finish_cancelled tok st kind sm ref :
within (on_db (keeps_cancelled k)) (finish tok st kind sm ref).
Proof.
unfold finish. case_match; [apply static_cancelled, within_raise|].
apply within_transaction. intros w Hd Hk. body_cases; try done.
all: apply cancelled_update_key; [done| |done]; simpl; intros r Hr -> Hst.
all: match goal with E : attempt_task_row _ _ = Some ?t |- _ =>
  apply attempt_task_row_Some in E as [Ht _];
  pose proof (select_key_elem _ _ _ (inv_tasks _ Hd) Ht) end.
all: simplify_eq; breflect; by try congruence.
Qed.

Lemma compact_cancelled anima : within (on_db (keeps_cancelled k)) (compact anima).
Proof.
apply within_transaction. intros w _ (r & Hr & Hst). body_unfold. unfold cancelled_at. simpl.
rewrite select_update_where_static by done. rewrite Hr. simpl. eexists. split; [done|].
by case_match.
Qed.

Lemma merge_update_status st sm up mp e :
status (merge_update st sm up mp e) = default (status e) st.
Proof. by destruct st, sm, up, mp. Qed.

Lemma apply_update_cancelled anima id st sm up mp :
st ≠ Some "pending" → within (on_db (keeps_cancelled k)) (apply anima (EvUpdate id st sm up mp)).
Proof.
intros Hne. apply within_transaction. intros w _ Hk. body_cases; try done.
all: apply cancelled_update_key; [done| |done]; simpl; intros r Hr -> Hst; simplify_eq.
all: rewrite merge_update_status.
all: match goal with E : bool_decide (status (row_entry ?t) = "cancelled") && _ = false,
                          E2 : _ && _ = false |- _ => idtac end.
all: rewrite bool_decide_eq_true_2 in * by done; simpl in *; breflect.
all: destruct st as [v|]; [|done]; simpl in *; unfold str_in in *; breflect; set_solver.
Qed.

Lemma rewrite_loop_other anima tr records w :
(∀ tid b, (tid, b) ∈ records → k ≠ (anima, tid)) →
select_key task_key k (tasks (w_db (state_of (rewrite_loop anima tr records w)))) =
select_key task_key k (tasks (w_db w)).
Proof.
revert w. induction records as [|[tid b] records IH]; intros w Hne; [done|].
assert (∀ w, select_key task_key k (tasks (w_db (state_of (rewrite_loop anima tr records w)))) =
             select_key task_key k (tasks (w_db w))) as IH'.
{ intros w'. apply IH. intros. eapply Hne. by right. }
simpl. body_unfold. destruct (tr b) as [a|e]; [|done]. case_match; [apply IH'|].
destruct (immutable_fields b a) as [[]|e]; [|done].
destruct (select_key task_key (anima, tid) (tasks (w_db w))) as [r|]; [|done].
destruct (bool_decide (is_Some (row_current r))); [done|]. simpl.
match goal with |- context [rewrite_loop anima tr records ?w1] => set (w' := w1) end.
specialize (IH' w').
assert (select_key task_key k (tasks (w_db w')) = select_key task_key k (tasks (w_db w))) as Hw'.
{ simpl. rewrite select_update_key, decide_False; [done| |done]. eapply Hne. left. }
destruct (rewrite_loop anima tr records w') as [[] w'']; simpl in *; congruence.
Qed.

Lemma rewrite_references_cancelled anima tr :
within (on_db (keeps_cancelled k)) (rewrite_references anima tr).
Proof.
apply within_transaction. intros w Hd (r & Hr & Hst). unfold reference_records, reader.
body_unfold. unfold cancelled_at. destruct (w_conn w); simpl.
all: exists r; split; [|done]; rewrite rewrite_loop_other; [done|].
all: intros tid b (r' & Heq & ((Ha & _ & Ht) & Hr')%list_elem_of_filter)%list_elem_of_fmap ->.
all: simplify_eq/=.
all: pose proof (select_key_elem _ _ _ (inv_tasks _ Hd) Hr') as E.
all: change (task_key r') with (row_anima r', row_task_id r') in E.
all: rewrite E in Hr; simplify_eq; by rewrite Hst in Ht.
Qed.

Lemma run_op_cancelled op :
op_ok op → requeues op = false → within (on_db (keeps_cancelled k)) (run_op op).
Proof.
intros Hop Hq. destruct op as [a [e|id st sm up mp]| | | | | | | | | |]; simpl in *; try done.
- apply apply_update_cancelled. intros ->. by rewrite bool_decide_eq_true_2 in Hq.
- apply static_cancelled, within_transaction. intros w. by body_cases.
- apply within_ret_bind, claim_cancelled.
- by apply static_cancelled, within_transaction; intros w.
- apply within_ret_bind, static_cancelled, within_transaction. intros w. by body_cases.
- apply within_ret_bind, finish_cancelled.
- by apply static_cancelled, within_transaction; intros w.
- apply within_ret_bind, compact_cancelled.
- apply within_ret_bind, rewrite_references_cancelled.
Qed.
End cancellation.

Section store_theorems.
Context `{PostCommitFrame, Oracle}.

(** C1. Every database reached from the empty one by any sequence of store
  operations, whichever processes issue them, satisfies the invariant; in
  particular two unended attempts of one task are the same attempt, and a
  token is the current attempt of a task exactly when it is that task's
  unended attempt. *)
Theorem reachable_consistent d :
reachable d →
inv d ∧
(∀ a b, a ∈ task_attempts d → b ∈ task_attempts d → attempt_task a = attempt_task b →
   att_ended_at a = None → att_ended_at b = None → a = b) ∧
(∀ k tok, (∃ r, r ∈ tasks d ∧ task_key r = k ∧ row_current r = Some tok) ↔
          (∃ a, a ∈ task_attempts d ∧ attempt_task a = k ∧ att_token a = tok ∧
                att_ended_at a = None)).
Proof.
intros Hd%reachable_inv.
assert (∀ a, attempt_live a = true ↔ att_ended_at a = None) as Hl.
{ intros a. unfold attempt_live. by destruct (att_ended_at a). }
split_and!; [done| |].
- intros a b Ha Hb Hab Hea Heb.
  assert ((attempt_task a, att_token a) ∈ running (tasks d)) as Ra.
  { apply Hd, elem_of_live. exists a. by rewrite Hl. }
  assert ((attempt_task a, att_token b) ∈ running (tasks d)) as Rb.
  { apply Hd, elem_of_live. exists b. by rewrite Hl. }
  pose proof (running_attempt_unique _ _ _ _ Hd Ra Rb) as Htok.
  pose proof (select_key_elem _ _ _ (inv_tokens _ Hd) Ha).
  pose proof (select_key_elem _ _ _ (inv_tokens _ Hd) Hb). congruence.
- intros k tok. rewrite <- elem_of_running, (inv_fence _ Hd), elem_of_live.
  by setoid_rewrite Hl.
Qed.

(** C2. A claim that succeeds started a scheduled, pending, idle task with
  saved input; the anima's claims were not paused, its running tasks were
  fewer than [max_active], no serial batch was violated, and every
  dependency was done with no attempt running. *)
Theorem claim_guards anima tid identity n w p w' :
w_conn w = None → claim anima tid identity n w = (Ok (Some p), w') →
∃ r payload deps, claimable anima tid n (w_db w) r payload deps ∧
  p = dset "_attempt_number" (JInt (Z.of_nat (next_number (anima, tid) (w_db w))))
        (dset "_attempt_token" (JStr (uuid_at (w_uuid w))) payload).
Proof.
intros Hc Hcl. destruct (claim_success _ _ _ _ _ _ _ Hc Hcl) as (r & pl & deps & Hok & _ & Hp & _).
eauto.
Qed.

(** What a successful claim leaves behind: the task is in progress under
  the new token, unscheduled, with its input untouched; the attempt row is
  recorded unended with a number above every earlier attempt of the task
  and a token never used before; and the anima's running tasks, one more
  than before, still respect [max_active]. *)
Theorem claim_effect anima tid identity n w p w' :
w_conn w = None → inv (w_db w) → claim anima tid identity n w = (Ok (Some p), w') →
let a := new_attempt anima tid identity w in
(∃ r r', select_key task_key (anima, tid) (tasks (w_db w)) = Some r ∧
   select_key task_key (anima, tid) (tasks (w_db w')) = Some r' ∧
   row_current r' = Some (att_token a) ∧ row_ready r' = false ∧
   row_input r' = row_input r ∧ status (row_entry r') = "in_progress") ∧
task_attempts (w_db w') = task_attempts (w_db w) ++ [a] ∧
att_ended_at a = None ∧
(∀ b, b ∈ task_attempts (w_db w) →
   att_token b ≠ att_token a ∧ (attempt_task b = attempt_task a → att_number b < att_number a)) ∧
length (active_tasks anima (w_db w')) = S (length (active_tasks anima (w_db w))) ∧
(Z.of_nat (length (active_tasks anima (w_db w'))) ≤ n)%Z.
Proof.
intros Hc Hd Hcl a.
destruct (claim_success _ _ _ _ _ _ _ Hc Hcl) as (r & pl & deps & [] & Hfresh & _ & Hdb).
assert (length (active_tasks anima (w_db w')) = S (length (active_tasks anima (w_db w)))) as Hn.
{ rewrite Hdb. by eapply start_rows_active. }
split_and!; [|by rewrite Hdb|done| |done|lia].
- rewrite Hdb. eexists r, _. split; [done|].
  rewrite (start_rows_select _ _ _ r) by done. rewrite decide_True by done. done.
- intros b Hb. split.
  + intros Ht. rewrite any_false in Hfresh. specialize (Hfresh b Hb).
    apply orb_false_iff in Hfresh as [Hf _]. breflect. apply Hf. done.
  + intros Hk. by apply next_number_above.
Qed.

(** The fence on completion: a token that is not the running attempt of
  any task ends nothing.  [finish] reports False and the database is
  exactly as before, whatever outcome is claimed. *)
Theorem finish_fenced tok st kind sm ref w :
w_conn w = None → st ∈ ["pending"; "done"; "cancelled"] →
(∀ r, r ∈ tasks (w_db w) → row_current r ≠ Some tok) →
val_of (finish tok st kind sm ref w) = Ok false ∧
w_db (state_of (finish tok st kind sm ref w)) = w_db w.
Proof.
intros Hc Hst Hno. unfold finish, str_in. rewrite bool_decide_eq_true_2 by done. simpl.
assert (attempt_task_row tok (w_db w) = None) as Hnone.
{ destruct (attempt_task_row tok (w_db w)) as [r|] eqn:E; [|done].
  apply attempt_task_row_Some in E as [Hr Hcur]. by destruct (Hno r). }
eapply (transaction_run _ _ _ (begin_write w)); [done|]. body_unfold. simpl. by rewrite Hnone.
Qed.

(** C3. The fence on updates: a process acting for an attempt that is no
  longer the current one of its task can neither update, replace, publish
  nor resume that task; the operation raises and the database is exactly
  as before. *)
Theorem stale_attempt_rejected anima ev entry payload res tid i w :
w_conn w = None → w_ctx_identity w = Some i →
(∀ r, r ∈ tasks (w_db w) → task_key r = (id_anima i, id_task_id i) →
      row_current r ≠ Some (id_token i)) →
(resolve (w_db w) anima (event_task_id ev) = (id_anima i, id_task_id i) →
   is_ok (val_of (apply anima ev w)) = false ∧ w_db (state_of (apply anima ev w)) = w_db w) ∧
((anima, task_id entry) = (id_anima i, id_task_id i) →
   is_ok (val_of (submit anima entry payload res w)) = false ∧
   w_db (state_of (submit anima entry payload res w)) = w_db w) ∧
(resolve (w_db w) anima tid = (id_anima i, id_task_id i) →
   is_ok (val_of (resume anima tid w)) = false ∧ w_db (state_of (resume anima tid w)) = w_db w).
Proof.
intros Hc Hi Hno.
assert (stale_identity (Some i) (id_anima i, id_task_id i)
          (select_key task_key (id_anima i, id_task_id i) (tasks (w_db w))) = true) as Hstale.
{ unfold stale_identity. rewrite bool_decide_eq_true_2 by done.
  destruct (select_key _ _ _) as [r|] eqn:E; [|done].
  apply select_key_Some in E as [Hr Hk]. by rewrite bool_decide_eq_false_2 by auto. }
split_and!; intros Hk.
- unfold apply. apply transaction_raises; [done|]. body_unfold. simpl. rewrite Hk.
  unfold identity_result. simpl. rewrite Hi, Hstale. done.
- unfold submit. case_match; [done|]. apply transaction_raises; [done|]. body_unfold. simpl. rewrite Hk.
  unfold identity_result. simpl. rewrite Hi, Hstale. done.
- unfold resume. apply transaction_raises; [done|]. body_unfold. simpl. rewrite Hk.
  destruct (select_key _ _ _) as [r|] eqn:E; [|done].
  unfold identity_result. simpl. rewrite Hi, Hstale. done.
Qed.

(** C4. Every operation is atomic: when it raises, the database is exactly as
  before; and it never leaves a connection open or a callback queued. *)
Theorem operations_atomic op w :
w_conn w = None → w_after w = [] →
(is_ok (val_of (run_op op w)) = false → w_db (state_of (run_op op w)) = w_db w) ∧
w_conn (state_of (run_op op w)) = None ∧ w_after (state_of (run_op op w)) = [].
Proof.
intros Hc Ha. destruct op; simpl; try apply atomic_bind_ret; try (by apply atomic_transaction).
all: unfold submit, finish; case_match; [done|by apply atomic_transaction].
Qed.

(** Completing an attempt: when [tok] is the running attempt of task row
  [r], [finish] succeeds, the attempt row is closed with its outcome, the
  task is idle and unscheduled with the declared status (a cancelled task
  stays cancelled), a wakeup for [tok] exists when the work is left
  pending, and the same token can end nothing a second time. *)
Theorem finish_effect tok st kind sm ref w r :
w_conn w = None → inv (w_db w) → st ∈ ["pending"; "done"; "cancelled"] →
r ∈ tasks (w_db w) → row_current r = Some tok →
let w' := state_of (finish tok st kind sm ref w) in
let st' := if bool_decide (status (row_entry r) = "cancelled") then "cancelled" else st in
val_of (finish tok st kind sm ref w) = Ok true ∧
(∃ r', select_key task_key (task_key r) (tasks (w_db w')) = Some r' ∧
   row_current r' = None ∧ row_ready r' = false ∧ row_input r' = row_input r ∧
   status (row_entry r') = st') ∧
(∃ a, select_key att_token tok (task_attempts (w_db w')) = Some a ∧
   is_Some (att_ended_at a) ∧ att_stop_kind a = Some kind ∧ att_result_ref a = Some ref ∧
   attempt_task a = task_key r) ∧
(st' = "pending" → (row_anima r, row_task_id r, tok) ∈ wakeup_key <$> task_wakeups (w_db w')) ∧
attempt_task_row tok (w_db w') = None.
Proof.
intros Hc Hd Hst Hr Hcur w' st'.
destruct (finish_success tok st kind sm ref w r Hc Hd Hst Hr Hcur) as (e & k & Hv & Hdb & He & Hw).
destruct (running_attempt_row (w_db w) r tok Hd Hr Hcur) as (a & Ha & Hlive & Hak).
subst w'. rewrite Hv. split_and!; [done|..].
- rewrite Hdb. eexists. rewrite finish_wakeups_tasks. simpl.
  rewrite select_update_key, decide_True, (select_key_elem _ _ r (inv_tasks _ Hd) Hr) by done.
  simpl. split; [reflexivity|simpl; by rewrite He].
- rewrite Hdb. eexists. rewrite finish_wakeups_attempts. simpl.
  rewrite select_update_key, decide_True, Ha by done. simpl. eauto 10.
- intros Hp. rewrite Hdb. apply finish_wakeups_added. by apply Hw.
- rewrite Hdb. unfold attempt_task_row. rewrite finish_wakeups_attempts. simpl.
  by rewrite select_update_key, decide_True, Ha.
Qed.

End store_theorems.
