(* ===== verification/TaskLifecycle.v ===== *)
(** * The task life cycle

    The abstract life cycle of a task and the refinement theorem that every
    store operation moves every task along it; the attempt history as an
    append-only log; publication. *)

From stdpp Require Import prelude strings list gmap relations.
From S2P Require Import Prelude PyValue Sql TaskModels TaskStore TaskStoreInv TaskStoreProps.

(* ------------------------------------------------------------------ *)
(** ** The abstract life cycle *)

(** [Backlog]: recorded without execution input; [Scheduled]: offered to the
    executor; [Running tok]: one attempt in progress; [Parked]: has input but
    is not offered (ended, finished or withdrawn). *)
Inductive phase := Absent | Backlog | Scheduled | Running (tok : string) | Parked.

Inductive phase_step : phase → phase → Prop :=
| ph_record : phase_step Absent Backlog
| ph_publish_new : phase_step Absent Scheduled
| ph_publish_backlog : phase_step Backlog Scheduled
| ph_republish : phase_step Parked Scheduled
| ph_start tok : phase_step Scheduled (Running tok)
| ph_stop tok : phase_step (Running tok) Parked
| ph_withdraw : phase_step Scheduled Parked.

Definition phase_move (p q : phase) : Prop := p = q ∨ phase_step p q.

(** The abstraction of a row, and of a database at a task. *)
Definition phase_of_row (r : task_row) : phase :=
  match row_current r with
  | Some tok => Running tok
  | None => if row_ready r then Scheduled
            else match row_input r with Some _ => Parked | None => Backlog end
  end.
Definition phase_at (k : string * string) (d : db) : phase :=
  match select_key task_key k (tasks d) with Some r => phase_of_row r | None => Absent end.

(** Every task moved at most one step. *)
Definition phases_move (d d' : db) : Prop := ∀ k, phase_move (phase_at k d) (phase_at k d').
Definition refines (d d' : db) : Prop := inv d → phases_move d d'.
#[global] Instance refines_refl : Reflexive refines.
Proof. intros d _ k. by left. Qed.

(** No task moved. *)
Definition same_phases (d d' : db) : Prop := ∀ k, phase_at k d' = phase_at k d.
#[global] Instance same_phases_preorder : PreOrder same_phases.
Proof. split; [by intros d k|intros d1 d2 d3 H12 H23 k; by rewrite H23, H12]. Qed.

Lemma phases_move_tasks d d' : tasks d' = tasks d → phases_move d d'.
Proof. intros Ht k. unfold phase_at. rewrite Ht. by left. Qed.

Lemma phases_move_update_key d d' k f :
  tasks d' = update_key task_key k f (tasks d) → (∀ r, task_key (f r) = task_key r) →
  (∀ r, select_key task_key k (tasks d) = Some r → phase_move (phase_of_row r) (phase_of_row (f r))) →
  phases_move d d'.
Proof.
  intros Ht Hf Hp k'. unfold phase_at. rewrite Ht, select_update_key by (intros; by rewrite Hf).
  case_decide; [subst|by left]. destruct (select_key task_key k (tasks d)) as [r|]; simpl; [auto|by left].
Qed.

Lemma phases_move_upsert k d d' r f :
  task_key r = k → tasks d' = upsert task_key r f (tasks d) → (∀ r', task_key (f r') = task_key r') →
  phase_step Absent (phase_of_row r) →
  (∀ r', select_key task_key k (tasks d) = Some r' →
         phase_move (phase_of_row r') (phase_of_row (f r'))) →
  phases_move d d'.
Proof.
  intros <- Ht Hf Hnew Hp k'. unfold phase_at. rewrite Ht, select_upsert by (intros; by rewrite Hf).
  case_decide; [subst|by left].
  destruct (select_key task_key (task_key r) (tasks d)) as [r'|]; simpl; [auto|by right].
Qed.

Lemma selected_ok d k r : inv d → select_key task_key k (tasks d) = Some r → row_ok r.
Proof. intros Hd [Hr _]%select_key_Some. by eapply inv_row. Qed.

(** Row moves. *)
Lemma move_unready r e b a :
  row_ok r → phase_move (phase_of_row r)
    (phase_of_row (set_row_ready (if b : bool then false else row_ready r)
                     (set_row_archived a (set_row_entry e r)))).
Proof.
  intros []. unfold phase_of_row. simpl. destruct (row_current r); [by left|].
  destruct b, (row_ready r) eqn:E; try by left.
  destruct ok_ready as [[p Hp] _]; [done|]. rewrite Hp. right. constructor.
Qed.

Lemma move_publish r r' :
  row_current r = None → row_current r' = None → row_ready r' = true →
  phase_move (phase_of_row r) (phase_of_row r').
Proof.
  intros Hc Hc' Hr'. unfold phase_of_row. rewrite Hc, Hc', Hr'.
  destruct (row_ready r); [by left|]. right. destruct (row_input r); constructor.
Qed.

Section lifecycle.
Context `{PostCommitFrame, Oracle}.

Lemma static_refines {A} (m : M world A) :
within (on_db (λ d d', tasks d' = tasks d)) m → within (on_db refines) m.
Proof.
intros Hm. eapply within_mono; [|exact Hm]. intros w w' Ht _. by apply phases_move_tasks.
Qed.

Lemma alias_static viewer aid anima tid :
within (on_db (λ d d', tasks d' = tasks d)) (alias viewer aid anima tid).
Proof. apply within_transaction. intros w. by body_cases. Qed.

Lemma apply_refines anima ev : within (on_db refines) (apply anima ev).
Proof.
apply within_transaction. intros w Hd. body_cases; try (by intros k; left).
all: try (by apply phases_move_tasks, alias_static).
all: first
  [ eapply phases_move_upsert; [done|done|done|constructor|]; intros; by left
  | eapply phases_move_update_key; [done|done|]; intros r Hr;
    apply (selected_ok _ _ _ Hd) in Hr ].
- by apply (move_unready r _ true).
- by apply (move_unready r _ false).
Qed.

Lemma submit_refines anima entry payload res : within (on_db refines) (submit anima entry payload res).
Proof.
unfold submit. case_match; [apply static_refines, within_raise|].
apply within_transaction. intros w Hd. body_cases; try (by intros k; left).
all: eapply (phases_move_upsert (anima, task_id entry)); [|reflexivity|done|constructor|];
  [done|]; intros r' Hr'; simplify_eq.
all: breflect; apply move_publish; [by apply eq_None_not_Some| |done].
all: by apply eq_None_not_Some.
Qed.

Lemma resume_refines anima tid : within (on_db refines) (resume anima tid).
Proof.
apply within_transaction. intros w Hd. body_cases; try (by intros k; left).
eapply phases_move_update_key; [done|done|]. intros r' Hr'. simplify_eq. breflect.
apply move_publish; [by apply eq_None_not_Some| |done]. by apply eq_None_not_Some.
Qed.

(** The dependency loop at most withdraws the task being claimed. *)
Lemma check_dependencies_tasks anima tid deps w :
let d' := w_db (state_of (check_dependencies anima tid deps w)) in
tasks d' = tasks (w_db w) ∨
tasks d' = update_key task_key (anima, tid) (set_row_ready false) (tasks (w_db w)).
Proof.
induction deps as [|dep deps IH]; simpl; [by left|]. body_cases; auto.
Qed.

Lemma claim_refines anima tid identity n : within (on_db refines) (claim anima tid identity n).
Proof.
apply within_transaction. intros w Hd. body_cases; try (by intros k; left).
all: match goal with
     | E : check_dependencies ?a ?t ?l ?w0 = (_, ?w1), S : select_key task_key _ _ = Some ?r |- _ =>
         pose proof (check_dependencies_tasks a t l w0) as Ht; rewrite E in Ht; simpl in Ht;
         pose proof (selected_ok _ _ _ Hd S) as Hok
     end.
all: match goal with X : _ || _ = false |- _ => apply orb_false_iff in X as [? ?] end; breflect.
all: assert (phase_of_row t = Scheduled) as Hsch by
  (unfold phase_of_row; case_match; [exfalso; eauto|by case_match]).
2,3: destruct Ht as [Ht|Ht]; [by apply phases_move_tasks|].
2,3: eapply phases_move_update_key; [exact Ht|done|]; intros r' Hr'; simplify_eq.
2,3: rewrite Hsch; right; unfold phase_of_row; simpl; repeat case_match; simplify_eq; try constructor.
match goal with E : check_dependencies _ _ _ _ = (Ok true, _) |- _ =>
  apply check_dependencies_true in E as [-> _] end.
match goal with |- phases_move _ (w_db (state_of (start_attempt ?a ?t ?i ?p ?e ?w0))) =>
  pose proof (start_attempt_run a t i p e w0) as Hrun end.
destruct (start_attempt _ _ _ _ _ _) as [res w1] eqn:Est. simpl in *.
case_match; destruct Hrun as [_ ->]; [by intros k; left|].
eapply phases_move_update_key; [done|done|]. intros r' Hr'. unfold attempt_task in Hr'.
simpl in Hr'. simplify_eq. rewrite Hsch. right. constructor.
Qed.

Lemma finish_refines tok st kind sm ref : within (on_db refines) (finish tok st kind sm ref).
Proof.
unfold finish. case_match; [apply static_refines, within_raise|].
apply within_transaction. intros w Hd. body_cases; try (by intros k; left).
all: match goal with E : attempt_task_row _ _ = Some ?t |- _ =>
  apply attempt_task_row_Some in E as [Ht Hcur];
  pose proof (select_key_elem _ _ _ (inv_tasks _ Hd) Ht); pose proof (inv_row _ _ Hd Ht) as [] end.
all: eapply phases_move_update_key; [done|done|]; intros r' Hr'; simplify_eq.
all: unfold phase_of_row; rewrite Hcur; simpl; destruct ok_running as [p ->]; [by rewrite Hcur|].
all: right; constructor.
Qed.

Lemma compact_refines anima : within (on_db refines) (compact anima).
Proof.
apply within_transaction. intros w _ k. left. body_unfold. unfold phase_at. simpl.
rewrite select_update_where_static by done.
destruct (select_key task_key k (tasks (w_db w))) as [r|]; [|done]. simpl. by case_match.
Qed.

Lemma rewrite_references_refines anima tr :
transform_ok tr → within (on_db refines) (rewrite_references anima tr).
Proof.
intros Htr. eapply within_mono; [|apply (rewrite_references_run same_phases); [done|]].
- intros w w' Hw Hd k. left. symmetry. by apply Hw.
- intros d tid b a r Hd Hr He Hi Hc Hnone Him k. unfold phase_at. simpl.
  rewrite select_update_key by done. case_decide; [subst|done]. rewrite Hr. simpl.
  destruct (select_key_Some _ _ _ _ Hr) as [Hr' Hk].
  pose proof (λ p Hp, rewrite_input_kept b a r p (inv_row _ _ Hd Hr') Hi Hp Him) as Hkept.
  unfold phase_of_row. simpl. rewrite Hc, Hi. case_match; [done|].
  destruct (ref_input b) as [p|]; [|by rewrite Hnone].
  by destruct (Hkept p eq_refl) as (q & -> & _).
Qed.

Lemma run_op_refines op : op_ok op → within (on_db refines) (run_op op).
Proof.
intros Hop. destruct op; simpl in *; try apply within_ret_bind;
  eauto using apply_refines, submit_refines, resume_refines, claim_refines, finish_refines,
    compact_refines, rewrite_references_refines, static_refines, alias_static.
all: apply static_refines, within_transaction; intros w; by body_cases.
Qed.

(** C6. The store refines the task life cycle: one operation of any process
  moves every task at most one step along [Absent → Backlog → Scheduled →
  Running → Parked → Scheduled], and no other way.  In particular a task
  starts running only from [Scheduled], and stops running only into
  [Parked]. *)
Theorem store_refines_lifecycle d d' :
step d d' → inv d → ∀ k, phase_at k d = phase_at k d' ∨ phase_step (phase_at k d) (phase_at k d').
Proof. intros [op w Hop Hc] Hd k. by apply (run_op_refines op Hop w Hd k). Qed.
End lifecycle.

(* ------------------------------------------------------------------ *)
(** ** The attempt history *)

(** An attempt row as it may look later: same identity, and unchanged for good
    once ended. *)
Definition attempt_extends (a a' : attempt_row) : Prop :=
  att_token a' = att_token a ∧ attempt_task a' = attempt_task a ∧ att_number a' = att_number a ∧
  att_started_at a' = att_started_at a ∧ (is_Some (att_ended_at a) → a' = a).
Definition history_extends (d d' : db) : Prop :=
  ∀ a, a ∈ task_attempts d → ∃ a', a' ∈ task_attempts d' ∧ attempt_extends a a'.

#[global] Instance attempt_extends_preorder : PreOrder attempt_extends.
Proof.
  split; [by intros a|]. intros a b c (H1&H2&H3&H4&H5) (G1&G2&G3&G4&G5).
  repeat split; try congruence. intros He. rewrite (H5 He) in G5. rewrite (H5 He) in *. auto.
Qed.
#[global] Instance history_extends_preorder : PreOrder history_extends.
Proof.
  split; [intros d a Ha; by exists a|]. intros d1 d2 d3 H12 H23 a Ha.
  destruct (H12 a Ha) as (b & Hb & Hab). destruct (H23 b Hb) as (c & Hc & Hbc).
  exists c. split; [done|]. by etrans.
Qed.

Definition inv_history (d d' : db) : Prop := inv d → history_extends d d'.
#[global] Instance inv_history_refl : Reflexive inv_history.
Proof. intros d _. reflexivity. Qed.

Lemma history_same d d' : task_attempts d' = task_attempts d → history_extends d d'.
Proof. intros Ht a Ha. exists a. by rewrite Ht. Qed.

Lemma history_snoc d d' b : task_attempts d' = task_attempts d ++ [b] → history_extends d d'.
Proof. intros Ht a Ha. exists a. rewrite Ht, elem_of_app. split; [by left|done]. Qed.

(** Changing the live attempt of a token. *)
Lemma history_update d d' tok f b :
  inv d → task_attempts d' = update_key att_token tok f (task_attempts d) →
  select_key att_token tok (task_attempts d) = Some b → attempt_live b = true →
  (∀ a, attempt_live a = true → attempt_extends a (f a)) → history_extends d d'.
Proof.
  intros Hd Ht Hb Hl Hf a Ha. rewrite Ht. setoid_rewrite elem_of_update_key.
  destruct (decide (att_token a = tok)) as [Hk|Hk].
  - pose proof (select_key_elem _ _ _ (inv_tokens _ Hd) Ha) as Ea. assert (b = a) as -> by congruence.
    exists (f a). split; [exists a; auto|auto].
  - exists a. split; [exists a; auto|done].
Qed.

Lemma live_extends a a' :
  attempt_live a = true → att_token a' = att_token a → attempt_task a' = attempt_task a →
  att_number a' = att_number a → att_started_at a' = att_started_at a → attempt_extends a a'.
Proof.
  intros Hl ? ? ? ?. split_and!; try done. intros [e He]. unfold attempt_live in Hl.
  by rewrite He in Hl.
Qed.

Section history.
Context `{PostCommitFrame, Oracle}.

Lemma static_history {A} (m : M world A) :
within (on_db (λ d d', task_attempts d' = task_attempts d)) m → within (on_db inv_history) m.
Proof.
intros Hm. eapply within_mono; [|exact Hm]. intros w w' Ht _. by apply history_same.
Qed.

Lemma check_dependencies_attempts anima tid deps :
within (on_db (fixes task_attempts)) (check_dependencies anima tid deps).
Proof.
induction deps as [|dep deps IH]; [apply within_ret|]. intros w. unfold on_db, fixes. simpl.
body_cases; try done. apply IH.
Qed.

Lemma claim_history anima tid identity n : within (on_db inv_history) (claim anima tid identity n).
Proof.
apply within_transaction. intros w _. body_cases; try reflexivity.
all: match goal with
     | E : check_dependencies ?a ?t ?l ?w0 = (_, ?w1) |- _ =>
         pose proof (check_dependencies_attempts a t l w0) as Ht; rewrite E in Ht;
         unfold on_db, fixes in Ht; simpl in Ht
     end; try (by apply history_same).
match goal with |- history_extends _ (w_db (state_of (start_attempt ?a ?t ?i ?p ?e ?w0))) =>
  pose proof (start_attempt_run a t i p e w0) as Hrun end.
destruct (start_attempt _ _ _ _ _ _) as [res w1] eqn:Est. simpl in *.
case_match; destruct Hrun as [_ ->]; [by apply history_same|].
eapply history_snoc. simpl. by rewrite Ht.
Qed.

Lemma finish_history tok st kind sm ref : within (on_db inv_history) (finish tok st kind sm ref).
Proof.
unfold finish. case_match; [apply static_history, within_raise|].
apply within_transaction. intros w Hd. body_cases; try reflexivity.
all: match goal with E : attempt_task_row _ _ = Some _ |- _ =>
  unfold attempt_task_row in E; repeat case_match; simplify_eq end.
all: eapply history_update; [done|done|done|done|]; intros b Hb; by apply live_extends.
Qed.

Lemma set_identity_history tok i : within (on_db inv_history) (set_identity tok i).
Proof.
apply within_transaction. intros w Hd. body_cases; try reflexivity.
eapply history_update; [done|done|done|done|]. intros b Hb. by apply live_extends.
Qed.

Lemma rewrite_history anima tr : transform_ok tr → within (on_db inv_history) (rewrite_references anima tr).
Proof.
intros Htr. eapply within_mono; [|apply (rewrite_references_run (fixes task_attempts)); done].
intros w w' Hw Hd. apply history_same. by apply Hw.
Qed.

Lemma run_op_history op : op_ok op → within (on_db inv_history) (run_op op).
Proof.
assert (∀ v al a t, within (on_db (λ d d', task_attempts d' = task_attempts d)) (alias v al a t))
  as Halias.
{ intros. apply within_transaction. intros w. by body_cases. }
intros Hop. destruct op; simpl in *; try apply within_ret_bind;
  eauto using claim_history, finish_history, set_identity_history, rewrite_history, static_history.
all: apply static_history.
2: unfold submit; case_match; [by intros w|].
all: apply within_transaction; intros w; body_cases; done || apply Halias.
Qed.

Lemma step_history d d' : step d d' → inv d → history_extends d d'.
Proof. intros [op w Hop Hc] Hd. by apply (run_op_history op Hop w Hd). Qed.

(** The attempt history is append-only: along any sequence of
  operations every attempt row persists with its token, task, number and
  start time, and a row that has ended never changes again. *)
Theorem history_append_only d d' a :
rtc step d d' → inv d → a ∈ task_attempts d →
∃ a', a' ∈ task_attempts d' ∧ attempt_extends a a'.
Proof.
intros Hrtc Hd Ha.
assert (history_extends d d') as Hx.
{ clear a Ha. induction Hrtc as [|d1 d2 d3 Hs _ IH]; [reflexivity|].
  etrans; [by eapply step_history|]. apply IH. by eapply step_inv. }
by apply Hx.
Qed.
End history.

(* ------------------------------------------------------------------ *)
(** ** Publication *)

(** A task that has been published keeps its execution input for good. *)
Definition published (p : phase) : Prop :=
  match p with Absent | Backlog => False | _ => True end.

Lemma published_move p q : phase_move p q → published p → published q.
Proof. intros [->|Hs]; [done|]. by destruct Hs. Qed.

Lemma published_input k d :
  inv d → published (phase_at k d) →
  ∃ r, select_key task_key k (tasks d) = Some r ∧ is_Some (row_input r).
Proof.
  intros Hd. unfold phase_at. destruct (select_key task_key k (tasks d)) as [r|] eqn:E; [|done].
  destruct (selected_ok _ _ _ Hd E). unfold phase_of_row. intros Hp. exists r. split; [done|].
  destruct (row_current r); [auto|]. destruct (row_ready r) eqn:Er; [by apply ok_ready|].
  by destruct (row_input r).
Qed.

Section publication.
Context `{PostCommitFrame, Oracle}.

Lemma published_forever k d d' :
rtc step d d' → inv d → published (phase_at k d) → inv d' ∧ published (phase_at k d').
Proof.
induction 1 as [|d1 d2 d3 Hs _ IH]; [done|]. intros Hd Hp. apply IH.
- by eapply step_inv.
- destruct Hs as [op w Hop Hc]. eapply published_move; [|exact Hp].
  by apply (run_op_refines op Hop w Hd k).
Qed.

Lemma submit_success anima entry payload res w w' :
w_conn w = None → submit anima entry payload res w = (Ok true, w') →
∃ now ack d1,
  dget "task_id" payload = Some (JStr (task_id entry)) ∧
  let e := set_updated_at now (set_status "pending" entry) in
  tasks d1 = upsert task_key (mk_task anima (task_id entry) e (Some payload) true None false)
    (λ r, set_row_archived false (set_row_ready true
            (set_row_input (Some payload) (set_row_entry e r)))) (tasks (w_db w)) ∧
  w_db w' = acknowledge_task ack (anima, task_id entry) d1 ∧
  (∀ r, select_key task_key (anima, task_id entry) (tasks (w_db w)) = Some r → row_current r = None).
Proof.
intros Hc. unfold submit. destruct (negb _) eqn:Hid; [done|]. apply negb_false_iff, payload_id in Hid.
intros (w1 & Hrun & Hdb)%transaction_ok; [|done]. revert Hrun Hdb. body_cases; try done.
all: intros [= <-] Hdb; eexists _, _, _; split_and!; [done| |exact Hdb|]; [done|].
all: intros r Hr; simplify_eq; breflect; by apply eq_None_not_Some.
Qed.

(** Publication is idempotent for good: once [submit] has published a
  task it is scheduled with exactly that input, pending and unarchived, and
  its open wakeups are acknowledged; and after any further operations of
  any processes — claims, completion, cancellation, archiving — a
  re-delivery under the same identifier reports False and changes
  nothing. *)
Theorem submit_idempotent anima entry payload w w1 w2 entry' payload' :
w_conn w = None → inv (w_db w) → submit anima entry payload false w = (Ok true, w1) →
rtc step (w_db w1) (w_db w2) → w_conn w2 = None → identity_result w2 = Ok None →
task_id entry' = task_id entry → dget "task_id" payload' = Some (JStr (task_id entry)) →
(∃ r, select_key task_key (anima, task_id entry) (tasks (w_db w1)) = Some r ∧
   row_input r = Some payload ∧ row_ready r = true ∧ row_current r = None ∧
   row_archived r = false ∧ status (row_entry r) = "pending") ∧
(∀ k, k ∈ task_wakeups (w_db w1) → (wk_anima k, wk_task_id k) = (anima, task_id entry) →
   is_Some (wk_acknowledged_at k)) ∧
val_of (submit anima entry' payload' false w2) = Ok false ∧
w_db (state_of (submit anima entry' payload' false w2)) = w_db w2.
Proof.
intros Hc Hd Hsub Hrtc Hc2 Hi2 Hid' Hp'.
destruct (submit_success _ _ _ _ _ _ Hc Hsub) as (now & ack & d1 & Hid & Ht & Hw1 & Hidle).
assert (∃ r, select_key task_key (anima, task_id entry) (tasks (w_db w1)) = Some r ∧
   row_input r = Some payload ∧ row_ready r = true ∧ row_current r = None ∧
   row_archived r = false ∧ status (row_entry r) = "pending") as Hrow.
{ rewrite Hw1. simpl. rewrite Ht, select_upsert by done. rewrite decide_True by done.
  eexists. split; [done|]. simpl.
  destruct (select_key task_key _ (tasks (w_db w))) as [r|] eqn:E; [|done].
  simpl. by rewrite (Hidle r). }
split; [done|]. split.
{ rewrite Hw1. intros k (k0 & Hk0 & ->)%elem_of_update_where. case_match eqn:Eb.
  - intros _. simpl. eauto.
  - intros Hk. rewrite bool_decide_eq_true_2 in Eb by done. simpl in Eb. by breflect. }
assert (inv (w_db w1)) as Hd1.
{ pose proof (submit_keeps anima entry payload false w Hd) as Hx. by rewrite Hsub in Hx. }
assert (inv (w_db w2) ∧ published (phase_at (anima, task_id entry) (w_db w2))) as [Hd2 Hpub].
{ eapply published_forever; [done..|]. unfold phase_at.
  destruct Hrow as (r & -> & _ & Hr & Hcur & _). unfold phase_of_row. by rewrite Hcur, Hr. }
destruct (published_input _ _ Hd2 Hpub) as (r2 & Hr2 & Hin2).
unfold submit, dget_none, dget_default. rewrite Hp', Hid'. simpl.
rewrite bool_decide_eq_true_2 by done. simpl.
eapply (transaction_run _ _ _ (begin_write w2)); [done|]. body_unfold. simpl. rewrite Hr2.
assert (identity_result (begin_write w2) = Ok None) as -> by done.
simpl. case_match; [done|]. by rewrite bool_decide_eq_true_2.
Qed.
End publication.
