(* ===== verification/MergeRefs.v ===== *)
(** * Task references in an anima merge

    [core/lifecycle/anima_merge/task_refs.py]: the collision-free identifiers
    a source anima's tasks get in the target, and the schema-aware rewriting
    of names and identifiers inside queue entries and task inputs.  The
    identifiers found on the task surfaces of the two animas are inputs of the
    plan; an entry and its dictionary are related by [entry_dict] and
    [entry_of_dict] (pydantic's [model_dump] and validation of [TaskEntry]). *)

From Stdlib Require Import Ascii QArith.
From stdpp Require Import prelude strings list pretty.
From S2P Require Import Prelude PyValue PyText JsonText JsonRound Sql TaskModels.
Open Scope nat_scope.

(* ------------------------------------------------------------------ *)
(** ** The plan *)

(** The candidates for an identifier that is taken: the base, then the base
    with a counter from 2. *)
Definition candidate (base : string) (n : nat) : string :=
  match n with O => base | S _ => base +:+ "_" +:+ pretty (S n) end.
Fixpoint free_candidate (fuel : nat) (base : string) (n : nat) (reserved : list string) : option string :=
  match fuel with
  | O => None
  | S f => if str_in (candidate base n) reserved then free_candidate f base (S n) reserved else Some (candidate base n)
  end.
Definition from_source (source old_id : string) : string := old_id +:+ "__from_" +:+ source.

(** [plan]: [ids] are the source's identifiers in sorted order.  A base has at
    most as many taken candidates as there are reserved identifiers. *)
Fixpoint plan (source : string) (ids reserved : list string) : option (list (string * string)) :=
  match ids with
  | [] => Some []
  | old_id :: rest =>
      new_id ← (if str_in old_id reserved
                then free_candidate (S (length reserved)) (from_source source old_id) 0 reserved
                else Some old_id);
      mapping ← plan source rest (new_id :: reserved);
      Some ((old_id, new_id) :: mapping)
  end.

(* ------------------------------------------------------------------ *)
(** ** Rewriting values *)

Definition NAME_FIELDS : list string :=
  ["anima"; "anima_name"; "assignee"; "bounce_delegator"; "delegated_to"; "disabled_delegatee"; "name";
   "submitted_by"; "target"; "updated_by"].
Definition LOCAL_TASK_ID_FIELDS : list string := ["task_id"; "tracking_task_id"].

(** The text [s] without its last [n] bytes. *)
Definition drop_last (n : nat) (s : string) : string := String.substring 0 (String.length s - n) s.

Section rewrite.
Context (source target : string) (mapping : list (string * string)).

Definition map_id (s : string) : string := default s (dget s mapping).

Definition rewrite_reference (key s : string) (owner_is_source : bool) : option string :=
  if str_in key ["source_ref"; "replaced_by"] then
    match after ("task_queue:" +:+ source +:+ ":") s with
    | Some old_id => Some ("task_queue:" +:+ target +:+ ":" +:+ map_id old_id)
    | None => if bool_decide (key = "replaced_by") && owner_is_source then Some (map_id s) else None
    end
  else None.
Definition rewrite_str (s : string) (owner_is_source : bool) (key : string) (delegated_owner_is_source : bool) : string :=
  if str_in key NAME_FIELDS && bool_decide (s = source) then target
  else if bool_decide (key = "reply_to") && bool_decide (s = source) then target
  else if str_in key LOCAL_TASK_ID_FIELDS && owner_is_source then map_id s
  else if bool_decide (key = "delegated_task_id") && delegated_owner_is_source then map_id s
  else match rewrite_reference key s owner_is_source with
  | Some s' => s'
  | None =>
      let source_suffix := "/animas/" +:+ source in
      if bool_decide (key = "anima_dir") && endswith source_suffix s
      then drop_last (String.length source_suffix) s +:+ "/animas/" +:+ target
      else s
  end.

Fixpoint _rewrite_value (v : json) (owner_is_source : bool) (key : string) (delegated_owner_is_source : bool) : json :=
  match v with
  | JList l =>
      if bool_decide (key = "relay_chain")
      then JList (map (λ item, if py_eq item (JStr source) then JStr target else item) l)
      else if bool_decide (key = "depends_on") && owner_is_source
      then JList (map (λ item, match item with JStr s => JStr (map_id s) | _ => item end) l)
      else JList (map (λ item, _rewrite_value item owner_is_source key delegated_owner_is_source) l)
  | JStr s => JStr (rewrite_str s owner_is_source key delegated_owner_is_source)
  | JObj d =>
      let own := owner_is_source || py_eq (dget_none "anima_name" d) (JStr source) in
      let child := py_eq (dget_none "delegated_to" d) (JStr source) || py_eq (dget_none "target" d) (JStr source) in
      JObj (map (λ kv, (fst kv, _rewrite_value (snd kv) own (fst kv) child)) d)
  | _ => v
  end.

Context (source_dir target_dir : string).

Definition rewrite_path (s : string) : string :=
  if bool_decide (s = source_dir) then target_dir
  else match after (source_dir +:+ "/") s with
  | Some tail => target_dir +:+ "/" +:+ tail
  | None => s
  end.
Fixpoint _rewrite_anima_paths (v : json) : json :=
  match v with
  | JList l => JList (map _rewrite_anima_paths l)
  | JObj d => JObj (map (λ kv, (fst kv, _rewrite_anima_paths (snd kv))) d)
  | JStr s => JStr (rewrite_path s)
  | _ => v
  end.

(** [transform] of [_rewrite_queues], on a dictionary. *)
Definition transform (owner : string) (d : dict) : dict :=
  match _rewrite_anima_paths (_rewrite_value (JObj d) (bool_decide (owner = source)) "" false) with
  | JObj d' => d'
  | _ => []
  end.
End rewrite.

(* ------------------------------------------------------------------ *)
(** ** Entries and their dictionaries *)

Definition source_text (s : task_source) : string := match s with SrcHuman => "human" | SrcAnima => "anima" end.
Definition source_of_text (s : string) : option task_source :=
  if bool_decide (s = "human") then Some SrcHuman else if bool_decide (s = "anima") then Some SrcAnima else None.

Definition entry_dict (e : TaskEntry) : dict :=
  [ ("task_id", JStr (task_id e)); ("ts", JStr (ts e)); ("source", JStr (source_text (source e)));
    ("original_instruction", JStr (original_instruction e)); ("assignee", JStr (assignee e));
    ("status", JStr (status e)); ("summary", JStr (summary e)); ("relay_chain", JList (JStr <$> relay_chain e));
    ("updated_at", JStr (updated_at e)); ("meta", JObj (meta e)) ].

Definition str_field (k : string) (d : dict) : option string := dget k d ≫= str_of.
(** A [TaskEntry] built from the dictionary; [None] is the validation error. *)
Definition entry_of_dict (d : dict) : option TaskEntry :=
  i ← str_field "task_id" d; t ← str_field "ts" d;
  so ← str_field "source" d ≫= source_of_text;
  o ← str_field "original_instruction" d; a ← str_field "assignee" d; st ← str_field "status" d;
  su ← str_field "summary" d;
  rc ← match dget "relay_chain" d with
       | None => Some []
       | Some (JList l) => mapM str_of l
       | Some _ => None
       end;
  u ← str_field "updated_at" d;
  m ← match dget "meta" d with None => Some [] | Some (JObj m) => Some m | Some _ => None end;
  Some (mk_entry i t so o a st su rc u m).

(* ------------------------------------------------------------------ *)
(** ** Candidates *)

#[export] Instance candidate_inj base : Inj (=) (=) (candidate base).
Proof.
  assert (∀ t, base ≠ base +:+ "_" +:+ t) as Hne.
  { intros t Heq%(f_equal String.length). rewrite !string_length_app in Heq.
    change (String.length "_") with 1 in Heq. lia. }
  intros [|n] [|m]; simpl; intros Heq; [done|by apply Hne in Heq|by symmetry in Heq; apply Hne in Heq|].
  apply string_app_inj_l, string_app_inj_l in Heq. by apply (inj pretty) in Heq as [= ->].
Qed.

Lemma free_candidate_fresh fuel base n reserved c :
  free_candidate fuel base n reserved = Some c → c ∉ reserved ∧ ∃ m, c = candidate base m.
Proof.
  revert n. induction fuel as [|fuel IH]; intros n; simpl; [done|].
  case_match; [by apply IH|]. unfold str_in in *. intros [= <-]. breflect. split; [done|eauto].
Qed.

Lemma free_candidate_None fuel base n reserved :
  free_candidate fuel base n reserved = None → ∀ m, n ≤ m < n + fuel → candidate base m ∈ reserved.
Proof.
  revert n. induction fuel as [|fuel IH]; intros n; simpl; [lia|].
  unfold str_in. case_match; [|done]. intros HN m Hm. destruct (decide (m = n)) as [->|]; [by breflect|].
  apply (IH (S n) HN). lia.
Qed.

(** The search for a free candidate ends: a table of [k] identifiers cannot
    hold [k + 1] distinct candidates. *)
Lemma free_candidate_total fuel base reserved :
  length reserved < fuel → is_Some (free_candidate fuel base 0 reserved).
Proof.
  intros Hf. destruct (free_candidate fuel base 0 reserved) eqn:E; [eauto|].
  pose proof (free_candidate_None _ _ _ _ E) as Hall.
  assert (length (candidate base <$> seq 0 fuel) ≤ length reserved) as Hle.
  { apply submseteq_length, NoDup_submseteq.
    - apply (NoDup_fmap_2 _), NoDup_ListNoDup, seq_NoDup.
    - intros c (m & -> & Hm%elem_of_seq)%list_elem_of_fmap. apply Hall. lia. }
  rewrite length_fmap, length_seq in Hle. lia.
Qed.

(** The identifier the plan gives, next to what is reserved at that point. *)
Lemma plan_cons source old_id rest reserved :
  ∃ new_id, new_id ∉ reserved ∧ (old_id ∉ reserved → new_id = old_id) ∧
    plan source (old_id :: rest) reserved =
      (mapping ← plan source rest (new_id :: reserved); Some ((old_id, new_id) :: mapping)).
Proof.
  cbn [plan]. destruct (str_in old_id reserved) eqn:E; apply bool_decide_eq_true in E || apply bool_decide_eq_false in E.
  - destruct (free_candidate_total (S (length reserved)) (from_source source old_id) reserved) as [c Hc]; [lia|].
    exists c. rewrite Hc. split_and!; [by eapply free_candidate_fresh|done|done].
  - exists old_id. split_and!; done.
Qed.

Lemma plan_spec source ids reserved :
  ∃ mapping, plan source ids reserved = Some mapping ∧ fst <$> mapping = ids ∧
    NoDup (snd <$> mapping) ∧ (∀ new_id, new_id ∈ snd <$> mapping → new_id ∉ reserved).
Proof.
  revert reserved. induction ids as [|old_id rest IH]; intros reserved.
  { exists []. split_and!; [done|done|apply NoDup_nil_2|by intros ? ?%not_elem_of_nil]. }
  destruct (plan_cons source old_id rest reserved) as (new_id & Hnew & _ & ->).
  destruct (IH (new_id :: reserved)) as (mapping & -> & <- & Hnd & Hout). simpl.
  eexists. split_and!; [done|done| |].
  - apply NoDup_cons. split; [|done]. intros Hin%Hout. apply Hin. left.
  - intros x [->|Hx]%elem_of_cons; [done|]. apply Hout in Hx. set_solver.
Qed.

(* ------------------------------------------------------------------ *)
(** ** What rewriting does to a dictionary and to an entry *)

Lemma dget_map {V W} (f : string → V → W) k (d : list (string * V)) :
  dget k (map (λ kv, (fst kv, f (fst kv) (snd kv))) d) = f k <$> dget k d.
Proof.
  induction d as [|[k' v] d IH]; [done|]. simpl. case_bool_decide as E; [by subst|done].
Qed.

Lemma mapM_strs l : mapM str_of (JStr <$> l) = Some l.
Proof. by apply mapM_fmap_Some. Qed.

Lemma source_of_source_text s : source_of_text (source_text s) = Some s.
Proof. by destruct s. Qed.

(** A dictionary with well-typed fields is a valid entry. *)
Lemma entry_of_fields d i t so o a st su rc u m :
  dget "task_id" d = Some (JStr i) → dget "ts" d = Some (JStr t) →
  dget "source" d = Some (JStr (source_text so)) → dget "original_instruction" d = Some (JStr o) →
  dget "assignee" d = Some (JStr a) → dget "status" d = Some (JStr st) →
  dget "summary" d = Some (JStr su) → dget "relay_chain" d = Some (JList (JStr <$> rc)) →
  dget "updated_at" d = Some (JStr u) → dget "meta" d = Some (JObj m) →
  entry_of_dict d = Some (mk_entry i t so o a st su rc u m).
Proof.
  intros Hi Ht Hso Ho Ha Hst Hsu Hrc Hu Hm. unfold entry_of_dict, str_field.
  rewrite Hi, Ht, Hso, Ho, Ha, Hst, Hsu, Hrc, Hu, Hm. cbn [option_bind mbind str_of].
  by rewrite source_of_source_text, mapM_strs.
Qed.

Lemma entry_of_entry_dict e : entry_of_dict (entry_dict e) = Some e.
Proof. destruct e. by apply entry_of_fields. Qed.

(** Absolute directories, and texts that are not absolute paths. *)
Definition absolute (s : string) : bool := startswith "/" s.

Section transform.
Context (src tgt : string) (mapping : list (string * string)) (source_dir target_dir : string).
Context (Hsource : absolute source_dir = true) (Htarget : absolute target_dir = true).
Local Abbreviation path := (rewrite_path source_dir target_dir).
Local Abbreviation rewrite_at owner := (transform src tgt mapping source_dir target_dir owner).

Definition owned_by (name : string) (d : dict) : bool := py_eq (dget_none "anima_name" d) (JStr name).
Definition delegates_to (name : string) (d : dict) : bool :=
py_eq (dget_none "delegated_to" d) (JStr name) || py_eq (dget_none "target" d) (JStr name).

Lemma transform_get owner d k :
dget k (rewrite_at owner d) =
  (λ v, _rewrite_anima_paths source_dir target_dir
          (_rewrite_value src tgt mapping v (bool_decide (owner = src) || owned_by src d) k (delegates_to src d)))
    <$> dget k d.
Proof.
unfold transform. cbn [_rewrite_value _rewrite_anima_paths].
rewrite (dget_map (λ _ v, _rewrite_anima_paths source_dir target_dir v)).
fold (owned_by src d) (delegates_to src d).
rewrite (dget_map (λ k v, _rewrite_value src tgt mapping v (bool_decide (owner = src) || owned_by src d) k
                            (delegates_to src d))).
by destruct (dget k d).
Qed.

Lemma absolute_app s t : absolute s = true → absolute (s +:+ t) = true.
Proof. destruct s as [|c s]; [done|]. rewrite string_cons_app. unfold absolute, startswith. cbn. case_match; [|done]. by destruct s, t. Qed.

Lemma after_app p s t : after p s = Some t → s = p +:+ t.
Proof.
revert s. induction p as [|c p IH]; intros s; simpl; [by intros [= ->]|].
destruct s as [|c' s]; [done|]. case_match; [|done]. intros ->%IH. rewrite string_cons_app. f_equal.
symmetry. by apply Ascii.eqb_eq.
Qed.

(** A text that is not an absolute path is left alone, and no rewritten path
  is anything but absolute. *)
Lemma rewrite_path_relative s : absolute s = false → path s = s.
Proof.
intros Hs. unfold rewrite_path. case_bool_decide; [congruence|].
case_match eqn:E; [|done]. apply after_app in E. subst.
rewrite string_app_assoc, absolute_app in Hs; done.
Qed.
Lemma rewrite_path_to_relative s t : absolute t = false → path s = t → s = t.
Proof.
intros Ht. unfold rewrite_path. case_bool_decide; [congruence|].
case_match; [|done]. intros <-. rewrite absolute_app in Ht; [done|done].
Qed.

Lemma rewrite_list_strs (f : json → json) l :
(∀ s, ∃ t, f (JStr s) = JStr t) → ∃ l', map f (JStr <$> l) = JStr <$> l'.
Proof.
intros Hf. induction l as [|s l [l' IH]]; [by exists []|]. destruct (Hf s) as [t Ht].
exists (t :: l'). cbn. rewrite Ht. f_equal. exact IH.
Qed.

(** The input of a task is filed under the mapped identifier, exactly when the
  row or the input itself belongs to the source. *)
Lemma transform_input_id owner p i :
dget "task_id" p = Some (JStr i) →
dget "task_id" (rewrite_at owner p) =
  Some (JStr (path (if bool_decide (owner = src) || owned_by src p then map_id mapping i else i))).
Proof.
intros Hp. rewrite transform_get, Hp. cbn. unfold rewrite_str. cbn.
by destruct (bool_decide (owner = src) || owned_by src p).
Qed.

(** An entry stays valid: its identifier is the one given, its assignee follows
  the merge, and its status stays pending or stays something else. *)
Lemma transform_entry owner e i :
∃ e', entry_of_dict (dset "task_id" (JStr i) (rewrite_at owner (entry_dict e))) = Some e' ∧
  task_id e' = i ∧ TaskModels.source e' = TaskModels.source e ∧ status e' = path (status e) ∧
  assignee e' = path (if bool_decide (assignee e = src) then tgt else assignee e).
Proof.
destruct (rewrite_list_strs (λ v, _rewrite_anima_paths source_dir target_dir
            (if py_eq v (JStr src) then JStr tgt else v)) (relay_chain e)) as [rc Hrc].
{ intros s. cbn. case_match; cbn; eauto. }
eexists. split_and!.
- apply entry_of_fields with (i := i) (so := TaskModels.source e) (rc := rc).
  + by rewrite dget_dset_eq.
  + by rewrite dget_dset_ne, transform_get.
  + rewrite dget_dset_ne, transform_get by done. trans (Some (JStr (path (source_text (TaskModels.source e))))); [done|].
    by rewrite rewrite_path_relative by (by destruct (TaskModels.source e)).
  + by rewrite dget_dset_ne, transform_get.
  + by rewrite dget_dset_ne, transform_get.
  + by rewrite dget_dset_ne, transform_get.
  + by rewrite dget_dset_ne, transform_get.
  + rewrite dget_dset_ne, transform_get by done. rewrite <- Hrc.
    trans (Some (JList (map (_rewrite_anima_paths source_dir target_dir)
             (map (λ v, if py_eq v (JStr src) then JStr tgt else v) (JStr <$> relay_chain e))))); [done|].
    by rewrite map_map.
  + by rewrite dget_dset_ne, transform_get.
  + by rewrite dget_dset_ne, transform_get.
- done.
- done.
- done.
- cbn. unfold rewrite_str. cbn. by case_bool_decide.
Qed.
End transform.
