(* ===== verification/TaskTransfer.v ===== *)
(** * Moving an anima's tasks to another anima

    [TaskStore.transfer_anima_tasks] ([core/taskboard/tasks.py]), the step of an
    anima merge that moves ownership: every task of the source, its attempts,
    wakeups and aliases are renamed in one transaction, and the references to
    them in all other tasks are rewritten.  [transform] is the rewriting the
    caller passes; [merge_tasks] is the call of [task_refs.py], which passes
    the schema-aware one.  An [UPDATE] that renames keys raises on a violated
    uniqueness constraint. *)

From Stdlib Require Import Ascii.
From stdpp Require Import prelude strings list gmap sorting.
From S2P Require Import Prelude PyValue PyText JsonText Sql TaskModels TaskStore TaskStoreInv MergeRefs.

(** [UPDATE ... WHERE p] under the uniqueness of [key]; [None] is its violation. *)
Definition update_unique {R K} `{EqDecision K} (key : R → K) (p : R → bool) (f : R → R) (t : list R) : option (list R) :=
  let t' := update_where p f t in
  if decide (NoDup (key <$> t')) then Some t' else None.

(** [sorted] on strings. *)
Definition string_le (a b : string) : Prop := String.leb a b = true.
#[global] Instance string_le_dec a b : Decision (string_le a b).
Proof. unfold string_le. apply _. Defined.

Record change := mk_change {
  ch_row : task_row;
  ch_new_id : string;
  ch_entry : TaskEntry;
  ch_input : option dict
}.

Definition rename_row (owner new_id : string) (e : TaskEntry) (payload : option dict) (r : task_row) : task_row :=
  mk_task owner new_id e payload (row_ready r) (row_current r) (row_archived r).
Definition rename_attempt (owner new_id : string) (a : attempt_row) : attempt_row :=
  mk_attempt (att_token a) owner new_id (att_number a) (att_identity a) (att_started_at a) (att_ended_at a)
    (att_stop_kind a) (att_result_ref a).
Definition rename_wakeup (owner new_id : string) (k : wakeup_row) : wakeup_row :=
  mk_wakeup owner new_id (wk_token k) (wk_reason k) (wk_created_at k) (wk_acknowledged_at k).
Definition rename_alias (owner new_id : string) (a : alias_row) : alias_row :=
  mk_alias (al_viewer a) (al_alias a) owner new_id.

(** The saved result of an attempt follows its task's directory. *)
Definition results_prefix (tid : string) : string := "state/task_results/" +:+ tid +:+ "/".
Definition move_result_ref (old_id new_id : string) (a : attempt_row) : attempt_row :=
  match after (results_prefix old_id) (default "" (att_result_ref a)) with
  | Some tail =>
      mk_attempt (att_token a) (att_anima a) (att_task_id a) (att_number a) (att_identity a) (att_started_at a)
        (att_ended_at a) (att_stop_kind a) (Some (results_prefix new_id +:+ tail))
  | None => a
  end.

Section transfer.
Context `{PostCommit, Oracle}.
Context (src tgt : string) (mapping : list (string * string)) (transform : string → dict → dict).

Definition live_attempt (key : string * string) (d : db) : bool :=
any (λ a, bool_decide (attempt_task a = key) && attempt_live a) (task_attempts d).

(** What happens to one row: an error, nothing, or a change. *)
Definition new_task_id (d : db) (row : task_row) : result string :=
if bool_decide (row_anima row = src) then
  match dget (row_task_id row) mapping with
  | None => Err (ValueError ("Missing task ID mapping: " +:+ row_task_id row))
  | Some new_id =>
      match select_key task_key (tgt, new_id) (tasks d) with
      | Some _ => Err (ValueError ("Conflicting canonical target task: " +:+ new_id))
      | None => Ok new_id
      end
  end
else Ok (row_task_id row).
Definition row_change (d : db) (row : task_row) : result (option change) :=
let owner := row_anima row in
let entry := entry_dict (row_entry row) in
let rewritten := transform owner entry in
let rewritten_input := transform owner <$> row_input row in
new_id ← new_task_id d row;
if negb (bool_decide (owner = src)) && py_eq (JObj rewritten) (JObj entry) && input_eq rewritten_input (row_input row)
then Ok None
else if bool_decide (is_Some (row_current row)) || live_attempt (task_key row) d
then Err (ValueError ("Cannot merge a task with an active attempt: " +:+ owner +:+ "/" +:+ row_task_id row))
else match entry_of_dict (dset "task_id" (JStr new_id) rewritten) with
     | None => Err (ValueError "TaskEntry")
     | Some e => Ok (Some (mk_change row new_id e rewritten_input))
     end.
Fixpoint row_changes (d : db) (rows : list task_row) : result (list change) :=
match rows with
| [] => Ok []
| row :: rest =>
    c ← row_change d row; cs ← row_changes d rest;
    Ok (match c with Some c => c :: cs | None => cs end)
end.

(** One changed row: its own row, then, for a task of the source, everything
  filed under it. *)
Definition exec_unique {R K} `{EqDecision K} (table : string) (key : R → K) (get_table : db → list R)
  (set_table : list R → db → db) (p : R → bool) (f : R → R) : M world unit :=
t ← query get_table;
match update_unique key p f t with
| None => raise (IntegrityError table)
| Some t' => exec (set_table t')
end.
Definition move_rows (old new : string * string) : M world unit :=
let '(owner, new_id) := new in
_ ← exec_unique "task_attempts" attempt_slot task_attempts set_attempts
      (λ a, bool_decide (attempt_task a = old)) (rename_attempt owner new_id);
_ ← exec_unique "task_wakeups" wakeup_key task_wakeups set_wakeups
      (λ k, bool_decide ((wk_anima k, wk_task_id k) = old)) (rename_wakeup owner new_id);
exec (λ d, set_aliases (update_where (λ a, bool_decide ((al_anima a, al_task_id a) = old))
                          (rename_alias owner new_id) (task_aliases d)) d).
Definition apply_change (c : change) : M world unit :=
let row := ch_row c in
let from_source := bool_decide (row_anima row = src) in
let new_owner := if from_source then tgt else row_anima row in
_ ← exec_unique "tasks" task_key tasks set_tasks (λ r, bool_decide (task_key r = task_key row))
      (rename_row new_owner (ch_new_id c) (ch_entry c) (ch_input c));
if from_source then
  _ ← move_rows (task_key row) (tgt, ch_new_id c);
  exec (λ d, set_attempts (update_where (λ a, bool_decide (attempt_task a = (tgt, ch_new_id c)))
                             (move_result_ref (row_task_id row) (ch_new_id c)) (task_attempts d)) d)
else mret tt.

(** The aliases the source keeps move to the target. *)
Definition move_alias (a : alias_row) : M world unit :=
let alias_id := default (al_alias a) (dget (al_alias a) mapping) in
existing ← query (λ d, select_key alias_key (tgt, alias_id) (task_aliases d));
_ ← guard_raise
      match existing with
      | Some b => negb (bool_decide ((al_anima b, al_task_id b) = (al_anima a, al_task_id a)))
      | None => false
      end (ValueError ("Conflicting target task alias: " +:+ alias_id));
taken ← query (λ d, select_key task_key (tgt, alias_id) (tasks d));
_ ← guard_raise (bool_decide (is_Some taken)) (ValueError ("Task alias conflicts with target execution: " +:+ alias_id));
exec (λ d, set_aliases
  (filter (λ b, alias_key b ≠ (src, al_alias a))
     (insert_or_ignore alias_key (mk_alias tgt alias_id (al_anima a) (al_task_id a)) (task_aliases d))) d).

Definition transfer_body : M world (list string * list string) :=
d ← query id;
_ ← guard_raise (any (λ a, str_in (att_anima a) [src; tgt] && attempt_live a) (task_attempts d))
      (ValueError "Cannot merge an owner with an active attempt");
changes ← lift (row_changes d (tasks d));
_ ← for_each changes apply_change;
views ← query (λ d, filter (λ a, al_viewer a = src) (task_aliases d));
_ ← for_each views move_alias;
let of_source := filter (λ c, row_anima (ch_row c) = src) changes in
let owner c := if bool_decide (row_anima (ch_row c) = src) then tgt else row_anima (ch_row c) in
mret (merge_sort string_le (ch_new_id <$> of_source), merge_sort string_le (remove_dups (owner <$> changes))).

Definition transfer_anima_tasks : M world (list string * list string) :=
if bool_decide (src = tgt) || negb (bool_decide (NoDup (snd <$> mapping)))
then raise (ValueError "Invalid task ownership transfer")
else transaction transfer_body.
End transfer.

(** The transfer step of [_rewrite_queues] (after the legacy imports). *)
Definition merge_tasks `{PostCommit, Oracle} (src tgt : string) (mapping : list (string * string))
    (source_dir target_dir : string) : M world (list string * list string) :=
  transfer_anima_tasks src tgt mapping (transform src tgt mapping source_dir target_dir).
