(* ===== verification/TaskTransferProps.v ===== *)
(** * Properties of the task transfer

    The transfer keeps the consistency of the task tables, leaves nothing with
    the source and loses nothing on the way; with the identifiers of [plan] it
    cannot fail. *)

From Stdlib Require Import Ascii.
From stdpp Require Import prelude strings list gmap sorting.
From S2P Require Import Prelude PyValue PyText JsonText Sql TaskModels TaskStore TaskStoreInv MergeRefs TaskTransfer.

(* ------------------------------------------------------------------ *)
(** ** One changed row, as a function on the database *)

Section step.
Context (src tgt : string).
Implicit Types (c : change) (d : db).

Definition of_source c : bool := bool_decide (row_anima (ch_row c) = src).
Definition new_key c : string * string := (if of_source c then tgt else row_anima (ch_row c), ch_new_id c).
Definition renamed c : task_row := rename_row (fst (new_key c)) (ch_new_id c) (ch_entry c) (ch_input c) (ch_row c).

Definition moved_tasks c (t : list task_row) : list task_row :=
update_where (λ r, bool_decide (task_key r = task_key (ch_row c)))
  (rename_row (fst (new_key c)) (ch_new_id c) (ch_entry c) (ch_input c)) t.
Definition moved_attempts c (t : list attempt_row) : list attempt_row :=
update_where (λ a, bool_decide (attempt_task a = task_key (ch_row c))) (rename_attempt tgt (ch_new_id c)) t.
Definition moved_refs c (t : list attempt_row) : list attempt_row :=
update_where (λ a, bool_decide (attempt_task a = (tgt, ch_new_id c)))
  (move_result_ref (row_task_id (ch_row c)) (ch_new_id c)) t.
Definition moved_wakeups c (t : list wakeup_row) : list wakeup_row :=
update_where (λ k, bool_decide ((wk_anima k, wk_task_id k) = task_key (ch_row c))) (rename_wakeup tgt (ch_new_id c)) t.
Definition moved_aliases c (t : list alias_row) : list alias_row :=
update_where (λ a, bool_decide ((al_anima a, al_task_id a) = task_key (ch_row c))) (rename_alias tgt (ch_new_id c)) t.

Definition moved c d : db :=
if of_source c then
  mk_db (moved_tasks c (tasks d)) (moved_refs c (moved_attempts c (task_attempts d)))
    (moved_aliases c (task_aliases d)) (task_imports d) (moved_wakeups c (task_wakeups d)) (task_claim_control d)
else set_tasks (moved_tasks c (tasks d)) d.

(** No uniqueness constraint is violated. *)
Definition fits c d : Prop :=
NoDup (task_key <$> moved_tasks c (tasks d)) ∧
(of_source c = true →
 NoDup (attempt_slot <$> moved_attempts c (task_attempts d)) ∧ NoDup (wakeup_key <$> moved_wakeups c (task_wakeups d))).
#[global] Instance fits_dec c d : Decision (fits c d).
Proof. unfold fits. apply _. Defined.

Lemma apply_change_ok c w :
fits c (w_db w) → ∃ w', apply_change src tgt c w = (Ok tt, w') ∧ w_db w' = moved c (w_db w).
Proof.
intros [Ht Hs]. unfold apply_change, move_rows, exec_unique, update_unique, moved, moved_tasks, new_key, of_source in *.
body_unfold. rewrite decide_True by exact Ht. destruct (bool_decide (row_anima (ch_row c) = src)); [|by eexists].
destruct (Hs eq_refl) as [Ha Hw]. cbn. rewrite decide_True by exact Ha. cbn. rewrite decide_True by exact Hw.
by eexists.
Qed.

Lemma apply_change_err c w : ¬ fits c (w_db w) → ∃ e w', apply_change src tgt c w = (Err e, w').
Proof.
intros Hf. unfold fits, apply_change, move_rows, exec_unique, update_unique, new_key in *.
fold (of_source c). body_unfold. set (from := of_source c) in *.
destruct (decide (NoDup (task_key <$> moved_tasks c (tasks (w_db w))))) as [Ht|Ht];
  unfold moved_tasks, new_key in Ht; fold from in Ht; cbn in Ht; [rewrite decide_True by exact Ht|rewrite decide_False by exact Ht; eauto].
destruct from eqn:E; [|exfalso; apply Hf; split; [|discriminate]; unfold moved_tasks, new_key; fold from; rewrite E; exact Ht].
destruct (decide (NoDup (attempt_slot <$> moved_attempts c (task_attempts (w_db w))))) as [Ha|Ha];
  unfold moved_attempts in Ha; cbn; [rewrite decide_True by exact Ha|rewrite decide_False by exact Ha; eauto].
destruct (decide (NoDup (wakeup_key <$> moved_wakeups c (task_wakeups (w_db w))))) as [Hw|Hw];
  unfold moved_wakeups in Hw; cbn; [|rewrite decide_False by exact Hw; eauto].
exfalso. apply Hf. split; [|by split]. unfold moved_tasks, new_key. fold from. rewrite E. exact Ht.
Qed.

(* -------------------------------------------------------------- *)
(** ** One changed row keeps the invariant *)

(** The change was computed from an idle row and describes a valid one. *)
Record change_ok c : Prop := {
co_idle : row_current (ch_row c) = None;
co_id : task_id (ch_entry c) = ch_new_id c;
co_same : of_source c = false → ch_new_id c = row_task_id (ch_row c);
co_input : ∀ p, ch_input c = Some p → dget "task_id" p = Some (JStr (ch_new_id c));
co_has_input : is_Some (row_input (ch_row c)) → is_Some (ch_input c);
co_status : status (row_entry (ch_row c)) ≠ "pending" → status (ch_entry c) ≠ "pending"
}.

Lemma renamed_key c : task_key (renamed c) = new_key c.
Proof. done. Qed.

Lemma foreign_key c : change_ok c → of_source c = false → new_key c = task_key (ch_row c).
Proof. intros Hc Hs. unfold new_key. rewrite Hs, (co_same c Hc Hs). done. Qed.

Lemma renamed_ok c : change_ok c → row_ok (ch_row c) → row_ok (renamed c).
Proof.
intros [] []. split; cbn; try done.
- intros [? ?]%ok_ready. auto.
- intros Hr. auto.
- intros [? ?]%ok_archived. auto.
Qed.

Lemma row_by_key t r r' : unique task_key t → r ∈ t → r' ∈ t → task_key r = task_key r' → r = r'.
Proof.
intros Hu Hr Hr' Heq. pose proof (select_key_elem _ _ _ Hu Hr). pose proof (select_key_elem _ _ _ Hu Hr'). congruence.
Qed.

Lemma elem_of_moved_tasks c t r :
unique task_key t → ch_row c ∈ t →
r ∈ moved_tasks c t ↔ (r ∈ t ∧ task_key r ≠ task_key (ch_row c)) ∨ r = renamed c.
Proof.
intros Hu Hc. unfold moved_tasks. rewrite elem_of_update_where. split.
- intros (r0 & Hr0 & ->). case_bool_decide as E; [|by left]. right.
  by rewrite (row_by_key t r0 (ch_row c)).
- intros [[Hr Hne]| ->]; [exists r|exists (ch_row c)]; (split; [done|]).
  + by rewrite bool_decide_eq_false_2.
  + by rewrite bool_decide_eq_true_2.
Qed.

Lemma running_moved_tasks c t x :
change_ok c → unique task_key t → ch_row c ∈ t → x ∈ running (moved_tasks c t) ↔ x ∈ running t.
Proof.
intros Hc Hu Hin. destruct x as [k tok]. rewrite !elem_of_running. setoid_rewrite elem_of_moved_tasks; [|done..].
split; intros (r & Hr & Hk & Hcur).
- destruct Hr as [[Hr _]| ->]; [eauto|]. cbn in Hcur. by rewrite (co_idle c Hc) in Hcur.
- exists r. split; [|done]. left. split; [done|]. intros Heq.
  rewrite (row_by_key t r (ch_row c)), (co_idle c Hc) in Hcur by done. done.
Qed.

Lemma move_result_ref_fields old_id new_id a :
attempt_task (move_result_ref old_id new_id a) = attempt_task a ∧
att_token (move_result_ref old_id new_id a) = att_token a ∧
att_number (move_result_ref old_id new_id a) = att_number a ∧
att_ended_at (move_result_ref old_id new_id a) = att_ended_at a.
Proof. unfold move_result_ref. by case_match. Qed.

(** An attempt after the move. *)
Definition moved_attempt c (a : attempt_row) : attempt_row :=
let b := if bool_decide (attempt_task a = task_key (ch_row c)) then rename_attempt tgt (ch_new_id c) a else a in
if bool_decide (attempt_task b = (tgt, ch_new_id c))
then move_result_ref (row_task_id (ch_row c)) (ch_new_id c) b else b.

Lemma moved_attempts_map c t : moved_refs c (moved_attempts c t) = moved_attempt c <$> t.
Proof. unfold moved_refs, moved_attempts, update_where. by rewrite <- list_fmap_compose. Qed.

Lemma moved_attempt_fields c a :
att_token (moved_attempt c a) = att_token a ∧ att_number (moved_attempt c a) = att_number a ∧
att_ended_at (moved_attempt c a) = att_ended_at a ∧
attempt_task (moved_attempt c a) =
  if bool_decide (attempt_task a = task_key (ch_row c)) then (tgt, ch_new_id c) else attempt_task a.
Proof.
unfold moved_attempt. destruct (bool_decide (attempt_task a = task_key (ch_row c))); cbn.
all: match goal with |- context [move_result_ref ?o ?n ?b] =>
       destruct (move_result_ref_fields o n b) as (H1 & H2 & H3 & H4) end.
all: case_bool_decide; [by rewrite H1, H2, H3, H4|done].
Qed.

Lemma moved_attempts_slots c t :
attempt_slot <$> (moved_attempt c <$> t) = attempt_slot <$> moved_attempts c t.
Proof.
rewrite <- moved_attempts_map. apply update_where_keys. intros a _ _. unfold attempt_slot.
by destruct (move_result_ref_fields (row_task_id (ch_row c)) (ch_new_id c) a) as (-> & _ & -> & _).
Qed.

(** The row of a change is idle, so none of its attempts is running. *)
Lemma no_live_attempt c d a :
inv d → change_ok c → ch_row c ∈ tasks d → a ∈ task_attempts d → attempt_task a = task_key (ch_row c) →
attempt_live a = false.
Proof.
intros Hd Hc Hin Ha Hk. destruct (attempt_live a) eqn:E; [|done]. exfalso.
assert ((task_key (ch_row c), att_token a) ∈ running (tasks d)) as (r & Hr & Hkr & Hcur)%elem_of_running.
{ apply (inv_fence _ Hd), elem_of_live. eauto. }
rewrite (row_by_key (tasks d) r (ch_row c)), (co_idle c Hc) in Hcur by (done || apply Hd). done.
Qed.

Lemma live_moved c d x :
inv d → change_ok c → ch_row c ∈ tasks d →
x ∈ live (moved_attempt c <$> task_attempts d) ↔ x ∈ live (task_attempts d).
Proof.
intros Hd Hc Hin. destruct x as [k tok]. rewrite !elem_of_live. setoid_rewrite list_elem_of_fmap.
pose proof (no_live_attempt c d) as Hno.
assert (∀ a, a ∈ task_attempts d → attempt_live a = true → attempt_task (moved_attempt c a) = attempt_task a) as Hsame.
{ intros a Ha Hl. destruct (moved_attempt_fields c a) as (_ & _ & _ & ->). case_bool_decide; [|done].
  rewrite (Hno a) in Hl by done. done. }
assert (∀ a, attempt_live (moved_attempt c a) = attempt_live a) as Hlive.
{ intros a. unfold attempt_live. by destruct (moved_attempt_fields c a) as (_ & _ & -> & _). }
assert (∀ a, att_token (moved_attempt c a) = att_token a) as Htok by apply moved_attempt_fields.
split.
- intros (? & (a & -> & Ha) & Hk & Ht & Hl). rewrite Hlive in Hl. rewrite Htok in Ht. rewrite Hsame in Hk by done. by exists a.
- intros (a & Ha & Hk & Ht & Hl). exists (moved_attempt c a). rewrite Hlive, Htok, Hsame by done. split; [by exists a|done].
Qed.

(** A change that violates no constraint keeps the tables consistent. *)
Lemma moved_inv c d : inv d → change_ok c → ch_row c ∈ tasks d → fits c d → inv (moved c d).
Proof.
intros Hd Hc Hin [Ht Hs].
assert (Forall row_ok (moved_tasks c (tasks d))) as Hrows.
{ apply Forall_forall. intros r Hr. apply elem_of_moved_tasks in Hr; [|apply Hd|done].
  destruct Hr as [[Hr _]| ->]; [by eapply inv_row|]. apply renamed_ok; [done|by eapply inv_row]. }
assert (∀ k, k ∈ task_key <$> tasks d → k ≠ task_key (ch_row c) → k ∈ task_key <$> moved_tasks c (tasks d)) as Hkeep.
{ intros k (r & -> & Hr)%list_elem_of_fmap Hne. apply list_elem_of_fmap_2, elem_of_moved_tasks; [apply Hd|done|by left]. }
assert (new_key c ∈ task_key <$> moved_tasks c (tasks d)) as Hnew.
{ change (task_key (renamed c) ∈ task_key <$> moved_tasks c (tasks d)).
  apply list_elem_of_fmap_2, elem_of_moved_tasks; [apply Hd|done|by right]. }
unfold moved. destruct (of_source c) eqn:E.
- destruct (Hs eq_refl) as [Ha Hw]. rewrite moved_attempts_map. split; cbn [tasks task_attempts task_aliases task_wakeups task_claim_control set_tasks]; try apply Hd; try done.
  + unfold unique. rewrite <- list_fmap_compose.
    rewrite (list_fmap_ext _ att_token) by (intros; apply moved_attempt_fields). apply Hd.
  + unfold unique. by rewrite moved_attempts_slots.
  + apply update_where_unique; [done|apply Hd].
  + intros a (b & -> & Hb)%list_elem_of_fmap. destruct (moved_attempt_fields c b) as (_ & _ & _ & ->).
    case_bool_decide as Hk; [|by apply Hkeep; [apply (inv_owned _ Hd)|]].
    unfold new_key in Hnew. by rewrite E in Hnew.
  + intros x. rewrite running_moved_tasks, live_moved by (done || apply Hd). apply Hd.
- split; cbn [tasks task_attempts task_aliases task_wakeups task_claim_control set_tasks]; try apply Hd; try done.
  + intros a Ha. destruct (decide (attempt_task a = task_key (ch_row c))) as [->|].
    * by rewrite <- foreign_key.
    * by apply Hkeep; [apply (inv_owned _ Hd)|].
  + intros x. rewrite running_moved_tasks by (done || apply Hd). apply Hd.
Qed.

(* -------------------------------------------------------------- *)
(** ** All changed rows *)

(** Where a reference to task [k] points after the changes. *)
Definition moves c (k : string * string) : string * string :=
if of_source c && bool_decide (k = task_key (ch_row c)) then new_key c else k.
Definition moves_all (cs : list change) (k : string * string) : string * string := foldl (λ k c, moves c k) k cs.

(** What no change touches in an attempt, a wakeup and an alias, next to the
  task it refers to. *)
Definition attempt_core (a : attempt_row) :=
(att_token a, att_number a, att_identity a, att_started_at a, att_ended_at a, att_stop_kind a).
Definition attempt_view (a : attempt_row) := (attempt_core a, attempt_task a).
Definition wakeup_view (k : wakeup_row) :=
((wk_token k, wk_reason k, wk_created_at k, wk_acknowledged_at k), (wk_anima k, wk_task_id k)).
Definition alias_view (a : alias_row) := (alias_key a, (al_anima a, al_task_id a)).

(** The rows of a table with the task they refer to redirected by [f]. *)
Definition redirected {A R} (view : R → A * (string * string)) (f : string * string → string * string) (t t' : list R) : Prop :=
view <$> t' = prod_map id f <$> (view <$> t).

Lemma redirected_id {A R} (view : R → A * (string * string)) t : redirected view id t t.
Proof. unfold redirected. rewrite <- list_fmap_compose. apply list_fmap_ext. intros i r _. cbn. by destruct (view r). Qed.

Lemma redirected_compose {A R} (view : R → A * (string * string)) f g t t1 t2 :
redirected view f t t1 → redirected view g t1 t2 → redirected view (λ k, g (f k)) t t2.
Proof. unfold redirected. intros H1 H2. rewrite H2, H1, <- list_fmap_compose. by apply list_fmap_ext. Qed.

Record changes_done (cs : list change) d d' : Prop := {
cd_inv : inv d';
cd_tasks : ∀ r, r ∈ tasks d' ↔
  (r ∈ tasks d ∧ task_key r ∉ (λ c, task_key (ch_row c)) <$> cs) ∨ ∃ c, c ∈ cs ∧ r = renamed c;
cd_count : length (tasks d') = length (tasks d);
cd_attempts : redirected attempt_view (moves_all cs) (task_attempts d) (task_attempts d');
cd_wakeups : redirected wakeup_view (moves_all cs) (task_wakeups d) (task_wakeups d');
cd_aliases : redirected alias_view (moves_all cs) (task_aliases d) (task_aliases d')
}.

Lemma redirected_rows {A R} (view : R → A * (string * string)) (f : string * string → string * string) (g : R → R) (t : list R) :
(∀ r, view (g r) = prod_map id f (view r)) → redirected view f t (g <$> t).
Proof. intros Hg. unfold redirected. rewrite <- !list_fmap_compose. apply list_fmap_ext. intros ? r _. apply Hg. Qed.

Lemma moved_attempt_core c a : attempt_core (moved_attempt c a) = attempt_core a.
Proof.
assert (∀ o n b, attempt_core (move_result_ref o n b) = attempt_core b) as Hm.
{ intros o n b. unfold move_result_ref. by case_match. }
unfold moved_attempt. cbv zeta. destruct (bool_decide (attempt_task a = task_key (ch_row c))).
all: case_bool_decide; by rewrite ?Hm.
Qed.

Lemma moved_redirects c d :
redirected attempt_view (moves c) (task_attempts d) (task_attempts (moved c d)) ∧
redirected wakeup_view (moves c) (task_wakeups d) (task_wakeups (moved c d)) ∧
redirected alias_view (moves c) (task_aliases d) (task_aliases (moved c d)).
Proof.
unfold moved, moves, new_key. destruct (of_source c) eqn:E; cbn [task_attempts task_wakeups task_aliases set_tasks andb];
  [|split_and!; exact (redirected_id _ _)].
rewrite moved_attempts_map. split_and!; apply redirected_rows; intros r; unfold prod_map.
- unfold attempt_view at 1. by rewrite moved_attempt_core, (proj2 (proj2 (proj2 (moved_attempt_fields c r)))).
- unfold wakeup_view. cbn. by destruct (bool_decide ((wk_anima r, wk_task_id r) = task_key (ch_row c))).
- unfold alias_view. cbn. by destruct (bool_decide ((al_anima r, al_task_id r) = task_key (ch_row c))).
Qed.

Lemma moved_tasks_eq c d : tasks (moved c d) = moved_tasks c (tasks d).
Proof. unfold moved. by destruct (of_source c). Qed.

(** A key a task moved to was free. *)
Lemma fits_fresh c d r :
fits c d → ch_row c ∈ tasks d → new_key c ≠ task_key (ch_row c) → r ∈ tasks d → task_key r ≠ new_key c.
Proof.
intros [Hnd _] [j Hj]%list_elem_of_lookup Hne [i Hi]%list_elem_of_lookup Heq.
assert (task_key <$> moved_tasks c (tasks d) !! i = Some (task_key r) ∧
        task_key <$> moved_tasks c (tasks d) !! j = Some (new_key c)) as [H1 H2].
{ unfold moved_tasks, update_where. rewrite !list_lookup_fmap, Hi, Hj. cbn.
  rewrite bool_decide_eq_false_2 by congruence. by rewrite bool_decide_eq_true_2. }
rewrite <- list_lookup_fmap in H1, H2. rewrite Heq in H1.
pose proof (NoDup_lookup _ _ _ _ Hnd H1 H2) as ->. congruence.
Qed.

Lemma changes_done_nil d : inv d → changes_done [] d d.
Proof.
intros Hd. split; [done| |done|apply redirected_id..].
intros r. cbn. set_solver.
Qed.

Lemma changes_done_cons c cs d d' :
src ≠ tgt → inv d → change_ok c → ch_row c ∈ tasks d → fits c d →
task_key (ch_row c) ∉ (λ c, task_key (ch_row c)) <$> cs → (∀ c', c' ∈ cs → ch_row c' ∈ tasks d) →
changes_done cs (moved c d) d' → changes_done (c :: cs) d d'.
Proof.
intros Hst Hd Hc Hin Hfit Hni Hrest [Hi Ht Hn Ha Hw Hl].
destruct (moved_redirects c d) as (Ha1 & Hw1 & Hl1).
split; [done| |rewrite Hn, moved_tasks_eq; apply length_fmap|exact (redirected_compose _ _ _ _ _ _ Ha1 Ha)|exact (redirected_compose _ _ _ _ _ _ Hw1 Hw)|
  exact (redirected_compose _ _ _ _ _ _ Hl1 Hl)].
intros r. rewrite Ht, moved_tasks_eq, elem_of_moved_tasks by (done || apply Hd).
rewrite fmap_cons, not_elem_of_cons. split.
- intros [[[[Hr ?]| ->] ?]|(c' & ? & ->)]; [by left|..]; right; [exists c|exists c']; (split; [|done]); set_solver.
- intros [(Hr & Hne & Hnot)|(c' & [->|Hc']%elem_of_cons & ->)]; [by left; auto| |right; eauto].
  left. split; [by right|]. rewrite renamed_key. destruct (of_source c) eqn:E; [|by rewrite foreign_key].
  intros (c' & Heq & Hc')%list_elem_of_fmap. apply (fits_fresh c d (ch_row c')); [done|done| |auto|by symmetry].
  unfold new_key. rewrite E. unfold of_source in E. breflect. unfold task_key. congruence.
Qed.

Lemma other_row_kept c d r :
inv d → ch_row c ∈ tasks d → r ∈ tasks d → task_key r ≠ task_key (ch_row c) → r ∈ tasks (moved c d).
Proof. intros Hd Hin Hr Hne. rewrite moved_tasks_eq. apply elem_of_moved_tasks; [apply Hd|done|by left]. Qed.

Lemma changes_run cs w w' :
src ≠ tgt → inv (w_db w) → Forall change_ok cs → NoDup ((λ c, task_key (ch_row c)) <$> cs) →
(∀ c, c ∈ cs → ch_row c ∈ tasks (w_db w)) →
for_each cs (apply_change src tgt) w = (Ok tt, w') → changes_done cs (w_db w) (w_db w').
Proof.
intros Hst. revert w. induction cs as [|c cs IH]; intros w Hd Hok Hnd Hrows; cbn.
{ intros [= <-]. by apply changes_done_nil. }
apply Forall_cons in Hok as [Hc Hok]. apply NoDup_cons in Hnd as [Hni Hnd].
assert (ch_row c ∈ tasks (w_db w)) as Hin by (apply Hrows; left).
destruct (decide (fits c (w_db w))) as [Hfit|Hfit].
- destruct (apply_change_ok c w Hfit) as (w1 & Hrun & Hw1). body_unfold. rewrite Hrun. intros Hrest.
  apply changes_done_cons; [done..| |].
  + intros c' Hc'. apply Hrows. by right.
  + rewrite <- Hw1. apply IH; try done; rewrite Hw1; [by apply moved_inv|].
    intros c' Hc'. apply other_row_kept; [done|done|apply Hrows; by right|].
    intros Heq. apply Hni. rewrite <- Heq. by apply (list_elem_of_fmap_2 (λ c, task_key (ch_row c))).
- destruct (apply_change_err c w Hfit) as (e & w1 & Hrun). body_unfold. by rewrite Hrun.
Qed.

(** Where the references end up: those to a task of the source follow it, the
  others stay. *)
Lemma moves_other c k : fst k ≠ src → moves c k = k.
Proof.
intros Hk. unfold moves, of_source. case_bool_decide; [|done]. cbn. case_bool_decide; [|done].
subst. by destruct Hk.
Qed.
Lemma moves_all_other cs k : fst k ≠ src → moves_all cs k = k.
Proof. intros Hk. unfold moves_all. induction cs as [|c cs IH]; [done|]. cbn. by rewrite moves_other. Qed.

Lemma moves_all_source cs c :
src ≠ tgt → NoDup ((λ c, task_key (ch_row c)) <$> cs) → c ∈ cs → row_anima (ch_row c) = src →
moves_all cs (task_key (ch_row c)) = (tgt, ch_new_id c).
Proof.
intros Hst Hnd Hc Hs. induction cs as [|c' cs IH]; [by apply not_elem_of_nil in Hc|].
apply NoDup_cons in Hnd as [Hni Hnd]. apply elem_of_cons in Hc as [<-|Hc].
- cbn. unfold moves at 2, new_key, of_source. rewrite !bool_decide_eq_true_2 by done. cbn.
  apply (moves_all_other cs (tgt, ch_new_id c)). cbn. congruence.
- cbn. replace (moves c' (task_key (ch_row c))) with (task_key (ch_row c)); [by apply IH|].
  unfold moves. rewrite (bool_decide_eq_false_2 (task_key (ch_row c) = _)), andb_false_r; [done|].
  intros Heq. apply Hni. rewrite <- Heq. by apply (list_elem_of_fmap_2 (λ c, task_key (ch_row c))).
Qed.
End step.

(* ------------------------------------------------------------------ *)
(** ** The changes a transfer computes *)

Section changes.
Context (src tgt : string) (mapping : list (string * string)) (transform : string → dict → dict).
Local Abbreviation the_change := (row_change src tgt mapping transform).
Local Abbreviation the_changes := (row_changes src tgt mapping transform).

(** The rewriting keeps an input under its task's new identifier, keeps a status
  that is not a path, and makes no entry pending. *)
Definition faithful (d : db) : Prop :=
∀ r i, r ∈ tasks d → new_task_id src tgt mapping d r = Ok i →
  (∀ p, row_input r = Some p → dget "task_id" (transform (row_anima r) p) = Some (JStr i)) ∧
  (∀ e, entry_of_dict (dset "task_id" (JStr i) (transform (row_anima r) (entry_dict (row_entry r)))) = Some e →
        task_id e = i ∧ (status (row_entry r) ≠ "pending" → status e ≠ "pending") ∧
        (absolute (status (row_entry r)) = false → status e = status (row_entry r))).

(** The change of row [r]. *)
Record change_of (d : db) (r : task_row) (c : change) : Prop := {
co_row : ch_row c = r;
co_current : row_current r = None;
co_new_id : new_task_id src tgt mapping d r = Ok (ch_new_id c);
co_entry : entry_of_dict (dset "task_id" (JStr (ch_new_id c)) (transform (row_anima r) (entry_dict (row_entry r))))
             = Some (ch_entry c);
co_payload : ch_input c = transform (row_anima r) <$> row_input r
}.

Lemma row_change_Some d r c : the_change d r = Ok (Some c) → change_of d r c.
Proof.
unfold row_change. destruct (new_task_id src tgt mapping d r) as [i|e] eqn:Ei; [|done]. cbn.
case_match; [done|]. case_match eqn:Eb; [done|]. apply orb_false_iff in Eb as [Hcur _].
case_match eqn:Ee; [|done]. intros [= <-]. breflect. apply eq_None_not_Some in Hcur. by split.
Qed.

Lemma row_change_None d r : the_change d r = Ok None → row_anima r ≠ src.
Proof.
unfold row_change. destruct (new_task_id src tgt mapping d r); [|done]. cbn.
case_match eqn:E; [|by repeat case_match]. breflect. done.
Qed.

Lemma row_change_total d r i e :
new_task_id src tgt mapping d r = Ok i → row_current r = None → live_attempt (task_key r) d = false →
entry_of_dict (dset "task_id" (JStr i) (transform (row_anima r) (entry_dict (row_entry r)))) = Some e →
∃ o, the_change d r = Ok o.
Proof.
unfold row_change. intros -> -> -> He. cbv beta iota delta [mbind result_bind].
rewrite He, (bool_decide_eq_false_2 (is_Some None)) by (by intros [? ?]). case_match; by eexists.
Qed.

Lemma row_changes_spec d rows cs :
the_changes d rows = Ok cs →
(ch_row <$> cs) `sublist_of` rows ∧ Forall (λ c, change_of d (ch_row c) c) cs ∧
∀ r, r ∈ rows → (∃ c, c ∈ cs ∧ ch_row c = r) ∨ (row_anima r ≠ src ∧ the_change d r = Ok None).
Proof.
revert cs. induction rows as [|r rows IH]; intros cs; cbn.
{ intros [= <-]. split_and!; [done|done|by intros ? ?%not_elem_of_nil]. }
destruct (the_change d r) as [o|] eqn:Er; [|done]. cbn.
destruct (the_changes d rows) as [cs'|] eqn:Ers; [|done]. cbn. intros [= <-].
destruct (IH cs') as (Hsub & Hall & Hcov); [done|].
destruct o as [c|].
- pose proof (row_change_Some _ _ _ Er) as Hc. pose proof (co_row _ _ _ Hc) as Hrow. split_and!.
  + cbn. rewrite Hrow. by constructor.
  + constructor; [by rewrite Hrow|done].
  + intros r' [->|Hr']%elem_of_cons; [left; exists c; split; [left|done]|].
    destruct (Hcov r' Hr') as [(c' & ? & ?)|]; [left; exists c'; split; [by right|done]|by right].
- split_and!; [by constructor|done|]. intros r' [->|Hr']%elem_of_cons; [|auto].
  right. split; [by eapply row_change_None|done].
Qed.

Lemma change_of_ok d r c : faithful d → r ∈ tasks d → change_of d r c → change_ok src c.
Proof.
intros Hf Hr Hc. destruct (Hf r (ch_new_id c) Hr (co_new_id _ _ _ Hc)) as [Hin Hent].
destruct (Hent _ (co_entry _ _ _ Hc)) as (Hid & Hst & _).
pose proof (co_row _ _ _ Hc) as Hrow. split.
- rewrite Hrow. apply Hc.
- done.
- unfold of_source. intros Hsrc. pose proof (co_new_id _ _ _ Hc) as Hi. unfold new_task_id in Hi.
  rewrite Hrow in Hsrc |- *. rewrite Hsrc in Hi. congruence.
- intros p. rewrite (co_payload _ _ _ Hc). destruct (row_input r) as [q|] eqn:E; [|done].
  intros [= <-]. by apply Hin.
- rewrite Hrow, (co_payload _ _ _ Hc), fmap_is_Some. done.
- rewrite Hrow. done.
Qed.

(** The identifier of a task of the source comes from the mapping and is free
  in the target. *)
Lemma source_new_id d r i :
row_anima r = src → new_task_id src tgt mapping d r = Ok i →
dget (row_task_id r) mapping = Some i ∧ select_key task_key (tgt, i) (tasks d) = None.
Proof.
unfold new_task_id. intros ->. rewrite bool_decide_eq_true_2 by done.
repeat case_match; intros; simplify_eq; done.
Qed.
End changes.

(* ------------------------------------------------------------------ *)
(** ** The aliases the source keeps *)

Section aliases.
Context (src tgt : string) (mapping : list (string * string)).
Implicit Types (a b v : alias_row) (d : db).

Definition new_alias v : alias_row :=
mk_alias tgt (default (al_alias v) (dget (al_alias v) mapping)) (al_anima v) (al_task_id v).
Definition alias_moved v d : db :=
set_aliases (filter (λ b, alias_key b ≠ (src, al_alias v)) (insert_or_ignore alias_key (new_alias v) (task_aliases d))) d.
(** The new name is free, or already names the same task. *)
Definition alias_fits v d : Prop :=
(∀ b, select_key alias_key (alias_key (new_alias v)) (task_aliases d) = Some b → b = new_alias v) ∧
select_key task_key (alias_key (new_alias v)) (tasks d) = None.

Lemma alias_eq a b : alias_key a = alias_key b → (al_anima a, al_task_id a) = (al_anima b, al_task_id b) → a = b.
Proof. destruct a, b. unfold alias_key. cbn. congruence. Qed.

Lemma move_alias_run v w :
(alias_fits v (w_db w) ∧ ∃ w', move_alias src tgt mapping v w = (Ok tt, w') ∧ w_db w' = alias_moved v (w_db w)) ∨
(¬ alias_fits v (w_db w) ∧ ∃ e w', move_alias src tgt mapping v w = (Err e, w')).
Proof.
unfold move_alias, alias_fits. body_unfold. change (tgt, default (al_alias v) (dget (al_alias v) mapping)) with (alias_key (new_alias v)).
set (existing := select_key alias_key (alias_key (new_alias v)) (task_aliases (w_db w))).
destruct (match existing with Some b => negb _ | None => false end) eqn:E; cbn.
- right. split; [|eauto]. intros [H _]. destruct existing as [b|] eqn:Eb; [|done]. rewrite (H b) in E by done. breflect. done.
- destruct (bool_decide (is_Some (select_key task_key (alias_key (new_alias v)) (tasks (w_db w))))) eqn:Et; cbn; breflect.
  { right. split; [|eauto]. intros [_ H]. rewrite H in Et. by destruct Et. }
  left. split; [|by eexists]. split; [|by apply eq_None_not_Some]. intros b Hb. rewrite Hb in E. breflect.
  apply alias_eq; [|done]. by apply select_key_Some in Hb as [_ ?].
Qed.

Record aliases_done (views : list alias_row) d d' : Prop := {
ad_inv : inv d';
ad_static : tasks d' = tasks d ∧ task_attempts d' = task_attempts d ∧ task_wakeups d' = task_wakeups d;
ad_aliases : ∀ b, b ∈ task_aliases d' ↔
  (b ∈ task_aliases d ∧ alias_key b ∉ alias_key <$> views) ∨ ∃ v, v ∈ views ∧ b = new_alias v
}.

Lemma elem_of_alias_moved v d b :
src ≠ tgt → al_viewer v = src → alias_fits v d →
b ∈ task_aliases (alias_moved v d) ↔ (b ∈ task_aliases d ∧ alias_key b ≠ alias_key v) ∨ b = new_alias v.
Proof.
intros Hst Hv [Hf _]. unfold alias_moved. cbn [task_aliases set_aliases]. rewrite list_elem_of_filter.
assert (alias_key v = (src, al_alias v)) as -> by (unfold alias_key; congruence).
assert (alias_key (new_alias v) ≠ (src, al_alias v)) as Hne by (unfold alias_key; cbn; congruence).
unfold insert_or_ignore.
destruct (select_key alias_key (alias_key (new_alias v)) (task_aliases d)) as [b0|] eqn:E.
- pose proof (Hf b0 eq_refl) as ->. apply select_key_Some in E as [Hin _]. naive_solver.
- rewrite elem_of_app, list_elem_of_singleton. naive_solver.
Qed.

Lemma alias_moved_inv v d : inv d → inv (alias_moved v d).
Proof.
intros Hd. apply inv_set_aliases; [done|]. unfold unique.
apply (NoDup_filter_key alias_key alias_key); [done|]. apply insert_or_ignore_unique, Hd.
Qed.

Lemma aliases_run views w w' :
src ≠ tgt → inv (w_db w) → Forall (λ v, al_viewer v = src) views →
for_each views (move_alias src tgt mapping) w = (Ok tt, w') → aliases_done views (w_db w) (w_db w').
Proof.
intros Hst. revert w. induction views as [|v views IH]; intros w Hd Hall; cbn.
{ intros [= <-]. split; [done..|]. intros b. cbn. set_solver. }
apply Forall_cons in Hall as [Hv Hall]. body_unfold.
destruct (move_alias_run v w) as [(Hfit & w1 & Hrun & Hw1)|(_ & e & w1 & Hrun)]; rewrite Hrun; [|done].
intros Hrest. destruct (IH w1) as [Hi (Ht & Ha & Hk) Hal]; [rewrite Hw1; by apply alias_moved_inv|done|done|].
rewrite Hw1 in *. split; [done|done|]. intros b. rewrite Hal, elem_of_alias_moved by done.
rewrite fmap_cons, not_elem_of_cons. split.
- intros [[[[??]| ->]?]|(v' & ? & ->)]; [left; auto|right; exists v; split; [left|done]|right; exists v'; split; [by right|done]].
- intros [(? & ? & ?)|(v' & [->|Hv']%elem_of_cons & ->)]; [left; auto| |right; eauto].
  left. split; [by right|]. intros (b & Heq & Hb)%list_elem_of_fmap. rewrite Forall_forall in Hall.
  apply Hall in Hb. unfold alias_key in Heq. cbn in Heq. congruence.
Qed.
End aliases.

(* ------------------------------------------------------------------ *)
(** ** The whole transfer *)

(** A task before and after: scheduled, running and archived as it was, with
    input when it had input, and in the same status. *)
Definition follows (r r' : task_row) : Prop :=
  row_ready r' = row_ready r ∧ row_current r' = row_current r ∧ row_archived r' = row_archived r ∧
  (is_Some (row_input r') ↔ is_Some (row_input r)) ∧
  (absolute (status (row_entry r)) = false → status (row_entry r') = status (row_entry r)).

Section transferred.
Context (src tgt : string) (mapping : list (string * string)).

(** Where a reference to task [k] of the old tables points in the new ones. *)
Definition dest (d : db) (k : string * string) : string * string :=
match select_key task_key k (tasks d) with
| Some _ => if bool_decide (fst k = src) then (tgt, default (snd k) (dget (snd k) mapping)) else k
| None => k
end.

(** The ownership moved: the tables are consistent, nothing is left with the
  source, every task, attempt, wakeup and alias is there under its new name. *)
Record ownership_moved (d d' : db) : Prop := {
om_inv : inv d';
om_no_task : ∀ r, r ∈ tasks d' → row_anima r ≠ src;
om_no_attempt : ∀ a, a ∈ task_attempts d' → att_anima a ≠ src;
om_no_view : ∀ b, b ∈ task_aliases d' → al_viewer b ≠ src;
om_tasks : ∀ r, r ∈ tasks d → ∃ r', select_key task_key (dest d (task_key r)) (tasks d') = Some r' ∧ follows r r';
om_count : length (tasks d') = length (tasks d);
om_free : ∀ r, r ∈ tasks d → row_anima r = src → select_key task_key (dest d (task_key r)) (tasks d) = None;
om_attempts : redirected attempt_view (dest d) (task_attempts d) (task_attempts d');
om_wakeups : redirected wakeup_view (dest d) (task_wakeups d) (task_wakeups d');
om_aliases : ∀ b, b ∈ task_aliases d →
  ∃ b', b' ∈ task_aliases d' ∧ (al_anima b', al_task_id b') = dest d (al_anima b, al_task_id b) ∧
    alias_key b' = if bool_decide (al_viewer b = src)
                   then (tgt, default (al_alias b) (dget (al_alias b) mapping)) else alias_key b
}.

Lemma follows_refl r : follows r r.
Proof. by split_and!. Qed.

Lemma moves_all_absent cs k : k ∉ (λ c, task_key (ch_row c)) <$> cs → moves_all src tgt cs k = k.
Proof.
induction cs as [|c cs IH]; [done|]. rewrite fmap_cons, not_elem_of_cons. intros [Hne Hni]. cbn.
unfold moves at 2. rewrite (bool_decide_eq_false_2 (k = _)), andb_false_r by done. by apply IH.
Qed.

Lemma redirected_ext {A R} (view : R → A * (string * string)) f g t t' :
(∀ k, f k = g k) → redirected view f t t' → redirected view g t t'.
Proof.
unfold redirected. intros Hfg ->. apply list_fmap_ext. intros i [x k] _. unfold prod_map. cbn. by rewrite Hfg.
Qed.

Lemma redirected_elem {A R} (view : R → A * (string * string)) f t t' r :
redirected view f t t' → r ∈ t → ∃ r', r' ∈ t' ∧ view r' = (fst (view r), f (snd (view r))).
Proof.
unfold redirected. intros Heq Hr.
assert (prod_map id f (view r) ∈ view <$> t') as (r' & Hv & Hin)%list_elem_of_fmap.
{ rewrite Heq. by do 2 apply list_elem_of_fmap_2. }
exists r'. split; [done|]. by rewrite <- Hv.
Qed.

Context (transform : string → dict → dict) (d : db) (cs : list change).
Context (Hst : src ≠ tgt) (Hd : inv d) (Hf : faithful src tgt mapping transform d).
Context (Hcs : row_changes src tgt mapping transform d (tasks d) = Ok cs).

Lemma changes_facts :
Forall (change_ok src) cs ∧ NoDup ((λ c, task_key (ch_row c)) <$> cs) ∧ (∀ c, c ∈ cs → ch_row c ∈ tasks d) ∧
(∀ c, c ∈ cs → change_of src tgt mapping transform d (ch_row c) c) ∧
(∀ r, r ∈ tasks d → row_anima r = src → ∃ c, c ∈ cs ∧ ch_row c = r).
Proof.
destruct (row_changes_spec src tgt mapping transform d (tasks d) cs Hcs) as (Hsub & Hall & Hcov).
rewrite Forall_forall in Hall.
assert (∀ c, c ∈ cs → ch_row c ∈ tasks d) as Hin.
{ intros c Hc. eapply sublist_subseteq; [exact Hsub|]. by apply list_elem_of_fmap_2. }
split_and!; [| |done|done|].
- apply Forall_forall. intros c Hc. by eapply change_of_ok; eauto.
- rewrite (list_fmap_compose ch_row task_key).
  eapply sublist_NoDup; [apply (inv_tasks d Hd)|]. by apply fmap_sublist.
- intros r Hr Hs. destruct (Hcov r Hr) as [?|[? _]]; [done|by exfalso].
Qed.

Lemma source_change c :
c ∈ cs → row_anima (ch_row c) = src →
dget (row_task_id (ch_row c)) mapping = Some (ch_new_id c) ∧ select_key task_key (tgt, ch_new_id c) (tasks d) = None.
Proof.
intros Hc Hs. destruct changes_facts as (_ & _ & _ & Hof & _).
exact (source_new_id _ _ _ _ _ _ Hs (co_new_id _ _ _ _ _ _ _ (Hof c Hc))).
Qed.

Lemma change_dest c : c ∈ cs → new_key src tgt c = dest d (task_key (ch_row c)).
Proof.
intros Hc. destruct changes_facts as (Hok & _ & Hin & _ & _).
unfold dest. rewrite select_key_elem by (apply Hd || auto). unfold new_key, of_source. cbn.
case_bool_decide as Hs.
- by destruct (source_change c Hc Hs) as [-> _].
- rewrite Forall_forall in Hok. rewrite (co_same _ _ (Hok c Hc)); [done|]. unfold of_source. by rewrite bool_decide_eq_false_2.
Qed.

Lemma moves_all_dest k : moves_all src tgt cs k = dest d k.
Proof.
destruct changes_facts as (_ & Hnd & Hin & _ & Hcov).
unfold dest. destruct (select_key task_key k (tasks d)) as [r|] eqn:E.
- apply select_key_Some in E as [Hr <-]. cbn. case_bool_decide as Hs; [|by apply moves_all_other].
  destruct (Hcov r Hr Hs) as (c & Hc & <-). rewrite (moves_all_source _ _ cs c) by done.
  by destruct (source_change c Hc Hs) as [-> _].
- apply moves_all_absent. intros (c & -> & Hc)%list_elem_of_fmap.
  apply select_key_None in E. by apply E, list_elem_of_fmap_2, Hin.
Qed.

Lemma change_follows c : c ∈ cs → follows (ch_row c) (renamed src tgt c).
Proof.
intros Hc. destruct changes_facts as (_ & _ & Hin & Hof & _). specialize (Hof c Hc).
destruct (Hf (ch_row c) (ch_new_id c) (Hin c Hc) (co_new_id _ _ _ _ _ _ _ Hof)) as [_ Hent].
destruct (Hent _ (co_entry _ _ _ _ _ _ _ Hof)) as (_ & _ & Hstatus).
split_and!; [done|done|done| |done]. cbn. by rewrite (co_payload _ _ _ _ _ _ _ Hof), fmap_is_Some.
Qed.

Lemma dest_task d1 r :
changes_done src tgt cs d d1 → r ∈ tasks d →
∃ r', select_key task_key (dest d (task_key r)) (tasks d1) = Some r' ∧ follows r r'.
Proof.
intros Hdone Hr. destruct changes_facts as (_ & _ & Hin & Hof & Hcov).
destruct (decide (task_key r ∈ (λ c, task_key (ch_row c)) <$> cs)) as [(c & Heq & Hc)%list_elem_of_fmap|Hni].
- assert (r = ch_row c) as -> by (apply (row_by_key (tasks d)); auto; apply Hd).
  exists (renamed src tgt c). split; [|by apply change_follows]. rewrite <- change_dest by done.
  change (new_key src tgt c) with (task_key (renamed src tgt c)).
  apply select_key_elem; [apply Hdone|]. apply Hdone. eauto.
- exists r. split; [|apply follows_refl]. rewrite <- moves_all_dest, moves_all_absent by done.
  apply select_key_elem; [apply Hdone|]. apply Hdone. by left.
Qed.

Lemma transferred_ownership d1 d2 :
changes_done src tgt cs d d1 →
aliases_done tgt mapping (filter (λ a, al_viewer a = src) (task_aliases d1)) d1 d2 → ownership_moved d d2.
Proof.
intros Hdone [Hi2 (Ht & Ha & Hw) Hal]. destruct changes_facts as (_ & _ & Hin & Hof & Hcov).
assert (∀ r, r ∈ tasks d2 → row_anima r ≠ src) as Hno.
{ intros r. rewrite Ht, (cd_tasks _ _ _ _ _ Hdone). intros [[Hr Hni]|(c & Hc & ->)].
  - intros Hs. destruct (Hcov r Hr Hs) as (c & Hc & <-). apply Hni. by apply (list_elem_of_fmap_2 (λ c, task_key (ch_row c))).
  - cbn. unfold of_source. case_bool_decide; [by intros ?|done]. }
split; [done|done| | | | | | | |].
- intros a Hatt%(inv_owned _ Hi2). apply list_elem_of_fmap in Hatt as (r & Heq & Hr).
  apply Hno in Hr. unfold attempt_task, task_key in Heq. congruence.
- intros b [[Hb Hni]|(v & Hv & ->)]%Hal Hs; [|by apply Hst]. apply Hni, list_elem_of_fmap_2. by apply list_elem_of_filter.
- intros r Hr. rewrite Ht. by apply dest_task.
- rewrite Ht. apply Hdone.
- intros r Hr Hs. destruct (Hcov r Hr Hs) as (c & Hc & <-).
  rewrite <- change_dest by done. unfold new_key, of_source. rewrite bool_decide_eq_true_2 by done.
  by destruct (source_change c Hc Hs).
- rewrite Ha. eapply redirected_ext; [apply moves_all_dest|apply Hdone].
- rewrite Hw. eapply redirected_ext; [apply moves_all_dest|apply Hdone].
- intros b Hb. destruct (redirected_elem _ _ _ _ _ (cd_aliases _ _ _ _ _ Hdone) Hb) as (b1 & Hb1 & Hv1).
  pose proof (f_equal fst Hv1) as Hk1. pose proof (f_equal snd Hv1) as Hp1. cbn in Hk1, Hp1.
  rewrite moves_all_dest in Hp1. unfold alias_key in Hk1. injection Hk1 as Hvw Hal1. case_bool_decide as Hs.
  + exists (new_alias tgt mapping b1). split_and!; [|exact Hp1|by rewrite <- Hal1].
    apply Hal. right. exists b1. split; [|done]. apply list_elem_of_filter. by rewrite Hvw.
  + exists b1. split_and!; [|exact Hp1|unfold alias_key; congruence]. apply Hal. left. split; [done|].
    intros (v & Heq & [Hv _]%list_elem_of_filter)%list_elem_of_fmap. unfold alias_key in Heq. congruence.
Qed.
End transferred.

(* ------------------------------------------------------------------ *)
(** ** When a transfer cannot fail *)

Lemma unique_image {K R} (key : R → K) (g : R → R) (t : list R) :
  unique key t → (∀ r r', r ∈ t → r' ∈ t → key (g r) = key (g r') → key r = key r') → NoDup (key <$> (g <$> t)).
Proof.
  intros Hu Hg. rewrite <- list_fmap_compose. apply NoDup_fmap_2_strong; [|by eapply NoDup_fmap_1].
  intros r r' Hr Hr' Heq. apply (Hg _ _ Hr Hr') in Heq.
  apply list_elem_of_lookup in Hr as [i Hi]. apply list_elem_of_lookup in Hr' as [j Hj].
  assert (i = j) as ->; [|congruence].
  eapply NoDup_lookup; [exact Hu|by rewrite list_lookup_fmap, Hi|by rewrite list_lookup_fmap, Hj; cbn; rewrite Heq].
Qed.

(** Every wakeup is for a task that exists. *)
Definition wakeups_owned (d : db) : Prop :=
  ∀ k, k ∈ task_wakeups d → (wk_anima k, wk_task_id k) ∈ task_key <$> tasks d.

Section total.
Context (src tgt : string).

(** A row renamed to a free key violates nothing. *)
Lemma fits_free c d :
inv d → change_ok src c → ch_row c ∈ tasks d → wakeups_owned d →
(of_source src c = true → new_key src tgt c ∉ task_key <$> tasks d) → fits src tgt c d.
Proof.
intros Hd Hc Hin Hwk Hfree.
assert (∀ k, of_source src c = true → k ∈ task_key <$> tasks d → k ≠ (tgt, ch_new_id c)) as Hne.
{ intros k Hs Hk ->. apply (Hfree Hs). unfold new_key. by rewrite Hs. }
split; [|intros Hs; split].
- apply unique_image; [apply Hd|]. intros r r' Hr Hr'.
  assert (∀ x, x ∈ tasks d → new_key src tgt c = task_key x → task_key (ch_row c) = task_key x) as Hcol.
  { intros x Hx Heq. destruct (of_source src c) eqn:Es; [|by rewrite <- (foreign_key src tgt)].
    exfalso. apply (Hfree eq_refl). rewrite Heq. by apply list_elem_of_fmap_2. }
  pose proof (Hcol r Hr) as Hr1. pose proof (Hcol r' Hr') as Hr2. clear Hcol Hfree Hne.
  destruct (bool_decide (task_key r = _)) eqn:E1, (bool_decide (task_key r' = _)) eqn:E2; breflect.
  + congruence.
  + intros Heq. rewrite E1. by apply Hr2.
  + intros Heq. rewrite E2. symmetry. by apply Hr1.
  + done.
- apply unique_image; [apply Hd|]. intros a a' Ha Ha'. unfold attempt_slot.
  apply (inv_owned _ Hd), (Hne _ Hs) in Ha. apply (inv_owned _ Hd), (Hne _ Hs) in Ha'.
  repeat case_bool_decide; unfold attempt_task in *; cbn; congruence.
- apply unique_image; [apply Hd|]. intros k k' Hk Hk'. unfold wakeup_key.
  apply Hwk, (Hne _ Hs) in Hk. apply Hwk, (Hne _ Hs) in Hk'.
  repeat case_bool_decide; cbn; congruence.
Qed.

Lemma wakeups_owned_moved c d :
inv d → change_ok src c → ch_row c ∈ tasks d → wakeups_owned d → wakeups_owned (moved src tgt c d).
Proof.
intros Hd Hc Hin Hwk k Hk. rewrite moved_tasks_eq.
assert (∀ x, x ∈ task_key <$> tasks d → x ≠ task_key (ch_row c) → x ∈ task_key <$> moved_tasks src tgt c (tasks d)) as Hkeep.
{ intros x (r & -> & Hr)%list_elem_of_fmap Hne. by apply list_elem_of_fmap_2, elem_of_moved_tasks; [apply Hd| |left]. }
assert (new_key src tgt c ∈ task_key <$> moved_tasks src tgt c (tasks d)) as Hnew.
{ apply (list_elem_of_fmap_2 task_key _ (renamed src tgt c)), elem_of_moved_tasks; [apply Hd|done|by right]. }
unfold moved in Hk. destruct (of_source src c) eqn:Es.
- apply elem_of_update_where in Hk as (k0 & Hk0 & ->). apply Hwk in Hk0.
  case_bool_decide; [|by apply Hkeep]. unfold new_key in Hnew. by rewrite Es in Hnew.
- apply Hwk in Hk. destruct (decide ((wk_anima k, wk_task_id k) = task_key (ch_row c))) as [->|]; [|by apply Hkeep].
  by rewrite <- (foreign_key src tgt).
Qed.

Lemma changes_total `{Oracle} cs w :
src ≠ tgt → inv (w_db w) → wakeups_owned (w_db w) → Forall (change_ok src) cs →
NoDup ((λ c, task_key (ch_row c)) <$> cs) → NoDup (ch_new_id <$> filter (λ c, of_source src c = true) cs) →
(∀ c, c ∈ cs → ch_row c ∈ tasks (w_db w)) →
(∀ c, c ∈ cs → of_source src c = true → new_key src tgt c ∉ task_key <$> tasks (w_db w)) →
∃ w', for_each cs (apply_change src tgt) w = (Ok tt, w').
Proof.
intros Hst. revert w. induction cs as [|c cs IH]; intros w Hd Hwk Hok Hnd Hnd' Hrows Hfree; [by eexists|].
apply Forall_cons in Hok as [Hc Hok]. apply NoDup_cons in Hnd as [Hni Hnd].
assert (ch_row c ∈ tasks (w_db w)) as Hin by (apply Hrows; left).
assert (fits src tgt c (w_db w)) as Hfit by (apply fits_free; auto; apply Hfree; left).
destruct (apply_change_ok src tgt c w Hfit) as (w1 & Hrun & Hw1). cbn. body_unfold. rewrite Hrun.
apply IH; try done; try rewrite Hw1; [by apply moved_inv|by apply wakeups_owned_moved| | |].
- rewrite filter_cons in Hnd'. case_decide; [by apply NoDup_cons in Hnd' as [_ ?]|done].
- intros c' Hc'. apply other_row_kept; [done|done|apply Hrows; by right|].
  intros Heq. apply Hni. rewrite <- Heq. by apply (list_elem_of_fmap_2 (λ c, task_key (ch_row c))).
- intros c' Hc' Hs'. rewrite moved_tasks_eq. intros (r & Heq & Hr)%list_elem_of_fmap.
  apply elem_of_moved_tasks in Hr as [[Hr _]| ->]; [| |apply Hd|done].
  + apply (Hfree c'); [by right|done|]. rewrite Heq. by apply list_elem_of_fmap_2.
  + destruct (of_source src c) eqn:Es.
    * rewrite filter_cons, decide_True in Hnd' by done. apply NoDup_cons in Hnd' as [Hni' _]. apply Hni'.
      change (new_key src tgt c' = new_key src tgt c) in Heq. unfold new_key in Heq. injection Heq as _ Heq.
      rewrite <- Heq. apply list_elem_of_fmap_2. by apply list_elem_of_filter.
    * change (new_key src tgt c' = new_key src tgt c) in Heq. rewrite (foreign_key _ _ c) in Heq by done.
      apply (Hfree c'); [by right|done|]. rewrite Heq. by apply list_elem_of_fmap_2.
Qed.

(** Names that are free in the target and pairwise distinct can all be taken. *)
Lemma aliases_total `{Oracle} mapping views w :
src ≠ tgt → Forall (λ v, al_viewer v = src) views → NoDup ((λ v, alias_key (new_alias tgt mapping v)) <$> views) →
(∀ v, v ∈ views → alias_key (new_alias tgt mapping v) ∉ alias_key <$> task_aliases (w_db w) ∧
                  alias_key (new_alias tgt mapping v) ∉ task_key <$> tasks (w_db w)) →
∃ w', for_each views (move_alias src tgt mapping) w = (Ok tt, w').
Proof.
intros Hst. revert w. induction views as [|v views IH]; intros w Hall Hnd Hfree; [by eexists|].
apply Forall_cons in Hall as [Hv Hall]. apply NoDup_cons in Hnd as [Hni Hnd]. cbn. body_unfold.
assert (alias_fits tgt mapping v (w_db w)) as Hfit.
{ destruct (Hfree v) as [Ha Ht]; [left|]. split; [|by apply select_key_None].
  intros b Hb. apply select_key_None in Ha. congruence. }
destruct (move_alias_run src tgt mapping v w) as [(_ & w1 & Hrun & Hw1)|(? & _)]; [|done]. rewrite Hrun.
apply IH; [done|done|]. intros v' Hv'. rewrite Hw1. destruct (Hfree v') as [Ha Ht]; [by right|]. split; [|done].
intros (b & Heq & Hb)%list_elem_of_fmap. apply elem_of_alias_moved in Hb as [[Hb _]| ->]; [| |done..].
- apply Ha. rewrite Heq. by apply list_elem_of_fmap_2.
- apply Hni. rewrite <- Heq. by apply (list_elem_of_fmap_2 (λ v, alias_key (new_alias tgt mapping v))).
Qed.
End total.

(** The names and directories of a merge, and what it asks of the tables: no
  identifier looks like an absolute path, and no input of another anima claims
  the source as its owner. *)
Record mergeable (src tgt : string) (mapping : list (string * string)) (source_dir target_dir : string) (d : db) : Prop := {
mg_source : absolute source_dir = true;
mg_target : absolute target_dir = true;
mg_new : ∀ i, i ∈ snd <$> mapping → absolute i = false;
mg_ids : ∀ r, r ∈ tasks d → absolute (row_task_id r) = false;
mg_inputs : ∀ r p, r ∈ tasks d → row_input r = Some p → row_anima r ≠ src → owned_by src p = false
}.

Lemma dget_snd {V} k (v : V) l : dget k l = Some v → v ∈ snd <$> l.
Proof. intros Hg%dget_elem. by apply (list_elem_of_fmap_2 snd _ (k, v)). Qed.

(** Under these conditions the schema-aware rewriting is faithful. *)
Lemma merge_faithful src tgt mapping source_dir target_dir d :
inv d → mergeable src tgt mapping source_dir target_dir d →
faithful src tgt mapping (MergeRefs.transform src tgt mapping source_dir target_dir) d.
Proof.
intros Hd [Hs Ht Hnew Hids Hin] r i Hr Hi. split.
- intros p Hp. pose proof (ok_input r (inv_row _ _ Hd Hr) p Hp) as Hid.
  rewrite (transform_input_id src tgt mapping source_dir target_dir (row_anima r) p (row_task_id r)) by done.
  do 2 f_equal. unfold new_task_id in Hi. case_bool_decide as Ha; cbn.
  + destruct (source_new_id src tgt mapping d r i Ha) as [Hg _];
      [unfold new_task_id; by rewrite bool_decide_eq_true_2|].
    unfold map_id. rewrite Hg. cbn. apply rewrite_path_relative; [done..|]. by eapply Hnew, dget_snd.
  + rewrite (Hin r p) by done. simplify_eq. apply rewrite_path_relative; [done..|]. by apply Hids.
- intros e He.
  destruct (transform_entry src tgt mapping source_dir target_dir Hs Ht (row_anima r) (row_entry r) i)
    as (e' & He' & Hid & _ & Hst & _).
  rewrite He' in He. simplify_eq. split_and!; [done| |].
  + rewrite Hst. intros Hne Heq. apply Hne. by apply (rewrite_path_to_relative source_dir target_dir).
  + intros Hrel. rewrite Hst. by apply rewrite_path_relative.
Qed.

(** What the planner and the quiesced runtime provide: [ids] covers the
  source's tasks and aliases, [reserved] the target's; nothing is running;
  no alias of the source bears the name of one of its own tasks. *)
Record planned (src tgt : string) (ids reserved : list string) (d : db) : Prop := {
  pl_tasks : ∀ r, r ∈ tasks d → row_anima r = src → row_task_id r ∈ ids;
  pl_views : ∀ a, a ∈ task_aliases d → al_viewer a = src → al_alias a ∈ ids;
  pl_target_tasks : ∀ r, r ∈ tasks d → row_anima r = tgt → row_task_id r ∈ reserved;
  pl_target_views : ∀ a, a ∈ task_aliases d → al_viewer a = tgt → al_alias a ∈ reserved;
  pl_idle : ∀ a, a ∈ task_attempts d → attempt_live a = false;
  pl_wakeups : wakeups_owned d;
  pl_views_apart : ∀ a, a ∈ task_aliases d → al_viewer a = src → (src, al_alias a) ∉ task_key <$> tasks d
}.

Section planned.
Context (src tgt : string) (ids reserved : list string) (mapping : list (string * string)) (d : db).
Context (Hst : src ≠ tgt) (Hd : inv d) (Hp : planned src tgt ids reserved d).
Context (Hplan : plan src ids reserved = Some mapping).

Lemma planned_mapping i :
i ∈ ids → ∃ i', dget i mapping = Some i' ∧ i' ∉ reserved.
Proof.
intros Hi. destruct (plan_spec src ids reserved) as (m & Hm & Hdom & _ & Hout). rewrite Hplan in Hm. simplify_eq.
destruct (dget i m) as [i'|] eqn:E.
- exists i'. split; [done|]. apply Hout. apply dget_elem in E. by apply (list_elem_of_fmap_2 snd _ (i, i')).
- exfalso. apply list_elem_of_fmap in Hi as ([k v] & -> & Hin). clear -E Hin. cbn in E.
  induction m as [|[k' v'] m IH]; [by apply not_elem_of_nil in Hin|]. cbn in E. case_bool_decide; [done|].
  apply elem_of_cons in Hin as [[= ? ?]|?]; [done|auto].
Qed.

Lemma planned_inj i j v : dget i mapping = Some v → dget j mapping = Some v → i = j.
Proof.
destruct (plan_spec src ids reserved) as (m & Hm & _ & Hnd & _). rewrite Hplan in Hm. simplify_eq.
intros [n Hn]%dget_elem%list_elem_of_lookup [k Hk]%dget_elem%list_elem_of_lookup.
assert (n = k) as ->; [|congruence].
eapply NoDup_lookup; [exact Hnd|by rewrite list_lookup_fmap, Hn|by rewrite list_lookup_fmap, Hk].
Qed.

Lemma planned_free i i' : dget i mapping = Some i' → i ∈ ids → (tgt, i') ∉ task_key <$> tasks d.
Proof.
intros Hg Hi. destruct (planned_mapping i Hi) as (i2 & Hg2 & Hout). assert (i2 = i') as -> by congruence.
intros (r & Heq & Hr)%list_elem_of_fmap. apply Hout. unfold task_key in Heq. injection Heq as Ht ->.
by apply (pl_target_tasks _ _ _ _ _ Hp).
Qed.

(** Every row has a change or needs none. *)
Lemma planned_row source_dir target_dir r :
mergeable src tgt mapping source_dir target_dir d → r ∈ tasks d →
∃ o, row_change src tgt mapping (MergeRefs.transform src tgt mapping source_dir target_dir) d r = Ok o.
Proof.
intros Hm Hr. assert (∃ i, new_task_id src tgt mapping d r = Ok i) as [i Hi].
{ unfold new_task_id. case_bool_decide as Hs; [|by eexists].
  assert (row_task_id r ∈ ids) as Hi by (by apply (pl_tasks _ _ _ _ _ Hp)).
  destruct (planned_mapping _ Hi) as (i' & Hg & _). rewrite Hg.
  rewrite (proj2 (select_key_None task_key (tgt, i') (tasks d))); [by eexists|]. by eapply planned_free. }
destruct (transform_entry src tgt mapping source_dir target_dir (mg_source _ _ _ _ _ _ Hm) (mg_target _ _ _ _ _ _ Hm)
            (row_anima r) (row_entry r) i) as (e & He & _).
apply (row_change_total _ _ _ _ _ _ i e); [done| | |done].
- destruct (row_current r) as [tok|] eqn:E; [|done]. exfalso.
  assert ((task_key r, tok) ∈ live (task_attempts d)) as (a & Ha & _ & _ & Hl)%elem_of_live.
  { apply (inv_fence _ Hd), elem_of_running. eauto. }
  by rewrite (pl_idle _ _ _ _ _ Hp) in Hl.
- unfold live_attempt. apply any_false. intros a Ha. by rewrite (pl_idle _ _ _ _ _ Hp), andb_false_r.
Qed.

Lemma row_changes_total transform rows :
(∀ r, r ∈ rows → ∃ o, row_change src tgt mapping transform d r = Ok o) →
∃ cs, row_changes src tgt mapping transform d rows = Ok cs.
Proof.
induction rows as [|r rows IH]; intros Hall; [by eexists|]. cbn.
destruct (Hall r) as [o ->]; [left|]. destruct IH as [cs ->]; [|by eexists].
intros r' Hr'. apply Hall. by right.
Qed.

(** The renamed keys are free and distinct, and so are the names of the
  source's aliases. *)
Lemma planned_changes transform cs :
faithful src tgt mapping transform d → row_changes src tgt mapping transform d (tasks d) = Ok cs →
NoDup (ch_new_id <$> filter (λ c, of_source src c = true) cs) ∧
∀ c, c ∈ cs → of_source src c = true → new_key src tgt c ∉ task_key <$> tasks d.
Proof.
intros Hf Hcs. destruct (changes_facts _ _ _ _ _ _ Hd Hf Hcs) as (_ & Hnd & Hin & Hof & _).
pose proof (source_change _ _ _ _ _ _ Hd Hf Hcs) as Hsrc. split.
- apply (NoDup_filter_key ch_new_id (λ c, task_key (ch_row c))); [|done].
  intros c c' Hc Hc' Hs Hs' Heq. unfold of_source in *. breflect.
  destruct (Hsrc c Hc Hs) as [Hg _], (Hsrc c' Hc' Hs') as [Hg' _]. rewrite Heq in Hg.
  unfold task_key. by rewrite (planned_inj _ _ _ Hg Hg'), Hs, Hs'.
- intros c Hc Hs. pose proof Hs as Hs'. unfold of_source in Hs'. breflect.
  destruct (Hsrc c Hc Hs') as [_ Hfree]. unfold new_key. rewrite Hs. by apply select_key_None.
Qed.

Lemma redirected_alias_keys f t t' : redirected alias_view f t t' → alias_key <$> t' = alias_key <$> t.
Proof.
intros Heq. apply (f_equal (fmap fst)) in Heq. rewrite <- !list_fmap_compose in Heq. exact Heq.
Qed.

Lemma planned_views transform cs d1 v :
faithful src tgt mapping transform d → row_changes src tgt mapping transform d (tasks d) = Ok cs →
changes_done src tgt cs d d1 → v ∈ task_aliases d1 → al_viewer v = src →
(∃ i, dget (al_alias v) mapping = Some i ∧ alias_key (new_alias tgt mapping v) = (tgt, i)) ∧
alias_key (new_alias tgt mapping v) ∉ alias_key <$> task_aliases d1 ∧
alias_key (new_alias tgt mapping v) ∉ task_key <$> tasks d1.
Proof.
intros Hf Hcs Hdone Hv Hs. destruct (changes_facts _ _ _ _ _ _ Hd Hf Hcs) as (Hok & _ & Hin & _ & _).
rewrite Forall_forall in Hok.
pose proof (redirected_alias_keys _ _ _ (cd_aliases _ _ _ _ _ Hdone)) as Hkeys.
assert (alias_key v ∈ alias_key <$> task_aliases d) as (a & Hk & Ha)%list_elem_of_fmap.
{ rewrite <- Hkeys. by apply list_elem_of_fmap_2. }
unfold alias_key in Hk. injection Hk as Hvw Hal. rewrite Hs in Hvw. symmetry in Hvw.
assert (al_alias v ∈ ids) as Hi by (rewrite Hal; by apply (pl_views _ _ _ _ _ Hp)).
destruct (planned_mapping _ Hi) as (i & Hg & Hout). 
assert (alias_key (new_alias tgt mapping v) = (tgt, i)) as -> by (unfold alias_key; cbn; by rewrite Hg).
split_and!; [by exists i| |].
- rewrite Hkeys. intros (b & Heq & Hb)%list_elem_of_fmap. apply Hout. unfold alias_key in Heq. injection Heq as Ht ->.
  by apply (pl_target_views _ _ _ _ _ Hp).
- intros (r & Heq & Hr)%list_elem_of_fmap. apply (cd_tasks _ _ _ _ _ Hdone) in Hr as [[Hr _]|(c & Hc & ->)].
  + apply (planned_free _ _ Hg Hi). rewrite Heq. by apply list_elem_of_fmap_2.
  + rewrite renamed_key in Heq. destruct (of_source src c) eqn:Es.
    * unfold of_source in Es. breflect. destruct (source_change _ _ _ _ _ _ Hd Hf Hcs c Hc Es) as [Hgc _].
      unfold new_key in Heq. injection Heq as _ Heq. rewrite <- Heq in Hgc.
      apply (pl_views_apart _ _ _ _ _ Hp a Ha Hvw). rewrite <- Hal, (planned_inj _ _ _ Hg Hgc), <- Es.
      apply (list_elem_of_fmap_2 task_key), Hin, Hc.
    * rewrite foreign_key in Heq by auto. apply (planned_free _ _ Hg Hi). rewrite Heq. apply list_elem_of_fmap_2; auto.
Qed.
End planned.

Section theorems.
Context `{PostCommitFrame, Oracle}.

Lemma transfer_ok src tgt mapping transform w rep w' :
w_conn w = None → inv (w_db w) → faithful src tgt mapping transform (w_db w) →
transfer_anima_tasks src tgt mapping transform w = (Ok rep, w') → ownership_moved src tgt mapping (w_db w) (w_db w').
Proof.
intros Hc Hd Hf. unfold transfer_anima_tasks. destruct (_ || _) eqn:Eg; [done|]. breflect.
intros (w1 & Hbody & ->)%transaction_ok; [|done]. revert Hbody. unfold transfer_body. body_unfold.
change (w_db (begin_write w)) with (w_db w). set (d := w_db w) in *.
destruct (any _ _); [done|]. cbn.
destruct (row_changes src tgt mapping transform d (tasks d)) as [cs|] eqn:Ecs; [|done].
destruct (for_each cs (apply_change src tgt) (begin_write w)) as [[[]|] w2] eqn:E2; [|done].
destruct (for_each _ (move_alias src tgt mapping) w2) as [[[]|] w3] eqn:E3; [|done].
intros [= _ <-]. destruct (changes_facts _ _ _ _ _ _ Hd Hf Ecs) as (Hok & Hnd & Hin & _ & _).
assert (changes_done src tgt cs d (w_db w2)) as Hdone by (eapply (changes_run src tgt cs (begin_write w)); eauto).
eapply transferred_ownership; eauto.
eapply aliases_run; [done|apply Hdone|apply Forall_forall|exact E3].
by intros v [? _]%list_elem_of_filter.
Qed.


(** C8. A planned merge cannot fail: with the identifiers the planner allocates
  (it always finds some), and with nothing running, the transfer commits. *)
Theorem planned_merge_succeeds src tgt ids reserved source_dir target_dir w :
∃ mapping, plan src ids reserved = Some mapping ∧
  (src ≠ tgt → w_conn w = None → inv (w_db w) → planned src tgt ids reserved (w_db w) →
   mergeable src tgt mapping source_dir target_dir (w_db w) →
   ∃ rep, val_of (merge_tasks src tgt mapping source_dir target_dir w) = Ok rep).
Proof.
destruct (plan_spec src ids reserved) as (mapping & Hplan & _ & Hvals & _). exists mapping. split; [done|].
intros Hst Hc Hd Hp Hm. pose proof (merge_faithful _ _ _ _ _ _ Hd Hm) as Hf.
set (d := w_db w) in *. set (tr := MergeRefs.transform src tgt mapping source_dir target_dir) in *.
destruct (row_changes_total src tgt mapping d tr (tasks d)) as [cs Hcs].
{ intros r Hr. by apply (planned_row src tgt ids reserved). }
destruct (changes_facts _ _ _ _ _ _ Hd Hf Hcs) as (Hok & Hnd & Hin & _ & _).
destruct (planned_changes src tgt ids reserved mapping d Hd Hplan tr cs Hf Hcs) as [Hnd' Hfree].
destruct (changes_total src tgt cs (begin_write w)) as [w1 Hrun]; try done; [apply (pl_wakeups _ _ _ _ _ Hp)|].
assert (changes_done src tgt cs d (w_db w1)) as Hdone by (by apply (changes_run src tgt cs (begin_write w))).
pose proof (planned_views src tgt ids reserved mapping d Hd Hp Hplan tr cs (w_db w1)) as Hviews.
destruct (aliases_total src tgt mapping (filter (λ a, al_viewer a = src) (task_aliases (w_db w1))) w1) as [w2 Hrun2]; [done| | | |].
- apply Forall_forall. by intros v [? _]%list_elem_of_filter.
- apply (NoDup_filter_key (λ v, alias_key (new_alias tgt mapping v)) alias_key); [|apply Hdone].
  intros v v' Hv Hv' Hs Hs' Heq. destruct (Hviews v Hf Hcs Hdone Hv Hs) as [(i & Hg & Hi) _].
  destruct (Hviews v' Hf Hcs Hdone Hv' Hs') as [(i' & Hg' & Hi') _]. rewrite Hi, Hi' in Heq. injection Heq as ->.
  unfold alias_key. rewrite Hs, Hs'. f_equal. by eapply (planned_inj src ids reserved).
- intros v [Hs Hv]%list_elem_of_filter. by apply Hviews.
- unfold merge_tasks, transfer_anima_tasks. fold tr.
  rewrite (bool_decide_eq_false_2 (src = tgt)), (bool_decide_eq_true_2 (NoDup _)) by done. cbn [orb negb].
  assert (any (λ a, str_in (att_anima a) [src; tgt] && attempt_live a) (task_attempts d) = false) as Hidle.
  { apply any_false. intros a Ha. by rewrite (pl_idle _ _ _ _ _ Hp), andb_false_r. }
  eexists. rewrite (proj1 (transaction_top _ w Hc)). unfold transfer_body. body_unfold.
  change (w_db (begin_write w)) with d. unfold id. rewrite Hidle, Hcs, Hrun, Hrun2. reflexivity.
Qed.
End theorems.
