(* ===== verification/TaskBoard.v ===== *)
(** * The TaskBoard metadata store ([core/taskboard/store.py])

    Presentation metadata layered over the canonical tasks, with one audit
    event per change.  The keyword updates of [upsert_metadata] are a list of
    field updates carrying values of the field's declared type (enumeration
    fields as the strings callers pass); the validation of the pydantic model
    is what those types leave to check: the enumerations and the lower bound
    of the counter.

    The theorems: the tables stay well formed, the audit log replays to the
    current rows, and the behaviour of each operation. *)

From stdpp Require Import prelude strings list sorting relations.
From Stdlib Require Import QArith.
From S2P Require Import Prelude PyValue Sql TaskModels.

(* ------------------------------------------------------------------ *)
(** ** Enumerations and event types *)

Definition visibilities : list AttentionVisibility := [ACTIVE; SNOOZED; EXPIRED; ARCHIVED; TOMBSTONED].
Definition columns : list BoardColumn := [TODO; RUNNING; BLOCKED; WAITING; REVIEW; DONE; SUPPRESSED].

Definition column_value (c : BoardColumn) : string :=
  match c with
  | TODO => "todo" | RUNNING => "running" | BLOCKED => "blocked" | WAITING => "waiting"
  | REVIEW => "review" | DONE => "done" | SUPPRESSED => "suppressed"
  end.

(** [AttentionVisibility(value)] and [BoardColumn(value)]. *)
Fixpoint by_value {A} (f : A → string) (l : list A) (s : string) : option A :=
  match l with
  | [] => None
  | x :: l' => if bool_decide (f x = s) then Some x else by_value f l' s
  end.
Definition parse_visibility : string → option AttentionVisibility := by_value visibility_value visibilities.
Definition parse_column : string → option BoardColumn := by_value column_value columns.

Definition TASKBOARD_EVENT_TYPES : list string :=
  ["metadata_upserted"; "visibility_changed"; "column_changed"; "snoozed"; "expired"; "archived";
   "tombstoned"; "notification_acknowledged"; "surface_recorded"; "stale_processing_recovered"].

(* ------------------------------------------------------------------ *)
(** ** Field updates *)

Inductive field_update :=
| UVisibility (v : string)
| UColumn (v : option string)
| UPosition (v : option Q)
| UExpiresAt (v : option string)
| USnoozedUntil (v : option string)
| ULastNotifiedAt (v : option string)
| UNotificationKey (v : option string)
| USurfaceCount (v : Z)
| USourceRef (v : option string)
| UReplacedBy (v : option string)
| UTombstoneReason (v : option string)
| UUpdatedAt (v : string)
| UUpdatedBy (v : string)
| UUnknown (field : string).   (** a keyword that names no mutable field *)

Definition jopt (s : option string) : json := from_option JStr JNull s.

(** The keyword and its JSON-safe value ([_json_safe_updates]). *)
Definition update_item (u : field_update) : string * json :=
  match u with
  | UVisibility v => ("visibility", JStr v)
  | UColumn v => ("column", jopt v)
  | UPosition v => ("position", from_option JFloat JNull v)
  | UExpiresAt v => ("expires_at", jopt v)
  | USnoozedUntil v => ("snoozed_until", jopt v)
  | ULastNotifiedAt v => ("last_notified_at", jopt v)
  | UNotificationKey v => ("notification_key", jopt v)
  | USurfaceCount v => ("surface_count", JInt v)
  | USourceRef v => ("source_ref", jopt v)
  | UReplacedBy v => ("replaced_by", jopt v)
  | UTombstoneReason v => ("tombstone_reason", jopt v)
  | UUpdatedAt v => ("updated_at", JStr v)
  | UUpdatedBy v => ("updated_by", JStr v)
  | UUnknown f => (f, JNull)
  end.
Definition update_name (u : field_update) : string := fst (update_item u).
Definition is_unknown (u : field_update) : bool :=
  match u with UUnknown _ => true | _ => false end.
(** ["field" in updates]. *)
Definition updates_has (f : string) (us : list field_update) : bool :=
  any (λ u, bool_decide (update_name u = f)) us.

(** [metadata.model_dump(mode="json")]. *)
Definition metadata_json (m : TaskBoardMetadata) : dict :=
  [("anima_name", JStr (md_anima_name m)); ("task_id", JStr (md_task_id m));
   ("visibility", JStr (visibility_value (md_visibility m)));
   ("column", jopt (column_value <$> md_column m));
   ("position", from_option JFloat JNull (md_position m));
   ("expires_at", jopt (md_expires_at m)); ("snoozed_until", jopt (md_snoozed_until m));
   ("last_notified_at", jopt (md_last_notified_at m));
   ("notification_key", jopt (md_notification_key m));
   ("surface_count", JInt (Z.of_nat (md_surface_count m)));
   ("source_ref", jopt (md_source_ref m)); ("replaced_by", jopt (md_replaced_by m));
   ("tombstone_reason", jopt (md_tombstone_reason m)); ("updated_at", JStr (md_updated_at m));
   ("updated_by", JStr (md_updated_by m))].

(** Setting one field of the row. *)
Definition with_visibility v m :=
  mk_metadata (md_anima_name m) (md_task_id m) v (md_column m) (md_position m) (md_expires_at m)
    (md_snoozed_until m) (md_last_notified_at m) (md_notification_key m) (md_surface_count m)
    (md_source_ref m) (md_replaced_by m) (md_tombstone_reason m) (md_updated_at m) (md_updated_by m).
Definition with_column v m :=
  mk_metadata (md_anima_name m) (md_task_id m) (md_visibility m) v (md_position m) (md_expires_at m)
    (md_snoozed_until m) (md_last_notified_at m) (md_notification_key m) (md_surface_count m)
    (md_source_ref m) (md_replaced_by m) (md_tombstone_reason m) (md_updated_at m) (md_updated_by m).
Definition with_position v m :=
  mk_metadata (md_anima_name m) (md_task_id m) (md_visibility m) (md_column m) v (md_expires_at m)
    (md_snoozed_until m) (md_last_notified_at m) (md_notification_key m) (md_surface_count m)
    (md_source_ref m) (md_replaced_by m) (md_tombstone_reason m) (md_updated_at m) (md_updated_by m).
Definition with_times (ex sn ln : option string) m :=
  mk_metadata (md_anima_name m) (md_task_id m) (md_visibility m) (md_column m) (md_position m) ex
    sn ln (md_notification_key m) (md_surface_count m)
    (md_source_ref m) (md_replaced_by m) (md_tombstone_reason m) (md_updated_at m) (md_updated_by m).
Definition with_surface (key : option string) (n : nat) m :=
  mk_metadata (md_anima_name m) (md_task_id m) (md_visibility m) (md_column m) (md_position m)
    (md_expires_at m) (md_snoozed_until m) (md_last_notified_at m) key n
    (md_source_ref m) (md_replaced_by m) (md_tombstone_reason m) (md_updated_at m) (md_updated_by m).
Definition with_refs (src repl tomb : option string) m :=
  mk_metadata (md_anima_name m) (md_task_id m) (md_visibility m) (md_column m) (md_position m)
    (md_expires_at m) (md_snoozed_until m) (md_last_notified_at m) (md_notification_key m)
    (md_surface_count m) src repl tomb (md_updated_at m) (md_updated_by m).
Definition with_updated (at_ by_ : string) m :=
  mk_metadata (md_anima_name m) (md_task_id m) (md_visibility m) (md_column m) (md_position m)
    (md_expires_at m) (md_snoozed_until m) (md_last_notified_at m) (md_notification_key m)
    (md_surface_count m) (md_source_ref m) (md_replaced_by m) (md_tombstone_reason m) at_ by_.

(** [values.update(updates)] and the validation of the updated value. *)
Definition apply_update (m : TaskBoardMetadata) (u : field_update) : option TaskBoardMetadata :=
  match u with
  | UVisibility v => (λ x, with_visibility x m) <$> parse_visibility v
  | UColumn None => Some (with_column None m)
  | UColumn (Some v) => (λ x, with_column (Some x) m) <$> parse_column v
  | UPosition v => Some (with_position v m)
  | UExpiresAt v => Some (with_times v (md_snoozed_until m) (md_last_notified_at m) m)
  | USnoozedUntil v => Some (with_times (md_expires_at m) v (md_last_notified_at m) m)
  | ULastNotifiedAt v => Some (with_times (md_expires_at m) (md_snoozed_until m) v m)
  | UNotificationKey v => Some (with_surface v (md_surface_count m) m)
  | USurfaceCount v =>
      if bool_decide (0 ≤ v)%Z then Some (with_surface (md_notification_key m) (Z.to_nat v) m) else None
  | USourceRef v => Some (with_refs v (md_replaced_by m) (md_tombstone_reason m) m)
  | UReplacedBy v => Some (with_refs (md_source_ref m) v (md_tombstone_reason m) m)
  | UTombstoneReason v => Some (with_refs (md_source_ref m) (md_replaced_by m) v m)
  | UUpdatedAt v => Some (with_updated v (md_updated_by m) m)
  | UUpdatedBy v => Some (with_updated (md_updated_at m) v m)
  | UUnknown _ => Some m
  end.

Fixpoint apply_updates (m : TaskBoardMetadata) (us : list field_update) : option TaskBoardMetadata :=
  match us with
  | [] => Some m
  | u :: us' => m' ← apply_update m u; apply_updates m' us'
  end.

(** The row a first upsert starts from. *)
Definition fresh_metadata (anima_name task_id now actor : string) : TaskBoardMetadata :=
  mk_metadata anima_name task_id ACTIVE None None None None None None 0 None None None now actor.

Definition event_type_for_update (existing : option TaskBoardMetadata) (m : TaskBoardMetadata)
    (us : list field_update) : string :=
  match existing with
  | None => "metadata_upserted"
  | Some e =>
      if updates_has "visibility" us && negb (bool_decide (md_visibility m = md_visibility e)) then
        if bool_decide (md_visibility m ∈ [SNOOZED; EXPIRED; ARCHIVED; TOMBSTONED])
        then visibility_value (md_visibility m)
        else "visibility_changed"
      else if updates_has "column" us && negb (bool_decide (md_column m = md_column e))
      then "column_changed"
      else "metadata_upserted"
  end.

(* ------------------------------------------------------------------ *)
(** ** Operations *)

(** [with self._connection() as conn]: commit, or roll back when it raises. *)
Definition connection {A} (body : M world A) : M world A := λ w,
  match body w with
  | (Ok a, w') => (Ok a, w')
  | (Err e, w') => (Err e, set_board (w_board w) w')
  end.

Definition board_exec (f : board → board) : M world unit := modify (λ w, set_board (f (w_board w)) w).
Definition board_query {A} (f : board → A) : M world A := gets (λ w, f (w_board w)).

Definition upsert_row (m : TaskBoardMetadata) (b : board) : board :=
  mk_board (upsert metadata_key m (λ _, m) (taskboard_metadata b)) (taskboard_events b) (events_seq b).

Definition insert_event (ts_ actor event_type anima_name task_id : string) (payload : dict) (b : board) :
    board :=
  let id := S (events_seq b) in
  mk_board (taskboard_metadata b)
    (taskboard_events b ++ [mk_board_event id ts_ actor event_type anima_name task_id payload]) id.

Definition metadata_row (anima_name task_id : string) (b : board) : option TaskBoardMetadata :=
  select_key metadata_key (anima_name, task_id) (taskboard_metadata b).

(** [ORDER BY anima_name, task_id]. *)
Definition metadata_leb (a b : TaskBoardMetadata) : bool :=
  if bool_decide (md_anima_name a = md_anima_name b)
  then String.leb (md_task_id a) (md_task_id b)
  else String.leb (md_anima_name a) (md_anima_name b).
Definition metadata_le (a b : TaskBoardMetadata) : Prop := metadata_leb a b = true.
#[global] Instance metadata_le_dec a b : Decision (metadata_le a b).
Proof. unfold metadata_le. apply _. Defined.

Section operations.
Context `{Oracle}.

Definition append_event_row (event_type anima_name task_id actor : string) (payload : dict)
  (ts_ : option string) : M world nat :=
if negb (str_in event_type TASKBOARD_EVENT_TYPES)
then raise (ValueError ("unknown TaskBoard event type: " +:+ event_type))
else
  at_ ← (if str_truthy (default "" ts_) then mret (default "" ts_) else now_iso);
  _ ← board_exec (insert_event at_ actor event_type anima_name task_id payload);
  board_query events_seq.

Definition get_metadata (anima_name task_id : string) : M world (option TaskBoardMetadata) :=
connection (board_query (metadata_row anima_name task_id)).

Definition list_metadata (anima_name : option string) : M world (list TaskBoardMetadata) :=
connection (board_query (λ b,
  merge_sort metadata_le
    match anima_name with
    | None => taskboard_metadata b
    | Some a => filter (λ m, md_anima_name m = a) (taskboard_metadata b)
    end)).

(** The row an upsert starts from: the stored one, or a fresh one. *)
Definition base_row (existing : option TaskBoardMetadata) (anima_name task_id actor : string) :
  M world TaskBoardMetadata :=
match existing with
| Some e => mret e
| None => now ← now_iso; mret (fresh_metadata anima_name task_id now actor)
end.

Definition upsert_metadata (anima_name task_id actor : string) (event_type : option string)
  (us : list field_update) : M world TaskBoardMetadata :=
if any is_unknown us then raise (TypeError "unknown TaskBoard metadata fields")
else connection (
  existing ← board_query (metadata_row anima_name task_id);
  base ← base_row existing anima_name task_id actor;
  at_ ← (if updates_has "updated_at" us then mret (md_updated_at base) else now_iso);
  let by_ := if updates_has "updated_by" us then md_updated_by base else actor in
  match apply_updates (with_updated at_ by_ base) us with
  | None => raise (ValueError "TaskBoardMetadata")
  | Some m =>
      _ ← board_exec (upsert_row m);
      let resolved := if str_truthy (default "" event_type) then default "" event_type
                      else event_type_for_update existing m us in
      _ ← append_event_row resolved anima_name task_id actor
            [("metadata", JObj (metadata_json m)); ("updates", JObj (update_item <$> us))] None;
      mret m
  end).

Definition append_event (event_type anima_name task_id actor : string) (payload : dict)
  (ts_ : option string) : M world nat :=
connection (append_event_row event_type anima_name task_id actor payload ts_).

Definition record_surface (anima_name task_id actor : string) (notification_key : option string) :
  M world TaskBoardMetadata :=
connection (
  existing ← board_query (metadata_row anima_name task_id);
  base ← base_row existing anima_name task_id actor;
  notified ← now_iso;
  updated ← now_iso;
  let key := match notification_key with Some k => Some k | None => md_notification_key base end in
  let m := with_updated updated actor
             (with_surface key (S (md_surface_count base))
                (with_times (md_expires_at base) (md_snoozed_until base) (Some notified) base)) in
  _ ← board_exec (upsert_row m);
  let updates :=
    [("surface_count", JInt (Z.of_nat (md_surface_count m))); ("last_notified_at", jopt (md_last_notified_at m))]
    ++ match notification_key with Some k => [("notification_key", JStr k)] | None => [] end in
  _ ← append_event_row "surface_recorded" anima_name task_id actor
        [("metadata", JObj (metadata_json m)); ("updates", JObj updates)] None;
  mret m).

Definition delete_metadata (anima_name task_id : string) : M world bool :=
connection (
  found ← board_query (λ b, bool_decide (is_Some (metadata_row anima_name task_id b)));
  _ ← board_exec (λ b, mk_board (filter (λ m, metadata_key m ≠ (anima_name, task_id)) (taskboard_metadata b))
                         (taskboard_events b) (events_seq b));
  mret found).

(** Events in identifier order; the table is kept in insertion order. *)
Definition list_events (anima_name task_id : option string) : M world (list board_event) :=
connection (board_query (λ b,
  filter (λ e, from_option (λ a, bool_decide (be_anima_name e = a)) true anima_name
               && from_option (λ t, bool_decide (be_task_id e = t)) true task_id = true)
    (taskboard_events b))).
End operations.

(* ------------------------------------------------------------------ *)
(** ** The invariant of the board *)

(** The metadata row an event recorded for task [k]. *)
Definition recorded (k : string * string) (e : board_event) : option dict :=
  if bool_decide ((be_anima_name e, be_task_id e) = k)
  then match dget "metadata" (be_payload e) with Some (JObj d) => Some d | _ => None end
  else None.
(** Replaying the audit log: the last row recorded for [k]. *)
Definition last_recorded (k : string * string) (evs : list board_event) : option dict :=
  last (omap (recorded k) evs).

Record board_ok (b : board) : Prop := {
  bo_unique : unique metadata_key (taskboard_metadata b);
  bo_types : Forall (λ e, be_event_type e ∈ TASKBOARD_EVENT_TYPES) (taskboard_events b);
  bo_ids : be_id <$> taskboard_events b = seq 1 (events_seq b);
  bo_replay : ∀ m, m ∈ taskboard_metadata b →
    last_recorded (metadata_key m) (taskboard_events b) = Some (metadata_json m)
}.

Lemma empty_board_ok : board_ok empty_board.
Proof. split; simpl; [apply NoDup_nil_2|apply Forall_nil_2|done|by intros ? ?%not_elem_of_nil]. Qed.

Lemma last_recorded_snoc k evs e :
  last_recorded k (evs ++ [e]) =
    match recorded k e with Some d => Some d | None => last_recorded k evs end.
Proof.
  unfold last_recorded. rewrite omap_app. simpl. destruct (recorded k e); simpl.
  - by rewrite last_snoc.
  - by rewrite app_nil_r.
Qed.

(** A relation between the boards before and after. *)
Definition on_board (R : board → board → Prop) : world → world → Prop :=
  λ w w', R (w_board w) (w_board w').

(** Only a body that returns changes the board. *)
Lemma within_connection (R : board → board → Prop) `{!Reflexive R} {A} (body : M world A) :
  (∀ w a w', body w = (Ok a, w') → R (w_board w) (w_board w')) →
  within (on_board R) (connection body).
Proof.
  intros Hb w. unfold connection, on_board. destruct (body w) as [[a|e] w'] eqn:E; simpl; [eauto|].
  reflexivity.
Qed.

Lemma connection_err {A} (body : M world A) w e w' :
  connection body w = (Err e, w') → w_board w' = w_board w.
Proof. unfold connection. destruct (body w) as [[a|e0] w1]; [done|]. by intros [= _ <-]. Qed.

Lemma apply_update_key m u m' : apply_update m u = Some m' → metadata_key m' = metadata_key m.
Proof.
  destruct u as [v|[v|]| | | | | |v| | | | | |]; simpl; intros Hm; try (by simplify_eq).
  - by destruct (parse_visibility v); simplify_eq/=.
  - by destruct (parse_column v); simplify_eq/=.
  - by case_bool_decide; simplify_eq.
Qed.

Lemma apply_updates_key us m m' : apply_updates m us = Some m' → metadata_key m' = metadata_key m.
Proof.
  revert m. induction us as [|u us IH]; intros m; simpl; [by intros [= <-]|].
  destruct (apply_update m u) as [m1|] eqn:E; simpl; [|done].
  intros ->%IH. by eapply apply_update_key.
Qed.

(** The values pydantic accepts: enumeration strings and a counter from 0 up. *)
Definition update_valid (u : field_update) : bool :=
  match u with
  | UVisibility v => bool_decide (is_Some (parse_visibility v))
  | UColumn (Some v) => bool_decide (is_Some (parse_column v))
  | USurfaceCount z => bool_decide (0 ≤ z)%Z
  | UUnknown _ => false
  | _ => true
  end.

Lemma by_value_Some {A} (f : A → string) l s x : by_value f l s = Some x → f x = s.
Proof. induction l as [|y l IH]; simpl; [done|]. case_bool_decide; [by intros [= <-]|done]. Qed.

Lemma apply_update_total m u : update_valid u = true → is_Some (apply_update m u).
Proof.
  destruct u as [v|[v|]| | | | | |v| | | | | |]; simpl; intros Hv; breflect; eauto.
  - by apply fmap_is_Some.
  - by apply fmap_is_Some.
  - rewrite bool_decide_eq_true_2 by done. eauto.
Qed.

Lemma apply_updates_total us m : Forall (λ u, update_valid u = true) us → is_Some (apply_updates m us).
Proof.
  intros Hus. revert m. induction Hus as [|u us Hu _ IH]; intros m; simpl; [eauto|].
  destruct (apply_update_total m u Hu) as [m1 ->]. apply IH.
Qed.

Lemma visibility_json v x : parse_visibility v = Some x → visibility_value x = v.
Proof. apply by_value_Some. Qed.
Lemma column_json v x : parse_column v = Some x → column_value x = v.
Proof. apply by_value_Some. Qed.

(** Seen through the stored row, an update sets the field it names and no other. *)
Lemma apply_update_json m u m' f :
  apply_update m u = Some m' → update_valid u = true →
  dget f (metadata_json m') =
    if decide (f = update_name u) then Some (snd (update_item u)) else dget f (metadata_json m).
Proof.
  intros Hu Hv.
  assert (∃ k v, update_item u = (k, v) ∧ metadata_json m' = dset k v (metadata_json m)) as (k & v & Hkv & ->).
  { destruct u as [v|[v|]| | | | | |v| | | | | |]; simpl in *; simplify_eq; try (eexists _, _; by split).
    - destruct (parse_visibility v) as [x|] eqn:E; simplify_eq/=.
      eexists _, _; split; [done|]. rewrite <- (visibility_json _ _ E). done.
    - destruct (parse_column v) as [x|] eqn:E; simplify_eq/=.
      eexists _, _; split; [done|]. rewrite <- (column_json _ _ E). done.
    - case_bool_decide; simplify_eq. eexists _, _; split; [done|].
      unfold metadata_json. simpl. by rewrite Z2Nat.id. }
  unfold update_name. rewrite Hkv. cbn [fst snd]. apply dget_dset.
Qed.

Lemma apply_updates_json us m m' :
  Forall (λ u, update_valid u = true) us → NoDup (update_name <$> us) → apply_updates m us = Some m' →
  (∀ f, f ∉ update_name <$> us → dget f (metadata_json m') = dget f (metadata_json m)) ∧
  (∀ u, u ∈ us → dget (update_name u) (metadata_json m') = Some (snd (update_item u))).
Proof.
  intros Hv. revert m. induction Hv as [|u us Hu _ IH]; intros m Hnd; cbn [apply_updates mbind option_bind].
  { intros [= <-]. split; [done|by intros ? ?%not_elem_of_nil]. }
  rewrite fmap_cons in Hnd. apply NoDup_cons in Hnd as [Hnot Hnd].
  destruct (apply_update m u) as [m1|] eqn:E; [|done]. intros Hm.
  destruct (IH m1 Hnd Hm) as [IHout IHin]. split.
  - intros f [Hne Hf]%not_elem_of_cons. rewrite IHout by done.
    rewrite (apply_update_json _ _ _ _ E Hu). by rewrite decide_False.
  - intros u' [->|Hin]%elem_of_cons; [|by apply IHin].
    rewrite IHout by done. rewrite (apply_update_json _ _ _ _ E Hu). by rewrite decide_True.
Qed.

(** The event types the store chooses itself are always known ones. *)
Lemma event_type_known existing m us : event_type_for_update existing m us ∈ TASKBOARD_EVENT_TYPES.
Proof.
  unfold event_type_for_update. repeat case_match; try (by apply (bool_decide_unpack _); vm_compute).
  destruct (md_visibility m); [done|by apply (bool_decide_unpack _); vm_compute..].
Qed.

Lemma insert_event_ok ts_ actor et anima tid payload b :
  et ∈ TASKBOARD_EVENT_TYPES → board_ok b → dget "metadata" payload = None →
  board_ok (insert_event ts_ actor et anima tid payload b).
Proof.
  intros Het [] Hp. split; cbn [insert_event taskboard_metadata taskboard_events events_seq]; [done| | |].
  - apply Forall_app. by split; [|apply Forall_singleton].
  - rewrite fmap_app, bo_ids0, seq_S. done.
  - intros m Hm. rewrite last_recorded_snoc. unfold recorded. simpl. rewrite Hp.
    case_bool_decide; auto.
Qed.

Lemma record_row_ok ts_ actor et anima tid m extra b :
  et ∈ TASKBOARD_EVENT_TYPES → board_ok b → metadata_key m = (anima, tid) →
  board_ok (insert_event ts_ actor et anima tid (("metadata", JObj (metadata_json m)) :: extra)
              (upsert_row m b)).
Proof.
  intros Het [] Hk. split; cbn [insert_event upsert_row taskboard_metadata taskboard_events events_seq].
  - by apply upsert_unique.
  - apply Forall_app. by split; [|apply Forall_singleton].
  - rewrite fmap_app, bo_ids0, seq_S. done.
  - intros m' Hm'. rewrite last_recorded_snoc. unfold recorded. simpl.
    apply elem_of_upsert in Hm' as [[-> _]|(m0 & Hm0 & [[Hk0 ->]|[Hne ->]])].
    + by rewrite bool_decide_eq_true_2.
    + by rewrite bool_decide_eq_true_2.
    + rewrite bool_decide_eq_false_2 by congruence. auto.
Qed.

Lemma delete_row_ok k b :
  board_ok b →
  board_ok (mk_board (filter (λ m, metadata_key m ≠ k) (taskboard_metadata b))
              (taskboard_events b) (events_seq b)).
Proof.
  intros []. split; simpl; [|done..|].
  - unfold unique in *. clear -bo_unique0. induction (taskboard_metadata b) as [|m t IH]; [apply NoDup_nil_2|].
    rewrite fmap_cons in bo_unique0. apply NoDup_cons in bo_unique0 as [Hm Hu].
    rewrite filter_cons. case_decide; [|auto]. rewrite fmap_cons. apply NoDup_cons. split; [|auto].
    rewrite list_elem_of_fmap in *. intros (y & Hy & [_ ?]%list_elem_of_filter). apply Hm. eauto.
  - intros m [_ Hm]%list_elem_of_filter. auto.
Qed.

(* ------------------------------------------------------------------ *)
(** ** Steps and theorems *)

Inductive board_op :=
| BoUpsert (anima task_id actor : string) (event_type : option string) (us : list field_update)
| BoAppend (event_type anima task_id actor : string) (payload : dict) (ts_ : option string)
| BoSurface (anima task_id actor : string) (key : option string)
| BoDelete (anima task_id : string).

(** An event appended on its own carries no metadata row. *)
Definition board_op_ok (op : board_op) : Prop :=
  match op with BoAppend _ _ _ _ p _ => dget "metadata" p = None | _ => True end.

Lemma metadata_row_Some anima tid b m :
  metadata_row anima tid b = Some m → m ∈ taskboard_metadata b ∧ metadata_key m = (anima, tid).
Proof. apply select_key_Some. Qed.

(** Unfolds a run of a board program. *)
Ltac board_unfold := cbv beta delta [board_exec board_query now_iso] in *; run_unfold.

Section steps.
Context `{Oracle}.

Definition run_board_op (op : board_op) : M world unit :=
match op with
| BoUpsert a t ac et us => _ ← upsert_metadata a t ac et us; mret tt
| BoAppend et a t ac p ts_ => _ ← append_event et a t ac p ts_; mret tt
| BoSurface a t ac k => _ ← record_surface a t ac k; mret tt
| BoDelete a t => _ ← delete_metadata a t; mret tt
end.

Inductive board_step : board → board → Prop :=
| board_step_op op w : board_op_ok op → board_step (w_board w) (w_board (state_of (run_board_op op w))).

Definition board_reachable (b : board) : Prop := rtc board_step empty_board b.

(** What appending an event does to the board. *)
Lemma append_event_row_run et anima tid actor payload ts_ w n w' :
append_event_row et anima tid actor payload ts_ w = (Ok n, w') →
et ∈ TASKBOARD_EVENT_TYPES ∧
∃ at_, w_board w' = insert_event at_ actor et anima tid payload (w_board w).
Proof.
unfold append_event_row. destruct (str_in et _) eqn:Et; simpl; [|done].
apply bool_decide_eq_true in Et. board_unfold. destruct (str_truthy _); simpl; intros; simplify_eq/=; eauto.
Qed.

Lemma base_row_run existing anima tid actor w m w' :
base_row existing anima tid actor w = (Ok m, w') →
existing = metadata_row anima tid (w_board w) →
w_board w' = w_board w ∧ metadata_key m = (anima, tid).
Proof.
unfold base_row. intros Hr ->. destruct (metadata_row _ _ _) as [e|] eqn:E; board_unfold; simplify_eq/=.
- by apply metadata_row_Some in E as [_ ?].
- done.
Qed.

Lemma upsert_metadata_run anima tid actor et us w m w' :
upsert_metadata anima tid actor et us w = (Ok m, w') →
∃ base at_ by_ et' at',
  metadata_key base = (anima, tid) ∧
  (∀ e, metadata_row anima tid (w_board w) = Some e → base = e) ∧
  apply_updates (with_updated at_ by_ base) us = Some m ∧
  et' ∈ TASKBOARD_EVENT_TYPES ∧
  (et = None → et' = event_type_for_update (metadata_row anima tid (w_board w)) m us) ∧
  w_board w' = insert_event at' actor et' anima tid
    [("metadata", JObj (metadata_json m)); ("updates", JObj (update_item <$> us))]
    (upsert_row m (w_board w)).
Proof.
unfold upsert_metadata, connection. destruct (any is_unknown us); [done|]. board_unfold.
destruct (base_row _ _ _ _ w) as [[base|e] w1] eqn:Eb; [|done].
assert (∀ e, metadata_row anima tid (w_board w) = Some e → base = e) as Hex.
{ intros e He. unfold base_row in Eb. rewrite He in Eb. by injection Eb as -> _. }
apply base_row_run in Eb as [Hb1 Hk]; [|done].
destruct (updates_has "updated_at" us); simpl.
all: destruct (apply_updates _ us) as [m0|] eqn:Eu; [|done].
all: match goal with |- context [append_event_row ?a ?b ?c ?d ?e ?f ?g] =>
       destruct (append_event_row a b c d e f g) as [[n|e0] w2] eqn:Ea; [|done] end.
all: intros [= <- <-]; apply append_event_row_run in Ea as (Het & at' & Hb2).
all: eexists base, _, _, _, at'; split_and!; [done|done|exact Eu|exact Het|by intros ->|].
all: rewrite Hb2; simpl; by rewrite Hb1.
Qed.

Lemma record_surface_run anima tid actor key w m w' :
record_surface anima tid actor key w = (Ok m, w') →
∃ base at' extra,
  metadata_key m = (anima, tid) ∧ metadata_key base = (anima, tid) ∧
  (∀ e, metadata_row anima tid (w_board w) = Some e → base = e) ∧
  (metadata_row anima tid (w_board w) = None → md_surface_count base = O ∧ md_visibility base = ACTIVE) ∧
  md_surface_count m = S (md_surface_count base) ∧ md_visibility m = md_visibility base ∧
  md_column m = md_column base ∧ is_Some (md_last_notified_at m) ∧
  w_board w' = insert_event at' actor "surface_recorded" anima tid
    (("metadata", JObj (metadata_json m)) :: extra) (upsert_row m (w_board w)).
Proof.
unfold record_surface, connection. board_unfold.
destruct (base_row _ _ _ _ w) as [[base|e] w1] eqn:Eb; [|done].
assert ((∀ e, metadata_row anima tid (w_board w) = Some e → base = e) ∧
        (metadata_row anima tid (w_board w) = None →
           md_surface_count base = O ∧ md_visibility base = ACTIVE)) as [Hex Hnew].
{ unfold base_row in Eb. destruct (metadata_row _ _ _); board_unfold; simplify_eq/=; split; intros; by simplify_eq. }
apply base_row_run in Eb as [Hb1 Hk]; [|done].
match goal with |- context [append_event_row ?a ?b ?c ?d ?e ?f ?g] =>
  destruct (append_event_row a b c d e f g) as [[n|e0] w2] eqn:Ea; [|done] end.
intros [= <- <-]. apply append_event_row_run in Ea as (_ & at' & Hb2).
eexists base, at', _. split_and!; [done..|simpl; eauto|].
rewrite Hb2. simpl. by rewrite Hb1.
Qed.

Lemma run_board_op_ok op : board_op_ok op → within (on_board (keeps board_ok)) (run_board_op op).
Proof.
intros Hop. destruct op as [a t ac et us|et a t ac p ts_|a t ac k|a t]; simpl in *; apply within_ret_bind.
- intros w Hb. destruct (upsert_metadata a t ac et us w) as [[m|e] w'] eqn:E; simpl.
  + apply upsert_metadata_run in E as (base & ? & ? & et' & at' & Hk & _ & Hu & Het & _ & ->).
    apply record_row_ok; [exact Het|exact Hb|]. apply apply_updates_key in Hu as ->. exact Hk.
  + revert E. unfold upsert_metadata. destruct (any _ _); [by intros [= _ <-]|].
    by intros ->%connection_err.
- apply within_connection; [apply _|]. intros w n w' (Het & at' & ->)%append_event_row_run Hb.
  by apply insert_event_ok.
- intros w Hb. destruct (record_surface a t ac k w) as [[m|e] w'] eqn:E; simpl.
  + apply record_surface_run in E as (? & at' & ? & Hk & _ & _ & _ & _ & _ & _ & _ & ->).
    apply record_row_ok; [|done..]. by apply (bool_decide_unpack _); vm_compute.
  + by apply connection_err in E as ->.
- apply within_connection; [apply _|]. board_unfold. intros w n w' [= <- <-] Hb. simpl.
  by apply delete_row_ok.
Qed.

Lemma board_reachable_ok b : board_reachable b → board_ok b.
Proof.
unfold board_reachable. intros Hr. remember empty_board as b0 eqn:E.
assert (board_ok b0) as Hb0 by (subst; apply empty_board_ok). clear E.
induction Hr as [|b1 b2 b3 [op w Hop] _ IH]; [done|]. apply IH. by apply (run_board_op_ok op Hop w).
Qed.


(** No event type given, or a known one. *)
Definition known_type (et : option string) : Prop := ∀ e, et = Some e → e ∈ TASKBOARD_EVENT_TYPES.

Lemma upsert_metadata_succeeds anima tid actor et us w :
Forall (λ u, update_valid u = true) us → known_type et →
is_ok (val_of (upsert_metadata anima tid actor et us w)) = true.
Proof.
intros Hv Hk. unfold upsert_metadata.
assert (any is_unknown us = false) as ->.
{ apply any_false. intros u Hu. eapply Forall_forall in Hv; [|done]. by destruct u. }
unfold connection. board_unfold.
destruct (base_row _ _ _ _ w) as [[base|e] w1] eqn:Eb.
2: { unfold base_row in Eb. by destruct (metadata_row _ _ _). }
destruct (updates_has "updated_at" us); simpl.
all: match goal with |- context [apply_updates ?m ?l] =>
       destruct (apply_updates_total l m Hv) as [m' ->] end.
all: match goal with |- context [append_event_row ?e] => assert (e ∈ TASKBOARD_EVENT_TYPES) as Het end.
all: try (case_match; [destruct et; [by apply Hk|done]|apply event_type_known]).
all: unfold append_event_row, str_in; by rewrite bool_decide_eq_true_2.
Qed.

(** An upsert of valid field values succeeds, stores a row that has
  exactly those values, keeps every other field of an existing row but the
  update stamp, leaves the other tasks' rows alone, and appends exactly one
  audit event. *)
Theorem upsert_metadata_spec anima tid actor us w :
Forall (λ u, update_valid u = true) us → NoDup (update_name <$> us) →
∃ m w' e, upsert_metadata anima tid actor None us w = (Ok m, w') ∧
  metadata_row anima tid (w_board w') = Some m ∧
  (∀ u, u ∈ us → dget (update_name u) (metadata_json m) = Some (snd (update_item u))) ∧
  (∀ old f, metadata_row anima tid (w_board w) = Some old →
     f ∉ ["updated_at"; "updated_by"] ++ (update_name <$> us) →
     dget f (metadata_json m) = dget f (metadata_json old)) ∧
  (∀ a t, (a, t) ≠ (anima, tid) → metadata_row a t (w_board w') = metadata_row a t (w_board w)) ∧
  taskboard_events (w_board w') = taskboard_events (w_board w) ++ [e] ∧
  be_event_type e = event_type_for_update (metadata_row anima tid (w_board w)) m us ∧
  be_actor e = actor ∧ (be_anima_name e, be_task_id e) = (anima, tid).
Proof.
intros Hv Hnd. pose proof (upsert_metadata_succeeds anima tid actor None us w Hv) as Hok.
destruct (upsert_metadata anima tid actor None us w) as [[m|e] w'] eqn:E; [|by discriminate Hok].
destruct (upsert_metadata_run _ _ _ _ _ _ _ _ E) as (base & at_ & by_ & et' & at' & Hk & Hex & Hu & _ & Het & Hb).
pose proof (apply_updates_key _ _ _ Hu : metadata_key m = metadata_key base) as Hkm. rewrite Hk in Hkm.
destruct (apply_updates_json us _ m Hv Hnd Hu) as [Hout Hin].
assert (∀ a t, metadata_row a t (w_board w') =
  if decide ((a, t) = (anima, tid)) then Some m else metadata_row a t (w_board w)) as Hrows.
{ intros a t. rewrite Hb. unfold metadata_row. simpl. rewrite select_upsert, Hkm by done.
  case_decide; [|done]. by destruct (select_key _ _ _). }
eexists m, w', _. split_and!; [done| |exact Hin| | |by rewrite Hb|by apply Het|done..].
- rewrite Hrows. by rewrite decide_True.
- intros old f Hold [Hf1 Hf2]%not_elem_of_app. rewrite (Hout f Hf2), (Hex _ Hold).
  assert (f ≠ "updated_at" ∧ f ≠ "updated_by") as [] by set_solver.
  change (metadata_json (with_updated at_ by_ old)) with
    (dset "updated_at" (JStr at_) (dset "updated_by" (JStr by_) (metadata_json old))).
  by rewrite !dget_dset_ne.
- intros a t Hne. rewrite Hrows. by rewrite decide_False.
Qed.
End steps.
