(* ===== verification/TaskQueue.v ===== *)
(** * The task queue of an anima ([core/memory/task_queue.py])

    [TaskQueueManager] over the task store: building and adding entries,
    status and metadata updates, the listings, and the TaskBoard projections
    it registers to run after a commit — the implementation of the store's
    [PostCommit] interface.  A manager is given by the name of its anima.
    Storage errors and the proxy to the host process are not modelled; the
    store is taken as already imported. *)

From stdpp Require Import prelude strings list gmap sorting.
From Stdlib Require Import QArith.
From S2P Require Import Prelude PyValue Sql TaskModels TaskBoard TaskStore TaskStoreInv.

(* ------------------------------------------------------------------ *)
(** ** Statuses *)

Definition VALID_STATUSES : list string := ["pending"; "in_progress"; "delegated"; "done"; "cancelled"].
Definition RETIRED_STATUSES : list string := ["blocked"; "failed"].
Definition ARCHIVE_SYNC_STATUSES : list string := ["done"; "cancelled"].
Definition REACTIVATE_SYNC_STATUSES : list string := ["pending"; "in_progress"].
Definition ACTIVE_STATUSES : list string := ["pending"; "in_progress"; "delegated"].
Definition STALE_TASK_THRESHOLD_SEC : Q := 1800.

(* ------------------------------------------------------------------ *)
(** ** Time *)

(** A parsed timestamp: seconds, and whether it carries a UTC offset (then the
    seconds are absolute) or is a wall-clock reading. *)
Record datetime := mk_datetime { dt_aware : bool; dt_seconds : Q }.

(** [datetime.fromisoformat], [now_local()] and the application timezone. *)
Class Calendar := {
  fromisoformat : string → option datetime;
  instant_at : nat → Q;
  wall_to_instant : Q → Q
}.

Section calendar.
Context `{Calendar}.

(** [ensure_aware]. *)
Definition ensure_aware (d : datetime) : Q :=
if dt_aware d then dt_seconds d else wall_to_instant (dt_seconds d).

Definition now_local : M world Q := λ w,
(Ok (instant_at (w_clock w)),
 mk_world (w_db w) (w_board w) (w_conn w) (w_after w) (S (w_clock w)) (w_uuid w)
   (w_ctx_identity w) (w_env_identity w)).

Definition elapsed_seconds (updated : string) (now : Q) : option Q :=
(λ d, now - ensure_aware d)%Q <$> fromisoformat updated.

Definition metadata_expired (expires_at : option string) : M world bool :=
if negb (str_truthy (default "" expires_at)) then mret false
else now ← now_local;
     mret (from_option (λ d, Qle_bool (ensure_aware d) now) false
             (fromisoformat (default "" expires_at))).
End calendar.

(* ------------------------------------------------------------------ *)
(** ** The post-commit projections *)

Section hooks.
Context `{Oracle}.

Definition sync_taskboard_archived (anima tid : string) : M world unit :=
catch (
  metadata ← get_metadata anima tid;
  match metadata with
  | None => mret tt
  | Some m =>
      if bool_decide (md_visibility m ∈ [EXPIRED; ARCHIVED; TOMBSTONED]) then mret tt
      else _ ← upsert_metadata anima tid anima (Some "archived")
                 [UVisibility "archived"; UColumn (Some "done")];
           mret tt
  end) (λ _, mret tt).

Definition sync_taskboard_reactivated (anima tid : string) : M world unit :=
catch (
  metadata ← get_metadata anima tid;
  match metadata with
  | None => mret tt
  | Some m =>
      if negb (bool_decide (md_visibility m = ARCHIVED)) then mret tt
      else _ ← upsert_metadata anima tid anima (Some "visibility_changed")
                 [UVisibility "active"; UColumn (Some "todo")];
           mret tt
  end) (λ _, mret tt).

#[global] Instance taskboard_hooks : PostCommit := λ cb,
match cb with
| SyncArchived a t => sync_taskboard_archived a t
| SyncReactivated a t => sync_taskboard_reactivated a t
end.
End hooks.

(* ------------------------------------------------------------------ *)
(** ** The manager *)

(** [list(v or [])] as the entry model accepts it: a list of strings. *)
Definition relay_chain_of (v : json) : result (list string) :=
  if negb (truthy v) then Ok [] else
  match v with
  | JList l => match mapM str_of l with Some c => Ok c | None => Err (ValueError "relay_chain") end
  | JObj d => Ok (fst <$> d)
  | JStr s => Ok ((λ c, String c "") <$> String.list_ascii_of_string s)
  | _ => Err (TypeError "object is not iterable")
  end.

Section manager.
Context `{Oracle}.

Definition load_all (anima : string) (include_archived : bool) : M world (list (string * TaskEntry)) :=
read anima include_archived.

Definition get_task_by_id (anima tid : string) : M world (option TaskEntry) := get_task anima tid.

Definition locked_queue {A} (body : M world A) : M world A := transaction body.

Definition append_unlocked (anima : string) (ev : task_event) : M world unit := apply anima ev.

Definition append (anima : string) (ev : task_event) : M world unit :=
locked_queue (append_unlocked anima ev).

(** [task_id if task_id else uuid.uuid4().hex[:12]]. *)
Definition fresh_id (tid : option string) : M world string :=
if str_truthy (default "" tid) then mret (default "" tid)
else u ← uuid4; mret (String.substring 0 12 u).

Definition build_task_entry (src : task_source) (instruction assignee_ summary_ : string)
  (chain : list string) (tid : option string) (m : dict) (st : string) : M world TaskEntry :=
if negb (str_in st ["pending"; "in_progress"])
then raise (ValueError "Invalid status")
else
  now ← now_iso;
  id ← fresh_id tid;
  mret (mk_entry id now src instruction assignee_ st summary_ chain now m).

(** [payload["task_id"]]. *)
Definition item (k : string) (d : dict) : result json :=
match dget k d with Some v => Ok v | None => Err (KeyError k) end.

Definition submit_payload (anima : string) (payload : dict) (src : task_source) (m : dict)
  (resume_ : bool) : M world TaskEntry :=
idv ← lift (item "task_id" payload);
let tid := str_json idv in
chain ← lift (relay_chain_of (dget_none "relay_chain" payload));
entry ← build_task_entry src (str_json (dget_default "description" (JStr "") payload)) anima
          (str_json (dget_default "title" (JStr tid) payload)) chain (Some tid)
          (dmerge [("executor", JStr "taskexec")] m) "pending";
_ ← submit anima entry payload resume_;
view ← read anima true;
lift (match dget tid view with Some e => Ok e | None => Err (KeyError tid) end).

Definition add_task (anima : string) (src : task_source) (instruction assignee_ summary_ : string)
  (chain : list string) (tid : option string) (m : dict) (st : string) : M world TaskEntry :=
entry ← build_task_entry src instruction assignee_ summary_ chain tid m st;
_ ← append anima (EvEntry entry);
mret entry.

Definition is_active (e : TaskEntry) : bool := str_in (status e) ACTIVE_STATUSES.

Definition add_task_if_absent (anima : string) (predicate : TaskEntry → bool) (src : task_source)
  (instruction assignee_ summary_ : string) (chain : list string) (tid : option string)
  (m : dict) (st : string) : M world (option TaskEntry) :=
locked_queue (
  tasks_ ← load_all anima false;
  if any (λ kv, is_active (snd kv) && predicate (snd kv)) tasks_ then mret None
  else
    entry ← build_task_entry src instruction assignee_ summary_ chain tid m st;
    _ ← append_unlocked anima (EvEntry entry);
    mret (Some entry)).

Definition add_delegated_task (anima : string) (instruction assignee_ summary_ : string)
  (chain : list string) (m : dict) (tid : option string) : M world TaskEntry :=
now ← now_iso;
id ← fresh_id tid;
let entry := mk_entry id now SrcAnima instruction assignee_ "delegated" summary_ chain now m in
_ ← append anima (EvEntry entry);
mret entry.

Definition update_status (anima tid st : string) (summary_ : option string) :
  M world (option TaskEntry) :=
if str_in st RETIRED_STATUSES
then raise (ValueError "Status was retired: use 'cancelled' and message the requester with the reason.")
else if negb (str_in st VALID_STATUSES) then mret None else
tasks_ ← load_all anima false;
match dget tid tasks_ with
| None => mret None
| Some task =>
    if bool_decide (status task = "cancelled") && negb (str_in st ["cancelled"; "pending"])
    then mret None
    else
      now ← now_iso;
      _ ← append anima (EvUpdate tid (Some st) summary_ (Some now) None);
      after ← get_task_by_id anima tid;
      match after with
      | None => mret None
      | Some t =>
          if negb (bool_decide (status t = st)) then mret None
          else
            _ ← (if str_in st ARCHIVE_SYNC_STATUSES then after_commit (SyncArchived anima tid)
                 else if str_in st REACTIVATE_SYNC_STATUSES
                 then after_commit (SyncReactivated anima tid)
                 else mret tt);
            mret (Some t)
      end
end.

Definition update_meta (anima tid : string) (meta_patch : dict) (summary_ : option string) :
  M world (option TaskEntry) :=
tasks_ ← load_all anima false;
match dget tid tasks_ with
| None => mret None
| Some _ =>
    now ← now_iso;
    _ ← append anima (EvUpdate tid None summary_ (Some now) (Some meta_patch));
    get_task_by_id anima tid
end.

(** *** Listings *)

Definition load_active_tasks (anima : string) : M world (list (string * TaskEntry)) :=
tasks_ ← load_all anima false; mret (filter (λ kv, is_active (snd kv) = true) tasks_).

Definition with_status (sts : list string) (l : list (string * TaskEntry)) : list TaskEntry :=
filter (λ e, status e ∈ sts) (snd <$> l).

Definition get_pending (anima : string) : M world (list TaskEntry) :=
tasks_ ← load_all anima false; mret (with_status ["pending"; "in_progress"] tasks_).
Definition get_human_tasks (anima : string) : M world (list TaskEntry) :=
l ← get_pending anima; mret (filter (λ e, source e = SrcHuman) l).
Definition get_all_active (anima : string) : M world (list TaskEntry) :=
tasks_ ← load_all anima false; mret (with_status ["pending"; "in_progress"] tasks_).
Definition list_tasks (anima : string) (st : option string) : M world (list TaskEntry) :=
tasks_ ← load_all anima false;
mret (if str_truthy (default "" st) then with_status [default "" st] tasks_
      else with_status ACTIVE_STATUSES tasks_).
Definition get_delegated_tasks (anima : string) : M world (list TaskEntry) :=
tasks_ ← load_all anima false; mret (with_status ["delegated"] tasks_).

Definition search_archive (target child_id : string) : M world (option string) :=
e ← get_task_by_id target child_id;
mret match e with
     | Some e => if terminal (status e) then Some (status e) else None
     | None => None
     end.

Definition compact_queue (anima : string) : M world nat := compact anima.

Definition descriptor_ids (anima : string) : M world (gset string) := executable_ids anima.

Definition descriptor_exists (anima tid : string) : M world bool :=
ids ← descriptor_ids anima; mret (bool_decide (tid ∈ ids)).

Definition NOT_EXECUTABLE_NOTE : string :=
"This is a backlog task without execution input. Submit it once when ready to execute.".

Definition mark_item (ids : gset string) (it : dict) : dict :=
match dget_none "status" it with
| JStr st =>
    if negb (str_in st ["pending"; "in_progress"]) then it
    else if match dget_default "task_id" (JStr "") it with
            | JStr tid => bool_decide (tid ∈ ids)
            | _ => false
            end
         then dset "executable" (JBool true) it
         else dset "executable_note" (JStr NOT_EXECUTABLE_NOTE) (dset "executable" (JBool false) it)
| _ => it
end.
Definition mark_executability (items : list dict) (anima : string) : M world (list dict) :=
ids ← descriptor_ids anima; mret (mark_item ids <$> items).

(** *** Goals *)

Context `{Calendar}.

Definition get_stale_tasks (anima : string) : M world (list TaskEntry) :=
now ← now_local;
l ← get_pending anima;
mret (filter (λ e, from_option (λ s, Qle_bool STALE_TASK_THRESHOLD_SEC s) false
                     (elapsed_seconds (updated_at e) now) = true) l).

Definition goal_task_suppressed_by_taskboard (anima tid : string) : M world bool :=
catch (
  metadata ← get_metadata anima tid;
  match metadata with
  | None => mret false
  | Some m =>
      expired ← metadata_expired (md_expires_at m);
      if expired : bool then mret true
      else mret (bool_decide (md_visibility m ∈ [ARCHIVED; TOMBSTONED; EXPIRED]))
  end) (λ _, mret false).

Definition goal_linked (goal_id : string) (e : TaskEntry) : bool :=
py_eq (dget_none "goal_id" (meta e)) (JStr goal_id).

Fixpoint first_goal_task (anima goal_id : string) (l : list (string * TaskEntry)) :
  M world (option TaskEntry) :=
match l with
| [] => mret None
| (_, e) :: rest =>
    if negb (goal_linked goal_id e) then first_goal_task anima goal_id rest else
    suppressed ← goal_task_suppressed_by_taskboard anima (task_id e);
    if suppressed : bool then first_goal_task anima goal_id rest else mret (Some e)
end.

Definition get_active_goal_task (anima goal_id : string) : M world (option TaskEntry) :=
if negb (str_truthy goal_id) then mret None
else l ← load_active_tasks anima; first_goal_task anima goal_id l.

(** [sorted(..., key=updated_at, reverse=True)]. *)
Definition newer (a b : TaskEntry) : Prop := String.leb (updated_at b) (updated_at a) = true.
#[global] Instance newer_dec : ∀ a b, Decision (newer a b).
Proof. intros a b. unfold newer. apply _. Defined.

Definition list_goal_tasks (anima goal_id : string) : M world (list TaskEntry) :=
if negb (str_truthy goal_id) then mret []
else l ← load_all anima false;
     mret (merge_sort newer (filter (λ e, goal_linked goal_id e = true) (snd <$> l))).
End manager.
