(* ===== verification/TaskQueueProps.v ===== *)
(** * What the task queue guarantees

    Reading: the listing of an anima and the lookup of one task agree.
    Writing: the effect of a status update on the canonical record and on the
    TaskBoard row, and the uniqueness [add_task_if_absent] promises.  The
    TaskBoard projections are shown to keep to the board, which discharges
    the store's [PostCommitFrame] interface. *)

From stdpp Require Import prelude strings list gmap.
From S2P Require Import Prelude PyValue Sql TaskModels TaskStore TaskStoreInv TaskBoard TaskQueue.

(* ------------------------------------------------------------------ *)
(** ** The projections keep to the board *)

Definition off_board (w : world) : db * option conn_mode * list callback :=
  (w_db w, w_conn w, w_after w).

Section frame.
Context `{Oracle}.

Lemma connection_frame {A} (body : M world A) :
within (fixes off_board) body → within (fixes off_board) (connection body).
Proof.
intros Hb w. specialize (Hb w). unfold connection. by destruct (body w) as [[a|e] w'].
Qed.
Lemma board_exec_frame f : within (fixes off_board) (board_exec f).
Proof. by intros w. Qed.
Lemma board_query_frame {A} (f : board → A) : within (fixes off_board) (board_query f).
Proof. by intros w. Qed.
Lemma now_frame : within (fixes off_board) now_iso.
Proof. by intros w. Qed.

Lemma append_event_row_frame et a t ac p ts_ :
within (fixes off_board) (append_event_row et a t ac p ts_).
Proof.
unfold append_event_row. case_match; [apply within_raise|]. apply within_bind.
- case_match; [apply within_ret|apply now_frame].
- intros. apply within_bind; [apply board_exec_frame|]. intros. apply board_query_frame.
Qed.

Lemma upsert_metadata_frame a t ac et us : within (fixes off_board) (upsert_metadata a t ac et us).
Proof.
unfold upsert_metadata. case_match; [apply within_raise|]. apply connection_frame.
apply within_bind; [apply board_query_frame|intros ex].
apply within_bind; [unfold base_row; case_match; [apply within_ret|]|intros base].
{ apply within_bind; [apply now_frame|intros; apply within_ret]. }
apply within_bind; [case_match; [apply within_ret|apply now_frame]|intros at_].
case_match; [|apply within_raise]. apply within_bind; [apply board_exec_frame|intros _].
apply within_bind; [apply append_event_row_frame|intros _; apply within_ret].
Qed.

Lemma get_metadata_frame a t : within (fixes off_board) (get_metadata a t).
Proof. apply connection_frame, board_query_frame. Qed.

#[global] Instance taskboard_hooks_frame : PostCommitFrame.
Proof.
intros [a t|a t]; apply within_catch; try (intros; apply within_ret).
all: apply within_bind; [apply get_metadata_frame|intros [m|]; [|apply within_ret]].
all: case_match; [apply within_ret|].
all: apply within_bind; [apply upsert_metadata_frame|intros; apply within_ret].
Qed.
End frame.

(* ------------------------------------------------------------------ *)
(** ** Reading *)

(** Looking up in a dictionary built by successive assignments. *)
Lemma dget_foldl_dset {A V} (f : A → string) (h : A → option V) k (l : list A) m0 :
  NoDup (f <$> l) →
  dget k (foldl (λ m a, match h a with Some v => dset (f a) v m | None => m end) m0 l) =
    match select_key f k l with
    | Some a => match h a with Some v => Some v | None => dget k m0 end
    | None => dget k m0
    end.
Proof.
  revert m0. induction l as [|a l IH]; intros m0; simpl; [done|].
  rewrite NoDup_cons. intros [Ha Hl]. rewrite IH by done. clear IH.
  destruct (select_key f k l) as [b|] eqn:Eb.
  - apply select_key_Some in Eb as [Hb <-]. rewrite bool_decide_eq_false_2.
    2: { intros Heq. apply Ha. rewrite Heq. by apply list_elem_of_fmap_2. }
    destruct (h b); [done|]. destruct (h a); [|done]. rewrite dget_dset_ne; [done|].
    intros Heq. apply Ha. rewrite <- Heq. by apply list_elem_of_fmap_2.
  - case_bool_decide; [subst|].
    + destruct (h a); [apply dget_dset_eq|done].
    + destruct (h a); [by apply dget_dset_ne|done].
Qed.

(** Selecting by a second key among the rows a filter keeps. *)
Lemma select_filter {R K1 K2} `{!EqDecision K1, !EqDecision K2} (key1 : R → K1) (key2 : R → K2)
    (P : R → Prop) `{!∀ r, Decision (P r)} k1 k2 (t : list R) :
  (∀ r, r ∈ t → P r → key1 r = k1 ↔ key2 r = k2) → unique key2 t →
  select_key key1 k1 (filter P t) =
    match select_key key2 k2 t with
    | Some r => if decide (P r) then Some r else None
    | None => None
    end.
Proof.
  intros Hk Hu. induction t as [|r t IH]; [done|]. unfold unique in Hu. rewrite fmap_cons in Hu.
  apply NoDup_cons in Hu as [Hr Hu].
  assert (select_key key1 k1 (filter P t) =
    match select_key key2 k2 t with
    | Some r => if decide (P r) then Some r else None | None => None end) as IH'.
  { apply IH; [intros; apply Hk; [by right|done]|done]. }
  rewrite filter_cons. simpl. destruct (decide (key2 r = k2)) as [Hk2|Hk2].
  - rewrite (bool_decide_eq_true_2 _ Hk2). destruct (decide (P r)) as [HP|HP]; simpl.
    + rewrite bool_decide_eq_true_2; [done|]. apply Hk; [left|done|done].
    + rewrite IH'. assert (select_key key2 k2 t = None) as ->; [|done].
      apply select_key_None. by rewrite <- Hk2.
  - rewrite (bool_decide_eq_false_2 _ Hk2). destruct (decide (P r)) as [HP|HP]; simpl; [|done].
    rewrite bool_decide_eq_false_2; [done|]. intros ?%Hk; [done|left|done].
Qed.

Definition own_view (anima tid : string) (archived : bool) (d : db) : option TaskEntry :=
  match select_key task_key (anima, tid) (tasks d) with
  | Some r => if row_visible archived r then Some (row_entry r) else None
  | None => None
  end.
Definition alias_view (archived : bool) (d : db) (a : alias_row) : option TaskEntry :=
  match select_key task_key (al_anima a, al_task_id a) (tasks d) with
  | Some t =>
      if row_visible archived t
      then Some (delegated_view (al_anima a) (al_task_id a) (al_alias a) (row_entry t)) else None
  | None => None
  end.

(** The listing at one identifier: a tracked task shadows an own one. *)
Lemma read_view_lookup anima tid archived d :
  inv d →
  dget tid (read_view anima archived d) =
    match select_key alias_key (anima, tid) (task_aliases d) with
    | Some a => match alias_view archived d a with Some e => Some e | None => own_view anima tid archived d end
    | None => own_view anima tid archived d
    end.
Proof.
  intros Hd. unfold read_view.
  set (own := filter _ (tasks d)). set (als := filter _ (task_aliases d)).
  assert (dget tid (foldl (λ m r, dset (task_id (row_entry r)) (row_entry r) m) [] own) =
          own_view anima tid archived d) as Hown.
  { rewrite (dget_foldl_dset (λ r, task_id (row_entry r)) (λ r, Some (row_entry r)) tid own []).
    - unfold own, own_view.
      rewrite (select_filter (λ r, task_id (row_entry r)) task_key _ tid (anima, tid)); [| |apply Hd].
      + destruct (select_key task_key (anima, tid) (tasks d)) as [r|] eqn:E; [|done].
        apply select_key_Some in E as [_ Hk]. unfold task_key in Hk. simplify_eq/=.
        destruct (row_visible archived r) eqn:Ev; case_decide as Hc; try done; [by destruct Hc|].
        by destruct Hc as [_ ?].
      + intros r Hr [Ha _]. pose proof (ok_id _ (inv_row _ _ Hd Hr)) as Hid. unfold task_key. simpl.
        split; [intros <-; by rewrite Hid, Ha|by intros [= _ <-]].
    - eapply NoDup_filter_key; [|apply Hd]. intros r r' Hr Hr' [Ha _] [Ha' _] Hid.
      pose proof (ok_id _ (inv_row _ _ Hd Hr)). pose proof (ok_id _ (inv_row _ _ Hd Hr')).
      unfold task_key. congruence. }
  assert (∀ m, foldl (λ m a, match select_key task_key (al_anima a, al_task_id a) (tasks d) with
      | Some t => if row_visible archived t
          then dset (al_alias a) (delegated_view (al_anima a) (al_task_id a) (al_alias a) (row_entry t)) m
          else m
      | None => m end) m als =
    foldl (λ m a, match alias_view archived d a with Some v => dset (al_alias a) v m | None => m end) m als) as ->.
  { clear Hown. induction als as [|a als IH]; intros m; simpl; [done|]. rewrite IH. f_equal. unfold alias_view.
    destruct (select_key _ _ _) as [t|]; [|done]. by destruct (row_visible archived t). }
  rewrite dget_foldl_dset.
  2: { eapply (NoDup_filter_key al_alias alias_key); [|apply Hd]. unfold alias_key. congruence. }
  unfold als. rewrite (select_filter al_alias alias_key _ tid (anima, tid)); [| |apply Hd].
  - destruct (select_key alias_key (anima, tid) (task_aliases d)) as [a|] eqn:E; [|done].
    apply select_key_Some in E as [_ Hk]. unfold alias_key in Hk. simplify_eq/=.
    rewrite decide_True by done. by rewrite Hown.
  - intros a _ Hv. unfold alias_key. rewrite Hv. naive_solver.
Qed.

(** Entries of the listing carry the identifier they are listed under. *)
Lemma read_view_id anima tid archived d e :
  inv d → dget tid (read_view anima archived d) = Some e → task_id e = tid.
Proof.
  intros Hd. rewrite read_view_lookup by done.
  assert (∀ e, own_view anima tid archived d = Some e → task_id e = tid) as Hown.
  { intros e0. unfold own_view. destruct (select_key _ _ _) as [r|] eqn:E; [|done].
    case_match; [|done]. intros [= <-]. apply select_key_Some in E as [Hr [= _ <-]].
    apply (ok_id _ (inv_row _ _ Hd Hr)). }
  destruct (select_key alias_key _ _) as [a|] eqn:Ea; [|apply Hown].
  destruct (alias_view archived d a) as [e0|] eqn:Ev; [|apply Hown].
  intros [= <-]. unfold alias_view in Ev. repeat case_match; simplify_eq.
  apply select_key_Some in Ea as [_ [= _ <-]]. unfold delegated_view. by case_match.
Qed.

(** The listing is a dictionary. *)
Lemma read_view_wf anima archived d : dict_wf (read_view anima archived d).
Proof.
  unfold read_view. set (own := filter _ (tasks d)). set (als := filter _ (task_aliases d)).
  assert (∀ m, dict_wf m → dict_wf (foldl (λ m r, dset (task_id (row_entry r)) (row_entry r) m) m own)) as Hown.
  { induction own as [|r own IH]; intros m Hm; [done|]. apply IH. by apply dset_wf. }
  assert (dict_wf (foldl (λ m r, dset (task_id (row_entry r)) (row_entry r) m) [] own)) as Hbase.
  { apply Hown. constructor. }
  revert Hbase. generalize (foldl (λ m r, dset (task_id (row_entry r)) (row_entry r) m) [] own).
  induction als as [|a als IH]; intros m Hm; [done|]. simpl. apply IH. repeat case_match; auto.
Qed.

Lemma read_view_ids anima archived d :
  inv d → task_id <$> (snd <$> read_view anima archived d) = fst <$> read_view anima archived d.
Proof.
  intros Hd. rewrite <- list_fmap_compose. apply list_fmap_ext. intros i [k e] Hi.
  apply (read_view_id anima k archived d e Hd), dget_wf; [apply read_view_wf|].
  by eapply list_elem_of_lookup_2.
Qed.

(** What an alias of [anima] under [tid] must be for its row to be shown: it
    tracks an existing task of another anima. *)
Definition alias_proper (anima tid : string) (d : db) : Prop :=
  ∀ a, select_key alias_key (anima, tid) (task_aliases d) = Some a →
       al_anima a ≠ anima ∧ is_Some (select_key task_key (al_anima a, al_task_id a) (tasks d)).

Lemma get_view_alias anima tid d a :
  select_key alias_key (anima, tid) (task_aliases d) = Some a → al_anima a ≠ anima →
  get_view anima tid d = alias_view true d a.
Proof.
  intros Ha Hne. unfold get_view, resolve, alias_view. rewrite Ha.
  destruct (select_key task_key _ _); [|done].
  rewrite bool_decide_eq_false_2 by done. unfold row_visible. simpl.
  by apply select_key_Some in Ha as [_ [= _ ->]].
Qed.

Lemma get_view_own anima tid d r :
  select_key alias_key (anima, tid) (task_aliases d) = None →
  select_key task_key (anima, tid) (tasks d) = Some r → get_view anima tid d = Some (row_entry r).
Proof.
  intros Ha Hr. unfold get_view, resolve. rewrite Ha, Hr, Hr. by rewrite bool_decide_eq_true_2.
Qed.

Section reading.
Context `{Oracle}.

(** The reader's runs. *)
Lemma reader_query {A} (f : db → A) w : val_of (reader (query f) w) = Ok (f (w_db w)).
Proof. unfold reader. by destruct (w_conn w). Qed.
Lemma reader_query_db {A} (f : db → A) w : w_db (state_of (reader (query f) w)) = w_db w.
Proof. unfold reader. by destruct (w_conn w). Qed.

(** The listing and the lookup agree: a task that [read] (archived rows
  included) lists for an anima under some identifier — its own or one it
  tracks for another anima — is what [get] returns for that identifier,
  with the same status, metadata and delegation view. *)
Theorem read_get_agree anima tid e w :
inv (w_db w) → alias_proper anima tid (w_db w) →
(∃ view, val_of (read anima true w) = Ok view ∧ dget tid view = Some e) →
val_of (get_task anima tid w) = Ok (Some e).
Proof.
intros Hd Hal (view & Hv & He). unfold read in Hv. rewrite reader_query in Hv. simplify_eq.
unfold get_task. rewrite reader_query. f_equal. rewrite read_view_lookup in He by done.
destruct (select_key alias_key _ _) as [a|] eqn:Ea.
- destruct (Hal a Ea) as [Hne [r Hr]]. rewrite (get_view_alias _ _ _ _ Ea Hne).
  unfold alias_view in *. by rewrite Hr in *.
- unfold own_view in He. destruct (select_key task_key _ _) as [r|] eqn:Er; simplify_eq/=.
  by apply get_view_own.
Qed.
End reading.

(* ------------------------------------------------------------------ *)
(** ** The board after a status change *)

(** What a status change promises of the task's card, when it has one: a
    finished task's card is closed, a re-opened task's card is not archived. *)
Definition card_synced (anima tid st : string) (b : board) : Prop :=
  ∀ m, metadata_row anima tid b = Some m →
    (st ∈ ARCHIVE_SYNC_STATUSES → md_visibility m ∈ [EXPIRED; ARCHIVED; TOMBSTONED]) ∧
    (st ∈ REACTIVATE_SYNC_STATUSES → md_visibility m ≠ ARCHIVED).

Section sync.
Context `{Oracle}.

(** A forced visibility change through [upsert_metadata]. *)
Lemma upsert_visibility anima tid actor et v x c y w :
parse_visibility v = Some x → parse_column c = Some y → et ∈ TASKBOARD_EVENT_TYPES →
∃ m, metadata_row anima tid
       (w_board (state_of (upsert_metadata anima tid actor (Some et) [UVisibility v; UColumn (Some c)] w)))
     = Some m ∧ md_visibility m = x.
Proof.
intros Hv Hc Het.
assert (is_ok (val_of (upsert_metadata anima tid actor (Some et) [UVisibility v; UColumn (Some c)] w)) = true)
  as Hok.
{ apply upsert_metadata_succeeds; [|by intros e [= <-]]. repeat constructor; simpl.
  all: apply bool_decide_eq_true_2; eauto. }
destruct (upsert_metadata anima tid actor _ _ w) as [[m|e] w'] eqn:E; [|by discriminate Hok].
apply upsert_metadata_run in E as (base & at_ & by_ & et' & at' & Hk & _ & Hu & _ & _ & Hb).
pose proof (apply_updates_key _ _ _ Hu : metadata_key m = metadata_key base) as Hkm.
exists m. cbn [snd]. rewrite Hb. unfold metadata_row. simpl. split.
- rewrite select_upsert by done. rewrite Hkm, Hk, decide_True by done. by destruct (select_key _ _ _).
- simpl in Hu. rewrite Hv in Hu. simpl in Hu. rewrite Hc in Hu. by injection Hu as <-.
Qed.

Lemma sync_archived_run anima tid st w :
st ∈ ARCHIVE_SYNC_STATUSES →
card_synced anima tid st (w_board (state_of (sync_taskboard_archived anima tid w))).
Proof.
intros Hst m. assert (st ∉ REACTIVATE_SYNC_STATUSES) by set_solver.
enough (metadata_row anima tid (w_board (state_of (sync_taskboard_archived anima tid w))) = Some m →
  md_visibility m ∈ [EXPIRED; ARCHIVED; TOMBSTONED]) by (intros; split; [auto|done]).
unfold sync_taskboard_archived, get_metadata, connection. board_unfold.
destruct (metadata_row anima tid (w_board w)) as [m0|] eqn:E; simpl; [|congruence].
case_bool_decide; simpl; [congruence|].
destruct (upsert_visibility anima tid anima "archived" "archived" ARCHIVED "done" DONE w) as (m1 & Hm1 & Hv);
  [done|done|set_solver|].
destruct (upsert_metadata _ _ _ _ _ w) as [[] w1]; simpl in *; rewrite Hm1; intros [= <-]; rewrite Hv; set_solver.
Qed.

Lemma sync_reactivated_run anima tid st w :
st ∈ REACTIVATE_SYNC_STATUSES →
card_synced anima tid st (w_board (state_of (sync_taskboard_reactivated anima tid w))).
Proof.
intros Hst m. assert (st ∉ ARCHIVE_SYNC_STATUSES) by set_solver.
enough (metadata_row anima tid (w_board (state_of (sync_taskboard_reactivated anima tid w))) = Some m →
  md_visibility m ≠ ARCHIVED) by (intros; split; [done|auto]).
unfold sync_taskboard_reactivated, get_metadata, connection. board_unfold.
destruct (metadata_row anima tid (w_board w)) as [m0|] eqn:E; simpl; [|congruence].
case_bool_decide; simpl; [|congruence].
destruct (upsert_visibility anima tid anima "visibility_changed" "active" ACTIVE "todo" TODO w) as (m1 & Hm1 & Hv);
  [done|done|set_solver|].
destruct (upsert_metadata _ _ _ _ _ w) as [[] w1]; simpl in *; rewrite Hm1; intros [= <-]; by rewrite Hv.
Qed.
End sync.

(* ------------------------------------------------------------------ *)
(** ** Status updates *)

(** What an accepted update of the task with row [r0] writes into a row. *)
Definition write_update (st sm up : option string) (mp : option dict) (r0 r : task_row) : task_row :=
  set_row_ready (if terminal (default (status (row_entry r0)) st) then false else row_ready r)
    (set_row_archived false (set_row_entry (merge_update st sm up mp (row_entry r0)) r)).

(** The updates a cancelled task refuses. *)
Definition refuses (r : task_row) (st : string) : bool :=
  bool_decide (status (row_entry r) = "cancelled") &&
  (negb (str_in st ["cancelled"; "pending"]) ||
   (bool_decide (st = "pending") && bool_decide (is_Some (row_current r)))).

(** [anima]'s own task [tid], not shadowed by an alias. *)
Definition owns (anima tid : string) (r : task_row) (d : db) : Prop :=
  select_key alias_key (anima, tid) (task_aliases d) = None ∧
  select_key task_key (anima, tid) (tasks d) = Some r.

Lemma merge_status st sm up mp e : status (merge_update (Some st) sm up mp e) = st.
Proof. by destruct sm, up, mp. Qed.

Lemma catch_total {S} (m : M S unit) s : val_of (catch m (λ _, mret tt) s) = Ok tt.
Proof. unfold catch. by destruct (m s) as [[[]|] ?]. Qed.

Section updates.
Context `{Oracle}.

(** A write transaction of its own whose body registers no callback. *)
Lemma quiet_transaction {A} (body : M world A) w a w1 :
w_conn w = None → body (begin_write w) = (Ok a, w1) → w_after w1 = [] →
transaction body w = (Ok a, set_after [] (set_conn None w1)).
Proof. intros Hc Hb Ha. unfold transaction, begin_write in *. by rewrite Hc, Hb, Ha. Qed.

(** An update reaches the row its identifier resolves to. *)
Lemma apply_update_resolved anima tid k st sm up mp w r :
w_conn w = Some ReadWrite → identity_result w = Ok None → resolve (w_db w) anima tid = k →
select_key task_key k (tasks (w_db w)) = Some r →
refuses r (default (status (row_entry r)) st) = false →
apply anima (EvUpdate tid st sm up mp) w =
  (Ok tt, set_db (set_tasks (update_key task_key k (write_update st sm up mp r) (tasks (w_db w)))
                    (w_db w)) w).
Proof.
intros Hc Hi Hres Hr Href. unfold apply, transaction. rewrite Hc. body_unfold. simpl.
rewrite Hres. destruct k as [owner rid]. rewrite Hr, Hi. simpl. unfold refuses in Href. simpl.
destruct (bool_decide (status (row_entry r) = "cancelled")); simpl in *; [|done].
apply orb_false_iff in Href as [Hn Hp]. by rewrite Hp, Hn.
Qed.

(** [_append] of an update, inside or outside a transaction. *)
Lemma append_update_resolved anima tid k st sm up mp w r :
w_conn w ≠ Some ReadOnly → (w_conn w = None → w_after w = []) →
identity_result w = Ok None → resolve (w_db w) anima tid = k →
select_key task_key k (tasks (w_db w)) = Some r →
refuses r (default (status (row_entry r)) st) = false →
append anima (EvUpdate tid st sm up mp) w =
  (Ok tt, set_db (set_tasks (update_key task_key k (write_update st sm up mp r) (tasks (w_db w)))
                    (w_db w)) w).
Proof.
intros Hc Hq Hi Hres Hr Href. unfold append, locked_queue, append_unlocked.
destruct (w_conn w) as [[]|] eqn:Ec; [done| |].
- unfold transaction. rewrite Ec. by apply apply_update_resolved.
- erewrite quiet_transaction; [|done|by apply apply_update_resolved|done].
  destruct w. simpl in *. subst. by rewrite Hq.
Qed.

Lemma owns_resolves anima tid r d : owns anima tid r d → resolve d anima tid = (anima, tid).
Proof. intros [Ha Hr]. unfold resolve. by rewrite Ha, Hr. Qed.

Lemma append_update_own anima tid st sm up mp w r :
w_conn w ≠ Some ReadOnly → (w_conn w = None → w_after w = []) →
identity_result w = Ok None → owns anima tid r (w_db w) →
refuses r (default (status (row_entry r)) st) = false →
append anima (EvUpdate tid st sm up mp) w =
  (Ok tt, set_db (set_tasks (update_key task_key (anima, tid) (write_update st sm up mp r) (tasks (w_db w)))
                    (w_db w)) w).
Proof.
intros Hc Hq Hi Hown Href. apply append_update_resolved; try done.
- by eapply owns_resolves.
- apply Hown.
Qed.

Lemma load_own anima tid r w archived :
inv (w_db w) → owns anima tid r (w_db w) → row_visible archived r = true →
∃ view, load_all anima archived w = (Ok view, w) ∧ dget tid view = Some (row_entry r).
Proof.
intros Hd [Ha Hr] Hv. exists (read_view anima archived (w_db w)). split.
- unfold load_all, read, reader. destruct w as [? ? [[]|]]; done.
- rewrite read_view_lookup by done. rewrite Ha. unfold own_view. by rewrite Hr, Hv.
Qed.

Lemma owns_update anima tid r f d :
owns anima tid r d → (∀ r', task_key (f r') = task_key r') →
owns anima tid (f r) (set_tasks (update_key task_key (anima, tid) f (tasks d)) d).
Proof.
intros [Ha Hr] Hf. split; [done|]. simpl. rewrite select_update_key by (intros; by rewrite Hf).
by rewrite decide_True, Hr.
Qed.

Lemma get_own anima tid r w :
owns anima tid r (w_db w) → get_task_by_id anima tid w = (Ok (Some (row_entry r)), w).
Proof.
intros [Ha Hr]. unfold get_task_by_id, get_task, reader. body_unfold.
rewrite (get_view_own _ _ _ _ Ha Hr). destruct w as [? ? [[]|]]; done.
Qed.

(** The world after reading the clock and writing the update. *)
Definition written (anima tid st : string) (sm : option string) (mp : option dict) (r : task_row)
  (set_st : bool) (w : world) : world :=
let now := now_at (w_clock w) in
mk_world (set_tasks (update_key task_key (anima, tid)
            (write_update (if set_st then Some st else None) sm (Some now) mp r) (tasks (w_db w))) (w_db w))
  (w_board w) (w_conn w) (w_after w) (S (w_clock w)) (w_uuid w) (w_ctx_identity w) (w_env_identity w).

Definition notify (anima tid st : string) : M world unit :=
if str_in st ARCHIVE_SYNC_STATUSES then after_commit (SyncArchived anima tid)
else if str_in st REACTIVATE_SYNC_STATUSES then after_commit (SyncReactivated anima tid)
else mret tt.

Lemma notify_returns anima tid st w : val_of (notify anima tid st w) = Ok tt.
Proof.
unfold notify, after_commit. body_unfold. repeat case_match; try done; apply catch_total.
Qed.

Lemma update_status_own anima tid st sm w r :
inv (w_db w) → w_conn w ≠ Some ReadOnly → (w_conn w = None → w_after w = []) →
identity_result w = Ok None → owns anima tid r (w_db w) → row_archived r = false →
st ∈ VALID_STATUSES → refuses r st = false →
update_status anima tid st sm w =
  (Ok (Some (merge_update (Some st) sm (Some (now_at (w_clock w))) None (row_entry r))),
   state_of (notify anima tid st (written anima tid st sm None r true w))).
Proof.
intros Hd Hc Hq Hi Hown Harch Hst Href. unfold update_status.
assert (str_in st RETIRED_STATUSES = false) as ->.
{ apply bool_decide_eq_false_2. clear -Hst. set_solver. }
unfold str_in at 1. rewrite bool_decide_eq_true_2 by done. cbn [negb].
destruct (load_own anima tid r w false Hd Hown) as (view & Hload & Hget).
{ unfold row_visible. by rewrite Harch. }
body_unfold. rewrite Hload, Hget.
assert (bool_decide (status (row_entry r) = "cancelled") && negb (str_in st ["cancelled"; "pending"]) = false) as ->.
{ unfold refuses in Href. destruct (bool_decide _); [|done]. by apply orb_false_iff in Href as [-> _]. }
rewrite (append_update_own anima tid (Some st) sm _ None _ r) by done.
cbn [set_db w_db w_board w_conn w_after w_clock w_uuid w_ctx_identity w_env_identity].
fold (written anima tid st sm None r true w).
rewrite (get_own _ _ (write_update (Some st) sm (Some (now_at (w_clock w))) None r r)).
2: { by apply owns_update. }
cbn [write_update set_row_ready set_row_archived set_row_entry row_entry]. rewrite merge_status, bool_decide_eq_true_2 by done. cbn [negb].
change (if str_in st ARCHIVE_SYNC_STATUSES then after_commit (SyncArchived anima tid)
  else if str_in st REACTIVATE_SYNC_STATUSES then after_commit (SyncReactivated anima tid)
  else λ s, (Ok tt, s)) with (notify anima tid st).
pose proof (notify_returns anima tid st (written anima tid st sm None r true w)) as Hn.
by destruct (notify _ _ _ _) as [[[]|e] w1]; simplify_eq/=.
Qed.

Lemma update_meta_own anima tid mp sm w r :
inv (w_db w) → w_conn w ≠ Some ReadOnly → (w_conn w = None → w_after w = []) →
identity_result w = Ok None → owns anima tid r (w_db w) → row_archived r = false →
refuses r (status (row_entry r)) = false →
update_meta anima tid mp sm w =
  (Ok (Some (merge_update None sm (Some (now_at (w_clock w))) (Some mp) (row_entry r))),
   written anima tid "" sm (Some mp) r false w).
Proof.
intros Hd Hc Hq Hi Hown Harch Href. unfold update_meta.
destruct (load_own anima tid r w false Hd Hown) as (view & Hload & Hget).
{ unfold row_visible. by rewrite Harch. }
body_unfold. rewrite Hload, Hget.
rewrite (append_update_own anima tid None sm _ (Some mp) _ r) by done.
cbn [set_db w_db w_board w_conn w_after w_clock w_uuid w_ctx_identity w_env_identity].
fold (written anima tid "" sm (Some mp) r false w).
rewrite (get_own _ _ (write_update None sm (Some (now_at (w_clock w))) (Some mp) r r)); [done|].
by apply owns_update.
Qed.

Lemma notify_off anima tid st w :
w_conn w = None → w_db (state_of (notify anima tid st w)) = w_db w.
Proof.
intros Hc. unfold notify, after_commit. body_unfold.
destruct (str_in st ARCHIVE_SYNC_STATUSES); [|destruct (str_in st REACTIVATE_SYNC_STATUSES); [|done]].
all: rewrite Hc; match goal with |- context [run_hook ?cb] => pose proof (hook_frame cb w) as Hf end.
all: by injection Hf.
Qed.

Lemma notify_synced anima tid st w :
w_conn w = None → card_synced anima tid st (w_board (state_of (notify anima tid st w))).
Proof.
intros Hc. unfold notify, after_commit. body_unfold. unfold str_in. case_bool_decide as Ha.
{ rewrite Hc. by apply sync_archived_run. }
case_bool_decide as Hr; [rewrite Hc; by apply sync_reactivated_run|].
intros m _. by split.
Qed.

(** The refused updates. *)
Lemma update_status_refused anima tid st sm w r :
inv (w_db w) → w_conn w = None → w_after w = [] → identity_result w = Ok None →
owns anima tid r (w_db w) → row_archived r = false → st ∈ VALID_STATUSES → refuses r st = true →
∃ v w', update_status anima tid st sm w = (v, w') ∧
  (∀ e, v ≠ Ok (Some e)) ∧ w_db w' = w_db w ∧ w_board w' = w_board w.
Proof.
intros Hd Hc Hq Hi Hown Harch Hst Href. unfold update_status.
assert (str_in st RETIRED_STATUSES = false) as ->.
{ apply bool_decide_eq_false_2. clear -Hst. set_solver. }
unfold str_in at 1. rewrite bool_decide_eq_true_2 by done. cbn [negb].
destruct (load_own anima tid r w false Hd Hown) as (view & Hload & Hget).
{ unfold row_visible. by rewrite Harch. }
body_unfold. rewrite Hload, Hget. unfold refuses in Href.
destruct (bool_decide (status (row_entry r) = "cancelled")) eqn:Ec; [|done]. simpl in Href |- *.
destruct (negb (str_in st ["cancelled"; "pending"])) eqn:En; [by eexists _, _|].
simpl in Href. apply andb_true_iff in Href as [Hp Hcur].
unfold append, locked_queue, append_unlocked, apply, transaction. simpl. rewrite Hc. simpl.
destruct Hown as [Ha Hr].
assert (resolve (w_db w) anima tid = (anima, tid)) as Hres by (unfold resolve; by rewrite Ha, Hr).
body_unfold. simpl. rewrite Hres. simpl. rewrite Hr. simpl. unfold identity_result in *. simpl.
rewrite Hi. simpl. rewrite Ec, Hp, Hcur. by eexists _, _.
Qed.

(** A status update of an own task: unless the task is cancelled and the
  update is neither a cancel nor a re-queue of an idle task, the update
  succeeds, the canonical record carries the new status, keeps its input
  and running attempt and is unscheduled when finished, no other task
  changes, and the task's TaskBoard card, if any, is closed for a finished
  task and not archived for a re-opened one.  A refused update changes
  neither the tasks nor the board. *)
Theorem update_status_effect anima tid st sm w r :
w_conn w = None → w_after w = [] → identity_result w = Ok None → inv (w_db w) →
owns anima tid r (w_db w) → row_archived r = false → st ∈ VALID_STATUSES →
let w' := state_of (update_status anima tid st sm w) in
if refuses r st then
  (∀ e, val_of (update_status anima tid st sm w) ≠ Ok (Some e)) ∧
  w_db w' = w_db w ∧ w_board w' = w_board w
else
  ∃ r', val_of (update_status anima tid st sm w) = Ok (Some (row_entry r')) ∧
    status (row_entry r') = st ∧ row_input r' = row_input r ∧ row_current r' = row_current r ∧
    row_ready r' = (if terminal st then false else row_ready r) ∧ row_archived r' = false ∧
    (∀ k, select_key task_key k (tasks (w_db w')) =
       if decide (k = (anima, tid)) then Some r' else select_key task_key k (tasks (w_db w))) ∧
    card_synced anima tid st (w_board w').
Proof.
intros Hc Hq Hi Hd Hown Harch Hst w'. destruct (refuses r st) eqn:Href.
{ destruct (update_status_refused anima tid st sm w r) as (v & w1 & Hrun & ?); [done..|].
  subst w'. by rewrite Hrun. }
subst w'. rewrite (update_status_own anima tid st sm w r) by (done || by rewrite Hc).
cbn [fst snd]. set (w1 := written _ _ _ _ _ _ _ _).
exists (write_update (Some st) sm (Some (now_at (w_clock w))) None r r).
split_and!; [done|apply merge_status|done..| |by apply notify_synced].
intros k. rewrite notify_off by done. simpl. rewrite select_update_key by done.
case_decide; [subst|done]. destruct Hown as [_ ->]. done.
Qed.
End updates.

(* ------------------------------------------------------------------ *)
(** ** Adding a task once *)

(** [anima] tracks no task of its own through an alias. *)
Definition no_self_alias (anima : string) (d : db) : Prop :=
  ∀ a, a ∈ task_aliases d → al_viewer a = anima → al_anima a ≠ anima.

Definition matches (predicate : TaskEntry → bool) (e : TaskEntry) : bool := is_active e && predicate e.

Section once.
Context `{Oracle}.

Lemma build_task_entry_run src i a sm c t m st w e w' :
build_task_entry src i a sm c t m st w = (Ok e, w') →
w_db w' = w_db w ∧ w_conn w' = w_conn w ∧ status e ∈ ["pending"; "in_progress"].
Proof.
unfold build_task_entry, fresh_id. destruct (str_in st _) eqn:Es; simpl; [|done].
apply bool_decide_eq_true in Es. body_unfold. repeat case_match; intros; by simplify_eq/=.
Qed.

(** Recording an entry that is not a delegation writes that one row. *)
Lemma apply_entry_run anima e w w' :
w_conn w = Some ReadWrite → status e ≠ "delegated" → apply anima (EvEntry e) w = (Ok tt, w') →
w_db w' = set_tasks (upsert task_key (mk_task anima (task_id e) e None false None false)
            (λ r, set_row_archived false (set_row_entry e r)) (tasks (w_db w))) (w_db w).
Proof.
intros Hc Hs. unfold apply, transaction. rewrite Hc. rewrite (bool_decide_eq_false_2 _ Hs).
body_cases; intros; by simplify_eq/=.
Qed.

(** Other identifiers of the listing are untouched by that write. *)
Lemma read_view_other anima e d k archived :
inv d → inv (set_tasks (upsert task_key (mk_task anima (task_id e) e None false None false)
            (λ r, set_row_archived false (set_row_entry e r)) (tasks d)) d) →
no_self_alias anima d → k ≠ task_id e →
dget k (read_view anima archived (set_tasks (upsert task_key
  (mk_task anima (task_id e) e None false None false)
  (λ r, set_row_archived false (set_row_entry e r)) (tasks d)) d)) =
dget k (read_view anima archived d).
Proof.
intros Hd Hd' Hself Hk. rewrite !read_view_lookup by done.
cbn [task_aliases set_tasks]. unfold own_view, alias_view. cbn [tasks set_tasks].
assert (∀ k', k' ≠ (anima, task_id e) →
  select_key task_key k' (upsert task_key (mk_task anima (task_id e) e None false None false)
    (λ r, set_row_archived false (set_row_entry e r)) (tasks d)) = select_key task_key k' (tasks d)) as Hsel.
{ intros k' Hk'. rewrite select_upsert by done. by rewrite decide_False. }
rewrite (Hsel (anima, k)) by congruence.
destruct (select_key alias_key (anima, k) (task_aliases d)) as [a|] eqn:Ea; [|done].
apply select_key_Some in Ea as [Ha [= Hv _]]. rewrite Hsel; [done|].
intros [= ? _]. by apply (Hself a Ha).
Qed.

(** [add_task_if_absent] adds at most one matching task: it declines,
  changing nothing, exactly when an active task already matches; and after
  it has added an entry, that entry is the only active task of the anima
  that can match the predicate. *)
Theorem add_task_if_absent_once anima predicate src i a sm c t m st w res w' :
w_conn w = None → inv (w_db w) → no_self_alias anima (w_db w) →
add_task_if_absent anima predicate src i a sm c t m st w = (Ok res, w') →
match res with
| None => (∃ k x, (k, x) ∈ read_view anima false (w_db w) ∧ matches predicate x = true) ∧
          w_db w' = w_db w
| Some e =>
    (∀ k x, (k, x) ∈ read_view anima false (w_db w) → matches predicate x = false) ∧
    (∀ k x, dget k (read_view anima false (w_db w')) = Some x → matches predicate x = true →
       k = task_id e)
end.
Proof.
intros Hc Hd Hself Hrun.
pose proof (transaction_ok _ _ _ _ Hc Hrun) as (w1 & Hb & Hdb).
revert Hb. unfold load_all, read, reader. body_unfold. simpl.
destruct (any _ (read_view anima false (w_db w))) eqn:Eany.
{ intros [= <- <-]. split; [|done]. apply any_true in Eany as ([k x] & Hin & Hm). eauto. }
destruct (build_task_entry _ _ _ _ _ _ _ _ _) as [[e|] w2] eqn:Eb; [|done].
apply build_task_entry_run in Eb as (Hdb2 & Hc2 & Hst). simpl in Hdb2, Hc2.
unfold append_unlocked. destruct (apply anima (EvEntry e) w2) as [[[]|] w3] eqn:Ea; [|done].
intros [= <- <-].
pose proof (apply_keeps anima (EvEntry e) w2) as Hkeep. rewrite Ea in Hkeep.
unfold on_db, keeps_inv, keeps in Hkeep. simpl in Hkeep. rewrite Hdb2 in Hkeep.
apply apply_entry_run in Ea; [|done|by intros Hs; rewrite Hs in Hst; set_solver].
rewrite Hdb2 in Ea. rewrite Ea in Hkeep. rewrite Hdb, Ea.
assert (∀ k x, (k, x) ∈ read_view anima false (w_db w) → matches predicate x = false) as Hno.
{ intros k x Hin. by apply (proj1 (any_false _ _) Eany (k, x)). }
split; [exact Hno|]. intros k x Hx Hm. destruct (decide (k = task_id e)) as [|Hne]; [done|].
rewrite read_view_other in Hx by auto. apply dget_elem, Hno in Hx. congruence.
Qed.
End once.
