(* ===== verification/Projector.v ===== *)
(** * Projecting tasks onto the board ([core/taskboard/projector.py])

    One board row per canonical task, overlaid with the task's metadata, and
    optionally one per metadata row whose task is gone; sorted for display.
    The theorems: the projection shows exactly what it should, once and in
    order, and a finished task does not linger on the board because of a
    stale metadata row. *)

From stdpp Require Import prelude strings list sorting.
From Stdlib Require Import QArith.
From S2P Require Import Prelude PyValue Sql TaskModels TaskStore TaskStoreInv TaskBoard TaskQueue TaskQueueProps.

(* ------------------------------------------------------------------ *)
(** ** Board rows *)

Record BoardTask := mk_board_task {
  bt_anima_name : string;
  bt_task_id : string;
  bt_queue_missing : bool;
  bt_source : option task_source;
  bt_original_instruction : option string;
  bt_assignee : option string;
  bt_queue_status : option string;
  bt_summary : option string;
  bt_relay_chain : list string;
  bt_meta : dict;
  bt_queue_updated_at : option string;
  bt_visibility : AttentionVisibility;
  bt_column : BoardColumn;
  bt_position : option Q;
  bt_expires_at : option string;
  bt_snoozed_until : option string;
  bt_last_notified_at : option string;
  bt_notification_key : option string;
  bt_surface_count : nat;
  bt_source_ref : option string;
  bt_replaced_by : option string;
  bt_tombstone_reason : option string;
  bt_board_updated_at : option string;
  bt_board_updated_by : option string
}.

Definition QUEUE_STATUS_TO_COLUMN : list (string * BoardColumn) :=
  [("pending", TODO); ("in_progress", RUNNING); ("delegated", WAITING); ("done", DONE); ("cancelled", DONE)].
Definition ARCHIVED_QUEUE_STATUSES : list string := ["done"; "cancelled"].

(** The position of a column in the enumeration. *)
Definition column_order (c : BoardColumn) : nat :=
  match c with
  | TODO => 0 | RUNNING => 1 | BLOCKED => 2 | WAITING => 3 | REVIEW => 4 | DONE => 5 | SUPPRESSED => 6
  end.

Definition source_ref (anima_name tid : string) : string := "task_queue:" +:+ anima_name +:+ ":" +:+ tid.

Definition resolve_source_ref (anima_name tid : string) (metadata : option TaskBoardMetadata) : string :=
  match metadata with
  | Some m => if str_truthy (default "" (md_source_ref m)) then default "" (md_source_ref m)
              else source_ref anima_name tid
  | None => source_ref anima_name tid
  end.

Section projection.
Context `{Calendar}.

Definition metadata_older_than_queue (metadata_at queue_at : option string) : bool :=
if negb (str_truthy (default "" metadata_at)) || negb (str_truthy (default "" queue_at)) then false else
match fromisoformat (default "" metadata_at), fromisoformat (default "" queue_at) with
| Some m, Some q =>
    if negb (bool_decide (dt_aware m = dt_aware q)) then false
    else negb (Qle_bool (dt_seconds q) (dt_seconds m))
| _, _ => false
end.

(** A stale row of an unfinished card under a finished task. *)
Definition prefer_defaults (task : TaskEntry) (metadata : option TaskBoardMetadata) : bool :=
match metadata with
| Some m =>
    str_in (status task) ARCHIVED_QUEUE_STATUSES && bool_decide (md_visibility m ∈ [ACTIVE; SNOOZED]) &&
    metadata_older_than_queue (Some (md_updated_at m)) (Some (updated_at task))
| None => false
end.

Definition project_queue_task (task : TaskEntry) (anima_name : string) (metadata : option TaskBoardMetadata) :
  BoardTask :=
let default_column := default TODO (dget (status task) QUEUE_STATUS_TO_COLUMN) in
let default_visibility := if str_in (status task) ARCHIVED_QUEUE_STATUSES then ARCHIVED else ACTIVE in
let '(visibility, column) :=
  match metadata with
  | Some m => if prefer_defaults task metadata then (default_visibility, default_column)
              else (md_visibility m, default default_column (md_column m))
  | None => (default_visibility, default_column)
  end in
mk_board_task anima_name (task_id task) false (Some (source task)) (Some (original_instruction task))
  (Some (assignee task)) (Some (status task)) (Some (summary task)) (relay_chain task) (meta task)
  (Some (updated_at task)) visibility column
  (metadata ≫= md_position) (metadata ≫= md_expires_at) (metadata ≫= md_snoozed_until)
  (metadata ≫= md_last_notified_at) (metadata ≫= md_notification_key)
  (from_option md_surface_count O metadata)
  (Some (resolve_source_ref anima_name (task_id task) metadata))
  (metadata ≫= md_replaced_by) (metadata ≫= md_tombstone_reason)
  (md_updated_at <$> metadata) (md_updated_by <$> metadata).

Definition project_missing_task (m : TaskBoardMetadata) : BoardTask :=
mk_board_task (md_anima_name m) (md_task_id m) true None None (Some (md_anima_name m)) None None [] [] None
  (md_visibility m) (default SUPPRESSED (md_column m)) (md_position m) (md_expires_at m) (md_snoozed_until m)
  (md_last_notified_at m) (md_notification_key m) (md_surface_count m)
  (Some (resolve_source_ref (md_anima_name m) (md_task_id m) (Some m)))
  (md_replaced_by m) (md_tombstone_reason m) (Some (md_updated_at m)) (Some (md_updated_by m)).

Definition should_include (t : BoardTask) (include_archived : bool) : bool :=
include_archived || bool_decide (bt_visibility t = ACTIVE).

(** The display order: column, position (absent last), time, anima, task. *)
Definition position_leb (a b : option Q) : bool :=
match a, b with
| _, None => true
| None, Some _ => false
| Some p, Some q => Qle_bool p q
end.
Definition position_eqb (a b : option Q) : bool := position_leb a b && position_leb b a.
Definition shown_at (t : BoardTask) : string :=
str_or (default "" (bt_queue_updated_at t)) (str_or (default "" (bt_board_updated_at t)) "").

Definition sort_leb (a b : BoardTask) : bool :=
if negb (bool_decide (bt_column a = bt_column b)) then bool_decide (column_order (bt_column a) ≤ column_order (bt_column b))%nat
else if negb (position_eqb (bt_position a) (bt_position b)) then position_leb (bt_position a) (bt_position b)
else if negb (bool_decide (shown_at a = shown_at b)) then String.leb (shown_at a) (shown_at b)
else if negb (bool_decide (bt_anima_name a = bt_anima_name b)) then String.leb (bt_anima_name a) (bt_anima_name b)
else String.leb (bt_task_id a) (bt_task_id b).
Definition sort_le (a b : BoardTask) : Prop := sort_leb a b = true.
#[global] Instance sort_le_dec : ∀ a b, Decision (sort_le a b).
Proof. intros a b. unfold sort_le. apply _. Defined.

(** The rows before sorting. *)
Definition projected_rows (anima_name : string) (tasks_ : list TaskEntry) (rows : list TaskBoardMetadata)
  (include_missing include_archived : bool) : list BoardTask :=
let by_id := foldl (λ d m, dset (md_task_id m) m d) [] rows in
let queue := (λ t, project_queue_task t anima_name (dget (task_id t) by_id)) <$> tasks_ in
let missing := project_missing_task <$> filter (λ m, md_task_id m ∉ task_id <$> tasks_) rows in
filter (λ t, should_include t include_archived = true) queue ++
(if include_missing then filter (λ t, should_include t include_archived = true) missing else []).

Context `{Oracle}.

Definition load_queue_tasks (anima : string) (include_archived : bool) : M world (list TaskEntry) :=
view ← load_all anima include_archived; mret (snd <$> view).

Definition project_anima (anima : string) (include_missing include_archived : bool) : M world (list BoardTask) :=
rows ← list_metadata (Some anima);
tasks_ ← load_queue_tasks anima include_archived;
mret (merge_sort sort_le (projected_rows anima tasks_ rows include_missing include_archived)).

Definition name_le (a b : string) : Prop := String.leb a b = true.
#[global] Instance name_le_dec : ∀ a b, Decision (name_le a b).
Proof. intros a b. unfold name_le. apply _. Defined.

Fixpoint project_each (names : list string) (include_missing include_archived : bool) :
  M world (list BoardTask) :=
match names with
| [] => mret []
| n :: rest =>
    l ← project_anima n include_missing include_archived;
    ls ← project_each rest include_missing include_archived;
    mret (l ++ ls)
end.

(** [discovered]: the directories found when no names are given. *)
Definition project_all (discovered : list string) (anima_names : option (list string))
  (include_missing include_archived : bool) : M world (list BoardTask) :=
extra ← (if include_missing && negb (bool_decide (is_Some anima_names))
         then rows ← list_metadata None; mret (md_anima_name <$> rows) else mret []);
let names := remove_dups (default discovered anima_names ++ extra) in
l ← project_each (merge_sort name_le names) include_missing include_archived;
mret (merge_sort sort_le l).
End projection.

(* ------------------------------------------------------------------ *)
(** ** What the projection shows *)

#[global] Instance string_leb_total : Total (λ a b : string, String.leb a b = true).
Proof. intros a b. destruct (String.leb_total a b); [by left|by right]. Qed.

Lemma position_leb_total a b : position_leb a b = true ∨ position_leb b a = true.
Proof.
  destruct a as [p|], b as [q|]; simpl; auto.
  destruct (Qlt_le_dec p q) as [Hlt|Hle]; [left|right]; apply Qle_bool_iff; [by apply Qlt_le_weak|done].
Qed.

#[global] Instance sort_le_total : Total sort_le.
Proof.
  intros a b. unfold sort_le, sort_leb, position_eqb.
  rewrite (bool_decide_ext (bt_column b = bt_column a) (bt_column a = bt_column b)) by done.
  case_bool_decide; simpl; [|case_bool_decide; [by left|right; apply bool_decide_eq_true; lia]].
  rewrite (andb_comm (position_leb (bt_position b) _)).
  destruct (position_leb (bt_position a) (bt_position b) && position_leb (bt_position b) (bt_position a)); simpl;
    [|apply position_leb_total].
  rewrite (bool_decide_ext (shown_at b = shown_at a) (shown_at a = shown_at b)) by done.
  case_bool_decide; simpl; [|apply string_leb_total].
  rewrite (bool_decide_ext (bt_anima_name b = bt_anima_name a) (bt_anima_name a = bt_anima_name b)) by done.
  case_bool_decide; simpl; apply string_leb_total.
Qed.

Section theorems.
Context `{Calendar, Oracle}.

Lemma project_queue_task_id t anima m : bt_task_id (project_queue_task t anima m) = task_id t.
Proof. unfold project_queue_task. by repeat case_match. Qed.

(** The metadata rows of one anima. *)
Definition anima_rows (anima : string) (b : board) : list TaskBoardMetadata :=
merge_sort metadata_le (filter (λ m, md_anima_name m = anima) (taskboard_metadata b)).

Lemma elem_of_anima_rows anima b m :
m ∈ anima_rows anima b ↔ m ∈ taskboard_metadata b ∧ md_anima_name m = anima.
Proof. unfold anima_rows. rewrite merge_sort_Permutation, list_elem_of_filter. tauto. Qed.

Lemma anima_rows_NoDup anima b : unique metadata_key (taskboard_metadata b) → NoDup (md_task_id <$> anima_rows anima b).
Proof.
intros Hu. unfold anima_rows. rewrite merge_sort_Permutation.
eapply (NoDup_filter_key md_task_id metadata_key); [|done]. unfold metadata_key. congruence.
Qed.

Lemma metadata_row_rows anima tid b :
unique metadata_key (taskboard_metadata b) →
dget tid (foldl (λ d m, dset (md_task_id m) m d) [] (anima_rows anima b)) = metadata_row anima tid b.
Proof.
intros Hu. rewrite (dget_foldl_dset md_task_id Some) by by apply anima_rows_NoDup.
destruct (select_key md_task_id tid (anima_rows anima b)) as [m|] eqn:E.
- apply select_key_Some in E as [[Hm Ha]%elem_of_anima_rows <-]. symmetry.
  apply select_key_spec; [done|]. unfold metadata_key. by rewrite Ha.
- apply select_key_None in E. symmetry. apply select_key_None. intros (m & Hk & Hm)%list_elem_of_fmap.
  apply E. unfold metadata_key in Hk. simplify_eq. apply list_elem_of_fmap_2, elem_of_anima_rows. done.
Qed.

Lemma project_anima_run anima im ia w :
project_anima anima im ia w =
  (Ok (merge_sort sort_le (projected_rows anima (snd <$> read_view anima ia (w_db w))
                             (anima_rows anima (w_board w)) im ia)), w).
Proof. destruct w as [? ? [[]|]]; done. Qed.

Lemma projected_ids anima ts rows im ia :
im = true → ia = true →
bt_task_id <$> projected_rows anima ts rows im ia =
  (task_id <$> ts) ++ (md_task_id <$> filter (λ m, md_task_id m ∉ task_id <$> ts) rows).
Proof.
intros -> ->. unfold projected_rows.
assert (∀ l : list BoardTask, filter (λ t, should_include t true = true) l = l) as Hall.
{ intros l. induction l as [|t l IH]; [done|]. by rewrite filter_cons, decide_True, IH. }
rewrite !Hall, fmap_app, <- !list_fmap_compose. f_equal.
apply list_fmap_ext. intros i t _. apply project_queue_task_id.
Qed.

(** The full projection of an anima shows every canonical task and every
  metadata row without one, each exactly once, in display order. *)
Theorem projection_exact anima w :
inv (w_db w) → unique metadata_key (taskboard_metadata (w_board w)) →
∃ l, val_of (project_anima anima true true w) = Ok l ∧ Sorted sort_le l ∧ NoDup (bt_task_id <$> l) ∧
  ∀ tid, tid ∈ bt_task_id <$> l ↔
    is_Some (dget tid (read_view anima true (w_db w))) ∨ is_Some (metadata_row anima tid (w_board w)).
Proof.
intros Hd Hu. rewrite project_anima_run. eexists. split; [done|]. split; [apply Sorted_merge_sort, _|].
set (ts := snd <$> _). set (rows := anima_rows _ _).
assert (task_id <$> ts = fst <$> read_view anima true (w_db w)) as Hts by by apply read_view_ids.
assert (bt_task_id <$> merge_sort sort_le (projected_rows anima ts rows true true) ≡ₚ
  (task_id <$> ts) ++ (md_task_id <$> filter (λ m, md_task_id m ∉ task_id <$> ts) rows)) as Hp.
{ rewrite <- (projected_ids anima ts rows true true) by done. by rewrite merge_sort_Permutation. }
rewrite Hp. split.
- apply NoDup_app. split_and!.
  + rewrite Hts. apply read_view_wf.
  + by intros k Hk (m & -> & [Hno _]%list_elem_of_filter)%list_elem_of_fmap.
  + eapply (NoDup_filter_key md_task_id md_task_id); [done|]. by apply anima_rows_NoDup.
- intros tid. rewrite Hp, elem_of_app, Hts.
  assert (tid ∈ fst <$> read_view anima true (w_db w) ↔ is_Some (dget tid (read_view anima true (w_db w)))) as Hl.
  { split; [|by intros [e ?%dget_elem]; apply (list_elem_of_fmap_2 fst _ (tid, e))].
    intros ([k e] & -> & Hin)%list_elem_of_fmap. simpl.
    exists e. apply dget_wf; [apply read_view_wf|done]. }
  rewrite <- Hl. split.
  + intros [?|(m & -> & [_ [Hm Ha]%elem_of_anima_rows]%list_elem_of_filter)%list_elem_of_fmap]; [by left|].
    right. exists m. apply select_key_spec; [done|]. unfold metadata_key. by rewrite Ha.
  + intros [?|[m Hm]]; [by left|]. destruct (decide (tid ∈ fst <$> read_view anima true (w_db w))) as [?|Hno]; [by left|].
    right. apply metadata_row_Some in Hm as [Hm Hk]. unfold metadata_key in Hk. simplify_eq.
    apply list_elem_of_fmap_2, list_elem_of_filter. split; [done|]. by apply elem_of_anima_rows.
Qed.

(** No ghost cards: the default board of an anima shows active cards only,
  and a finished task is among them only when its metadata row says so and
  is not older than the task's last update. *)
Theorem no_ghost_cards anima im w l t :
unique metadata_key (taskboard_metadata (w_board w)) →
val_of (project_anima anima im false w) = Ok l → t ∈ l →
bt_visibility t = ACTIVE ∧
(bt_queue_missing t = false → default "" (bt_queue_status t) ∈ ARCHIVED_QUEUE_STATUSES →
   ∃ m, metadata_row anima (bt_task_id t) (w_board w) = Some m ∧ md_visibility m = ACTIVE ∧
        metadata_older_than_queue (Some (md_updated_at m)) (bt_queue_updated_at t) = false).
Proof.
intros Hu. rewrite project_anima_run. intros [= <-]. rewrite merge_sort_Permutation.
unfold projected_rows. intros Ht.
assert (bt_visibility t = ACTIVE) as Hact.
{ apply elem_of_app in Ht as [[Hi _]%list_elem_of_filter|Ht]; [by apply bool_decide_eq_true in Hi|].
  destruct im; [|by apply not_elem_of_nil in Ht].
  apply list_elem_of_filter in Ht as [Hi _]. by apply bool_decide_eq_true in Hi. }
split; [done|]. intros Hmiss Hst.
apply elem_of_app in Ht as [[_ Hq]%list_elem_of_filter|Ht].
- apply list_elem_of_fmap in Hq as (e & -> & _). rewrite project_queue_task_id.
  rewrite metadata_row_rows in * by done. unfold project_queue_task, prefer_defaults in *.
  destruct (metadata_row anima (task_id e) (w_board w)) as [m|]; simpl in *.
  + destruct (_ && _) eqn:Ep; simpl in *.
    * unfold str_in in Hact. by rewrite bool_decide_eq_true_2 in Hact.
    * exists m. split_and!; [done|done|]. unfold str_in in Ep.
      rewrite (bool_decide_eq_true_2 _ Hst), Hact in Ep. done.
  + unfold str_in in Hact. by rewrite bool_decide_eq_true_2 in Hact.
- destruct im; [|by apply not_elem_of_nil in Ht].
  by apply list_elem_of_filter in Ht as [_ (m & -> & _)%list_elem_of_fmap].
Qed.
End theorems.
