(* ===== verification/TopoSort.v ===== *)
(** * Topological order of a batch ([core/supervisor/pending_executor.py])

    Kahn's algorithm as the executor and the publication check run it: an
    insertion-ordered dictionary of in-degrees, counted once per entry of
    [depends_on] and decremented once per finished dependency.  Tasks are
    given by their identifier and dependency list.

    The theorems: the result is a permutation of the batch in which every
    dependency comes first; the search loop always ends within one step per
    task; the batch is accepted exactly when an order exists and no dependency
    list names a batch member twice. *)

From stdpp Require Import prelude strings list.
From S2P Require Import Prelude PyValue Sql.

Section topo.
Context {T : Type} (tid : T → string) (deps : T → list string).
Implicit Types (ts l : list T) (deg : list (string * Z)) (done q : list string).

(* ---------------------------------------------------------------- *)
(** ** The algorithm *)

(** [{td["task_id"]: td for td in tasks}]. *)
Definition task_map ts : list (string * T) := foldl (λ m t, dset (tid t) t m) [] ts.

(** [d[k] += n]. *)
Definition bump (k : string) (n : Z) deg : list (string * Z) :=
dset k (default 0%Z (dget k deg) + n)%Z deg.

Definition in_degree ts : list (string * Z) :=
foldl (λ deg t,
    foldl (λ deg dep, if dhas dep deg then bump (tid t) 1 deg else deg) deg (deps t))
  ((λ kt, (fst kt, 0%Z)) <$> task_map ts) ts.

(** The inner loop: release the tasks that wait for [x]. *)
Definition release_one (x : string) (st : list (string * Z) * list string) (t : T) :
  list (string * Z) * list string :=
let '(deg, q) := st in
if str_in x (deps t) then
  let deg' := bump (tid t) (-1) deg in
  if bool_decide (dget (tid t) deg' = Some 0%Z) then (deg', q ++ [tid t]) else (deg', q)
else st.
Definition release (x : string) deg q ts : list (string * Z) * list string :=
foldl (release_one x) (deg, q) ts.

(** The outer loop; [None] is running out of fuel, or a [KeyError]. *)
Fixpoint kahn (fuel : nat) ts deg q (result : list T) : option (list T) :=
match q with
| [] => Some result
| x :: q' =>
    match fuel with
    | O => None
    | S fuel' =>
        match dget x (task_map ts) with
        | None => None
        | Some t =>
            let '(deg', q'') := release x deg q' ts in
            kahn fuel' ts deg' q'' (result ++ [t])
        end
    end
end.

Definition initial_queue deg : list string := fst <$> filter (λ kd, snd kd = 0%Z) deg.

Definition topological_sort ts : result (list T) :=
let deg := in_degree ts in
match kahn (S (length ts)) ts deg (initial_queue deg) [] with
| Some r =>
    if negb (bool_decide (length r = length ts))
    then Err (ValueError "Cycle detected in task dependencies")
    else Ok r
| None => Err (RuntimeError "out of fuel")
end.

(* ---------------------------------------------------------------- *)
(** ** Specification *)

(** Every dependency inside the batch comes earlier. *)
Definition ordered (ids : list string) l : Prop :=
∀ l1 t l2, l = l1 ++ t :: l2 → ∀ d, d ∈ deps t → d ∈ ids → d ∈ tid <$> l1.

(** In-batch dependencies of a task, and those already done. *)
Definition inside (ids : list string) (t : T) : list string := filter (λ d, d ∈ ids) (deps t).
Definition hits done (t : T) : list string := filter (λ d, d ∈ deps t) done.
Definition open_deps (ids : list string) done (t : T) : Z :=
(Z.of_nat (length (inside ids t)) - Z.of_nat (length (hits done t)))%Z.

Lemma hits_le ids done t :
NoDup done → done ⊆ ids → length (hits done t) ≤ length (inside ids t).
Proof.
intros Hnd Hsub. apply NoDup_incl_length.
- apply NoDup_ListNoDup, NoDup_filter, Hnd.
- intros d. rewrite <- !list_elem_of_In. unfold hits, inside. rewrite !list_elem_of_filter. naive_solver.
Qed.

Lemma hits_all ids done t :
NoDup done → done ⊆ ids → length (hits done t) = length (inside ids t) →
NoDup (inside ids t) ∧ ∀ d, d ∈ deps t → d ∈ ids → d ∈ done.
Proof.
intros Hnd Hsub Hlen.
assert (NoDup (hits done t)) as Hh by apply NoDup_filter, Hnd.
assert (incl (hits done t) (inside ids t)) as Hincl.
{ intros d. rewrite <- !list_elem_of_In. unfold hits, inside. rewrite !list_elem_of_filter. naive_solver. }
apply NoDup_ListNoDup in Hh. split.
- apply NoDup_ListNoDup. refine (List.NoDup_incl_NoDup Hh _ Hincl). by rewrite Hlen.
- intros d Hd Hi.
  assert (d ∈ hits done t) as [_ ?]%list_elem_of_filter; [|done].
  apply list_elem_of_In. refine (List.NoDup_length_incl Hh _ Hincl d _); [by rewrite Hlen|].
  apply list_elem_of_In, list_elem_of_filter. done.
Qed.

Lemma hits_snoc done x t :
length (hits (done ++ [x]) t) = length (hits done t) + (if str_in x (deps t) then 1 else 0).
Proof.
unfold hits, str_in. rewrite filter_app, length_app, filter_cons.
case_bool_decide; case_decide; done.
Qed.

(* ---------------------------------------------------------------- *)
(** ** The dictionaries *)

Lemma dget_task_map ts t : NoDup (tid <$> ts) → t ∈ ts → dget (tid t) (task_map ts) = Some t.
Proof.
intros Hnd. induction ts as [|x ts IH] using rev_ind; [by intros ?%not_elem_of_nil|].
rewrite fmap_app in Hnd. apply NoDup_app in Hnd as (Hnd & Hx & _). unfold task_map.
rewrite foldl_snoc, dget_dset. rewrite elem_of_app, list_elem_of_singleton. intros [Ht| ->].
- rewrite decide_False; [by apply IH|]. intros Heq. apply (Hx (tid t)).
  + by apply list_elem_of_fmap_2.
  + rewrite Heq. by left.
- by rewrite decide_True.
Qed.

Lemma task_map_keys ts : NoDup (tid <$> ts) → fst <$> task_map ts = tid <$> ts.
Proof.
intros Hnd. induction ts as [|x ts IH] using rev_ind; [done|].
rewrite fmap_app in Hnd. apply NoDup_app in Hnd as (Hnd & Hx & _). unfold task_map in *.
rewrite foldl_snoc, dset_keys_notin; rewrite IH by done; [by rewrite fmap_app|].
intros Hin. by apply (Hx (tid x) Hin); left.
Qed.

Lemma dget_bump k k' n deg :
dget k (bump k' n deg) =
  if decide (k = k') then Some (default 0 (dget k' deg) + n)%Z else dget k deg.
Proof. apply dget_dset. Qed.

Lemma bump_keys k n deg : k ∈ fst <$> deg → fst <$> bump k n deg = fst <$> deg.
Proof. apply dset_keys_in. Qed.

Lemma dhas_keys {V} k (d : list (string * V)) : dhas k d = true ↔ k ∈ fst <$> d.
Proof.
unfold dhas. induction d as [|[k' v] d IH]; simpl; [split; [done|by intros ?%not_elem_of_nil]|].
rewrite elem_of_cons. case_bool_decide; naive_solver.
Qed.

Lemma dget_keys {V} k (d : list (string * V)) : is_Some (dget k d) ↔ k ∈ fst <$> d.
Proof.
rewrite <- dhas_keys. unfold dhas. destruct (dget k d); [naive_solver|].
split; [by intros []|done].
Qed.

Lemma count_deps_run k0 ds deg :
k0 ∈ fst <$> deg →
let deg' := foldl (λ deg dep, if dhas dep deg then bump k0 1 deg else deg) deg ds in
fst <$> deg' = fst <$> deg ∧
(∀ k, dget k deg' =
   if decide (k = k0)
   then (λ n, n + Z.of_nat (length (filter (λ d, d ∈ fst <$> deg) ds)))%Z <$> dget k0 deg
   else dget k deg).
Proof.
revert deg. induction ds as [|d ds IH]; intros deg Hk; simpl.
{ split; [done|]. intros k. case_decide; [subst|done]. destruct (dget k0 deg); simpl; f_equal; lia. }
rewrite filter_cons. destruct (dhas d deg) eqn:Ed.
- apply dhas_keys in Ed. rewrite decide_True by done. pose proof (bump_keys k0 1 deg Hk) as Hkeys.
  destruct (IH (bump k0 1 deg)) as [IHk IHg]; [by rewrite Hkeys|]. rewrite Hkeys in *.
  split; [done|]. intros k. rewrite IHg. case_decide; [subst|].
  + rewrite dget_bump, decide_True by done. apply dget_keys in Hk as [n ->]. simpl. f_equal. lia.
  + rewrite dget_bump. by rewrite decide_False.
- rewrite decide_False by (rewrite <- dhas_keys; by rewrite Ed). by apply IH.
Qed.

Lemma in_degree_run ts :
NoDup (tid <$> ts) →
fst <$> in_degree ts = tid <$> ts ∧
∀ t, t ∈ ts → dget (tid t) (in_degree ts) = Some (Z.of_nat (length (inside (tid <$> ts) t))).
Proof.
intros Hnd. unfold in_degree. set (deg0 := (λ kt, _) <$> task_map ts).
assert (fst <$> deg0 = tid <$> ts) as Hkeys0.
{ unfold deg0. rewrite <- list_fmap_compose. by rewrite <- (task_map_keys ts Hnd). }
assert (∀ k n, dget k deg0 = Some n → n = 0%Z) as Hzero.
{ intros k n (y & [= _ ->] & _)%dget_elem%list_elem_of_fmap. done. }
assert (∀ l, l `prefix_of` ts →
  let deg := foldl (λ deg t,
    foldl (λ deg dep, if dhas dep deg then bump (tid t) 1 deg else deg) deg (deps t)) deg0 l in
  fst <$> deg = tid <$> ts ∧
  (∀ t, t ∈ l → dget (tid t) deg = Some (Z.of_nat (length (inside (tid <$> ts) t)))) ∧
  (∀ k, k ∈ tid <$> ts → k ∉ tid <$> l → dget k deg = Some 0%Z)) as Hpre.
{ intros l. induction l as [|t l IH] using rev_ind; intros Hl.
  - split_and!; [done|by intros ? ?%not_elem_of_nil|]. simpl. intros k Hk _. rewrite <- Hkeys0 in Hk.
    apply dget_keys in Hk as [n Hn]. by rewrite Hn, (Hzero _ _ Hn).
  - destruct IH as (IHk & IHin & IHout); [by eapply prefix_app_l|].
    rewrite foldl_snoc. cbv zeta in *. set (deg := foldl _ deg0 l) in *.
    assert (t ∈ ts) as Ht by (destruct Hl as [l' ->]; set_solver).
    assert (tid t ∉ tid <$> l) as Hnot.
    { destruct Hl as [l' ->]. rewrite <- app_assoc, fmap_app in Hnd. apply NoDup_app in Hnd as (_ & Hx & _).
      intros Hin. apply (Hx _ Hin). by left. }
    destruct (count_deps_run (tid t) (deps t) deg) as [Hck Hcg].
    { rewrite IHk. by apply list_elem_of_fmap_2. }
    rewrite IHk in Hck. split_and!; [done| |].
    + intros t' [Ht'| ->%list_elem_of_singleton]%elem_of_app; rewrite Hcg.
      * rewrite decide_False; [auto|]. intros Heq. apply Hnot. rewrite <- Heq. by apply list_elem_of_fmap_2.
      * rewrite decide_True by done. rewrite IHout; [|by apply list_elem_of_fmap_2|done]. simpl.
        unfold inside. by rewrite IHk.
    + intros k Hk Hkl. rewrite fmap_app in Hkl. apply not_elem_of_app in Hkl as [Hkl Hkt].
      rewrite Hcg, decide_False; [by apply IHout|]. intros ->. apply Hkt. by left. }
destruct (Hpre ts) as (? & ? & _); [done|]. done.
Qed.

Lemma initial_queue_elem deg k :
NoDup (fst <$> deg) → k ∈ initial_queue deg ↔ dget k deg = Some 0%Z.
Proof.
intros Hnd. unfold initial_queue. rewrite list_elem_of_fmap. split.
- intros ([k' n] & -> & [Hn Hin]%list_elem_of_filter). simpl in *. subst.
  induction deg as [|[k0 n0] deg IH]; [by apply not_elem_of_nil in Hin|].
  rewrite fmap_cons in Hnd. apply NoDup_cons in Hnd as [Hk0 Hnd]. simpl in *.
  apply elem_of_cons in Hin as [[= -> ->]|Hin]; [by rewrite bool_decide_eq_true_2|].
  rewrite bool_decide_eq_false_2; [by apply IH|]. intros ->. apply Hk0.
  by apply (list_elem_of_fmap_2 fst _ (k0, 0%Z)).
- intros Hk%dget_elem. exists (k, 0%Z). split; [done|]. by apply list_elem_of_filter.
Qed.

Lemma release_run x l deg q :
NoDup (tid <$> l) → (∀ t, t ∈ l → tid t ∈ fst <$> deg) →
let '(deg', q') := release x deg q l in
fst <$> deg' = fst <$> deg ∧
(∀ t, t ∈ l → dget (tid t) deg' =
   (λ n, n - (if str_in x (deps t) then 1 else 0))%Z <$> dget (tid t) deg) ∧
(∀ k, k ∉ tid <$> l → dget k deg' = dget k deg) ∧
q' = q ++ (tid <$> filter (λ t, str_in x (deps t) = true ∧ dget (tid t) deg = Some 1%Z) l).
Proof.
revert deg q. induction l as [|t l IH]; intros deg q Hnd Hin.
{ simpl. split_and!; [done|by intros ? ?%not_elem_of_nil|done|by rewrite app_nil_r]. }
rewrite fmap_cons in Hnd. apply NoDup_cons in Hnd as [Ht Hnd].
pose proof (Hin t (list_elem_of_here t l)) as Htk. pose proof Htk as [n Hn]%dget_keys.
unfold release in *. cbn [foldl]. unfold release_one at 2. destruct (str_in x (deps t)) eqn:Ex.
- set (deg1 := bump (tid t) (-1) deg).
  assert (fst <$> deg1 = fst <$> deg) as Hk1 by by apply bump_keys.
  assert (∀ k, dget k deg1 = if decide (k = tid t) then Some (n - 1)%Z else dget k deg) as Hg1.
  { intros k. unfold deg1. rewrite dget_bump, Hn. case_decide; [|done]. simpl. f_equal. }
  set (q1 := if bool_decide (dget (tid t) deg1 = Some 0%Z) then q ++ [tid t] else q).
  specialize (IH deg1 q1 Hnd). destruct (foldl _ _ l) as [deg' q'] eqn:E1 in IH.
  assert (foldl (release_one x) (if bool_decide (dget (tid t) deg1 = Some 0%Z)
    then (deg1, q ++ [tid t]) else (deg1, q)) l = (deg', q')) as ->.
  { rewrite <- E1. unfold q1. by case_bool_decide. }
  destruct IH as (IHk & IHin & IHout & ->). { intros t' Ht'. rewrite Hk1. apply Hin. by right. }
  assert (∀ t', t' ∈ l → tid t' ≠ tid t) as Hne.
  { intros t' Ht' Heq. apply Ht. rewrite <- Heq. by apply list_elem_of_fmap_2. }
  split_and!; [by rewrite IHk| | |].
  + intros t' [->|Ht']%elem_of_cons.
    * rewrite IHout, Hg1, decide_True, Hn, Ex by done. done.
    * rewrite IHin, Hg1 by done. rewrite decide_False by auto. done.
  + intros k [Hk1' Hk2]%not_elem_of_cons. rewrite IHout, Hg1 by done. by rewrite decide_False.
  + rewrite filter_cons. unfold q1. rewrite Hg1, decide_True by done. rewrite Hn.
    assert (filter (λ t, str_in x (deps t) = true ∧ dget (tid t) deg1 = Some 1%Z) l =
            filter (λ t, str_in x (deps t) = true ∧ dget (tid t) deg = Some 1%Z) l) as ->.
    { apply filter_ext_in. intros t' Ht'. rewrite Hg1, decide_False by auto. done. }
    case_bool_decide as H0; case_decide as H1.
    * by rewrite <- app_assoc.
    * exfalso. apply H1. split; [done|]. simplify_eq. f_equal. lia.
    * exfalso. destruct H1 as [_ [= ->]]. done.
    * done.
- specialize (IH deg q Hnd). destruct (foldl _ _ l) as [deg' q'].
  destruct IH as (IHk & IHin & IHout & ->). { intros. apply Hin. by right. }
  split_and!; [done| | |].
  + intros t' [->|Ht']%elem_of_cons; [|by apply IHin]. rewrite IHout, Hn, Ex by done. simpl. f_equal. lia.
  + intros k [_ Hk]%not_elem_of_cons. by apply IHout.
  + rewrite filter_cons, decide_False; [done|]. rewrite Ex. by intros [? _].
Qed.

(* ---------------------------------------------------------------- *)
(** ** The loop *)

Record kahn_inv ts deg q done : Prop := {
ki_keys : fst <$> deg = tid <$> ts;
ki_deg : ∀ t, t ∈ ts → dget (tid t) deg = Some (open_deps (tid <$> ts) done t);
ki_nodup : NoDup (done ++ q);
ki_sub : done ++ q ⊆ tid <$> ts;
ki_queue : ∀ t, t ∈ ts → tid t ∈ done ++ q ↔ open_deps (tid <$> ts) done t = 0%Z
}.

Lemma kahn_init ts :
NoDup (tid <$> ts) → kahn_inv ts (in_degree ts) (initial_queue (in_degree ts)) [].
Proof.
intros Hnd. destruct (in_degree_run ts Hnd) as [Hk Hg].
assert (∀ k, k ∈ initial_queue (in_degree ts) ↔ dget k (in_degree ts) = Some 0%Z) as Hq.
{ intros k. apply initial_queue_elem. by rewrite Hk. }
assert (∀ t, open_deps (tid <$> ts) [] t = Z.of_nat (length (inside (tid <$> ts) t))) as Ho.
{ intros t. unfold open_deps, hits. simpl. lia. }
split; [done| | | |]; simpl.
- intros t Ht. by rewrite Hg, Ho.
- apply (NoDup_filter_key fst fst); [done|]. unfold unique. by rewrite Hk.
- intros k Hin%Hq. rewrite <- Hk. apply dget_keys. eauto.
- intros t Ht. rewrite Hq, Hg, Ho by done. split; [by intros [=]|by intros ->].
Qed.

(** An enqueued task has all its in-batch dependencies done. *)
Lemma kahn_ready ts deg q done t d :
kahn_inv ts deg q done → t ∈ ts → tid t ∈ done ++ q → d ∈ deps t → d ∈ tid <$> ts → d ∈ done.
Proof.
intros [] Ht Hq Hd Hi. apply ki_queue0 in Hq; [|done]. unfold open_deps in Hq.
apply NoDup_app in ki_nodup0 as (Hnd & _ & _).
eapply (hits_all (tid <$> ts) done t); [done| |lia|done..].
intros x Hx. apply ki_sub0. apply elem_of_app. by left.
Qed.

Lemma kahn_step ts deg x q done :
NoDup (tid <$> ts) → kahn_inv ts deg (x :: q) done →
let '(deg', q') := release x deg q ts in kahn_inv ts deg' q' (done ++ [x]).
Proof.
intros Hnd Hinv. pose proof Hinv as [].
pose proof (release_run x ts deg q Hnd) as Hrel. destruct (release x deg q ts) as [deg' q'].
destruct Hrel as (Hk & Hg & _ & ->).
{ intros t Ht. rewrite ki_keys0. by apply list_elem_of_fmap_2. }
assert (∀ t, open_deps (tid <$> ts) (done ++ [x]) t =
          (open_deps (tid <$> ts) done t - (if str_in x (deps t) then 1 else 0))%Z) as Ho.
{ intros t. unfold open_deps. rewrite hits_snoc. destruct (str_in x (deps t)); lia. }
set (new := tid <$> filter _ ts).
assert (∀ k, k ∈ new ↔ ∃ t, t ∈ ts ∧ tid t = k ∧ str_in x (deps t) = true ∧
                             open_deps (tid <$> ts) done t = 1%Z) as Hnew.
{ intros k. unfold new. rewrite list_elem_of_fmap. setoid_rewrite list_elem_of_filter. split.
  - intros (t & -> & [Hx Hd] & Ht). rewrite ki_deg0 in Hd by done. simplify_eq. eauto 10.
  - intros (t & Ht & <- & Hx & Hd). exists t. rewrite ki_deg0 by done. by rewrite Hd. }
assert ((done ++ [x]) ++ q ++ new = (done ++ x :: q) ++ new) as Happ by by rewrite <- !app_assoc.
assert (x ∈ tid <$> ts) as Hx by (apply ki_sub0; set_solver).
assert (x ∉ done) as Hxd.
{ apply NoDup_app in ki_nodup0 as (_ & Hdis & _). intros Hd. apply (Hdis x Hd). left. }
split; [by rewrite Hk| | | |].
- intros t Ht. by rewrite Hg, ki_deg0, Ho by done.
- rewrite Happ. apply NoDup_app. split_and!; [done| |].
  + intros k Hk1 (t & Ht & <- & Hxt & Hd)%Hnew. apply ki_queue0 in Hk1; [lia|done].
  + by apply (NoDup_filter_key tid tid).
- rewrite Happ. intros k [Hk1|(t & Ht & <- & _)%Hnew]%elem_of_app; [by apply ki_sub0|].
  by apply list_elem_of_fmap_2.
- intros t Ht. rewrite Happ, elem_of_app, Hnew, Ho. split.
  + intros [Hq|(t' & Ht' & Heq & Hxt & Hd)].
    * assert (str_in x (deps t) = false) as ->.
      { apply bool_decide_eq_false_2. intros Hxt. apply Hxd. by eapply kahn_ready. }
      apply ki_queue0 in Hq; [lia|done].
    * assert (t' = t) as ->; [|rewrite Hxt; lia].
      pose proof (dget_task_map ts t Hnd Ht). pose proof (dget_task_map ts t' Hnd Ht'). congruence.
  + intros Hz. destruct (str_in x (deps t)) eqn:Ext; [right; exists t; split_and!; [done..|lia]|].
    left. apply ki_queue0; [done|lia].
Qed.

Lemma kahn_run ts fuel deg q r :
NoDup (tid <$> ts) → kahn_inv ts deg q (tid <$> r) → r ⊆ ts → ordered (tid <$> ts) r →
length ts < fuel + length r →
∃ r' deg', kahn fuel ts deg q r = Some r' ∧ kahn_inv ts deg' [] (tid <$> r') ∧ r' ⊆ ts ∧
  ordered (tid <$> ts) r'.
Proof.
intros Hnd. revert deg q r. induction fuel as [|fuel IH]; intros deg q r Hinv Hsub Hord Hf.
- exfalso. destruct Hinv. apply NoDup_app in ki_nodup0 as (Hr & _ & _).
  assert (length (tid <$> r) ≤ length (tid <$> ts)); [|rewrite !length_fmap in *; simpl in *; lia].
  apply NoDup_incl_length; [by apply NoDup_ListNoDup|].
  intros k. rewrite <- !list_elem_of_In. intros. apply ki_sub0, elem_of_app. by left.
- destruct q as [|x q]; simpl; [eauto 10|].
  assert (x ∈ tid <$> ts) as (t & -> & Ht)%list_elem_of_fmap.
  { apply (ki_sub _ _ _ _ Hinv), elem_of_app. right. left. }
  rewrite dget_task_map by done. pose proof (kahn_step ts deg (tid t) q _ Hnd Hinv) as Hstep.
  destruct (release (tid t) deg q ts) as [deg' q']. apply IH.
  + by rewrite fmap_app.
  + set_solver.
  + intros l1 y l2 Heq d Hd Hi.
    destruct l2 as [|z l2 _] using rev_ind.
    * apply app_inj_tail in Heq as [<- <-]. eapply kahn_ready; [exact Hinv|done| |done|done].
      apply elem_of_app. right. left.
    * rewrite app_comm_cons, app_assoc in Heq. apply app_inj_tail in Heq as [-> _]. by eapply Hord.
  + rewrite length_app. simpl. lia.
Qed.

(** The search always ends; what it returns, and the tasks it leaves out. *)
Lemma kahn_total ts :
NoDup (tid <$> ts) →
∃ r deg', kahn (S (length ts)) ts (in_degree ts) (initial_queue (in_degree ts)) [] = Some r ∧
  kahn_inv ts deg' [] (tid <$> r) ∧ r ⊆ ts ∧ ordered (tid <$> ts) r.
Proof.
intros Hnd. apply kahn_run; [done|by apply kahn_init|set_solver| |simpl; lia].
intros l1 t l2 Heq. by destruct l1.
Qed.

Lemma topological_sort_run ts :
NoDup (tid <$> ts) →
∃ r deg', kahn_inv ts deg' [] (tid <$> r) ∧ r ⊆ ts ∧ ordered (tid <$> ts) r ∧
  topological_sort ts =
    if bool_decide (length r = length ts) then Ok r
    else Err (ValueError "Cycle detected in task dependencies").
Proof.
intros Hnd. destruct (kahn_total ts Hnd) as (r & deg' & Hr & Hinv & Hsub & Hord).
exists r, deg'. split_and!; [done..|]. unfold topological_sort. rewrite Hr. by case_bool_decide.
Qed.

Lemma full_permutation ts r :
NoDup (tid <$> r) → r ⊆ ts → length r = length ts → r ≡ₚ ts.
Proof.
intros Hr Hsub Hlen. apply submseteq_length_Permutation; [|lia].
apply NoDup_submseteq; [by apply NoDup_fmap_1 in Hr|done].
Qed.

(** A sorted batch is the whole batch in dependency order: the result is
  a permutation of the tasks in which every dependency on another task of
  the batch comes before the task that needs it. *)
Theorem topological_sort_sound ts r :
NoDup (tid <$> ts) → topological_sort ts = Ok r → r ≡ₚ ts ∧ ordered (tid <$> ts) r.
Proof.
intros Hnd Hs. destruct (topological_sort_run ts Hnd) as (r' & deg' & Hinv & Hsub & Hord & Heq).
rewrite Hs in Heq. case_bool_decide as Hlen; simplify_eq. split; [|done].
apply full_permutation; [|done|done]. pose proof (ki_nodup _ _ _ _ Hinv) as Hr. by rewrite app_nil_r in Hr.
Qed.

(** Along a valid order every task gets done, unless a list repeats an entry. *)
Lemma kahn_covers ts deg' r l :
kahn_inv ts deg' [] (tid <$> r) → l ⊆ ts → ordered (tid <$> ts) l →
(∀ t, t ∈ ts → NoDup (inside (tid <$> ts) t)) → ∀ t, t ∈ l → tid t ∈ tid <$> r.
Proof.
intros Hinv Hl Hord Hdup. induction l as [|x l IH] using rev_ind; [by intros ? ?%not_elem_of_nil|].
assert (∀ t, t ∈ l → tid t ∈ tid <$> r) as IH'.
{ apply IH; [set_solver|]. intros l1 t l2 -> d Hd Hi. eapply Hord; [|done..].
  by rewrite <- app_assoc. }
intros t [Ht| ->%list_elem_of_singleton]%elem_of_app; [by apply IH'|].
assert (x ∈ ts) as Hx by set_solver. pose proof Hinv as [].
rewrite <- (app_nil_r (tid <$> r)). apply ki_queue0; [done|]. unfold open_deps.
assert (NoDup (tid <$> r)) as Hr by by rewrite app_nil_r in ki_nodup0.
assert (length (inside (tid <$> ts) x) ≤ length (hits (tid <$> r) x)) as Hle.
{ apply NoDup_incl_length; [by apply NoDup_ListNoDup, Hdup|]. intros d. rewrite <- !list_elem_of_In.
  unfold inside, hits. rewrite !list_elem_of_filter. intros [Hi Hd]. split; [done|].
  assert (d ∈ tid <$> l) as (t' & -> & Ht')%list_elem_of_fmap by by eapply (Hord l x []).
  by apply IH'. }
assert (length (hits (tid <$> r) x) ≤ length (inside (tid <$> ts) x)); [|lia].
apply hits_le; [done|]. by rewrite app_nil_r in ki_sub0.
Qed.

(** C10. The sort decides exactly the right question: it succeeds iff the
  batch has a dependency order and no task lists a member of the batch
  twice, and in every other case it raises the cycle error — also, then,
  for an acyclic batch whose only fault is a repeated [depends_on] entry. *)
Theorem topological_sort_decides ts :
NoDup (tid <$> ts) →
(is_ok (topological_sort ts) = true ↔
   (∃ l, l ≡ₚ ts ∧ ordered (tid <$> ts) l) ∧ (∀ t, t ∈ ts → NoDup (inside (tid <$> ts) t))) ∧
(is_ok (topological_sort ts) = false →
   topological_sort ts = Err (ValueError "Cycle detected in task dependencies")).
Proof.
intros Hnd. destruct (topological_sort_run ts Hnd) as (r & deg' & Hinv & Hsub & Hord & ->).
assert (NoDup (tid <$> r)) as Hr.
{ pose proof (ki_nodup _ _ _ _ Hinv) as Hr. by rewrite app_nil_r in Hr. }
split; [|by case_bool_decide]. split.
- case_bool_decide as Hlen; [intros _|done]. pose proof (full_permutation ts r Hr Hsub Hlen) as Hp.
  split; [by exists r|]. intros t Ht.
  assert (tid t ∈ tid <$> r) as Hin by (apply list_elem_of_fmap_2; by rewrite Hp).
  destruct Hinv. rewrite <- (app_nil_r (tid <$> r)) in Hin. apply ki_queue0 in Hin; [|done].
  unfold open_deps in Hin. rewrite app_nil_r in ki_sub0.
  by apply (hits_all (tid <$> ts) (tid <$> r) t); [done|done|lia].
- intros [(l & Hp & Hl) Hdup]. rewrite bool_decide_eq_true_2; [done|].
  rewrite <- (length_fmap tid r), <- (length_fmap tid ts). apply Nat.le_antisymm.
  + apply NoDup_incl_length; [by apply NoDup_ListNoDup|]. intros k. rewrite <- !list_elem_of_In.
    intros (t & -> & Ht)%list_elem_of_fmap. apply list_elem_of_fmap_2. set_solver.
  + apply NoDup_incl_length; [by apply NoDup_ListNoDup|]. intros k. rewrite <- !list_elem_of_In.
    intros (t & -> & Ht)%list_elem_of_fmap.
    eapply (kahn_covers ts deg' r l); [done|by rewrite Hp|done|done|by rewrite Hp].
Qed.
End topo.
