(* ===== verification/Dispatch.v ===== *)
(** * Publishing and updating tasks ([core/tasks_dispatch.py])

    Validation of task payloads, atomic publication of a batch, of a
    delegation and of a deterministic external event, and the declaration of
    a task's result.  The proxy to the host process (taken only when storage
    is denied to a sandbox) is not modelled.  The model catalogue and the
    workspace registry, which read the configuration, are parameters. *)

From stdpp Require Import prelude strings list gmap.
From Stdlib Require Import Ascii.
From S2P Require Import Prelude PyValue PyText Sql TaskModels TaskStore TaskBoard TaskQueue TopoSort.

(** What the checks consult outside the task system. *)
Class DispatchEnv := {
  (** [validate_model_override(anima, model)]: an error text, or none *)
  validate_model_override : string → string → option string;
  (** [str(resolve_workspace(value))] *)
  resolve_workspace : json → result string;
  (** whether the anima's directory exists *)
  anima_exists : string → bool
}.

(* ------------------------------------------------------------------ *)
(** ** Text checks *)

Definition alnum (n : nat) : bool :=
  (bool_decide (48 ≤ n) && bool_decide (n ≤ 57)) || (bool_decide (65 ≤ n) && bool_decide (n ≤ 90)) ||
  (bool_decide (97 ≤ n) && bool_decide (n ≤ 122)).
(** [A-Za-z0-9_.:#-]. *)
Definition id_char (n : nat) : bool := alnum n || bool_decide (n ∈ [95; 46; 58; 35; 45]).
(** [re.fullmatch(r"[A-Za-z0-9][A-Za-z0-9_.:#-]{0,199}", s)]. *)
Definition valid_task_id (s : string) : bool :=
  match String.list_ascii_of_string s with
  | [] => false
  | c :: cs => alnum (code c) && all (λ c, id_char (code c)) cs && bool_decide (length cs ≤ 199)
  end.

(* ------------------------------------------------------------------ *)
(** ** Payloads *)

(** [payload.get("resume") is True]. *)
Definition is_resume (p : dict) : bool :=
  match dget "resume" p with Some (JBool true) => true | _ => false end.

(** [task["task_id"]] and [task.get("depends_on", [])] of a checked payload. *)
Definition p_id (p : dict) : string :=
  match dget "task_id" p with Some (JStr s) => s | _ => "" end.
Definition p_deps (p : dict) : list string :=
  match dget_default "depends_on" (JList []) p with
  | JList l => omap str_of l
  | _ => []
  end.

(** [isinstance(payload.get(field), str) and payload[field].strip()]. *)
Definition has_text (p : dict) (field : string) : bool :=
  match dget field p with Some (JStr s) => negb (blank s) | _ => false end.

Definition check_fields (p : dict) : result unit :=
  match filter (λ f, has_text p f = false)
          (if is_resume p then ["task_id"] else ["task_id"; "title"; "description"]) with
  | [] => Ok tt
  | f :: _ => Err (ValueError ("Task missing required field: " +:+ f))
  end.

Section validation.
Context `{DispatchEnv}.

(** The workspace fields of a task ([task] is the caller's copy). *)
Definition resolve_task_workspace (task : dict) : result dict :=
let task1 := if dhas "workspace" task then dsetdefault "working_directory" (JStr "") task else task in
let wd := dget_none "working_directory" task1 in
let '(workspace, task2) :=
  if truthy wd then (wd, task1)
  else (dget_default "workspace" (JStr "") task1, dpop "workspace" task1) in
if truthy workspace then
  match resolve_workspace workspace with
  | Ok s => Ok (dset "working_directory" (JStr s) task2)
  | Err e => Err e
  end
else Ok task2.

Definition validate_payload (anima : string) (payload : json) : result dict :=
match payload with
| JObj p =>
    match check_fields p with
    | Err e => Err e
    | Ok _ =>
        if negb (valid_task_id (p_id p)) then Err (ValueError "Invalid task_id") else
        if match dget "resume" p with Some (JBool _) | None => false | Some _ => true end
        then Err (ValueError "resume must be a boolean") else
        if is_resume p then
          if negb (all (λ kv, str_in (fst kv) ["task_id"; "resume"]) p && dhas "task_id" p && dhas "resume" p)
          then Err (ValueError "Resume accepts only task_id and resume; saved execution input is immutable")
          else Ok p
        else
          let task := dsetdefault "task_type" (JStr "llm") p in
          if negb (py_eq (dget_none "task_type" task) (JStr "llm"))
          then Err (ValueError "Only LLM tasks can be published through this endpoint") else
          match dget_default "model" (JStr "") task with
          | JStr model =>
              if str_truthy model && bool_decide (is_Some (validate_model_override anima model))
              then Err (ValueError "model") else
              match resolve_task_workspace task with
              | Err e => Err e
              | Ok task' =>
                  match dget_default "depends_on" (JList []) task' with
                  | JList l =>
                      if bool_decide (is_Some (mapM str_of l)) then Ok task'
                      else Err (ValueError "depends_on must be a list of task IDs")
                  | _ => Err (ValueError "depends_on must be a list of task IDs")
                  end
              end
          | _ => Err (ValueError "Task model must be a string")
          end
    end
| _ => Err (ValueError "Each task must be an object")
end.

Fixpoint validate_each (anima : string) (payloads : list json) : result (list dict) :=
match payloads with
| [] => Ok []
| p :: rest =>
    match validate_payload anima p with
    | Err e => Err e
    | Ok t => match validate_each anima rest with Err e => Err e | Ok ts => Ok (t :: ts) end
    end
end.

(** Dependencies restricted to the batch, as the sort receives them. *)
Definition batch_deps (prepared : list dict) (t : dict) : list string :=
filter (λ d, d ∈ p_id <$> prepared) (p_deps t).

Definition validate_task_dependencies (prepared : list dict) (known_ids : list string)
  (check_membership : bool) : result unit :=
let ids := p_id <$> prepared in
if negb (bool_decide (length (remove_dups ids) = length prepared))
then Err (ValueError "Duplicate task_id found in batch") else
if check_membership && any (λ t, any (λ d, negb (str_in d (ids ++ known_ids))) (p_deps t)) prepared
then Err (ValueError "Task depends on unknown task_id") else
match topological_sort p_id (batch_deps prepared) prepared with
| Ok _ => Ok tt
| Err e => Err e
end.

Definition validate_task_payloads (anima : string) (payloads : list json) (known_ids : list string)
  (check_dependencies_ : bool) : result (list dict) :=
match payloads with
| [] => Err (ValueError "At least one task is required")
| _ =>
    match validate_each anima payloads with
    | Err e => Err e
    | Ok prepared =>
        match validate_task_dependencies prepared known_ids check_dependencies_ with
        | Err e => Err e
        | Ok _ => Ok prepared
        end
    end
end.
End validation.

(* ------------------------------------------------------------------ *)
(** ** Publication *)

(** [view[k]]. *)
Definition view_item (k : string) (view : list (string * TaskEntry)) : result TaskEntry :=
  match dget k view with Some e => Ok e | None => Err (KeyError k) end.

Section publication.
Context `{Oracle, DispatchEnv}.

(** The saved inputs of the payloads that ask for a resume. *)
Fixpoint resume_originals (anima : string) (existing : list (string * TaskEntry)) (prepared : list dict) :
  M world (list (string * dict)) :=
match prepared with
| [] => mret []
| p :: rest =>
    if is_resume p then
      original ← get_input anima (p_id p);
      match dget (p_id p) existing, original with
      | None, _ => raise (ValueError ("Task not found: " +:+ p_id p))
      | Some _, None => raise (ValueError ("Task has no saved execution input: " +:+ p_id p))
      | Some previous, Some o =>
          if negb (bool_decide (status previous = "pending"))
          then raise (ValueError "Only an ended pending task may be resumed.")
          else
            _ ← lift (validate_task_payloads anima [JObj o] [] false);
            others ← resume_originals anima existing rest;
            mret ((p_id p, o) :: others)
      end
    else resume_originals anima existing rest
end.

Definition carried_meta (m payload : dict) : dict :=
dmerge m (omap (λ k, (λ v, (k, v)) <$> dget k payload) ["model"; "batch_id"; "depends_on"; "parallel"]).

Definition publish_one (anima : string) (src : task_source) (m : dict)
  (existing : list (string * TaskEntry)) (originals : list (string * dict)) (p : dict) :
  M world TaskEntry :=
if is_resume p then
  match dget (p_id p) existing, dget (p_id p) originals with
  | Some previous, Some original =>
      _ ← submit anima previous original true;
      view ← read anima false;
      lift (view_item (p_id p) view)
  | _, _ => raise (KeyError (p_id p))
  end
else
  _ ← submit_payload anima p src (carried_meta m p) false;
  view ← read anima true;
  lift (view_item (p_id p) view).

Fixpoint publish_loop (anima : string) (src : task_source) (m : dict)
  (existing : list (string * TaskEntry)) (originals : list (string * dict)) (prepared : list dict) :
  M world (list TaskEntry) :=
match prepared with
| [] => mret []
| p :: rest =>
    e ← publish_one anima src m existing originals p;
    es ← publish_loop anima src m existing originals rest;
    mret (e :: es)
end.

Definition publish_tasks (anima : string) (payloads : list json) (src : task_source) (m : dict) :
  M world (list TaskEntry) :=
prepared ← lift (validate_task_payloads anima payloads [] false);
transaction (
  existing ← read anima true;
  originals ← resume_originals anima existing prepared;
  _ ← lift (validate_task_dependencies ((λ p, default p (dget (p_id p) originals)) <$> prepared)
              (fst <$> existing) true);
  publish_loop anima src m existing originals prepared).

Definition publish_delegation (target : string) (payload : dict) (delegator tracking : string) :
  M world bool :=
prepared ← lift (validate_task_payloads target [JObj payload] [] true);
match prepared with
| p :: _ =>
    let p' := dsetdefault "relay_chain" (JList [JStr delegator]) p in
    transaction (
      _ ← submit_payload target p' SrcAnima [("model", dget_default "model" (JStr "") payload)] false;
      _ ← alias delegator tracking target (p_id payload);
      mret false)
| [] => raise (KeyError "0")
end.

Definition direct_task_desc (tid title instruction submitted_by now : string) (model : option string) : dict :=
let base :=
  [("task_type", JStr "llm"); ("task_id", JStr tid); ("title", JStr title);
   ("description", JStr instruction); ("context", JStr ""); ("acceptance_criteria", JList []);
   ("constraints", JList []); ("file_paths", JList []); ("submitted_by", JStr submitted_by);
   ("submitted_at", JStr now); ("reply_to", JStr ""); ("source", JStr "delegation");
   ("working_directory", JStr "")] in
if str_truthy (default "" model) then dset "model" (JStr (default "" model)) base else base.

Definition dispatch_direct_task (target tid title instruction submitted_by : string) (m : dict)
  (model : option string) : M world bool :=
if negb (anima_exists target) then raise (ValueError ("Anima directory not found: " +:+ target)) else
let m1 := dset "executor" (JStr "taskexec") (dset "origin" (JStr "github-event") m) in
let task_meta := if str_truthy (default "" model) then dset "model" (JStr (default "" model)) m1 else m1 in
now ← now_iso;
prepared ← lift (validate_task_payloads target
             [JObj (direct_task_desc tid title instruction submitted_by now model)] [] true);
match prepared with
| p :: _ =>
    transaction (
      known ← get_task_by_id target tid;
      match known with
      | Some _ => mret false
      | None => _ ← submit_payload target p SrcAnima task_meta false; mret true
      end)
| [] => raise (KeyError "0")
end.

(** The metadata a declaration of completion records. *)
Definition declaration_meta (st : string) (summary_ : option string) : M world dict :=
if bool_decide (st = "done") then
  now ← now_iso;
  mret ([("completed_by", JStr "agent_declaration"); ("declared_at", JStr now)] ++
        from_option (λ s, [("result_note", JStr s)]) [] summary_)
else mret [].

Definition update_task (anima tid st : string) (summary_ result_ : option string) (resume_ : bool) :
  M world (option TaskEntry) :=
if resume_ && negb (bool_decide (st = "pending"))
then raise (ValueError "resume requires status='pending'") else
if negb (str_in st ["pending"; "delegated"; "done"; "cancelled"])
then raise (ValueError ("Invalid task update status: " +:+ st)) else
let sm := match result_ with Some r => Some r | None => summary_ end in
m ← declaration_meta st sm;
transaction (
  declared ← (if truthy (JObj m)
              then r ← update_meta anima tid m sm; mret (bool_decide (is_Some r))
              else mret true);
  if negb declared then mret None else
  entry ← update_status anima tid st sm;
  match entry with
  | None => mret None
  | Some e =>
      if resume_ then e' ← resume anima tid; mret (Some e') else mret (Some e)
  end).
End publication.
