(* ===== verification/DispatchProps.v ===== *)
(** * What publication guarantees

    Validated batches are well formed and acyclic; publication is
    all-or-nothing and leaves every task of the batch with saved execution
    input; a deterministic task is dispatched at most once; a delegation is
    visible to the delegator; a declared completion reaches the canonical
    record and the board. *)

From stdpp Require Import prelude strings list gmap relations.
From S2P Require Import Prelude PyValue Sql TaskModels TaskStore TaskStoreInv TaskStoreProps TaskLifecycle TaskBoard TaskQueue TaskQueueProps TopoSort Dispatch.

(* ------------------------------------------------------------------ *)
(** ** Validation *)

Lemma dget_dsetdefault {V} k k' (v : V) d : k ≠ k' → dget k (dsetdefault k' v d) = dget k d.
Proof. intros Hne. unfold dsetdefault. case_match; [done|]. by rewrite dget_dset_ne. Qed.

Lemma remove_dups_le {A} `{!EqDecision A} (l : list A) : length (remove_dups l) ≤ length l.
Proof. induction l as [|x l IH]; simpl; [done|]. case_decide; simpl; lia. Qed.

Lemma length_remove_dups {A} `{!EqDecision A} (l : list A) :
  length (remove_dups l) = length l → NoDup l.
Proof.
  induction l as [|x l IH]; simpl; [constructor|]. pose proof (remove_dups_le l).
  case_decide as Hx; simpl in *; [lia|]. intros Heq. apply NoDup_cons. split; [done|]. apply IH. lia.
Qed.

Section validation.
Context `{DispatchEnv}.

Lemma resolve_task_workspace_get task t k :
resolve_task_workspace task = Ok t → k ≠ "working_directory" → k ≠ "workspace" → dget k t = dget k task.
Proof.
unfold resolve_task_workspace. intros Hr H1 H2.
set (task1 := if dhas "workspace" task then _ else task) in *.
assert (dget k task1 = dget k task) as Ht1.
{ unfold task1. destruct (dhas _ _); [by apply dget_dsetdefault|done]. }
rewrite <- Ht1. clearbody task1.
destruct (truthy (dget_none "working_directory" task1)); simpl in Hr.
all: repeat case_match; simplify_eq; rewrite ?dget_dset_ne by done; try done.
all: by rewrite dget_dpop_ne.
Qed.

Lemma validate_payload_id anima j t :
validate_payload anima j = Ok t →
∃ p, j = JObj p ∧ dget "task_id" t = dget "task_id" p ∧ valid_task_id (p_id t) = true.
Proof.
destruct j as [| | | | | |p]; simpl; try done. intros Hv. exists p. split; [done|].
destruct (check_fields p); [|done]. destruct (valid_task_id (p_id p)) eqn:Eid; simpl in Hv; [|done].
case_match; [done|].
assert (dget "task_id" t = dget "task_id" p) as Hget.
{ case_match; [repeat case_match; by simplify_eq|].
  repeat (case_match; [|done] || case_match; [done|]); simplify_eq.
  all: repeat (case_match; try done); simplify_eq.
  all: erewrite resolve_task_workspace_get by done; by apply dget_dsetdefault. }
split; [done|]. unfold p_id in *. by rewrite Hget.
Qed.

Lemma validate_each_run anima ps ts :
validate_each anima ps = Ok ts →
length ts = length ps ∧ Forall (λ t, valid_task_id (p_id t) = true) ts ∧
Forall2 (λ j t, validate_payload anima j = Ok t) ps ts.
Proof.
revert ts. induction ps as [|p ps IH]; intros ts; simpl; [intros [= <-]; done|].
destruct (validate_payload anima p) as [t|] eqn:Ep; [|done].
destruct (validate_each anima ps) as [ts'|]; [|done]. intros [= <-].
destruct (IH ts') as (Hl & Hv & H2); [done|]. split_and!; [simpl; lia| |by constructor].
constructor; [|done]. by apply validate_payload_id in Ep as (? & _ & _ & ?).
Qed.

Lemma validate_dependencies_run ts known chk :
validate_task_dependencies ts known chk = Ok tt →
NoDup (p_id <$> ts) ∧
(chk = true → ∀ t d, t ∈ ts → d ∈ p_deps t → d ∈ (p_id <$> ts) ++ known) ∧
∃ l, l ≡ₚ ts ∧ ordered p_id p_deps (p_id <$> ts) l.
Proof.
unfold validate_task_dependencies. case_bool_decide as Hdup; simpl; [|done].
assert (NoDup (p_id <$> ts)) as Hnd.
{ apply length_remove_dups. by rewrite length_fmap. }
destruct (chk && _) eqn:Emem; [done|].
destruct (topological_sort p_id (batch_deps ts) ts) as [l|] eqn:Et; [|done]. intros _.
split_and!; [done| |].
- intros -> t d Ht Hd. simpl in Emem. rewrite any_false in Emem. specialize (Emem t Ht).
  rewrite any_false in Emem. specialize (Emem d Hd). apply negb_false_iff, bool_decide_eq_true in Emem. done.
- exists l. pose proof (topological_sort_run p_id (batch_deps ts) ts Hnd) as (r & deg' & Hinv & Hsub & Hord & Heq).
  rewrite Et in Heq. case_bool_decide as Hlen; simplify_eq. split.
  + eapply full_permutation; [|done|done]. pose proof (ki_nodup _ _ _ _ _ _ Hinv) as Hr.
    by rewrite app_nil_r in Hr.
  + intros l1 t l2 -> d Hd Hi. eapply Hord; [done| |done]. by apply list_elem_of_filter.
Qed.

(** C11. A batch that passes validation is well formed: one prepared task per
  payload, with a legal identifier, no identifier twice, every dependency
  known when that is checked, and an order of the whole batch in which
  every dependency on another task of the batch comes first. *)
Theorem validated_batch anima ps known chk ts :
validate_task_payloads anima ps known chk = Ok ts →
ts ≠ [] ∧ length ts = length ps ∧
Forall (λ t, valid_task_id (p_id t) = true) ts ∧ NoDup (p_id <$> ts) ∧
(chk = true → ∀ t d, t ∈ ts → d ∈ p_deps t → d ∈ (p_id <$> ts) ++ known) ∧
∃ l, l ≡ₚ ts ∧ ordered p_id p_deps (p_id <$> ts) l.
Proof.
unfold validate_task_payloads. destruct ps as [|p ps]; [done|].
destruct (validate_each anima (p :: ps)) as [ts'|] eqn:Ev; [|done].
destruct (validate_task_dependencies ts' known chk) as [[]|] eqn:Ed; [|done]. intros [= <-].
apply validate_each_run in Ev as (Hl & Hv & _). apply validate_dependencies_run in Ed as (Hnd & Hk & Ho).
split_and!; try done. by intros ->.
Qed.
End validation.

(* ------------------------------------------------------------------ *)
(** ** Publishing inside a transaction *)

(** The rows after publishing [entry] with [payload]. *)
Definition row_at (k : string * string) (d : db) : option task_row := select_key task_key k (tasks d).

(** What one publication under [k] does to the database: it touches that row
    only and leaves it with saved input; a row that had none gets [payload]. *)
Record publishes (k : string * string) (payload : dict) (fresh : bool) (d d' : db) : Prop := {
  pb_inv : inv d';
  pb_aliases : task_aliases d' = task_aliases d;
  pb_other : ∀ k', k' ≠ k → row_at k' d' = row_at k' d;
  pb_row : ∃ r, row_at k d' = Some r ∧ is_Some (row_input r) ∧
    (fresh = true → (∀ r0, row_at k d = Some r0 → row_input r0 = None) →
       row_input r = Some payload ∧ row_ready r = true ∧ row_current r = None ∧
       status (row_entry r) = "pending")
}.

Section nested.
Context `{Oracle}.

Definition publish_rows (anima : string) (entry : TaskEntry) (payload : dict) (now : string)
  (t : list task_row) : list task_row :=
let e := set_updated_at now (set_status "pending" entry) in
upsert task_key (mk_task anima (task_id entry) e (Some payload) true None false)
  (λ r, set_row_archived false (set_row_ready true (set_row_input (Some payload) (set_row_entry e r)))) t.

Lemma submit_cases anima entry payload res w b w' :
w_conn w = Some ReadWrite → inv (w_db w) → submit anima entry payload res w = (Ok b, w') →
w_conn w' = Some ReadWrite ∧ task_aliases (w_db w') = task_aliases (w_db w) ∧
((∃ now, tasks (w_db w') = publish_rows anima entry payload now (tasks (w_db w)) ∧
    (∀ r, row_at (anima, task_id entry) (w_db w) = Some r → row_current r = None)) ∨
 (tasks (w_db w') = tasks (w_db w) ∧
    ∃ r, row_at (anima, task_id entry) (w_db w) = Some r ∧ is_Some (row_input r))).
Proof.
intros Hc Hd. unfold submit, transaction, row_at. destruct (negb _); [done|]. rewrite Hc.
body_cases; intros; simplify_eq/=; split_and!; try done.
all: breflect.
all: try (left; eexists; split; [reflexivity|]; intros; simplify_eq; by apply eq_None_not_Some).
all: right; split; [done|]; eexists; split; [done|].
all: try done.
all: match goal with E : select_key _ _ _ = Some ?r |- _ =>
       apply (selected_ok _ _ _ Hd) in E as []; auto end.
Qed.

Lemma submit_nested anima entry payload res w b w' :
w_conn w = Some ReadWrite → inv (w_db w) → submit anima entry payload res w = (Ok b, w') →
w_conn w' = Some ReadWrite ∧ publishes (anima, task_id entry) payload true (w_db w) (w_db w').
Proof.
intros Hc Hd Hrun.
assert (inv (w_db w')) as Hd'.
{ pose proof (submit_keeps anima entry payload res w Hd) as Hx. by rewrite Hrun in Hx. }
destruct (submit_cases _ _ _ _ _ _ _ Hc Hd Hrun) as (Hc' & Ha' & [(now & Ht & Hidle)|(Ht & r & Hr & Hin)]).
- split; [done|]. split; [done..| |]; unfold row_at in *; rewrite Ht.
  + intros k' Hk'. unfold publish_rows. rewrite select_upsert by done. by rewrite decide_False.
  + unfold publish_rows. rewrite select_upsert, decide_True by done. eexists. split; [done|].
    change (task_key (mk_task anima (task_id entry) _ _ _ _ _)) with (anima, task_id entry).
    destruct (select_key task_key (anima, task_id entry) (tasks (w_db w))) as [r|] eqn:E; [|eauto].
    simpl. rewrite (Hidle r) by done. eauto.
- split; [done|]. split; [done..| |]; unfold row_at in *; rewrite Ht; [done|].
  exists r. split_and!; [done..|]. intros _ Hno. rewrite (Hno r Hr) in Hin. by destruct Hin.
Qed.

Lemma publishes_weaken k p q d d' : publishes k p true d d' → publishes k q false d d'.
Proof. intros [? ? ? (r & ? & ? & _)]. split; [done..|]. exists r. by split_and!. Qed.

Lemma reader_nested {A} (f : db → A) w :
w_conn w ≠ None → reader (query f) w = (Ok (f (w_db w)), w).
Proof. unfold reader. by destruct (w_conn w). Qed.

Lemma build_task_entry_id src i a sm c t m st w e w' :
str_truthy (default "" t) = true → build_task_entry src i a sm c t m st w = (Ok e, w') →
task_id e = default "" t.
Proof.
intros Ht. unfold build_task_entry, fresh_id. rewrite Ht. destruct (negb _); [done|].
body_unfold. by intros [= <- _].
Qed.

Lemma submit_payload_nested anima p src m res w e w' s :
w_conn w = Some ReadWrite → inv (w_db w) → dget "task_id" p = Some (JStr s) → str_truthy s = true →
submit_payload anima p src m res w = (Ok e, w') →
w_conn w' = Some ReadWrite ∧ publishes (anima, s) p true (w_db w) (w_db w').
Proof.
intros Hc Hd Hid Hs. unfold submit_payload, item. rewrite Hid. body_unfold. simpl.
destruct (relay_chain_of _) as [chain|]; [|done].
destruct (build_task_entry _ _ _ _ _ _ _ _ w) as [[entry|] w1] eqn:Eb; [|done].
pose proof (build_task_entry_id _ _ _ _ _ (Some s) _ _ _ _ _ Hs Eb) as Hent. simpl in Hent.
apply build_task_entry_run in Eb as (Hdb1 & Hc1 & _). rewrite Hc in Hc1.
destruct (submit anima entry p res w1) as [[b|] w2] eqn:Es; [|done].
apply submit_nested in Es as [Hc2 Hp]; [|done|by rewrite Hdb1].
rewrite Hdb1, Hent in Hp. unfold read. rewrite reader_nested by (by rewrite Hc2).
intros [= _ <-]. done.
Qed.
End nested.

(** A payload with the identifier it is published under. *)
Definition identified (p : dict) : Prop :=
  dget "task_id" p = Some (JStr (p_id p)) ∧ str_truthy (p_id p) = true.

Lemma valid_identified p : valid_task_id (p_id p) = true → identified p.
Proof.
  unfold identified, p_id. destruct (dget "task_id" p) as [[]|]; try done.
  intros Hv. split; [done|]. by destruct s.
Qed.

(** What a published task must look like afterwards. *)
Definition published_task (anima : string) (d d' : db) (p : dict) : Prop :=
  ∃ r, row_at (anima, p_id p) d' = Some r ∧ is_Some (row_input r) ∧
    (is_resume p = false → (∀ r0, row_at (anima, p_id p) d = Some r0 → row_input r0 = None) →
       row_input r = Some p ∧ row_ready r = true ∧ row_current r = None ∧
       status (row_entry r) = "pending").

Section batch.
Context `{Oracle, DispatchEnv}.

Lemma publish_one_run anima src m existing originals p w e w' :
w_conn w = Some ReadWrite → inv (w_db w) → identified p →
(∀ k x, dget k existing = Some x → task_id x = k) →
publish_one anima src m existing originals p w = (Ok e, w') →
w_conn w' = Some ReadWrite ∧ publishes (anima, p_id p) p (negb (is_resume p)) (w_db w) (w_db w').
Proof.
intros Hc Hd [Hid Hs] Hex. unfold publish_one. destruct (is_resume p).
- destruct (dget (p_id p) existing) as [prev|] eqn:Ee; [|done].
  destruct (dget (p_id p) originals) as [orig|]; [|done]. body_unfold.
  destruct (submit anima prev orig true w) as [[b|] w1] eqn:Es; [|done].
  apply submit_nested in Es as [Hc1 Hp]; [|done..]. rewrite (Hex _ _ Ee) in Hp.
  unfold read. rewrite reader_nested by (by rewrite Hc1). intros [= _ <-].
  split; [done|]. by eapply publishes_weaken.
- body_unfold. destruct (submit_payload anima p src _ false w) as [[x|] w1] eqn:Es; [|done].
  eapply submit_payload_nested in Es as [Hc1 Hp]; [|done..].
  unfold read. rewrite reader_nested by (by rewrite Hc1). by intros [= _ <-].
Qed.

Lemma publish_loop_run anima src m existing originals ps w es w' :
w_conn w = Some ReadWrite → inv (w_db w) → Forall identified ps → NoDup (p_id <$> ps) →
(∀ k x, dget k existing = Some x → task_id x = k) →
publish_loop anima src m existing originals ps w = (Ok es, w') →
length es = length ps ∧
(∀ k, (∀ p, p ∈ ps → k ≠ (anima, p_id p)) → row_at k (w_db w') = row_at k (w_db w)) ∧
(∀ p, p ∈ ps → published_task anima (w_db w) (w_db w') p).
Proof.
intros Hc Hd Hids Hnd Hex. revert w es Hc Hd Hids Hnd.
induction ps as [|p ps IH]; intros w es Hc Hd Hids Hnd; simpl.
{ intros [= <- <-]. split_and!; [done..|by intros ? ?%not_elem_of_nil]. }
apply Forall_cons in Hids as [Hp Hids]. rewrite fmap_cons in Hnd. apply NoDup_cons in Hnd as [Hnot Hnd].
body_unfold. destruct (publish_one anima src m existing originals p w) as [[e|] w1] eqn:E1; [|done].
apply publish_one_run in E1 as [Hc1 [Hd1 _ Hother (r & Hr & Hin & Hnew)]]; [|done..].
destruct (publish_loop anima src m existing originals ps w1) as [[es'|] w2] eqn:E2; [|done].
intros [= <- <-]. destruct (IH w1 es' Hc1 Hd1 Hids Hnd E2) as (Hlen & Hframe & Hpub).
assert (∀ q, q ∈ ps → p_id q ≠ p_id p) as Hne.
{ intros q Hq Heq. apply Hnot. rewrite <- Heq. by apply list_elem_of_fmap_2. }
split_and!; [simpl; lia| |].
- intros k Hk. rewrite Hframe by (intros; apply Hk; by right). apply Hother, Hk. left.
- intros q [->|Hq]%elem_of_cons.
  + exists r. rewrite Hframe by (intros q Hq [= Heq]; by apply (Hne q)).
    split_and!; [done..|]. intros Hres. rewrite Hres in Hnew. auto.
  + destruct (Hpub q Hq) as (rq & Hrq & Hinq & Hnewq). exists rq. split_and!; [done..|].
    intros Hres Hnone. apply Hnewq; [done|]. intros r0. rewrite Hother; [apply Hnone|].
    intros [= Heq]. by apply (Hne q).
Qed.

Lemma resume_originals_state anima existing ps w v w' :
w_conn w = Some ReadWrite → resume_originals anima existing ps w = (v, w') → w' = w.
Proof.
intros Hc. revert v w'. induction ps as [|p ps IH]; intros v w'; cbn [resume_originals]; [by intros [= _ <-]|].
destruct (is_resume p); [|apply IH]. unfold get_input. run_unfold.
rewrite reader_nested by (by rewrite Hc).
destruct (dget (p_id p) existing) as [prev|]; [|by intros [= _ <-]].
match goal with |- context [match ?x with Some _ => _ | None => _ end] => destruct x as [o|] end;
  [|by intros [= _ <-]].
destruct (negb _); [by intros [= _ <-]|].
destruct (validate_task_payloads anima [JObj o] [] false); [|by intros [= _ <-]].
destruct (resume_originals anima existing ps w) as [v1 w1]. rewrite (IH v1 w1 eq_refl).
by destruct v1; intros [= _ <-].
Qed.

(** C12. Publishing a batch is all-or-nothing: when it raises the database is
  exactly as before; when it returns, there is one entry per task, every
  task of the batch has saved execution input, one that had none is now
  scheduled, pending and idle with exactly the submitted input, and no
  task outside the batch was touched. *)
Theorem publish_tasks_atomic anima payloads src m w v w' :
w_conn w = None → inv (w_db w) → publish_tasks anima payloads src m w = (v, w') →
match v with
| Err _ => w_db w' = w_db w
| Ok es =>
    ∃ ps, validate_task_payloads anima payloads [] false = Ok ps ∧ length es = length ps ∧
      (∀ p, p ∈ ps → published_task anima (w_db w) (w_db w') p) ∧
      (∀ k, (∀ p, p ∈ ps → k ≠ (anima, p_id p)) → row_at k (w_db w') = row_at k (w_db w))
end.
Proof.
intros Hc Hd. unfold publish_tasks. run_unfold.
destruct (validate_task_payloads anima payloads [] false) as [ps|e] eqn:Ev; [|by intros [= <- <-]].
destruct v as [es|e]; [|by intros ?%transaction_err]. intros (w1 & Hb & ->)%transaction_ok; [|done].
exists ps. split; [done|]. revert Hb. run_unfold. unfold read. rewrite reader_nested by done.
destruct (resume_originals _ _ _ _) as [[originals|] w2] eqn:Er; [|done].
apply resume_originals_state in Er as ->; [|done].
destruct (validate_task_dependencies _ _ _) as [[]|]; [|done].
intros Hloop%publish_loop_run; [|done|done| | |].
- destruct Hloop as (? & ? & ?). done.
- unfold validate_task_payloads in Ev. destruct payloads; [done|].
  destruct (validate_each _ _) as [ts|] eqn:E; [|done]. destruct (validate_task_dependencies _ _ _); simplify_eq.
  apply validate_each_run in E as (_ & Hv & _). eapply Forall_impl; [exact Hv|]. apply valid_identified.
- unfold validate_task_payloads in Ev. destruct payloads; [done|].
  destruct (validate_each _ _) as [ts|] eqn:E; [|done].
  destruct (validate_task_dependencies _ _ _) as [[]|] eqn:Ed; simplify_eq.
  by apply validate_dependencies_run in Ed as (? & _).
- intros k x Hx. by eapply read_view_id.
Qed.
End batch.

(* ------------------------------------------------------------------ *)
(** ** Single tasks *)

Lemma validated_single `{DispatchEnv} anima p known chk ts :
  validate_task_payloads anima [JObj p] known chk = Ok ts →
  ∃ t, ts = [t] ∧ p_id t = p_id p ∧ identified t.
Proof.
  unfold validate_task_payloads. cbn [validate_each].
  destruct (validate_payload anima (JObj p)) as [t|] eqn:Ep; [|done].
  destruct (validate_task_dependencies _ _ _); [|done]. intros [= <-]. exists t.
  apply validate_payload_id in Ep as (p' & [= <-] & Hget & Hv). split_and!; [done| |by apply valid_identified].
  unfold p_id. by rewrite Hget.
Qed.

Lemma row_published d k r : row_at k d = Some r → is_Some (row_input r) → published (phase_at k d).
Proof.
  unfold row_at, phase_at. intros -> [p Hp]. unfold phase_of_row. rewrite Hp.
  destruct (row_current r); [done|]. by destruct (row_ready r).
Qed.

Section single.
Context `{Oracle, DispatchEnv}.

Lemma alias_nested viewer aid anima tid w w' :
w_conn w = Some ReadWrite → alias viewer aid anima tid w = (Ok tt, w') →
tasks (w_db w') = tasks (w_db w) ∧
∃ a, select_key alias_key (viewer, aid) (task_aliases (w_db w')) = Some a ∧
     al_anima a = anima ∧ al_task_id a = tid.
Proof.
intros Hc. unfold alias, transaction. rewrite Hc. body_unfold.
unfold insert_or_ignore. change (alias_key (mk_alias viewer aid anima tid)) with (viewer, aid).
destruct (select_key alias_key (viewer, aid) (task_aliases (w_db w))) as [a|] eqn:Ea.
- destruct (bool_decide _) eqn:Eb; simpl; [|done]. apply bool_decide_eq_true in Eb as [= Ha Ht].
  intros [= <-]. cbn [snd w_db set_db set_aliases task_aliases tasks].
  change (alias_key (mk_alias viewer aid (al_anima a) (al_task_id a))) with (viewer, aid). rewrite ?Ea.
  split; [done|]. exists a. by rewrite ?Ea.
- cbn [fst snd]. intros [= <-]. cbn [w_db set_db set_aliases task_aliases tasks].
  change (alias_key (mk_alias viewer aid anima tid)) with (viewer, aid). rewrite Ea.
  split; [done|]. rewrite select_app, Ea. simpl.
  rewrite bool_decide_eq_true_2 by done. eauto.
Qed.

(** A deterministic task is dispatched once: after a dispatch under an
  identifier has reported True, and any operations of any processes since,
  no dispatch under that identifier publishes again; the database stays as
  it is. *)
Theorem direct_dispatch_once target tid title instr by_ m model title' instr' by' m' model' w w1 w2 :
w_conn w = None → inv (w_db w) →
dispatch_direct_task target tid title instr by_ m model w = (Ok true, w1) →
rtc step (w_db w1) (w_db w2) → w_conn w2 = None →
select_key alias_key (target, tid) (task_aliases (w_db w2)) = None →
val_of (dispatch_direct_task target tid title' instr' by' m' model' w2) ≠ Ok true ∧
w_db (state_of (dispatch_direct_task target tid title' instr' by' m' model' w2)) = w_db w2.
Proof.
intros Hc Hd Hrun Hrtc Hc2 Hal.
assert (inv (w_db w1) ∧ published (phase_at (target, tid) (w_db w1))) as [Hd1 Hp1].
{ revert Hrun. unfold dispatch_direct_task. destruct (negb _); [done|]. run_unfold. unfold now_iso.
  destruct (validate_task_payloads _ _ _ _) as [ts|] eqn:Ev; [|done].
  apply validated_single in Ev as (t & -> & Hid & [Hget Hs]).
  assert (p_id t = tid) as Ht.
  { rewrite Hid. unfold p_id, direct_task_desc. by destruct (str_truthy (default "" model)). }
  rewrite Ht in *. intros (w3 & Hb & ->)%transaction_ok; [|done]. revert Hb.
  unfold get_task_by_id, get_task. rewrite reader_nested by done.
  destruct (get_view _ _ _); [done|].
  destruct (submit_payload _ _ _ _ _ _) as [[e|] w4] eqn:Es; [|done].
  eapply submit_payload_nested in Es as [_ [Hi _ _ (r & Hr & Hin & _)]]; [|done..].
  intros [= <-]. split; [done|]. by eapply row_published. }
destruct (published_forever _ _ _ Hrtc Hd1 Hp1) as [Hd2 Hp2].
apply published_input in Hp2 as (r & Hr & _); [|done].
unfold dispatch_direct_task. destruct (negb _); [done|]. run_unfold. unfold now_iso.
destruct (validate_task_payloads _ _ _ _) as [ts|] eqn:Ev; [|done].
apply validated_single in Ev as (t & -> & _ & _).
match goal with |- context [transaction ?b ?w3] =>
  destruct (transaction_run b w3 false (begin_write w3)) as [Hv Hdb]; [done| |] end.
{ unfold get_task_by_id, get_task. rewrite reader_nested by done. simpl.
  by rewrite (get_view_own _ _ _ r). }
rewrite Hv, Hdb. by split.
Qed.

(** A delegation is published together with the delegator's view of it,
  or not at all: when it raises the database is as before; when it returns,
  the task has saved input with its owner, and the delegator finds it under
  the tracking identifier, shown as delegated while unfinished, with the
  owner, the owner's identifier and the real status in its metadata. *)
Theorem publish_delegation_visible target payload delegator tracking w v w' :
w_conn w = None → inv (w_db w) → delegator ≠ target →
publish_delegation target payload delegator tracking w = (v, w') →
match v with
| Err _ => w_db w' = w_db w
| Ok _ =>
    ∃ r e, row_at (target, p_id payload) (w_db w') = Some r ∧ is_Some (row_input r) ∧
      val_of (get_task delegator tracking w') = Ok (Some e) ∧ task_id e = tracking ∧
      status e = (if str_in (status (row_entry r)) ["pending"; "in_progress"] then "delegated"
                  else status (row_entry r)) ∧
      dget "delegated_to" (meta e) = Some (JStr target) ∧
      dget "delegated_task_id" (meta e) = Some (JStr (p_id payload)) ∧
      dget "delegated_status" (meta e) = Some (JStr (status (row_entry r)))
end.
Proof.
intros Hc Hd Hne. unfold publish_delegation. run_unfold.
destruct (validate_task_payloads target [JObj payload] [] true) as [ts|e] eqn:Ev; [|by intros [= <- <-]].
apply validated_single in Ev as (t & -> & Hid & [Hget Hs]).
destruct v as [b|e]; [|by intros ?%transaction_err]. intros (w1 & Hb & Hdb)%transaction_ok; [|done].
revert Hb. destruct (submit_payload _ _ _ _ _ _) as [[e|] w2] eqn:Es; [|done].
eapply submit_payload_nested in Es as [Hc2 [Hi _ _ (r & Hr & Hin & _)]];
  [|done|done|by rewrite dget_dsetdefault|done].
destruct (alias _ _ _ _ w2) as [[[]|] w3] eqn:Ea; [|done]. intros [= _ <-].
apply alias_nested in Ea as (Ht & a & Hsel & Haa & Hat); [|done].
assert (row_at (target, p_id payload) (w_db w') = Some r) as Hrow.
{ unfold row_at in *. by rewrite Hdb, Ht, <- Hid. }
exists r, (delegated_view target (p_id payload) tracking (row_entry r)).
split_and!; [done|done| |..].
- unfold get_task. rewrite reader_query. f_equal. rewrite Hdb in *.
  rewrite (get_view_alias _ _ _ a Hsel) by congruence. unfold alias_view, row_visible. simpl.
  unfold row_at in Hrow. rewrite Haa, Hat, Hrow.
  by apply select_key_Some in Hsel as [_ [= _ ->]].
- unfold delegated_view. by case_match.
- unfold delegated_view. by case_match.
- unfold delegated_view. case_match; simpl; by rewrite !dget_dset.
- unfold delegated_view. case_match; simpl; by rewrite !dget_dset.
- unfold delegated_view. case_match; simpl; by rewrite !dget_dset.
Qed.
End single.

(* ------------------------------------------------------------------ *)
(** ** Declaring a result *)

Section declare.
Context `{Oracle, DispatchEnv}.

Lemma append_keeps anima ev : within (on_db keeps_inv) (append anima ev).
Proof. unfold append, locked_queue, append_unlocked. apply within_transaction. apply apply_keeps. Qed.

(** Writing an accepted update keeps the invariant. *)
Lemma written_inv anima tid st sm mp r b w :
inv (w_db w) → identity_result w = Ok None → owns anima tid r (w_db w) →
refuses r (if b : bool then st else status (row_entry r)) = false →
inv (w_db (written anima tid st sm mp r b w)).
Proof.
intros Hd Hi Hown Href. set (w0 := set_conn (Some ReadWrite) w).
pose proof (append_keeps anima (EvUpdate tid (if b then Some st else None) sm (Some (now_at (w_clock w))) mp) w0 Hd)
  as Hk.
rewrite (append_update_own _ _ _ _ _ _ _ r) in Hk; [exact Hk|done|done|done|done|].
by destruct b.
Qed.

Definition callback_for (anima tid st : string) : callback :=
if str_in st ARCHIVE_SYNC_STATUSES then SyncArchived anima tid else SyncReactivated anima tid.

Lemma notify_nested anima tid st w :
w_conn w = Some ReadWrite → st ∈ ["pending"; "done"; "cancelled"] →
notify anima tid st w = (Ok tt, set_after (w_after w ++ [callback_for anima tid st]) w).
Proof.
intros Hc Hst. unfold notify, callback_for, after_commit, str_in. body_unfold.
case_bool_decide; [by rewrite Hc|]. rewrite bool_decide_eq_true_2; [by rewrite Hc|]. set_solver.
Qed.

Lemma callback_synced anima tid st w :
st ∈ ["pending"; "done"; "cancelled"] →
card_synced anima tid st (w_board (state_of (run_callbacks [callback_for anima tid st] w))).
Proof.
intros Hst. unfold run_callbacks, for_each, callback_for, str_in. run_unfold.
case_bool_decide as Ha; unfold run_hook, taskboard_hooks.
- pose proof (sync_archived_run anima tid st w Ha) as Hs. by destruct (sync_taskboard_archived _ _ w) as [[[]|] w'].
- assert (st ∈ REACTIVATE_SYNC_STATUSES) as Hr by set_solver.
  pose proof (sync_reactivated_run anima tid st w Hr) as Hs.
  by destruct (sync_taskboard_reactivated _ _ w) as [[[]|] w'].
Qed.

(** A committed transaction that registered one projection. *)
Lemma transaction_synced {A} (body : M world A) w a w1 anima tid st :
w_conn w = None → body (begin_write w) = (Ok a, w1) → w_after w1 = [callback_for anima tid st] →
st ∈ ["pending"; "done"; "cancelled"] →
val_of (transaction body w) = Ok a ∧ w_db (state_of (transaction body w)) = w_db w1 ∧
card_synced anima tid st (w_board (state_of (transaction body w))).
Proof.
intros Hc Hb Ha Hst. destruct (transaction_run _ _ _ _ Hc Hb) as [Hv Hdb]. split_and!; [done..|].
unfold transaction, begin_write in *. rewrite Hc, Hb, Ha. by apply callback_synced.
Qed.

Lemma refuses_same r : refuses r (status (row_entry r)) = false.
Proof.
unfold refuses. destruct (decide (status (row_entry r) = "cancelled")) as [->|Hne]; [done|].
by rewrite bool_decide_eq_false_2.
Qed.

Lemma valid_outcome st : st ∈ ["pending"; "done"; "cancelled"] → st ∈ VALID_STATUSES.
Proof. set_solver. Qed.

(** The declaration inside the transaction: metadata first when the task is
  declared done, then the status. *)
Lemma declare_nested anima tid st sm w r :
w_conn w = Some ReadWrite → identity_result w = Ok None → inv (w_db w) →
owns anima tid r (w_db w) → row_archived r = false → st ∈ ["pending"; "done"; "cancelled"] →
refuses r st = false →
∃ w1, update_status anima tid st sm w = (Ok (Some (row_entry
          (write_update (Some st) sm (Some (now_at (w_clock w))) None r r))), w1) ∧
  w_after w1 = w_after w ++ [callback_for anima tid st] ∧ w_conn w1 = Some ReadWrite ∧
  identity_result w1 = Ok None ∧
  owns anima tid (write_update (Some st) sm (Some (now_at (w_clock w))) None r r) (w_db w1).
Proof.
intros Hc Hi Hd Hown Harch Hst Href. eexists.
rewrite (update_status_own anima tid st sm w r); try done; [|by rewrite Hc..|by apply valid_outcome].
rewrite notify_nested by done. split_and!; [done..|]. by apply owns_update.
Qed.

(** The transaction of [update_task] without a resume. *)
Definition declare_body (anima tid st : string) (sm : option string) (m : dict) : M world (option TaskEntry) :=
declared ← (if truthy (JObj m)
            then r ← update_meta anima tid m sm; mret (bool_decide (is_Some r))
            else mret true);
if negb declared then mret None else
entry ← update_status anima tid st sm;
match entry with None => mret None | Some e => mret (Some e) end.

Lemma declare_body_run anima tid st sm m w r :
w_conn w = Some ReadWrite → w_after w = [] → identity_result w = Ok None → inv (w_db w) →
owns anima tid r (w_db w) → row_archived r = false → st ∈ ["pending"; "done"; "cancelled"] →
refuses r st = false →
∃ r' w1, declare_body anima tid st sm m w = (Ok (Some (row_entry r')), w1) ∧
  w_after w1 = [callback_for anima tid st] ∧ owns anima tid r' (w_db w1) ∧
  status (row_entry r') = st ∧ row_input r' = row_input r ∧ row_current r' = row_current r ∧
  meta (row_entry r') = (if truthy (JObj m) then dmerge (meta (row_entry r)) m else meta (row_entry r)) ∧
  (∀ s, sm = Some s → summary (row_entry r') = s).
Proof.
intros Hc Ha Hi Hd Hown Harch Hst Href. unfold declare_body. run_unfold.
destruct (truthy (JObj m)) eqn:Em.
- rewrite (update_meta_own anima tid m sm w r); try done; [|by rewrite Hc..|apply refuses_same].
  set (r1 := write_update None sm (Some (now_at (w_clock w))) (Some m) r r).
  set (w1 := written anima tid "" sm (Some m) r false w).
  destruct (declare_nested anima tid st sm w1 r1) as (w2 & Hrun & Haft & _ & _ & Hown2); try done.
  { apply (written_inv anima tid "" sm (Some m) r false); try done. apply refuses_same. }
  { by apply owns_update. }
  { unfold refuses, r1 in *. simpl. by destruct sm. }
  rewrite bool_decide_eq_true_2 by done. cbn [negb]. rewrite Hrun. eexists _, w2.
  split_and!; [reflexivity|by rewrite Haft; simpl; rewrite Ha|done|..]; unfold r1; simpl;
    by destruct sm; intros; simplify_eq/=.
- cbn [negb]. destruct (declare_nested anima tid st sm w r) as (w2 & Hrun & Haft & _ & _ & Hown2); try done.
  rewrite Hrun. eexists _, w2.
  split_and!; [reflexivity|by rewrite Haft, Ha|done|..]; simpl; by destruct sm; intros; simplify_eq/=.
Qed.

(** Declaring a result: for an own task that accepts the status,
  [update_task] succeeds and returns the canonical record, which now has
  that status; a task declared done carries the declaration and the result
  note in its metadata and summary; and the task's TaskBoard card, if any,
  is closed for a finished task and not archived for a re-opened one. *)
Theorem update_task_effect anima tid st sm res w r :
w_conn w = None → identity_result w = Ok None → inv (w_db w) →
owns anima tid r (w_db w) → row_archived r = false → st ∈ ["pending"; "done"; "cancelled"] →
refuses r st = false →
let w' := state_of (update_task anima tid st sm res false w) in
∃ r', val_of (update_task anima tid st sm res false w) = Ok (Some (row_entry r')) ∧
  row_at (anima, tid) (w_db w') = Some r' ∧ status (row_entry r') = st ∧
  row_input r' = row_input r ∧ row_current r' = row_current r ∧
  (st = "done" → dget "completed_by" (meta (row_entry r')) = Some (JStr "agent_declaration") ∧
     ∀ note, res = Some note →
       dget "result_note" (meta (row_entry r')) = Some (JStr note) ∧ summary (row_entry r') = note) ∧
  card_synced anima tid st (w_board w').
Proof.
intros Hc Hi Hd Hown Harch Hst Href w'. subst w'.
set (sm' := match res with Some x => Some x | None => sm end).
assert (∃ m w0, declaration_meta st sm' w = (Ok m, w0) ∧ w_db w0 = w_db w ∧ w_conn w0 = None ∧
  identity_result w0 = Ok None ∧
  (st = "done" → truthy (JObj m) = true ∧ dget "completed_by" (reverse m) = Some (JStr "agent_declaration") ∧
     ∀ note, sm' = Some note → dget "result_note" (reverse m) = Some (JStr note)))
  as (m & w0 & Hm & Hdb0 & Hc0 & Hi0 & Hdone).
{ unfold declaration_meta. case_bool_decide; run_unfold; eexists _, _; split_and!; try done.
  intros _. split_and!; [done|by destruct sm'|by intros note ->]. }
assert (update_task anima tid st sm res false w = transaction (declare_body anima tid st sm' m) w0) as ->.
{ unfold update_task, str_in. rewrite (bool_decide_eq_true_2 (st ∈ ["pending"; "delegated"; "done"; "cancelled"])) by (clear -Hst; set_solver). cbn [negb andb]. fold sm'.
  unfold mbind at 1, M_bind at 1. by rewrite Hm. }
destruct (declare_body_run anima tid st sm' m (begin_write w0) r)
  as (r' & w1 & Hrun & Haft & [_ Hr'] & Hs & Hin & Hcur & Hmeta & Hsum); try done.
{ simpl. by rewrite Hdb0. } { simpl. by rewrite Hdb0. }
destruct (transaction_synced _ w0 _ w1 anima tid st Hc0 Hrun Haft Hst) as (Hv & Hdb & Hsync).
exists r'. rewrite Hv. split_and!; [done|unfold row_at; by rewrite Hdb|done..| |done].
intros Hd'. destruct (Hdone Hd') as (Ht & Hby & Hnote). rewrite Hmeta, Ht, !dget_dmerge, Hby.
split; [done|]. intros note ->. rewrite (Hnote note) by done. split; [done|]. by apply Hsum.
Qed.

Lemma refuses_pending r : row_current r = None → refuses r "pending" = false.
Proof.
intros Hc. unfold refuses. rewrite Hc. destruct (bool_decide _); [|done].
by rewrite (bool_decide_eq_false_2 (is_Some None)) by (by intros []).
Qed.

(** Resuming an idle own task with saved input, inside a transaction. *)
Lemma resume_nested anima tid w r :
w_conn w = Some ReadWrite → identity_result w = Ok None → owns anima tid r (w_db w) →
row_current r = None → is_Some (row_input r) →
∃ e w1, resume anima tid w = (Ok e, w1) ∧ w_after w1 = w_after w ∧ status e = "pending" ∧
  row_at (anima, tid) (w_db w1) =
    Some (set_row_archived false (set_row_ready true (set_row_entry e r))).
Proof.
intros Hc Hi Hown Hcur Hin. pose proof (owns_resolves _ _ _ _ Hown) as Hres. destruct Hown as [_ Hr].
unfold resume, transaction. rewrite Hc. body_unfold. rewrite Hres. cbn [fst snd]. rewrite Hr, Hi.
cbn [stale_identity]. rewrite Hcur. rewrite (bool_decide_eq_false_2 (is_Some None)) by (by intros []).
rewrite (bool_decide_eq_true_2 (is_Some (row_input r))) by done. cbn [negb].
eexists _, _. split_and!; [reflexivity|done|done|].
unfold row_at. simpl. rewrite select_update_key, decide_True, Hr by done. done.
Qed.

(** The transaction of a resuming update. *)
Definition resume_body (anima tid : string) (sm : option string) : M world (option TaskEntry) :=
entry ← update_status anima tid "pending" sm;
match entry with
| None => mret None
| Some _ => e' ← resume anima tid; mret (Some e')
end.
Lemma update_task_resuming anima tid sm w :
update_task anima tid "pending" sm None true w = transaction (resume_body anima tid sm) w.
Proof. reflexivity. Qed.

(** Re-opening with a resume: an own idle task with saved input —
  whether finished, cancelled or pending — is requeued under its identifier
  by [update_task(status="pending", resume=True)]: pending, scheduled,
  unarchived, with its input untouched. *)
Theorem update_task_resume anima tid sm w r :
w_conn w = None → identity_result w = Ok None → inv (w_db w) →
owns anima tid r (w_db w) → row_archived r = false → row_current r = None → is_Some (row_input r) →
∃ r', val_of (update_task anima tid "pending" sm None true w) = Ok (Some (row_entry r')) ∧
  row_at (anima, tid) (w_db (state_of (update_task anima tid "pending" sm None true w))) = Some r' ∧
  status (row_entry r') = "pending" ∧ row_ready r' = true ∧ row_archived r' = false ∧
  row_current r' = None ∧ row_input r' = row_input r.
Proof.
intros Hc Hi Hd Hown Harch Hcur Hin.
destruct (declare_nested anima tid "pending" sm (begin_write w) r) as (w1 & Hrun & Haft & Hc1 & Hi1 & Hown1);
  try done; [by left|by apply refuses_pending|].
destruct (resume_nested anima tid w1 _ Hc1 Hi1 Hown1) as (e & w2 & Hres & _ & He & Hrow); [done|done|].
rewrite update_task_resuming.
destruct (transaction_run (resume_body anima tid sm) w (Some e) w2) as [Hv Hdb]; [done| |].
{ unfold resume_body. run_unfold. rewrite Hrun, Hres. done. }
eexists. rewrite Hv, Hdb, Hrow. split_and!; [|reflexivity|done..]. done.
Qed.

(** A resume through a delegator's alias is lost: when [anima] tracks an
  idle task of another anima, [update_task(status="pending", resume=True)]
  under the tracking identifier reports None, as for an unknown task, yet
  sets the owner's record to pending, without scheduling it. *)
Theorem alias_resume_lost anima tid a w r :
w_conn w = None → w_after w = [] → identity_result w = Ok None → inv (w_db w) →
select_key alias_key (anima, tid) (task_aliases (w_db w)) = Some a → al_anima a ≠ anima →
row_at (al_anima a, al_task_id a) (w_db w) = Some r → row_archived r = false → row_current r = None →
val_of (update_task anima tid "pending" None None true w) = Ok None ∧
∃ r', row_at (al_anima a, al_task_id a) (w_db (state_of (update_task anima tid "pending" None None true w)))
        = Some r' ∧ status (row_entry r') = "pending" ∧ row_ready r' = row_ready r.
Proof.
intros Hc Ha Hi Hd Hal Hne Hr Harch Hcur. unfold row_at in *.
set (k := (al_anima a, al_task_id a)) in *. set (w0 := begin_write w).
set (r1 := write_update (Some "pending") None (Some (now_at (w_clock w))) None r r).
set (d1 := set_tasks (update_key task_key k
  (write_update (Some "pending") None (Some (now_at (w_clock w))) None r) (tasks (w_db w))) (w_db w)).
assert (select_key task_key k (tasks d1) = Some r1) as Hr1.
{ simpl. by rewrite select_update_key, decide_True, Hr. }
assert (∃ w1, update_status anima tid "pending" None w0 = (Ok None, w1) ∧ w_db w1 = d1) as (w1 & Hrun & Hdb1).
{ unfold update_status. cbn [negb]. unfold load_all, read, get_task_by_id, get_task. run_unfold.
  unfold str_in. rewrite (bool_decide_eq_false_2 ("pending" ∈ RETIRED_STATUSES)) by (by apply (bool_decide_unpack _)).
  rewrite (bool_decide_eq_true_2 ("pending" ∈ VALID_STATUSES)) by (by apply (bool_decide_unpack _)).
  cbn [negb]. rewrite reader_nested by done. unfold w0. cbn [begin_write set_after set_conn w_db].
  rewrite read_view_lookup, Hal by done. unfold alias_view. fold k. rewrite Hr.
  unfold row_visible. rewrite Harch. cbn [orb negb].
  rewrite (bool_decide_eq_true_2 ("pending" ∈ ["cancelled"; "pending"])) by (by apply (bool_decide_unpack _)).
  rewrite andb_false_r. unfold now_iso.
  rewrite (append_update_resolved anima tid k _ _ _ _ _ r); try done.
  2: { unfold resolve. simpl. by rewrite Hal. }
  2: { by apply refuses_pending. }
  rewrite reader_nested by done. cbn [set_db w_db begin_write set_after set_conn w_clock].
  fold d1. rewrite (get_view_alias _ _ _ a) by done. unfold alias_view. fold k. rewrite Hr1.
  by eexists. }
rewrite update_task_resuming.
destruct (transaction_run (resume_body anima tid None) w None w1) as [Hv Hdb]; [done| |].
{ unfold resume_body. run_unfold. fold w0. by rewrite Hrun. }
rewrite Hv, Hdb, Hdb1. split; [done|]. by exists r1.
Qed.
End declare.
