(* ===== verification/TaskWitnesses.v ===== *)
(** * The task system at work

    A concrete clock, identifier source and configuration, a small history of
    operations, and for each theorem about the task system an instance of it
    at a state of that history, with its hypotheses evaluated. *)

From stdpp Require Import prelude strings list gmap relations.
From S2P Require Import Prelude PyValue Sql TaskModels TaskStore TaskStoreInv TaskStoreProps TaskLifecycle TaskBoard TaskQueue TaskQueueProps Projector TopoSort Dispatch DispatchProps.

(* ------------------------------------------------------------------ *)
(** ** The setting *)

Fixpoint ticks (n : nat) : string :=
  match n with O => "" | S n => "I" +:+ ticks n end.

#[local] Instance demo_oracle : Oracle := {|
  now_at n := "2026-01-01T00:" +:+ ticks n;
  uuid_at n := "token" +:+ ticks n;
  py_repr _ := "..."
|}.

#[local] Instance demo_env : DispatchEnv := {|
  validate_model_override _ _ := None;
  resolve_workspace j := Ok "/work";
  anima_exists _ := true
|}.

Definition demo_entry (tid : string) : TaskEntry :=
  mk_entry tid "2026" SrcAnima "Write it" "sakura" "pending" "Report" [] "2026" [].
Definition demo_payload (tid : string) : dict :=
  [("task_id", JStr tid); ("title", JStr "Report"); ("description", JStr "Write it")].

Definition w_empty : world := mk_world empty_db empty_board None [] 0 0 None EnvUnset.
Definition after_ops (ops : list store_op) (w : world) : world :=
  foldl (λ w op, state_of (run_op op w)) w ops.

(** Published, running, finished, cancelled. *)
Definition w_sub : world := after_ops [OpSubmit "sakura" (demo_entry "t1") (demo_payload "t1") false] w_empty.
Definition w_run : world := after_ops [OpClaim "sakura" "t1" [] 2] w_sub.
Definition w_fin : world := after_ops [OpFinish "token" "pending" "exit" None "ref"] w_run.
Definition w_can : world :=
  after_ops [OpApply "sakura" (EvUpdate "t1" (Some "cancelled") None None None)] w_run.

Definition the_row (w : world) : task_row :=
  default (mk_task "" "" (demo_entry "") None false None false)
    (select_key task_key ("sakura", "t1") (tasks (w_db w))).

Lemma op_step op w : op_ok op → w_conn w = None → step (w_db w) (w_db (state_of (run_op op w))).
Proof. by apply step_op. Qed.

Lemma w_sub_steps : reachable (w_db w_sub).
Proof.
  apply rtc_once, (op_step (OpSubmit "sakura" (demo_entry "t1") (demo_payload "t1") false) w_empty); done.
Qed.
Lemma w_run_steps : rtc step (w_db w_sub) (w_db w_run).
Proof. apply rtc_once, (op_step (OpClaim "sakura" "t1" [] 2) w_sub); done. Qed.
Lemma w_fin_steps : rtc step (w_db w_run) (w_db w_fin).
Proof. apply rtc_once, (op_step (OpFinish "token" "pending" "exit" None "ref") w_run); done. Qed.
Lemma w_can_steps : rtc step (w_db w_run) (w_db w_can).
Proof. apply rtc_once, (op_step (OpApply "sakura" (EvUpdate "t1" (Some "cancelled") None None None)) w_run); done. Qed.
Lemma w_run_reachable : reachable (w_db w_run).
Proof. unfold reachable; etrans; [apply w_sub_steps|apply w_run_steps]. Qed.

Lemma w_sub_inv : inv (w_db w_sub).
Proof. apply reachable_inv, w_sub_steps. Qed.
Lemma w_run_inv : inv (w_db w_run).
Proof. apply reachable_inv, w_run_reachable. Qed.
Lemma w_fin_inv : inv (w_db w_fin).
Proof. apply reachable_inv. unfold reachable. etrans; [apply w_run_reachable|apply w_fin_steps]. Qed.
Lemma w_can_inv : inv (w_db w_can).
Proof. apply reachable_inv. unfold reachable. etrans; [apply w_run_reachable|apply w_can_steps]. Qed.

(* ------------------------------------------------------------------ *)
(** ** The store *)

Lemma reachable_consistent_witness : length (task_attempts (w_db w_run)) = 1 ∧ inv (w_db w_run).
Proof. split; [vm_compute; reflexivity|]. apply (reachable_consistent (w_db w_run) w_run_reachable). Defined.

(** The run of the claim that the history makes. *)
Definition claimed : dict :=
  match val_of (claim "sakura" "t1" [] 2 w_sub) with Ok (Some p) => p | _ => [] end.
Lemma claim_run :
  claim "sakura" "t1" [] 2 w_sub = (Ok (Some claimed), state_of (claim "sakura" "t1" [] 2 w_sub)).
Proof. vm_compute. reflexivity. Qed.

Lemma claim_guards_witness :
  ∃ r payload deps, claimable "sakura" "t1" 2 (w_db w_sub) r payload deps.
Proof.
  destruct (claim_guards "sakura" "t1" [] 2 w_sub _ _ eq_refl claim_run) as (r & pl & deps & Hok & _).
  exists r, pl, deps. exact Hok.
Defined.

Lemma claim_effect_witness :
  length (active_tasks "sakura" (w_db (state_of (claim "sakura" "t1" [] 2 w_sub)))) = 1 ∧
  (Z.of_nat (length (active_tasks "sakura" (w_db (state_of (claim "sakura" "t1" [] 2 w_sub))))) ≤ 2)%Z.
Proof.
  destruct (claim_effect "sakura" "t1" [] 2 w_sub _ _ eq_refl w_sub_inv claim_run) as (_ & _ & _ & _ & Hn & Hle).
  split; [vm_compute; reflexivity|exact Hle].
Defined.

(** A token nobody runs under, and the outcomes a runner may report. *)
Lemma pending_outcome : "pending" ∈ ["pending"; "done"; "cancelled"].
Proof. by left. Qed.
Lemma done_outcome : "done" ∈ ["pending"; "done"; "cancelled"].
Proof. by right; left. Qed.

Lemma finish_fenced_witness :
  val_of (finish "intruder" "done" "exit" None "ref" w_run) = Ok false ∧
  w_db (state_of (finish "intruder" "done" "exit" None "ref" w_run)) = w_db w_run.
Proof.
  apply (finish_fenced "intruder" "done" "exit" None "ref" w_run eq_refl done_outcome).
  intros r Hr. vm_compute in Hr. apply list_elem_of_singleton in Hr as ->. discriminate.
Defined.

(** A process that still believes in an attempt the task does not have. *)
Definition w_stale : world := set_ctx_identity (Some (mk_identity "sakura" "t1" "old-token")) w_run.
Lemma stale_attempt_rejected_witness :
  is_ok (val_of (apply "sakura" (EvUpdate "t1" (Some "done") None None None) w_stale)) = false ∧
  w_db (state_of (apply "sakura" (EvUpdate "t1" (Some "done") None None None) w_stale)) = w_db w_run.
Proof.
  destruct (stale_attempt_rejected "sakura" (EvUpdate "t1" (Some "done") None None None) (demo_entry "t1") [] false "t1"
              (mk_identity "sakura" "t1" "old-token") w_stale) as (Happly & _ & _).
  - reflexivity.
  - reflexivity.
  - intros r Hr. vm_compute in Hr. apply list_elem_of_singleton in Hr as ->. discriminate.
  - apply Happly. vm_compute. reflexivity.
Defined.

Lemma operations_atomic_witness :
  w_db (state_of (run_op (OpResume "sakura" "t1") w_run)) = w_db w_run.
Proof.
  destruct (operations_atomic (OpResume "sakura" "t1") w_run) as (Hdb & _ & _).
  - reflexivity.
  - reflexivity.
  - apply Hdb. vm_compute. reflexivity.
Defined.

Lemma the_row_run : the_row w_run ∈ tasks (w_db w_run).
Proof. vm_compute. left. Qed.

Lemma finish_effect_witness :
  val_of (finish "token" "pending" "exit" None "ref" w_run) = Ok true ∧
  ("sakura", "t1", "token") ∈
    wakeup_key <$> task_wakeups (w_db (state_of (finish "token" "pending" "exit" None "ref" w_run))).
Proof.
  destruct (finish_effect "token" "pending" "exit" None "ref" w_run (the_row w_run) eq_refl w_run_inv
              pending_outcome the_row_run) as (Hv & _ & _ & Hw & _).
  - vm_compute. reflexivity.
  - split; [exact Hv|]. apply Hw. vm_compute. reflexivity.
Defined.


Lemma store_refines_lifecycle_witness :
  phase_step (phase_at ("sakura", "t1") (w_db w_sub)) (phase_at ("sakura", "t1") (w_db w_run)).
Proof.
  destruct (store_refines_lifecycle (w_db w_sub) (w_db w_run)) with (k := ("sakura", "t1")) as [Heq|Hs].
  - apply (op_step (OpClaim "sakura" "t1" [] 2) w_sub); done.
  - apply w_sub_inv.
  - vm_compute in Heq. discriminate.
  - exact Hs.
Defined.

Definition first_attempt (w : world) : attempt_row :=
  default (mk_attempt "" "" "" 0 [] "" None None None) (head (task_attempts (w_db w))).
Lemma history_append_only_witness :
  ∃ a', a' ∈ task_attempts (w_db w_fin) ∧ attempt_extends (first_attempt w_run) a'.
Proof.
  apply (history_append_only (w_db w_run) (w_db w_fin) (first_attempt w_run) w_fin_steps w_run_inv).
  vm_compute. left.
Defined.

Lemma submit_run :
  submit "sakura" (demo_entry "t1") (demo_payload "t1") false w_empty =
    (Ok true, state_of (submit "sakura" (demo_entry "t1") (demo_payload "t1") false w_empty)).
Proof. vm_compute. reflexivity. Qed.
Lemma submit_idempotent_witness :
  val_of (submit "sakura" (demo_entry "t1") (demo_payload "t1") false w_run) = Ok false ∧
  w_db (state_of (submit "sakura" (demo_entry "t1") (demo_payload "t1") false w_run)) = w_db w_run.
Proof.
  apply (submit_idempotent "sakura" (demo_entry "t1") (demo_payload "t1") w_empty
           (state_of (submit "sakura" (demo_entry "t1") (demo_payload "t1") false w_empty)) w_run
           (demo_entry "t1") (demo_payload "t1") eq_refl empty_db_inv submit_run w_run_steps);
    vm_compute; reflexivity.
Defined.

(* ------------------------------------------------------------------ *)
(** ** The board *)

Definition demo_updates : list field_update := [UVisibility "snoozed"; UColumn (Some "review")].
Definition w_card : world := state_of (run_board_op (BoUpsert "sakura" "t1" "human" None []) w_sub).


Lemma upsert_metadata_spec_witness :
  ∃ m w', upsert_metadata "sakura" "t1" "human" None demo_updates w_card = (Ok m, w') ∧
          metadata_row "sakura" "t1" (w_board w') = Some m.
Proof.
  destruct (upsert_metadata_spec "sakura" "t1" "human" demo_updates w_card) as (m & w' & e & Hrun & Hrow & _).
  - repeat constructor.
  - vm_compute. apply (bool_decide_unpack _). vm_compute. exact I.
  - exists m, w'. split; assumption.
Defined.

(* ------------------------------------------------------------------ *)
(** ** The queue *)

Lemma read_get_agree_witness :
  val_of (get_task "sakura" "t1" w_run) = Ok (Some (row_entry (the_row w_run))).
Proof.
  apply (read_get_agree "sakura" "t1" (row_entry (the_row w_run)) w_run w_run_inv).
  - intros a Ha. vm_compute in Ha. discriminate.
  - eexists. split; vm_compute; reflexivity.
Defined.

Lemma owns_run : owns "sakura" "t1" (the_row w_run) (w_db w_run).
Proof. split; vm_compute; reflexivity. Qed.
Lemma done_valid : "done" ∈ VALID_STATUSES.
Proof. by apply (bool_decide_unpack _). Qed.

Lemma update_status_effect_witness :
  ∃ e, val_of (update_status "sakura" "t1" "done" None w_run) = Ok (Some e) ∧ status e = "done".
Proof.
  destruct (update_status_effect "sakura" "t1" "done" None w_run (the_row w_run) eq_refl eq_refl eq_refl
              w_run_inv owns_run eq_refl done_valid) as (r' & Hv & Hs & _).
  exists (row_entry r'). split; [exact Hv|exact Hs].
Defined.

(** A goal continuation that is added once. *)
Definition continues (e : TaskEntry) : bool := bool_decide (summary e = "Continue").
Abbreviation demo_add w :=
  (add_task_if_absent "sakura" continues SrcAnima "Continue" "sakura" "Continue" [] (Some "g1") [] "pending" w).
Definition added : TaskEntry :=
  match val_of (demo_add w_run) with Ok (Some e) => e | _ => demo_entry "" end.
Definition w_added : world := state_of (demo_add w_run).
Lemma demo_add_run : demo_add w_run = (Ok (Some added), w_added).
Proof. vm_compute. reflexivity. Qed.
Lemma added_id : task_id added = "g1".
Proof. vm_compute. reflexivity. Qed.
Lemma no_self_run : no_self_alias "sakura" (w_db w_run).
Proof. intros a Ha. vm_compute in Ha. by apply not_elem_of_nil in Ha. Qed.

Lemma add_task_if_absent_once_witness :
  dget "g1" (read_view "sakura" false (w_db w_added)) = Some added ∧ "g1" = task_id added.
Proof.
  split; [vm_compute; reflexivity|].
  apply (proj2 (add_task_if_absent_once "sakura" continues SrcAnima "Continue" "sakura" "Continue" [] (Some "g1") []
           "pending" w_run (Some added) w_added eq_refl w_run_inv no_self_run demo_add_run) "g1" added);
    vm_compute; reflexivity.
Defined.

(* ------------------------------------------------------------------ *)
(** ** Sorting and publishing *)

(** Tasks given by an identifier and a list of dependencies. *)
Definition demo_batch : list (string * list string) := [("b", ["a"]); ("a", [])].
Definition demo_repeated : list (string * list string) := [("a", []); ("b", ["a"; "a"])].

Lemma demo_batch_ids : NoDup (fst <$> demo_batch).
Proof. by apply (bool_decide_unpack _). Qed.
Lemma demo_repeated_ids : NoDup (fst <$> demo_repeated).
Proof. by apply (bool_decide_unpack _). Qed.

Lemma topological_sort_sound_witness :
  topological_sort fst snd demo_batch = Ok [("a", []); ("b", ["a"])] ∧
  [("a", []); ("b", ["a"])] ≡ₚ demo_batch.
Proof.
  split; [vm_compute; reflexivity|].
  apply (topological_sort_sound fst snd demo_batch [("a", []); ("b", ["a"])] demo_batch_ids).
  vm_compute. reflexivity.
Defined.

(** The repeated entry makes an acyclic batch fail. *)
Lemma topological_sort_decides_witness :
  topological_sort fst snd demo_repeated = Err (ValueError "Cycle detected in task dependencies").
Proof.
  apply (topological_sort_decides fst snd demo_repeated demo_repeated_ids). vm_compute. reflexivity.
Defined.

Definition demo_dependent (tid : string) (deps : list string) : dict :=
  dset "depends_on" (JList (JStr <$> deps)) (demo_payload tid).
Definition demo_payloads : list json := [JObj (demo_dependent "t2" ["t3"]); JObj (demo_payload "t3")].
Definition demo_prepared : list dict :=
  match validate_task_payloads "sakura" demo_payloads [] true with Ok l => l | Err _ => [] end.
Lemma demo_validated : validate_task_payloads "sakura" demo_payloads [] true = Ok demo_prepared.
Proof. vm_compute. reflexivity. Qed.

Lemma validated_batch_witness :
  ∃ l, l ≡ₚ demo_prepared ∧ ordered p_id p_deps (p_id <$> demo_prepared) l.
Proof. apply (validated_batch "sakura" demo_payloads [] true demo_prepared demo_validated). Defined.

Definition published_entries : list TaskEntry :=
  match val_of (publish_tasks "sakura" demo_payloads SrcAnima [] w_run) with Ok l => l | Err _ => [] end.
Definition w_pub : world := state_of (publish_tasks "sakura" demo_payloads SrcAnima [] w_run).
Lemma publish_run : publish_tasks "sakura" demo_payloads SrcAnima [] w_run = (Ok published_entries, w_pub).
Proof. vm_compute. reflexivity. Qed.

Lemma publish_tasks_atomic_witness :
  ∃ ps, length published_entries = length ps ∧
    ∀ p, p ∈ ps → published_task "sakura" (w_db w_run) (w_db w_pub) p.
Proof.
  destruct (publish_tasks_atomic "sakura" demo_payloads SrcAnima [] w_run (Ok published_entries) w_pub eq_refl
              w_run_inv publish_run)
    as (ps & _ & Hl & Hp & _).
  exists ps. split; assumption.
Defined.

Abbreviation demo_dispatch w :=
  (dispatch_direct_task "sakura" "ev1" "Fix" "Fix it" "github" [] None w).
Definition w_disp : world := state_of (demo_dispatch w_run).
Lemma dispatch_run : demo_dispatch w_run = (Ok true, w_disp).
Proof. vm_compute. reflexivity. Qed.

Lemma direct_dispatch_once_witness :
  val_of (demo_dispatch w_disp) ≠ Ok true ∧ w_db (state_of (demo_dispatch w_disp)) = w_db w_disp.
Proof.
  apply (direct_dispatch_once "sakura" "ev1" "Fix" "Fix it" "github" [] None "Fix" "Fix it" "github" [] None
           w_run w_disp w_disp eq_refl w_run_inv dispatch_run).
  - apply rtc_refl.
  - vm_compute. reflexivity.
  - vm_compute. reflexivity.
Defined.

Abbreviation demo_delegate w := (publish_delegation "sakura" (demo_payload "t4") "boss" "track" w).
Definition w_del : world := state_of (demo_delegate w_run).
Lemma delegate_run : demo_delegate w_run = (Ok false, w_del).
Proof. vm_compute. reflexivity. Qed.

Lemma publish_delegation_visible_witness :
  ∃ e, val_of (get_task "boss" "track" w_del) = Ok (Some e) ∧ task_id e = "track".
Proof.
  destruct (publish_delegation_visible "sakura" (demo_payload "t4") "boss" "track" w_run (Ok false) w_del eq_refl
              w_run_inv ltac:(discriminate) delegate_run) as (r & e & _ & _ & Hv & Ht & _).
  exists e. split; assumption.
Defined.

Lemma update_task_effect_witness :
  ∃ r', val_of (update_task "sakura" "t1" "done" None (Some "shipped") false w_run) = Ok (Some (row_entry r')) ∧
        status (row_entry r') = "done" ∧ summary (row_entry r') = "shipped".
Proof.
  destruct (update_task_effect "sakura" "t1" "done" None (Some "shipped") w_run (the_row w_run) eq_refl eq_refl
              w_run_inv owns_run eq_refl done_outcome eq_refl) as (r' & Hv & _ & Hs & _ & _ & Hd & _).
  exists r'. split; [exact Hv|]. split; [exact Hs|]. apply (proj2 (Hd eq_refl)). reflexivity.
Defined.

Lemma owns_fin : owns "sakura" "t1" (the_row w_fin) (w_db w_fin).
Proof. split; vm_compute; reflexivity. Qed.

Lemma update_task_resume_witness :
  ∃ r', val_of (update_task "sakura" "t1" "pending" None None true w_fin) = Ok (Some (row_entry r')) ∧
        row_ready r' = true.
Proof.
  destruct (update_task_resume "sakura" "t1" None w_fin (the_row w_fin) eq_refl eq_refl w_fin_inv owns_fin)
    as (r' & Hv & _ & _ & Hr & _).
  - vm_compute. reflexivity.
  - vm_compute. reflexivity.
  - vm_compute. eexists. reflexivity.
  - exists r'. split; assumption.
Defined.

(** A task of sakura that boss tracks, cancelled before it ran. *)
Definition w_trk1 : world := after_ops [OpSubmit "sakura" (demo_entry "t4") (demo_payload "t4") false] w_run.
Definition w_trk2 : world := after_ops [OpAlias "boss" "track" "sakura" "t4"] w_trk1.
Definition w_trk : world :=
  after_ops [OpApply "sakura" (EvUpdate "t4" (Some "cancelled") None None None)] w_trk2.
Definition trk_row : task_row :=
  default (mk_task "" "" (demo_entry "") None false None false)
    (select_key task_key ("sakura", "t4") (tasks (w_db w_trk))).
Lemma w_trk_inv : inv (w_db w_trk).
Proof.
  eapply step_inv; [apply (op_step (OpApply "sakura" (EvUpdate "t4" (Some "cancelled") None None None)) w_trk2); done|].
  eapply step_inv; [apply (op_step (OpAlias "boss" "track" "sakura" "t4") w_trk1); done|].
  eapply step_inv; [|apply w_run_inv].
  apply (op_step (OpSubmit "sakura" (demo_entry "t4") (demo_payload "t4") false) w_run); done.
Qed.

Lemma alias_resume_lost_witness :
  val_of (update_task "boss" "track" "pending" None None true w_trk) = Ok None ∧
  ∃ r', row_at ("sakura", "t4") (w_db (state_of (update_task "boss" "track" "pending" None None true w_trk)))
          = Some r' ∧ status (row_entry r') = "pending" ∧ row_ready r' = false.
Proof.
  apply (alias_resume_lost "boss" "track" (mk_alias "boss" "track" "sakura" "t4") w_trk trk_row eq_refl eq_refl
           eq_refl w_trk_inv); vm_compute; try reflexivity. discriminate.
Defined.

(* ------------------------------------------------------------------ *)
(** ** The projection *)

(** A clock that cannot read the demo's timestamps. *)
#[local] Instance demo_calendar : Calendar := {|
  fromisoformat s := if bool_decide (s = "2026") then Some (mk_datetime true (QArith_base.inject_Z 0)) else None;
  instant_at _ := QArith_base.inject_Z 0;
  wall_to_instant q := q
|}.

Lemma w_card_inv : inv (w_db w_card).
Proof. apply w_sub_inv. Qed.
Lemma w_card_unique : unique metadata_key (taskboard_metadata (w_board w_card)).
Proof. by apply (bool_decide_unpack _); vm_compute. Qed.

Lemma projection_exact_witness :
  ∃ l, val_of (project_anima "sakura" true true w_card) = Ok l ∧ "t1" ∈ bt_task_id <$> l.
Proof.
  destruct (projection_exact "sakura" w_card w_card_inv w_card_unique) as (l & Hv & _ & _ & Hin).
  exists l. split; [exact Hv|]. apply Hin. left. vm_compute. eexists. reflexivity.
Defined.

Definition card : BoardTask :=
  match val_of (project_anima "sakura" false false w_card) with
  | Ok (t :: _) => t
  | _ => project_missing_task (mk_metadata "" "" ACTIVE None None None None None None 0 None None None "" "")
  end.
Lemma card_run : val_of (project_anima "sakura" false false w_card) = Ok [card].
Proof. vm_compute. reflexivity. Qed.
Lemma no_ghost_cards_witness : bt_visibility card = ACTIVE.
Proof.
  apply (no_ghost_cards "sakura" false w_card [card] card w_card_unique card_run). left.
Defined.
