(* ===== verification/MergeWitnesses.v ===== *)
(** * A merge at work

    Two animas with a task of the same identifier, one of them with an ended
    attempt, a wakeup and a delegated task: the merge of the first into the
    second. *)

From stdpp Require Import prelude strings list gmap.
From S2P Require Import Prelude PyValue Sql TaskModels TaskStore TaskStoreInv TaskStoreProps TaskBoard TaskQueue MergeRefs TaskTransfer TaskTransferProps TaskWitnesses.

#[local] Existing Instance demo_oracle.

Definition delegated_entry : TaskEntry :=
  mk_entry "d1" "2026" SrcAnima "Ask Rin" "rin" "delegated" "Report" [] "2026"
    [("delegated_to", JStr "rin"); ("delegated_task_id", JStr "t1")].

Definition merge_ops : list store_op :=
  [OpSubmit "sakura" (demo_entry "t1") (demo_payload "t1") false; OpClaim "sakura" "t1" [] 2;
   OpFinish "token" "pending" "exit" None "state/task_results/t1/out.md";
   OpSubmit "rin" (demo_entry "t1") (demo_payload "t1") false; OpApply "sakura" (EvEntry delegated_entry)].
Definition w_merge : world := after_ops merge_ops w_empty.

Lemma after_ops_inv ops w : Forall op_ok ops → inv (w_db w) → inv (w_db (after_ops ops w)).
Proof.
  revert w. induction ops as [|op ops IH]; intros w Hok Hd; [done|].
  apply Forall_cons in Hok as [Hop Hok]. apply IH; [done|]. by apply (run_op_keeps op Hop w).
Qed.
Lemma w_merge_conn : w_conn w_merge = None.
Proof. vm_compute. reflexivity. Qed.
Lemma w_merge_inv : inv (w_db w_merge).
Proof. apply after_ops_inv; [by repeat constructor|apply empty_db_inv]. Qed.

Definition merge_mapping : list (string * string) :=
  default [] (plan "sakura" ["d1"; "t1"] ["t1"]).
Lemma merge_mapping_value : merge_mapping = [("d1", "d1"); ("t1", "t1__from_sakura")].
Proof. vm_compute. reflexivity. Qed.
Lemma merge_mapping_planned : plan "sakura" ["d1"; "t1"] ["t1"] = Some merge_mapping.
Proof. vm_compute. reflexivity. Qed.

Lemma demo_mergeable : mergeable "sakura" "rin" merge_mapping "/animas/sakura" "/animas/rin" (w_db w_merge).
Proof.
  split; [reflexivity|reflexivity| | |].
  - apply Forall_forall. vm_compute. repeat constructor.
  - apply Forall_forall. vm_compute. repeat constructor.
  - intros r p Hr. revert p. revert r Hr.
    apply (Forall_forall (λ r, ∀ p, row_input r = Some p → row_anima r ≠ "sakura" → owned_by "sakura" p = false)). vm_compute.
    apply Forall_cons_2; [|apply Forall_cons_2; [|apply Forall_nil_2]].
    all: intros p [= <-] _; reflexivity.
Qed.

Local Abbreviation merge_run := (merge_tasks "sakura" "rin" merge_mapping "/animas/sakura" "/animas/rin" w_merge).
Definition merge_report : list string * list string :=
  match val_of merge_run with Ok rep => rep | Err _ => ([], []) end.
Lemma merge_report_value : merge_report = (["t1__from_sakura"], ["rin"]).
Proof. vm_compute. reflexivity. Qed.
Lemma merge_runs : merge_run = (Ok merge_report, state_of merge_run).
Proof. vm_compute. reflexivity. Qed.


Lemma demo_planned : planned "sakura" "rin" ["d1"; "t1"] ["t1"] (w_db w_merge).
Proof.
  split; unfold wakeups_owned; refine (proj1 (Forall_forall _ _) _); vm_compute.
  all: repeat constructor; intros; try discriminate; try (by left); try (by right; left); try set_solver.
Qed.

Lemma planned_merge_succeeds_witness : ∃ rep, val_of merge_run = Ok rep.
Proof.
  destruct (planned_merge_succeeds "sakura" "rin" ["d1"; "t1"] ["t1"] "/animas/sakura" "/animas/rin" w_merge)
    as (mapping & Hplan & Hrun).
  assert (mapping = merge_mapping) as -> by (rewrite merge_mapping_planned in Hplan; congruence).
  apply Hrun; [discriminate|exact w_merge_conn|exact w_merge_inv|exact demo_planned|exact demo_mergeable].
Defined.
