(* ===== verification/Health.v ===== *)
(** * Health checks of the anima processes

    [core/supervisor/_mgr_health.py] and [ProcessHandle.ping] of
    [core/supervisor/process_handle.py]: what one round of the health check
    does to one process.  A check has two halves, before and after the await
    on the ping; what the process answers, the busy marker it writes and the
    clocks are inputs.  A check does not restart anything itself: it starts
    the failure or the hang handler ([verdict]). *)

From Stdlib Require Import QArith.
From stdpp Require Import prelude strings list.
From S2P Require Import Prelude PyValue TaskModels TaskQueue.
Open Scope nat_scope.

Inductive ProcessState := STARTING | RUNNING | STOPPING | STOPPED | FAILED | RESTARTING.
#[global] Instance process_state_eq_dec : EqDecision ProcessState.
Proof. solve_decision. Defined.

Record RestartPolicy := mk_policy {
  max_retries : nat;
  backoff_base_sec : Q;
  backoff_max_sec : Q;
  reset_after_sec : Q
}.
Record HealthConfig := mk_health {
  ping_interval_sec : Q;
  ping_timeout_sec : Q;
  max_missed_pings : nat;
  startup_grace_sec : Q;
  busy_hang_threshold_sec : Q;
  health_check_warmup_seconds : Q;
  runner_warmup_seconds : Q
}.

(** [process]: [None] once cleaned up, else what [poll()] returns. *)
Record ProcessHandle := mk_handle {
  state : ProcessState;
  process : option (option Z);
  pid : Z;
  is_streaming : bool;
  streaming_started_at : option Q;
  stopping_since : option Q;
  started_at : Q;
  missed_pings : nat;
  last_busy_since : option Q;
  exit_code : option Z
}.
Definition set_state (v : ProcessState) (h : ProcessHandle) : ProcessHandle :=
  mk_handle v (process h) (pid h) (is_streaming h) (streaming_started_at h) (stopping_since h) (started_at h)
    (missed_pings h) (last_busy_since h) (exit_code h).
Definition set_process (v : option (option Z)) (h : ProcessHandle) : ProcessHandle :=
  mk_handle (state h) v (pid h) (is_streaming h) (streaming_started_at h) (stopping_since h) (started_at h)
    (missed_pings h) (last_busy_since h) (exit_code h).
Definition set_stopping_since (v : option Q) (h : ProcessHandle) : ProcessHandle :=
  mk_handle (state h) (process h) (pid h) (is_streaming h) (streaming_started_at h) v (started_at h)
    (missed_pings h) (last_busy_since h) (exit_code h).
Definition set_missed_pings (v : nat) (h : ProcessHandle) : ProcessHandle :=
  mk_handle (state h) (process h) (pid h) (is_streaming h) (streaming_started_at h) (stopping_since h) (started_at h)
    v (last_busy_since h) (exit_code h).
Definition set_busy_since (v : option Q) (h : ProcessHandle) : ProcessHandle :=
  mk_handle (state h) (process h) (pid h) (is_streaming h) (streaming_started_at h) (stopping_since h) (started_at h)
    (missed_pings h) v (exit_code h).
Definition set_exit_code (v : option Z) (h : ProcessHandle) : ProcessHandle :=
  mk_handle (state h) (process h) (pid h) (is_streaming h) (streaming_started_at h) (stopping_since h) (started_at h)
    (missed_pings h) (last_busy_since h) v.

Definition is_alive (h : ProcessHandle) : bool := bool_decide (process h = Some None).
Definition get_pid (h : ProcessHandle) : option Z := (λ _, pid h) <$> process h.
(** [handle.process.returncode if handle.process else None]. *)
Definition returncode (h : ProcessHandle) : option Z := process h ≫= id.

(** What a check reads besides the handle: the wall clock, the progress of the
    server's start, the configuration of the anima, whether it bootstraps or
    consolidates, and the marker file its runner writes ([None] when it is
    missing, unreadable or not JSON). *)
Record surroundings := mk_surroundings {
  now : Q;
  server_starting : bool;
  server_ready_at : option Q;
  hang_exempt : bool;
  is_bootstrapping : bool;
  is_consolidating : bool;
  busy_marker : option json;
  max_streaming_duration_sec : Q
}.

Inductive verdict := Leave | HandleFailure | HandleHang.
#[global] Instance verdict_eq_dec : EqDecision verdict.
Proof. solve_decision. Defined.

(** What comes back from the runner. *)
Inductive ping_reply :=
| ReplyError
| ReplyResult (result : dict)
| ReplyTimeout
| ReplyException (transport_unavailable : bool).
Record ping_details := mk_ping {
  success : bool;
  is_busy : bool;
  last_progress_at : json;
  transport_error : bool
}.
Definition ping_failed (transport : bool) : ping_details := mk_ping false false JNull transport.

Definition ping (reply : ping_reply) (h : ProcessHandle) : ProcessHandle * ping_details :=
  let missed := set_missed_pings (S (missed_pings h)) h in
  if negb (bool_decide (state h = RUNNING)) then (missed, ping_failed false) else
  match reply with
  | ReplyError | ReplyTimeout => (missed, ping_failed false)
  | ReplyException t => (missed, ping_failed t)
  | ReplyResult r =>
      (set_missed_pings 0 h,
       mk_ping true (truthy (dget_default "is_busy" (JBool false) r)) (dget_none "last_progress_at" r) false)
  end.

(** [a > b] on floats. *)
Definition longer (a b : Q) : bool := negb (Qle_bool a b).

(** [int()] of a text. *)
Class IntText := int_of_text : string → option Z.

Section checks.
Context `{Oracle, Calendar, IntText} (cfg : HealthConfig).

Definition marker_pid (v : json) : option Z :=
match v with
| JInt z => Some z
| JBool b => Some (if b then 1 else 0)%Z
| JFloat q => Some (Z.quot (Qnum q) (Zpos (Qden q)))
| JStr s => int_of_text s
| _ => None
end.

(** The marker counts only when it names the current process. *)
Definition _read_busy_sidecar (marker : option json) (h : ProcessHandle) : option dict :=
match marker with
| Some (JObj data) =>
    if negb (truthy (dget_none "is_busy" data)) then None else
    match get_pid h with
    | None => None
    | Some current =>
        if bool_decide (marker_pid (dget_none "pid" data) = Some current) then
          let last := if truthy (dget_none "last_progress_at" data) then dget_none "last_progress_at" data
                      else dget_none "updated_at" data in
          Some (if truthy last then dset "last_progress_at" last data else data)
        else None
    end
| _ => None
end.

Definition progress_idle (v : json) (t : Q) : option Q :=
if truthy v then (λ d, t - ensure_aware d)%Q <$> fromisoformat (str_json v) else None.

Definition _streaming_progress_idle_sec (env : surroundings) (h : ProcessHandle) : option Q :=
match _read_busy_sidecar (busy_marker env) h with
| Some ((_ :: _) as data) => progress_idle (dget_none "last_progress_at" data) (now env)
| _ => None
end.

Definition _handle_busy_health (env : surroundings) (last_progress : json) (h0 : ProcessHandle) : ProcessHandle * verdict :=
let h := set_missed_pings 0 h0 in
if is_bootstrapping env || is_consolidating env then (h, Leave) else
match progress_idle last_progress (now env) with
| Some idle => (h, if longer idle (busy_hang_threshold_sec cfg) then HandleHang else Leave)
| None =>
    let since := default (now env) (last_busy_since h) in
    (set_busy_since (Some since) h,
     if longer (now env - since) (busy_hang_threshold_sec cfg) then HandleHang else Leave)
end.

Definition uptime (env : surroundings) (h : ProcessHandle) : Q := (now env - started_at h)%Q.
(** Whether [_health_warmup_reason] gives a reason. *)
Definition warming_up (env : surroundings) (h : ProcessHandle) : bool :=
server_starting env ||
match server_ready_at env with
| Some ready => longer ready 0 && longer (health_check_warmup_seconds cfg) (now env - ready)
| None => false
end ||
longer (runner_warmup_seconds cfg) (uptime env h).

(** A streaming process is not pinged. *)
Definition check_streaming (env : surroundings) (h : ProcessHandle) : verdict :=
if bool_decide (state h = FAILED) then HandleFailure else
if negb (is_alive h) then HandleFailure else
if hang_exempt env then Leave else
match streaming_started_at h with
| None => Leave
| Some started =>
    match _streaming_progress_idle_sec env h with
    | Some idle => if longer idle (busy_hang_threshold_sec cfg) then HandleHang else Leave
    | None => if longer (now env - started) (max_streaming_duration_sec env) then HandleHang else Leave
    end
end.

Inductive first_half :=
| Decided (v : verdict)
| Ping.

(** The first half, for a process that is not marked permanently failed; the
   restart counter is reset on the way.  [shutdown] is the supervisor's flag. *)
Definition check_before_ping (policy : RestartPolicy) (shutdown : bool) (env : surroundings) (h : ProcessHandle)
  (restart_count : nat) : ProcessHandle * nat * first_half :=
if bool_decide (state h = STOPPING) then
  match stopping_since h with
  | Some since =>
      if negb shutdown && longer (now env - since) 30
      then (set_state FAILED h, restart_count, Decided HandleFailure)
      else (h, restart_count, Decided Leave)
  | None => (h, restart_count, Decided Leave)
  end
else if bool_decide (state h = RESTARTING) then (h, restart_count, Decided Leave)
else if is_streaming h then (h, restart_count, Decided (check_streaming env h))
else if bool_decide (state h = FAILED) then
  (h, restart_count, Decided (if is_alive h && warming_up env h then Leave else HandleFailure))
else if negb (is_alive h) then (set_exit_code (returncode h) h, restart_count, Decided HandleFailure)
else if warming_up env h then (h, restart_count, Decided Leave)
else if longer (startup_grace_sec cfg) (uptime env h) then (h, restart_count, Decided Leave)
else (h, if longer (uptime env h) (reset_after_sec policy) then 0 else restart_count, Ping).

(** The second half, on the handle as it is when the answer arrives. *)
Definition check_after_ping (env : surroundings) (reply : ping_reply) (h0 : ProcessHandle) : ProcessHandle * verdict :=
let '(h, r) := ping reply h0 in
if negb (success r) && transport_error r then
  if is_alive h then (set_missed_pings 0 h, Leave)
  else (set_exit_code (returncode h) h, HandleFailure)
else if success r then
  if is_busy r then
    if hang_exempt env then (set_busy_since None (set_missed_pings 0 h), Leave)
    else _handle_busy_health env (last_progress_at r) h
  else (set_busy_since None h, Leave)
else
  match _read_busy_sidecar (busy_marker env) h, hang_exempt env with
  | Some data, false => _handle_busy_health env (dget_none "last_progress_at" data) h
  | _, _ =>
      (set_busy_since None h,
       if bool_decide (max_missed_pings cfg ≤ missed_pings h) then HandleHang else Leave)
  end.
End checks.

(** The delay before restart number [count + 1]. *)
Definition backoff (policy : RestartPolicy) (count : nat) : Q :=
  let d := (backoff_base_sec policy * inject_Z (2 ^ Z.of_nat count))%Q in
  if longer d (backoff_max_sec policy) then backoff_max_sec policy else d.
