(* ===== verification/Supervisor.v ===== *)
(** * Life cycle of one anima's process

    [start_anima], [stop_anima], [restart_anima], [_mark_process_error] and
    [_respawn_anima_transaction] of [core/supervisor/manager.py], the failure
    and hang handlers of [_mgr_health.py], the recovery of [_mgr_reconcile.py]
    and the life of a [ProcessHandle], as coroutines of one event loop.  All
    state is kept per anima, so one anima is modelled.  A coroutine is its
    position ([pc], the await it is suspended in) with the continuation of the
    calls around it ([kont]); [resume] runs it to its next await.  What only
    informs (times of stops, exit codes after a stop, reasons and times of
    failures) is left out; so is the background bootstrap a start may launch. *)

From Stdlib Require Import QArith.
From stdpp Require Import prelude list.
From S2P Require Import Prelude Health.
Open Scope nat_scope.

(** [handles] are the [ProcessHandle] objects made so far; a handle's number
    is its place.  [registered] is the entry of [processes], [lock] the task
    holding the entry of [_lifecycle_locks]. *)
Record sup := mk_sup {
  shutdown : bool;
  enabled : bool;
  registered : option nat;
  handles : list ProcessHandle;
  lock : option nat;
  restarting : bool;
  starting : bool;
  permanently_failed : bool;
  restart_count : nat;
  start_fail_count : nat
}.
Definition set_shutdown (v : bool) (s : sup) : sup :=
  mk_sup v (enabled s) (registered s) (handles s) (lock s) (restarting s) (starting s) (permanently_failed s)
    (restart_count s) (start_fail_count s).
Definition set_enabled (v : bool) (s : sup) : sup :=
  mk_sup (shutdown s) v (registered s) (handles s) (lock s) (restarting s) (starting s) (permanently_failed s)
    (restart_count s) (start_fail_count s).
Definition set_registered (v : option nat) (s : sup) : sup :=
  mk_sup (shutdown s) (enabled s) v (handles s) (lock s) (restarting s) (starting s) (permanently_failed s)
    (restart_count s) (start_fail_count s).
Definition set_handles (v : list ProcessHandle) (s : sup) : sup :=
  mk_sup (shutdown s) (enabled s) (registered s) v (lock s) (restarting s) (starting s) (permanently_failed s)
    (restart_count s) (start_fail_count s).
Definition set_lock (v : option nat) (s : sup) : sup :=
  mk_sup (shutdown s) (enabled s) (registered s) (handles s) v (restarting s) (starting s) (permanently_failed s)
    (restart_count s) (start_fail_count s).
Definition set_restarting (v : bool) (s : sup) : sup :=
  mk_sup (shutdown s) (enabled s) (registered s) (handles s) (lock s) v (starting s) (permanently_failed s)
    (restart_count s) (start_fail_count s).
Definition set_starting (v : bool) (s : sup) : sup :=
  mk_sup (shutdown s) (enabled s) (registered s) (handles s) (lock s) (restarting s) v (permanently_failed s)
    (restart_count s) (start_fail_count s).
Definition set_failed (v : bool) (s : sup) : sup :=
  mk_sup (shutdown s) (enabled s) (registered s) (handles s) (lock s) (restarting s) (starting s) v
    (restart_count s) (start_fail_count s).
Definition set_restart_count (v : nat) (s : sup) : sup :=
  mk_sup (shutdown s) (enabled s) (registered s) (handles s) (lock s) (restarting s) (starting s)
    (permanently_failed s) v (start_fail_count s).
Definition set_start_fails (v : nat) (s : sup) : sup :=
  mk_sup (shutdown s) (enabled s) (registered s) (handles s) (lock s) (restarting s) (starting s)
    (permanently_failed s) (restart_count s) v.

Definition on_handle (n : nat) (f : ProcessHandle → ProcessHandle) (s : sup) : sup :=
  set_handles (alter f n (handles s)) s.
Definition mark_state (n : nat) (v : ProcessState) : sup → sup := on_handle n (set_state v).
(** The process of handle [n] is gone and the handle cleaned up. *)
Definition reap (n : nat) : sup → sup := on_handle n (set_process None).

(** Where a call of [start_anima] or [stop_anima] returns to: nowhere,
    [restart_anima], the failure handler of handle [n], or the respawn
    transaction it runs ([count] is the restart counter it read). *)
Inductive kont :=
| Finished
| RestartStart
| RestartEnd
| FailureEnd (n : nat)
| RespawnSkip (n count : nat)
| RespawnStart (n count attempt : nat)
| RespawnCheck (n count attempt : nat).

(** The awaits. *)
Inductive pc :=
| StartLock (k : kont)
| Spawning (n : nat) (k : kont)
| Aborting (n : nat) (k : kont)
| StatusQuery (k : kont)
| StopLock (k : kont)
| Draining (n : nat) (k : kont)
| Exiting (n : nat) (k : kont)
| Cleaning (n : nat) (k : kont)
| Repairing (n count : nat)
| Backoff (n count : nat)
| RespawnWait (n count attempt : nat)
| Marking (after : option (nat * nat))
| RecoverLock
| HangKill (n : nat).

(** How an await ends. *)
Inductive event := Go | Fails | Repaired.

Section programs.
Context (policy : RestartPolicy) (tid : nat) (now : Q) (new_pid : Z).

Definition max_attempts : nat := Nat.max 1 (max_retries policy).

(** The end of a failure handler ([finally]). *)
Definition failure_done (s : sup) : sup * option pc := (set_restarting false s, None).

(** [_mark_process_error] on the given handle, or on the registered one. *)
Definition mark_process_error (n : option nat) (after : option (nat * nat)) (s : sup) : sup * option pc :=
let target := match n with Some n => Some n | None => registered s end in
let s1 := match target with Some n => mark_state n FAILED s | None => s end in
(set_failed true s1, Some (Marking after)).

(** [except Exception] of the failure handler. *)
Definition failure_except (n : nat) (s : sup) : sup * option pc :=
if shutdown s then failure_done s else mark_process_error (Some n) None (mark_state n FAILED s).

(** The transaction returned no handle. *)
Definition respawn_none (n count : nat) (s : sup) : sup * option pc :=
if shutdown s || negb (enabled s) then failure_done (set_restart_count count s)
else failure_done (mark_state n FAILED s).
Definition respawn_exhausted (n count : nat) (s : sup) : sup * option pc :=
if shutdown s then respawn_none n count s else mark_process_error None (Some (n, count)) s.

(** One iteration of the loop, up to its first await. *)
Definition respawn_iter (n count attempt : nat) (s : sup) : sup * option pc :=
if bool_decide (max_attempts < attempt) then respawn_exhausted n count s
else if shutdown s || negb (enabled s) then
  match registered s with
  | Some _ => (s, Some (StopLock (RespawnSkip n count)))
  | None => respawn_none n count s
  end
else
  match registered s with
  | Some _ => (s, Some (StopLock (RespawnStart n count attempt)))
  | None => (s, Some (StartLock (RespawnCheck n count attempt)))
  end.
(** [except Exception] of the loop. *)
Definition respawn_failed (n count attempt : nat) (s : sup) : sup * option pc :=
if shutdown s then respawn_iter n count (S attempt) s
else
  let s1 := set_start_fails attempt s in
  if bool_decide (attempt < max_attempts) && longer (backoff_base_sec policy) 0
  then (s1, Some (RespawnWait n count attempt))
  else respawn_iter n count (S attempt) s1.

Definition return_ok (k : kont) (s : sup) : sup * option pc :=
match k with
| Finished => (s, None)
| RestartStart => (s, Some (StartLock RestartEnd))
| RestartEnd => (set_restarting false s, None)
| FailureEnd _ => failure_done s
| RespawnSkip n count => respawn_none n count s
| RespawnStart n count attempt => (s, Some (StartLock (RespawnCheck n count attempt)))
| RespawnCheck n count attempt =>
    match registered s with
    | Some _ => failure_done (set_failed false (set_start_fails 0 s))
    | None => if shutdown s || negb (enabled s) then respawn_none n count s else respawn_failed n count attempt s
    end
end.
Definition return_exn (k : kont) (s : sup) : sup * option pc :=
match k with
| Finished => (s, None)
| RestartStart | RestartEnd => (set_restarting false s, None)
| FailureEnd n | RespawnSkip n _ => failure_except n s
| RespawnStart n count attempt | RespawnCheck n count attempt => respawn_failed n count attempt s
end.

(** [start_anima] under the lock. *)
Definition new_handle : ProcessHandle := mk_handle STARTING (Some None) new_pid false None None now 0 None None.
Definition start_locked (k : kont) (s : sup) : sup * option pc :=
if shutdown s || negb (enabled s) || bool_decide (is_Some (registered s)) || starting s
then return_ok k (set_lock None s)
else (set_starting true (set_handles (handles s ++ [new_handle]) s), Some (Spawning (length (handles s)) k)).
Definition leave_start (s : sup) : sup := set_lock None (set_starting false s).

(** [stop_anima] under the lock, and its end. *)
Definition stop_locked (k : kont) (s : sup) : sup * option pc :=
match registered s with
| None => return_ok k (set_lock None s)
| Some n =>
    match handles s !! n with
    | Some h =>
        if bool_decide (state h ∈ [STOPPED; FAILED]) && negb (is_alive h)
        then (s, Some (Cleaning n k)) else (s, Some (Draining n k))
    | None => (s, Some (Draining n k))
    end
end.
Definition stopped (n : nat) (k : kont) (s : sup) : sup * option pc :=
let s1 := if bool_decide (registered s = Some n) then set_registered None s else s in
return_ok k (set_lock None s1).

(** The beginning of [_handle_process_failure]. *)
Definition failure_begin (n : nat) (s : sup) : sup * option pc :=
if shutdown s || restarting s then (s, None)
else
  let s1 := mark_state n RESTARTING (set_restarting true s) in
  if negb (enabled s1) then
    match registered s1 with
    | Some _ => (s1, Some (StopLock (FailureEnd n)))
    | None => failure_done s1
    end
  else if bool_decide (max_retries policy ≤ restart_count s1)
  then mark_process_error (Some n) None s1
  else (s1, Some (Repairing n (restart_count s1))).

Definition process_gone (n : nat) (s : sup) : bool :=
match handles s !! n with Some h => bool_decide (process h = None) | None => true end.

(** Runs a task from the await [p], which ends with [ev], to its next await. *)
Definition resume (p : pc) (ev : event) (s : sup) : option (sup * option pc) :=
match p, ev with
| StartLock k, Go =>
    match lock s with Some _ => None | None => Some (start_locked k (set_lock (Some tid) s)) end
| Spawning n k, Go =>
    let s1 := mark_state n RUNNING s in
    if shutdown s1 then Some (s1, Some (Aborting n k))
    else Some (set_start_fails 0 (set_registered (Some n) s1), Some (StatusQuery k))
| Spawning n k, Fails => Some (return_exn k (leave_start (reap n (mark_state n FAILED s))))
| Aborting n k, Go => Some (return_ok k (leave_start (reap n (mark_state n STOPPED s))))
| Aborting n k, Fails => Some (return_exn k (leave_start s))
| StatusQuery k, Go | StatusQuery k, Fails => Some (return_ok k (leave_start s))
| StopLock k, Go =>
    match lock s with Some _ => None | None => Some (stop_locked k (set_lock (Some tid) s)) end
| Draining n k, Go =>
    if process_gone n s then Some (stopped n k (mark_state n STOPPED s))
    else Some (on_handle n (set_stopping_since (Some now)) (mark_state n STOPPING s), Some (Exiting n k))
| Exiting n k, Go => Some (stopped n k (reap n (mark_state n STOPPED s)))
| Cleaning n k, Go => Some (stopped n k (reap n s))
| Draining _ k, Fails | Exiting _ k, Fails | Cleaning _ k, Fails => Some (return_exn k (set_lock None s))
| Repairing n count, Go => Some (s, Some (Backoff n count))
| Repairing n _, Repaired => Some (set_restart_count 0 s, Some (Backoff n 0))
| Backoff n count, Go =>
    if negb (enabled s) then
      match registered s with
      | Some _ => Some (s, Some (StopLock (FailureEnd n)))
      | None => Some (failure_done s)
      end
    else Some (respawn_iter n count 1 (set_restart_count (S count) s))
| RespawnWait n count attempt, Go => Some (respawn_iter n count (S attempt) s)
| Marking None, Go => Some (failure_done s)
| Marking (Some (n, count)), Go => Some (respawn_none n count s)
| RecoverLock, Go =>
    match lock s with
    | Some _ => None
    | None => Some (set_failed false (set_restart_count 0 (set_registered None s)), Some (StartLock Finished))
    end
| HangKill n, Go => Some (failure_begin n (if process_gone n s then s else reap n (mark_state n FAILED s)))
| _, _ => None
end.
End programs.

(* ------------------------------------------------------------------ *)
(** ** The system *)

(** The supervisor's state and its tasks; a finished task is [None]. *)
Definition conf : Type := sup * list (option pc).

(** [restart_anima] up to its first await. *)
Definition restart_begin (s : sup) : sup * option pc :=
  let s1 := set_restarting true (if shutdown s then s else set_failed false (set_restart_count 0 s)) in
  (s1, Some (match registered s1 with Some _ => StopLock RestartStart | None => StartLock RestartEnd end)).

(** What can happen: a task moves; somebody calls an operation; a health check
    starts a handler; the reconciliation recovers a process marked failed; a
    process exits; the configuration or the server changes. *)
Inductive action :=
| Resume (tid : nat) (ev : event) (now : Q) (new_pid : Z)
| CallStart
| CallStop
| CallRestart
| ReportFailure (n : nat)
| ReportHang (n : nat)
| Recover
| Crash (n : nat) (code : Z)
| Enable (b : bool)
| Shutdown.

Definition act (policy : RestartPolicy) (a : action) (c : conf) : option conf :=
  let '(s, ts) := c in
  let spawn r := Some (fst r, ts ++ [snd r] : list (option pc)) in
  match a with
  | Resume tid ev now new_pid =>
      match ts !! tid with
      | Some (Some p) =>
          match resume policy tid now new_pid p ev s with
          | Some (s', p') => Some (s', <[tid := p']> ts)
          | None => None
          end
      | _ => None
      end
  | CallStart => spawn (s, Some (StartLock Finished))
  | CallStop => spawn (s, Some (StopLock Finished))
  | CallRestart => spawn (restart_begin s)
  | ReportFailure n => if bool_decide (n < length (handles s)) then spawn (failure_begin policy n s) else None
  | ReportHang n => if bool_decide (n < length (handles s)) then spawn (s, Some (HangKill n)) else None
  | Recover =>
      if permanently_failed s && negb (shutdown s) then
        match registered s with
        | None => Some (set_failed false s, ts)
        | Some _ => if enabled s then spawn (s, Some RecoverLock) else None
        end
      else None
  | Crash n code =>
      match handles s !! n with
      | Some h => if is_alive h then Some (on_handle n (set_process (Some (Some code))) s, ts) else None
      | None => None
      end
  | Enable b => Some (set_enabled b s, ts)
  | Shutdown => Some (set_shutdown true s, ts)
  end.

Definition initial : conf := (mk_sup false true None [] None false false false 0 0, []).

Fixpoint run (policy : RestartPolicy) (acts : list action) (c : conf) : option conf :=
  match acts with
  | [] => Some c
  | a :: acts => match act policy a c with Some c' => run policy acts c' | None => None end
  end.
