(* ===== verification/SupervisorProps.v ===== *)
(** * Properties of the process life cycle

    Mutual exclusion of starts and stops, at most one live process, no start
    during a shutdown or of a disabled anima, and the bound on the failure
    handler. *)

From Stdlib Require Import QArith.
From stdpp Require Import prelude list.
From S2P Require Import Prelude Health Supervisor.
Open Scope nat_scope.

(** The process of handle [n] is running. *)
Definition alive_at (s : sup) (n : nat) : bool := from_option is_alive false (handles s !! n).

(** Awaits inside the lifecycle lock, and those of [start_anima] among them. *)
Definition starts (p : pc) : bool :=
  match p with Spawning _ _ | Aborting _ _ | StatusQuery _ => true | _ => false end.
Definition holds (p : pc) : bool :=
  starts p || match p with Draining _ _ | Exiting _ _ | Cleaning _ _ => true | _ => false end.
Definition unlocked (p : option pc) : bool := match p with Some p => negb (holds p) | None => true end.
(** The handle an unregistered process belongs to. *)
Definition newborn (p : pc) : option nat :=
  match p with Spawning n _ | Aborting n _ => Some n | _ => None end.

(** The state is the same as far as processes and the lock are concerned. *)
Record quiet (s s' : sup) : Prop := {
  q_lock : lock s' = lock s;
  q_starting : starting s' = starting s;
  q_registered : registered s' = registered s;
  q_shutdown : shutdown s' = shutdown s;
  q_enabled : enabled s' = enabled s;
  q_alive : ∀ n, alive_at s' n = alive_at s n;
  q_length : length (handles s') = length (handles s)
}.
Definition settles (s : sup) (r : sup * option pc) : Prop := quiet s (fst r) ∧ unlocked (snd r) = true.

Lemma quiet_refl s : quiet s s.
Proof. by split. Qed.
Lemma quiet_trans s1 s2 s3 : quiet s1 s2 → quiet s2 s3 → quiet s1 s3.
Proof. intros [] []. split; congruence. Qed.

Lemma alive_at_on_handle n f s m :
  alive_at (on_handle n f s) m =
    if decide (m = n) then from_option (λ h, is_alive (f h)) false (handles s !! n) else alive_at s m.
Proof.
  unfold alive_at, on_handle. cbn. case_decide as E; [subst; rewrite list_lookup_alter_eq|by rewrite list_lookup_alter_ne].
  by destruct (handles s !! n).
Qed.

(** A change of the fields of a handle that keeps its process. *)
Lemma on_handle_quiet n f s : (∀ h, is_alive (f h) = is_alive h) → quiet s (on_handle n f s).
Proof.
  intros Hf. split; try done.
  - intros m. rewrite alive_at_on_handle. case_decide; [|done]. subst. unfold alive_at.
    destruct (handles s !! n); cbn; [apply Hf|done].
  - cbn. apply length_alter.
Qed.
Lemma mark_state_quiet n v s : quiet s (mark_state n v s).
Proof. by apply on_handle_quiet. Qed.

Create HintDb quiet discriminated.
#[export] Hint Resolve quiet_refl mark_state_quiet : quiet.

Section settles.
Context (policy : RestartPolicy).

Ltac settle := split; [|done]; try done; first
  [ by split
  | eapply quiet_trans; [apply mark_state_quiet|by split]
  | eapply quiet_trans; [by split|apply mark_state_quiet] ].

Lemma failure_done_settles s : settles s (failure_done s).
Proof. settle. Qed.

Lemma settles_quiet s1 s2 r : quiet s1 s2 → settles s2 r → settles s1 r.
Proof. intros H [H1 H2]. split; [by eapply quiet_trans|done]. Qed.

Lemma mark_process_error_settles n after s : settles s (mark_process_error n after s).
Proof.
unfold mark_process_error. destruct n as [n|]; [settle|]. destruct (registered s) eqn:E; [settle|].
split; [|done]. split; cbn; try done; congruence.
Qed.

Lemma failure_except_settles n s : settles s (failure_except n s).
Proof.
unfold failure_except. case_match; [apply failure_done_settles|].
eapply settles_quiet; [apply (mark_state_quiet n FAILED)|apply mark_process_error_settles].
Qed.

Lemma respawn_none_settles n c s : settles s (respawn_none n c s).
Proof.
unfold respawn_none. case_match; eapply settles_quiet; [|apply failure_done_settles| |apply failure_done_settles]; [by split|].
apply mark_state_quiet.
Qed.

Lemma respawn_exhausted_settles n c s : settles s (respawn_exhausted n c s).
Proof. unfold respawn_exhausted. case_match; [apply respawn_none_settles|apply mark_process_error_settles]. Qed.

Lemma respawn_iter_settles n c a s : settles s (respawn_iter policy n c a s).
Proof.
unfold respawn_iter. repeat case_match; try (by split; [apply quiet_refl|]).
- apply respawn_exhausted_settles.
- apply respawn_none_settles.
Qed.

Lemma respawn_failed_settles n c a s : settles s (respawn_failed policy n c a s).
Proof.
unfold respawn_failed. repeat case_match; [apply respawn_iter_settles|settle|].
eapply settles_quiet; [|apply respawn_iter_settles]. by split.
Qed.

Lemma return_ok_settles k s : settles s (return_ok policy k s).
Proof.
destruct k; cbn; try (by split; [apply quiet_refl|]); try settle; [apply respawn_none_settles|].
repeat case_match; [settle|apply respawn_none_settles|apply respawn_failed_settles].
Qed.

Lemma return_exn_settles k s : settles s (return_exn policy k s).
Proof.
destruct k; cbn; try (by split; [apply quiet_refl|]); try settle.
all: first [apply failure_except_settles|apply respawn_failed_settles].
Qed.

Lemma failure_begin_settles n s : settles s (failure_begin policy n s).
Proof.
unfold failure_begin. case_match; [by split; [apply quiet_refl|]|].
assert (quiet s (mark_state n RESTARTING (set_restarting true s))) as Hq.
{ eapply quiet_trans; [|apply mark_state_quiet]. by split. }
repeat case_match; first
  [ eapply settles_quiet; [exact Hq|first [apply failure_done_settles|apply mark_process_error_settles]]
  | by split; [exact Hq|] ].
Qed.
End settles.

(* ------------------------------------------------------------------ *)
(** ** The lifecycle lock *)

Definition holding (p : option pc) : bool := negb (unlocked p).
Definition starting_pc (p : option pc) : bool := match p with Some p => starts p | None => false end.

(** The lock is held by exactly the task inside a locked region, and
    [starting] tells whether that is a start. *)
Record locked (c : conf) : Prop := {
  lk_holder : ∀ t p, snd c !! t = Some p → holding p = true → lock (fst c) = Some t;
  lk_held : ∀ t, lock (fst c) = Some t → ∃ p, snd c !! t = Some p ∧ holding p = true ∧ starting (fst c) = starting_pc p;
  lk_free : lock (fst c) = None → starting (fst c) = false
}.

Lemma holding_Some p : holding (Some p) = holds p.
Proof. unfold holding. cbn [unlocked]. apply negb_involutive. Qed.
Lemma starting_holding p : holding p = false → starting_pc p = false.
Proof. destruct p as [[]|]; done. Qed.

(** What a task does to the lock and to [starting]. *)
Definition lock_effect (tid : nat) (s s' : sup) (p p' : option pc) : Prop :=
  lock s' = (if holding p' then Some tid else if holding p then None else lock s) ∧
  (holding p' = true → holding p = true ∨ lock s = None) ∧
  starting s' = (if holding p' || holding p then starting_pc p' else starting s).

Lemma locked_step tid p p' s s' ts :
  locked (s, ts) → ts !! tid = Some p → lock_effect tid s s' p p' → locked (s', <[tid := p']> ts).
Proof.
  intros [Hh Hl Hf] Hp (El & Henter & Es). cbn in *.
  assert (tid < length ts) as Hlt by (by eapply lookup_lt_Some).
  assert (∀ t q, <[tid:=p']> ts !! t = Some q → (t = tid ∧ q = p') ∨ (t ≠ tid ∧ ts !! t = Some q)) as Hget.
  { intros t q. rewrite list_lookup_insert. case_decide as E; [|intros; right; split; [|done]].
    - intros [= <-]. left. by destruct E.
    - intros ->. apply E. done. }
  split; cbn.
  - intros t q [[-> ->]|[Hne Hq]]%Hget Hhold; rewrite El; [by rewrite Hhold|].
    pose proof (Hh t q Hq Hhold) as Hlock. destruct (holding p') eqn:E'; [exfalso|].
    + destruct (Henter eq_refl) as [Ep|Ep]; [|congruence]. pose proof (Hh tid p Hp Ep). congruence.
    + destruct (holding p) eqn:Ep; [|done]. pose proof (Hh tid p Hp Ep). congruence.
  - intros t Ht. rewrite El in Ht. rewrite Es. destruct (holding p') eqn:E'; simplify_eq/=.
    + exists p'. by rewrite list_lookup_insert_eq.
    + destruct (holding p) eqn:Ep; [done|]. cbn. destruct (Hl t Ht) as (q & Hq & Hhold & Hst).
      exists q. split; [|done]. rewrite list_lookup_insert_ne; [done|]. intros <-. congruence.
  - intros Ht. rewrite El in Ht. rewrite Es. destruct (holding p') eqn:E'; [done|]. cbn.
    destruct (holding p) eqn:Ep; [by apply starting_holding|auto].
Qed.

(** A new task that does not hold the lock, and changes that touch neither. *)
Lemma locked_spawn p s s' ts :
  locked (s, ts) → lock s' = lock s → starting s' = starting s → holding p = false → locked (s', ts ++ [p]).
Proof.
  intros [Hh Hl Hf] El Es Hp. split; cbn in *; rewrite ?El, ?Es; [|intros t|done].
  - intros t q Hq Hhold. apply lookup_app_Some in Hq as [Hq|[_ Hq]]; [eauto|].
    destruct (t - length ts) as [|[]]; simplify_eq/=; congruence.
  - intros Ht. destruct (Hl t Ht) as (q & Hq & ?). exists q. split; [|done]. by apply lookup_app_l_Some.
Qed.
Lemma locked_same s s' ts : locked (s, ts) → lock s' = lock s → starting s' = starting s → locked (s', ts).
Proof. intros [Hh Hl Hf] El Es. split; cbn in *; by rewrite ?El, ?Es. Qed.

(** The holder of the lock that is not starting. *)
Lemma not_starting tid p s ts :
  locked (s, ts) → ts !! tid = Some (Some p) → holds p = true → starts p = false → starting s = false.
Proof.
  intros [Hh Hl _] Hp Hhold Hns. cbn in *.
  rewrite <- holding_Some in Hhold. destruct (Hl tid (Hh tid _ Hp Hhold)) as (q & Hq & _ & ->). simplify_eq. done.
Qed.

Lemma settled_effect tid s s1 r p :
  holding p = false → lock s1 = lock s → starting s1 = starting s → settles s1 r → lock_effect tid s (fst r) p (snd r).
Proof.
  intros Hp El Es [[] Hu]. unfold lock_effect, holding in *. rewrite Hu. cbn. rewrite Hp. split_and!; [congruence|done|congruence].
Qed.
(** The end of a locked region. *)
Lemma release_effect tid s s1 r p :
  holding p = true → lock s1 = None → starting s1 = false → settles s1 r → lock_effect tid s (fst r) p (snd r).
Proof.
  intros Hp Hl Hs [[] Hu]. unfold lock_effect, holding in *. rewrite Hu. cbn. rewrite Hp.
  split_and!; [congruence|done|]. rewrite q_starting0, Hs. symmetry. apply starting_holding. unfold holding. by rewrite Hu.
Qed.

Lemma stopped_effect policy tid s s1 n k p :
  holding p = true → starting s1 = false → lock_effect tid s (fst (stopped policy n k s1)) p (snd (stopped policy n k s1)).
Proof.
  intros Hp Hs. unfold stopped. eapply release_effect; [done| | |apply return_ok_settles]; cbn; [done|].
  by case_bool_decide.
Qed.

(** Entering the lock and leaving it at once. *)
Lemma bounce_effect tid s s1 r p :
  holding p = false → lock s = None → starting s = false → lock s1 = None → starting s1 = false → settles s1 r →
  lock_effect tid s (fst r) p (snd r).
Proof.
  intros Hp El Es El1 Es1 [[] Hu]. unfold lock_effect, holding in *. rewrite Hu. cbn. rewrite Hp. split_and!; congruence.
Qed.

(** The position of a task against the lock and [starting]. *)
Lemma task_facts tid p s ts :
  locked (s, ts) → ts !! tid = Some (Some p) →
  (holds p = true → lock s = Some tid ∧ starting s = starts p) ∧ (lock s = None → starting s = false).
Proof.
  intros [Hh Hl Hf] Hp. split; [|done]. cbn in *. intros Hhold. rewrite <- holding_Some in Hhold.
  pose proof (Hh tid _ Hp Hhold) as Hlock. split; [done|].
  destruct (Hl tid Hlock) as (q & Hq & _ & ->). by simplify_eq.
Qed.

Lemma resume_lock policy tid now pid p ev s r ts :
  locked (s, ts) → ts !! tid = Some (Some p) → resume policy tid now pid p ev s = Some r →
  lock_effect tid s (fst r) (Some p) (snd r).
Proof.
  intros Hlk Hp Hr. destruct (task_facts tid p s ts Hlk Hp) as [Hin Hfree]. clear Hlk Hp ts.
  pose proof (return_ok_settles policy) as Hok. pose proof (return_exn_settles policy) as Hexn.
  pose proof (respawn_none_settles) as Hnone. pose proof (respawn_iter_settles policy) as Hiter.
  destruct p, ev; cbn in Hr; try done; try (by repeat case_match); try (destruct (lock s) eqn:El; [done|specialize (Hfree eq_refl)]);
    try (destruct (Hin eq_refl) as [Hlock Hst]; cbn in Hst); try (apply (inj Some) in Hr; subst r).
  - unfold start_locked. case_match; [by eapply bounce_effect; [| | | | |apply Hok]|].
    unfold lock_effect. cbn. split_and!; [done|by right|done].
  - destruct (shutdown s); apply (inj Some) in Hr; subst r; unfold lock_effect; cbn; split_and!; auto.
  - by eapply release_effect; [| | |apply Hexn].
  - by eapply release_effect; [| | |apply Hok].
  - by eapply release_effect; [| | |apply Hexn].
  - by eapply release_effect; [| | |apply Hok].
  - by eapply release_effect; [| | |apply Hok].
  - unfold stop_locked. repeat case_match; try (unfold lock_effect; cbn; split_and!; [done|by right|done]).
    by eapply bounce_effect; [| | | | |apply Hok].
  - case_match; simplify_eq; [by apply stopped_effect|]. unfold lock_effect. cbn. split_and!; auto.
  - by eapply release_effect; [| | |apply Hexn].
  - by apply stopped_effect.
  - by eapply release_effect; [| | |apply Hexn].
  - by apply stopped_effect.
  - by eapply release_effect; [| | |apply Hexn].
  - apply (settled_effect tid s s); [done..|]. split; [apply quiet_refl|done].
  - apply (settled_effect tid s s); [done..|]. by split; [split|].
  - repeat case_match; simplify_eq; apply (settled_effect tid s s); try done; first
      [ split; [apply quiet_refl|done]
      | apply failure_done_settles
      | eapply settles_quiet; [|apply Hiter]; by split ].
  - apply (settled_effect tid s s); [done|done|done|apply Hiter].
  - repeat case_match; simplify_eq; apply (settled_effect tid s s); try done; apply failure_done_settles || apply Hnone.
  - unfold lock_effect. cbn. by split_and!.
  - eapply settled_effect; [done| | |apply failure_begin_settles]; by case_match.
Qed.

Lemma act_locked policy a c c' : act policy a c = Some c' → locked c → locked c'.
Proof.
  destruct c as [s ts]. intros Ha Hlk. destruct a as [tid ev now pid| | | |n|n| |n code|b|]; cbn in Ha.
  - destruct (ts !! tid) as [[p|]|] eqn:Ep; [|done..].
    destruct (resume policy tid now pid p ev s) as [[s' p']|] eqn:Er; [|done]. simplify_eq.
    eapply locked_step; [done|done|]. by apply (resume_lock policy tid now pid p ev s (s', p') ts).
  - simplify_eq. by eapply locked_spawn.
  - simplify_eq. by eapply locked_spawn.
  - simplify_eq. eapply locked_spawn; [done|by cbn; case_match..|]. cbn. by case_match.
  - case_match; [|done]. simplify_eq. destruct (failure_begin_settles policy n s) as [[] Hu].
    eapply locked_spawn; [done|done|done|]. unfold holding. by rewrite Hu.
  - case_match; [|done]. simplify_eq. by eapply locked_spawn.
  - repeat case_match; simplify_eq; [by eapply locked_spawn|by eapply locked_same].
  - repeat case_match; simplify_eq. by eapply locked_same.
  - simplify_eq. by eapply locked_same.
  - simplify_eq. by eapply locked_same.
Qed.

(* ------------------------------------------------------------------ *)
(** ** One process *)

Definition newborn_of (p : option pc) : option nat := p ≫= newborn.

(** A live process is registered, or its start is still under way; while a
    start is under way nothing is registered. *)
Record single (c : conf) : Prop := {
  sg_newborn : ∀ t p n, snd c !! t = Some p → newborn_of p = Some n →
    registered (fst c) = None ∧ n < length (handles (fst c));
  sg_registered : ∀ n, registered (fst c) = Some n → n < length (handles (fst c));
  sg_alive : ∀ n, alive_at (fst c) n = true →
    registered (fst c) = Some n ∨ ∃ t p, snd c !! t = Some p ∧ newborn_of p = Some n
}.

Lemma newborn_holding p n : newborn_of p = Some n → holding p = true.
Proof. by destruct p as [[]|]. Qed.

(** The processes left by a step of a task, next to those before it. *)
Record process_effect (s s' : sup) (p p' : option pc) : Prop := {
  pe_newborn : ∀ n, newborn_of p' = Some n → registered s' = None ∧ n < length (handles s');
  pe_registered : registered s' = registered s ∨ holding p = true ∨ lock s = None;
  pe_length : length (handles s) ≤ length (handles s');
  pe_bound : ∀ n, registered s' = Some n → n < length (handles s');
  pe_alive : ∀ n, alive_at s' n = true → registered s' = Some n ∨ newborn_of p' = Some n ∨
    (alive_at s n = true ∧ registered s ≠ Some n ∧ newborn_of p ≠ Some n)
}.

Lemma single_step tid p p' s s' ts :
  locked (s, ts) → single (s, ts) → ts !! tid = Some p → process_effect s s' p p' → single (s', <[tid := p']> ts).
Proof.
  intros Hlk [Hn Hr Ha] Hp [En Er El Eb Ea]. cbn in *.
  assert (tid < length ts) as Hlt by (by eapply lookup_lt_Some).
  split; cbn; [|done|].
  - intros t q n Hq Hnb. destruct (decide (t = tid)) as [->|Hne].
    { rewrite list_lookup_insert_eq in Hq by done. simplify_eq. by apply En. }
    rewrite list_lookup_insert_ne in Hq by done. destruct (Hn t q n Hq Hnb) as [Hreg Hlen].
    split; [|lia]. pose proof (lk_holder _ Hlk t q Hq (newborn_holding q n Hnb)) as Hlock. cbn in Hlock.
    destruct Er as [->|[Hhold|Hnone]]; [done| |congruence].
    pose proof (lk_holder _ Hlk tid p Hp Hhold) as Hlock'. cbn in Hlock'. congruence.
  - intros n Hal. destruct (Ea n Hal) as [?|[Hnb|(Hal' & Hnr & Hnn)]]; [by left| |].
    + right. exists tid, p'. by rewrite list_lookup_insert_eq.
    + right. destruct (Ha n Hal') as [?|(t & q & Hq & Hnb)]; [done|].
      exists t, q. split; [|done]. rewrite list_lookup_insert_ne; [done|]. intros <-. congruence.
Qed.

Lemma single_spawn p s s' ts :
  single (s, ts) → registered s' = registered s → length (handles s') = length (handles s) →
  (∀ n, alive_at s' n = true → alive_at s n = true) → newborn_of p = None → single (s', ts ++ [p]).
Proof.
  intros [Hn Hr Ha] Er El Ea Hp. split; cbn in *; rewrite ?Er, ?El; [|done|].
  - intros t q n Hq Hnb. apply lookup_app_Some in Hq as [Hq|[_ Hq]]; [eauto|].
    destruct (t - length ts) as [|[]]; simplify_eq/=; congruence.
  - intros n Hal. destruct (Ha n (Ea n Hal)) as [?|(t & q & Hq & ?)]; [by left|right].
    exists t, q. split; [|done]. by apply lookup_app_l_Some.
Qed.
Lemma single_same s s' ts :
  single (s, ts) → registered s' = registered s → length (handles s') = length (handles s) →
  (∀ n, alive_at s' n = true → alive_at s n = true) → single (s', ts).
Proof.
  intros [Hn Hr Ha] Er El Ea. split; cbn in *; rewrite ?Er, ?El; [done|done|].
  intros n Hal. by apply Ha, Ea.
Qed.

Lemma unlocked_newborn p : unlocked p = true → newborn_of p = None.
Proof. by destruct p as [[]|]. Qed.

(** What a settled return leaves. *)
Lemma settled_processes s s1 r p :
  settles s1 r → (registered s1 = registered s ∨ holding p = true ∨ lock s = None) →
  length (handles s1) = length (handles s) →
  (∀ n, registered s1 = Some n → n < length (handles s)) →
  (∀ n, alive_at s1 n = true → registered s1 = Some n ∨ (alive_at s n = true ∧ registered s ≠ Some n ∧ newborn_of p ≠ Some n)) →
  process_effect s (fst r) p (snd r).
Proof.
  intros [[] Hu] Er El Eb Ea. apply unlocked_newborn in Hu. split.
  - intros n. by rewrite Hu.
  - by rewrite q_registered0.
  - lia.
  - intros n. rewrite q_registered0, q_length0, El. auto.
  - intros n. rewrite q_alive0, q_registered0, Hu. intros [?|?]%Ea; auto.
Qed.

(** Disorderly steps: the stop of a process whose start was overtaken by a
    shutdown raises, or the reconciliation drops a handle whose process lives. *)
Definition orderly (a : action) (c : conf) : Prop :=
  match a with
  | Resume tid ev _ _ =>
      match snd c !! tid with
      | Some (Some (Aborting _ _)) => ev = Go
      | Some (Some RecoverLock) => ∀ n, registered (fst c) = Some n → alive_at (fst c) n = false
      | _ => True
      end
  | _ => True
  end.

Lemma alive_on_handle_le n f s m :
  (∀ h, is_alive (f h) = true → is_alive h = true) → alive_at (on_handle n f s) m = true → alive_at s m = true.
Proof.
  intros Hf. rewrite alive_at_on_handle. case_decide; [|done]. subst. unfold alive_at.
  destruct (handles s !! n); cbn; [apply Hf|done].
Qed.
Lemma alive_reap n s m : alive_at (reap n s) m = true → alive_at s m = true ∧ m ≠ n.
Proof.
  unfold reap. rewrite alive_at_on_handle. case_decide; [|done]. by destruct (handles s !! n).
Qed.
Lemma alive_mark n v s m : alive_at (mark_state n v s) m = alive_at s m.
Proof. apply (mark_state_quiet n v s). Qed.
Lemma process_gone_dead n s : process_gone n s = true → alive_at s n = false.
Proof.
  unfold process_gone, alive_at. destruct (handles s !! n) as [h|]; cbn; [|done]. unfold is_alive. intros ?%bool_decide_eq_true.
  apply bool_decide_eq_false. congruence.
Qed.

Lemma stopped_processes policy s s1 n k p :
  holding p = true → newborn_of p = None → registered s1 = registered s → length (handles s1) = length (handles s) →
  (∀ m, registered s = Some m → m < length (handles s)) →
  (∀ m, alive_at s1 m = true → alive_at s m = true ∧ m ≠ n) →
  process_effect s (fst (stopped policy n k s1)) p (snd (stopped policy n k s1)).
Proof.
  intros Hp Hnb Er El Eb Ea. unfold stopped.
  eapply settled_processes; [apply return_ok_settles|by right; left|by case_bool_decide| |]; cbn.
  - intros m. case_bool_decide; cbn; [done|]. rewrite Er. auto.
  - intros m Hm. assert (alive_at s1 m = true) as [Hal Hne]%Ea by (by case_bool_decide).
    rewrite Hnb. destruct (decide (registered s = Some m)) as [E|E]; [left|right; by split_and!].
    case_bool_decide as E'; cbn; congruence.
Qed.

Lemma resume_processes policy tid now pid p ev s r ts :
  locked (s, ts) → single (s, ts) → ts !! tid = Some (Some p) → orderly (Resume tid ev now pid) (s, ts) →
  resume policy tid now pid p ev s = Some r → process_effect s (fst r) (Some p) (snd r).
Proof.
  intros Hlk [Hn Hreg Ha] Hp Hord Hr. cbn in Hn, Hreg, Ha, Hord. rewrite Hp in Hord.
  pose proof (λ n, Hn tid (Some p) n Hp) as Hnew. cbn in Hnew. clear Hn.
  assert (∀ m, alive_at s m = true → newborn p = None →
    registered s = Some m ∨ (alive_at s m = true ∧ registered s ≠ Some m ∧ newborn p ≠ Some m)) as Hkeep.
  { intros m Hm Hnb. rewrite Hnb. destruct (decide (registered s = Some m)); [by left|right; by split_and!]. }
  pose proof (return_ok_settles policy) as Hok. pose proof (return_exn_settles policy) as Hexn.
  pose proof (respawn_none_settles) as Hnone. pose proof (respawn_iter_settles policy) as Hiter.
  assert (∀ r', settles s r' → newborn p = None → process_effect s (fst r') (Some p) (snd r')) as Hquiet.
  { intros r' Hset Hnb. eapply settled_processes; [exact Hset|by left|done|done|]. intros m Hm. by apply Hkeep. }
  destruct p, ev; cbn in Hr; try done; try (by repeat case_match); try (destruct (lock s) eqn:El; [done|]);
    try (apply (inj Some) in Hr; subst r).
  - (* StartLock *)
    unfold start_locked. case_match eqn:Eg.
    + eapply settled_processes; [apply Hok|by left|done|done|]. intros m Hm. by apply Hkeep.
    + cbn in Eg. apply orb_false_iff in Eg as [[_ Ereg]%orb_false_iff _].
      apply bool_decide_eq_false, eq_None_not_Some in Ereg. split; cbn.
      * intros n [= <-]. rewrite length_app. cbn. split; [done|lia].
      * by left.
      * rewrite length_app. lia.
      * congruence.
      * intros m Hm. unfold alive_at in Hm. cbn in Hm. right.
        destruct (decide (m < length (handles s))); [right; rewrite lookup_app_l in Hm by done; split_and!; [done|congruence|done]|left].
        f_equal. rewrite lookup_app_r in Hm by lia. destruct (m - length (handles s)) eqn:E; cbn in Hm; [lia|done].
  - (* Spawning, ready *)
    destruct (Hnew n eq_refl) as [Hnr Hlen].
    destruct (shutdown s); apply (inj Some) in Hr; subst r; split; cbn; rewrite ?length_alter; try done.
    + by left.
    + intros m. rewrite alive_mark. intros Hm. right.
      destruct (decide (m = n)) as [->|]; [by left|right; split_and!; congruence].
    + by right; left.
    + intros m [= <-]. done.
    + intros m Hm. change (alive_at (mark_state n RUNNING s) m = true) in Hm. rewrite alive_mark in Hm.
      destruct (decide (m = n)) as [->|]; [by left|right; right; split_and!; congruence].
  - (* Spawning, failed *)
    destruct (Hnew n eq_refl) as [Hnr Hlen].
    eapply settled_processes; [apply Hexn|by left|cbn; by rewrite !length_alter|cbn; congruence|].
    intros m Hm. change (alive_at (reap n (mark_state n FAILED s)) m = true) in Hm.
    apply alive_reap in Hm as [Hm Hne]. rewrite alive_mark in Hm. right. cbn. split_and!; congruence.
  - (* Aborting, done *)
    destruct (Hnew n eq_refl) as [Hnr Hlen].
    eapply settled_processes; [apply Hok|by left|cbn; by rewrite !length_alter|cbn; congruence|].
    intros m Hm. change (alive_at (reap n (mark_state n STOPPED s)) m = true) in Hm.
    apply alive_reap in Hm as [Hm Hne]. rewrite alive_mark in Hm. right. cbn. split_and!; congruence.
  - (* StatusQuery *)
    eapply settled_processes; [apply Hok|by left|done|done|]. intros m Hm. by apply Hkeep.
  - eapply settled_processes; [apply Hok|by left|done|done|]. intros m Hm. by apply Hkeep.
  - (* StopLock *)
    unfold stop_locked. cbn [registered handles set_lock].
    assert (∀ q, newborn_of q = None → process_effect s (set_lock (Some tid) s) (Some (StopLock k)) q) as Henter.
    { intros q Hq. split; cbn; [by rewrite Hq|by left|done|done|]. intros m Hm.
      destruct (Hkeep m Hm eq_refl) as [?|?]; auto. }
    repeat case_match; try by apply Henter.
    eapply settled_processes; [apply Hok|by left|done|cbn; congruence|].
    intros m Hm. right. destruct (Hkeep m Hm eq_refl) as [?|(? & _ & ?)]; [done|split_and!; [done|congruence|done]].
  - (* Draining *)
    case_match eqn:Eg; apply (inj Some) in Hr; subst r.
    + apply stopped_processes; [done|done|done|cbn; by rewrite length_alter|done|].
      intros m. rewrite alive_mark. intros Hm. split; [done|]. intros ->. by rewrite process_gone_dead in Hm.
    + split; cbn; [done|by left|by rewrite !length_alter|by intros m Hm%Hreg; rewrite !length_alter|].
      intros m Hm. apply alive_on_handle_le in Hm; [|done]. rewrite alive_mark in Hm.
      destruct (Hkeep m Hm eq_refl) as [?|?]; auto.
  - eapply settled_processes; [apply Hexn|by left|done|done|]. intros m Hm. by apply Hkeep.
  - (* Exiting *)
    apply stopped_processes; [done|done|done|cbn; by rewrite !length_alter|done|].
    intros m [Hm Hne]%alive_reap. by rewrite alive_mark in Hm.
  - eapply settled_processes; [apply Hexn|by left|done|done|]. intros m Hm. by apply Hkeep.
  - (* Cleaning *)
    apply stopped_processes; [done|done|done|cbn; by rewrite !length_alter|done|]. by intros m Hm%alive_reap.
  - eapply settled_processes; [apply Hexn|by left|done|done|]. intros m Hm. by apply Hkeep.
  - (* the failure handler *)
    by apply (Hquiet (s, Some (Backoff n count))); [split; [apply quiet_refl|]|].
  - by apply (Hquiet (set_restart_count 0 s, Some (Backoff n 0))); [split; [split|]|].
  - repeat case_match; apply (inj Some) in Hr; subst r; apply Hquiet; try done; first
      [ split; [apply quiet_refl|done]
      | apply failure_done_settles
      | eapply settles_quiet; [|apply Hiter]; by split ].
  - apply Hquiet; [apply Hiter|done].
  - repeat case_match; apply (inj Some) in Hr; subst r; apply Hquiet; try done; apply failure_done_settles || apply Hnone.
  - (* RecoverLock *)
    split; cbn; [done|by right; right|done|done|]. intros m Hm. right. right.
    split; [exact Hm|split; [|done]]. intros Hrm.
    change (alive_at s m = true) in Hm. by rewrite Hord in Hm.
  - (* HangKill *)
    eapply settled_processes; [apply failure_begin_settles|left; by case_match|by case_match; cbn; rewrite ?length_alter| |].
    + intros m. by case_match; apply Hreg.
    + intros m Hm. case_match; [by apply Hkeep|]. apply alive_reap in Hm as [Hm Hne]. rewrite alive_mark in Hm.
      by apply Hkeep.
Qed.

Lemma act_single policy a c c' :
  act policy a c = Some c' → orderly a c → locked c → single c → single c'.
Proof.
  destruct c as [s ts]. intros Ha Hord Hlk Hsg. destruct a as [tid ev now pid| | | |n|n| |n code|b|]; cbn in Ha.
  - destruct (ts !! tid) as [[p|]|] eqn:Ep; [|done..].
    destruct (resume policy tid now pid p ev s) as [[s' p']|] eqn:Er; [|done]. simplify_eq.
    eapply single_step; [done|done|done|].
    exact (resume_processes policy tid now pid p ev s (s', p') ts Hlk Hsg Ep Hord Er).
  - simplify_eq. by eapply single_spawn.
  - simplify_eq. by eapply single_spawn.
  - simplify_eq. unfold restart_begin. cbn. eapply single_spawn; [done|by case_match..|intros n; by case_match|by repeat case_match].
  - case_match; [|done]. simplify_eq. destruct (failure_begin_settles policy n s) as [[] Hu].
    eapply single_spawn; [done|done|done|by intros m; rewrite q_alive0|by apply unlocked_newborn].
  - case_match; [|done]. simplify_eq. by eapply single_spawn.
  - repeat case_match; simplify_eq; [by eapply single_spawn|by eapply single_same].
  - repeat case_match; simplify_eq. eapply single_same; [done|done|apply length_alter|].
    intros m. apply alive_on_handle_le. intros h. unfold is_alive. cbn. by case_bool_decide.
  - simplify_eq. by eapply single_same.
  - simplify_eq. by eapply single_same.
Qed.

(* ------------------------------------------------------------------ *)
(** ** Reachable configurations *)

Inductive reach (policy : RestartPolicy) : conf → Prop :=
| reach_initial : reach policy initial
| reach_act a c c' : reach policy c → act policy a c = Some c' → reach policy c'.

(** The same without the disorderly steps. *)
Inductive orderly_reach (policy : RestartPolicy) : conf → Prop :=
| orderly_initial : orderly_reach policy initial
| orderly_act a c c' : orderly_reach policy c → orderly a c → act policy a c = Some c' → orderly_reach policy c'.

Lemma initial_locked : locked initial.
Proof. by split. Qed.
Lemma initial_single : single initial.
Proof. by split. Qed.

Lemma reach_locked policy c : reach policy c → locked c.
Proof. induction 1; [apply initial_locked|by eapply act_locked]. Qed.
Lemma orderly_single policy c : orderly_reach policy c → locked c ∧ single c.
Proof.
  induction 1 as [|a c c' _ [Hlk Hsg] Hord Ha]; [split; [apply initial_locked|apply initial_single]|].
  split; [by eapply act_locked|by eapply act_single].
Qed.

(** C22. Starts and stops of one anima exclude each other: in every reachable
    configuration at most one task is inside a start or a stop, the lifecycle
    lock names it, and [starting] says whether it is a start. *)
Theorem lifecycle_exclusive policy s ts t1 t2 p1 p2 :
  reach policy (s, ts) → ts !! t1 = Some (Some p1) → ts !! t2 = Some (Some p2) →
  holds p1 = true → holds p2 = true →
  t1 = t2 ∧ lock s = Some t1 ∧ starting s = starts p1.
Proof.
  intros Hr%reach_locked H1 H2 Hh1 Hh2.
  destruct (task_facts t1 p1 s ts Hr H1) as [[E1 Es] _]; [done|].
  destruct (task_facts t2 p2 s ts Hr H2) as [[E2 _] _]; [done|]. split_and!; congruence.
Qed.

