(* ===== verification/SupervisorLive.v ===== *)
(** * The supervisor's tasks end, and what they may undo

    Every task ends after a bounded number of resumptions and some task can
    always move, so the supervisor comes to rest; nothing is started during a
    shutdown or for a disabled anima.  Two schedules show what the failure
    handler does not check after its waits. *)

From Stdlib Require Import QArith.
From stdpp Require Import prelude list.
From S2P Require Import Prelude PyValue TaskModels TaskQueue Health Supervisor SupervisorProps.
Open Scope nat_scope.

(* ------------------------------------------------------------------ *)
(** ** Termination *)

Section rank.
Context (policy : RestartPolicy).
Local Abbreviation attempts := (max_attempts policy).

(** What is left of a respawn transaction from attempt [a] on. *)
Definition respawn_rank (a : nat) : nat := 20 * (S attempts - a) + 10.
(** What may follow a return to [k]. *)
Definition kont_rank (k : kont) : nat :=
match k with
| Finished | RestartEnd => 0
| RestartStart => 4
| FailureEnd _ | RespawnSkip _ _ => 1
| RespawnStart _ _ a => respawn_rank (S a) + 5
| RespawnCheck _ _ a => respawn_rank (S a) + 1
end.
(** An upper bound on the remaining resumptions of a task. *)
Definition rank (p : pc) : nat :=
match p with
| StartLock k | StopLock k => kont_rank k + 4
| Spawning _ k | Draining _ k => kont_rank k + 3
| Aborting _ k | StatusQuery k | Exiting _ k | Cleaning _ k => kont_rank k + 2
| Repairing _ _ => respawn_rank 1 + 2
| Backoff _ _ => respawn_rank 1 + 1
| RespawnWait _ _ a => respawn_rank (S a) + 1
| Marking _ => 1
| RecoverLock => 5
| HangKill _ => respawn_rank 1 + 3
end.
Definition rank_of (p : option pc) : nat := match p with Some p => rank p | None => 0 end.

Lemma attempts_pos : 1 ≤ attempts.
Proof. unfold max_attempts. lia. Qed.

Lemma respawn_iter_rank n c a s : rank_of (snd (respawn_iter policy n c a s)) ≤ respawn_rank a.
Proof.
unfold respawn_iter, respawn_exhausted, respawn_none. repeat case_match; cbn; unfold respawn_rank; lia || (breflect; lia).
Qed.
Lemma respawn_none_rank n c s : rank_of (snd (respawn_none n c s)) = 0.
Proof. unfold respawn_none. by case_match. Qed.
Lemma respawn_failed_rank n c a s : rank_of (snd (respawn_failed policy n c a s)) ≤ respawn_rank (S a) + 1.
Proof.
unfold respawn_failed. repeat case_match; cbn [snd rank_of rank]; try lia.
all: etrans; [apply respawn_iter_rank|lia].
Qed.
Lemma failure_except_rank n s : rank_of (snd (failure_except n s)) ≤ 1.
Proof. unfold failure_except. case_match; cbn; lia. Qed.

Lemma return_ok_rank k s : rank_of (snd (return_ok policy k s)) ≤ kont_rank k.
Proof.
destruct k; cbn [return_ok kont_rank]; try (cbn; lia).
- rewrite respawn_none_rank. lia.
- repeat case_match; [cbn; lia|rewrite respawn_none_rank; lia|apply respawn_failed_rank].
Qed.
Lemma return_exn_rank k s : rank_of (snd (return_exn policy k s)) ≤ kont_rank k.
Proof.
destruct k; cbn [return_exn kont_rank]; try (cbn; lia).
- apply failure_except_rank.
- apply failure_except_rank.
- etrans; [apply respawn_failed_rank|lia].
- apply respawn_failed_rank.
Qed.
Lemma failure_begin_rank n s : rank_of (snd (failure_begin policy n s)) ≤ respawn_rank 1 + 2.
Proof. unfold failure_begin. pose proof attempts_pos. repeat case_match; cbn; lia. Qed.
Lemma stopped_rank n k s : rank_of (snd (stopped policy n k s)) ≤ kont_rank k.
Proof. apply return_ok_rank. Qed.

(** Each resumption uses up rank. *)
Lemma resume_rank tid now pid p ev s r :
resume policy tid now pid p ev s = Some r → rank_of (snd r) < rank p.
Proof.
intros Hr.
pose proof return_ok_rank as Hok. pose proof return_exn_rank as Hexn. pose proof stopped_rank as Hstop.
pose proof (respawn_iter_rank) as Hiter. pose proof respawn_none_rank as Hnone.
destruct p, ev; cbn in Hr; try done; try (by repeat case_match); try (destruct (lock s); [done|]);
  try (apply (inj Some) in Hr; subst r); cbn [rank].
all: try (eapply Nat.le_lt_trans; [apply Hok || apply Hexn || apply Hstop|lia]).
- unfold start_locked. case_match; [eapply Nat.le_lt_trans; [apply Hok|lia]|cbn; lia].
- case_match; simplify_eq; cbn; lia.
- unfold stop_locked. repeat case_match; try (cbn; lia). eapply Nat.le_lt_trans; [apply Hok|lia].
- case_match; simplify_eq; [eapply Nat.le_lt_trans; [apply Hstop|lia]|cbn; lia].
- cbn. lia.
- cbn. lia.
- repeat case_match; simplify_eq; try (eapply Nat.le_lt_trans; [apply Hiter|lia]); cbn; unfold respawn_rank; lia.
- eapply Nat.le_lt_trans; [apply Hiter|lia].
- repeat case_match; simplify_eq; [rewrite Hnone|cbn]; lia.
- cbn. lia.
- eapply Nat.le_lt_trans; [apply failure_begin_rank|lia].
Qed.

(** The rank of all tasks together. *)
Definition total_rank (ts : list (option pc)) : nat := sum_list (rank_of <$> ts).

Lemma total_rank_insert tid p p' ts :
ts !! tid = Some p → total_rank (<[tid := p']> ts) + rank_of p = total_rank ts + rank_of p'.
Proof.
unfold total_rank. revert tid. induction ts as [|q ts IH]; intros [|tid] Hp; simplify_eq/=; [lia|].
specialize (IH tid Hp). lia.
Qed.
End rank.

Definition is_resume (a : action) : bool := match a with Resume _ _ _ _ => true | _ => false end.

Lemma resume_total_rank policy a c c' :
  is_resume a = true → act policy a c = Some c' → total_rank policy (snd c') < total_rank policy (snd c).
Proof.
  destruct a as [tid ev now pid| | | | | | | | |]; try done. intros _. destruct c as [s ts]. cbn [act fst snd].
  destruct (ts !! tid) as [[p|]|] eqn:Ep; [|done..].
  destruct (resume policy tid now pid p ev s) as [[s' p']|] eqn:Er; [|done]. intros [= <-].
  apply resume_rank in Er. pose proof (total_rank_insert policy tid (Some p) p' ts Ep). cbn [fst snd rank_of] in *. lia.
Qed.

(* ------------------------------------------------------------------ *)
(** ** Progress *)

Definition waits_for_lock (p : pc) : bool :=
  match p with StartLock _ | StopLock _ | RecoverLock => true | _ => false end.

(** A task that does not wait for the lock can go on, and so can one that
    waits for a free lock. *)
Lemma resume_defined policy tid now pid p s :
  waits_for_lock p = false ∨ lock s = None → is_Some (resume policy tid now pid p Go s).
Proof.
  intros [Hw|Hl]; destruct p as [| | | | | | | | | | |[[]|]| |]; cbn in *; rewrite ?Hl; try done; by repeat case_match.
Qed.

Lemma some_task_moves policy s ts :
  locked (s, ts) → (∃ t p, ts !! t = Some (Some p)) →
  ∃ t c', act policy (Resume t Go 0 0%Z) (s, ts) = Some c'.
Proof.
  intros Hlk (t & p & Hp).
  assert (∃ t p, ts !! t = Some (Some p) ∧ (waits_for_lock p = false ∨ lock s = None)) as (t' & p' & Hp' & Hgo).
  { destruct (lock s) as [u|] eqn:El; [|by exists t, p; auto].
    destruct (lk_held _ Hlk u El) as (q & Hq & Hh & _). cbn in *. destruct q as [q|]; [|done].
    exists u, q. split; [done|left]. rewrite holding_Some in Hh. by destruct q. }
  destruct (resume_defined policy t' 0 0%Z p' s Hgo) as [[s' p2] Hr].
  exists t'. cbn. rewrite Hp', Hr. by eexists.
Qed.

Lemma all_done_or_task (ts : list (option pc)) : Forall (λ p, p = None) ts ∨ ∃ t p, ts !! t = Some (Some p).
Proof.
  destruct (decide (Forall (λ p, p = None) ts)) as [|Hn]; [by left|right].
  apply not_Forall_Exists, Exists_exists in Hn as (p & [t Ht]%list_elem_of_lookup & Hp); [|apply _].
  destruct p as [p|]; [eauto|by destruct Hp].
Qed.

(** C24. The supervisor comes to rest: left to itself, from every reachable
    configuration the tasks can run to their ends without a deadlock, and no
    schedule resumes them more often than their rank. *)
Theorem supervisor_comes_to_rest policy c :
  reach policy c →
  (∃ acts c', Forall (λ a, is_resume a = true) acts ∧ run policy acts c = Some c' ∧ Forall (λ p, p = None) (snd c')) ∧
  (∀ acts c', Forall (λ a, is_resume a = true) acts → run policy acts c = Some c' → length acts ≤ total_rank policy (snd c)).
Proof.
  intros Hr%reach_locked. split.
  - remember (total_rank policy (snd c)) as k eqn:Ek. revert c Hr Ek.
    induction k as [k IH] using lt_wf_ind. intros [s ts] Hlk ->.
    destruct (all_done_or_task ts) as [Hdone|Htask]; [by exists [], (s, ts)|].
    destruct (some_task_moves policy s ts Hlk Htask) as (t & c' & Hact).
    pose proof (resume_total_rank policy (Resume t Go 0 0%Z) _ _ eq_refl Hact) as Hlt.
    destruct (IH _ Hlt c' (act_locked policy _ _ _ Hact Hlk) eq_refl) as (acts & c2 & Hall & Hrun & Hdone).
    exists (Resume t Go 0 0%Z :: acts), c2. split_and!; [by constructor|by cbn [run]; rewrite Hact|done].
  - intros acts. revert c Hr. induction acts as [|a acts IH]; intros c Hlk c' Hall Hrun; cbn in *; [lia|].
    apply Forall_cons in Hall as [Ha Hall]. destruct (act policy a c) as [c1|] eqn:Hact; [|done].
    pose proof (resume_total_rank policy _ _ _ Ha Hact) as Hlt.
    specialize (IH c1 (act_locked policy _ _ _ Hact Hlk) c' Hall Hrun). lia.
Qed.

(* ------------------------------------------------------------------ *)
(** ** No start when none is allowed *)

Definition tame (s s' : sup) : Prop :=
  (shutdown s = true ∨ enabled s = false → length (handles s') = length (handles s)) ∧
  (shutdown s = true → shutdown s' = true ∧ (registered s' = registered s ∨ registered s' = None)).

Lemma settled_tame s s1 r :
  settles s1 r → shutdown s1 = shutdown s → length (handles s1) = length (handles s) →
  (registered s1 = registered s ∨ registered s1 = None) → tame s (fst r).
Proof.
  intros [[] _] Es El Er. split; intros Hs; [congruence|]. split; [congruence|]. rewrite q_registered. done.
Qed.
Lemma same_tame s s' :
  shutdown s' = shutdown s → length (handles s') = length (handles s) →
  (registered s' = registered s ∨ registered s' = None) → tame s s'.
Proof. intros Es El Er. split; intros Hs; [done|]. split; [congruence|done]. Qed.

Lemma stopped_tame policy s s1 n k :
  shutdown s1 = shutdown s → length (handles s1) = length (handles s) → registered s1 = registered s →
  tame s (fst (stopped policy n k s1)).
Proof.
  intros Es El Er. unfold stopped. eapply settled_tame; [apply return_ok_settles|by case_bool_decide..|].
  cbn. case_bool_decide; [by right|by left].
Qed.

Lemma resume_tame policy tid now pid p ev s r :
  resume policy tid now pid p ev s = Some r → tame s (fst r).
Proof.
  intros Hr. pose proof (return_ok_settles policy) as Hok. pose proof (return_exn_settles policy) as Hexn.
  pose proof (respawn_none_settles) as Hnone. pose proof (respawn_iter_settles policy) as Hiter.
  destruct p, ev; cbn in Hr; try done; try (by repeat case_match); try (destruct (lock s) eqn:El; [done|]);
    try (apply (inj Some) in Hr; subst r).
  all: try (by apply stopped_tame; cbn; rewrite ?length_alter).
  all: try (by apply same_tame; cbn; rewrite ?length_alter; auto).
  all: try (by eapply settled_tame; [apply Hok || apply Hexn|cbn; rewrite ?length_alter; auto..]).
  - unfold start_locked. case_match eqn:Eg; [by eapply settled_tame; [apply Hok|cbn; auto..]|].
    cbn in Eg. apply orb_false_iff in Eg as [[[Es Ee]%orb_false_iff _]%orb_false_iff _].
    split; cbn; rewrite Es; [|done]. intros [|Hen]; [done|]. by rewrite Hen in Ee.
  - destruct (shutdown s) eqn:Es; simplify_eq; [apply same_tame; cbn; rewrite ?length_alter; auto|].
    split; cbn; rewrite ?length_alter, ?Es; done.
  - unfold stop_locked. repeat case_match; try (by apply same_tame; auto).
    by eapply settled_tame; [apply Hok|cbn; auto..].
  - case_match; simplify_eq; [by apply stopped_tame; cbn; rewrite ?length_alter|].
    by apply same_tame; cbn; rewrite ?length_alter; auto.
  - repeat case_match; simplify_eq; try (by apply same_tame; auto).
    by eapply settled_tame; [apply Hiter|cbn; auto..].
  - by eapply settled_tame; [apply Hiter|cbn; auto..].
  - repeat case_match; simplify_eq; [by eapply settled_tame; [apply Hnone|cbn; auto..]|by apply same_tame; auto].
  - by eapply settled_tame; [apply failure_begin_settles|case_match; cbn; rewrite ?length_alter; auto..].
Qed.

(** C25. During a shutdown, and while the anima is disabled, no step creates a
    process; and once the shutdown has begun no step registers one, even when
    its start was already under way. *)
Theorem no_unwanted_start policy a s ts s' ts' :
  act policy a (s, ts) = Some (s', ts') →
  (shutdown s = true ∨ enabled s = false → length (handles s') = length (handles s)) ∧
  (shutdown s = true → shutdown s' = true ∧ (registered s' = registered s ∨ registered s' = None)).
Proof.
  change (act policy a (s, ts) = Some (s', ts') → tame s s').
  intros Ha. destruct a as [tid ev now pid| | | |n|n| |n code|b|]; cbn in Ha.
  - destruct (ts !! tid) as [[p|]|]; [|done..].
    destruct (resume policy tid now pid p ev s) as [[s1 p']|] eqn:Er; [|done]. simplify_eq. by apply resume_tame in Er.
  - simplify_eq. by apply same_tame; auto.
  - simplify_eq. by apply same_tame; auto.
  - simplify_eq. apply same_tame; cbn; case_match; auto.
  - case_match; [|done]. simplify_eq. by eapply settled_tame; [apply failure_begin_settles|auto..].
  - case_match; [|done]. simplify_eq. by apply same_tame; auto.
  - repeat case_match; simplify_eq; by apply same_tame; auto.
  - repeat case_match; simplify_eq. apply same_tame; cbn; rewrite ?length_alter; auto.
  - simplify_eq. by apply same_tame; auto.
  - simplify_eq. split; cbn; auto.
Qed.

(* ------------------------------------------------------------------ *)
(** ** What the failure handler does not check *)

Definition go (t : nat) : action := Resume t Go 0 0%Z.

(** The wait before a restart is blind: a failure handler that wakes from
    its backoff stops whatever process is registered by then, however healthy
    it is and whoever started it. *)
Theorem backoff_stops_healthy_process policy s ts tid n count m h :
  ts !! tid = Some (Some (Backoff n count)) → lock s = None → shutdown s = false → enabled s = true →
  registered s = Some m → handles s !! m = Some h → state h = RUNNING → is_alive h = true →
  ∃ s' ts', run policy [go tid; go tid; go tid; go tid] (s, ts) = Some (s', ts') ∧
    registered s' = None ∧ alive_at s' m = false ∧ ∃ h', handles s' !! m = Some h' ∧ state h' = STOPPED.
Proof.
  intros Ht Hl Hsd Hen Hreg Hm Hst Hal.
  assert (tid < length ts) as Hlt by (by eapply lookup_lt_Some).
  pose proof (attempts_pos policy) as Hpos.
  set (s1 := set_restart_count (S count) s).
  assert (resume policy tid 0 0%Z (Backoff n count) Go s = Some (s1, Some (StopLock (RespawnStart n count 1)))) as R1.
  { cbn. rewrite Hen. cbn. unfold respawn_iter. rewrite bool_decide_eq_false_2 by lia. cbn.
    by rewrite Hsd, Hen, Hreg. }
  set (s2 := set_lock (Some tid) s1).
  assert (resume policy tid 0 0%Z (StopLock (RespawnStart n count 1)) Go s1 = Some (s2, Some (Draining m (RespawnStart n count 1)))) as R2.
  { cbn. rewrite Hl. unfold stop_locked. cbn. rewrite Hreg, Hm, Hal, andb_false_r. done. }
  assert (process_gone m s2 = false) as Hpg.
  { unfold process_gone. cbn. rewrite Hm. unfold is_alive in Hal. breflect. rewrite Hal. by apply bool_decide_eq_false. }
  set (s3 := on_handle m (set_stopping_since (Some 0%Q)) (mark_state m STOPPING s2)).
  assert (resume policy tid 0 0%Z (Draining m (RespawnStart n count 1)) Go s2 = Some (s3, Some (Exiting m (RespawnStart n count 1)))) as R3.
  { cbn [resume]. by rewrite Hpg. }
  assert (∃ s4, resume policy tid 0 0%Z (Exiting m (RespawnStart n count 1)) Go s3
                = Some (s4, Some (StartLock (RespawnCheck n count 1))) ∧ registered s4 = None ∧
                handles s4 = handles (reap m (mark_state m STOPPED s3))) as (s4 & R4 & Hr4 & Hh4).
  { cbn [resume]. unfold stopped. cbn. rewrite Hreg, bool_decide_eq_true_2 by done. eexists. split; [done|]. done. }
  eexists s4, _. split_and!; [|done| |].
  - unfold go. cbn [run act]. rewrite Ht, R1. cbn [run act].
    rewrite list_lookup_insert_eq, R2 by done. cbn [run act].
    rewrite list_insert_insert_eq, list_lookup_insert_eq, R3 by done. cbn [run act].
    rewrite list_insert_insert_eq, list_lookup_insert_eq, R4 by done. done.
  - unfold alive_at. rewrite Hh4. change (alive_at (reap m (mark_state m STOPPED s3)) m = false).
    destruct (alive_at _ m) eqn:E; [|done]. by apply alive_reap in E as [_ ?].
  - rewrite Hh4. cbn. rewrite !list_lookup_alter_eq, Hm. cbn. eexists. split; [done|done].
Qed.

(** A slow stop is undone: when the process of an enabled anima takes more
    than thirty seconds to stop, the health check takes the stop for a failure,
    and although the stop then completes, the handler starts the anima again:
    nobody called for a start. *)
Theorem slow_stop_is_undone `{Oracle} `{Calendar} `{IntText} policy hcfg env s ts t n h since :
  ts !! t = Some (Some (Exiting n Finished)) → lock s = Some t → registered s = Some n → handles s !! n = Some h →
  state h = STOPPING → stopping_since h = Some since → longer (now env - since) 30 = true →
  shutdown s = false → enabled s = true → restarting s = false → starting s = false → restart_count s < max_retries policy →
  snd (check_before_ping hcfg policy (shutdown s) env h (restart_count s)) = Decided HandleFailure ∧
  ∃ s' ts', run policy [ReportFailure n; go t; go (length ts); go (length ts); go (length ts); go (length ts)] (s, ts)
              = Some (s', ts') ∧
    registered s' = Some (length (handles s)) ∧ alive_at s' (length (handles s)) = true.
Proof.
  intros Ht Hl Hreg Hn Hst Hsince Hlong Hsd Hen Hre Hstart Hcount. split.
  { unfold check_before_ping. by rewrite Hst, bool_decide_eq_true_2, Hsince, Hsd, Hlong by done. }
  assert (t < length ts) as Hlt by (by eapply lookup_lt_Some).
  pose proof (attempts_pos policy) as Hpos. set (f := length ts).
  set (s1 := mark_state n RESTARTING (set_restarting true s)).
  assert (failure_begin policy n s = (s1, Some (Repairing n (restart_count s)))) as R1.
  { unfold failure_begin. rewrite Hsd, Hre. cbn. rewrite Hen. cbn. by rewrite bool_decide_eq_false_2 by lia. }
  assert (n < length (handles s)) as Hlen by (by eapply lookup_lt_Some).
  set (s2 := set_lock None (set_registered None (reap n (mark_state n STOPPED s1)))).
  assert (resume policy t 0 0%Z (Exiting n Finished) Go s1 = Some (s2, None)) as R2.
  { cbn [resume]. unfold stopped. cbn. by rewrite Hreg, bool_decide_eq_true_2 by done. }
  set (s3 := set_restart_count (S (restart_count s)) s2).
  assert (resume policy f 0 0%Z (Backoff n (restart_count s)) Go s2 = Some (s3, Some (StartLock (RespawnCheck n (restart_count s) 1)))) as R4.
  { cbn. rewrite Hen. cbn. unfold respawn_iter. rewrite bool_decide_eq_false_2 by lia. cbn. by rewrite Hsd, Hen. }
  assert (length (handles s3) = length (handles s)) as Hlen3 by (cbn; by rewrite !length_alter).
  set (s4 := set_starting true (set_handles (handles s3 ++ [new_handle 0 0]) (set_lock (Some f) s3))).
  assert (resume policy f 0 0%Z (StartLock (RespawnCheck n (restart_count s) 1)) Go s3
          = Some (s4, Some (Spawning (length (handles s)) (RespawnCheck n (restart_count s) 1)))) as R5.
  { rewrite <- Hlen3. cbn [resume]. unfold start_locked. cbn -[length]. rewrite Hsd, Hen, Hstart. done. }
  set (s5 := set_start_fails 0 (set_registered (Some (length (handles s))) (mark_state (length (handles s)) RUNNING s4))).
  assert (resume policy f 0 0%Z (Spawning (length (handles s)) (RespawnCheck n (restart_count s) 1)) Go s4
          = Some (s5, Some (StatusQuery (RespawnCheck n (restart_count s) 1)))) as R6.
  { cbn [resume]. cbn -[length]. by rewrite Hsd. }
  assert (∀ p : option pc, f < length (<[t:=p]> (ts ++ [Some (Repairing n (restart_count s))]))) as Hf.
  { intros p. rewrite length_insert, length_app. cbn. subst f. lia. }
  eexists s5, _. split_and!; [|done|].
  - unfold go. cbn [run act]. rewrite bool_decide_eq_true_2, R1 by done. cbn [fst snd run act].
    rewrite lookup_app_l, Ht, R2 by done. cbn [run act].
    rewrite list_lookup_insert_ne, lookup_app_r, Nat.sub_diag by (subst f; lia). cbn [list_lookup lookup resume run act].
        rewrite list_lookup_insert_eq, R4 by done. cbn [run act].
    rewrite list_insert_insert_eq, list_lookup_insert_eq, R5 by done. cbn [run act].
    rewrite list_insert_insert_eq, list_lookup_insert_eq, R6 by done. done.
  - change (alive_at (mark_state (length (handles s)) RUNNING s4) (length (handles s)) = true).
    rewrite alive_mark.
    change (from_option is_alive false ((handles s3 ++ [new_handle 0 0]) !! length (handles s)) = true).
    by rewrite <- Hlen3, lookup_app_r, Nat.sub_diag by lia.
Qed.
