(* ===== verification/SupervisorWitnesses.v ===== *)
(** * The supervisor at work

    Concrete histories of one anima's process, reached from the initial
    configuration by evaluating the steps, and for each theorem about health
    checks and life cycles an instance of it there. *)

From Stdlib Require Import QArith.
From stdpp Require Import prelude strings list.
From S2P Require Import Prelude PyValue TaskModels TaskQueue Health HealthProps Supervisor SupervisorProps SupervisorLive TaskWitnesses.
Open Scope nat_scope.

#[local] Existing Instance demo_oracle.
(** Timestamps are not read, except one text. *)
#[local] Instance demo_clock : Calendar := {|
  fromisoformat s := if bool_decide (s = "t50") then Some (mk_datetime true 50) else None;
  instant_at _ := 0%Q;
  wall_to_instant q := q
|}.
#[local] Instance demo_int_text : IntText := λ _, None.

Definition demo_policy : RestartPolicy := mk_policy 3 30 30 300.
Definition demo_health : HealthConfig := mk_health 10 5 2 30 900 300 180.

(* ------------------------------------------------------------------ *)
(** ** Health checks *)

Definition demo_handle : ProcessHandle := mk_handle RUNNING (Some None) 7 false None None 0 0 None None.
Definition quiet_env : surroundings := mk_surroundings 1000 false None false false false None 1800.
(** A marker of process 7 with progress at second 50, read at second 100. *)
Definition marker : json := JObj [("is_busy", JBool true); ("pid", JInt 7); ("last_progress_at", JStr "t50")].
Definition busy_env : surroundings := mk_surroundings 100 false None false false false (Some marker) 1800.

Lemma dead_process_reported_witness :
  snd (check_before_ping demo_health demo_policy false quiet_env (set_process (Some (Some 1%Z)) demo_handle) 0) = Decided HandleFailure.
Proof. by apply dead_process_reported. Defined.


(** With two missed pings allowed, the second round starts the hang handler. *)
Lemma silence_tolerated_witness :
  rounds demo_health [(quiet_env, ReplyTimeout); (quiet_env, ReplyError); (quiet_env, ReplyTimeout)] demo_handle
    = [Leave; HandleHang; HandleHang].
Proof.
  rewrite (silence_tolerated demo_health [(quiet_env, ReplyTimeout); (quiet_env, ReplyError); (quiet_env, ReplyTimeout)] demo_handle).
  - reflexivity.
  - by repeat constructor.
Defined.

Lemma backoff_bounds_witness :
  (Health.backoff demo_policy 2 <= 30)%Q ∧ (Health.backoff demo_policy 2 <= Health.backoff demo_policy 3)%Q.
Proof. apply (backoff_bounds demo_policy 2). vm_compute. discriminate. Defined.

(* ------------------------------------------------------------------ *)
(** ** Life cycles *)

Lemma run_reach policy acts c c' : reach policy c → run policy acts c = Some c' → reach policy c'.
Proof.
  revert c. induction acts as [|a acts IH]; intros c Hc Hr; cbn in Hr; [by simplify_eq|].
  destruct (act policy a c) as [c1|] eqn:Ha; [|done]. by apply (IH c1); [eapply reach_act|].
Qed.

(** No step of the history is disorderly by its position alone. *)
Definition orderly_here (a : action) (c : conf) : bool :=
  match a with
  | Resume tid _ _ _ => match snd c !! tid with Some (Some (Aborting _ _)) | Some (Some RecoverLock) => false | _ => true end
  | _ => true
  end.
Fixpoint orderly_run (policy : RestartPolicy) (acts : list action) (c : conf) : option conf :=
  match acts with
  | [] => Some c
  | a :: acts =>
      if orderly_here a c then match act policy a c with Some c' => orderly_run policy acts c' | None => None end else None
  end.
Lemma orderly_run_reach policy acts c c' :
  orderly_reach policy c → orderly_run policy acts c = Some c' → orderly_reach policy c'.
Proof.
  revert c. induction acts as [|a acts IH]; intros c Hc Hr; cbn in Hr; [by simplify_eq|].
  destruct (orderly_here a c) eqn:Eo; [|done]. destruct (act policy a c) as [c1|] eqn:Ha; [|done].
  apply (IH c1); [|done]. eapply orderly_act; [done| |done].
  unfold orderly_here, orderly in *. by repeat case_match.
Qed.

(** The anima is started; a second start waits for the first. *)
Definition started_acts : list action := [CallStart; go 0; go 0; go 0].
Definition waiting_acts : list action := [CallStart; CallStart; go 0].
(** Its process dies, the failure handler waits, a manual restart is faster. *)
Definition overtaken_acts : list action :=
  started_acts ++ [Crash 0 1; ReportFailure 0; go 1; CallRestart; go 2; go 2; go 2; go 2; go 2; go 2].
(** A stop waits for the process to exit. *)
Definition stopping_acts : list action := started_acts ++ [CallStop; go 1; go 1].

Local Abbreviation reached acts := (default initial (run demo_policy acts initial)).

Lemma overtaken_runs : run demo_policy overtaken_acts initial = Some (reached overtaken_acts).
Proof. vm_compute. reflexivity. Qed.
Lemma waiting_runs : run demo_policy waiting_acts initial = Some (reached waiting_acts).
Proof. vm_compute. reflexivity. Qed.
Lemma started_runs : orderly_run demo_policy started_acts initial = Some (reached started_acts).
Proof. vm_compute. reflexivity. Qed.

Lemma lifecycle_exclusive_witness :
  0 = 0 ∧ lock (fst (reached waiting_acts)) = Some 0 ∧ starting (fst (reached waiting_acts)) = true.
Proof.
  apply (lifecycle_exclusive demo_policy (fst (reached waiting_acts)) (snd (reached waiting_acts)) 0 0
           (Spawning 0 Finished) (Spawning 0 Finished)); [|vm_compute; reflexivity..].
  apply (run_reach demo_policy waiting_acts initial); [apply reach_initial|exact waiting_runs].
Defined.


Lemma supervisor_comes_to_rest_witness :
  ∃ acts c', run demo_policy acts (reached overtaken_acts) = Some c' ∧ Forall (λ p, p = None) (snd c').
Proof.
  destruct (supervisor_comes_to_rest demo_policy (reached overtaken_acts)) as [(acts & c' & _ & Hr & Hd) _]; [|by exists acts, c'].
  apply (run_reach demo_policy overtaken_acts initial); [apply reach_initial|exact overtaken_runs].
Defined.

(** A start that waits for the lock when the shutdown begins. *)
Definition halted_acts : list action := [CallStart; Shutdown].
Lemma halted_step :
  act demo_policy (go 0) (reached halted_acts) = Some (fst (reached halted_acts), [None]).
Proof. vm_compute. reflexivity. Qed.
Lemma no_unwanted_start_witness : length (handles (fst (reached halted_acts))) = 0.
Proof.
  apply (no_unwanted_start demo_policy (go 0) (fst (reached halted_acts)) (snd (reached halted_acts))
           (fst (reached halted_acts)) [None] halted_step).
  left. vm_compute. reflexivity.
Defined.

Lemma backoff_stops_healthy_process_witness :
  ∃ s' ts', run demo_policy [go 1; go 1; go 1; go 1] (reached overtaken_acts) = Some (s', ts') ∧ registered s' = None.
Proof.
  destruct (backoff_stops_healthy_process demo_policy (fst (reached overtaken_acts)) (snd (reached overtaken_acts)) 1 0 0 1
              (mk_handle RUNNING (Some None) 0 false None None 0 0 None None)) as (s' & ts' & Hr & Hn & _);
    [vm_compute; reflexivity..|].
  exists s', ts'. split; [by rewrite <- surjective_pairing in Hr|done].
Defined.

(** The health check of second 40, when the stop has taken forty seconds. *)
Definition late_env : surroundings := mk_surroundings 40 false None false false false None 1800.
Lemma slow_stop_is_undone_witness :
  ∃ s' ts', run demo_policy [ReportFailure 0; go 1; go 2; go 2; go 2; go 2] (reached stopping_acts) = Some (s', ts') ∧
    registered s' = Some 1.
Proof.
  destruct (slow_stop_is_undone demo_policy demo_health late_env (fst (reached stopping_acts)) (snd (reached stopping_acts)) 1 0
           (mk_handle STOPPING (Some None) 0 false None (Some 0%Q) 0 0 None None) 0%Q) as [_ (s' & ts' & Hr & Hn & _)]; [vm_compute; reflexivity..|vm_compute; lia|].
  exists s', ts'. split; [by rewrite <- surjective_pairing in Hr|exact Hn].
Defined.
