(* ===== verification/FileSystem.v ===== *)
(** * Paths and the file system

    What the permission checks use of [pathlib] and [os.path] (Python 3.12,
    POSIX): lexical paths, [resolve], [is_relative_to], [is_dir], [mkdir].  A
    path that is absolute and normal is the list of its components; the file
    system maps such paths to nodes.  [joinreal] is [posixpath._joinrealpath]:
    it enters every symbolic link once, so the number of nodes bounds its
    nesting, and [realpath_total] says that the fuel is enough. *)

From Stdlib Require Import Ascii.
From stdpp Require Import prelude strings list gmap.
From S2P Require Import Prelude PyValue PyText.

Abbreviation path := (list string).

(* ------------------------------------------------------------------ *)
(** ** Lexical paths *)

(** [Path(s)]: empty components and [.] are dropped, [..] is kept. *)
Record pure_path := mk_path { absolute : bool; parts : path }.
#[global] Instance pure_path_eq_dec : EqDecision pure_path.
Proof. solve_decision. Defined.

Fixpoint split_at (sep : ascii) (s : string) : list string :=
  match s with
  | EmptyString => [""]
  | String c s' =>
      if bool_decide (c = sep) then "" :: split_at sep s'
      else match split_at sep s' with
           | x :: l => String c x :: l
           | [] => [String c ""]
           end
  end.
Definition slash : ascii := "/"%char.
Definition Path (s : string) : pure_path :=
  mk_path (startswith "/" s) (filter (λ x, x ≠ "" ∧ x ≠ ".") (split_at slash s)).

(** [base / p]; [p.name]; [base.parent]. *)
Definition joinpath (base p : pure_path) : pure_path :=
  if absolute p then p else mk_path (absolute base) (parts base ++ parts p).
Definition name_of (p : path) : string := default "" (last p).
Definition parent (p : path) : path := removelast p.
Definition of_path (p : path) : pure_path := mk_path true p.

(** [..] taken away lexically ([os.path.normpath] of an absolute path). *)
Definition normpath (l : path) : path :=
  foldl (λ acc x, if bool_decide (x = "..") then parent acc else acc ++ [x]) [] l.

Definition is_relative_to (p root : path) : bool := bool_decide (root `prefix_of` p).

(* ------------------------------------------------------------------ *)
(** ** The file system *)

(** A file holds text; only what its JSON says matters here ([None]: it cannot
    be read or is not JSON). *)
Inductive node :=
| Dir
| File (content : option json)
| Link (target : pure_path).
Abbreviation tree := (gmap (list string) node).

Class OsEnv := {
  cwd : path;
  home_of : string → option path
}.

Abbreviation seen_links := (gmap (list string) (option path)).

(** The path so far, the rest to be walked, the links entered ([None] while a
    link is being resolved).  The result says whether no loop was met. *)
Fixpoint joinreal (fuel : nat) (fs : tree) (seen : seen_links) (start rest : path) : option (path * bool * seen_links) :=
  match fuel with
  | O => None
  | S f =>
      (fix walk (seen : seen_links) (here rest : path) : option (path * bool * seen_links) :=
         match rest with
         | [] => Some (here, true, seen)
         | name :: rest =>
             if bool_decide (name = "..") then walk seen (parent here) rest else
             let newpath := here ++ [name] in
             match fs !! newpath with
             | Some (Link target) =>
                 match seen !! newpath with
                 | Some (Some p) => walk seen p rest
                 | Some None => Some (newpath ++ rest, false, seen)
                 | None =>
                     match joinreal f fs (<[newpath := None]> seen) (if absolute target then [] else here) (parts target) with
                     | None => None
                     | Some (p, true, seen') => walk (<[newpath := Some p]> seen') p rest
                     | Some (p, false, seen') => Some (p ++ rest, false, seen')
                     end
                 end
             | _ => walk seen newpath rest
             end
         end) seen start rest
  end.

Section os.
Context `{OsEnv}.

Definition start_of (p : pure_path) : path := if absolute p then [] else cwd.
Definition realpath (fs : tree) (p : pure_path) : option (path * bool) :=
(λ r, (normpath (fst (fst r)), snd (fst r))) <$> joinreal (S (size fs)) fs ∅ (start_of p) (parts p).

(** [Path.resolve()]: a path that still runs into a loop raises. *)
Definition resolve (fs : tree) (p : pure_path) : result path :=
match realpath fs p with
| Some (q, true) => Ok q
| Some (q, false) =>
    match realpath fs (of_path q) with
    | Some (_, true) => Ok q
    | _ => Err (RuntimeError "Symlink loop")
    end
| None => Err (RuntimeError "fuel")
end.

(** [os.path.abspath]. *)
Definition abspath (p : pure_path) : path := normpath (start_of p ++ parts p).

Definition expanduser (p : pure_path) : result pure_path :=
match parts p with
| x :: rest =>
    if negb (absolute p) && startswith "~" x then
      match home_of x with
      | Some h => Ok (of_path (h ++ rest))
      | None => Err (RuntimeError "Could not determine home directory.")
      end
    else Ok p
| [] => Ok p
end.

(** What a path leads to, links followed. *)
Definition stat (fs : tree) (p : pure_path) : option node :=
match realpath fs p with
| Some ([], true) => Some Dir
| Some (q, true) => fs !! q
| _ => None
end.
Definition is_dir (fs : tree) (p : pure_path) : bool :=
match stat fs p with Some Dir => true | _ => false end.
Definition is_file (fs : tree) (p : pure_path) : bool :=
match stat fs p with Some (File _) => true | _ => false end.
Definition path_exists (fs : tree) (p : pure_path) : bool := bool_decide (is_Some (stat fs p)).
Definition read_json (fs : tree) (p : pure_path) : option json :=
match stat fs p with Some (File j) => j | _ => None end.
(** [is_symlink], of a path whose parent is already resolved. *)
Definition is_symlink (fs : tree) (p : path) : bool :=
match fs !! p with Some (Link _) => true | _ => false end.
End os.

(** [mkdir(parents=True, exist_ok=True)] at a resolved path. *)
Fixpoint mkdirs (fs : tree) (here rest : path) : result tree :=
  match rest with
  | [] => Ok fs
  | name :: rest =>
      let p := here ++ [name] in
      match fs !! p with
      | Some Dir => mkdirs fs p rest
      | None => mkdirs (<[p := Dir]> fs) p rest
      | Some _ => Err (FileExistsError name)
      end
  end.

(* ------------------------------------------------------------------ *)
(** ** Resolution ends *)

Lemma joinreal_total fs fuel seen here rest :
  dom seen ⊆ dom fs → size fs < fuel + size seen →
  ∃ p ok seen', joinreal fuel fs seen here rest = Some (p, ok, seen') ∧ dom seen ⊆ dom seen' ∧ dom seen' ⊆ dom fs.
Proof.
  revert seen here rest. induction fuel as [|f IH]; intros seen here rest Hd Hlt.
  { apply subseteq_size in Hd. rewrite !size_dom in Hd. lia. }
  cbn [joinreal]. revert seen here Hd Hlt. induction rest as [|name rest IHr]; intros seen here Hd Hlt.
  { by exists here, true, seen. }
  case_bool_decide; [by apply IHr|]. destruct (fs !! (here ++ [name])) as [[| |target]|] eqn:En; [by apply IHr..| |by apply IHr].
  destruct (seen !! (here ++ [name])) as [[p|]|] eqn:Es; [by apply IHr|by eexists _, _, _|].
  destruct (IH (<[here ++ [name] := None]> seen) (if absolute target then [] else here) (parts target))
    as (p & ok & seen' & -> & Hsub & Hfs).
  { rewrite dom_insert. apply elem_of_dom_2 in En. set_solver. }
  { rewrite map_size_insert_None by done. lia. }
  assert (dom seen ⊆ dom seen') as Hkeep by (rewrite dom_insert in Hsub; set_solver).
  destruct ok; [|by exists (p ++ rest), false, seen'].
  assert (here ++ [name] ∈ dom seen') as Hin by (rewrite dom_insert in Hsub; set_solver).
  destruct (IHr (<[here ++ [name] := Some p]> seen') p) as (p' & ok' & seen2 & Hw & Hs2 & Hf2).
  - rewrite dom_insert. set_solver.
  - apply subseteq_size in Hkeep. rewrite !size_dom in Hkeep.
    rewrite map_size_insert_Some by (by apply elem_of_dom in Hin as [? ->]). lia.
  - exists p', ok', seen2. split_and!; [exact Hw| |done]. rewrite dom_insert in Hs2. set_solver.
Qed.

Lemma realpath_total `{OsEnv} fs p : is_Some (realpath fs p).
Proof.
  unfold realpath. destruct (joinreal_total fs (S (size fs)) ∅ (start_of p) (parts p)) as (q & ok & s & -> & _); [set_solver|lia|].
  by eexists.
Qed.

(* ------------------------------------------------------------------ *)
(** ** What resolution returns *)

Definition no_link (fs : tree) (p : path) : Prop := ∀ target, fs !! p ≠ Some (Link target).

(** No step of the path is a link or [..]. *)
Definition canonical (fs : tree) (p : path) : Prop :=
  ∀ q x, q ++ [x] `prefix_of` p → x ≠ ".." ∧ no_link fs (q ++ [x]).

Lemma canonical_nil fs : canonical fs [].
Proof. intros q x Hp%prefix_nil_inv. by destruct q. Qed.
Lemma canonical_prefix fs p q : q `prefix_of` p → canonical fs p → canonical fs q.
Proof. intros Hq Hp r x Hr. apply Hp. by etrans. Qed.
Lemma parent_prefix p : parent p `prefix_of` p.
Proof. destruct p as [|x p _] using rev_ind; [done|]. unfold parent. rewrite removelast_last. by apply prefix_app_r. Qed.
Lemma canonical_parent fs p : canonical fs p → canonical fs (parent p).
Proof. apply canonical_prefix, parent_prefix. Qed.
Lemma prefix_snoc_inv (q p : path) x : q `prefix_of` p ++ [x] → q `prefix_of` p ∨ q = p ++ [x].
Proof.
  intros [k Hk]. destruct k as [|y k _] using rev_ind; [right; by rewrite app_nil_r in Hk|left].
  rewrite app_assoc in Hk. apply app_inj_tail in Hk as [-> _]. by apply prefix_app_r.
Qed.
Lemma canonical_snoc fs p x : canonical fs p → x ≠ ".." → no_link fs (p ++ [x]) → canonical fs (p ++ [x]).
Proof. intros Hp Hx Hl q y [Hq|[-> ->]%app_inj_tail]%prefix_snoc_inv; [by apply Hp|done]. Qed.

(** [canonical], by evaluation. *)
Fixpoint canonical_from (fs : tree) (here rest : path) : bool :=
  match rest with
  | [] => true
  | x :: rest =>
      negb (bool_decide (x = "..")) && negb (is_symlink fs (here ++ [x])) && canonical_from fs (here ++ [x]) rest
  end.
Lemma canonical_from_sound fs here rest :
  canonical fs here → canonical_from fs here rest = true → canonical fs (here ++ rest).
Proof.
  revert here. induction rest as [|x rest IH]; intros here Hh; cbn; [by rewrite app_nil_r|].
  rewrite !andb_true_iff, !negb_true_iff, bool_decide_eq_false. intros [[Hx Hl] Hr].
  replace (here ++ x :: rest) with ((here ++ [x]) ++ rest) by (by rewrite <- app_assoc).
  apply IH; [|done]. apply canonical_snoc; [done..|]. intros t Ht. unfold is_symlink in Hl. by rewrite Ht in Hl.
Qed.
Lemma canonical_eval fs p : canonical_from fs [] p = true → canonical fs p.
Proof. apply (canonical_from_sound fs []), canonical_nil. Qed.

(** The result of a resolution without loop. *)
Lemma joinreal_canonical fs fuel seen here rest p seen' :
  canonical fs here → (∀ k q, seen !! k = Some (Some q) → canonical fs q) →
  joinreal fuel fs seen here rest = Some (p, true, seen') →
  canonical fs p ∧ (∀ k q, seen' !! k = Some (Some q) → canonical fs q).
Proof.
  revert seen here rest p seen'. induction fuel as [|f IH]; intros seen here rest p seen' Hh Hs; [done|].
  cbn [joinreal]. revert seen here Hh Hs. induction rest as [|name rest IHr]; intros seen here Hh Hs.
  { intros [= <- <-]. done. }
  case_bool_decide as Hdots; [by apply IHr, Hs; apply canonical_parent|].
  assert (no_link fs (here ++ [name]) → canonical fs (here ++ [name])) as Hsnoc by (by apply canonical_snoc).
  destruct (fs !! (here ++ [name])) as [[|j|target]|] eqn:En;
    [apply IHr; [apply Hsnoc; intros ?; congruence|done]..| |apply IHr; [apply Hsnoc; intros ?; congruence|done]].
  destruct (seen !! (here ++ [name])) as [[q|]|] eqn:Es; [|done|].
  { apply IHr; [by eapply Hs|done]. }
  destruct (joinreal f fs _ _ _) as [[[q [|]] seen2]|] eqn:Ej; [|done..].
  apply IH in Ej as [Hq Hs2].
  - apply IHr; [done|]. intros k r. rewrite lookup_insert. case_decide; [by intros [= <-]|apply Hs2].
  - destruct (absolute target); [apply canonical_nil|done].
  - intros k r. rewrite lookup_insert. case_decide; [done|apply Hs].
Qed.

(** A canonical path is walked as it is. *)
Lemma joinreal_walk fs f seen here rest :
  canonical fs (here ++ rest) → joinreal (S f) fs seen here rest = Some (here ++ rest, true, seen).
Proof.
  cbn [joinreal]. revert here. induction rest as [|name rest IH]; intros here Hc; [by rewrite app_nil_r|].
  replace (here ++ name :: rest) with ((here ++ [name]) ++ rest) in * by (by rewrite <- app_assoc).
  destruct (Hc here name) as [Hdots Hl]; [by apply prefix_app_r|].
  rewrite bool_decide_eq_false_2 by done. specialize (IH (here ++ [name]) Hc).
  destruct (fs !! (here ++ [name])) as [[|j|target]|] eqn:En; [exact IH..|by destruct (Hl target)|exact IH].
Qed.

Lemma normpath_app acc l :
  Forall (λ x, x ≠ "..") l → foldl (λ acc x, if bool_decide (x = "..") then parent acc else acc ++ [x]) acc l = acc ++ l.
Proof.
  revert acc. induction l as [|x l IH]; intros acc Hl; [by rewrite app_nil_r|].
  apply Forall_cons in Hl as [Hx Hl]. cbn. rewrite bool_decide_eq_false_2, IH by done. by rewrite <- app_assoc.
Qed.
Lemma normpath_canonical fs p : canonical fs p → normpath p = p.
Proof.
  intros Hp. unfold normpath. apply (normpath_app []). apply Forall_forall. intros x Hx.
  apply list_elem_of_split in Hx as (l1 & l2 & ->). apply (Hp l1). exists l2. by rewrite <- app_assoc.
Qed.

Section resolve.
Context `{OsEnv} (fs : tree).

(** The resolution of [p] runs into no loop of links. *)
Definition loop_free (p : pure_path) : Prop := ∃ q, realpath fs p = Some (q, true).

Lemma realpath_canonical q : canonical fs q → realpath fs (of_path q) = Some (q, true).
Proof.
intros Hq. unfold realpath. cbn [start_of of_path absolute parts]. rewrite joinreal_walk by done. cbn.
by rewrite (normpath_canonical fs).
Qed.
Lemma resolve_canonical q : canonical fs q → resolve fs (of_path q) = Ok q.
Proof. intros Hq. unfold resolve. by rewrite realpath_canonical. Qed.

Lemma loop_free_resolve p :
loop_free p → canonical fs cwd → ∃ q, resolve fs p = Ok q ∧ canonical fs q.
Proof.
intros [q Hq] Hcwd. exists q. unfold resolve. rewrite Hq. split; [done|].
unfold realpath in Hq. destruct (joinreal _ _ _ _ _) as [[[r ok] s]|] eqn:Ej; [|done]. cbn [fmap option_fmap option_map fst snd] in Hq. injection Hq as <- ->.
apply joinreal_canonical in Ej as [Hr _]; [by rewrite (normpath_canonical fs)| |intros k x; by rewrite lookup_empty].
unfold start_of. destruct (absolute p); [apply canonical_nil|done].
Qed.

(** Resolving twice is resolving once. *)
Lemma resolve_idempotent p q : loop_free p → canonical fs cwd → resolve fs p = Ok q → resolve fs (of_path q) = Ok q.
Proof.
intros Hp Hc Hq. destruct (loop_free_resolve p Hp Hc) as (q' & Hq' & Hcan).
rewrite Hq in Hq'. injection Hq' as <-. by apply resolve_canonical.
Qed.
End resolve.

(* ------------------------------------------------------------------ *)
(** ** Only links matter *)

Definition same_links (fs fs' : tree) : Prop := ∀ k target, fs !! k = Some (Link target) ↔ fs' !! k = Some (Link target).

#[global] Instance same_links_preorder : PreOrder same_links.
Proof. split; [intros fs k t; done|intros f1 f2 f3 H1 H2 k t; by rewrite (H1 k t)]. Qed.

Lemma same_links_canonical fs fs' p : same_links fs fs' → canonical fs p → canonical fs' p.
Proof. intros Hl Hp q x Hq. destruct (Hp q x Hq) as [Hx Hn]. split; [done|]. intros t Ht%Hl. by apply (Hn t). Qed.

Lemma joinreal_links fs fs' fuel fuel' seen here rest r :
  same_links fs fs' → fuel ≤ fuel' → joinreal fuel fs seen here rest = Some r → joinreal fuel' fs' seen here rest = Some r.
Proof.
  intros Hl. revert fuel' seen here rest r. induction fuel as [|f IH]; intros [|f'] seen here rest r Hle; try done; [lia|].
  cbn [joinreal]. revert seen here. induction rest as [|name rest IHr]; intros seen here; [done|].
  case_bool_decide; [apply IHr|].
  assert ((∃ t, fs !! (here ++ [name]) = Some (Link t) ∧ fs' !! (here ++ [name]) = Some (Link t)) ∨
          no_link fs (here ++ [name]) ∧ no_link fs' (here ++ [name])) as [(t & -> & ->)|[Hn Hn']].
  { destruct (fs !! (here ++ [name])) as [[|j|t]|] eqn:E; [right|right|left|right].
    all: try (split; [intros t; congruence|intros t Ht%Hl; congruence]). exists t. split; [done|by apply Hl]. }
  - destruct (seen !! (here ++ [name])) as [[p|]|]; [apply IHr|done|].
    destruct (joinreal f fs _ _ _) as [[[p ok] seen']|] eqn:Ej; [|done].
    rewrite (IH f' _ _ _ _ ltac:(lia) Ej). destruct ok; [apply IHr|done].
  - destruct (fs !! (here ++ [name])) as [[|j|t]|] eqn:E, (fs' !! (here ++ [name])) as [[|j'|t']|] eqn:E';
      first [apply IHr | by exfalso; eapply Hn | by exfalso; eapply Hn'].
Qed.

Lemma realpath_links `{OsEnv} fs fs' p : same_links fs fs' → realpath fs p = realpath fs' p.
Proof.
  intros Hl. assert (same_links fs' fs) as Hl' by (intros k t; symmetry; apply Hl).
  destruct (realpath_total fs p) as [r Hr], (realpath_total fs' p) as [r' Hr']. rewrite Hr, Hr'. f_equal.
  unfold realpath in *.
  destruct (joinreal (S (size fs)) fs _ _ _) as [x|] eqn:E; [|done].
  destruct (joinreal (S (size fs')) fs' _ _ _) as [x'|] eqn:E'; [|done].
  apply (joinreal_links fs fs' _ (S (size fs) + S (size fs'))) in E; [|done|lia].
  apply (joinreal_links fs' fs' _ (S (size fs) + S (size fs'))) in E'; [|done|lia].
  congruence.
Qed.
Lemma resolve_links `{OsEnv} fs fs' p : same_links fs fs' → resolve fs p = resolve fs' p.
Proof.
  intros Hl. unfold resolve. rewrite (realpath_links fs fs' p Hl).
  destruct (realpath fs' p) as [[q []]|]; [done| |done]. by rewrite (realpath_links fs fs' (of_path q) Hl).
Qed.

Lemma mkdirs_links fs here rest fs' : mkdirs fs here rest = Ok fs' → same_links fs fs'.
Proof.
  revert fs here. induction rest as [|name rest IH]; intros fs here; cbn [mkdirs].
  { by intros [= <-]. }
  destruct (fs !! (here ++ [name])) as [[| |]|] eqn:E; try done; [apply IH|].
  intros Hl%IH k t. rewrite <- (Hl k t), lookup_insert. case_decide; [subst; split; congruence|done].
Qed.

Lemma is_relative_to_true p root : is_relative_to p root = true ↔ root `prefix_of` p.
Proof. apply bool_decide_eq_true. Qed.
Lemma is_relative_to_false p root : is_relative_to p root = false ↔ ¬ root `prefix_of` p.
Proof. apply bool_decide_eq_false. Qed.
