(* ===== verification/Org.v ===== *)
(** * The hierarchy of animas and what it grants

    [_get_all_descendants] of [core/tooling/org_helpers.py] and the directories
    a [ToolHandler] ([core/tooling/handler.py]) may reach because of its place
    in the hierarchy.  The configuration lists the animas with their
    supervisors, in order; nothing forbids a cycle. *)

From stdpp Require Import prelude strings list gmap relations.
From S2P Require Import Prelude PyValue PyText FileSystem.

Abbreviation animas := (list (string * option string)).

(** The animas whose supervisor is [name], in order. *)
Definition subordinates (cfg : animas) (name : string) : list string :=
  fst <$> filter (λ a, snd a = Some name) cfg.

(** The loop of [_get_all_descendants]. *)
Fixpoint descend (fuel : nat) (cfg : animas) (visited descendants queue : list string) : option (list string) :=
  match fuel with
  | O => None
  | S f =>
      match queue with
      | [] => Some descendants
      | current :: queue =>
          if str_in current visited then descend f cfg visited descendants queue
          else descend f cfg (current :: visited) (descendants ++ [current]) (queue ++ subordinates cfg current)
      end
  end.
Definition _get_all_descendants (cfg : animas) (root : string) : option (list string) :=
  descend (S (length cfg)) cfg [root] [] (subordinates cfg root).

(** [supervises cfg a b]: [a] is the supervisor of [b]. *)
Definition supervises (cfg : animas) (a b : string) : Prop := (b, Some a) ∈ cfg.
Lemma elem_of_subordinates cfg a b : b ∈ subordinates cfg a ↔ supervises cfg a b.
Proof.
  unfold subordinates, supervises. rewrite list_elem_of_fmap. split.
  - intros ([b' s] & -> & [Hs Hin]%list_elem_of_filter). cbn in *. by subst.
  - intros Hin. exists (b, Some a). split; [done|]. by apply list_elem_of_filter.
Qed.

(** The entries whose supervisor is still to be visited. *)
Definition unseen_boss (visited : list string) (a : string * option string) : bool :=
  match snd a with Some s => negb (str_in s visited) | None => true end.
Definition unseen (cfg : animas) (visited : list string) : nat :=
  length (filter (λ a, unseen_boss visited a = true) cfg).
Lemma unseen_boss_visit visited x a : x ∉ visited →
  unseen_boss visited a = unseen_boss (x :: visited) a || bool_decide (snd a = Some x).
Proof.
  intros Hx. unfold unseen_boss, str_in. destruct a as [b [s|]]; cbn; [|done].
  apply eq_true_iff_eq. rewrite orb_true_iff, !negb_true_iff, !bool_decide_eq_false, bool_decide_eq_true.
  split; [|set_solver]. intros Hs. destruct (decide (s = x)) as [->|]; [by right|left; set_solver].
Qed.
Lemma unseen_visit cfg visited x :
  x ∉ visited → length (subordinates cfg x) + unseen cfg (x :: visited) ≤ unseen cfg visited.
Proof.
  intros Hx. unfold unseen, subordinates. rewrite length_fmap. induction cfg as [|a cfg IH]; [done|].
  rewrite !filter_cons. pose proof (unseen_boss_visit visited x a Hx) as E.
  assert (snd a = Some x → unseen_boss (x :: visited) a = false) as E2.
  { intros Hs. unfold unseen_boss, str_in. rewrite Hs. apply negb_false_iff, bool_decide_eq_true. by left. }
  repeat case_decide; cbn [length]; try lia.
  all: exfalso; destruct (unseen_boss (x :: visited) a), (bool_decide_reflect (snd a = Some x)); naive_solver.
Qed.

Section descend.
Context (cfg : animas) (root : string).

Record descend_inv (visited descendants queue : list string) : Prop := {
  di_list : ∀ x, x ∈ visited ↔ x = root ∨ x ∈ descendants;
  di_nodup : NoDup descendants;
  di_proper : root ∉ descendants;
  di_below : ∀ x, x ∈ descendants ∨ x ∈ queue → tc (supervises cfg) root x;
  di_closed : ∀ a b, a ∈ visited → supervises cfg a b → b ∈ visited ∨ b ∈ queue
}.

Lemma descend_visit visited descendants x queue :
descend_inv visited descendants (x :: queue) → x ∉ visited →
descend_inv (x :: visited) (descendants ++ [x]) (queue ++ subordinates cfg x).
Proof.
intros [Hlist Hnd Hprop Hbelow Hclosed] Hx.
assert (x ≠ root ∧ x ∉ descendants) as [Hr Hd] by (split; intros ?; apply Hx, Hlist; auto).
split.
- intros y. rewrite elem_of_cons, elem_of_app, list_elem_of_singleton, Hlist. tauto.
- apply NoDup_app. split_and!; [done| |apply NoDup_singleton]. intros y Hy ->%list_elem_of_singleton. done.
- rewrite elem_of_app, list_elem_of_singleton. naive_solver.
- intros y. rewrite !elem_of_app, list_elem_of_singleton, elem_of_subordinates.
  assert (tc (supervises cfg) root x) as Htx by (apply Hbelow; right; by left).
  intros [[Hy| ->]|[Hy|Hy]]; [by apply Hbelow; left|done|by apply Hbelow; right; right|].
  by eapply tc_r.
- intros a b Ha Hs. rewrite elem_of_cons, elem_of_app, elem_of_subordinates.
  apply elem_of_cons in Ha as [->|Ha]; [by right; right|].
  destruct (Hclosed a b Ha Hs) as [?|[->|?]%elem_of_cons]; auto.
Qed.

Lemma descend_spec fuel visited descendants queue :
descend_inv visited descendants queue → length queue + unseen cfg visited < fuel →
∃ l, descend fuel cfg visited descendants queue = Some l ∧ NoDup l ∧
     ∀ x, x ∈ l ↔ x ≠ root ∧ tc (supervises cfg) root x.
Proof.
revert visited descendants queue. induction fuel as [|f IH]; intros visited descendants queue Hinv Hlt; [lia|].
cbn [descend]. destruct queue as [|x queue].
- exists descendants. destruct Hinv as [Hlist Hnd Hprop Hbelow Hclosed]. split_and!; [done|done|]. intros x. split.
  + intros Hx. split; [by intros ->|by apply Hbelow; left].
  + intros [Hx Htc]. assert (∀ a b, tc (supervises cfg) a b → a ∈ visited → b ∈ visited) as Hall.
    { induction 1 as [a b Hs|a b c Hs _ IHt]; intros Ha.
      - by destruct (Hclosed a b Ha Hs) as [?|?%elem_of_nil].
      - apply IHt. by destruct (Hclosed a b Ha Hs) as [?|?%elem_of_nil]. }
    assert (x ∈ visited) as [?|?]%Hlist; [|done..]. apply (Hall root); [done|]. apply Hlist. by left.
- cbn [length] in Hlt. unfold str_in. case_bool_decide as Hx.
  + apply IH; [|lia]. destruct Hinv as [Hlist Hnd Hprop Hbelow Hclosed]. split; [done|done|done| |].
    * intros y [Hy|Hy]; apply Hbelow; [by left|right; by right].
    * intros a b Ha Hs. destruct (Hclosed a b Ha Hs) as [?|[->|?]%elem_of_cons]; auto.
  + apply IH; [by apply descend_visit|]. rewrite length_app. pose proof (unseen_visit cfg visited x Hx). lia.
Qed.
End descend.

Lemma descend_start cfg root :
  descend_inv cfg root [root] [] (subordinates cfg root) ∧
  length (subordinates cfg root) + unseen cfg [root] < S (length cfg).
Proof.
  split.
  - split.
    + intros x. rewrite list_elem_of_singleton, elem_of_nil. tauto.
    + apply NoDup_nil_2.
    + apply not_elem_of_nil.
    + intros x [?%elem_of_nil|Hx]; [done|]. apply tc_once. by apply elem_of_subordinates.
    + intros a b ->%list_elem_of_singleton Hs. right. by apply elem_of_subordinates.
  - assert (length (subordinates cfg root) + unseen cfg [root] ≤ unseen cfg []) as Hle by (by apply unseen_visit, not_elem_of_nil).
    pose proof (length_filter (λ a, unseen_boss [] a = true) cfg). unfold unseen in *. lia.
Qed.

(** The descendants of an anima are found, each once, and are exactly the
    animas below it in the chain of supervisors, whatever the configuration
    says: a cycle ends the search, and nobody is its own descendant. *)
Theorem descendants_exact cfg root :
  ∃ l, _get_all_descendants cfg root = Some l ∧ NoDup l ∧
       ∀ x, x ∈ l ↔ x ≠ root ∧ tc (supervises cfg) root x.
Proof. by apply descend_spec; apply descend_start. Qed.

(* ------------------------------------------------------------------ *)
(** ** What the hierarchy grants *)

(** The directories and files beyond its own an anima may reach. *)
Record grants := mk_grants {
  subordinate_activity_dirs : list path;
  subordinate_management_files : list path;
  subordinate_root_dirs : list path;
  descendant_activity_dirs : list path;
  descendant_state_files : list path;
  descendant_state_dirs : list path;
  peer_activity_dirs : list path
}.

Definition management_names : list string := ["cron.md"; "heartbeat.md"; "status.json"; "injection.md"].
Definition descendant_state_names : list path :=
  [["state"; "current_state.md"]; ["status.json"]; ["identity.md"]; ["injection.md"]; ["state"; "task_queue.jsonl"]].

Section grants.
Context `{OsEnv} (fs : tree) (animas_dir : path).

(** [(_animas_dir / name).resolve()]. *)
Definition anima_home (name : string) : result path := resolve fs (joinpath (of_path animas_dir) (Path name)).
Fixpoint homes (names : list string) : result (list path) :=
match names with
| [] => Ok []
| n :: names => h ← anima_home n; hs ← homes names; Ok (h :: hs)
end.
Definition supervisor_of (cfg : animas) (name : string) : option string := dget name cfg ≫= id.

(** The cached paths of [ToolHandler.__init__] when the configuration loads. *)
Definition hierarchy_grants (cfg : animas) (me : string) : result grants :=
subs ← homes (subordinates cfg me);
peers ← homes (fst <$> filter (λ a, fst a ≠ me ∧ snd a = supervisor_of cfg me) cfg);
descs ← homes (default [] (_get_all_descendants cfg me));
Ok (mk_grants
  ((λ d, d ++ ["activity_log"]) <$> subs)
  (descs ≫= λ d, (λ f, d ++ [f]) <$> management_names)
  descs
  ((λ d, d ++ ["activity_log"]) <$> descs)
  (descs ≫= λ d, (λ f, d ++ f) <$> descendant_state_names)
  (descs ≫= λ d, [d ++ ["state"; "pending"]; d ++ ["state"; "plans"]])
  ((λ d, d ++ ["activity_log"]) <$> peers)).

Lemma homes_elem names hs h : homes names = Ok hs → h ∈ hs → ∃ n, n ∈ names ∧ anima_home n = Ok h.
Proof.
revert hs. induction names as [|n names IH]; intros hs; cbn; [intros [= <-]; by intros ?%elem_of_nil|].
destruct (anima_home n) as [h0|] eqn:Eh; [|done]. cbn. destruct (homes names) as [hs'|] eqn:E; [|done]. cbn.
intros [= <-] [->|Hin]%elem_of_cons; [exists n; split; [by left|done]|].
destruct (IH hs' eq_refl Hin) as (m & Hm & ?). exists m. split; [by right|done].
Qed.

(** The files a grant lets an anima write belong to its descendants. *)
Lemma management_file_descendant cfg me g r :
hierarchy_grants cfg me = Ok g → r ∈ subordinate_management_files g →
∃ d h f, tc (supervises cfg) me d ∧ d ≠ me ∧ anima_home d = Ok h ∧ f ∈ management_names ∧ r = h ++ [f].
Proof.
unfold hierarchy_grants. remember (default [] (_get_all_descendants cfg me)) as ds eqn:Eds.
destruct (homes (subordinates cfg me)) as [subs|]; [|done]. cbn.
destruct (homes (fst <$> _)) as [peers|]; [|done]. cbn.
destruct (homes ds) as [descs|] eqn:E; [|done]. cbn. intros [= <-]. cbn [subordinate_management_files].
intros (h & Hr & Hh)%list_elem_of_bind. change (r ∈ (λ f, h ++ [f]) <$> management_names) in Hr. apply list_elem_of_fmap in Hr as (f & -> & Hf).
destruct (homes_elem _ _ _ E Hh) as (d & Hd & Eh).
destruct (descend_spec cfg me _ _ _ _ (proj1 (descend_start cfg me)) (proj2 (descend_start cfg me))) as (l & El & _ & Hl).
unfold _get_all_descendants in Eds. rewrite El in Eds. cbn in Eds. subst ds. apply Hl in Hd as [Hne Htc].
by exists d, h, f.
Qed.
End grants.
