(* ===== verification/FilePolicy.v ===== *)
(** * Which files an anima may read and write

    [core/file_access_policy.py], the file checks of
    [core/tooling/handler_perms.py] with their helpers of [handler_base.py],
    and the company membership they consult ([core/company.py],
    [core/company_resources.py], [core/config/anima_registry.py]).  A check
    runs on the file system as it is and makes the company's shared directory
    on the way.  Error texts are replaced by the reason ([denial]); the
    permission file is read before ([permissions]). *)

From Stdlib Require Import Ascii.
From stdpp Require Import prelude strings list gmap sorting.
From S2P Require Import Prelude PyValue PyText FileSystem Org.

(** [dict.fromkeys] as a list: the first of equal elements stays. *)
Fixpoint unique_in_order {A} `{EqDecision A} (seen l : list A) : list A :=
  match l with
  | [] => []
  | x :: l => if bool_decide (x ∈ seen) then unique_in_order seen l else x :: unique_in_order (x :: seen) l
  end.

(** Every element in turn, until one raises. *)
Fixpoint traverse {A B} (f : A → result B) (l : list A) : result (list B) :=
  match l with
  | [] => Ok []
  | x :: l => y ← f x; ys ← traverse f l; Ok (y :: ys)
  end.

(** The names in a directory, sorted ([iterdir] then [sorted] by name). *)
Definition string_leb (a b : string) : Prop := String.leb a b = true.
#[global] Instance string_leb_dec a b : Decision (string_leb a b).
Proof. unfold string_leb. apply _. Defined.
Definition children (fs : tree) (p : path) : list string :=
  merge_sort string_leb (name_of <$> filter (λ q, q ≠ [] ∧ parent q = p) ((λ kv, fst kv) <$> map_to_list fs)).

Record CommandsPermission := mk_commands { allow_all : bool; allow : list string; deny : list string }.
Record ToolCreationPermission := mk_tool_creation { personal : bool; shared_tools : bool }.
Record PermissionsConfig := mk_permissions {
  file_roots : list string;
  file_roots_readonly : list string;
  file_roots_denied : list string;
  commands : CommandsPermission;
  tool_creation : ToolCreationPermission
}.

(** What the checks read of the installation: [get_data_dir()], and the skill
    roots of the configuration with their switch ([None]: it does not load). *)
Class Installation := {
  get_data_dir : path;
  external_roots : option (list (string * bool))
}.

Section policy.
Context `{OsEnv, Installation}.

(* ---- company membership ---- *)

(** [read_anima_company_checked]. *)
Definition read_anima_company_checked (fs : tree) (anima_dir : path) : bool * option string :=
if negb (is_dir fs (of_path anima_dir)) then (false, None) else
match read_json fs (of_path (anima_dir ++ ["status.json"])) with
| Some (JObj data) =>
    match dget "company" data with
    | Some (JStr raw) => (true, if str_truthy (strip raw) then Some (strip raw) else None)
    | _ => (true, None)
    end
| _ => (false, None)
end.
Definition read_anima_company (fs : tree) (anima_dir : path) : option string := snd (read_anima_company_checked fs anima_dir).

Definition get_company (fs : tree) (anima_name : string) (animas_dir : path) : result (option string) :=
if negb (str_truthy anima_name) then Ok None else
candidate ← resolve fs (joinpath (of_path animas_dir) (Path anima_name));
root ← resolve fs (of_path animas_dir);
Ok (if bool_decide (parent candidate = root) then read_anima_company fs candidate else None).

(* ---- roots ---- *)

Definition resolve_denied_roots (fs : tree) (roots : list string) : result (list path) :=
traverse (λ r, resolve fs (Path r)) roots.

Definition company_shared_write_root (fs : tree) (anima_dir : path) : result (option path) :=
company ← get_company fs (name_of anima_dir) (parent anima_dir);
match company with
| None => Ok None
| Some company =>
    own ← resolve fs (of_path anima_dir);
    companies_dir ← resolve fs (of_path (parent (parent own) ++ ["companies"]));
    let company_root := joinpath (of_path companies_dir) (Path company) in
    if negb (bool_decide (parent (parts company_root) = companies_dir)) || is_symlink fs (parts company_root) then Ok None else
    company_root ← resolve fs company_root;
    if negb (bool_decide (parent company_root = companies_dir)) then Ok None else
    let shared_root := company_root ++ ["shared"] in
    if is_symlink fs shared_root then Ok None else
    shared_root ← resolve fs (of_path shared_root);
    Ok (if bool_decide (parent shared_root = company_root) then Some shared_root else None)
end.

(** A question to the file system as it is. *)
Definition ask {A} (f : tree → result A) : M tree A := λ fs, (f fs, fs).
Definition make_dirs (p : path) : M tree unit := λ fs,
match mkdirs fs [] p with Ok fs' => (Ok tt, fs') | Err e => (Err e, fs) end.

Definition resolve_user (fs : tree) (p : pure_path) : result path := q ← expanduser p; resolve fs q.

(** One configured root; no root may lie in the data directory, except in the
    company's shared directory. *)
Definition file_root (fs : tree) (data_dir : path) (company_shared : option path) (root : string) : result path :=
r ← resolve_user fs (Path root);
if is_relative_to r data_dir && negb match company_shared with Some s => is_relative_to r s | None => false end
then Err (ValueError "config.file_roots_inside_data_dir") else Ok r.

Definition effective_write_roots (anima_dir : path) (roots : list string) (task_cwd : option pure_path) : M tree (list path) :=
own ← ask (λ fs, resolve fs (of_path anima_dir));
let data_dir := parent (parent own) in
company_shared ← ask (λ fs, company_shared_write_root fs anima_dir);
_ ← match company_shared with Some s => make_dirs s | None => mret tt end;
configured ← ask (λ fs, traverse (file_root fs data_dir company_shared) roots);
task ← match task_cwd with
       | Some d => r ← ask (λ fs, resolve_user fs d); mret [r]
       | None => mret []
       end;
mret (unique_in_order [] (option_list company_shared ++ configured ++ task)).

Definition company_denied_roots (fs : tree) (anima_dir : path) : result (list path) :=
company ← get_company fs (name_of anima_dir) (parent anima_dir);
match company with
| None => Ok []
| Some company =>
    let companies_dir := parent (parent anima_dir) ++ ["companies"] in
    match realpath fs (of_path companies_dir) with
    | Some (q, true) =>
        if is_dir fs (of_path q) then
          Ok (omap (λ name,
                if bool_decide (name = company) || negb (is_dir fs (of_path (companies_dir ++ [name]))) then None
                else match resolve fs (of_path (companies_dir ++ [name])) with Ok r => Some r | Err _ => None end)
              (children fs q))
        else Ok []
    | _ => Ok []
    end
end.

(** Roots below another root are dropped. *)
Definition outermost (roots : list path) : list path :=
filter (λ root, ¬ Exists (λ other, other ≠ root ∧ other `prefix_of` root) roots) roots.
Definition resolve_effective_denied_roots (fs : tree) (anima_dir : path) (configured : list string) : result (list path) :=
denied ← resolve_denied_roots fs configured;
company ← company_denied_roots fs anima_dir;
Ok (outermost (unique_in_order [] (denied ++ company))).

Definition containing (p : path) (roots : list path) : option path := head (filter (λ r, is_relative_to p r = true) roots).
Definition find_denied_root (fs : tree) (p : pure_path) (denied_roots : list path) : result (option path) :=
r ← resolve fs p; Ok (containing r denied_roots).

Definition find_internal_cache_root (fs : tree) (p : pure_path) (anima_dir : path) : result (option path) :=
anima_root ← resolve fs (of_path anima_dir);
resolved ← resolve fs p;
let inside c := is_relative_to c anima_root && bool_decide (head (drop (length anima_root) c) = Some ".codex_home") in
Ok (if inside resolved || inside (abspath p) then Some (anima_root ++ [".codex_home"]) else None).

(* ---- cached memory sources ---- *)

Definition ANIMA_MEMORY_ROOTS : list string :=
["activity_log"; "archive"; "episodes"; "facts"; "knowledge"; "procedures"; "skills"; "state"].

Definition infer_data_dir (anima_dir : path) : path :=
if bool_decide (name_of (parent anima_dir) = "animas") then parent (parent anima_dir) else get_data_dir.

(** [get_company_resources]: the name and the root. *)
Definition get_company_resources (fs : tree) (anima_dir : path) : result (option (string * path)) :=
match read_anima_company fs anima_dir with
| None => Ok None
| Some company =>
    if str_in company ["."; ".."] || negb (bool_decide (name_of (parts (Path company)) = company)) ||
       contains (String (ascii_of_nat 92) "") company
    then Ok None
    else
      companies_dir ← resolve fs (of_path (infer_data_dir anima_dir ++ ["companies"]));
      root ← resolve fs (joinpath (of_path companies_dir) (Path company));
      Ok (if is_relative_to root companies_dir then Some (company, root) else None)
end.

(** The text before the first [#]. *)
Definition before_hash (s : string) : string := default "" (head (split_at "#"%char s)).

Definition resolve_memory_source_path (fs : tree) (anima_dir : path) (source : string) : result (option path) :=
let source := before_hash (strip source) in
if negb (str_truthy source) || bool_decide (source = "unknown") then Ok None else
let p := Path source in
if absolute p then r ← resolve fs p; Ok (Some r) else
if str_in ".." (parts p) then Ok None else
match parts p with
| [] => Ok None
| namespace :: rest =>
    if str_in namespace ["common_knowledge"; "common_skills"; "reference"]
    then r ← resolve fs (of_path (get_data_dir ++ namespace :: rest)); Ok (Some r)
    else if bool_decide (namespace = "shared")
    then r ← resolve fs (of_path (get_data_dir ++ parts p)); Ok (Some r)
    else if bool_decide (namespace = "companies") then
      resources ← get_company_resources fs anima_dir;
      match resources with
      | None => Ok None
      | Some (name, root) =>
          if negb (bool_decide (take 2 (parts p) = ["companies"; name])) then Ok None
          else r ← resolve fs (of_path (infer_data_dir anima_dir ++ parts p));
               Ok (if is_relative_to r root then Some r else None)
      end
    else if str_in namespace ANIMA_MEMORY_ROOTS
    then r ← resolve fs (of_path (anima_dir ++ parts p)); Ok (Some r)
    else Ok None
end.

Definition memory_source_is_allowed (fs : tree) (anima_dir : path) (source : string) (denied_roots : list path) : result bool :=
match denied_roots with
| [] => Ok true
| _ =>
    p ← resolve_memory_source_path fs anima_dir source;
    match p with
    | None => Ok false
    | Some p => d ← find_denied_root fs (of_path p) denied_roots; Ok (bool_decide (d = None))
    end
end.

(* ---- protected files ---- *)

Inductive denial :=
| InternalCache (root : path)
| DeniedRoot (root : path)
| GlobalPermissions
| OutsideAnima
| ProtectedFile (rel : path)
| ProtectedDir (name : string)
| OtherAnima
| NotAllowed (allowed : list path)
| ReadOnly (root : path).

Definition get_global_permissions_path : path := get_data_dir ++ ["permissions.global.json"].
Definition _is_global_permissions_write_blocked (fs : tree) (target : path) : result (option denial) :=
resolved ← resolve fs (of_path target);
gp ← resolve fs (of_path get_global_permissions_path);
Ok (if bool_decide (resolved = gp) then Some GlobalPermissions else None).

Definition PROTECTED_FILES : list path :=
[["permissions.md"]; ["permissions.json"]; ["identity.md"]; ["bootstrap.md"]; ["status.json"];
 ["state"; "bm25_longterm_index.json"]; ["state"; "bm25_longterm_index.dirty"]].
Definition PROTECTED_DIRS : list string := ["activity_log"].

Definition _is_protected_write (fs : tree) (anima_dir target : path) : result (option denial) :=
resolved ← resolve fs (of_path target);
anima_resolved ← resolve fs (of_path anima_dir);
if negb (is_relative_to resolved anima_resolved) then Ok (Some OutsideAnima) else
let rel := drop (length anima_resolved) resolved in
Ok (if bool_decide (rel ∈ PROTECTED_FILES) then Some (ProtectedFile rel)
    else match rel with
         | d :: _ => if str_in d PROTECTED_DIRS then Some (ProtectedDir d) else None
         | [] => None
         end).

(* ---- the check ---- *)

Record handler := mk_handler {
  superuser : bool;
  anima_dir : path;
  granted : grants;
  permissions : result PermissionsConfig
}.

(** The rules of the hierarchy, in order. *)
Definition under_any (p : path) (roots : list path) : bool := any (is_relative_to p) roots.
Definition grants_access (write : bool) (g : grants) (resolved : path) : bool :=
(negb write &&
   (under_any resolved (subordinate_activity_dirs g) || under_any resolved (descendant_activity_dirs g) ||
    under_any resolved (peer_activity_dirs g) || bool_decide (resolved ∈ descendant_state_files g) ||
    under_any resolved (descendant_state_dirs g))) ||
bool_decide (resolved ∈ subordinate_management_files g) ||
(negb write && bool_decide (resolved ∈ subordinate_root_dirs g)).

Definition shared_dirs : list path :=
(λ n, get_data_dir ++ [n]) <$> ["shared"; "common_knowledge"; "common_skills"; "reference"; "company"].
Fixpoint in_shared_dir (fs : tree) (resolved : path) (dirs : list path) : result bool :=
match dirs with
| [] => Ok false
| d :: dirs =>
    if path_exists fs (of_path d) then
      r ← resolve fs (of_path d);
      if is_relative_to resolved r then Ok true else in_shared_dir fs resolved dirs
    else in_shared_dir fs resolved dirs
end.
(** An exception ends the search. *)
Fixpoint in_external_root (fs : tree) (resolved : path) (roots : list (string * bool)) : bool :=
match roots with
| [] => false
| (p, enabled) :: roots =>
    if negb enabled then in_external_root fs resolved roots else
    match resolve_user fs (Path p) with
    | Err _ => false
    | Ok r => if path_exists fs (of_path r) && is_relative_to resolved r then true else in_external_root fs resolved roots
    end
end.
Definition framework_readable (fs : tree) (resolved : path) : result bool :=
s ← in_shared_dir fs resolved shared_dirs;
Ok (s || in_external_root fs resolved (default [] external_roots)).

Definition absolute_roots (fs : tree) (roots : list string) : result (list path) :=
traverse (λ r, resolve fs (Path r)) (filter (λ r, absolute (Path r) = true) roots).

(** The end of the check: the configured roots. *)
Definition check_roots (fs : tree) (resolved : path) (write : bool) (cfg : PermissionsConfig) (write_roots : list path) :
  result (option denial) :=
if bool_decide (file_roots cfg = ["/"]) then Ok None else
allowed ← (if write then Ok write_roots else absolute_roots fs (file_roots cfg));
if under_any resolved allowed then Ok None else
match file_roots cfg with
| [] => Ok (Some (NotAllowed []))
| _ =>
    readonly ← absolute_roots fs (file_roots_readonly cfg);
    Ok (match containing resolved readonly with
        | Some r => if write then Some (ReadOnly r) else None
        | None => Some (NotAllowed (allowed ++ readonly))
        end)
end.

(** The rules after the explicit denies, on the resolved path. *)
Definition check_rules (h : handler) (resolved : path) (write : bool) (cfg : PermissionsConfig) (write_roots : list path)
  (fs : tree) : result (option denial) :=
own ← resolve fs (of_path (anima_dir h));
if is_relative_to resolved own then
  if write then _is_protected_write fs (anima_dir h) resolved else Ok None
else if grants_access write (granted h) resolved then Ok None else
readable ← (if write then Ok false else framework_readable fs resolved);
if readable : bool then Ok None else
if is_relative_to resolved (parent own) then Ok (Some OtherAnima) else
check_roots fs resolved write cfg write_roots.

Definition _check_file_permission (h : handler) (p : string) (write trusted_internal_cache_write : bool)
  (config : option PermissionsConfig) (denied_roots : option (list path)) : M tree (option denial) :=
if superuser h then mret None else
resolved ← ask (λ fs, resolve fs (Path p));
cfg ← lift (match config with Some c => Ok c | None => permissions h end);
roots ← match denied_roots with
        | Some r => mret r
        | None => ask (λ fs, resolve_effective_denied_roots fs (anima_dir h) (file_roots_denied cfg))
        end;
cache ← (if negb (bool_decide (roots = [])) && negb (write && trusted_internal_cache_write)
         then ask (λ fs, find_internal_cache_root fs (Path p) (anima_dir h)) else mret None);
match cache with
| Some root => mret (Some (InternalCache root))
| None =>
    denied ← ask (λ fs, find_denied_root fs (of_path resolved) roots);
    match denied with
    | Some root => mret (Some (DeniedRoot root))
    | None =>
        blocked ← (if write then ask (λ fs, _is_global_permissions_write_blocked fs resolved) else mret None);
        match blocked with
        | Some e => mret (Some e)
        | None =>
            write_roots ← (if write then effective_write_roots (anima_dir h) (file_roots cfg) None else mret []);
            ask (check_rules h resolved write cfg write_roots)
        end
    end
end.

(** [_check_tool_creation_permission]; the Japanese words for "personal" and "shared" are given as bytes. *)
Definition word (l : list nat) : string := String.string_of_list_ascii (ascii_of_nat <$> l).
Definition _check_tool_creation_permission (has_memory : bool) (cfg : result PermissionsConfig) (kind : string) : result bool :=
if negb has_memory then Ok false else
c ← cfg;
Ok (if contains "personal" (lower kind) || contains (word [229; 128; 139; 228; 186; 186]) kind then personal (tool_creation c)
    else if contains "shared" (lower kind) || contains (word [229; 133; 177; 230; 156; 137]) kind
    then shared_tools (tool_creation c) else false).

(* ---- the check of the SDK engine ---- *)

(** [_check_a1_file_access] of [core/execution/_sdk_security.py]; the
    directories it is given. *)
Record sdk_grants := mk_sdk_grants {
  sdk_subordinate_activity_dirs : list path;
  sdk_management_files : list path;
  sdk_read_files : list path;
  sdk_read_dirs : list path;
  sdk_peer_activity_dirs : list path
}.
Definition sdk_grants_access (write : bool) (g : sdk_grants) (resolved : path) : bool :=
(negb write && (under_any resolved (sdk_subordinate_activity_dirs g) || under_any resolved (sdk_peer_activity_dirs g))) ||
bool_decide (resolved ∈ sdk_management_files g) ||
(negb write && (bool_decide (resolved ∈ sdk_read_files g) || under_any resolved (sdk_read_dirs g))).

(** [str()] of a relative path. *)
Definition relative_text (p : path) : string := match p with [] => "." | _ => join "/" p end.
Definition SDK_PROTECTED_FILES : list string :=
["permissions.md"; "permissions.json"; "identity.md"; "bootstrap.md"; "status.json"].

Definition load_denied_roots (fs : tree) (anima_dir : path) (cfg : result PermissionsConfig) : result (list path) :=
c ← cfg; resolve_effective_denied_roots fs anima_dir (file_roots_denied c).

Definition _check_a1_file_access (fs : tree) (cfg : result PermissionsConfig) (file_path : string) (anima_dir : path)
  (write : bool) (g : sdk_grants) (superuser : bool) : result (option denial) :=
if superuser || negb (str_truthy file_path) then Ok None else
resolved ← resolve fs (Path file_path);
roots ← load_denied_roots fs anima_dir cfg;
denied ← find_denied_root fs (of_path resolved) roots;
match denied with
| Some root => Ok (Some (DeniedRoot root))
| None =>
    blocked ← (if write then
                 data_dir ← resolve fs (of_path get_data_dir);
                 Ok (bool_decide (name_of resolved = "permissions.global.json") && is_relative_to resolved data_dir)
               else Ok false);
    if blocked : bool then Ok (Some GlobalPermissions) else
    anima_resolved ← resolve fs (of_path anima_dir);
    Ok (if negb (is_relative_to resolved (parent anima_resolved)) then None
        else if negb (is_relative_to resolved anima_resolved) then
          if sdk_grants_access write g resolved then None else Some OtherAnima
        else if negb write then None else
          let rel := relative_text (drop (length anima_resolved) resolved) in
          if str_in rel SDK_PROTECTED_FILES then Some (ProtectedFile (drop (length anima_resolved) resolved))
          else if contains "activity_log" rel then Some (ProtectedDir "activity_log") else None)
end.
End policy.
