(* ===== verification/FilePolicyProps.v ===== *)
(** * What the file checks guarantee

    The decision of [_check_file_permission] is exactly the one of a table of
    rules ([may_write], [may_read]); explicit denies lose nothing by being
    reduced to the outermost ones; the directories of other companies and of
    other animas stay closed; cached memory fails closed. *)

From stdpp Require Import prelude strings list gmap relations sorting.
From S2P Require Import Prelude PyValue PyText FileSystem Org FilePolicy.

Lemma under_any_true p roots : under_any p roots = true ↔ ∃ r, r ∈ roots ∧ r `prefix_of` p.
Proof. unfold under_any. rewrite any_true. by setoid_rewrite is_relative_to_true. Qed.
Lemma containing_None p roots : containing p roots = None ↔ ∀ r, r ∈ roots → ¬ r `prefix_of` p.
Proof.
  unfold containing. rewrite head_None. split.
  - intros Hf r Hr Hp. apply (not_elem_of_nil r). rewrite <- Hf. apply list_elem_of_filter. by rewrite is_relative_to_true.
  - intros Hall. destruct (filter _ roots) as [|r l] eqn:E; [done|]. exfalso.
    assert (r ∈ filter (λ r, is_relative_to p r = true) roots) as [Hp Hr]%list_elem_of_filter by (rewrite E; by left).
    by apply (Hall r); [|apply is_relative_to_true].
Qed.
Lemma containing_Some p roots r : containing p roots = Some r → r ∈ roots ∧ r `prefix_of` p.
Proof.
  unfold containing. intros Hh. apply head_Some_elem_of, list_elem_of_filter in Hh as [Hp Hr].
  by apply is_relative_to_true in Hp.
Qed.
Lemma unique_in_order_elem {A} `{EqDecision A} (seen l : list A) x :
  x ∈ unique_in_order seen l ↔ x ∈ l ∧ x ∉ seen.
Proof.
  revert seen. induction l as [|y l IH]; intros seen; cbn; [set_solver|].
  case_bool_decide; [rewrite IH; set_solver|]. rewrite elem_of_cons, IH.
  destruct (decide (x = y)); set_solver.
Qed.

(* ------------------------------------------------------------------ *)
(** ** Denied roots *)

(** Below every denied root there is an outermost one. *)
Lemma outermost_covers (roots : list path) r : r ∈ roots → ∃ o, o ∈ outermost roots ∧ o `prefix_of` r.
Proof.
  remember (length r) as n eqn:En. revert r En. induction n as [n IH] using lt_wf_ind. intros r -> Hr.
  destruct (decide (Exists (λ other, other ≠ r ∧ other `prefix_of` r) roots)) as [He|Hn].
  - apply Exists_exists in He as (o & Ho & Hne & Hp). assert (length o < length r) as Hlt.
    { destruct Hp as [[|x k] ->]; [by rewrite app_nil_r in Hne|]. rewrite length_app. cbn. lia. }
    destruct (IH _ Hlt o eq_refl Ho) as (o' & Ho' & Hp'). exists o'. split; [done|by etrans].
  - exists r. split; [|done]. unfold outermost. by apply list_elem_of_filter.
Qed.
Lemma outermost_subset roots r : r ∈ outermost roots → r ∈ roots.
Proof. by intros [_ ?]%list_elem_of_filter. Qed.

Section policy.
Context `{OsEnv, Installation}.

Lemma effective_denied_cover fs anima_dir configured d c roots q :
resolve_denied_roots fs configured = Ok d → company_denied_roots fs anima_dir = Ok c →
resolve_effective_denied_roots fs anima_dir configured = Ok roots →
(∃ r, r ∈ roots ∧ r `prefix_of` q) ↔ (∃ r, r ∈ d ++ c ∧ r `prefix_of` q).
Proof.
intros Hd Hc. unfold resolve_effective_denied_roots. rewrite Hd, Hc. cbn. intros [= <-]. split.
- intros (r & Hr%outermost_subset & Hp). apply unique_in_order_elem in Hr as [Hr _]. by exists r.
- intros (r & Hr & Hp). destruct (outermost_covers (unique_in_order [] (d ++ c)) r) as (o & Ho & Hpo).
  { apply unique_in_order_elem. set_solver. }
  exists o. split; [done|by etrans].
Qed.

(** The deny roots of an anima are reduced without loss: a path is under
    one of the effective roots exactly when it is under a configured root or
    a company's, and no effective root lies below another, which the sandbox
    needs to mount them. *)
Theorem denied_roots_exact fs anima_dir configured d c :
resolve_denied_roots fs configured = Ok d → company_denied_roots fs anima_dir = Ok c →
∃ roots, resolve_effective_denied_roots fs anima_dir configured = Ok roots ∧
  (∀ q, (∃ r, r ∈ roots ∧ r `prefix_of` q) ↔ (∃ r, r ∈ d ++ c ∧ r `prefix_of` q)) ∧
  (∀ r1 r2, r1 ∈ roots → r2 ∈ roots → r1 `prefix_of` r2 → r1 = r2).
Proof.
intros Hd Hc. assert (∃ roots, resolve_effective_denied_roots fs anima_dir configured = Ok roots) as [roots Hr].
{ unfold resolve_effective_denied_roots. rewrite Hd, Hc. by eexists. }
exists roots. split_and!; [done|intros q; by eapply effective_denied_cover|].
unfold resolve_effective_denied_roots in Hr. rewrite Hd, Hc in Hr. cbn in Hr. injection Hr as <-.
intros r1 r2 H1 [Hn _]%list_elem_of_filter Hp. destruct (decide (r1 = r2)) as [|Hne]; [done|].
destruct Hn. apply Exists_exists. exists r1. by apply outermost_subset in H1.
Qed.

(* ------------------------------------------------------------------ *)
(** ** The decision *)

(** What a check of an ordinary anima starts from. *)
Record request (h : handler) (p : string) (config : option PermissionsConfig) (denied : option (list path)) (fs : tree)
  (r own : path) (cfg : PermissionsConfig) (roots : list path) : Prop := {
rq_user : superuser h = false;
rq_cwd : canonical fs cwd;
rq_loop : loop_free fs (Path p);
rq_path : resolve fs (Path p) = Ok r;
rq_own : resolve fs (of_path (anima_dir h)) = Ok own;
rq_cfg : match config with Some c => Ok c | None => permissions h end = Ok cfg;
rq_roots : match denied with
           | Some rs => Ok rs
           | None => resolve_effective_denied_roots fs (anima_dir h) (file_roots_denied cfg)
           end = Ok roots
}.

Definition not_denied (roots : list path) (r : path) : Prop := ∀ root, root ∈ roots → ¬ root `prefix_of` r.
(** The runtime cache of the anima, by name or by target. *)
Definition in_cache (own r : path) (p : string) : Prop :=
own ++ [".codex_home"] `prefix_of` r ∨ own ++ [".codex_home"] `prefix_of` abspath (Path p).
Definition open_to (h : handler) (fs : tree) (p : string) (roots : list path) (own r : path) (trusted : bool) : Prop :=
not_denied roots r ∧ (roots = [] ∨ trusted = true ∨ ¬ in_cache own r p).

Definition own_writable (rel : path) : Prop := rel ∉ PROTECTED_FILES ∧ ∀ d rest, rel = d :: rest → d ∉ PROTECTED_DIRS.

(** A write of the file [r]. *)
Definition may_write (h : handler) (cfg : PermissionsConfig) (write_roots : list path) (own gp r : path) : Prop :=
r ≠ gp ∧
(own `prefix_of` r ∧ own_writable (drop (length own) r) ∨
 ¬ own `prefix_of` r ∧
   (r ∈ subordinate_management_files (granted h) ∨
    ¬ parent own `prefix_of` r ∧ (file_roots cfg = ["/"] ∨ ∃ w, w ∈ write_roots ∧ w `prefix_of` r))).
(** A read of the file [r]. *)
Definition may_read (h : handler) (cfg : PermissionsConfig) (framework : bool) (allowed readonly : list path) (own r : path) : Prop :=
own `prefix_of` r ∨ grants_access false (granted h) r = true ∨ framework = true ∨
¬ parent own `prefix_of` r ∧
  (file_roots cfg = ["/"] ∨ (∃ a, a ∈ allowed ∧ a `prefix_of` r) ∨
   (file_roots cfg ≠ [] ∧ ∃ a, a ∈ readonly ∧ a `prefix_of` r)).

Lemma request_canonical h p config denied fs r own cfg roots :
request h p config denied fs r own cfg roots → canonical fs r.
Proof.
intros [? Hc Hl Hr]. destruct (loop_free_resolve fs _ Hl Hc) as (q & Hq & Hcan).
rewrite Hr in Hq. by injection Hq as ->.
Qed.

Lemma in_cache_spec own c :
(is_relative_to c own && bool_decide (head (drop (length own) c) = Some ".codex_home")) = true ↔
own ++ [".codex_home"] `prefix_of` c.
Proof.
rewrite andb_true_iff, is_relative_to_true, bool_decide_eq_true. split.
- intros [[k ->] Hh]. rewrite drop_app_length in Hh. destruct k as [|x k]; [done|]. cbn in Hh. injection Hh as ->.
  exists k. by rewrite <- app_assoc.
- intros [k ->]. split; [exists (".codex_home" :: k); by rewrite <- app_assoc|].
  rewrite <- app_assoc, drop_app_length. done.
Qed.

(** The runs of the steps before the rules. *)
Lemma bind_ok {A C : Type} (m : M tree A) (f : A → M tree C) fs a fs' : m fs = (Ok a, fs') → (x ← m; f x) fs = f a fs'.
Proof. intros Hm. unfold mbind, M_bind. by rewrite Hm. Qed.
Lemma find_denied_canonical fs r roots : canonical fs r → find_denied_root fs (of_path r) roots = Ok (containing r roots).
Proof. intros Hr. unfold find_denied_root. by rewrite resolve_canonical. Qed.
Lemma cache_step h p config denied fs r own cfg roots skip :
request h p config denied fs r own cfg roots →
(if negb (bool_decide (roots = [])) && negb skip
 then ask (λ fs, find_internal_cache_root fs (Path p) (anima_dir h)) else mret None : M tree _) fs =
(Ok (if decide (roots = []) then None else if skip then None else
     if bool_decide (own ++ [".codex_home"] `prefix_of` r) || bool_decide (own ++ [".codex_home"] `prefix_of` abspath (Path p))
     then Some (own ++ [".codex_home"]) else None), fs).
Proof.
intros [_ _ _ Hp Ho _ _]. case_bool_decide as Hr; [by rewrite decide_True|]. rewrite (decide_False _ _ Hr).
destruct skip; [done|]. cbn [negb andb]. unfold ask, find_internal_cache_root. rewrite Ho, Hp. cbn [mbind result_bind].
assert (∀ c, (is_relative_to c own && bool_decide (head (drop (length own) c) = Some ".codex_home")) =
             bool_decide (own ++ [".codex_home"] `prefix_of` c)) as Heq.
{ intros c. apply eq_true_iff_eq. by rewrite in_cache_spec, bool_decide_eq_true. }
by rewrite !Heq.
Qed.

(** The part before the rules: a path that is not open is refused, for an open
  one the rules decide. *)
Lemma check_start h p write trusted config denied fs r own cfg roots :
request h p config denied fs r own cfg roots →
(open_to h fs p roots own r (write && trusted) ∧
 _check_file_permission h p write trusted config denied fs =
   (blocked ← (if write then ask (λ fs, _is_global_permissions_write_blocked fs r) else mret None);
    match blocked with
    | Some e => mret (Some e)
    | None =>
        write_roots ← (if write then effective_write_roots (anima_dir h) (file_roots cfg) None else mret []);
        ask (check_rules h r write cfg write_roots)
    end) fs) ∨
(¬ open_to h fs p roots own r (write && trusted) ∧
 ∃ reason, _check_file_permission h p write trusted config denied fs = (Ok (Some reason), fs)).
Proof.
intros Hrq. pose proof (request_canonical _ _ _ _ _ _ _ _ _ Hrq) as Hcan. pose proof Hrq as [Hu _ _ Hp Ho Hc Hr].
unfold _check_file_permission. rewrite Hu.
rewrite (bind_ok (ask _) _ fs r fs) by (unfold ask; by rewrite Hp).
rewrite (bind_ok (lift _) _ fs cfg fs) by (unfold lift; by rewrite Hc).
rewrite (bind_ok _ _ fs roots fs) by (destruct denied; unfold ask; by rewrite <- Hr).
rewrite (bind_ok _ _ fs _ fs (cache_step _ _ _ _ _ _ _ _ _ (write && trusted) Hrq)).
unfold open_to, in_cache, not_denied. rewrite <- containing_None.
destruct (decide (roots = [])) as [->|Hne].
- rewrite (bind_ok _ _ fs None fs) by (unfold ask; by rewrite find_denied_canonical). left. cbn. by auto.
- destruct (write && trusted) eqn:Ewt; [|case_bool_decide as H1; [|case_bool_decide as H2]; cbn [orb]].
  all: try (right; split; [naive_solver|by eexists]).
  all: rewrite (bind_ok _ _ fs (containing r roots) fs) by (unfold ask; by rewrite find_denied_canonical).
  all: destruct (containing r roots) as [root|] eqn:Ed; [right; split; [naive_solver|by eexists]|].
  all: left; split; [naive_solver|done].
Qed.

(* ---- the rules ---- *)

Lemma protected_write_spec fs anima_dir own r :
canonical fs r → resolve fs (of_path anima_dir) = Ok own → own `prefix_of` r →
_is_protected_write fs anima_dir r = Ok None ↔ own_writable (drop (length own) r).
Proof.
intros Hr Ho Hp. unfold _is_protected_write. rewrite (resolve_canonical fs r Hr), Ho. cbn [mbind result_bind].
rewrite (proj2 (is_relative_to_true r own) Hp). cbn [negb]. unfold own_writable.
case_bool_decide as Hf; [naive_solver|]. destruct (drop (length own) r) as [|d rest]; [naive_solver|].
unfold str_in. case_bool_decide as Hd; naive_solver.
Qed.

Lemma check_roots_write fs r cfg ws :
check_roots fs r true cfg ws = Ok None ↔ file_roots cfg = ["/"] ∨ ∃ w, w ∈ ws ∧ w `prefix_of` r.
Proof.
unfold check_roots. case_bool_decide as H1; [by split; auto|]. cbn [mbind result_bind].
rewrite <- under_any_true. destruct (under_any r ws); [by split; auto|].
assert (∀ o : result (option denial), o ≠ Ok None → o = Ok None ↔ file_roots cfg = ["/"] ∨ false = true) as Hno by naive_solver.
apply Hno. destruct (file_roots cfg); [done|]. destruct (absolute_roots fs _); [|done]. cbn. by destruct (containing r _).
Qed.

Lemma rules_write h cfg ws own fs r :
canonical fs r → resolve fs (of_path (anima_dir h)) = Ok own →
check_rules h r true cfg ws fs = Ok None ↔
  own `prefix_of` r ∧ own_writable (drop (length own) r) ∨
  ¬ own `prefix_of` r ∧
    (r ∈ subordinate_management_files (granted h) ∨
     ¬ parent own `prefix_of` r ∧ (file_roots cfg = ["/"] ∨ ∃ w, w ∈ ws ∧ w `prefix_of` r)).
Proof.
intros Hr Ho. unfold check_rules. rewrite Ho. cbn [mbind result_bind].
destruct (is_relative_to r own) eqn:E1.
{ apply is_relative_to_true in E1. rewrite (protected_write_spec fs (anima_dir h) own r Hr Ho E1). tauto. }
apply is_relative_to_false in E1. unfold grants_access. cbn [negb andb orb]. rewrite orb_false_r.
case_bool_decide as E2; [tauto|]. destruct (is_relative_to r (parent own)) eqn:E3.
{ apply is_relative_to_true in E3. split; [done|tauto]. }
apply is_relative_to_false in E3. rewrite check_roots_write. tauto.
Qed.

Lemma check_roots_read fs r cfg allowed readonly :
absolute_roots fs (file_roots cfg) = Ok allowed → absolute_roots fs (file_roots_readonly cfg) = Ok readonly →
check_roots fs r false cfg [] = Ok None ↔
  file_roots cfg = ["/"] ∨ (∃ a, a ∈ allowed ∧ a `prefix_of` r) ∨
  (file_roots cfg ≠ [] ∧ ∃ a, a ∈ readonly ∧ a `prefix_of` r).
Proof.
intros Ha Hro. unfold check_roots. case_bool_decide as H1; [by split; auto|]. rewrite Ha. cbn [mbind result_bind].
rewrite <- under_any_true. destruct (under_any r allowed); [by split; auto|].
destruct (file_roots cfg) as [|x l]; [naive_solver|]. rewrite Hro. cbn [mbind result_bind].
destruct (containing r readonly) as [a|] eqn:Ec.
- apply containing_Some in Ec. split; [|done]. intros _. right. right. split; [done|by exists a].
- split; [done|]. intros [?|[?|[_ (a & Ha' & Hp)]]]; [done|done|]. by destruct (proj1 (containing_None r readonly) Ec a).
Qed.

Lemma rules_read h cfg own fs r framework allowed readonly :
resolve fs (of_path (anima_dir h)) = Ok own → framework_readable fs r = Ok framework →
absolute_roots fs (file_roots cfg) = Ok allowed → absolute_roots fs (file_roots_readonly cfg) = Ok readonly →
check_rules h r false cfg [] fs = Ok None ↔ may_read h cfg framework allowed readonly own r.
Proof.
intros Ho Hf Ha Hro. unfold check_rules, may_read. rewrite Ho. cbn [mbind result_bind].
rewrite <- is_relative_to_true, <- is_relative_to_false. destruct (is_relative_to r own); [tauto|].
destruct (grants_access false (granted h) r); [tauto|]. rewrite Hf. cbn [mbind result_bind].
destruct framework; [tauto|]. destruct (is_relative_to r (parent own)); [naive_solver|].
rewrite (check_roots_read fs r cfg allowed readonly) by done. naive_solver.
Qed.

(* ---- the check ---- *)

Lemma within_ask {A} (f : tree → result A) : within same_links (ask f).
Proof. intros fs. unfold state_of. cbn. reflexivity. Qed.
Lemma within_make_dirs p : within same_links (make_dirs p).
Proof.
intros fs. unfold make_dirs. destruct (mkdirs fs [] p) as [fs'|] eqn:E; cbn; [by eapply mkdirs_links|reflexivity].
Qed.
(** Making the company's directory makes and removes no link. *)
Lemma write_roots_links fs anima_dir roots task ws fs' :
effective_write_roots anima_dir roots task fs = (Ok ws, fs') → same_links fs fs'.
Proof.
intros E. assert (within same_links (effective_write_roots anima_dir roots task)) as Hw.
{ unfold effective_write_roots. repeat (intros; first [apply within_ask|apply within_make_dirs|progress within_tac]). }
specialize (Hw fs). by rewrite E in Hw.
Qed.

(** A write: refused, or decided by the rules. *)
Lemma write_start h p trusted config denied fs r own cfg roots ws fs' gp :
request h p config denied fs r own cfg roots →
resolve fs (of_path get_global_permissions_path) = Ok gp →
effective_write_roots (anima_dir h) (file_roots cfg) None fs = (Ok ws, fs') →
canonical fs' r ∧ resolve fs' (of_path (anima_dir h)) = Ok own ∧
((open_to h fs p roots own r trusted ∧ r ≠ gp) ∧
   fst (_check_file_permission h p true trusted config denied fs) = check_rules h r true cfg ws fs' ∨
 ¬ (open_to h fs p roots own r trusted ∧ r ≠ gp) ∧
   ∃ reason, fst (_check_file_permission h p true trusted config denied fs) = Ok (Some reason)).
Proof.
intros Hrq Hgp Hws. pose proof (request_canonical _ _ _ _ _ _ _ _ _ Hrq) as Hcan.
pose proof (write_roots_links _ _ _ _ _ _ Hws) as Hl.
split; [by eapply same_links_canonical|split; [rewrite <- (resolve_links fs fs') by done; apply Hrq|]].
destruct (check_start _ _ true trusted _ _ _ _ _ _ _ Hrq) as [[Hopen ->]|[Hclosed (reason & ->)]];
  [|right; split; [by intros []|by exists reason]].
assert (_is_global_permissions_write_blocked fs r = Ok (if bool_decide (r = gp) then Some GlobalPermissions else None)) as Hb.
{ unfold _is_global_permissions_write_blocked. by rewrite (resolve_canonical fs r Hcan), Hgp. }
rewrite (bind_ok (ask _) _ fs _ fs) by (unfold ask; by rewrite Hb).
case_bool_decide as Hg; [right; split; [naive_solver|by eexists]|]. rewrite (bind_ok _ _ _ _ _ Hws). by left.
Qed.


(** C32. The read table: for an ordinary anima a read is allowed exactly when no
    explicit deny covers the file, and it is below its own directory, granted
    by the hierarchy, shared by the framework, or outside the animas'
    directories and under a configured root or, when there are roots at all, a
    read-only one. *)
Theorem read_table h p trusted config denied fs r own cfg roots framework allowed readonly :
request h p config denied fs r own cfg roots →
framework_readable fs r = Ok framework →
absolute_roots fs (file_roots cfg) = Ok allowed → absolute_roots fs (file_roots_readonly cfg) = Ok readonly →
fst (_check_file_permission h p false trusted config denied fs) = Ok None ↔
  open_to h fs p roots own r false ∧ may_read h cfg framework allowed readonly own r.
Proof.
intros Hrq Hf Ha Hro.
destruct (check_start _ _ false trusted _ _ _ _ _ _ _ Hrq) as [[Hopen ->]|[Hclosed (reason & ->)]];
  [|by split; [|intros []]].
cbn. rewrite (rules_read h cfg own fs r framework allowed readonly); [tauto|apply Hrq|done..].
Qed.

(* ------------------------------------------------------------------ *)
(** ** Borders *)

(** Other animas stay closed to writes: the only files below the animas'
    directories, outside its own, that an anima with the grants of the
    hierarchy may write are the four management files of animas that are
    below it in the chain of supervisors. *)
Theorem foreign_animas_closed h p trusted config denied fs r own cfg roots ws fs' gp org g grant_fs :
request h p config denied fs r own cfg roots →
resolve fs (of_path get_global_permissions_path) = Ok gp →
effective_write_roots (anima_dir h) (file_roots cfg) None fs = (Ok ws, fs') →
hierarchy_grants grant_fs (get_data_dir ++ ["animas"]) org (name_of (anima_dir h)) = Ok g → granted h = g →
parent own `prefix_of` r → ¬ own `prefix_of` r →
fst (_check_file_permission h p true trusted config denied fs) = Ok None →
∃ d home f, tc (supervises org) (name_of (anima_dir h)) d ∧ d ≠ name_of (anima_dir h) ∧
  anima_home grant_fs (get_data_dir ++ ["animas"]) d = Ok home ∧ f ∈ management_names ∧ r = home ++ [f].
Proof.
intros Hrq Hgp Hws Hg <- Hin Hout.
destruct (write_start _ _ trusted _ _ _ _ _ _ _ _ _ _ Hrq Hgp Hws) as (Hc & Ho & [[_ ->]|[_ (reason & ->)]]); [|done].
rewrite (rules_write h cfg ws own fs' r) by done.
intros [[? _]|(_ & [Hm|[? _]])]; [done| |done]. by eapply management_file_descendant.
Qed.

Lemma children_elem fs p name n : fs !! (p ++ [name]) = Some n → name ∈ children fs p.
Proof.
intros Hn. unfold children. rewrite merge_sort_Permutation. apply list_elem_of_fmap. exists (p ++ [name]).
split; [unfold name_of; by rewrite last_snoc|]. apply list_elem_of_filter. split.
- split; [by destruct p|]. unfold parent. by rewrite removelast_last.
- apply list_elem_of_fmap. exists (p ++ [name], n). split; [done|]. by apply elem_of_map_to_list.
Qed.
Lemma canonical_is_dir fs p : canonical fs p → fs !! p = Some Dir → is_dir fs (of_path p) = true.
Proof. intros Hc Hd. unfold is_dir, stat. rewrite realpath_canonical by done. destruct p; [done|]. by rewrite Hd. Qed.

Lemma company_denied_elem fs anima_dir company other c :
let companies := parent (parent anima_dir) ++ ["companies"] in
get_company fs (name_of anima_dir) (parent anima_dir) = Ok (Some company) → other ≠ company →
canonical fs (companies ++ [other]) → fs !! companies = Some Dir → fs !! (companies ++ [other]) = Some Dir →
company_denied_roots fs anima_dir = Ok c → companies ++ [other] ∈ c.
Proof.
intros companies Hco Hne Hc Hd Ho. unfold company_denied_roots. rewrite Hco. cbn [mbind result_bind].
fold companies. assert (canonical fs companies) as Hcc by (eapply canonical_prefix; [by apply prefix_app_r|done]).
rewrite realpath_canonical, canonical_is_dir by done. intros [= <-].
apply list_elem_of_omap. exists other. split; [by eapply children_elem|].
rewrite (bool_decide_eq_false_2 (other = company)), (canonical_is_dir fs (companies ++ [other])) by done.
cbn [negb orb]. by rewrite resolve_canonical.
Qed.

(** Companies are closed to each other: for an anima that belongs to a
    company, every file in the directory of another company is refused, for
    reading and for writing, whatever else is granted. *)
Theorem companies_closed h p write trusted config fs r own cfg roots company other :
let companies := parent (parent (anima_dir h)) ++ ["companies"] in
request h p config None fs r own cfg roots →
get_company fs (name_of (anima_dir h)) (parent (anima_dir h)) = Ok (Some company) → other ≠ company →
canonical fs (companies ++ [other]) → fs !! companies = Some Dir → fs !! (companies ++ [other]) = Some Dir →
companies ++ [other] `prefix_of` r →
∃ reason, fst (_check_file_permission h p write trusted config None fs) = Ok (Some reason).
Proof.
intros companies Hrq Hco Hne Hc Hd Ho Hp.
destruct (check_start _ _ write trusted _ _ _ _ _ _ _ Hrq) as [[[Hopen _] _]|[_ (reason & ->)]]; [exfalso|by exists reason].
pose proof (rq_roots _ _ _ _ _ _ _ _ _ Hrq) as Hr. cbn in Hr.
destruct (resolve_denied_roots fs (file_roots_denied cfg)) as [d|] eqn:Ed;
  [|unfold resolve_effective_denied_roots in Hr; by rewrite Ed in Hr].
destruct (company_denied_roots fs (anima_dir h)) as [c|] eqn:Ec;
  [|unfold resolve_effective_denied_roots in Hr; by rewrite Ed, Ec in Hr].
destruct (proj2 (effective_denied_cover _ _ _ _ _ _ r Ed Ec Hr)) as (root & Hroot & Hpre).
- exists (companies ++ [other]). split; [|done]. apply elem_of_app. right. by eapply company_denied_elem.
- by apply (Hopen root).
Qed.

(** Cached memory fails closed: once anything is denied, a source is
    released only when it can be traced to a file, and that file is under no
    denied root. *)
Theorem memory_fails_closed fs anima_dir source denied_roots :
denied_roots ≠ [] → memory_source_is_allowed fs anima_dir source denied_roots = Ok true →
∃ f r, resolve_memory_source_path fs anima_dir source = Ok (Some f) ∧ resolve fs (of_path f) = Ok r ∧
  ∀ root, root ∈ denied_roots → ¬ root `prefix_of` r.
Proof.
intros Hne. unfold memory_source_is_allowed, find_denied_root. destruct denied_roots as [|x l]; [done|].
destruct (resolve_memory_source_path fs anima_dir source) as [[f|]|]; [|done..]. cbn [mbind result_bind].
destruct (resolve fs (of_path f)) as [r|] eqn:E; [|done]. cbn [mbind result_bind]. intros [= Hd%bool_decide_eq_true].
exists f, r. split_and!; [done|done|]. by apply containing_None.
Qed.

(* ------------------------------------------------------------------ *)
(** ** What the charter promises and the check does not *)

(** The engine's home is protected only where something is denied: an
    anima without any deny root may write every file of its own .codex_home,
    the hook that checks its shell commands included. *)
Theorem codex_home_unprotected h p trusted config denied fs r own cfg ws fs' gp rest :
request h p config denied fs r own cfg [] →
resolve fs (of_path get_global_permissions_path) = Ok gp →
effective_write_roots (anima_dir h) (file_roots cfg) None fs = (Ok ws, fs') →
r = own ++ ".codex_home" :: rest → r ≠ gp →
fst (_check_file_permission h p true trusted config denied fs) = Ok None.
Proof.
intros Hrq Hgp Hws -> Hne.
destruct (write_start _ _ trusted _ _ _ _ _ _ _ _ _ _ Hrq Hgp Hws) as (Hc & Ho & [[Hopen ->]|[Hclosed _]]).
- apply (rules_write h cfg ws own fs'); [done..|]. left. split; [by apply prefix_app_r|]. rewrite drop_app_length.
  split; [|by intros d l [= <- _] ?%list_elem_of_singleton].
  unfold PROTECTED_FILES. rewrite !not_elem_of_cons. repeat split; try done. apply not_elem_of_nil.
- destruct Hclosed. split; [|done]. split; [|by left]. by intros root ?%elem_of_nil.
Qed.

Lemma traverse_elem {A C : Type} (f : A → result C) l ys x :
traverse f l = Ok ys → x ∈ l → ∃ y, f x = Ok y ∧ y ∈ ys.
Proof.
revert ys. induction l as [|z l IH]; intros ys; cbn; [by intros _ ?%elem_of_nil|].
destruct (f z) as [y|] eqn:E; [|done]. cbn. destruct (traverse f l) as [ys'|]; [|done]. cbn. intros [= <-] [->|Hx]%elem_of_cons.
- exists y. split; [done|by left].
- destruct (IH ys' eq_refl Hx) as (y' & ? & ?). exists y'. split; [done|by right].
Qed.
(** A configured root is an effective one. *)
Lemma configured_root fs anima_dir roots ws fs' root w :
effective_write_roots anima_dir roots None fs = (Ok ws, fs') → root ∈ roots → resolve_user fs (Path root) = Ok w → w ∈ ws.
Proof.
unfold effective_write_roots. intros He Hroot Hw. revert He. run_unfold. unfold ask at 1.
destruct (resolve fs (of_path anima_dir)) as [own|]; [|done]. unfold ask at 1.
destruct (company_shared_write_root fs anima_dir) as [shared|]; [|done].
destruct (match shared with Some s => make_dirs s | None => _ end fs) as [[[]|] fs1] eqn:Em; [|done].
assert (same_links fs fs1) as Hl.
{ destruct shared as [s|]; [|by injection Em as <-]. pose proof (within_make_dirs s fs) as Hm. by rewrite Em in Hm. }
unfold ask at 1. destruct (traverse _ roots) as [configured|] eqn:Et; [|done]. intros [= <- _].
destruct (traverse_elem _ _ _ _ Et Hroot) as (y & Hy & Hin).
apply unique_in_order_elem. split; [|apply not_elem_of_nil]. apply elem_of_app. right. apply elem_of_app. left.
unfold file_root, resolve_user in *. run_unfold. destruct (expanduser (Path root)) as [q|]; [|done].
rewrite <- (resolve_links fs fs1 q Hl), Hw in Hy. case_match; [done|]. by injection Hy as <-.
Qed.

(** A configured root above the data directory opens it: its files, outside
    the animas' directories and the denied roots, may then be written, although
    a root inside the data directory is rejected. *)
Theorem enclosing_root_opens_data_dir h p trusted config denied fs r own cfg roots ws fs' gp root w :
request h p config denied fs r own cfg roots →
resolve fs (of_path get_global_permissions_path) = Ok gp →
effective_write_roots (anima_dir h) (file_roots cfg) None fs = (Ok ws, fs') →
root ∈ file_roots cfg → resolve_user fs (Path root) = Ok w → w `prefix_of` parent (parent own) → parent (parent own) `prefix_of` r →
¬ parent own `prefix_of` r → r ≠ gp → open_to h fs p roots own r trusted →
fst (_check_file_permission h p true trusted config denied fs) = Ok None.
Proof.
intros Hrq Hgp Hws Hroot Hres Hpw Hpr Hnot Hne Hopen. assert (w ∈ ws) as Hw by (by eapply configured_root).
destruct (write_start _ _ trusted _ _ _ _ _ _ _ _ _ _ Hrq Hgp Hws) as (Hc & Ho & [[_ ->]|[Hclosed _]]); [|by destruct Hclosed].
apply (rules_write h cfg ws own fs'); [done..|]. right. split.
- intros Hown. apply Hnot. etrans; [apply parent_prefix|done].
- right. split; [done|]. right. exists w. split; [done|by etrans].
Qed.
End policy.
