(* ===== verification/ShellText.v ===== *)
(** * Shell commands as text

    How the permission checks take a command apart: [re.split] at the operators
    of a pipeline, the finer split of the command hook, and [shlex.split]
    (POSIX mode, [whitespace_split], no comments) as its automaton.  All
    separators and quotes are ASCII, so the automata run over bytes. *)

From Stdlib Require Import Ascii.
From stdpp Require Import prelude strings list.
From S2P Require Import Prelude PyValue PyText JsonText JsonRound.

Definition chr (n : nat) : ascii := ascii_of_nat n.
Definition pipe : ascii := chr 124.
Definition amp : ascii := chr 38.
Definition dquote : ascii := chr 34.
Definition squote : ascii := chr 39.
Definition backslash : ascii := chr 92.

(** Splits where [sep] finds a separator; it says how many bytes it takes. *)
Fixpoint split_where (sep : string → nat) (skip : nat) (s : string) : list string :=
  match s with
  | EmptyString => [""]
  | String c s' =>
      match skip with
      | S k => split_where sep k s'
      | O =>
          match sep s with
          | S k => "" :: split_where sep k s'
          | O => match split_where sep 0 s' with
                 | x :: l => String c x :: l
                 | [] => [String c ""]
                 end
          end
      end
  end.

(** [re.split(r"\|(?!\|)|\&\&|\|\|", command)]. *)
Definition operator (s : string) : nat :=
  match s with
  | String a (String b _) =>
      if bool_decide (a = pipe) then if bool_decide (b = pipe) then 2 else 1
      else if bool_decide (a = amp) && bool_decide (b = amp) then 2 else 0
  | String a EmptyString => if bool_decide (a = pipe) then 1 else 0
  | EmptyString => 0
  end.
(** The separators of the hook: also [;], a newline, [$(], a back quote, [<(]
    and [)]. *)
Definition hook_operator (s : string) : nat :=
  match operator s, s with
  | S k, _ => S k
  | O, String a rest =>
      if bool_decide (a ∈ chr <$> [59; 10; 96; 41]) then 1 else
      match rest with
      | String b _ => if bool_decide (a ∈ chr <$> [36; 60]) && bool_decide (b = chr 40) then 2 else 0
      | EmptyString => 0
      end
  | O, EmptyString => 0
  end.

(** [[s.strip() for s in ... if s.strip()]]. *)
Definition stripped (l : list string) : list string := filter (λ s, s ≠ "") (strip <$> l).
Definition segments (command : string) : list string := stripped (split_where operator 0 command).
Definition hook_segments (command : string) : list string := stripped (split_where hook_operator 0 command).

(* ------------------------------------------------------------------ *)
(** ** [shlex.split] *)

Definition shlex_space (c : ascii) : bool := bool_decide (c ∈ chr <$> [32; 9; 13; 10]).
Definition shlex_quote (c : ascii) : bool := bool_decide (c = squote) || bool_decide (c = dquote).

(** Between words; in a word; in quotes; after an escape, which returns to a
    word or to double quotes. *)
Inductive lex_state := Blank | Word | Quoted (q : ascii) | Escaped (inside : option ascii).

(** [word]: the token so far ([None]: nothing yet; quotes make an empty one). *)
Fixpoint lex (st : lex_state) (word : option string) (s : string) : result (list string) :=
  let emit (rest : result (list string)) := match word with Some w => l ← rest; Ok (w :: l) | None => rest end in
  let push c := Some (default "" word +:+ String c "") in
  match s with
  | EmptyString =>
      match st with
      | Quoted _ => Err (ValueError "No closing quotation")
      | Escaped _ => Err (ValueError "No escaped character")
      | _ => emit (Ok [])
      end
  | String c s' =>
      match st with
      | Blank | Word =>
          if shlex_space c then emit (lex Blank None s')
          else if bool_decide (c = backslash) then lex (Escaped None) word s'
          else if shlex_quote c then lex (Quoted c) (Some (default "" word)) s'
          else lex Word (push c) s'
      | Quoted q =>
          if bool_decide (c = q) then lex Word word s'
          else if bool_decide (c = backslash) && bool_decide (q = dquote) then lex (Escaped (Some q)) word s'
          else lex (Quoted q) (push c) s'
      | Escaped inside =>
          match inside with
          | Some q =>
              if negb (bool_decide (c = backslash)) && negb (bool_decide (c = q))
              then lex (Quoted q) (Some (default "" word +:+ String backslash (String c ""))) s'
              else lex (Quoted q) (push c) s'
          | None => lex Word (push c) s'
          end
      end
  end.
Definition shlex_split (s : string) : result (list string) := lex Blank None s.

Example shlex_words : shlex_split "grep -r 'a b' x\ y" = Ok ["grep"; "-r"; "a b"; "x y"].
Proof. reflexivity. Qed.
Example segments_pipeline : segments "ls -l | wc && echo done || true" = ["ls -l"; "wc"; "echo done"; "true"].
Proof. vm_compute. reflexivity. Qed.

(* ------------------------------------------------------------------ *)
(** ** Plain words *)

Fixpoint all_chars (p : ascii → bool) (s : string) : bool :=
  match s with EmptyString => true | String c s' => p c && all_chars p s' end.
Lemma all_chars_app p s t : all_chars p (s +:+ t) = all_chars p s && all_chars p t.
Proof. induction s as [|c s IH]; [done|]. change (p c && all_chars p (s +:+ t) = p c && all_chars p s && all_chars p t). by rewrite IH, andb_assoc. Qed.

(** Printable ASCII without shell syntax. *)
Definition plain (c : ascii) : bool :=
  bool_decide (33 ≤ code c) && bool_decide (code c ≤ 126) &&
  negb (bool_decide (code c ∈ [34; 36; 38; 39; 40; 41; 59; 60; 92; 96; 124])).
(** The characters between which no separator begins. *)
Definition inert (c : ascii) : bool := plain c || bool_decide (c = chr 32) || bool_decide (c = dquote).
Definition printable (c : ascii) : bool := bool_decide (33 ≤ code c) && bool_decide (code c ≤ 126).

Lemma for_all_ascii (P : ascii → bool) : forallb P (ascii_of_nat <$> seq 0 256) = true → ∀ c, P c = true.
Proof.
  intros H c. rewrite forallb_forall in H. apply H. apply list_elem_of_In, list_elem_of_fmap. exists (nat_of_ascii c).
  split; [by rewrite ascii_nat_embedding|]. apply elem_of_seq. pose proof (nat_ascii_bounded c). lia.
Qed.
Ltac by_ascii c :=
  match goal with |- ?b = true =>
    let P := eval pattern c in b in
    match P with ?f c => refine (for_all_ascii f _ c); vm_compute; reflexivity end
  end.

Lemma implb_true a b : implb a b = true → a = true → b = true.
Proof. by destruct a, b. Qed.
Lemma inert_facts c : inert c = true →
  c ≠ pipe ∧ c ≠ amp ∧ bool_decide (c ∈ chr <$> [59; 10; 96; 41]) = false ∧ bool_decide (c ∈ chr <$> [36; 60]) = false.
Proof.
  intros Hc.
  assert (implb (inert c) (negb (bool_decide (c = pipe)) && negb (bool_decide (c = amp)) &&
            negb (bool_decide (c ∈ chr <$> [59; 10; 96; 41])) && negb (bool_decide (c ∈ chr <$> [36; 60]))) = true) as Hi by by_ascii c.
  pose proof (implb_true _ _ Hi Hc) as Hi'; clear Hi; rename Hi' into Hi. rewrite !andb_true_iff, !negb_true_iff, !bool_decide_eq_false in Hi.
  destruct Hi as [[[? ?] ?] ?]. split_and!; [done|done|by apply bool_decide_eq_false..].
Qed.
Lemma plain_facts c : plain c = true →
  printable c = true ∧ inert c = true ∧ shlex_space c = false ∧ bool_decide (c = backslash) = false ∧
  shlex_quote c = false ∧ bool_decide (c = dquote) = false.
Proof.
  intros Hc.
  assert (implb (plain c) (printable c && inert c && negb (shlex_space c) && negb (bool_decide (c = backslash)) &&
            negb (shlex_quote c) && negb (bool_decide (c = dquote))) = true) as Hi by by_ascii c.
  pose proof (implb_true _ _ Hi Hc) as Hi'; clear Hi; rename Hi' into Hi. rewrite !andb_true_iff, !negb_true_iff in Hi. tauto.
Qed.
Lemma all_chars_mono (p q : ascii → bool) s : (∀ c, p c = true → q c = true) → all_chars p s = true → all_chars q s = true.
Proof. intros Hpq. induction s as [|c s IH]; [done|]. cbn. rewrite !andb_true_iff. intros [??]. auto. Qed.

Lemma operator_inert c s : inert c = true → operator (String c s) = 0 ∧ hook_operator (String c s) = 0.
Proof.
  intros (Hp & Ha & Hs & Hd)%inert_facts.
  assert (operator (String c s) = 0) as Ho.
  { destruct s; cbn; rewrite !bool_decide_eq_false_2 by done; done. }
  split; [done|]. unfold hook_operator. rewrite Ho, Hs. destruct s; [done|]. by rewrite Hd.
Qed.

(** One pipe between two texts without separators. *)
Lemma split_pipe sep a b :
  (∀ c s, inert c = true → sep (String c s) = 0) → (∀ c s, c ≠ pipe → sep (String pipe (String c s)) = 1) →
  all_chars inert a = true → all_chars inert b = true → b ≠ "" →
  split_where sep 0 (a +:+ String pipe b) = [a; b].
Proof.
  intros Hsep Hpipe Ha Hb Hne.
  assert (∀ x, all_chars inert x = true → split_where sep 0 x = [x]) as Hone.
  { induction x as [|c x IH]; [done|]. cbn [all_chars]. rewrite andb_true_iff. intros [Hc Hx].
    cbn [split_where]. by rewrite Hsep, IH. }
  induction a as [|c a IH]; cbn [all_chars] in Ha.
  - change (split_where sep 0 (String pipe b) = [""; b]). destruct b as [|d b]; [done|]. cbn [split_where].
    rewrite Hpipe; [change ("" :: split_where sep 0 (String d b) = [""; String d b]); f_equal; exact (Hone _ Hb)|]. cbn [all_chars] in Hb. apply andb_true_iff in Hb as [Hd _].
    apply inert_facts in Hd. tauto.
  - apply andb_true_iff in Ha as [Hc Ha]. change (split_where sep 0 (String c (a +:+ String pipe b)) = [String c a; b]).
    cbn [split_where]. by rewrite Hsep, IH.
Qed.

(* ---- stripping ---- *)

Definition is_ascii (c : ascii) : bool := bool_decide (code c ≤ 127).
Lemma ascii_not_wide c x y :
  is_ascii c = true → wide_space2 (code c) x = false ∧ wide_space3 (code c) x y = false ∧
  wide_space2 x (code c) = false ∧ wide_space3 x y (code c) = false ∧ wide_space3 x (code c) y = false.
Proof.
  unfold is_ascii. intros Hc%bool_decide_eq_true.
  unfold wide_space2, wide_space3. repeat split; repeat (case_bool_decide; try lia; try done); cbn;
    rewrite ?andb_false_r; try done; repeat (case_bool_decide; try lia; try done); set_solver by lia.
Qed.
Lemma printable_facts c : printable c = true → is_ascii c = true ∧ ascii_space (code c) = false.
Proof.
  intros Hc. assert (implb (printable c) (is_ascii c && negb (ascii_space (code c))) = true) as Hi by by_ascii c.
  pose proof (implb_true _ _ Hi Hc) as Hi'; clear Hi; rename Hi' into Hi. by rewrite andb_true_iff, negb_true_iff in Hi.
Qed.
Lemma blank_ends x c : all_chars is_ascii x = true → printable c = true → blank (x +:+ String c "") = false.
Proof.
  intros Hx Hc. pose proof (printable_facts c Hc) as [Hac Hsc]. induction x as [|a x IH].
  - change (blank (String c "") = false). cbn [blank]. by rewrite Hsc.
  - cbn [all_chars] in Hx. apply andb_true_iff in Hx as [Ha Hx]. specialize (IH Hx).
    change (blank (String a (x +:+ String c "")) = false). cbn [blank]. destruct (ascii_space (code a)); [done|].
    destruct (x +:+ String c "") as [|b [|d y]] eqn:E; [done|..].
    + destruct (ascii_not_wide a (code b) 0 Ha) as (-> & _). done.
    + destruct (ascii_not_wide a (code b) (code d) Ha) as (-> & -> & _). done.
Qed.
Lemma strip_tight c0 x c :
  printable c0 = true → all_chars is_ascii x = true → printable c = true →
  strip (String c0 (x +:+ String c "")) = String c0 (x +:+ String c "").
Proof.
  intros H0 Hx Hc. unfold strip. destruct (printable_facts c0 H0) as [Ha0 Hs0].
  assert (lstrip (String c0 (x +:+ String c "")) = String c0 (x +:+ String c "")) as ->.
  { cbn [lstrip]. rewrite Hs0. destruct (x +:+ String c "") as [|b [|d y]]; [done|..].
    - by destruct (ascii_not_wide c0 (code b) 0 Ha0) as (-> & _).
    - by destruct (ascii_not_wide c0 (code b) (code d) Ha0) as (-> & -> & _). }
  assert (∀ y, all_chars is_ascii y = true → rstrip (y +:+ String c "") = y +:+ String c "") as Hr.
  { induction y as [|a y IH].
    - intros _. change (rstrip (String c "") = String c ""). cbn [rstrip blank]. destruct (printable_facts c Hc) as [_ ->]. done.
    - intros Hy. pose proof (blank_ends (String a y) c Hy Hc) as Hb.
      change (rstrip (String a (y +:+ String c "")) = String a (y +:+ String c "")).
      change (blank (String a (y +:+ String c "")) = false) in Hb. cbn [rstrip]. rewrite Hb. f_equal. apply IH.
      cbn [all_chars] in Hy. by apply andb_true_iff in Hy as [_ ?]. }
  apply (Hr (String c0 x)). cbn [all_chars]. by rewrite Ha0.
Qed.

(* ---- lexing ---- *)

Lemma lex_word t w s : all_chars plain w = true → lex Word (Some t) (w +:+ s) = lex Word (Some (t +:+ w)) s.
Proof.
  revert t. induction w as [|c w IH]; intros t Hw; [change ("" +:+ s) with s; by rewrite string_app_nil|].
  cbn [all_chars] in Hw. apply andb_true_iff in Hw as [(Hp & _ & Hs & Hb & Hq & _)%plain_facts Hw].
  change (String c w +:+ s) with (String c (w +:+ s)). cbn [lex]. rewrite Hs, Hb, Hq. cbn [from_option].
  rewrite IH by done. f_equal. f_equal. unfold id. by rewrite string_app_assoc.
Qed.
Lemma lex_quoted t w s : all_chars (λ c, plain c || bool_decide (c = pipe)) w = true →
  lex (Quoted dquote) (Some t) (w +:+ s) = lex (Quoted dquote) (Some (t +:+ w)) s.
Proof.
  revert t. induction w as [|c w IH]; intros t Hw; [change ("" +:+ s) with s; by rewrite string_app_nil|].
  cbn [all_chars] in Hw. apply andb_true_iff in Hw as [Hc Hw].
  change (String c w +:+ s) with (String c (w +:+ s)). cbn [lex].
  assert (bool_decide (c = dquote) = false ∧ bool_decide (c = backslash) = false) as [-> ->].
  { apply orb_true_iff in Hc as [Hc%plain_facts|Hc%bool_decide_eq_true]; [tauto|by subst]. }
  cbn [andb from_option]. rewrite IH by done. f_equal. f_equal. unfold id. by rewrite string_app_assoc.
Qed.

(* ---- a command with an operator between quotes ---- *)

(** [w "u|v"]. *)
Definition quoted_command (w u v : string) : string :=
  w +:+ String (chr 32) (String dquote (u +:+ String pipe (v +:+ String dquote ""))).

Record words (w u v : string) : Prop := {
  wd_w : all_chars plain w = true;
  wd_some : w ≠ "";
  wd_u : all_chars plain u = true;
  wd_v : all_chars plain v = true
}.

Lemma lex_start w s : all_chars plain w = true → w ≠ "" → lex Blank None (w +:+ s) = lex Word (Some w) s.
Proof.
  intros Hw Hne. destruct w as [|c w]; [done|]. cbn [all_chars] in Hw.
  apply andb_true_iff in Hw as [(_ & _ & Hs & Hb & Hq & _)%plain_facts Hw].
  rewrite string_cons_app. cbn [lex]. rewrite Hs, Hb, Hq. cbn [from_option]. by apply lex_word.
Qed.
Lemma lex_space w s : lex Word (Some w) (String (chr 32) s) = (l ← lex Blank None s; Ok (w :: l)).
Proof. reflexivity. Qed.
Lemma lex_open st word s : st = Blank ∨ st = Word →
  lex st word (String dquote s) = lex (Quoted dquote) (Some (default "" word)) s.
Proof. by intros [-> | ->]. Qed.
Lemma plain_pipe w : all_chars plain w = true → all_chars (λ c, plain c || bool_decide (c = pipe)) w = true.
Proof. apply all_chars_mono. by intros c ->. Qed.

(** The shell sees two words. *)
Lemma quoted_words w u v : words w u v → shlex_split (quoted_command w u v) = Ok [w; u +:+ String pipe v].
Proof.
  intros [Hw Hne Hu Hv]. unfold quoted_command, shlex_split. rewrite lex_start, lex_space, lex_open by auto. cbn [from_option].
  assert (u +:+ String pipe (v +:+ String dquote "") = (u +:+ String pipe v) +:+ String dquote "") as ->
    by (by rewrite string_app_assoc, string_cons_app).
  rewrite lex_quoted; [reflexivity|]. rewrite all_chars_app, plain_pipe by done. cbn [all_chars andb].
  rewrite plain_pipe by done. reflexivity.
Qed.

(** The checks see two pieces, and neither parses. *)
Lemma quoted_pieces w u v : words w u v →
  shlex_split (w +:+ String (chr 32) (String dquote u)) = Err (ValueError "No closing quotation") ∧
  shlex_split (v +:+ String dquote "") = Err (ValueError "No closing quotation").
Proof.
  intros [Hw Hne Hu Hv]. unfold shlex_split. split.
  - rewrite lex_start, lex_space, lex_open by auto. rewrite <- (string_app_nil u), lex_quoted by (by apply plain_pipe). reflexivity.
  - destruct (decide (v = "")) as [->|Hv']; [reflexivity|]. rewrite lex_start, lex_open by auto. reflexivity.
Qed.

Lemma last_char s : s ≠ "" → ∃ x c, s = x +:+ String c "".
Proof.
  induction s as [|c s IH]; [done|]. intros _. destruct s as [|d s]; [by exists "", c|].
  destruct IH as (x & e & ->); [done|]. by exists (String c x), e.
Qed.
Lemma strip_printable s c : all_chars is_ascii s = true →
  match s with String d _ => printable d | EmptyString => true end = true → printable c = true →
  strip (s +:+ String c "") = s +:+ String c "".
Proof.
  intros Hs Hd Hc. destruct s as [|d s].
  - change (strip (String c "") = String c ""). unfold strip. destruct (printable_facts c Hc) as [_ Hsp].
    cbn [lstrip]. rewrite Hsp. cbn [rstrip blank]. by rewrite Hsp.
  - cbn [all_chars] in Hs. apply andb_true_iff in Hs as [_ Hs]. by apply strip_tight.
Qed.
Lemma plain_ascii w : all_chars plain w = true → all_chars is_ascii w = true.
Proof. apply all_chars_mono. intros c (Hp & _)%plain_facts. by apply printable_facts. Qed.
Lemma plain_inert w : all_chars plain w = true → all_chars inert w = true.
Proof. apply all_chars_mono. by intros c (_ & Hi & _)%plain_facts. Qed.
Lemma plain_first w : all_chars plain w = true → match w with String d _ => printable d | EmptyString => true end = true.
Proof. destruct w as [|d w]; [done|]. cbn [all_chars]. by intros [(Hp & _)%plain_facts _]%andb_true_iff. Qed.

Lemma app_cons_nonempty s c t : s +:+ String c t ≠ "".
Proof. destruct s as [|a s]; [change (String c t ≠ "")|change (String a (s +:+ String c t) ≠ "")]; done. Qed.

Lemma quoted_stripped sep w u v : words w u v →
  (∀ c s, inert c = true → sep (String c s) = 0) → (∀ c s, c ≠ pipe → sep (String pipe (String c s)) = 1) →
  stripped (split_where sep 0 (quoted_command w u v)) = [w +:+ String (chr 32) (String dquote u); v +:+ String dquote ""].
Proof.
  intros [Hw Hne Hu Hv] Hsep Hpipe. unfold quoted_command.
  assert (w +:+ String (chr 32) (String dquote (u +:+ String pipe (v +:+ String dquote ""))) =
          (w +:+ String (chr 32) (String dquote u)) +:+ String pipe (v +:+ String dquote "")) as ->
    by (by rewrite string_app_assoc, !string_cons_app).
  rewrite split_pipe; [|done|done| | |apply app_cons_nonempty].
  - assert (strip (w +:+ String (chr 32) (String dquote u)) = w +:+ String (chr 32) (String dquote u)) as E1.
    { destruct (decide (u = "")) as [->|Hu'].
      - change (w +:+ String (chr 32) (String dquote "")) with (w +:+ (String (chr 32) "" +:+ String dquote "")).
        rewrite <- string_app_assoc. apply strip_printable; [by rewrite all_chars_app, plain_ascii| |done].
        destruct w as [|d w]; [done|]. by apply (plain_first (String d w)).
      - destruct (last_char u Hu') as (x & c & ->). rewrite all_chars_app in Hu. apply andb_true_iff in Hu as [Hx Hc].
        cbn [all_chars] in Hc. apply andb_true_iff in Hc as [(Hc & _)%plain_facts _].
        change (String (chr 32) (String dquote (x +:+ String c ""))) with ((String (chr 32) (String dquote "") +:+ x) +:+ String c "").
        rewrite <- string_app_assoc. apply strip_printable; [|destruct w; [done|by apply (plain_first (String a w))]|done].
        rewrite !all_chars_app, (plain_ascii w Hw), (plain_ascii x Hx). reflexivity. }
    assert (strip (v +:+ String dquote "") = v +:+ String dquote "") as E2.
    { apply strip_printable; [by apply plain_ascii|by apply plain_first|done]. }
    unfold stripped. cbn [fmap list_fmap]. rewrite E1, E2. by rewrite !filter_cons_True by apply app_cons_nonempty.
  - rewrite all_chars_app, plain_inert by done. cbn [all_chars]. by rewrite plain_inert.
  - by rewrite all_chars_app, plain_inert.
Qed.

Lemma operator_pipe c s : c ≠ pipe → operator (String pipe (String c s)) = 1 ∧ hook_operator (String pipe (String c s)) = 1.
Proof.
  intros Hc. assert (operator (String pipe (String c s)) = 1) as Ho.
  { unfold operator. rewrite bool_decide_eq_true_2 by done. by rewrite bool_decide_eq_false_2. }
  split; [done|]. unfold hook_operator. by rewrite Ho.
Qed.
Lemma quoted_segments w u v : words w u v →
  segments (quoted_command w u v) = [w +:+ String (chr 32) (String dquote u); v +:+ String dquote ""] ∧
  hook_segments (quoted_command w u v) = [w +:+ String (chr 32) (String dquote u); v +:+ String dquote ""].
Proof.
  intros Hw. split; apply quoted_stripped; try done; intros c s Hc; by apply operator_inert || by apply operator_pipe.
Qed.
Lemma quoted_nonblank w u v : words w u v → strip (quoted_command w u v) ≠ "".
Proof.
  intros [Hw Hne Hu Hv]. unfold quoted_command. destruct w as [|d w]; [done|]. cbn [all_chars] in Hw.
  pose proof Hw as Hw'. apply andb_true_iff in Hw as [Hd Hw].
  assert (String d w +:+ String (chr 32) (String dquote (u +:+ String pipe (v +:+ String dquote ""))) =
          String d ((w +:+ String (chr 32) (String dquote u) +:+ String pipe v) +:+ String dquote "")) as ->.
  { rewrite string_cons_app. f_equal. by rewrite !string_app_assoc, !string_cons_app. }
  rewrite strip_tight; [done|by apply plain_facts| |done].
  rewrite !all_chars_app. cbn [all_chars]. rewrite (plain_ascii w Hw), (plain_ascii u Hu), (plain_ascii v Hv). reflexivity.
Qed.
