(* ===== verification/CommandPolicy.v ===== *)
(** * Which shell commands an anima may run

    The command checks of [core/tooling/handler_perms.py] and
    [core/execution/_sdk_security.py], the hook
    [core/tooling/codex_command_hook.py] and the cache of global patterns,
    [core/config/global_permissions.py].  Regular expressions come from
    configuration files: compiling one, and what it finds, is a parameter.
    Logging is left out. *)

From Stdlib Require Import Ascii.
From stdpp Require Import prelude strings list gmap.
From S2P Require Import Prelude PyValue PyText FileSystem Org FilePolicy ShellText.

(** [re.compile(pattern)] ([None]: [re.error]) and its [search]. *)
Class Regex := re_compile : string → option (string → bool).

Section patterns.
Context `{Regex}.

Record GlobalDenyPattern := mk_pattern { pattern : string; pattern_name : string; reason : string }.
Record GlobalPermissionsConfig := mk_global {
injection_patterns : list GlobalDenyPattern;
injection_mode : string;
global_deny : list GlobalDenyPattern
}.

Definition _compile_patterns (items : list GlobalDenyPattern) : list ((string → bool) * string) :=
omap (λ i, (λ m, (m, reason i)) <$> re_compile (pattern i)) items.
(** [None]: nothing to look for; the joined expression may fail to compile. *)
Definition _build_injection_re (items : list GlobalDenyPattern) : result (option (string → bool)) :=
match filter (λ p, is_Some (re_compile p)) (pattern <$> items) with
| [] => Ok None
| ps => match re_compile (join "|" ps) with Some m => Ok (Some m) | None => Err (ValueError "re.error") end
end.

(** The cache of the process; [config] is [None] until it is loaded. *)
Record GlobalPermissionsCache := mk_cache {
cache_config : option GlobalPermissionsConfig;
compiled_injection : option (string → bool);
compiled_deny : list ((string → bool) * string);
cached_content : string;
cached_hash : string
}.
Definition loaded (c : GlobalPermissionsCache) : bool := bool_decide (is_Some (const tt <$> cache_config c)).
Definition unloaded : GlobalPermissionsCache := mk_cache None None [] "" "".

(** The files: [permissions.global.json] and the hash of the last run. *)
Record global_files := mk_files { global_file : option string; hash_file : option string }.
Section cache.
Context (sha256 : string → string) (parse : string → result GlobalPermissionsConfig).

(** [load]; [terminal] is whether a terminal is attached and what is answered. *)
Definition load (interactive : bool) (terminal : option string) (f : global_files) :
  result GlobalPermissionsCache * global_files :=
match global_file f with
| None => (Err (FileNotFoundError "permissions.global.json"), f)
| Some content =>
    let current := sha256 content in
    let changed := match hash_file f with
                   | Some h => interactive && str_truthy (strip h) && negb (bool_decide (strip h = current))
                   | None => false
                   end in
    let accepted := match terminal with Some a => bool_decide (lower (strip a) = "yes") | None => false end in
    if changed && negb accepted then (Err (RuntimeError "SystemExit"), f) else
    match parse content with
    | Err e => (Err e, f)
    | Ok cfg =>
        match _build_injection_re (injection_patterns cfg) with
        | Err e => (Err e, f)
        | Ok inj => (Ok (mk_cache (Some cfg) inj (_compile_patterns (global_deny cfg)) content current),
                     mk_files (global_file f) (Some current))
        end
    end
end.

(** [check_integrity] and [_restore]. *)
Definition check_integrity (c : GlobalPermissionsCache) (f : global_files) : bool * global_files :=
if negb (loaded c) || negb (str_truthy (cached_content c)) then (true, f) else
let restored := mk_files (Some (cached_content c)) (hash_file f) in
match global_file f with
| None => (false, restored)
| Some current => if bool_decide (sha256 current = cached_hash c) then (true, f) else (false, restored)
end.
End cache.

(** [command_deny_matches]. *)
Definition command_deny_matches (denied segment cmd_base : string) : bool :=
if startswith "re:" denied then
  match re_compile (String.substring 3 (String.length denied - 3) denied) with
  | Some m => m segment
  | None => false
  end
else contains denied cmd_base || contains denied segment.
End patterns.

(* ------------------------------------------------------------------ *)
(** ** Recursive searches *)

Definition HEAVY_DIR_NAMES : list string := ["activity_log"; "logs"; ".codex_home"; "task_results"].
Definition GREP_FAMILY : list string := ["grep"; "egrep"; "fgrep"].

(** [Path(s).name]. *)
Definition command_name (s : string) : string := name_of (parts (Path s)).
Definition or_here (l : list string) : list string := match l with [] => ["."] | _ => l end.

Fixpoint find_paths (l : list string) : list string :=
  match l with
  | [] => []
  | a :: l => if startswith "-" a || str_in a ["("; "!"; ")"] then [] else a :: find_paths l
  end.

Definition _search_targets (argv : list string) : option (list string) :=
  match argv with
  | [] => None
  | cmd :: args =>
      let base := command_name cmd in
      let operands := filter (λ a, startswith "-" a = false) args in
      let flags := filter (λ a, startswith "-" a = true) args in
      if str_in base GREP_FAMILY then
        if any (λ f, str_in f ["--recursive"; "--dereference-recursive"] ||
                     (negb (startswith "--" f) && (contains "r" f || contains "R" f))) flags
        then Some (or_here (if any (λ x, str_in x flags) ["-e"; "-f"; "--regexp"] then operands else tail operands))
        else None
      else if str_in base ["rg"; "ag"; "ack"] then
        Some (or_here (if any (λ x, str_in x argv) ["-e"; "--regexp"; "--files"] then operands else tail operands))
      else if bool_decide (base = "find") then Some (or_here (find_paths args))
      else if str_in base ["fd"; "fdfind"] && bool_decide (2 ≤ length operands) then Some (tail operands)
      else if str_in base ["fd"; "fdfind"; "du"] then Some (or_here operands)
      else None
  end.

(** Leading assignments ([FOO=bar cmd]) are dropped. *)
Fixpoint drop_assignments (argv : list string) : list string :=
  match argv with
  | a :: rest => if contains "=" a && negb (startswith "-" a) then drop_assignments rest else argv
  | [] => []
  end.

Section checks.
Context `{OsEnv, Installation, Regex}.

Definition _is_broad_data_root (fs : tree) (p : pure_path) (data_dir : path) : result bool :=
r ← resolve fs p;
d ← resolve fs (of_path data_dir);
if negb (is_relative_to r d) then Ok false else
let rel := drop (length d) r in
Ok ((bool_decide (rel ≠ []) &&
       (str_in (name_of rel) HEAVY_DIR_NAMES || (any (λ x, str_in x HEAVY_DIR_NAMES) rel && is_dir fs p))) ||
    match rel with
    | [] => true
    | head :: rest =>
        (str_in head ["animas"; "companies"; "shared"] && bool_decide (length rel ≤ 2)) ||
        (bool_decide (head = "companies") && bool_decide (length rel = 3) && bool_decide (rel !! 2 = Some "shared")) ||
        (bool_decide (head = "animas") && bool_decide (length rel = 3) && bool_decide (rel !! 2 = Some "state"))
    end).

(** The first target that is too broad. *)
Fixpoint broad_target (fs : tree) (here : pure_path) (data_dir : path) (targets : list string) : result (option string) :=
match targets with
| [] => Ok None
| raw :: targets =>
    p ← expanduser (Path raw);
    broad ← _is_broad_data_root fs (joinpath here p) data_dir;
    if broad : bool then Ok (Some raw) else broad_target fs here data_dir targets
end.

Fixpoint search_segments (fs : tree) (here : pure_path) (data_dir : path) (l : list string) : result (option string) :=
match l with
| [] => Ok None
| segment :: l =>
    match shlex_split segment with
    | Err _ => search_segments fs here data_dir l
    | Ok argv =>
        match drop_assignments argv with
        | [] => search_segments fs here data_dir l
        | (cmd :: args) as argv =>
            if bool_decide (cmd = "cd") then
              here' ← match args with
                      | a :: _ => p ← expanduser (Path a); Ok (joinpath here p)
                      | [] => Ok here
                      end;
              search_segments fs here' data_dir l
            else
              b ← broad_target fs here data_dir (default [] (_search_targets argv));
              match b with Some raw => Ok (Some raw) | None => search_segments fs here data_dir l end
        end
    end
end.
Definition check_recursive_search (fs : tree) (command : string) (here : pure_path) (data_dir : path) : result (option string) :=
search_segments fs here data_dir (hook_segments command).

(* ---- the layers ---- *)

Inductive refusal :=
| EmptyCommand
| InjectionPattern
| BlockedPattern (why : string)
| BroadSearch (target : string)
| DeniedCommand (item : string)
| NotEnabled
| InvalidSyntax
| NotInAllowedList (cmd : string)
| TraversesOutside
| OtherAnimaTarget (arg : string).

(** Per-anima denied commands; a segment that does not parse is passed over. *)
Fixpoint denied_segment (items : list string) (l : list string) : option string :=
match l with
| [] => None
| segment :: l =>
    match shlex_split segment with
    | Ok (cmd_base :: _) =>
        match head (filter (λ d, command_deny_matches d segment cmd_base = true) items) with
        | Some d => Some d
        | None => denied_segment items l
        end
    | _ => denied_segment items l
    end
end.
(** The allow list; here a segment must parse. *)
Fixpoint outside_allow_list (allowed : list string) (l : list string) : option refusal :=
match l with
| [] => None
| segment :: l =>
    match shlex_split segment with
    | Err _ => Some InvalidSyntax
    | Ok [] => outside_allow_list allowed l
    | Ok (cmd_base :: _) => if str_in cmd_base allowed then outside_allow_list allowed l else Some (NotInAllowedList cmd_base)
    end
end.

(** Arguments with [..] must stay in the anima's directory. *)
Fixpoint args_traverse (fs : tree) (anima_dir : path) (args : list string) : result bool :=
match args with
| [] => Ok false
| a :: args =>
    if contains ".." a then
      r ← resolve fs (joinpath (of_path anima_dir) (Path a));
      own ← resolve fs (of_path anima_dir);
      if negb (is_relative_to r own) then Ok true else args_traverse fs anima_dir args
    else args_traverse fs anima_dir args
end.
Fixpoint traverses (fs : tree) (anima_dir : path) (l : list string) : result bool :=
match l with
| [] => Ok false
| segment :: l =>
    match shlex_split segment with
    | Err _ => traverses fs anima_dir l
    | Ok argv =>
        t ← args_traverse fs anima_dir (tail argv);
        if t : bool then Ok true else traverses fs anima_dir l
    end
end.
(** [segments or [command]]. *)
Definition segments_or_command (command : string) : list string :=
match segments command with [] => [command] | l => l end.

Definition injection_hit (cache : GlobalPermissionsCache) (command : string) : bool :=
loaded cache && match compiled_injection cache with
| Some m =>
    bool_decide (from_option injection_mode "log" (cache_config cache) = "enforce") && m command
| None => false
end.
Definition blocked_by (cache : GlobalPermissionsCache) (command : string) : option string :=
if loaded cache then snd <$> head (filter (λ p, fst p command = true) (compiled_deny cache)) else None.

(** [_check_command_permission]. *)
Definition _check_command_permission (fs : tree) (cache : GlobalPermissionsCache) (h : handler) (command : string) :
  result (option refusal) :=
if superuser h then Ok None else
if bool_decide (strip command = "") then Ok (Some EmptyCommand) else
if injection_hit cache command then Ok (Some InjectionPattern) else
match blocked_by cache command with
| Some why => Ok (Some (BlockedPattern why))
| None =>
    own ← resolve fs (of_path (anima_dir h));
    broad ← check_recursive_search fs command (of_path (anima_dir h)) (parent (parent own));
    match broad with
    | Some raw => Ok (Some (BroadSearch raw))
    | None =>
        cfg ← permissions h;
        match denied_segment (deny (commands cfg)) (segments command) with
        | Some d => Ok (Some (DeniedCommand d))
        | None =>
            let listed :=
              if allow_all (commands cfg) then None
              else match allow (commands cfg) with
                   | [] => Some NotEnabled
                   | allowed => outside_allow_list allowed (segments command)
                   end in
            match listed with
            | Some r => Ok (Some r)
            | None =>
                t ← traverses fs (anima_dir h)
                      (if allow_all (commands cfg) then segments_or_command command else segments command);
                Ok (if t : bool then Some TraversesOutside else None)
            end
        end
    end
end.

(* ---- the SDK engine ---- *)

Definition WRITE_COMMANDS : list string := ["cp"; "mv"; "tee"; "dd"; "install"; "rsync"].
(** [str()] of an absolute path. *)
Definition path_text (p : path) : string := "/" +:+ join "/" p.

Fixpoint write_target (fs : tree) (animas_root anima_resolved : string) (args : list string) : result (option string) :=
match args with
| [] => Ok None
| a :: args =>
    if startswith "-" a then write_target fs animas_root anima_resolved args else
    r ← resolve fs (Path a);
    if startswith animas_root (path_text r) && negb (startswith anima_resolved (path_text r)) then Ok (Some a)
    else write_target fs animas_root anima_resolved args
end.
Definition check_write_command (fs : tree) (anima_dir : path) (command : string) : result (option refusal) :=
match shlex_split command with
| Ok (cmd :: args) =>
    if str_in (command_name cmd) WRITE_COMMANDS then
      root ← resolve fs (of_path (parent anima_dir));
      own ← resolve fs (of_path anima_dir);
      t ← write_target fs (path_text root) (path_text own) args;
      Ok (option_map OtherAnimaTarget t)
    else Ok None
| _ => Ok None
end.

(** [_check_a1_bash_command]. *)
Definition _check_a1_bash_command (fs : tree) (cache : GlobalPermissionsCache) (cfg : result PermissionsConfig)
  (command : string) (anima_dir : path) (superuser : bool) : result (option refusal) :=
if superuser then Ok None else
if injection_hit cache command then Ok (Some InjectionPattern) else
match blocked_by cache command with
| Some why => Ok (Some (BlockedPattern why))
| None =>
    cfg ← cfg;
    match denied_segment (deny (commands cfg)) (segments command) with
    | Some d => Ok (Some (DeniedCommand d))
    | None =>
        let listed :=
          if allow_all (commands cfg) then None
          else match allow (commands cfg) with
               | [] => Some NotEnabled
               | allowed => outside_allow_list allowed (segments command)
               end in
        match listed with
        | Some r => Ok (Some r)
        | None =>
            t ← traverses fs anima_dir (segments_or_command command);
            if t : bool then Ok (Some TraversesOutside) else check_write_command fs anima_dir command
        end
    end
end.

(* ---- the hook ---- *)

(** [check_deny_lists] and [decide]; [global] is the parsed file, if any. *)
Definition check_deny_lists (cfg : result PermissionsConfig) (global : option GlobalPermissionsConfig) (command : string) :
  result (option refusal) :=
let why := global ≫= λ g, snd <$> head (filter (λ p, fst p command = true) (_compile_patterns (global_deny g))) in
match why with
| Some w => Ok (Some (BlockedPattern w))
| None => c ← cfg; Ok (option_map DeniedCommand (denied_segment (deny (commands c)) (hook_segments command)))
end.
Definition decide_command (fs : tree) (cfg : result PermissionsConfig) (global : option GlobalPermissionsConfig)
  (here : pure_path) (anima_dir : path) (command : string) : result (option refusal) :=
own ← resolve fs (of_path anima_dir);
d ← check_deny_lists cfg global command;
match d with
| Some r => Ok (Some r)
| None => b ← check_recursive_search fs command here (parent (parent own)); Ok (option_map BroadSearch b)
end.
(** [main]: an exception lets the command pass. *)
Definition hook_denies (fs : tree) (cfg : result PermissionsConfig) (global : option GlobalPermissionsConfig)
  (here : pure_path) (anima_dir : path) (command : string) : option refusal :=
if str_truthy command then
  match decide_command fs cfg global here anima_dir command with Ok (Some r) => Some r | _ => None end
else None.
End checks.
