(* ===== verification/CommandPolicyProps.v ===== *)
(** * What the command checks guarantee

    The allow list binds every part of a pipeline; the two engines that check
    commands in the server agree; broad searches of the data tree are refused;
    the global patterns survive tampering.  And two gaps: a quoted operator
    hides a command from the deny lists, and a directory whose name extends
    the anima's own passes for it. *)

From Stdlib Require Import Ascii.
From stdpp Require Import prelude strings list gmap.
From S2P Require Import Prelude PyValue PyText JsonText JsonRound FileSystem Org FilePolicy ShellText CommandPolicy.

Section commands.
Context `{OsEnv, Installation, Regex}.

(* ------------------------------------------------------------------ *)
(** ** The layers *)

Lemma denied_segment_None items l segment cmd args d :
denied_segment items l = None → segment ∈ l → shlex_split segment = Ok (cmd :: args) → d ∈ items →
command_deny_matches d segment cmd = false.
Proof.
induction l as [|s l IH]; cbn; [by intros _ ?%elem_of_nil|]. intros Hn [->|Hin]%elem_of_cons Hs Hd.
- rewrite Hs in Hn. destruct (head (filter _ items)) eqn:E; [done|]. apply head_None in E.
  destruct (command_deny_matches d s cmd) eqn:Ed; [|done]. exfalso. apply (not_elem_of_nil d). rewrite <- E.
  by apply list_elem_of_filter.
- apply IH; [|done..]. by repeat case_match.
Qed.

Lemma outside_allow_list_None allowed l segment :
outside_allow_list allowed l = None → segment ∈ l →
∃ argv, shlex_split segment = Ok argv ∧ ∀ cmd args, argv = cmd :: args → cmd ∈ allowed.
Proof.
induction l as [|s l IH]; cbn; [by intros _ ?%elem_of_nil|]. intros Hn [->|Hin]%elem_of_cons.
- destruct (shlex_split s) as [argv|]; [|done]. exists argv. split; [done|]. intros cmd args ->.
  unfold str_in in Hn. by case_bool_decide.
- apply IH; [|done]. unfold str_in in Hn. by repeat case_match.
Qed.

Lemma args_traverse_false fs dir args a :
args_traverse fs dir args = Ok false → a ∈ args → contains ".." a = true →
∃ r own, resolve fs (joinpath (of_path dir) (Path a)) = Ok r ∧ resolve fs (of_path dir) = Ok own ∧ own `prefix_of` r.
Proof.
induction args as [|x args IH]; cbn; [by intros _ ?%elem_of_nil|]. intros Ht [->|Hin]%elem_of_cons Hc.
- rewrite Hc in Ht. destruct (resolve fs (joinpath _ _)) as [r|]; [|done]. cbn in Ht.
  destruct (resolve fs (of_path dir)) as [own|]; [|done]. cbn in Ht. exists r, own. split_and!; [done|done|].
  apply is_relative_to_true. by destruct (is_relative_to r own).
- apply IH; [|done..]. run_unfold. by repeat case_match.
Qed.
Lemma traverses_false fs dir l segment cmd args :
traverses fs dir l = Ok false → segment ∈ l → shlex_split segment = Ok (cmd :: args) →
args_traverse fs dir args = Ok false.
Proof.
induction l as [|s l IH]; cbn; [by intros _ ?%elem_of_nil|]. intros Ht [->|Hin]%elem_of_cons Hs.
- rewrite Hs in Ht. cbn in Ht. destruct (args_traverse fs dir args) as [[]|]; [done|done|done].
- apply IH; [|done..]. run_unfold. by repeat case_match.
Qed.

(** What an allowed command passed. *)
Lemma allowed_layers fs cache h command :
superuser h = false → _check_command_permission fs cache h command = Ok None →
∃ cfg, permissions h = Ok cfg ∧ denied_segment (deny (commands cfg)) (segments command) = None ∧
  (allow_all (commands cfg) = false → allow (commands cfg) ≠ [] ∧
     outside_allow_list (allow (commands cfg)) (segments command) = None ∧ traverses fs (anima_dir h) (segments command) = Ok false).
Proof.
intros Hu. unfold _check_command_permission. rewrite Hu. repeat (case_match; [done|]). run_unfold.
destruct (resolve fs (of_path (anima_dir h))) as [own|]; [|done].
destruct (check_recursive_search _ _ _ _) as [[|]|]; [done| |done].
destruct (permissions h) as [cfg|]; [|done].
destruct (denied_segment _ _) eqn:Ed; [done|]. exists cfg. split_and!; [done|done|]. intros Ha. rewrite Ha in *.
destruct (allow (commands cfg)) as [|a l]; [done|]. destruct (outside_allow_list _ _); [done|].
destruct (traverses _ _ _) as [[]|]; done.
Qed.

(** C33. The allow list binds every part of a command: when an anima is not
    allowed all commands and a command passes, each of its segments parses,
    starts with a listed command that no deny entry matches, and each of its
    arguments that mentions the parent directory still leads into the anima's
    own directory. *)
Theorem allow_list_enforced fs cache h cfg command segment :
superuser h = false → permissions h = Ok cfg → allow_all (commands cfg) = false →
_check_command_permission fs cache h command = Ok None → segment ∈ segments command →
∃ argv, shlex_split segment = Ok argv ∧ ∀ cmd args, argv = cmd :: args →
  cmd ∈ allow (commands cfg) ∧
  (∀ d, d ∈ deny (commands cfg) → command_deny_matches d segment cmd = false) ∧
  (∀ a, a ∈ args → contains ".." a = true →
     ∃ r own, resolve fs (joinpath (of_path (anima_dir h)) (Path a)) = Ok r ∧ resolve fs (of_path (anima_dir h)) = Ok own ∧
              own `prefix_of` r).
Proof.
intros Hu Hp Ha Hc Hs. destruct (allowed_layers _ _ _ _ Hu Hc) as (cfg' & Hp' & Hd & Hlist).
rewrite Hp in Hp'. injection Hp' as <-. destruct (Hlist Ha) as (_ & Ho & Ht).
destruct (outside_allow_list_None _ _ _ Ho Hs) as (argv & Hv & Hall). exists argv. split; [done|]. intros cmd args ->.
split_and!; [by eapply Hall|intros d Hin; by eapply denied_segment_None|].
intros a Hin Hdots. eapply args_traverse_false; [by eapply traverses_false|done|done].
Qed.

(** C34. The two engines that run commands in the server agree: apart from the
    broad searches only the one looks for, and the write targets only the
    other looks for, the tool handler and the SDK allow the same commands. *)
Theorem engines_agree fs cache h command own :
superuser h = false → segments command ≠ [] → strip command ≠ "" →
resolve fs (of_path (anima_dir h)) = Ok own →
check_recursive_search fs command (of_path (anima_dir h)) (parent (parent own)) = Ok None →
check_write_command fs (anima_dir h) command = Ok None →
_check_command_permission fs cache h command = Ok None ↔
_check_a1_bash_command fs cache (permissions h) command (anima_dir h) (superuser h) = Ok None.
Proof.
intros Hu Hs Hne Ho Hr Hw. unfold _check_command_permission, _check_a1_bash_command. rewrite Hu.
rewrite (bool_decide_eq_false_2 (strip command = "")) by done.
destruct (injection_hit cache command); [done|]. destruct (blocked_by cache command); [done|]. run_unfold. rewrite Ho, Hr.
destruct (permissions h) as [cfg|]; [|done].
destruct (denied_segment _ _); [done|]. destruct (if allow_all (commands cfg) then _ else _); [done|].
assert (segments_or_command command = segments command) as -> by (unfold segments_or_command; by destruct (segments command)).
assert ((if allow_all (commands cfg) then segments command else segments command) = segments command) as ->
  by (by destruct (allow_all (commands cfg))).
destruct (traverses _ _ _) as [[]|]; [done| |done]. by rewrite Hw.
Qed.

(* ------------------------------------------------------------------ *)
(** ** Searches of the data tree *)

Lemma broad_target_None fs here data_dir targets raw :
broad_target fs here data_dir targets = Ok None → raw ∈ targets →
∃ p, expanduser (Path raw) = Ok p ∧ _is_broad_data_root fs (joinpath here p) data_dir = Ok false.
Proof.
induction targets as [|x l IH]; cbn; [by intros _ ?%elem_of_nil|]. run_unfold. intros Hb [->|Hin]%elem_of_cons.
- destruct (expanduser (Path x)) as [p|]; [|done]. exists p. split; [done|].
  by destruct (_is_broad_data_root fs (joinpath here p) data_dir) as [[]|].
- apply IH; [|done]. by repeat case_match.
Qed.

(** A segment that does not change the directory. *)
Definition stays (segment : string) : Prop :=
∀ argv args, shlex_split segment = Ok argv → drop_assignments argv ≠ "cd" :: args.

(** No search sweeps the data tree: in a command that passes and does not
    change its directory, no recursive search (grep -r, rg, find, du and the
    like) has a target that is the data directory, one of its wide trees or a
    log directory. *)
Theorem no_broad_search fs command here data_dir segment argv targets raw :
check_recursive_search fs command here data_dir = Ok None →
(∀ s, s ∈ hook_segments command → stays s) →
segment ∈ hook_segments command → shlex_split segment = Ok argv →
_search_targets (drop_assignments argv) = Some targets → raw ∈ targets →
∃ p, expanduser (Path raw) = Ok p ∧ _is_broad_data_root fs (joinpath here p) data_dir = Ok false.
Proof.
unfold check_recursive_search. generalize (hook_segments command) as l.
induction l as [|s l IH]; [by intros _ _ ?%elem_of_nil|]. intros Hc Hst Hin Hs Ht Hraw.
assert (∀ x, x ∈ l → stays x) as Hst' by (intros x Hx; apply Hst; by right).
pose proof (Hst s (list_elem_of_here _ _)) as Hs0. unfold stays in Hs0.
cbn [search_segments] in Hc. run_unfold. apply elem_of_cons in Hin as [->|Hin].
- rewrite Hs in Hc. specialize (Hs0 argv). destruct (drop_assignments argv) as [|cmd args] eqn:Ed; [done|].
  rewrite bool_decide_eq_false_2 in Hc by (intros ->; by apply (Hs0 args)). rewrite Ht in Hc. cbn [from_option] in Hc. unfold id in Hc.
  destruct (broad_target fs here data_dir targets) as [[|]|] eqn:Eb; [done| |done]. by eapply broad_target_None.
- apply IH; [|done..]. destruct (shlex_split s) as [v|] eqn:Ev; [|done].
  destruct (drop_assignments v) as [|cmd args] eqn:Ed; [done|].
  rewrite bool_decide_eq_false_2 in Hc by (intros ->; by apply (Hs0 v args)).
  by destruct (broad_target fs here data_dir _) as [[|]|].
Qed.

(* ------------------------------------------------------------------ *)
(** ** The global patterns *)

(** The global patterns are what was accepted at start: a load that returns
    used a readable, valid file, unchanged since the last run unless somebody
    at a terminal said yes; and after any later change to the file the next
    integrity check leaves a file with the accepted hash on disk. *)
Theorem global_permissions_kept sha256 parse interactive terminal f c f1 :
load sha256 parse interactive terminal f = (Ok c, f1) →
∃ content cfg, global_file f = Some content ∧ parse content = Ok cfg ∧ cache_config c = Some cfg ∧
  compiled_deny c = _compile_patterns (global_deny cfg) ∧
  (∀ h, interactive = true → hash_file f = Some h → strip h ≠ "" → strip h = sha256 content ∨
     ∃ answer, terminal = Some answer ∧ lower (strip answer) = "yes") ∧
  (content ≠ "" → ∀ f2 intact f3, check_integrity sha256 c f2 = (intact, f3) →
     ∃ kept, global_file f3 = Some kept ∧ sha256 kept = sha256 content ∧ (intact = true → f3 = f2)).
Proof.
intros E. unfold load in E. destruct (global_file f) as [content|]; [|done].
set (changed := match hash_file f with Some h => _ | None => false end) in E.
set (accepted := match terminal with Some a => _ | None => false end) in E.
destruct (changed && negb accepted) eqn:Eg; [done|].
destruct (parse content) as [cfg|] eqn:Ep; [|done]. destruct (_build_injection_re _) as [inj|]; [|done]. injection E as <- <-.
exists content, cfg. split_and!; [done|done|done|done| |].
- intros h Hi Hh Hne. destruct accepted eqn:Ea.
  + right. subst accepted. destruct terminal as [a|]; [|done]. exists a. split; [done|]. by apply bool_decide_eq_true in Ea.
  + left. rewrite andb_true_r in Eg. subst changed. rewrite Hh, Hi in Eg. unfold str_truthy in Eg.
    rewrite (bool_decide_eq_false_2 (strip h = "")) in Eg by done. cbn in Eg. by case_bool_decide.
- intros Hc f2 intact f3. unfold check_integrity, str_truthy. cbn [loaded cache_config cached_content].
  rewrite (bool_decide_eq_false_2 (content = "")) by done. cbn.
  destruct (global_file f2) as [cur|] eqn:E2; [case_bool_decide as Hs|]; intros [= <- <-].
  + by exists cur.
  + by exists content.
  + by exists content.
Qed.

(* ------------------------------------------------------------------ *)
(** ** Two gaps *)

(** A quoted operator hides a command: when a word with a pipe between
    quotes follows a command, the checks cut the text inside the quotes,
    neither piece parses, and no deny list is consulted, not the anima's in the
    server and not the hook's, although the shell runs the command with that
    one argument. *)
Theorem quoted_operator_bypass fs cache h cfg own w u v :
words w u v → superuser h = false → permissions h = Ok cfg → allow_all (commands cfg) = true →
injection_hit cache (quoted_command w u v) = false → blocked_by cache (quoted_command w u v) = None →
resolve fs (of_path (anima_dir h)) = Ok own →
shlex_split (quoted_command w u v) = Ok [w; u +:+ String pipe v] ∧
_check_command_permission fs cache h (quoted_command w u v) = Ok None ∧
check_deny_lists (permissions h) None (quoted_command w u v) = Ok None.
Proof.
intros Hw Hu Hp Ha Hi Hb Ho. destruct (quoted_segments w u v Hw) as [Hs Hh]. destruct (quoted_pieces w u v Hw) as [E1 E2].
assert (∀ items, denied_segment items (segments (quoted_command w u v)) = None) as Hd.
{ intros items. rewrite Hs. cbn [denied_segment]. by rewrite E1, E2. }
split_and!; [by apply quoted_words| |].
- unfold _check_command_permission. rewrite Hu, Hi, Hb.
  rewrite (bool_decide_eq_false_2 (strip (quoted_command w u v) = "")) by (by apply quoted_nonblank).
  rewrite Ho, Hp. cbn [mbind result_bind]. unfold check_recursive_search. rewrite Hh. cbn [search_segments].
  rewrite E1, E2. cbn [mbind result_bind]. rewrite Hd, Ha. unfold segments_or_command. rewrite Hs. cbn [traverses].
  by rewrite E1, E2.
- unfold check_deny_lists. rewrite Hp. cbn [mbind option_bind result_bind]. rewrite Hh. cbn [denied_segment]. by rewrite E1, E2.
Qed.

Lemma startswith_app s t : startswith s (s +:+ t) = true.
Proof.
unfold startswith. induction s as [|c s IH]; [by destruct t|]. rewrite string_cons_app. cbn [String.prefix].
by destruct (ascii_dec c c).
Qed.
Lemma path_text_extends root n x rest : ∃ t, path_text (root ++ (n +:+ x) :: rest) = path_text (root ++ [n]) +:+ t.
Proof.
assert (∃ t, join "/" (root ++ (n +:+ x) :: rest) = join "/" (root ++ [n]) +:+ t) as [t Ht].
{ induction root as [|y root [t IH]].
  - destruct rest as [|z rest]; [by exists x|]. exists (x +:+ "/" +:+ join "/" (z :: rest)). cbn [app join].
    by rewrite !string_app_assoc.
  - exists t. assert (∀ l z, join "/" (y :: l ++ [z]) = y +:+ "/" +:+ join "/" (l ++ [z])) as Hj.
    { intros l z. by destruct l. }
    change ((y :: root) ++ [n]) with (y :: root ++ [n]). rewrite Hj. rewrite !string_app_assoc, <- IH.
    by destruct root. }
exists t. unfold path_text. by rewrite Ht, string_app_assoc.
Qed.

(** A directory whose name extends the anima's own passes for it: the check
    of write commands compares texts, so that an anima may copy into the
    directory of another whose name begins with its own. *)
Theorem sibling_prefix_writable fs anima_dir root n x rest q cmd src dst command :
resolve fs (of_path (parent anima_dir)) = Ok root → resolve fs (of_path anima_dir) = Ok (root ++ [n]) → x ≠ "" →
shlex_split command = Ok [cmd; src; dst] →
resolve fs (Path src) = Ok (root ++ n :: q) → resolve fs (Path dst) = Ok (root ++ (n +:+ x) :: rest) →
check_write_command fs anima_dir command = Ok None ∧ ¬ (root ++ [n]) `prefix_of` (root ++ (n +:+ x) :: rest).
Proof.
intros Hroot Hown Hx Hs Hsrc Hdst. split.
- unfold check_write_command. rewrite Hs. case_match; [|done]. rewrite Hroot, Hown. cbn [mbind result_bind write_target].
  rewrite Hsrc, Hdst. cbn [mbind result_bind].
  assert (∀ y tl, startswith (path_text (root ++ [n])) (path_text (root ++ (n +:+ y) :: tl)) = true) as Hst.
  { intros y tl. destruct (path_text_extends root n y tl) as [t ->]. apply startswith_app. }
  rewrite (Hst x rest). pose proof (Hst "" q) as Hq. rewrite string_app_nil in Hq. rewrite Hq. cbn [negb].
  rewrite !andb_false_r. by repeat case_match.
- intros [k Hk]. rewrite <- app_assoc in Hk. apply app_inv_head in Hk. cbn in Hk. injection Hk as Hk _.
  assert (n +:+ x = n +:+ "") as He by (by rewrite string_app_nil). by apply string_app_inj_l in He.
Qed.
End commands.
