(* ===== verification/PolicyWitnesses.v ===== *)
(** * Permissions at work

    An installation with two animas and two companies, and for each theorem
    about files and commands an instance of it there. *)

From Stdlib Require Import Ascii.
From stdpp Require Import prelude strings list gmap relations.
From S2P Require Import Prelude PyValue PyText FileSystem Org FilePolicy FilePolicyProps ShellText CommandPolicy CommandPolicyProps.

#[local] Instance demo_os : OsEnv := {| cwd := ["srv"]; home_of := λ _, None |}.
#[local] Instance demo_installation : Installation := {| get_data_dir := ["data"]; external_roots := Some [] |}.
(** Expressions are looked for as texts. *)
#[local] Instance demo_regex : Regex := λ p, Some (contains p).

Definition status (company : string) : node := File (Some (JObj [("company", JStr company)])).
Definition demo_fs : tree := list_to_map
  [(["srv"], Dir); (["data"], Dir); (["work"], Dir); (["work"; "app"], Dir);
   (["data"; "animas"], Dir); (["data"; "animas"; "sakura"], Dir); (["data"; "animas"; "sakura"; "status.json"], status "acme");
   (["data"; "animas"; "sakura"; "leak"], Link (mk_path true ["data"; "companies"; "rival"; "plan.md"]));
   (["data"; "animas"; "rin"], Dir); (["data"; "animas"; "rin"; "status.json"], File (Some (JObj [])));
   (["data"; "companies"], Dir); (["data"; "companies"; "acme"], Dir); (["data"; "companies"; "rival"], Dir);
   (["data"; "companies"; "rival"; "plan.md"], File None)].
Definition demo_org : animas := [("sakura", None); ("rin", Some "sakura")].
Definition demo_perms (roots : list string) : PermissionsConfig :=
  mk_permissions roots [] [] (mk_commands false ["ls"; "cat"] ["secret"]) (mk_tool_creation true false).

Local Abbreviation sakura_dir := ["data"; "animas"; "sakura"].
Local Abbreviation rin_dir := ["data"; "animas"; "rin"].
Definition demo_grants : grants :=
  match hierarchy_grants demo_fs ["data"; "animas"] demo_org "sakura" with
  | Ok g => g
  | Err _ => mk_grants [] [] [] [] [] [] []
  end.
Definition sakura (roots : list string) : handler := mk_handler false sakura_dir demo_grants (Ok (demo_perms roots)).
(** An anima without company and without denies. *)
Definition rin (roots : list string) : handler :=
  mk_handler false rin_dir (mk_grants [] [] [] [] [] [] [])
    (Ok (mk_permissions roots [] [] (mk_commands true [] ["rm"]) (mk_tool_creation true false))).

Lemma demo_cwd : canonical demo_fs cwd.
Proof. apply canonical_eval. vm_compute. reflexivity. Qed.

Local Abbreviation denied_roots := [["data"; "companies"; "rival"]].
Lemma sakura_request p r :
  realpath demo_fs (Path p) = Some (r, true) →
  request (sakura ["/work"]) p None None demo_fs r sakura_dir (demo_perms ["/work"]) denied_roots.
Proof.
  intros Hr. split; [reflexivity|exact demo_cwd|by exists r|by unfold resolve; rewrite Hr|vm_compute; reflexivity|
                     reflexivity|vm_compute; reflexivity].
Qed.
Lemma rin_request roots p r :
  realpath demo_fs (Path p) = Some (r, true) →
  request (rin roots) p None None demo_fs r rin_dir
    (mk_permissions roots [] [] (mk_commands true [] ["rm"]) (mk_tool_creation true false)) [].
Proof.
  intros Hr. split; [reflexivity|exact demo_cwd|by exists r|by unfold resolve; rewrite Hr|vm_compute; reflexivity|
                     reflexivity|vm_compute; reflexivity].
Qed.

Lemma request_work :
  request (sakura ["/work"]) "/work/app/main.py" None None demo_fs ["work"; "app"; "main.py"] sakura_dir (demo_perms ["/work"]) denied_roots.
Proof. apply sakura_request. vm_compute. reflexivity. Qed.
Lemma request_leak :
  request (sakura ["/work"]) "/data/animas/sakura/leak" None None demo_fs ["data"; "companies"; "rival"; "plan.md"] sakura_dir (demo_perms ["/work"]) denied_roots.
Proof. apply sakura_request. vm_compute. reflexivity. Qed.
Lemma request_cron :
  request (sakura ["/work"]) "/data/animas/rin/cron.md" None None demo_fs (rin_dir ++ ["cron.md"]) sakura_dir (demo_perms ["/work"]) denied_roots.
Proof. apply sakura_request. vm_compute. reflexivity. Qed.
Lemma request_hooks :
  request (rin ["/work"]) "/data/animas/rin/.codex_home/hooks.json" None None demo_fs ["data"; "animas"; "rin"; ".codex_home"; "hooks.json"] rin_dir
    (mk_permissions ["/work"] [] [] (mk_commands true [] ["rm"]) (mk_tool_creation true false)) [].
Proof. apply rin_request. vm_compute. reflexivity. Qed.
Lemma request_config :
  request (rin ["/"]) "/data/config.json" None None demo_fs ["data"; "config.json"] rin_dir
    (mk_permissions ["/"] [] [] (mk_commands true [] ["rm"]) (mk_tool_creation true false)) [].
Proof. apply rin_request. vm_compute. reflexivity. Qed.

(** The roots, without looking at the file system left behind. *)
Lemma run_roots {A} (m : M tree A) fs a : fst (m fs) = Ok a → m fs = (Ok a, snd (m fs)).
Proof. intros <-. by destruct (m fs). Qed.
Local Abbreviation sakura_roots := (effective_write_roots sakura_dir ["/work"] None demo_fs).
Lemma sakura_write_roots : sakura_roots = (Ok [["data"; "companies"; "acme"; "shared"]; ["work"]], snd sakura_roots).
Proof. apply run_roots. vm_compute. reflexivity. Qed.
Lemma demo_gp : resolve demo_fs (of_path get_global_permissions_path) = Ok ["data"; "permissions.global.json"].
Proof. vm_compute. reflexivity. Qed.

(* ------------------------------------------------------------------ *)
(** ** Files *)

Lemma denied_roots_exact_witness :
  ∃ roots, resolve_effective_denied_roots demo_fs sakura_dir ["/data/companies/rival/old"] = Ok roots ∧
    (∃ r, r ∈ roots ∧ r `prefix_of` ["data"; "companies"; "rival"; "old"; "x"]).
Proof.
  destruct (denied_roots_exact demo_fs sakura_dir ["/data/companies/rival/old"]
              [["data"; "companies"; "rival"; "old"]] denied_roots) as (roots & Hr & Hcover & _);
    [vm_compute; reflexivity|vm_compute; reflexivity|].
  exists roots. split; [exact Hr|]. apply Hcover. exists ["data"; "companies"; "rival"]. split; [by right; left|by eexists].
Defined.


Lemma read_table_witness :
  fst (_check_file_permission (sakura ["/work"]) "/data/animas/sakura/leak" false false None None demo_fs) ≠ Ok None.
Proof.
  intros Hn.
  apply (read_table (sakura ["/work"]) "/data/animas/sakura/leak" false None None demo_fs
           ["data"; "companies"; "rival"; "plan.md"] sakura_dir (demo_perms ["/work"]) denied_roots false [["work"]] []
           request_leak) in Hn; [|vm_compute; reflexivity..].
  destruct Hn as [[Hd _] _]. apply (Hd ["data"; "companies"; "rival"]); [by left|by eexists].
Defined.

Lemma foreign_animas_closed_witness :
  ∃ d home f, tc (supervises demo_org) "sakura" d ∧ d ≠ "sakura" ∧ anima_home demo_fs ["data"; "animas"] d = Ok home ∧
    f ∈ management_names ∧ rin_dir ++ ["cron.md"] = home ++ [f].
Proof.
  apply (foreign_animas_closed (sakura ["/work"]) "/data/animas/rin/cron.md" false None None demo_fs (rin_dir ++ ["cron.md"])
           sakura_dir (demo_perms ["/work"]) denied_roots _ _ _ demo_org demo_grants demo_fs
           request_cron demo_gp sakura_write_roots).
  - vm_compute. reflexivity.
  - reflexivity.
  - by eexists.
  - intros [k Hk]. discriminate Hk.
  - vm_compute. reflexivity.
Defined.

Lemma companies_closed_witness :
  ∃ reason, fst (_check_file_permission (sakura ["/work"]) "/data/animas/sakura/leak" false false None None demo_fs) = Ok (Some reason).
Proof.
  apply (companies_closed (sakura ["/work"]) "/data/animas/sakura/leak" false false None demo_fs
           ["data"; "companies"; "rival"; "plan.md"] sakura_dir (demo_perms ["/work"]) denied_roots "acme" "rival"
           request_leak).
  - vm_compute. reflexivity.
  - discriminate.
  - apply canonical_eval. vm_compute. reflexivity.
  - vm_compute. reflexivity.
  - vm_compute. reflexivity.
  - by eexists.
Defined.

Lemma memory_fails_closed_witness :
  ∃ f r, resolve_memory_source_path demo_fs sakura_dir "knowledge/tea.md#3" = Ok (Some f) ∧ resolve demo_fs (of_path f) = Ok r ∧
    ∀ root, root ∈ denied_roots → ¬ root `prefix_of` r.
Proof. apply (memory_fails_closed demo_fs sakura_dir "knowledge/tea.md#3"); [discriminate|vm_compute; reflexivity]. Defined.

Local Abbreviation rin_roots roots := (effective_write_roots rin_dir roots None demo_fs).
Lemma codex_home_unprotected_witness :
  fst (_check_file_permission (rin ["/work"]) "/data/animas/rin/.codex_home/hooks.json" true false None None demo_fs) = Ok None.
Proof.
  apply (codex_home_unprotected (rin ["/work"]) "/data/animas/rin/.codex_home/hooks.json" false None None demo_fs _ rin_dir _
           [["work"]] (snd (rin_roots ["/work"])) ["data"; "permissions.global.json"] ["hooks.json"]
           request_hooks demo_gp).
  - apply run_roots. vm_compute. reflexivity.
  - reflexivity.
  - discriminate.
Defined.

Lemma enclosing_root_opens_data_dir_witness :
  fst (_check_file_permission (rin ["/"]) "/data/config.json" true false None None demo_fs) = Ok None.
Proof.
  apply (enclosing_root_opens_data_dir (rin ["/"]) "/data/config.json" false None None demo_fs ["data"; "config.json"] rin_dir
           (mk_permissions ["/"] [] [] (mk_commands true [] ["rm"]) (mk_tool_creation true false)) [] [[]]
           (snd (rin_roots ["/"])) ["data"; "permissions.global.json"] "/" []
           request_config demo_gp).
  - apply run_roots. vm_compute. reflexivity.
  - by left.
  - vm_compute. reflexivity.
  - apply prefix_nil.
  - by eexists.
  - intros [k Hk]. discriminate Hk.
  - discriminate.
  - split; [by intros root ?%elem_of_nil|by left].
Defined.

(* ------------------------------------------------------------------ *)
(** ** Commands *)

Lemma allow_list_enforced_witness :
  ∃ argv, shlex_split "cat a.md" = Ok argv ∧ ∀ cmd args, argv = cmd :: args → cmd ∈ ["ls"; "cat"].
Proof.
  destruct (allow_list_enforced demo_fs unloaded (sakura []) (demo_perms []) "ls notes | cat a.md" "cat a.md") as (argv & Hs & Hall).
  - reflexivity.
  - reflexivity.
  - reflexivity.
  - vm_compute. reflexivity.
  - vm_compute. by right; left.
  - exists argv. split; [exact Hs|]. intros cmd args Heq. by apply (Hall cmd args Heq).
Defined.

Lemma engines_agree_witness :
  _check_a1_bash_command demo_fs unloaded (permissions (sakura [])) "ls notes | cat a.md" sakura_dir false = Ok None.
Proof.
  apply (engines_agree demo_fs unloaded (sakura []) "ls notes | cat a.md" sakura_dir).
  - reflexivity.
  - vm_compute. discriminate.
  - vm_compute. discriminate.
  - vm_compute. reflexivity.
  - vm_compute. reflexivity.
  - vm_compute. reflexivity.
  - vm_compute. reflexivity.
Defined.

Local Abbreviation search := "grep -r tea knowledge".
Lemma no_broad_search_witness :
  ∃ p, expanduser (Path "knowledge") = Ok p ∧ _is_broad_data_root demo_fs (joinpath (of_path sakura_dir) p) ["data"] = Ok false.
Proof.
  apply (no_broad_search demo_fs search (of_path sakura_dir) ["data"] search ["grep"; "-r"; "tea"; "knowledge"] ["knowledge"] "knowledge").
  - vm_compute. reflexivity.
  - intros s Hs. assert (s = search) as -> by (apply list_elem_of_singleton; exact Hs).
    intros argv args Ha Hd. assert (argv = ["grep"; "-r"; "tea"; "knowledge"]) as -> by (vm_compute in Ha; by injection Ha as <-).
    vm_compute in Hd. discriminate Hd.
  - vm_compute. by left.
  - vm_compute. reflexivity.
  - vm_compute. reflexivity.
  - by left.
Defined.

(** The file is checked against a "hash" that is the text itself. *)
Definition demo_global : GlobalPermissionsConfig := mk_global [] "log" [mk_pattern "mkfs" "" "no mkfs"].
Local Abbreviation loaded_cache :=
  (mk_cache (Some demo_global) None (_compile_patterns (global_deny demo_global)) "{...}" "{...}").
Lemma global_permissions_kept_witness :
  ∀ f2 intact f3, check_integrity id loaded_cache f2 = (intact, f3) →
    ∃ kept, global_file f3 = Some kept ∧ kept = "{...}".
Proof.
  destruct (global_permissions_kept id (λ _, Ok demo_global) true None (mk_files (Some "{...}") None) loaded_cache
              (mk_files (Some "{...}") (Some "{...}"))) as (content & cfg & Hf & _ & _ & _ & _ & Hall); [vm_compute; reflexivity|].
  injection Hf as <-. intros f2 intact f3 Hc. destruct (Hall ltac:(discriminate) f2 intact f3 Hc) as (kept & Hk & Heq & _).
  exists kept. split; [exact Hk|exact Heq].
Defined.

(** [rm "a|b"], with rm denied. *)
Lemma quoted_operator_bypass_witness :
  shlex_split (quoted_command "rm" "a" "b") = Ok ["rm"; "a|b"] ∧
  _check_command_permission demo_fs unloaded (rin []) (quoted_command "rm" "a" "b") = Ok None ∧
  check_deny_lists (permissions (rin [])) None (quoted_command "rm" "a" "b") = Ok None.
Proof.
  apply (quoted_operator_bypass demo_fs unloaded (rin [])
           (mk_permissions [] [] [] (mk_commands true [] ["rm"]) (mk_tool_creation true false)) rin_dir "rm" "a" "b").
  - split; [reflexivity|discriminate|reflexivity|reflexivity].
  - reflexivity.
  - reflexivity.
  - reflexivity.
  - reflexivity.
  - reflexivity.
  - vm_compute. reflexivity.
Defined.

Lemma sibling_prefix_writable_witness :
  check_write_command demo_fs rin_dir "cp /data/animas/rin/a /data/animas/rina/a" = Ok None.
Proof.
  apply (sibling_prefix_writable demo_fs rin_dir ["data"; "animas"] "rin" "a" ["a"] ["a"] "cp"
           "/data/animas/rin/a" "/data/animas/rina/a").
  - vm_compute. reflexivity.
  - vm_compute. reflexivity.
  - discriminate.
  - vm_compute. reflexivity.
  - vm_compute. reflexivity.
  - vm_compute. reflexivity.
Defined.
