(* ===== verification/LoopGuards.v ===== *)
(** * Guards of the execution loops ([core/execution/loop_guards.py])

    The retry of a model call inside a loop, the budget of re-prompts for
    empty answers, the flattening of tool messages for the final call, and
    the detector of runaway tool loops.  What the functions are given — the
    call, the error classifier, the backoff, the interrupt test, the recovery
    — are parameters; a run of the retry records what it did as a list of
    events, and the environment answers according to that history.  The
    activity-log records of the guards are output only and are left out, and
    a turn signature is taken as given (its hash is not modelled). *)

From stdpp Require Import prelude strings list gmap.
From Stdlib Require Import QArith Qround Qminmax.
From S2P Require Import Prelude PyValue PyText TaskModels.
Open Scope nat_scope.

(* ------------------------------------------------------------------ *)
(** ** Empty answers *)

Module Empty.
Record EmptyResponseTracker := mk_tracker { limit : Z; count : Z }.

Definition is_empty (text : option string) (has_tool_calls : bool) : bool :=
if has_tool_calls then false else blank (default "" text).

Definition should_reprompt (t : EmptyResponseTracker) : bool * EmptyResponseTracker :=
if (limit t <=? count t)%Z then (false, t) else (true, mk_tracker (limit t) (count t + 1)).
End Empty.

(* ------------------------------------------------------------------ *)
(** ** Runaway tool loops *)

Definition RUNAWAY_WARN_THRESHOLD : Z := 3.
Definition RUNAWAY_HALT_THRESHOLD : Z := 5.
Definition RUNAWAY_WINDOW_SIZE : nat := 20.
Definition RUNAWAY_WINDOW_WARN_THRESHOLD : Z := 8.
Definition RUNAWAY_WINDOW_HALT_THRESHOLD : Z := 12.

Abbreviation signature := (list string).
Inductive verdict := OK | WARN | HALT.

Record RunawayGuard := mk_guard {
  warn_threshold : Z;
  halt_threshold : Z;
  window_warn_threshold : Z;
  window_halt_threshold : Z;
  window_size : nat;
  last_signature : option signature;
  streak : Z;
  window : list signature;
  window_counts : gmap signature Z;
  consecutive_warned : bool;
  window_warned_signatures : gset signature
}.

Definition new_guard (warn halt : Z) (size : nat) (wwarn whalt : Z) : RunawayGuard :=
  mk_guard warn halt wwarn whalt size None 0 [] ∅ false ∅.
Definition default_guard : RunawayGuard :=
  new_guard RUNAWAY_WARN_THRESHOLD RUNAWAY_HALT_THRESHOLD RUNAWAY_WINDOW_SIZE
    RUNAWAY_WINDOW_WARN_THRESHOLD RUNAWAY_WINDOW_HALT_THRESHOLD.

(** [self._window_counts[s]]: a counter reads 0 where it has no entry. *)
Definition counter_get (s : signature) (c : gmap signature Z) : Z := default 0%Z (c !! s).

(** The streak part of [observe]. *)
Definition advance_streak (turn : signature) (g : RunawayGuard) : RunawayGuard :=
  if bool_decide (last_signature g = Some turn)
  then mk_guard (warn_threshold g) (halt_threshold g) (window_warn_threshold g) (window_halt_threshold g)
         (window_size g) (last_signature g) (streak g + 1) (window g) (window_counts g)
         (consecutive_warned g) (window_warned_signatures g)
  else mk_guard (warn_threshold g) (halt_threshold g) (window_warn_threshold g) (window_halt_threshold g)
         (window_size g) (Some turn) 1 (window g) (window_counts g) false (window_warned_signatures g).

Definition set_window (w : list signature) (c : gmap signature Z) (warned : gset signature) (g : RunawayGuard) :
    RunawayGuard :=
  mk_guard (warn_threshold g) (halt_threshold g) (window_warn_threshold g) (window_halt_threshold g)
    (window_size g) (last_signature g) (streak g) w c (consecutive_warned g) warned.

(** The turn about to leave a full window is uncounted. *)
Definition evict (g : RunawayGuard) : result RunawayGuard :=
  if bool_decide (length (window g) = window_size g) then
    match window g with
    | [] => Err (IndexError "deque index out of range")
    | evicted :: _ =>
        let c := (counter_get evicted (window_counts g) - 1)%Z in
        if (c <=? 0)%Z
        then Ok (set_window (window g) (delete evicted (window_counts g))
                   (window_warned_signatures g ∖ {[evicted]}) g)
        else Ok (set_window (window g) (<[evicted := c]> (window_counts g)) (window_warned_signatures g) g)
    end
  else Ok g.

(** [deque.append] with a maximal length. *)
Definition deque_append (n : nat) (x : signature) (w : list signature) : list signature :=
  drop (length w + 1 - n) (w ++ [x]).

Definition count_turn (turn : signature) (g : RunawayGuard) : RunawayGuard :=
  set_window (deque_append (window_size g) turn (window g))
    (<[turn := (counter_get turn (window_counts g) + 1)%Z]> (window_counts g)) (window_warned_signatures g) g.

Definition set_warned (consecutive : bool) (warned : gset signature) (g : RunawayGuard) : RunawayGuard :=
  mk_guard (warn_threshold g) (halt_threshold g) (window_warn_threshold g) (window_halt_threshold g)
    (window_size g) (last_signature g) (streak g) (window g) (window_counts g) consecutive warned.

(** The verdict on the turn just counted. *)
Definition judge (turn : signature) (g : RunawayGuard) : verdict * RunawayGuard :=
  let window_count := counter_get turn (window_counts g) in
  if (halt_threshold g <=? streak g)%Z || (window_halt_threshold g <=? window_count)%Z then (HALT, g) else
  let consecutive_warn := (warn_threshold g <=? streak g)%Z && negb (consecutive_warned g) in
  let window_warn := (window_warn_threshold g <=? window_count)%Z &&
                     negb (bool_decide (turn ∈ window_warned_signatures g)) in
  if consecutive_warn || window_warn
  then (WARN, set_warned (consecutive_warn || consecutive_warned g) ({[turn]} ∪ window_warned_signatures g) g)
  else (OK, g).

Definition observe (turn : signature) : M RunawayGuard verdict := λ g,
  match turn with
  | [] => (Ok OK, g)
  | _ =>
      let g1 := advance_streak turn g in
      match evict g1 with
      | Err e => (Err e, g1)
      | Ok g2 => let '(v, g3) := judge turn (count_turn turn g2) in (Ok v, g3)
      end
  end.

Definition repetition_count (g : RunawayGuard) : Z :=
  match last_signature g with
  | None => 0
  | Some s => Z.max (streak g) (counter_get s (window_counts g))
  end.

(** A loop that reports its turns one after the other. *)
Fixpoint observe_all (turns : list signature) : M RunawayGuard (list verdict) :=
  match turns with
  | [] => mret []
  | t :: rest => v ← observe t; vs ← observe_all rest; mret (v :: vs)
  end.

(* ------------------------------------------------------------------ *)
(** ** Retrying a model call *)

Section retry.
Context {Exc Resp : Type}.

Inductive event :=
| ECall (r : Exc + Resp)
| EReport (attempt : nat)
| EOverflow (compacted : bool)
| EInterrupt (b : bool)
| ESleep (q : Q).

(** [reason.value], [hint.retryable] and [hint.backoff_s], absent attributes
  read as [None] and [False]. *)
Record classified := mk_classified {
reason_value : option string;
retryable : bool;
backoff_s : option Q
}.

(** The arguments.  A callback that fails ([None] for the recovery) is
  treated by the code as one that reports nothing. *)
Record retry_env := mk_env {
call_factory : list event → Exc + Resp;
classify : Exc → classified;
next_backoff : list event → Q → Q;
interrupt_check : option (list event → bool);
on_classified_error : bool;
on_context_overflow : option (list event → option bool);
max_retries : Z
}.

Inductive outcome :=
| Returned (r : Resp)
| Raised (e : Exc)
| LlmCallInterrupted
| NoResult.

Variable env : retry_env.

(** [interrupt_check is not None and interrupt_check()]. *)
Definition interrupted (log : list event) : bool * list event :=
match interrupt_check env with
| None => (false, log)
| Some f => (f log, log ++ [EInterrupt (f log)])
end.

(** The sleep in chunks of a second; the answer is whether it was broken off. *)
Fixpoint wait (fuel : nat) (remaining : Q) (log : list event) : bool * list event :=
match fuel with
| O => (false, log)
| S n =>
    if Qle_bool remaining 0 then (false, log) else
    let '(b, log1) := interrupted (log ++ [ESleep (Qmin 1 remaining)]) in
    if b then (true, log1) else wait n (remaining - 1)%Q log1
end.
Definition wait_fuel (delay : Q) : nat := Z.to_nat (Qceiling delay).

Definition report (attempt : nat) (log : list event) : list event :=
if on_classified_error env then log ++ [EReport attempt] else log.

(** The recovery from a context overflow: whether the call is repeated, and
  the recovery that is left. *)
Definition recover (reason : option string) (attempt : nat) (cb : option (list event → option bool))
  (log : list event) : bool * option (list event → option bool) * list event :=
match cb with
| Some f =>
    if bool_decide (reason = Some "context_overflow") && (Z.of_nat attempt <? max_retries env)%Z
    then let compacted := default false (f log) in (compacted, None, log ++ [EOverflow compacted])
    else (false, cb, log)
| None => (false, None, log)
end.

Fixpoint attempts (n attempt : nat) (cb : option (list event → option bool)) (prev_delay : Q) (log : list event) :
  outcome * list event :=
match n with
| O => (NoResult, log)
| S n' =>
    let log1 := log ++ [ECall (call_factory env log)] in
    match call_factory env log with
    | inr r => (Returned r, log1)
    | inl exc =>
        let c := classify env exc in
        let '(again, cb', log2) := recover (reason_value c) attempt cb (report attempt log1) in
        if again then attempts n' (S attempt) cb' prev_delay log2 else
        if negb (retryable c) || (max_retries env <=? Z.of_nat attempt)%Z then (Raised exc, log2) else
        let '(b, log3) := interrupted log2 in
        if b then (LlmCallInterrupted, log3) else
        let delay := match backoff_s c with Some q => q | None => next_backoff env log3 prev_delay end in
        let '(b', log4) := wait (wait_fuel delay) delay log3 in
        if b' then (LlmCallInterrupted, log4) else attempts n' (S attempt) cb' delay log4
    end
end.

Definition call_llm_with_retry : outcome * list event :=
attempts (Z.to_nat (max_retries env + 1)) 0 (on_context_overflow env) 0 [].
End retry.
Arguments event : clear implicits.
Arguments retry_env : clear implicits.
Arguments outcome : clear implicits.

(* ------------------------------------------------------------------ *)
(** ** Messages for a tool-free call *)

Section messages.
Context `{Oracle}.

Definition json_or (a b : json) : json := if truthy a then a else b.
Definition role (m : dict) : json := dget_none "role" m.
Definition is_role (r : string) (m : dict) : bool := py_eq (role m) (JStr r).
Definition content_or_empty (m : dict) : json := json_or (dget_none "content" m) (JStr "").

(** [str(call.get("function", {}).get("name", "tool"))]. *)
Definition call_name (call : dict) : result string :=
match dget_default "function" (JObj []) call with
| JObj f => Ok (str_json (dget_default "name" (JStr "tool") f))
| _ => Err (AttributeError "get")
end.

Fixpoint call_names (calls : list json) : result (list string) :=
match calls with
| [] => Ok []
| JObj call :: rest =>
    match call_name call with
    | Err e => Err e
    | Ok n => match call_names rest with Err e => Err e | Ok ns => Ok (n :: ns) end
    end
| _ :: rest => call_names rest
end.

(** The iteration over [tool_calls]: characters and keys are not dicts, and a
  number cannot be iterated. *)
Definition tool_names (tool_calls : json) : result (list string) :=
match tool_calls with
| JList l => call_names l
| JStr _ | JObj _ => Ok []
| _ => Err (TypeError "not iterable")
end.

Definition tool_result (m : dict) : dict :=
[("role", JStr "user");
 ("content", JStr ("[Result from " +:+ str_json (json_or (dget_none "name" m) (JStr "tool")) +:+ "]" +:+ newline +:+
                   str_json (content_or_empty m)))].

Definition flatten_message (message : dict) : result dict :=
if is_role "tool" message then Ok (tool_result message) else
let tool_calls := dget_none "tool_calls" message in
let copied := dpop "tool_call_id" (dpop "tool_calls" message) in
if truthy tool_calls then
  match tool_names tool_calls with
  | Err e => Err e
  | Ok names =>
      let suffix := "[Tools used: " +:+ str_or (join ", " names) "tool" +:+ "]" in
      let text := strip (str_json (content_or_empty copied) +:+ newline +:+ suffix) in
      Ok (dpop "thinking_blocks" (dset "content" (JStr text) copied))
  end
else Ok copied.

Fixpoint flatten_all (messages : list dict) : result (list dict) :=
match messages with
| [] => Ok []
| m :: rest =>
    match flatten_message m with
    | Err e => Err e
    | Ok f => match flatten_all rest with Err e => Err e | Ok fs => Ok (f :: fs) end
    end
end.

Definition text_part (j : json) : json := JObj [("type", JStr "text"); ("text", JStr (str_json j))].

Definition merged_content (previous current : json) : json :=
match previous, current with
| JList p, JList c => JList (p ++ c)
| JList p, _ => JList (p ++ [text_part current])
| _, JList c => JList (text_part previous :: c)
| _, _ => JStr (strip (str_json previous +:+ newline +:+ newline +:+ str_json current))
end.

(** The merged messages, the latest first. *)
Definition merge_step (merged : list dict) (message : dict) : list dict :=
match merged with
| [] => [message]
| previous :: before =>
    if negb (py_eq (role previous) (role message)) || is_role "system" message then message :: merged
    else dset "content" (merged_content (content_or_empty previous) (content_or_empty message)) previous :: before
end.

Definition strip_tool_protocol_messages (messages : list dict) : result (list dict) :=
match flatten_all messages with
| Err e => Err e
| Ok flattened => Ok (reverse (foldl merge_step [] flattened))
end.
End messages.
