(* ===== verification/LoopGuardsProps.v ===== *)
(** * What the loop guards guarantee

    The runaway detector decides by the turns actually seen; the retry is
    bounded, single-recovery and stops at an interrupt; the flattened
    messages are free of tool protocol. *)

From stdpp Require Import prelude strings list gmap.
From Stdlib Require Import QArith Qround Qminmax Lqa.
From S2P Require Import Prelude PyValue PyText TaskModels LoopGuards.
Open Scope nat_scope.

(* ------------------------------------------------------------------ *)
(** ** The reference detector *)

(** The last [n] elements of a list, the occurrences of a turn, and the length
    of the run of a turn at the end of a history. *)
Definition last_n {A} (n : nat) (l : list A) : list A := drop (length l - n) l.
Definition occurrences (s : signature) (l : list signature) : nat := length (filter (λ x, x = s) l).
Fixpoint leading_run (s : signature) (l : list signature) : nat :=
  match l with
  | [] => 0
  | x :: l' => if bool_decide (x = s) then S (leading_run s l') else 0
  end.
Definition trailing_run (s : signature) (h : list signature) : nat := leading_run s (reverse h).

(** The turns that count. *)
Abbreviation seen turns := (filter (λ t : signature, t ≠ []) turns).

Lemma last_n_snoc {A} n (l : list A) x :
  0 < n → last_n n (l ++ [x]) = drop (length (last_n n l) + 1 - n) (last_n n l ++ [x]).
Proof.
  intros Hn. unfold last_n. rewrite length_app, length_drop. simpl.
  destruct (decide (length l < n)) as [Hlt|Hge].
  - replace (length l - n) with 0 by lia. rewrite drop_0.
    replace (length l + 1 - n) with 0 by lia.
    by replace (length l - 0 + 1 - n) with 0 by lia.
  - replace (length l - (length l - n) + 1 - n) with 1 by lia.
    replace (length l + 1 - n) with (length l - n + 1) by lia.
    rewrite <- drop_drop. rewrite (drop_app_le l [x]) by lia. done.
Qed.

Lemma last_n_length {A} n (l : list A) : length (last_n n l) ≤ n.
Proof. unfold last_n. rewrite length_drop. lia. Qed.

Lemma occurrences_app s l1 l2 : occurrences s (l1 ++ l2) = occurrences s l1 + occurrences s l2.
Proof. unfold occurrences. by rewrite filter_app, length_app. Qed.

Lemma occurrences_cons s x l : occurrences s (x :: l) = (if decide (x = s) then 1 else 0) + occurrences s l.
Proof. unfold occurrences. rewrite filter_cons. by case_decide. Qed.

Lemma trailing_run_snoc s h x :
  trailing_run s (h ++ [x]) = if decide (x = s) then S (trailing_run s h) else 0.
Proof.
  unfold trailing_run. rewrite reverse_snoc. simpl. case_bool_decide; by case_decide.
Qed.

(** ** The detector keeps the reference *)

(** What the guard knows after the counted turns [h]: the window, the counts
    of it, the last turn and its run. *)
Record tracks (g : RunawayGuard) (h : list signature) : Prop := {
  tr_window : window g = last_n (window_size g) h;
  tr_counts : ∀ s, counter_get s (window_counts g) = Z.of_nat (occurrences s (window g));
  tr_last : last_signature g = last h;
  tr_streak : ∀ s, last h = Some s → streak g = Z.of_nat (trailing_run s h);
  tr_warned : consecutive_warned g = true → (warn_threshold g ≤ streak g)%Z
}.

(** The settings of a guard. *)
Definition settings (g : RunawayGuard) :=
  (warn_threshold g, halt_threshold g, window_warn_threshold g, window_halt_threshold g, window_size g).

Lemma tracks_new warn halt size wwarn whalt : tracks (new_guard warn halt size wwarn whalt) [].
Proof. split; try done. Qed.

Lemma counter_insert s s' v c :
  counter_get s (<[s' := v]> c) = if decide (s' = s) then v else counter_get s c.
Proof. unfold counter_get. case_decide; simplify_map_eq; done. Qed.
Lemma counter_delete s s' c :
  counter_get s (delete s' c) = if decide (s' = s) then 0%Z else counter_get s c.
Proof. unfold counter_get. case_decide; simplify_map_eq; done. Qed.

(** The uncounting of the turn that leaves a full window. *)
Lemma evict_counts g :
  0 < window_size g → length (window g) ≤ window_size g →
  (∀ s, counter_get s (window_counts g) = Z.of_nat (occurrences s (window g))) →
  ∃ c wd, evict g = Ok (set_window (window g) c wd g) ∧
    ∀ s, counter_get s c =
      Z.of_nat (occurrences s (drop (length (window g) + 1 - window_size g) (window g))).
Proof.
  intros Hn Hle Hc. unfold evict. case_bool_decide as Hfull.
  - rewrite Hfull. replace (window_size g + 1 - window_size g) with 1 by lia.
    destruct (window g) as [|ev rest] eqn:Ew; [simpl in *; lia|].
    change (drop 1 (ev :: rest)) with rest. rewrite Hc, occurrences_cons, decide_True by done.
    destruct (Z.leb_spec (Z.of_nat (1 + occurrences ev rest) - 1) 0); eexists _, _; (split; [done|]); intros s.
    + rewrite counter_delete, Hc, occurrences_cons. case_decide; subst; lia.
    + rewrite counter_insert, Hc, occurrences_cons. case_decide; subst; lia.
  - exists (window_counts g), (window_warned_signatures g). split; [by destruct g|].
    intros s. rewrite Hc. by replace (length (window g) + 1 - window_size g) with 0 by lia.
Qed.

Lemma advance_streak_tracks t g h :
  tracks g h →
  streak (advance_streak t g) = Z.of_nat (trailing_run t (h ++ [t])) ∧
  (consecutive_warned (advance_streak t g) = true →
     (warn_threshold g < Z.of_nat (trailing_run t (h ++ [t])))%Z).
Proof.
  intros [_ _ Hl Hs Hw]. rewrite trailing_run_snoc, decide_True by done. unfold advance_streak.
  case_bool_decide as E; simpl.
  - rewrite E in Hl. rewrite (Hs t) in * by done. split; [lia|]. intros ?%Hw. lia.
  - split; [|done]. rewrite Hl in E. unfold trailing_run.
    destruct h as [|x h _] using rev_ind; [done|]. rewrite last_snoc in E. rewrite reverse_snoc. simpl.
    rewrite bool_decide_eq_false_2 by congruence. done.
Qed.

(** One observation: the facts the verdict is taken from, and the next state. *)
Lemma observe_tracks t g h :
  0 < window_size g → t ≠ [] → tracks g h →
  ∃ g2, observe t g = (Ok (fst (judge t g2)), snd (judge t g2)) ∧ settings g2 = settings g ∧
    streak g2 = Z.of_nat (trailing_run t (h ++ [t])) ∧
    counter_get t (window_counts g2) = Z.of_nat (occurrences t (last_n (window_size g) (h ++ [t]))) ∧
    (consecutive_warned g2 = true → (warn_threshold g < streak g2)%Z) ∧
    tracks g2 (h ++ [t]).
Proof.
  intros Hn Ht Htr. destruct (advance_streak_tracks t g h Htr) as [Hst Hcw].
  destruct Htr as [Hwin Hcnt Hl Hs Hw].
  set (g1 := advance_streak t g) in *.
  assert (settings g1 = settings g ∧ window g1 = window g ∧ window_counts g1 = window_counts g ∧
          last_signature g1 = Some t) as (Hset & Ewin & Ecnt & El).
  { unfold g1, advance_streak. by case_bool_decide. }
  assert (window_size g1 = window_size g ∧ warn_threshold g1 = warn_threshold g) as [Esz Ewt] by
    (unfold settings in Hset; split; congruence).
  destruct (evict_counts g1) as (c & wd & Hev & Hc).
  { by rewrite Esz. } { rewrite Ewin, Esz, Hwin. apply last_n_length. } { by rewrite Ewin, Ecnt. }
  rewrite Ewin, Esz in Hc. rewrite Ewin in Hev.
  set (g2 := count_turn t (set_window (window g) c wd g1)).
  assert (window g2 = last_n (window_size g) (h ++ [t])) as Hw2.
  { unfold g2, count_turn, deque_append. simpl. rewrite Esz, Hwin. symmetry. by apply last_n_snoc. }
  assert (∀ s, counter_get s (window_counts g2) = Z.of_nat (occurrences s (window g2))) as Hc2.
  { intros s. unfold g2, count_turn, deque_append. simpl. rewrite Esz, counter_insert, !Hc.
    rewrite drop_app_le by (rewrite Hwin; pose proof (last_n_length (window_size g) h); lia).
    rewrite occurrences_app, occurrences_cons. unfold occurrences at 4; simpl. case_decide; subst; lia. }
  exists g2. split_and!.
  - destruct t as [|x t]; [done|]. cbn [observe]. change (advance_streak (x :: t) g) with g1.
    rewrite Hev. change (count_turn (x :: t) _) with g2. by destruct (judge (x :: t) g2).
  - done.
  - done.
  - by rewrite Hc2, Hw2.
  - intros Hcw'. change (streak g2) with (streak g1). rewrite Hst. by apply Hcw.
  - split.
    + rewrite Hw2. change (window_size g2) with (window_size g1). by rewrite Esz.
    + done.
    + change (last_signature g2) with (last_signature g1). by rewrite last_snoc.
    + intros s. rewrite last_snoc. intros [= <-]. done.
    + intros Hcw'. change (streak g2) with (streak g1). change (warn_threshold g2) with (warn_threshold g1).
      specialize (Hcw Hcw'). rewrite Ewt, Hst. lia.
Qed.

Lemma judge_tracks t g h : tracks g h → tracks (snd (judge t g)) h.
Proof.
  intros [Hwin Hcnt Hl Hs Hw]. unfold judge.
  destruct (_ || _); [by split|]. destruct (_ || _) eqn:E; [|by split].
  split; try done. simpl. intros [Hcw|]%orb_true_iff; [|by apply Hw].
  apply andb_true_iff in Hcw as [?%Z.leb_le _]. done.
Qed.
Lemma judge_settings t g : settings (snd (judge t g)) = settings g.
Proof. unfold judge. by repeat case_match. Qed.

Lemma observe_all_tracks turns g h :
  0 < window_size g → tracks g h →
  ∃ vs g', observe_all turns g = (Ok vs, g') ∧ length vs = length turns ∧ settings g' = settings g ∧
    tracks g' (h ++ seen turns).
Proof.
  revert g h. induction turns as [|t turns IH]; intros g h Hn Htr.
  { exists [], g. rewrite app_nil_r. done. }
  cbn [observe_all]. rewrite filter_cons. destruct (decide (t ≠ [])) as [Ht|Ht].
  - destruct (observe_tracks t g h) as (g2 & Ho & Hset & _ & _ & _ & Htr2); [done..|].
    destruct (IH (snd (judge t g2)) (h ++ [t])) as (vs & g' & Hr & Hlen & Hset' & Htr').
    { pose proof (judge_settings t g2) as Hj. unfold settings in Hset, Hj. by simplify_eq; congruence. }
    { by apply judge_tracks. }
    exists (fst (judge t g2) :: vs), g'. run_unfold. rewrite Ho, Hr. split_and!; simpl; [done|congruence| |].
    + by rewrite Hset', judge_settings.
    + by rewrite <- (assoc_L (++)) in Htr'.
  - assert (t = []) as -> by (destruct t; [done|by destruct Ht]).
    destruct (IH g h Hn Htr) as (vs & g' & Hr & Hlen & Hset' & Htr').
    exists (OK :: vs), g'. run_unfold. cbn [observe]. rewrite Hr. split_and!; simpl; [done|congruence|done|done].
Qed.


(** With the default settings one streak can be warned about twice, once by the
    window and once more when the run reaches the warning threshold. *)
Example warned_twice_in_streak :
  let a := ["read_file:1"] in let b := ["list_files:2"] in
  ∃ g, observe_all [a; a; b; a; a; b; a; a; b; a; a; a] default_guard =
         (Ok (replicate 10 OK ++ [WARN; WARN]), g) ∧ streak g = 3%Z.
Proof. eexists. vm_compute. done. Qed.

(* ------------------------------------------------------------------ *)
(** ** The retry *)

Section retry.
Context {Exc Resp : Type}.
Implicit Types (log : list (event Exc Resp)).

Definition call_of (e : event Exc Resp) : option (Exc + Resp) :=
match e with ECall r => Some r | _ => None end.
Definition overflow_of (e : event Exc Resp) : option bool :=
match e with EOverflow b => Some b | _ => None end.
Definition report_of (e : event Exc Resp) : option nat :=
match e with EReport n => Some n | _ => None end.
Definition failure_of (e : event Exc Resp) : option Exc :=
match e with ECall (inl x) => Some x | _ => None end.
Definition slept (e : event Exc Resp) : Q := match e with ESleep q => q | _ => 0%Q end.
Definition total_sleep log : Q := foldr (λ e q, slept e + q)%Q 0%Q log.

Abbreviation calls l := (omap call_of l).
Abbreviation overflows l := (omap overflow_of l).
Abbreviation reports l := (omap report_of l).
Abbreviation failures l := (omap failure_of l).

(** Events without a call, a recovery or a report. *)
Definition quiet log : Prop := calls log = [] ∧ overflows log = [] ∧ reports log = [] ∧ failures log = [].
(** No interrupt was seen. *)
Definition unbroken log : Prop := EInterrupt true ∉ log.
(** Nothing follows an interrupt that was seen. *)
Definition stops_at_interrupt log : Prop := ∀ l1 l2, log = l1 ++ EInterrupt true :: l2 → l2 = [].

Lemma quiet_app l1 l2 : quiet l1 → quiet l2 → quiet (l1 ++ l2).
Proof. unfold quiet. rewrite !omap_app. intros (-> & -> & -> & ->) (-> & -> & -> & ->). done. Qed.

Lemma unbroken_stops log : unbroken log → stops_at_interrupt log.
Proof. intros Hu l1 l2 ->. destruct Hu. apply elem_of_app. right. left. Qed.

Lemma stops_app l1 l2 : unbroken l1 → stops_at_interrupt l2 → stops_at_interrupt (l1 ++ l2).
Proof.
revert l2. induction l1 as [|e l1 IH]; intros l2 Hu Hs k1 k2 E; [by eapply Hs|].
destruct k1 as [|e' k1]; simplify_eq/=; [by destruct Hu; left|].
eapply (IH l2); [|done|done]. intros Hin. apply Hu. by right.
Qed.

Lemma stops_last log : unbroken log → stops_at_interrupt (log ++ [EInterrupt true]).
Proof. intros Hu. apply stops_app; [done|]. intros [|? [|]] l2 E; by simplify_eq/=. Qed.

Variable env : retry_env Exc Resp.

Lemma interrupted_log log b log' :
interrupted env log = (b, log') →
∃ l, log' = log ++ l ∧ quiet l ∧ total_sleep l == 0 ∧
  if b then l = [EInterrupt true] else unbroken l.
Proof.
unfold interrupted. destruct (interrupt_check env) as [f|]; intros [= <- <-].
- exists [EInterrupt (f log)]. split_and!; [done|done|done|].
  destruct (f log); [done|]. unfold unbroken. set_solver.
- exists []. rewrite app_nil_r. split_and!; try done. unfold unbroken. set_solver.
Qed.

Lemma total_sleep_app l1 l2 : total_sleep (l1 ++ l2) == total_sleep l1 + total_sleep l2.
Proof. induction l1 as [|e l1 IH]; simpl; [lra|]. unfold total_sleep in *. rewrite IH. lra. Qed.

Lemma wait_log n r log b log' :
wait env n r log = (b, log') →
∃ l, log' = log ++ l ∧ quiet l ∧
  if b then ∃ l0, l = l0 ++ [EInterrupt true] ∧ unbroken l0 else unbroken l.
Proof.
revert r log. induction n as [|n IH]; intros r log; cbn [wait].
{ intros [= <- <-]. exists []. rewrite app_nil_r. split_and!; [done|done|]. unfold unbroken. set_solver. }
destruct (Qle_bool r 0); [intros [= <- <-]; exists []; rewrite app_nil_r; split_and!; try done; unfold unbroken; set_solver|].
destruct (interrupted _ _) as [b1 log1] eqn:Ei.
apply interrupted_log in Ei as (l1 & -> & Hq1 & _ & H1). destruct b1.
- intros [= <- <-]. subst l1. exists [ESleep (Qmin 1 r); EInterrupt true]. rewrite <- (assoc_L (++)).
  split_and!; try done. exists [ESleep (Qmin 1 r)]. split; [done|]. unfold unbroken. set_solver.
- intros (l2 & -> & Hq2 & H2)%IH. exists ([ESleep (Qmin 1 r)] ++ l1 ++ l2). rewrite !(assoc_L (++)).
  split; [done|]. split; [apply quiet_app; [by apply quiet_app|done]|].
  assert (unbroken ([ESleep (Qmin 1 r)] ++ l1)) as Hu.
  { unfold unbroken in *. rewrite elem_of_app, list_elem_of_singleton. naive_solver. }
  destruct b.
  + destruct H2 as (l0 & -> & Hu0). exists (([ESleep (Qmin 1 r)] ++ l1) ++ l0). rewrite !(assoc_L (++)). split; [done|].
    unfold unbroken in *. rewrite elem_of_app. naive_solver.
  + unfold unbroken in *. rewrite elem_of_app. naive_solver.
Qed.

(** The fuel of the wait is enough, and it sleeps for exactly the delay unless
  it is broken off. *)
Lemma wait_sleeps n r log log' :
(r <= inject_Z (Z.of_nat n))%Q → wait env n r log = (false, log') →
∃ l, log' = log ++ l ∧ total_sleep l == Qmax 0 r.
Proof.
revert r log. induction n as [|n IH]; intros r log Hr; cbn [wait].
{ intros [= <-]. exists []. rewrite app_nil_r. split; [done|]. symmetry. apply Q.max_l, Hr. }
destruct (Qle_bool r 0) eqn:E.
{ intros [= <-]. exists []. rewrite app_nil_r. split; [done|]. symmetry. apply Q.max_l, Qle_bool_iff, E. }
destruct (interrupted _ _) as [[] log1] eqn:Ei; [done|].
apply interrupted_log in Ei as (l1 & -> & _ & Hz & _). intros Hw. apply IH in Hw as (l2 & -> & Hs).
- exists ([ESleep (Qmin 1 r)] ++ l1 ++ l2). rewrite !(assoc_L (++)). split; [done|].
  rewrite !total_sleep_app, Hz, Hs. simpl.
  assert (0 < r)%Q by (apply Qnot_le_lt; intros ?%Qle_bool_iff; congruence).
  destruct (Q.min_spec 1 r) as [[? ->]|[? ->]], (Q.max_spec 0 (r - 1)) as [[? ->]|[? ->]],
    (Q.max_spec 0 r) as [[? ->]|[? ->]]; lra.
- rewrite Nat2Z.inj_succ, <- Z.add_1_r, inject_Z_plus in Hr. change (inject_Z 1) with 1%Q in Hr. lra.
Qed.

Lemma wait_fuel_enough r : (r <= inject_Z (Z.of_nat (wait_fuel r)))%Q.
Proof.
unfold wait_fuel. eapply Qle_trans; [apply Qle_ceiling|]. rewrite <- Zle_Qle. lia.
Qed.

Lemma wait_more n k r log :
(r <= inject_Z (Z.of_nat n))%Q → wait env (n + k) r log = wait env n r log.
Proof.
revert r log. induction n as [|n IH]; intros r log Hr.
{ destruct k as [|k]; [done|]. cbn [wait Nat.add].
  by rewrite (proj2 (Qle_bool_iff r 0)) by exact Hr. }
cbn [wait Nat.add]. destruct (Qle_bool r 0); [done|]. destruct (interrupted _ _) as [[] log1]; [done|].
apply IH. rewrite Nat2Z.inj_succ, <- Z.add_1_r, inject_Z_plus in Hr. change (inject_Z 1) with 1%Q in Hr. lra.
Qed.

(** What a run of up to [n] attempts did, and how it ended. *)
Record bounded_run (n : nat) (recovery : bool) (o : outcome Exc Resp) (l : list (event Exc Resp)) : Prop := {
br_calls : 1 ≤ length (calls l) ≤ n;
br_overflows : length (overflows l) ≤ if recovery then 1 else 0;
br_reports : length (reports l) = if on_classified_error env then length (failures l) else 0;
br_stops : stops_at_interrupt l;
br_outcome : match o with
             | Returned r => last l = Some (ECall (inr r))
             | Raised e => last (calls l) = Some (inl e) ∧
                           (retryable (classify env e) = false ∨ length (calls l) = n)
             | LlmCallInterrupted => last l = Some (EInterrupt true)
             | NoResult => False
             end
}.

(** One failed attempt up to the decision to go on. *)
Definition failed_prefix (recovery recovery' : bool) (x : Exc) (l : list (event Exc Resp)) : Prop :=
unbroken l ∧ calls l = [inl x] ∧ failures l = [x] ∧
length (overflows l) + (if recovery' then 1 else 0) ≤ (if recovery then 1 else 0) ∧
length (reports l) = if on_classified_error env then 1 else 0.

Lemma recover_log x c a cb log again cb' log2 :
recover env c a cb (report env a (log ++ [ECall (inl x)])) = (again, cb', log2) →
∃ l, log2 = log ++ l ∧ failed_prefix (bool_decide (is_Some cb)) (bool_decide (is_Some cb')) x l ∧
     (again = true → (Z.of_nat a < max_retries env)%Z).
Proof.
unfold recover, report, failed_prefix, unbroken.
destruct (on_classified_error env), cb as [f|]; try destruct (_ && _) eqn:E; intros [= <- <- <-].
all: rewrite <- ?(assoc_L (++)); eexists; (split; [done|]).
all: try (apply andb_true_iff in E as [_ ?%Z.ltb_lt]).
all: split_and!; simpl; try done; try lia; set_solver.
Qed.

Lemma failed_prefix_quiet r r' x l q : failed_prefix r r' x l → quiet q → unbroken q → failed_prefix r r' x (l ++ q).
Proof.
intros (Hu & Hc & Hf & Ho & Hr) (Q1 & Q2 & Q3 & Q4) Hq. unfold failed_prefix.
rewrite !omap_app, Q1, Q2, Q3, Q4, !app_nil_r. split_and!; try done.
unfold unbroken in *. rewrite elem_of_app. naive_solver.
Qed.

Lemma bounded_run_cons n r r' x l o l' :
failed_prefix r r' x l → bounded_run n r' o l' → bounded_run (S n) r o (l ++ l').
Proof.
intros (Hu & Hc & Hf & Ho & Hr) [B1 B2 B3 B4 B5].
assert (∃ y, last l' = Some y) as [y Hy].
{ destruct (last l') eqn:E; [by eauto|]. apply last_None in E as ->. simpl in B1. lia. }
assert (∃ y, last (calls l') = Some y) as [z Hz].
{ destruct (last (calls l')) eqn:E; [by eauto|]. apply last_None in E. rewrite E in B1. simpl in B1. lia. }
split; rewrite ?omap_app, ?length_app, ?Hc, ?Hf, ?Hr; simpl.
- lia.
- destruct r, r'; lia.
- rewrite B3. by destruct (on_classified_error env).
- by apply stops_app.
- destruct o as [rr|e| |]; [by rewrite last_app, Hy in *| |by rewrite last_app, Hy in *|done].
  destruct B5 as [B5 B6]. rewrite last_cons, B5. split; [done|]. destruct B6; [by left|right; lia].
Qed.

(** A failed attempt that ends the run. *)
Lemma bounded_run_end n r r' x l q o :
failed_prefix r r' x l → quiet q → stops_at_interrupt q →
match o with
| Raised e => e = x ∧ q = [] ∧ (retryable (classify env x) = false ∨ n = 0)
| LlmCallInterrupted => last q = Some (EInterrupt true)
| _ => False
end → bounded_run (S n) r o (l ++ q).
Proof.
intros (Hu & Hc & Hf & Ho & Hr) (Q1 & Q2 & Q3 & Q4) Hs Hend.
split; rewrite ?omap_app, ?Q1, ?Q2, ?Q3, ?Q4, ?app_nil_r, ?Hc, ?Hf, ?Hr; simpl; try lia.
- by apply stops_app.
- destruct o as [rr|e| |]; [done| |by rewrite last_app, Hend|done].
  destruct Hend as (-> & _ & [|Hz]); split; [done|by left|done|right; simpl; lia].
Qed.

Lemma attempts_bounded n a cb d log o log' :
0 < n → (Z.of_nat a + Z.of_nat n = max_retries env + 1)%Z →
attempts env n a cb d log = (o, log') →
∃ l, log' = log ++ l ∧ bounded_run n (bool_decide (is_Some cb)) o l.
Proof.
revert a cb d log. induction n as [|n IH]; intros a cb d log Hn Ha; [lia|]. cbn [attempts].
destruct (call_factory env log) as [x|r].
2: { intros [= <- <-]. eexists. split; [done|]. split; simpl; [lia|by case_bool_decide; lia|by destruct (on_classified_error env)| |done].
     apply unbroken_stops. unfold unbroken. set_solver. }
destruct (recover _ _ _ _ _) as [[again cb'] log2] eqn:Er.
apply recover_log in Er as (l & -> & Hp & Hag). destruct again.
- specialize (Hag eq_refl). intros Hr. apply IH in Hr as (l' & -> & Hb); [|lia|lia].
  exists (l ++ l'). rewrite (assoc_L (++)). split; [done|]. by eapply bounded_run_cons.
- destruct (negb _ || _) eqn:Estop.
  + intros [= <- <-]. exists (l ++ []). rewrite app_nil_r at 1. split; [done|].
    eapply bounded_run_end; [done|done|by apply unbroken_stops, not_elem_of_nil|].
    split_and!; [done|done|]. apply orb_true_iff in Estop as [?%negb_true_iff|?%Z.leb_le]; [by left|right; lia].
  + apply orb_false_iff in Estop as [_ Hlt%Z.leb_gt].
    destruct (interrupted _ _) as [b log3] eqn:Ei. apply interrupted_log in Ei as (q & -> & Hq & _ & Hb).
    destruct b.
    { intros [= <- <-]. subst q. exists (l ++ [EInterrupt true]). rewrite (assoc_L (++)). split; [done|].
      eapply bounded_run_end; [done|done|by apply (stops_last []), not_elem_of_nil|done]. }
    destruct (wait _ _ _ _) as [b' log4] eqn:Ew. apply wait_log in Ew as (q2 & -> & Hq2 & Hb2).
    pose proof (failed_prefix_quiet _ _ _ _ _ Hp Hq Hb) as Hp2.
    destruct b'.
    { intros [= <- <-]. destruct Hb2 as (q0 & -> & Hu0). exists ((l ++ q) ++ (q0 ++ [EInterrupt true])).
      rewrite <- !(assoc_L (++)). split; [done|]. rewrite (assoc_L (++) l).
      eapply bounded_run_end; [done|done|by apply stops_last|]. by rewrite last_snoc. }
    intros Hr. apply IH in Hr as (l' & -> & Hbr); [|lia|lia].
    exists (((l ++ q) ++ q2) ++ l'). rewrite !(assoc_L (++)). split; [done|].
    eapply bounded_run_cons; [|done]. by apply failed_prefix_quiet.
Qed.

(** The in-loop retry is bounded: with a budget of [max_retries] it makes
  between one and [max_retries + 1] calls and at most one overflow recovery,
  reports each failed call once, and ends: with the answer of its last call,
  with the error of its last call when that is not retryable or the budget
  is spent, or at the first interrupt it sees, after which it does nothing.
  Each wait ends, having slept exactly its delay unless broken off. *)
Theorem retry_bounded :
(0 ≤ max_retries env)%Z →
(let '(o, log) := call_llm_with_retry env in
 bounded_run (Z.to_nat (max_retries env + 1)) (bool_decide (is_Some (on_context_overflow env))) o log) ∧
∀ delay log,
  (∀ k, wait env (wait_fuel delay + k) delay log = wait env (wait_fuel delay) delay log) ∧
  ∀ log', wait env (wait_fuel delay) delay log = (false, log') →
    ∃ l, log' = log ++ l ∧ total_sleep l == Qmax 0 delay.
Proof.
intros Hm. split.
- destruct (call_llm_with_retry env) as [o log] eqn:E.
  apply attempts_bounded in E as (l & -> & Hb); [done|lia|lia].
- intros delay log. pose proof (wait_fuel_enough delay) as Hf. split.
  + intros k. by apply wait_more.
  + intros log'. by apply wait_sleeps.
Qed.
End retry.

(* ------------------------------------------------------------------ *)
(** ** Tool-free messages *)

Section messages.
Context `{Oracle}.

(** A message a tool-free call accepts. *)
Definition tool_free (m : dict) : Prop :=
is_role "tool" m = false ∧ dget "tool_calls" m = None ∧ dget "tool_call_id" m = None.

(** The latest first: neighbours of the same role are system messages. *)
Fixpoint separated (l : list dict) : Prop :=
match l with
| m2 :: (m1 :: _) as rest =>
    (py_eq (role m1) (role m2) = true → is_role "system" m2 = true) ∧ separated rest
| _ => True
end.

Lemma tool_free_dset v m : tool_free m → tool_free (dset "content" v m).
Proof.
unfold tool_free, is_role, role, dget_none, dget_default. by rewrite !dget_dset_ne.
Qed.

Lemma role_dset v m : role (dset "content" v m) = role m.
Proof. unfold role, dget_none, dget_default. by rewrite dget_dset_ne. Qed.

Lemma flatten_message_free m f : flatten_message m = Ok f → tool_free f.
Proof.
unfold flatten_message. destruct (is_role "tool" m) eqn:Er; [by intros [= <-]|].
assert (tool_free (dpop "tool_call_id" (dpop "tool_calls" m))) as Hf.
{ unfold tool_free, is_role, role, dget_none, dget_default in *. by rewrite !dget_dpop. }
destruct (truthy _); [|by intros [= <-]]. destruct (tool_names _) as [ns|]; [|done]. intros [= <-].
apply (tool_free_dset (JStr (strip (str_json (content_or_empty (dpop "tool_call_id" (dpop "tool_calls" m))) +:+
  newline +:+ "[Tools used: " +:+ str_or (join ", " ns) "tool" +:+ "]")))) in Hf.
unfold tool_free, is_role, role, dget_none, dget_default in *. by rewrite !(dget_dpop_ne _ "thinking_blocks").
Qed.

Lemma flatten_all_free ms fs : flatten_all ms = Ok fs → Forall tool_free fs.
Proof.
revert fs. induction ms as [|m ms IH]; intros fs; simpl; [by intros [= <-]|].
destruct (flatten_message m) as [f|] eqn:Ef; [|done]. destruct (flatten_all ms) as [l|]; [|done].
intros [= <-]. constructor; [by eapply flatten_message_free|by apply IH].
Qed.

Lemma merge_step_ok acc m :
Forall tool_free acc → separated acc → tool_free m →
Forall tool_free (merge_step acc m) ∧ separated (merge_step acc m).
Proof.
intros Hf Hs Hm. destruct acc as [|p acc]; simpl; [by split; [constructor|]|].
inversion_clear Hf. destruct (negb _ || _) eqn:E.
- split; [constructor; [done|by constructor]|]. split; [|done]. intros Heq. by rewrite Heq in E.
- split; [by constructor; [apply tool_free_dset|]|].
  destruct acc as [|p' acc]; [done|]. destruct Hs as [Hs1 Hs2]. split; [|done].
  unfold is_role in *. by rewrite role_dset.
Qed.

Lemma merge_ok fs acc :
Forall tool_free acc → separated acc → Forall tool_free fs →
Forall tool_free (foldl merge_step acc fs) ∧ separated (foldl merge_step acc fs).
Proof.
revert acc. induction fs as [|m fs IH]; intros acc Ha Hs Hf; [done|]. inversion_clear Hf. simpl.
destruct (merge_step_ok acc m) as [? ?]; [done..|]. by apply IH.
Qed.

Lemma separated_split l1 m2 m1 l2 :
separated (l1 ++ m2 :: m1 :: l2) → py_eq (role m1) (role m2) = true → is_role "system" m2 = true.
Proof.
induction l1 as [|x l1 IH]; [by intros [? _]|]. intros Hs. apply IH. by destruct l1, Hs.
Qed.

(** A message whose tool calls the code can read. *)
Definition readable_call (call : json) : bool :=
match call with
| JObj c => match dget_default "function" (JObj []) c with JObj _ => true | _ => false end
| _ => true
end.
Definition readable (m : dict) : bool :=
match dget_none "tool_calls" m with JNull => true | JList l => all readable_call l | _ => false end.

Lemma call_names_total l : (∀ c, c ∈ l → readable_call c = true) → is_ok (call_names l) = true.
Proof.
induction l as [|c l IH]; intros Hl; [done|].
assert (is_ok (call_names l) = true) as Hr by (apply IH; intros; apply Hl; by right).
pose proof (Hl c (list_elem_of_here c l)) as Hc. destruct c as [| | | | | |d]; try done.
cbn [call_names]. unfold readable_call, call_name in *. destruct (dget_default "function" _ d); try done.
by destruct (call_names l).
Qed.

Lemma flatten_all_total ms : Forall (λ m, readable m = true) ms → is_ok (flatten_all ms) = true.
Proof.
induction 1 as [|m ms Hm _ IH]; [done|]. simpl.
assert (is_ok (flatten_message m) = true) as Hf.
{ unfold flatten_message, readable in *. destruct (is_role "tool" m); [done|].
  destruct (dget_none "tool_calls" m) as [| | | | |l|] eqn:E; try done.
  destruct (truthy (JList l)); [|done]. simpl. rewrite all_true in Hm. apply call_names_total in Hm.
  by destruct (call_names l). }
destruct (flatten_message m); [|done]. by destruct (flatten_all ms).
Qed.

(** Flattening for a tool-free call: a history whose tool calls are
  readable is always flattened, and no message of any flattened history is a
  tool message or carries a tool call or its id, and two neighbours have the
  same role only when both are system messages. *)
Theorem stripped_messages ms :
(Forall (λ m, readable m = true) ms → is_ok (strip_tool_protocol_messages ms) = true) ∧
∀ out, strip_tool_protocol_messages ms = Ok out →
  Forall tool_free out ∧
  ∀ l1 m1 m2 l2, out = l1 ++ m1 :: m2 :: l2 → py_eq (role m1) (role m2) = true → is_role "system" m2 = true.
Proof.
unfold strip_tool_protocol_messages. split.
- intros Hr%flatten_all_total. by destruct (flatten_all ms).
- destruct (flatten_all ms) as [fs|] eqn:Ef; [|done]. apply flatten_all_free in Ef. intros out [= <-].
  destruct (merge_ok fs []) as [Hf Hs]; [done..|]. split.
  + by apply Forall_reverse.
  + intros l1 m1 m2 l2 E. apply (f_equal reverse) in E.
    rewrite reverse_involutive, reverse_app, !reverse_cons, <- !(assoc_L (++)) in E. simpl in E.
    rewrite E in Hs. by eapply separated_split.
Qed.
End messages.
