(* ===== verification/RateGuard.v ===== *)
(** * The rate guard shared by the fleet ([core/execution/rate_guard.py])

    One JSON file records, per provider family, until when the family is
    blocked; every process reads it through a cache keyed by the file's stat
    result.  The state is the file, the history file, and what one process
    holds: its configuration and its cache.  The critical section of a report
    is one step (the advisory lock and its fail-open fallback are not
    modelled), numbers are exact, and the successive readings of the clocks,
    of the configuration and of the file's stat key are those of an oracle.

    The theorems: a report is what every process then sees, blocks stay within
    their configured bounds, repeated quota failures double the block, and
    nothing in the guard can stop a healthy call. *)

From stdpp Require Import prelude strings list.
From Stdlib Require Import QArith Qminmax Lqa.
From S2P Require Import Prelude PyValue.
Open Scope nat_scope.

Record LlmRateGuardConfig := mk_config {
  enabled : bool;
  default_block_seconds : Z;
  max_block_seconds : Z;
  quota_block_seconds : Z;
  max_quota_block_seconds : Z
}.
Definition default_config : LlmRateGuardConfig := mk_config true 60 600 1800 14400.

Definition QUOTA_RECURRENCE_GRACE_S : Q := 600.
Definition CONFIG_TTL_S : Q := 5.

Definition stat_key : Type := Z * Z.
(** The state file: absent, refusing [stat] and [open], or present with a stat
    key and a content that parses as JSON or does not. *)
Inductive state_file :=
| FMissing
| FDenied
| FPresent (key : stat_key) (content : option json).

Record guard_world := mk_gworld {
  g_file : state_file;
  g_history : list dict;
  g_writable : bool;
  g_history_writable : bool;
  g_explicit : option LlmRateGuardConfig;
  g_cached_config : option LlmRateGuardConfig;
  g_cached_config_at : Q;
  g_state_cache : option dict;
  g_state_cache_key : option stat_key;
  g_tick : nat
}.

Class GuardEnv := {
  time_at : nat → Q;
  monotonic_at : nat → Q;
  load_guard_config : nat → LlmRateGuardConfig;
  stat_key_at : nat → stat_key;
  current_anima_name : string
}.

Definition set_file (f : state_file) (w : guard_world) : guard_world :=
  mk_gworld f (g_history w) (g_writable w) (g_history_writable w) (g_explicit w) (g_cached_config w)
    (g_cached_config_at w) (g_state_cache w) (g_state_cache_key w) (g_tick w).
Definition set_history (h : list dict) (w : guard_world) : guard_world :=
  mk_gworld (g_file w) h (g_writable w) (g_history_writable w) (g_explicit w) (g_cached_config w)
    (g_cached_config_at w) (g_state_cache w) (g_state_cache_key w) (g_tick w).
Definition set_cached_config (c : LlmRateGuardConfig) (at_ : Q) (w : guard_world) : guard_world :=
  mk_gworld (g_file w) (g_history w) (g_writable w) (g_history_writable w) (g_explicit w) (Some c)
    at_ (g_state_cache w) (g_state_cache_key w) (g_tick w).
Definition set_cache (d : dict) (k : option stat_key) (w : guard_world) : guard_world :=
  mk_gworld (g_file w) (g_history w) (g_writable w) (g_history_writable w) (g_explicit w) (g_cached_config w)
    (g_cached_config_at w) (Some d) k (g_tick w).
Definition next_tick (w : guard_world) : guard_world :=
  mk_gworld (g_file w) (g_history w) (g_writable w) (g_history_writable w) (g_explicit w) (g_cached_config w)
    (g_cached_config_at w) (g_state_cache w) (g_state_cache_key w) (S (g_tick w)).

Section guard.
Context `{GuardEnv}.

Definition time_time : M guard_world Q := λ w, (Ok (time_at (g_tick w)), next_tick w).

Definition config : M guard_world LlmRateGuardConfig := λ w,
match g_explicit w with
| Some c => (Ok c, w)
| None =>
    let now := monotonic_at (g_tick w) in
    let w1 := next_tick w in
    let stale := negb (Qle_bool (now - g_cached_config_at w1) CONFIG_TTL_S) in
    match g_cached_config w1 with
    | Some c =>
        if stale then let c' := load_guard_config (g_tick w1) in (Ok c', set_cached_config c' now w1)
        else (Ok c, w1)
    | None => let c' := load_guard_config (g_tick w1) in (Ok c', set_cached_config c' now w1)
    end
end.

Definition read_state : M guard_world dict := λ w,
match g_file w with
| FMissing => (Ok [], w)
| FDenied => (Err (RuntimeError "PermissionError"), w)
| FPresent _ None => (Err (ValueError "JSONDecodeError"), w)
| FPresent _ (Some (JObj d)) => (Ok d, w)
| FPresent _ (Some _) => (Ok [], w)
end.

Definition read_state_cached : M guard_world dict := λ w,
match g_file w with
| FMissing => (Ok [], set_cache [] None w)
| FDenied => (Err (RuntimeError "PermissionError"), w)
| FPresent key _ =>
    match g_state_cache w with
    | Some d =>
        if bool_decide (g_state_cache_key w = Some key) then (Ok d, w)
        else (data ← read_state; _ ← modify (set_cache data (Some key)); mret data) w
    | None => (data ← read_state; _ ← modify (set_cache data (Some key)); mret data) w
    end
end.

(** [self._read_state_cached().get(family)] when it is a dict, with every
  failure swallowed. *)
Definition cached_entry (family : string) : M guard_world (option dict) :=
state ← catch (d ← read_state_cached; mret (Some d)) (λ _, mret None);
mret (match state ≫= dget family with Some (JObj e) => Some e | _ => None end).

Definition blocked_until (family : string) : M guard_world Q :=
cfg ← config;
if negb (enabled cfg) then mret 0%Q else
entry ← cached_entry family;
mret (default 0%Q (entry ≫= λ e, num_of (dget_none "blocked_until" e))).

Definition blocked_remaining (family : string) : M guard_world Q :=
u ← blocked_until family;
now ← time_time;
mret (if Qle_bool (u - now) 0 then 0%Q else (u - now)%Q).

Definition block_reason (family : string) : M guard_world (option string) :=
cfg ← config;
if negb (enabled cfg) then mret None else
entry ← cached_entry family;
mret (entry ≫= λ e, str_of (dget_none "reason" e)).

(** The block of a first report: the requested seconds, or the default when
  they are not a positive number, clamped. *)
Definition uses_quota_window (reason : string) : bool := str_in reason ["quota_exhausted"; "auth"].
Definition clamp_s (cfg : LlmRateGuardConfig) (reason : string) : Z :=
if uses_quota_window reason then Z.min (quota_block_seconds cfg) (max_quota_block_seconds cfg)
else max_block_seconds cfg.
Definition first_block (cfg : LlmRateGuardConfig) (seconds : option Q) (reason : string) : Q :=
let s := match seconds with
         | Some q => if Qle_bool q 0 then inject_Z (default_block_seconds cfg) else q
         | None => inject_Z (default_block_seconds cfg)
         end in
Qmin s (inject_Z (clamp_s cfg reason)).

(** Whether the previous block of the family is recent enough, and of the same
  quota kind, to escalate. *)
Definition recurring (reason : string) (now : Q) (previous : dict) : bool :=
py_eq (dget_none "reason" previous) (JStr reason) &&
match num_of (dget_none "blocked_until" previous) with
| Some u => Qle_bool now (u + QUOTA_RECURRENCE_GRACE_S)
| None => false
end.

Definition previous_seconds (block_s : Q) (previous : dict) : Q :=
default block_s (num_of (dget_default "seconds" (JFloat block_s) previous)).
Definition previous_consecutive (previous : dict) : Z :=
match int_of (dget_default "consecutive" (JInt 1) previous) with
| Some z => if (z <? 1)%Z then 1%Z else z
| None => 1%Z
end.

(** The seconds and the consecutive count that are recorded. *)
Definition escalate (cfg : LlmRateGuardConfig) (reason : string) (now block_s : Q) (previous : option json) : Q * Z :=
match previous with
| Some (JObj p) =>
    if bool_decide (reason = "quota_exhausted") && recurring reason now p
    then (Qmin (previous_seconds block_s p * 2) (inject_Z (max_quota_block_seconds cfg)),
          (previous_consecutive p + 1)%Z)
    else (block_s, 1%Z)
| _ => (block_s, 1%Z)
end.

Definition block_entry (now block_s : Q) (reason : string) (consecutive : Z) : dict :=
[("blocked_until", JFloat (now + block_s)); ("reason", JStr reason); ("seconds", JFloat block_s);
 ("updated_by", JStr current_anima_name); ("consecutive", JInt consecutive)].
Definition history_entry (family : string) (now block_s : Q) (reason : string) (consecutive : Z) : dict :=
[("ts", JFloat now); ("provider", JStr family); ("reason", JStr reason); ("seconds", JFloat block_s);
 ("updated_by", JStr current_anima_name); ("consecutive", JInt consecutive)].

Definition write_state (state : dict) : M guard_world unit := λ w,
if g_writable w then (Ok tt, set_file (FPresent (stat_key_at (g_tick w)) (Some (JObj state))) (next_tick w))
else (Err (RuntimeError "OSError"), w).
Definition append_history (entry : dict) : M guard_world unit := λ w,
if g_history_writable w then (Ok tt, set_history (g_history w ++ [entry]) w)
else (Err (RuntimeError "OSError"), w).

(** The read before the write: an unreadable file starts afresh. *)
Definition read_or_fresh : M guard_world dict := catch read_state (λ _, mret []).

Definition report_block (family : string) (seconds : option Q) (reason : string) : M guard_world unit :=
cfg ← config;
if negb (enabled cfg) then mret tt else
let block_s := first_block cfg seconds reason in
now ← time_time;
catch (
  state ← read_or_fresh;
  let '(s, consecutive) := escalate cfg reason now block_s (dget family state) in
  _ ← write_state (dset family (JObj (block_entry now s reason consecutive)) state);
  catch (append_history (history_entry family now s reason consecutive)) (λ _, mret tt)
) (λ _, mret tt).
End guard.

(* ------------------------------------------------------------------ *)
(** ** Runs *)

Section runs.
Context `{GuardEnv}.

(** What the file says, an unreadable file saying nothing. *)
Definition file_doc (f : state_file) : dict :=
match f with FPresent _ (Some (JObj d)) => d | _ => [] end.

(** The cache of a process holds what the file with its stat key holds. *)
Definition coherent (w : guard_world) : Prop :=
∀ k c d, g_file w = FPresent k c → g_state_cache_key w = Some k → g_state_cache w = Some d → c = Some (JObj d).

Lemma config_run w :
∃ cfg w', config w = (Ok cfg, w') ∧ g_file w' = g_file w ∧ g_history w' = g_history w ∧
  g_writable w' = g_writable w ∧ g_state_cache w' = g_state_cache w ∧
  g_state_cache_key w' = g_state_cache_key w.
Proof. unfold config. repeat case_match; do 2 eexists; (split; [done|]); done. Qed.

Lemma read_or_fresh_run w : read_or_fresh w = (Ok (file_doc (g_file w)), w).
Proof. unfold read_or_fresh, catch, read_state. by destruct (g_file w) as [| |k [[]|]]. Qed.

(** An entry read through the cache is an entry of the file. *)
Lemma cached_entry_run family w :
∃ r w', cached_entry family w = (Ok r, w') ∧ g_file w' = g_file w ∧
  (coherent w → r = match dget family (file_doc (g_file w)) with Some (JObj e) => Some e | _ => None end).
Proof.
unfold cached_entry, read_state_cached, coherent. run_unfold. unfold read_state.
destruct (g_file w) as [| |k c] eqn:Ef; [by do 2 eexists| by do 2 eexists|].
destruct (g_state_cache w) as [d|] eqn:Ec; [case_bool_decide as Ek|].
- do 2 eexists. split; [done|]. split; [by rewrite Ef|]. intros Hco.
  rewrite (Hco k c d) by done. done.
- destruct c as [[]|]; do 2 eexists; by (split; [done|]).
- destruct c as [[]|]; do 2 eexists; by (split; [done|]).
Qed.

Lemma blocked_until_run family w :
∃ u w', blocked_until family w = (Ok u, w') ∧
  (∀ cfg, val_of (config w) = Ok cfg →
     if enabled cfg
     then coherent w → u = default 0%Q (match dget family (file_doc (g_file w)) with
                                        | Some (JObj e) => num_of (dget_none "blocked_until" e)
                                        | _ => None
                                        end)
     else u = 0%Q).
Proof.
unfold blocked_until. destruct (config_run w) as (cfg & w1 & Hc & Hf & _ & _ & Hs & Hk).
run_unfold. rewrite Hc. destruct (enabled cfg) eqn:Ee; simpl.
- destruct (cached_entry_run family w1) as (r & w2 & Hr & _ & Hco). rewrite Hr. do 2 eexists. split; [done|].
  intros cfg' [= <-]. rewrite Ee. intros Hcw. rewrite Hco.
  + rewrite Hf. by destruct (dget family (file_doc (g_file w))) as [[]|].
  + unfold coherent in *. by rewrite Hf, Hs, Hk.
- do 2 eexists. split; [done|]. intros cfg' [= <-]. by rewrite Ee.
Qed.

Lemma blocked_remaining_run family w :
∃ u t w', val_of (blocked_until family w) = Ok u ∧
  blocked_remaining family w = (Ok (if Qle_bool (u - t) 0 then 0%Q else (u - t)%Q), w').
Proof.
unfold blocked_remaining. run_unfold. destruct (blocked_until_run family w) as (u & w1 & -> & _).
by do 3 eexists.
Qed.

Lemma block_reason_run family w :
∃ r w', block_reason family w = (Ok r, w') ∧
  (∀ cfg, val_of (config w) = Ok cfg → enabled cfg = true → coherent w →
     r = match dget family (file_doc (g_file w)) with
         | Some (JObj e) => str_of (dget_none "reason" e)
         | _ => None
         end).
Proof.
unfold block_reason. destruct (config_run w) as (cfg & w1 & Hc & Hf & _ & _ & Hs & Hk).
run_unfold. rewrite Hc. destruct (enabled cfg) eqn:Ee; simpl.
- destruct (cached_entry_run family w1) as (r & w2 & Hr & _ & Hco). rewrite Hr. do 2 eexists. split; [done|].
  intros cfg' [= <-] _ Hcw. rewrite Hco.
  + rewrite Hf. by destruct (dget family (file_doc (g_file w))) as [[]|].
  + unfold coherent in *. by rewrite Hf, Hs, Hk.
- do 2 eexists. split; [done|]. intros cfg' [= <-]. congruence.
Qed.

(** The document a report writes. *)
Definition reported (cfg : LlmRateGuardConfig) (family : string) (seconds : option Q) (reason : string) (now : Q)
  (doc : dict) : dict :=
let '(s, n) := escalate cfg reason now (first_block cfg seconds reason) (dget family doc) in
dset family (JObj (block_entry now s reason n)) doc.

Lemma report_block_run family seconds reason w :
∃ w', report_block family seconds reason w = (Ok tt, w') ∧
  ∀ cfg, val_of (config w) = Ok cfg →
    if enabled cfg && g_writable w
    then ∃ k now, g_file w' = FPresent k (Some (JObj (reported cfg family seconds reason now (file_doc (g_file w)))))
           ∧ (g_explicit w = Some cfg → now = time_at (g_tick w) ∧ g_explicit w' = Some cfg ∧
                g_tick w' = S (S (g_tick w)) ∧ g_writable w' = true)
    else g_file w' = g_file w.
Proof.
destruct (config_run w) as (cfg & w1 & Hc & Hf & Hh & Hwr & _).
assert (g_explicit w = Some cfg → w1 = w) as Hex.
{ intros He. unfold config in Hc. rewrite He in Hc. by simplify_eq. }
unfold report_block. run_unfold. rewrite Hc.
destruct (enabled cfg) eqn:Ee; cbn [negb]; [|eexists; split; [done|]; intros ? [= <-]; by rewrite Ee].
unfold time_time. rewrite read_or_fresh_run. cbn [g_file next_tick]. rewrite Hf.
destruct (escalate _ _ _ _ _) as [s n] eqn:Es. unfold write_state. cbn [g_writable next_tick]. rewrite Hwr.
destruct (g_writable w) eqn:Ew.
- unfold append_history. destruct (g_history_writable _); (eexists; split; [done|]); intros ? [= <-]; rewrite Ee;
    simpl; eexists _, _; unfold reported; rewrite Es; (split; [done|]); intros He; specialize (Hex He); by subst w1.
- eexists. split; [done|]. intros ? [= <-]. by rewrite Ee.
Qed.
End runs.

(* ------------------------------------------------------------------ *)
(** ** What the guard guarantees *)

Section theorems.
Context `{GuardEnv}.

(** The longest block a reason can cause. *)
Definition block_bound (cfg : LlmRateGuardConfig) (reason : string) : Z :=
if bool_decide (reason = "quota_exhausted") then max_quota_block_seconds cfg else clamp_s cfg reason.

Lemma first_block_le cfg seconds reason :
(first_block cfg seconds reason <= inject_Z (clamp_s cfg reason))%Q.
Proof. unfold first_block. apply Q.le_min_r. Qed.

Lemma clamp_le_bound cfg reason : (clamp_s cfg reason ≤ block_bound cfg reason)%Z.
Proof. unfold block_bound, clamp_s. case_bool_decide; [subst; simpl; lia|done]. Qed.

Lemma escalate_le cfg reason now seconds previous :
(fst (escalate cfg reason now (first_block cfg seconds reason) previous) <= inject_Z (block_bound cfg reason))%Q.
Proof.
assert (first_block cfg seconds reason <= inject_Z (block_bound cfg reason))%Q as Hf.
{ eapply Qle_trans; [apply first_block_le|]. rewrite <- Zle_Qle. apply clamp_le_bound. }
unfold escalate. destruct previous as [[]|]; simpl; try exact Hf.
destruct (_ && _) eqn:E; [|exact Hf]. breflect. subst. simpl. apply Q.le_min_r.
Qed.

(** A reported block is what the fleet sees: once a process has recorded
  a block, every process with the guard enabled and a coherent cache reads
  it, until at most the bound of its reason from the time of the report,
  with the reason; the blocks of the other providers are kept. *)
Theorem report_seen family seconds reason w cfg r rcfg :
val_of (config w) = Ok cfg → enabled cfg = true → g_writable w = true →
g_file r = g_file (state_of (report_block family seconds reason w)) → coherent r →
val_of (config r) = Ok rcfg → enabled rcfg = true →
(∃ now s, val_of (blocked_until family r) = Ok (now + s)%Q ∧ (s <= inject_Z (block_bound cfg reason))%Q ∧
   (reason ≠ "quota_exhausted" → s = first_block cfg seconds reason)) ∧
val_of (block_reason family r) = Ok (Some reason) ∧
∀ other, other ≠ family → dget other (file_doc (g_file r)) = dget other (file_doc (g_file w)).
Proof.
intros Hc He Hw Hf Hco Hrc Hre.
destruct (report_block_run family seconds reason w) as (w' & Hr & Hspec). rewrite Hr in Hf. simpl in Hf.
specialize (Hspec cfg Hc). rewrite He, Hw in Hspec. destruct Hspec as (k & now & Hw' & _).
rewrite Hw' in Hf. unfold reported in Hf.
pose proof (escalate_le cfg reason now seconds (dget family (file_doc (g_file w)))) as Hle.
assert (reason ≠ "quota_exhausted" →
  fst (escalate cfg reason now (first_block cfg seconds reason) (dget family (file_doc (g_file w)))) =
  first_block cfg seconds reason) as Hne.
{ intros Hn. unfold escalate. rewrite bool_decide_eq_false_2 by done. by destruct (dget _ _) as [[]|]. }
destruct (escalate _ _ _ _ _) as [s n]. simpl in Hle, Hne.
destruct (blocked_until_run family r) as (u & r1 & Hu & Hu').
destruct (block_reason_run family r) as (re & r2 & Hb & Hb').
specialize (Hu' rcfg Hrc). rewrite Hre in Hu'. specialize (Hu' Hco). specialize (Hb' rcfg Hrc Hre Hco).
rewrite Hf in *. cbn [file_doc] in *. rewrite dget_dset_eq in Hu', Hb'. split_and!.
- exists now, s. rewrite Hu. simpl. split_and!; [by rewrite Hu'|exact Hle|done].
- rewrite Hb. simpl. by rewrite Hb'.
- intros other Hother. by apply dget_dset_ne.
Qed.

(** Nothing in the guard stops a healthy call: no read or report raises;
  a disabled guard, and one whose file is missing or cannot be opened, says
  that nothing is blocked; a disabled or unwritable guard leaves the file
  alone. *)
Theorem guard_fails_open family seconds reason w :
is_ok (val_of (blocked_remaining family w)) = true ∧
is_ok (val_of (block_reason family w)) = true ∧
val_of (report_block family seconds reason w) = Ok tt ∧
∀ cfg, val_of (config w) = Ok cfg →
  (enabled cfg = false ∨ g_file w = FMissing ∨ g_file w = FDenied →
     val_of (blocked_until family w) = Ok 0%Q) ∧
  (enabled cfg = false ∨ g_writable w = false →
     g_file (state_of (report_block family seconds reason w)) = g_file w).
Proof.
destruct (blocked_remaining_run family w) as (u & t & w1 & Hu & Hr).
destruct (block_reason_run family w) as (re & w2 & Hb & _).
destruct (report_block_run family seconds reason w) as (w3 & Hrep & Hspec).
rewrite Hr, Hb, Hrep. split_and!; [done..|]. intros cfg Hc. specialize (Hspec cfg Hc). split.
- intros Hcase. destruct (blocked_until_run family w) as (u' & w4 & Hu' & Hs). rewrite Hu'. simpl.
  specialize (Hs cfg Hc). destruct (enabled cfg); [|by rewrite Hs].
  destruct Hcase as [?|[Hf|Hf]]; [done|..]; rewrite Hs; rewrite ?Hf; try done; intros k c d; by rewrite Hf.
- intros [He|He]; rewrite He in Hspec; simpl in Hspec; [done|]. by rewrite andb_false_r in Hspec.
Qed.

(** [k] reports in a row of an exhausted quota. *)
Fixpoint quota_reports (k : nat) (family : string) (seconds : option Q) : M guard_world unit :=
match k with
| O => mret tt
| S k' => _ ← quota_reports k' family seconds; report_block family seconds "quota_exhausted"
end.

Lemma doubled_min q m k :
(0 <= m)%Q →
Qmin (Qmin (q * inject_Z (2 ^ Z.of_nat k)) m * 2) m == Qmin (q * inject_Z (2 ^ Z.of_nat (S k))) m.
Proof.
intros Hm. rewrite Nat2Z.inj_succ, Z.pow_succ_r by lia. rewrite inject_Z_mult. change (inject_Z 2) with 2%Q.
set (x := inject_Z (2 ^ Z.of_nat k)). set (a := (q * x)%Q).
assert (q * (2 * x) == a * 2)%Q as -> by (unfold a; ring).
destruct (Q.min_spec a m) as [[? ->]|[? ->]]; [done|].
destruct (Q.min_spec (m * 2) m) as [[? ->]|[? ->]], (Q.min_spec (a * 2) m) as [[? ->]|[? ->]]; lra.
Qed.

(** The first block of an exhausted quota is within its window. *)
Lemma first_quota_bounds cfg seconds :
(0 ≤ quota_block_seconds cfg)%Z → (0 ≤ max_quota_block_seconds cfg)%Z → (0 ≤ default_block_seconds cfg)%Z →
(0 <= first_block cfg seconds "quota_exhausted" <= inject_Z (max_quota_block_seconds cfg))%Q.
Proof.
intros Hq Hm Hd. split.
- unfold first_block. apply Q.min_glb.
  + rewrite (Zle_Qle 0) in Hd. destruct seconds as [q|]; [|done].
    destruct (Qle_bool q 0) eqn:E; [done|]. apply Qlt_le_weak, Qnot_le_lt. intros ?%Qle_bool_iff. congruence.
  + unfold clamp_s. simpl. rewrite <- (Zle_Qle 0). lia.
- eapply Qle_trans; [apply first_block_le|]. rewrite <- Zle_Qle. unfold clamp_s. simpl. lia.
Qed.

(** A report that follows a block of [s] seconds within the grace. *)
Lemma escalate_again cfg block_s now t s n :
(0 <= s)%Q → (now <= t + QUOTA_RECURRENCE_GRACE_S)%Q →
escalate cfg "quota_exhausted" now block_s (Some (JObj (block_entry t s "quota_exhausted" (Z.of_nat (S n))))) =
  (Qmin (s * 2) (inject_Z (max_quota_block_seconds cfg)), Z.of_nat (S (S n))).
Proof.
intros Hs Hnow.
assert (recurring "quota_exhausted" now (block_entry t s "quota_exhausted" (Z.of_nat (S n))) = true) as Hrec.
{ unfold recurring. apply andb_true_iff. split; [done|]. cbn. apply Qle_bool_iff. lra. }
unfold escalate. rewrite Hrec, bool_decide_eq_true_2 by done. cbn [andb]. f_equal.
unfold previous_consecutive. change (int_of _) with (Some (Z.of_nat (S n))). cbn iota beta.
destruct (Z.ltb_spec (Z.of_nat (S n)) 1); lia.
Qed.

(** Repeated quota failures back off exponentially: when [k + 1] of them
  are reported for a family that has no entry, each within the grace of the
  block before it, the last block is recorded as the [k + 1]-th in a row and
  lasts [2 ^ k] times the first one, up to the configured maximum. *)
Theorem quota_escalation k family seconds cfg w :
g_explicit w = Some cfg → enabled cfg = true → g_writable w = true →
(0 ≤ quota_block_seconds cfg)%Z → (0 ≤ max_quota_block_seconds cfg)%Z → (0 ≤ default_block_seconds cfg)%Z →
dget family (file_doc (g_file w)) = None →
(∀ n, time_at (S (S n)) <= time_at n + QUOTA_RECURRENCE_GRACE_S)%Q →
let first := first_block cfg seconds "quota_exhausted" in
∃ now s, dget family (file_doc (g_file (state_of (quota_reports (S k) family seconds w)))) =
    Some (JObj (block_entry now s "quota_exhausted" (Z.of_nat (S k)))) ∧
  s == Qmin (first * inject_Z (2 ^ Z.of_nat k)) (inject_Z (max_quota_block_seconds cfg)).
Proof.
intros Hex He Hw Hq Hm Hd Hnone Hclock first.
destruct (first_quota_bounds cfg seconds Hq Hm Hd) as [Hfirst Hle]. fold first in Hfirst, Hle.
enough (∃ w' now s, quota_reports (S k) family seconds w = (Ok tt, w') ∧
    dget family (file_doc (g_file w')) = Some (JObj (block_entry now s "quota_exhausted" (Z.of_nat (S k)))) ∧
    s == Qmin (first * inject_Z (2 ^ Z.of_nat k)) (inject_Z (max_quota_block_seconds cfg)) ∧
    g_explicit w' = Some cfg ∧ g_writable w' = true ∧
    ∃ n, now = time_at n ∧ g_tick w' = S (S n)) as (w' & now & s & -> & Hdoc & Hs & _).
{ exists now, s. done. }
assert (∀ v, g_explicit v = Some cfg → val_of (config v) = Ok cfg) as Hcfg.
{ intros v Hv. unfold config. by rewrite Hv. }
induction k as [|k IH].
- destruct (report_block_run family seconds "quota_exhausted" w) as (w' & Hr & Hspec).
  specialize (Hspec cfg (Hcfg w Hex)). rewrite He, Hw in Hspec. destruct Hspec as (key & now & Hf & Hx).
  destruct (Hx Hex) as (-> & Hex' & Htick & Hw').
  exists w', (time_at (g_tick w)), first. split_and!; [exact Hr| | |done|done|by eexists].
  + rewrite Hf. cbn [file_doc]. unfold reported. rewrite Hnone. cbn [escalate]. by rewrite dget_dset_eq.
  + change (inject_Z (2 ^ Z.of_nat 0)) with 1%Q. rewrite Qmult_1_r. symmetry. by apply Q.min_l.
- destruct IH as (w1 & now1 & s1 & Hrun & Hdoc & Hs1 & Hex1 & Hw1 & n & -> & Htick).
  destruct (report_block_run family seconds "quota_exhausted" w1) as (w' & Hr & Hspec).
  specialize (Hspec cfg (Hcfg w1 Hex1)). rewrite He, Hw1 in Hspec. destruct Hspec as (key & now & Hf & Hx).
  destruct (Hx Hex1) as (-> & Hex' & Htick' & Hw').
  assert (0 <= s1)%Q as Hs1pos.
  { rewrite Hs1. apply Q.min_glb; [apply Qmult_le_0_compat; [done|]; rewrite <- (Zle_Qle 0); lia|].
    by rewrite <- (Zle_Qle 0). }
  exists w', (time_at (g_tick w1)), (Qmin (s1 * 2) (inject_Z (max_quota_block_seconds cfg))).
  split_and!; [| | |done|done|by eexists].
  + cbn [quota_reports]. run_unfold. cbn [quota_reports] in Hrun. run_unfold. by rewrite Hrun.
  + rewrite Hf. cbn [file_doc]. unfold reported. rewrite Hdoc, Htick, escalate_again by done. by rewrite dget_dset_eq.
  + rewrite Hs1. apply doubled_min. by rewrite <- (Zle_Qle 0).
Qed.
End theorems.
