(* ===== verification/Activity.v ===== *)
(** * Reading the activity log ([core/memory/activity.py])

    The log is one file of JSON lines per day.  Modelled is the day-based read
    ([_load_entries] with neither [hours] nor [since]/[until], and [recent]),
    which the message limiters use.  A line is what its text parses to; a
    field of an entry has the type the dataclass declares, a line with another
    type in the time or kind field counts as malformed. *)

From stdpp Require Import prelude strings list sorting.
From S2P Require Import Prelude PyValue.

Definition EVENT_TYPE_ALIASES : list (string * string) :=
  [("dm_sent", "message_sent"); ("dm_received", "message_received")].

(** [resolve_type_filter]: a filter matches the old and the new names. *)
Definition type_aliases (t : string) : list string :=
  t :: omap (λ '(old, new), if bool_decide (t = new) then Some old
                            else if bool_decide (t = old) then Some new else None) EVENT_TYPE_ALIASES.
Definition resolve_type_filter (types : option (list string)) : option (list string) :=
  match types with
  | Some ts => Some (ts ≫= type_aliases)
  | None => None
  end.

Record ActivityEntry := mk_activity {
  ts : string;
  type : string;
  content : string;
  summary : string;
  from_person : string;
  to_person : string;
  channel : string;
  tool : string;
  via : string;
  origin : string;
  ctx : string;
  line_number : nat
}.

Inductive log_line :=
| Blank
| Oversized
| NotJson
| Line (j : json).

Inductive day_file :=
| NoFile
| Unreadable
| DayLog (lines : list log_line).

(** [raw.get(k, raw.get(k'))]. *)
Definition get_either (k k' : string) (raw : dict) : json := dget_default k (dget_none k' raw) raw.

Definition involves (raw : dict) (name : string) : bool :=
  py_eq (get_either "from" "from_person" raw) (JStr name) ||
  py_eq (get_either "to" "to_person" raw) (JStr name) ||
  py_eq (dget_none "channel" raw) (JStr name).

(** [raw[new] = raw.pop(old)]. *)
Definition rename (old new : string) (raw : dict) : dict :=
  match dget old raw with
  | Some v => dset new v (dpop old raw)
  | None => raw
  end.
(** The same, only when [new] is not there yet. *)
Definition rename_missing (old new : string) (raw : dict) : dict :=
  if dhas old raw && negb (dhas new raw) then rename old new raw else raw.

Definition text_field (k : string) (raw : dict) : string := default "" (str_of (dget_default k (JStr "") raw)).

Definition entry_of (n : nat) (raw : dict) : option ActivityEntry :=
  match dget "ts" raw, dget "type" raw with
  | Some (JStr t), Some (JStr ty) =>
      Some (mk_activity t ty (text_field "content" raw) (text_field "summary" raw) (text_field "from_person" raw)
              (text_field "to_person" raw) (text_field "channel" raw) (text_field "tool" raw) (text_field "via" raw)
              (text_field "origin" raw) (text_field "ctx" raw) n)
  | _, _ => None
  end.

(** One line: the entry it contributes, if any. *)
Definition read_line (type_set : option (list string)) (involving : option string) (n : nat) (l : log_line) :
    option ActivityEntry :=
  match l with
  | Line (JObj raw0) =>
      let raw := rename_missing "event" "type" raw0 in
      let wrong_type := match type_set with
                        | Some (s :: ss) => negb (any (λ t, py_eq (dget_none "type" raw) (JStr t)) (s :: ss))
                        | _ => false
                        end in
      if wrong_type then None else
      let elsewhere := match involving with
                       | Some name => str_truthy name && negb (involves raw name)
                       | None => false
                       end in
      if elsewhere then None else
      entry_of n (rename "to" "to_person" (rename "from" "from_person" (rename_missing "timestamp" "ts" raw)))
  | _ => None
  end.

Fixpoint read_lines (type_set : option (list string)) (involving : option string) (n : nat) (lines : list log_line) :
    list ActivityEntry :=
  match lines with
  | [] => []
  | l :: rest =>
      match read_line type_set involving n l with
      | Some e => e :: read_lines type_set involving (S n) rest
      | None => read_lines type_set involving (S n) rest
      end
  end.

(** [entries.sort(key=lambda e: e.ts)], which is stable. *)
Fixpoint insert_ts (e : ActivityEntry) (l : list ActivityEntry) : list ActivityEntry :=
  match l with
  | [] => [e]
  | x :: l' => if String.leb (ts e) (ts x) then e :: l else x :: insert_ts e l'
  end.
Definition sort_ts (l : list ActivityEntry) : list ActivityEntry := foldr insert_ts [] l.

(** The log directory: the file of each day. *)
Definition load_entries (log : Z → day_file) (today : Z) (days : nat) (types : option (list string))
    (involving : option string) : list ActivityEntry :=
  sort_ts (seq 0 days ≫= λ offset,
    match log (today - Z.of_nat offset)%Z with
    | DayLog lines => read_lines (resolve_type_filter types) involving 1 lines
    | _ => []
    end).

Definition recent (log : Z → day_file) (today : Z) (days limit : nat) (types : option (list string))
    (involving : option string) : list ActivityEntry :=
  let entries := load_entries log today days types involving in
  drop (length entries - limit) entries.

(* ------------------------------------------------------------------ *)
(** ** Facts *)

Lemma insert_ts_perm e l : insert_ts e l ≡ₚ e :: l.
Proof.
  induction l as [|x l IH]; simpl; [done|]. destruct (String.leb _ _); [done|]. rewrite IH. apply Permutation_swap.
Qed.
Lemma sort_ts_perm l : sort_ts l ≡ₚ l.
Proof. unfold sort_ts. induction l as [|e l IH]; simpl; [done|]. by rewrite insert_ts_perm, IH. Qed.

Lemma recent_length log today days limit types involving :
  length (recent log today days limit types involving) ≤ limit.
Proof. unfold recent. rewrite length_drop. lia. Qed.

Lemma read_lines_elem type_set involving n lines e :
  e ∈ read_lines type_set involving n lines →
  ∃ m l, l ∈ lines ∧ read_line type_set involving m l = Some e.
Proof.
  revert n. induction lines as [|l lines IH]; intros n; simpl; [by intros ?%not_elem_of_nil|].
  assert (e ∈ read_lines type_set involving (S n) lines →
          ∃ m l', l' ∈ l :: lines ∧ read_line type_set involving m l' = Some e) as Hrest.
  { intros (m & l' & ? & ?)%IH. exists m, l'. split; [by right|done]. }
  destruct (read_line _ _ n l) eqn:Er; [|done]. intros [->|?]%elem_of_cons; [|by apply Hrest].
  exists n, l. split; [left|done].
Qed.

Lemma recent_elem log today days limit types involving e :
  e ∈ recent log today days limit types involving →
  ∃ offset lines n l, offset < days ∧ log (today - Z.of_nat offset)%Z = DayLog lines ∧ l ∈ lines ∧
    read_line (resolve_type_filter types) involving n l = Some e.
Proof.
  unfold recent, load_entries. intros He%(subseteq_drop _ _ _).
  rewrite sort_ts_perm, list_elem_of_bind in He. destruct He as (offset & He & Hin).
  apply elem_of_seq in Hin. destruct (log _) as [| |lines] eqn:El; [by apply not_elem_of_nil in He..|].
  apply read_lines_elem in He as (m & l & ? & ?). exists offset, lines, m, l. split_and!; [lia|done..].
Qed.

Lemma dget_rename k old new raw : k ≠ old → k ≠ new → dget k (rename old new raw) = dget k raw.
Proof.
  intros. unfold rename. destruct (dget old raw); [|done]. by rewrite dget_dset_ne, dget_dpop_ne.
Qed.
Lemma dget_rename_missing k old new raw : k ≠ old → k ≠ new → dget k (rename_missing old new raw) = dget k raw.
Proof. intros. unfold rename_missing. destruct (_ && _); [by apply dget_rename|done]. Qed.

(** An entry of a filtered read is of one of the types asked for, or of an
    alias of one. *)
Lemma read_line_type t ts involving n l e :
  read_line (resolve_type_filter (Some (t :: ts))) involving n l = Some e →
  type e ∈ (t :: ts) ≫= type_aliases.
Proof.
  destruct l as [| | |[| | | | | |raw0]]; try done. cbn [read_line].
  set (raw := rename_missing _ _ raw0).
  change (resolve_type_filter (Some (t :: ts))) with (Some ((t :: ts) ≫= type_aliases)).
  destruct ((t :: ts) ≫= type_aliases) as [|s ss] eqn:Es; [done|]. clear Es.
  destruct (negb _) eqn:Ea; [done|]. apply negb_false_iff, any_true in Ea as (x & Hx & Heq%py_eq_str).
  destruct (match involving with Some _ => _ | None => _ end); [done|]. unfold entry_of.
  rewrite (dget_rename "type"), (dget_rename "type"), (dget_rename_missing "type") by done.
  unfold dget_none, dget_default in Heq. destruct (dget "type" raw) as [v|]; [|done]. simpl in Heq. subst v.
  destruct (dget "ts" _) as [[]|]; try done. by intros [= <-].
Qed.
