(* ===== verification/Cascade.v ===== *)
(** * Limits on messages between animas ([core/cascade_limiter.py])

    The hourly and daily limits on what an anima sends and the limit on the
    depth of an exchange, both derived from the activity log, and the limits
    of a role ([resolve_outbound_limits] of [core/config/schemas.py]).  The
    text of a refusal is represented by the figures it reports.  Theorems: the
    loops decide by the entries they should, refuse when the log cannot be
    read, and cannot see more entries than they read. *)

From stdpp Require Import prelude strings list.
From Stdlib Require Import QArith Lqa.
From S2P Require Import Prelude PyValue TaskQueue Activity.
Open Scope nat_scope.

(* ------------------------------------------------------------------ *)
(** ** Limits of a role *)

Record outbound_limits := mk_limits {
  max_outbound_per_hour : Z;
  max_outbound_per_day : Z;
  max_recipients_per_run : Z
}.

Definition ROLE_OUTBOUND_DEFAULTS : list (string * outbound_limits) :=
  [("manager", mk_limits 60 300 10); ("engineer", mk_limits 40 200 5); ("writer", mk_limits 30 150 3);
   ("researcher", mk_limits 30 150 3); ("ops", mk_limits 20 80 2); ("general", mk_limits 15 50 2)].
Definition general_limits : outbound_limits := mk_limits 15 50 2.

Definition positive_or (default_ : Z) (v : json) : Z :=
  match int_of v with Some z => if (0 <? z)%Z then z else default_ | None => default_ end.

(** [status]: the parsed status file, if there is a readable one. *)
Definition resolve_outbound_limits (status : option json) : result outbound_limits :=
  match status with
  | None => Ok general_limits
  | Some (JObj data) =>
      match dget_default "role" (JStr "general") data with
      | JList _ | JObj _ => Err (TypeError "unhashable type")
      | role =>
          let role_defaults := default general_limits (str_of role ≫= λ r, dget r ROLE_OUTBOUND_DEFAULTS) in
          let field k d := positive_or d (dget_none k data) in
          Ok (mk_limits (field "max_outbound_per_hour" (max_outbound_per_hour role_defaults))
                (field "max_outbound_per_day" (max_outbound_per_day role_defaults))
                (field "max_recipients_per_run" (max_recipients_per_run role_defaults)))
      end
  | Some _ => Err (AttributeError "get")
  end.

(* ------------------------------------------------------------------ *)
(** ** The limiter *)

Record ConversationDepthLimiter := mk_limiter {
  window_s : Q;
  max_depth : Z;
  max_per_hour_override : option Z;
  max_per_day_override : option Z;
  outbound_limit_enabled : bool
}.

(** The heartbeat settings the limiter starts from. *)
Record heartbeat_limits := mk_heartbeat { depth_window_s : Q; hb_max_depth : Z; hb_outbound_limit_enabled : bool }.
Definition new_limiter (cfg : heartbeat_limits) (window : option Q) (depth per_hour per_day : option Z) :
    ConversationDepthLimiter :=
  mk_limiter (default (depth_window_s cfg) window) (default (hb_max_depth cfg) depth) per_hour per_day
    (hb_outbound_limit_enabled cfg).

Inductive outbound_check :=
| Allowed
| LogUnreadable
| HourlyLimit (max hourly daily : Z) (reset : option Q)
| DailyLimit (max daily : Z).

Section limiter.
Context `{Calendar}.

Definition entry_instant (e : ActivityEntry) : option Q := ensure_aware <$> fromisoformat (ts e).

(** The counting loop: hourly count, daily count, earliest time of the hour. *)
Definition count_entry (sender : string) (now : Q) (acc : Z * Z * option Q) (e : ActivityEntry) : Z * Z * option Q :=
let '(hourly, daily, earliest) := acc in
if bool_decide (to_person e = sender) then acc else
match entry_instant e with
| None => acc
| Some t =>
    if negb (Qle_bool (now - 86400) t) then acc else
    if negb (Qle_bool (now - 3600) t) then (hourly, (daily + 1)%Z, earliest) else
    ((hourly + 1)%Z, (daily + 1)%Z,
     match earliest with
     | None => Some t
     | Some m => if negb (Qle_bool m t) then Some t else earliest
     end)
end.

Definition outbound_types : option (list string) := Some ["dm_sent"; "message_sent"; "channel_post"].

(** [activity]: the log of the sender, unless it cannot be opened; [limits]:
  what [resolve_outbound_limits] yields for the sender. *)
Definition check_global_outbound (lim : ConversationDepthLimiter) (sender : string) (limits : result outbound_limits)
  (activity : option (Z → day_file)) (today : Z) (now : Q) : result outbound_check :=
if negb (outbound_limit_enabled lim) then Ok Allowed else
let resolved :=
  match max_per_hour_override lim, max_per_day_override lim with
  | Some h, Some d => Ok (h, d)
  | oh, od =>
      match limits with
      | Err e => Err e
      | Ok l => Ok (default (max_outbound_per_hour l) oh, default (max_outbound_per_day l) od)
      end
  end in
match resolved with
| Err e => Err e
| Ok (max_per_hour, max_per_day) =>
    match activity with
    | None => Ok LogUnreadable
    | Some log =>
        let entries := recent log today 2 500 outbound_types None in
        let '(hourly, daily, earliest) := foldl (count_entry sender now) (0%Z, 0%Z, None) entries in
        if (max_per_hour <=? hourly)%Z
        then Ok (HourlyLimit max_per_hour hourly daily ((λ t, t + 3600)%Q <$> earliest))
        else if (max_per_day <=? daily)%Z then Ok (DailyLimit max_per_day daily)
        else Ok Allowed
    end
end.

(** The exchanges within the window, counted in a loop. *)
Definition count_exchange (cutoff : Q) (count : Z) (e : ActivityEntry) : Z :=
match entry_instant e with
| Some t => if Qle_bool cutoff t then (count + 1)%Z else count
| None => count
end.
Definition exchange_types : option (list string) := Some ["dm_sent"; "dm_received"].
Definition exchange_count (lim : ConversationDepthLimiter) (log : Z → day_file) (today : Z) (now : Q) (peer : string) : Z :=
foldl (count_exchange (now - window_s lim)) 0%Z (recent log today 1 200 exchange_types (Some peer)).

Definition check_depth (lim : ConversationDepthLimiter) (receiver : string) (activity : option (Z → day_file))
  (today : Z) (now : Q) : bool :=
match activity with
| None => false
| Some log => if (max_depth lim <=? exchange_count lim log today now receiver)%Z then false else true
end.
Definition current_depth (lim : ConversationDepthLimiter) (b : string) (activity : option (Z → day_file))
  (today : Z) (now : Q) : Z :=
match activity with
| None => 0
| Some log => exchange_count lim log today now b
end.
End limiter.

(* ------------------------------------------------------------------ *)
(** ** What the limits mean *)

Section theorems.
Context `{Calendar}.

(** An entry to somebody else, at most [s] seconds old. *)
Definition sent_within (sender : string) (now s : Q) (e : ActivityEntry) : bool :=
negb (bool_decide (to_person e = sender)) &&
match entry_instant e with Some t => Qle_bool (now - s) t | None => false end.
Definition sent_count (sender : string) (now s : Q) (l : list ActivityEntry) : Z :=
Z.of_nat (length (filter (λ e, sent_within sender now s e = true) l)).

Lemma sent_count_cons sender now s e l :
sent_count sender now s (e :: l) = ((if sent_within sender now s e then 1 else 0) + sent_count sender now s l)%Z.
Proof.
unfold sent_count. rewrite filter_cons. destruct (sent_within sender now s e); case_decide; try done. simpl. lia.
Qed.

(** The reset time the loop finds is that of an entry of the last hour. *)
Definition earliest_ok (now : Q) (h : Z) (earliest : option Q) : Prop :=
match earliest with Some m => (now - 3600 <= m)%Q | None => (h ≤ 0)%Z end.

Lemma count_entry_spec sender now l h d m :
earliest_ok now h m →
∃ m', foldl (count_entry sender now) (h, d, m) l =
    ((h + sent_count sender now 3600 l)%Z, (d + sent_count sender now 86400 l)%Z, m') ∧
  earliest_ok now (h + sent_count sender now 3600 l)%Z m'.
Proof.
revert h d m. induction l as [|e l IH]; intros h d m Hm.
{ exists m. unfold sent_count. simpl. rewrite !Z.add_0_r. done. }
rewrite !sent_count_cons. cbn [foldl]. unfold count_entry at 2, sent_within.
destruct (bool_decide (to_person e = sender)); [simpl; by apply IH|].
destruct (entry_instant e) as [t|]; [|simpl; by apply IH]. cbn [negb andb].
destruct (Qle_bool (now - 86400) t) eqn:Ed; cbn [negb andb].
- destruct (Qle_bool (now - 3600) t) eqn:Eh; cbn [negb andb].
  + apply Qle_bool_iff in Eh. set (m1 := match m with None => _ | Some _ => _ end).
    destruct (IH (h + 1)%Z (d + 1)%Z m1) as (m' & -> & Hm').
    { unfold earliest_ok, m1 in *. destruct m as [q|]; [|done]. by destruct (negb _). }
    exists m'. rewrite !Z.add_assoc. done.
  + destruct (IH h (d + 1)%Z m Hm) as (m' & -> & Hm'). exists m'. rewrite Z.add_0_l, !Z.add_assoc. done.
- destruct (Qle_bool (now - 3600) t) eqn:Eh; [|by apply IH].
  apply Qle_bool_iff in Eh. assert (now - 86400 <= t)%Q as Hc by lra.
  apply Qle_bool_iff in Hc. congruence.
Qed.

Lemma sent_count_bound sender now s l : (sent_count sender now s l ≤ Z.of_nat (length l))%Z.
Proof. unfold sent_count. pose proof (length_filter (λ e, sent_within sender now s e = true) l). lia. Qed.

(** What the sender's log shows of its messages. *)
Definition outbound_entries (log : Z → day_file) (today : Z) : list ActivityEntry :=
recent log today 2 500 outbound_types None.

Lemma check_outbound_run lim sender l log today now :
outbound_limit_enabled lim = true →
let h := sent_count sender now 3600 (outbound_entries log today) in
let d := sent_count sender now 86400 (outbound_entries log today) in
let mh := default (max_outbound_per_hour l) (max_per_hour_override lim) in
let md := default (max_outbound_per_day l) (max_per_day_override lim) in
∃ m, earliest_ok now h m ∧
  check_global_outbound lim sender (Ok l) (Some log) today now =
    Ok (if (mh <=? h)%Z then HourlyLimit mh h d ((λ t, t + 3600)%Q <$> m)
        else if (md <=? d)%Z then DailyLimit md d else Allowed).
Proof.
intros He h d mh md.
destruct (count_entry_spec sender now (outbound_entries log today) 0 0 None) as (m & Hf & Hm); [done|].
rewrite Z.add_0_l in Hm. exists m. split; [done|]. unfold check_global_outbound. rewrite He. cbn [negb].
fold (outbound_entries log today). unfold h, d, mh, md in *.
destruct (max_per_hour_override lim) as [oh|], (max_per_day_override lim) as [od|]; simpl;
  rewrite Hf, !Z.add_0_l; by repeat case_match.
Qed.

(** The outbound gate: an enabled limiter that can read the log lets a
  message out exactly when the sender's messages to others in the last hour
  and in the last day are both under their limits; a refusal for the hour
  reports a time to retry that is not in the past; an unreadable log refuses;
  an exchange is let on exactly when its depth, which counts the exchanges
  of the window, is under the maximum, and never with an unreadable log. *)
Theorem outbound_gate lim sender l log today now receiver :
outbound_limit_enabled lim = true →
let h := sent_count sender now 3600 (outbound_entries log today) in
let d := sent_count sender now 86400 (outbound_entries log today) in
let mh := default (max_outbound_per_hour l) (max_per_hour_override lim) in
let md := default (max_outbound_per_day l) (max_per_day_override lim) in
(check_global_outbound lim sender (Ok l) (Some log) today now = Ok Allowed ↔ (h < mh)%Z ∧ (d < md)%Z) ∧
(∀ a b c reset, check_global_outbound lim sender (Ok l) (Some log) today now = Ok (HourlyLimit a b c reset) →
   (0 < b)%Z → ∃ r, reset = Some r ∧ (now <= r)%Q) ∧
check_global_outbound lim sender (Ok l) None today now = Ok LogUnreadable ∧
(check_depth lim receiver (Some log) today now = true ↔
   (current_depth lim receiver (Some log) today now < max_depth lim)%Z) ∧
check_depth lim receiver None today now = false.
Proof.
intros He h d mh md. destruct (check_outbound_run lim sender l log today now He) as (m & Hm & Hrun).
fold h d mh md in Hm, Hrun. rewrite Hrun. split_and!.
- destruct (Z.leb_spec mh h), (Z.leb_spec md d); split; try done; intros; try lia.
- intros a b c reset. destruct (Z.leb mh h); [|by destruct (Z.leb md d)]. intros [= <- <- <- <-] Hb.
  destruct m as [t|]; simpl in *; [|lia]. exists (t + 3600)%Q. split; [done|]. lra.
- unfold check_global_outbound. rewrite He. by destruct (max_per_hour_override lim), (max_per_day_override lim).
- simpl. destruct (Z.leb_spec (max_depth lim) (exchange_count lim log today now receiver)); split; try done; lia.
- done.
Qed.

(** Limits above the 500 entries the gate reads are no limits: with both
  above 500 every message of a readable log is let out. *)
Theorem limit_above_window lim sender l log today now :
(500 < default (max_outbound_per_hour l) (max_per_hour_override lim))%Z →
(500 < default (max_outbound_per_day l) (max_per_day_override lim))%Z →
check_global_outbound lim sender (Ok l) (Some log) today now = Ok Allowed.
Proof.
intros Hh Hd. destruct (outbound_limit_enabled lim) eqn:He; [|unfold check_global_outbound; by rewrite He].
destruct (check_outbound_run lim sender l log today now He) as (m & _ & ->).
pose proof (recent_length log today 2 500 outbound_types None) as Hlen.
fold (outbound_entries log today) in Hlen.
pose proof (sent_count_bound sender now 3600 (outbound_entries log today)).
pose proof (sent_count_bound sender now 86400 (outbound_entries log today)).
destruct (Z.leb_spec (default (max_outbound_per_hour l) (max_per_hour_override lim))
                     (sent_count sender now 3600 (outbound_entries log today))); [lia|].
by destruct (Z.leb_spec (default (max_outbound_per_day l) (max_per_day_override lim))
                     (sent_count sender now 86400 (outbound_entries log today))); [lia|].
Qed.
End theorems.
