(* ===== verification/Mailbox.v ===== *)
(** * The mailboxes of the animas ([core/messenger.py])

    Every anima has a directory [shared/inbox/<name>/] with one JSON file per
    unread message, and the archives [processed/], [quarantine/] and
    [expired/] below it.  A directory is a finite map from file names to
    files; a rename replaces a file of the same name, as on POSIX.  Reading a
    message goes through [loads] of the development; the checks and defaults
    of the pydantic model are the parameter [Codec].  The order in which the
    operating system lists a directory is the parameter [Listing].

    The operations look every file up again before they move it.  Directories
    that cannot be created, failures of [stat] and the logging are not
    modelled. *)

From Stdlib Require Import Ascii QArith.
From stdpp Require Import prelude strings list gmap sorting pretty.
From S2P Require Import Prelude PyValue PyText JsonText TaskQueue.
Open Scope nat_scope.

(* ------------------------------------------------------------------ *)
(** ** Messages *)

Definition EXTERNAL_PLATFORM_SOURCES : list string := ["slack"; "chatwork"; "googlechat"; "discord"; "zoom"].

Record Message := mk_message {
  id : string;
  thread_id : string;
  reply_to : string;
  from_person : string;
  to_person : string;
  type : string;
  content : string;
  attachments : list string;
  intent : string;
  timestamp : datetime;
  source : string;
  source_message_id : string;
  external_user_id : string;
  external_channel_id : string;
  external_thread_ts : string;
  origin_chain : list string;
  meta : dict
}.

(** [data[new] = data.pop(old)] when only the old key is there. *)
Definition rename_key (old new : string) (data : dict) : dict :=
  match dget old data with
  | Some v => if dhas new data then data else dset new v (dpop old data)
  | None => data
  end.
Definition _normalize_legacy_keys (data : dict) : dict :=
  rename_key "ts" "timestamp" (rename_key "to" "to_person" (rename_key "from" "from_person" data)).

(** The pydantic model behind [Message]: the checks and defaults applied to
    normalised fields (the clock gives the defaults of [id] and [timestamp]),
    and [model_dump_json]. *)
Class Codec := {
  validate : Q → dict → option Message;
  model_dump_json : Message → string
}.

(** The order in which a directory is listed. *)
Class Listing (F : Type) := {
  glob_order : gmap string F → list string;
  glob_order_keys : ∀ d, glob_order d ≡ₚ (map_to_list d).*1
}.

(** [Path.stem] and [Path.suffix] of a file name. *)
Definition dot : ascii := "."%char.
Fixpoint last_dot (s : string) : option (string * string) :=
  match s with
  | EmptyString => None
  | String c s' =>
      match last_dot s' with
      | Some (a, b) => Some (String c a, b)
      | None => if bool_decide (c = dot) then Some ("", s') else None
      end
  end.
Definition stem_suffix (name : string) : string * string :=
  match last_dot name with
  | Some (a, b) => if str_truthy a && str_truthy b then (a, String dot b) else (name, "")
  | None => (name, "")
  end.
Definition stem (name : string) : string := fst (stem_suffix name).
Definition suffix (name : string) : string := snd (stem_suffix name).

(* ------------------------------------------------------------------ *)
(** ** Directories *)

Record file := mk_file { text : string; mtime : Q }.
Abbreviation folder := (gmap string file).

Record mailbox := mk_mailbox { inbox : folder; processed : folder; quarantine : folder; expired : folder }.
#[global] Instance mailbox_empty : Empty mailbox := mk_mailbox ∅ ∅ ∅ ∅.

Inductive dir := Inbox | Processed | Quarantine | Expired.
#[global] Instance dir_eq_dec : EqDecision dir.
Proof. solve_decision. Defined.

Definition files (d : dir) (mb : mailbox) : folder :=
  match d with
  | Inbox => inbox mb | Processed => processed mb | Quarantine => quarantine mb | Expired => expired mb
  end.
Definition set_files (d : dir) (f : folder) (mb : mailbox) : mailbox :=
  match d with
  | Inbox => mk_mailbox f (processed mb) (quarantine mb) (expired mb)
  | Processed => mk_mailbox (inbox mb) f (quarantine mb) (expired mb)
  | Quarantine => mk_mailbox (inbox mb) (processed mb) f (expired mb)
  | Expired => mk_mailbox (inbox mb) (processed mb) (quarantine mb) f
  end.

(** [(src / n).rename(dst / n')]. *)
Definition rename (src : dir) (n : string) (dst : dir) (n' : string) : M mailbox unit := λ mb,
  match files src mb !! n with
  | None => (Err (FileNotFoundError n), mb)
  | Some f =>
      let mb := set_files src (delete n (files src mb)) mb in
      (Ok tt, set_files dst (<[n' := f]> (files dst mb)) mb)
  end.

(** One unread message with the name of its file. *)
Record InboxItem := mk_item { msg : Message; path : string }.

Section mailbox.
Context `{FloatText, Calendar, Codec, Listing file}.

(** [json.loads(f.read_text(encoding="utf-8"))]: bytes that are no UTF-8 and
  text that is no JSON raise different errors. *)
Definition read_json (f : file) : result json :=
if utf8_valid (text f)
then match loads (text f) with Some v => Ok v | None => Err (ValueError "JSONDecodeError") end
else Err (ValueError "UnicodeDecodeError").

(** [Message( **data)]. *)
Definition make_message (now : Q) (data : json) : option Message :=
match data with
| JObj d => validate now (_normalize_legacy_keys d)
| _ => None
end.
Definition load_message (now : Q) (f : file) : option Message :=
match read_json f with Ok v => make_message now v | Err _ => None end.

Definition json_names (d : folder) : list string :=
filter (λ n, endswith ".json" n = true) (glob_order d).
Definition sorted_json (d : folder) : list string := merge_sort String.le (json_names d).

Definition has_unread (mb : mailbox) : bool := any (λ _, true) (json_names (inbox mb)).
Definition unread_count (mb : mailbox) : nat := length (json_names (inbox mb)).

(** [_quarantine_file]. *)
Definition _quarantine_file (n : string) : M mailbox bool :=
catch (_ ← rename Inbox n Quarantine n; mret true) (λ _, mret false).

(** The sender names messages are checked against: those of the
  configuration, when it can be read and knows the reader. *)
Definition known_animas (self : string) (cfg : option (list string)) : option (list string) :=
'names ← cfg; if str_in self names then Some names else None.
Definition unknown_sender (known : option (list string)) (m : Message) : bool :=
match known with
| Some names => bool_decide (source m = "anima") && negb (str_in (from_person m) names)
| None => false
end.

Definition accept_file (known : option (list string)) (now : Q) (n : string) : M mailbox (option InboxItem) :=
f ← gets (λ mb, inbox mb !! n);
match f ≫= load_message now with
| None => _ ← _quarantine_file n; mret None
| Some m =>
    if unknown_sender known m
    then _ ← _quarantine_file n; mret None
    else mret (Some (mk_item m n))
end.
Fixpoint accept_files (known : option (list string)) (now : Q) (names : list string) : M mailbox (list InboxItem) :=
match names with
| [] => mret []
| n :: ns =>
    i ← accept_file known now n;
    items ← accept_files known now ns;
    mret (option_list i ++ items)
end.
Definition receive_with_paths (self : string) (cfg : option (list string)) (now : Q) : M mailbox (list InboxItem) :=
names ← gets (λ mb, sorted_json (inbox mb));
accept_files (known_animas self cfg) now names.
Definition receive (self : string) (cfg : option (list string)) (now : Q) : M mailbox (list Message) :=
items ← receive_with_paths self cfg now;
mret (msg <$> items).

(** [archive_paths]: files that are gone are skipped. *)
Fixpoint archive_names (names : list string) : M mailbox nat :=
match names with
| [] => mret 0
| n :: ns =>
    here ← gets (λ mb, bool_decide (is_Some (inbox mb !! n)));
    if here : bool
    then _ ← rename Inbox n Processed n; c ← archive_names ns; mret (S c)
    else archive_names ns
end.
Definition archive_paths (items : list InboxItem) : M mailbox nat := archive_names (path <$> items).

(** [archive_all]: the JSON files, then whatever else is no dot file. *)
Fixpoint rename_all (names : list string) : M mailbox nat :=
match names with
| [] => mret 0
| n :: ns => _ ← rename Inbox n Processed n; c ← rename_all ns; mret (S c)
end.
Definition stray (n : string) : bool := negb (bool_decide (suffix n = ".json")) && negb (startswith "." n).
Definition archive_all : M mailbox nat :=
names ← gets (λ mb, json_names (inbox mb));
count ← rename_all names;
rest ← gets (λ mb, filter (λ n, stray n = true) (glob_order (inbox mb)));
_ ← rename_all rest;
mret count.

(** [archive_from]: a JSON error is logged; text that is no UTF-8 raises a
  [UnicodeDecodeError], and a file whose JSON is no object an
  [AttributeError], which end the call. *)
Fixpoint archive_from_names (sender : string) (names : list string) : M mailbox nat :=
match names with
| [] => mret 0
| n :: ns =>
    f ← gets (λ mb, inbox mb !! n);
    match f with
    | None => archive_from_names sender ns
    | Some f =>
        if negb (utf8_valid (text f)) then raise (ValueError "UnicodeDecodeError") else
        match loads (text f) with
        | None => archive_from_names sender ns
        | Some (JObj d) =>
            if py_eq (dget_none "from_person" d) (JStr sender)
            then _ ← rename Inbox n Processed n; c ← archive_from_names sender ns; mret (S c)
            else archive_from_names sender ns
        | Some _ => raise (AttributeError "get")
        end
    end
end.
Definition archive_from (sender : string) : M mailbox nat :=
names ← gets (λ mb, json_names (inbox mb));
archive_from_names sender names.

(* ------------------------------------------------------------------ *)
(** ** The sweep of stale messages *)

(** [_load_message_for_sweep]: a message whose timestamp alone is bad is
  loaded without it. *)
Definition _load_message_for_sweep (now : Q) (f : file) : result (Message * option datetime) :=
v ← read_json f;
match v with
| JObj data =>
    let has_timestamp := dhas "timestamp" data || dhas "ts" data in
    match make_message now v with
    | Some m => Ok (m, if has_timestamp then Some (timestamp m) else None)
    | None =>
        if negb has_timestamp then Err (ValueError "Message") else
        match make_message now (JObj (dpop "ts" (dpop "timestamp" data))) with
        | Some m => Ok (m, None)
        | None => Err (ValueError "Message")
        end
    end
| _ => Err (ValueError "Inbox message JSON must be an object")
end.

Definition _is_ttl_protected (m : Message) : bool :=
if bool_decide (intent m = "delegation") then true else
if bool_decide (source m = "human") then true else
if str_in (source m) EXTERNAL_PLATFORM_SOURCES
then str_truthy (intent m) || str_truthy (external_channel_id m) || str_truthy (external_user_id m)
else false.

(** The numbered names [stem_2.json], [stem_3.json], ... tried when the name
  is taken; one more than there are files always finds a free one. *)
Definition numbered (n : string) (counter : nat) : string :=
stem n +:+ "_" +:+ pretty counter +:+ suffix n.
Fixpoint free_name (fuel counter : nat) (n : string) (dest : folder) : option string :=
match fuel with
| O => None
| S k => match dest !! numbered n counter with
         | None => Some (numbered n counter)
         | Some _ => free_name k (S counter) n dest
         end
end.
Definition _move_file_to_dir (n : string) (d : dir) : M mailbox string :=
dest ← gets (files d);
match dest !! n with
| None => _ ← rename Inbox n d n; mret n
| Some _ =>
    match free_name (S (size dest)) 2 n dest with
    | Some n' => _ ← rename Inbox n d n'; mret n'
    | None => raise (RuntimeError "numbered names exhausted")
    end
end.

(** What the sweep does with one file. *)
Inductive sweep_outcome := Skipped | SweptExpired | SweptProtected | SweptQuarantined | SweepError.
#[global] Instance sweep_outcome_eq_dec : EqDecision sweep_outcome.
Proof. solve_decision. Defined.

Definition sweep_one (now clock ttl_hours : Q) (n : string) : M mailbox sweep_outcome :=
f ← gets (λ mb, inbox mb !! n);
match f with
| None => mret Skipped
| Some f =>
    match _load_message_for_sweep clock f with
    | Err _ => moved ← _quarantine_file n; mret (if moved : bool then SweptQuarantined else SweepError)
    | Ok (m, stamp) =>
        let message_time := match stamp with Some d => ensure_aware d | None => mtime f end in
        if negb (Qle_bool message_time now) then mret Skipped else
        let age_hours := ((now - message_time) / 3600)%Q in
        if Qle_bool age_hours ttl_hours then mret Skipped else
        if _is_ttl_protected m then mret SweptProtected else
        catch (_ ← _move_file_to_dir n Expired; mret SweptExpired) (λ _, mret Skipped)
    end
end.
Fixpoint sweep_files (now clock ttl_hours : Q) (names : list string) : M mailbox (list sweep_outcome) :=
match names with
| [] => mret []
| n :: ns => o ← sweep_one now clock ttl_hours n; os ← sweep_files now clock ttl_hours ns; mret (o :: os)
end.

(** [_cleanup_archive_dir]. *)
Definition _cleanup_archive_dir (d : dir) (retention_days clock : Q) : M mailbox nat := λ mb,
let cutoff_ts := (clock - retention_days * 86400)%Q in
let kept := filter (λ nf, Qle_bool cutoff_ts (mtime (snd nf)) = true) (files d mb) in
(Ok (size (files d mb) - size kept), set_files d kept mb).

Record sweep_result := mk_sweep {
  n_expired : nat; n_protected : nat; n_quarantined : nat;
  deleted_expired : nat; deleted_processed : nat; deleted_quarantine : nat; n_errors : nat
}.
Definition count (o : sweep_outcome) (os : list sweep_outcome) : nat := length (filter (o =.) os).

Record retention := mk_retention { ttl_hours : Q; expired_days : Q; processed_days : Q; quarantine_days : Q }.
Definition default_retention : retention := mk_retention 24 7 30 30.

(** [sweep_expired]; [now] is its argument, [clock] the time of the call. *)
Definition sweep_expired (now : option Q) (r : retention) (clock : Q) : M mailbox sweep_result :=
names ← gets (λ mb, sorted_json (inbox mb));
os ← sweep_files (default clock now) clock (ttl_hours r) names;
e ← _cleanup_archive_dir Expired (expired_days r) clock;
p ← _cleanup_archive_dir Processed (processed_days r) clock;
q ← _cleanup_archive_dir Quarantine (quarantine_days r) clock;
mret (mk_sweep (count SweptExpired os) (count SweptProtected os) (count SweptQuarantined os) e p q (count SweepError os)).
End mailbox.
