(* ===== verification/MailboxProps.v ===== *)
(** * What the mailbox operations do

    Closed forms of reading, archiving and sweeping a mailbox: which files end
    up in which directory.  Nothing is lost on the way, except what a file of
    the same name replaces in an archive and what the retention deletes. *)

From Stdlib Require Import Ascii QArith.
From stdpp Require Import prelude strings list gmap sorting pretty.
From S2P Require Import Prelude PyValue PyText JsonText JsonRound TaskQueue Mailbox.
Open Scope nat_scope.

(** The files of [d] under the names in [ns], and the others. *)
Definition only (ns : list string) (d : folder) : folder := filter (λ nf, nf.1 ∈ ns) d.
Definition without (ns : list string) (d : folder) : folder := filter (λ nf, nf.1 ∉ ns) d.

Lemma lookup_only ns d n : only ns d !! n = if decide (n ∈ ns) then d !! n else None.
Proof.
  unfold only. case_decide as Hn.
  - destruct (d !! n) as [f|] eqn:E; [by apply map_lookup_filter_Some|].
    apply map_lookup_filter_None. by left.
  - apply map_lookup_filter_None. right. intros f _. done.
Qed.
Lemma lookup_without ns d n : without ns d !! n = if decide (n ∈ ns) then None else d !! n.
Proof.
  unfold without. case_decide as Hn.
  - apply map_lookup_filter_None. right. intros f _ Hf. done.
  - destruct (d !! n) as [f|] eqn:E; [by apply map_lookup_filter_Some|].
    apply map_lookup_filter_None. by left.
Qed.
Lemma only_nil d : only [] d = ∅.
Proof. apply map_eq. intros n. rewrite lookup_only, lookup_empty. by rewrite decide_False by apply not_elem_of_nil. Qed.
Lemma without_nil d : without [] d = d.
Proof. apply map_eq. intros n. rewrite lookup_without. by rewrite decide_False by apply not_elem_of_nil. Qed.

(** Equality of directories, name by name. *)
Ltac folder_eq :=
  let k := fresh "k" in
  apply map_eq; intros k;
  repeat first [rewrite lookup_union | rewrite lookup_only | rewrite lookup_without | rewrite lookup_delete
               | rewrite lookup_insert | rewrite lookup_empty];
  repeat case_decide;
  repeat match goal with
  | H : _ ∈ _ :: _ |- _ => apply elem_of_cons in H as [?|H]
  | H : _ ∉ _ :: _ |- _ => apply not_elem_of_cons in H as [? H]
  end; subst; try done; rewrite ?lookup_union;
  repeat match goal with E : _ !! _ = _ |- _ => rewrite E end;
  rewrite ?(left_id_L None union), ?(right_id_L None union); try done; try set_solver;
  repeat match goal with |- context [?d !! ?n] => destruct (d !! n) end; done.

Section order.
Context `{Listing file}.

Lemma glob_order_lookup (d : folder) n : n ∈ glob_order d ↔ is_Some (d !! n).
Proof.
rewrite (glob_order_keys d). rewrite list_elem_of_fmap. split.
- intros ([k f] & -> & Hk%elem_of_map_to_list). by exists f.
- intros [f Hf]. exists (n, f). split; [done|]. by apply elem_of_map_to_list.
Qed.
Lemma glob_order_NoDup (d : folder) : NoDup (glob_order d).
Proof. rewrite (glob_order_keys d). apply NoDup_fst_map_to_list. Qed.
Lemma json_names_spec (d : folder) n : n ∈ json_names d ↔ endswith ".json" n = true ∧ is_Some (d !! n).
Proof. unfold json_names. by rewrite list_elem_of_filter, glob_order_lookup. Qed.
Lemma sorted_json_perm (d : folder) : sorted_json d ≡ₚ json_names d.
Proof. apply merge_sort_Permutation. Qed.
Lemma sorted_json_spec (d : folder) n : n ∈ sorted_json d ↔ endswith ".json" n = true ∧ is_Some (d !! n).
Proof. by rewrite sorted_json_perm, json_names_spec. Qed.
Lemma sorted_json_NoDup (d : folder) : NoDup (sorted_json d).
Proof. rewrite sorted_json_perm. apply NoDup_filter, glob_order_NoDup. Qed.
End order.

Lemma rename_present src n dst n' mb f : files src mb !! n = Some f →
  rename src n dst n' mb =
    (Ok tt, let mb := set_files src (delete n (files src mb)) mb in set_files dst (<[n' := f]> (files dst mb)) mb).
Proof. intros E. unfold rename. by rewrite E. Qed.
Lemma rename_absent src n dst n' mb : files src mb !! n = None → rename src n dst n' mb = (Err (FileNotFoundError n), mb).
Proof. intros E. unfold rename. by rewrite E. Qed.

(* ------------------------------------------------------------------ *)
(** ** Archiving *)

Definition archived (ns : list string) (mb : mailbox) : mailbox :=
  mk_mailbox (without ns (inbox mb)) (only ns (inbox mb) ∪ processed mb) (quarantine mb) (expired mb).

Lemma archived_nil mb : archived [] mb = mb.
Proof. destruct mb. unfold archived. simpl. by rewrite only_nil, without_nil, (left_id_L ∅ (∪)). Qed.
Lemma archived_absent n ns mb : inbox mb !! n = None → archived (n :: ns) mb = archived ns mb.
Proof.
  intros E. unfold archived. f_equal; folder_eq.
Qed.
Lemma archived_step n ns mb f : inbox mb !! n = Some f →
  archived ns (mk_mailbox (delete n (inbox mb)) (<[n := f]> (processed mb)) (quarantine mb) (expired mb)) =
  archived (n :: ns) mb.
Proof.
  intros E. unfold archived. cbn [inbox processed quarantine expired]. f_equal; folder_eq.
Qed.

Lemma only_absent n ns d : d !! n = None → only (n :: ns) d = only ns d.
Proof. intros E. folder_eq. Qed.
Lemma only_step n ns d f : d !! n = Some f → only (n :: ns) d = <[n := f]> (only ns (delete n d)).
Proof. intros E. folder_eq. Qed.
Lemma size_only_step n ns d f : d !! n = Some f → size (only (n :: ns) d) = S (size (only ns (delete n d))).
Proof.
  intros E. rewrite (only_step n ns d f E), map_size_insert_None; [done|].
  rewrite lookup_only, lookup_delete. by repeat case_decide.
Qed.

Lemma archive_names_spec ns mb : archive_names ns mb = (Ok (size (only ns (inbox mb))), archived ns mb).
Proof.
  revert mb. induction ns as [|n ns IH]; intros mb.
  - cbn [archive_names]. by rewrite only_nil, archived_nil.
  - cbn [archive_names]. run_unfold. destruct (inbox mb !! n) as [f|] eqn:E; simpl.
    + rewrite (rename_present Inbox n Processed n mb f E). cbn [files set_files inbox processed quarantine expired]. rewrite IH.
      by rewrite (size_only_step n ns _ f E), (archived_step n ns mb f E).
    + by rewrite IH, (archived_absent n ns mb E), (only_absent n ns _ E).
Qed.

Lemma rename_all_spec ns mb : NoDup ns → (∀ n, n ∈ ns → is_Some (inbox mb !! n)) →
  rename_all ns mb = (Ok (length ns), archived ns mb).
Proof.
  intros Hnd. revert mb. induction Hnd as [|n ns Hn Hnd IH]; intros mb Hns.
  - by rewrite archived_nil.
  - cbn [rename_all]. run_unfold. destruct (Hns n) as [f E]; [left|].
    rewrite (rename_present Inbox n Processed n mb f E). cbn [files set_files inbox processed quarantine expired].
    rewrite IH; [by rewrite (archived_step n ns mb f E)|].
    intros k Hk. cbn [inbox]. rewrite lookup_delete_ne by (by intros ->). apply Hns. by right.
Qed.

Lemma archived_app ns1 ns2 mb : archived ns2 (archived ns1 mb) = archived (ns1 ++ ns2) mb.
Proof.
  unfold archived. cbn [inbox processed quarantine expired].
  f_equal; apply map_eq; intros k; rewrite ?lookup_union, ?lookup_only, ?lookup_without;
    repeat case_decide; try set_solver; by destruct (inbox mb !! k), (processed mb !! k).
Qed.

Section reading.
Context `{FloatText, Calendar, Codec, Listing file}.

(** What reading makes of the file [n]. *)
Definition verdict (known : option (list string)) (now : Q) (d : folder) (n : string) : option Message :=
f ← d !! n;
m ← load_message now f;
if unknown_sender known m then None else Some m.
Definition readable (known : option (list string)) (now : Q) (d : folder) (n : string) : bool :=
bool_decide (is_Some (verdict known now d n)).
Definition items_of (known : option (list string)) (now : Q) (d : folder) (ns : list string) : list InboxItem :=
omap (λ n, m ← verdict known now d n; Some (mk_item m n)) ns.
Definition rejected (known : option (list string)) (now : Q) (d : folder) (ns : list string) : list string :=
filter (λ n, readable known now d n = false) ns.
Definition quarantined (ns : list string) (mb : mailbox) : mailbox :=
mk_mailbox (without ns (inbox mb)) (processed mb) (only ns (inbox mb) ∪ quarantine mb) (expired mb).

Lemma quarantined_nil mb : quarantined [] mb = mb.
Proof. destruct mb. unfold quarantined. simpl. by rewrite only_nil, without_nil, (left_id_L ∅ (∪)). Qed.
Lemma quarantined_step n ns mb f : inbox mb !! n = Some f →
  quarantined ns (mk_mailbox (delete n (inbox mb)) (processed mb) (<[n := f]> (quarantine mb)) (expired mb)) =
  quarantined (n :: ns) mb.
Proof.
  intros E. unfold quarantined. cbn [inbox processed quarantine expired]. f_equal; folder_eq.
Qed.

Lemma quarantine_file_spec n mb : is_Some (inbox mb !! n) →
  _quarantine_file n mb = (Ok true, quarantined [n] mb).
Proof.
  intros [f E]. unfold _quarantine_file. run_unfold. rewrite (rename_present Inbox n Quarantine n mb f E).
  cbn [files set_files inbox processed quarantine expired]. f_equal. by rewrite <- (quarantined_step n [] mb f E), quarantined_nil.
Qed.
Lemma quarantined_cons n ns mb : quarantined ns (quarantined [n] mb) = quarantined (n :: ns) mb.
Proof.
  unfold quarantined. cbn [inbox processed quarantine expired].
  f_equal; apply map_eq; intros k; rewrite ?lookup_union, ?lookup_only, ?lookup_without;
    repeat case_decide; try set_solver; by destruct (inbox mb !! k), (quarantine mb !! k).
Qed.

Lemma accept_file_spec known now n mb : is_Some (inbox mb !! n) →
  accept_file known now n mb =
    (Ok (m ← verdict known now (inbox mb) n; Some (mk_item m n)),
     if readable known now (inbox mb) n then mb else quarantined [n] mb).
Proof.
  intros Hn. unfold accept_file, readable, verdict. run_unfold. destruct Hn as [f E]. rewrite E. simpl.
  destruct (load_message now f) as [m|] eqn:El; simpl.
  - destruct (unknown_sender known m); simpl; [by rewrite quarantine_file_spec by (by exists f)|done].
  - by rewrite quarantine_file_spec by (by exists f).
Qed.

Lemma verdict_ext known now d d' n : d !! n = d' !! n → verdict known now d n = verdict known now d' n.
Proof. intros E. unfold verdict. by rewrite E. Qed.
Lemma readable_ext known now d d' n : d !! n = d' !! n → readable known now d n = readable known now d' n.
Proof. intros E. unfold readable. by rewrite (verdict_ext known now d d' n E). Qed.

Lemma items_of_cons known now d n ns : items_of known now d (n :: ns) =
  match verdict known now d n with Some m => mk_item m n :: items_of known now d ns | None => items_of known now d ns end.
Proof. unfold items_of. cbn [omap list_omap]. by destruct (verdict known now d n). Qed.

Lemma items_of_ext known now d d' ns : (∀ n, n ∈ ns → d !! n = d' !! n) →
  items_of known now d ns = items_of known now d' ns ∧ rejected known now d ns = rejected known now d' ns.
Proof.
  intros Hd. split.
  - induction ns as [|n ns IH]; [done|]. rewrite !items_of_cons.
    rewrite (verdict_ext known now d d' n) by (apply Hd; left). rewrite IH; [done|]. intros. apply Hd. by right.
  - apply filter_ext_in. intros n Hn. by rewrite (readable_ext known now d d' n (Hd n Hn)).
Qed.

Lemma accept_files_spec known now ns mb : NoDup ns → (∀ n, n ∈ ns → is_Some (inbox mb !! n)) →
  accept_files known now ns mb =
    (Ok (items_of known now (inbox mb) ns), quarantined (rejected known now (inbox mb) ns) mb).
Proof.
  intros Hnd. revert mb. induction Hnd as [|n ns Hn Hnd IH]; intros mb Hns.
  - by rewrite quarantined_nil.
  - cbn [accept_files]. run_unfold. rewrite accept_file_spec by (apply Hns; left).
    unfold rejected. rewrite filter_cons, items_of_cons.
    destruct (readable known now (inbox mb) n) eqn:Er; simpl.
    + rewrite IH by (intros; apply Hns; by right). unfold readable in Er. apply bool_decide_eq_true in Er as [m Em].
      by rewrite Em.
    + assert (verdict known now (inbox mb) n = None) as -> by
        (unfold readable in Er; apply bool_decide_eq_false in Er; by apply eq_None_not_Some).
      assert (∀ k, k ∈ ns → inbox (quarantined [n] mb) !! k = inbox mb !! k) as Hk.
      { intros k Hk. cbn [inbox quarantined]. rewrite lookup_without, decide_False; [done|].
        apply not_elem_of_cons. split; [by intros ->|apply not_elem_of_nil]. }
      rewrite IH; [|intros k Hin; rewrite (Hk k Hin); apply Hns; by right].
      destruct (items_of_ext known now _ _ ns Hk) as [-> ->]. by rewrite quarantined_cons.
Qed.

Lemma receive_spec self cfg now mb :
  let known := known_animas self cfg in
  let ns := sorted_json (inbox mb) in
  receive_with_paths self cfg now mb =
    (Ok (items_of known now (inbox mb) ns), quarantined (rejected known now (inbox mb) ns) mb).
Proof.
  intros known ns. unfold receive_with_paths. run_unfold.
  apply accept_files_spec; [apply sorted_json_NoDup|]. intros n Hn. by apply sorted_json_spec in Hn as [_ ?].
Qed.

Lemma elem_items_of known now d ns i :
  i ∈ items_of known now d ns ↔ path i ∈ ns ∧ verdict known now d (path i) = Some (msg i).
Proof.
  unfold items_of. rewrite list_elem_of_omap. split.
  - intros (n & Hn & Hi). destruct (verdict known now d n) as [m|] eqn:E; [|done]. simpl in Hi. by simplify_eq/=.
  - intros [Hn Hv]. exists (path i). split; [done|]. rewrite Hv. simpl. by destruct i.
Qed.

Lemma items_of_paths known now d ns : path <$> items_of known now d ns = filter (λ n, readable known now d n = true) ns.
Proof.
  induction ns as [|n ns IH]; [done|]. rewrite items_of_cons, filter_cons.
  destruct (verdict known now d n) as [m|] eqn:E; cbn [fmap list_fmap]; rewrite IH.
  - rewrite decide_True; [done|]. unfold readable. by rewrite E.
  - rewrite decide_False; [done|]. unfold readable. by rewrite E.
Qed.
End reading.

(* ------------------------------------------------------------------ *)
(** ** Free names in an archive *)

Lemma numbered_inj n : Inj (=) (=) (numbered n).
Proof.
  intros i j E. unfold numbered in E. apply string_app_inj_l in E. apply string_app_inj_l in E.
  apply string_app_inj_r in E. by apply pretty_nat_inj in E.
Qed.

Lemma free_name_spec fuel c n (dest : folder) :
  (∃ k, c ≤ k < c + fuel ∧ dest !! numbered n k = None) →
  ∃ k, free_name fuel c n dest = Some (numbered n k) ∧ dest !! numbered n k = None.
Proof.
  revert c. induction fuel as [|fuel IH]; intros c (k & Hk & Hfree); [lia|]. cbn [free_name].
  destruct (dest !! numbered n c) as [f|] eqn:E; [|by exists c].
  apply (IH (S c)). exists k. split; [|done]. assert (c ≠ k) by congruence. lia.
Qed.

(** Among one more numbered name than there are files, one is free. *)
Lemma numbered_free c n (dest : folder) : ∃ k, c ≤ k < c + S (size dest) ∧ dest !! numbered n k = None.
Proof.
  destruct (decide (Exists (λ k, dest !! numbered n k = None) (seq c (S (size dest))))) as [Hex|Hall].
  { apply Exists_exists in Hex as (k & Hk%elem_of_seq & Hfree). by exists k. }
  exfalso. apply not_Exists_Forall in Hall; [|intros k; apply _].
  assert (length (numbered n <$> seq c (S (size dest))) ≤ length (map_to_list dest).*1) as Hlen.
  { apply submseteq_length, NoDup_submseteq.
    - pose proof (numbered_inj n). apply NoDup_fmap_2; [apply _|apply NoDup_seq].
    - intros x (k & -> & Hk)%list_elem_of_fmap. rewrite Forall_forall in Hall. specialize (Hall k Hk).
      destruct (dest !! numbered n k) as [f|] eqn:E; [|done].
      apply list_elem_of_fmap. exists (numbered n k, f). split; [done|]. by apply elem_of_map_to_list. }
  rewrite !length_fmap, length_seq, length_map_to_list in Hlen. lia.
Qed.

Lemma move_file_spec n mb f : inbox mb !! n = Some f →
  ∃ n', expired mb !! n' = None ∧
    _move_file_to_dir n Expired mb =
      (Ok n', mk_mailbox (delete n (inbox mb)) (processed mb) (quarantine mb) (<[n' := f]> (expired mb))).
Proof.
  intros E. unfold _move_file_to_dir. run_unfold. cbn [files].
  destruct (expired mb !! n) as [g|] eqn:Eg.
  - destruct (free_name_spec (S (size (expired mb))) 2 n (expired mb) (numbered_free 2 n _)) as (k & -> & Hfree).
    exists (numbered n k). split; [done|]. by rewrite (rename_present Inbox n Expired _ mb f E).
  - exists n. split; [done|]. by rewrite (rename_present Inbox n Expired _ mb f E).
Qed.

(* ------------------------------------------------------------------ *)
(** ** The sweep *)

(** What the sweep decides for a file, from its name and contents alone. *)
Inductive fate := Stays | Protected | Broken | Stale.
#[global] Instance fate_eq_dec : EqDecision fate.
Proof. solve_decision. Defined.

(** All contents of a directory. *)
Definition contents (d : folder) : list file := (map_to_list d).*2.

Lemma contents_insert d n f : d !! n = None → contents (<[n := f]> d) ≡ₚ f :: contents d.
Proof. intros E. unfold contents. by rewrite (map_to_list_insert d n f E). Qed.

Section sweep.
Context `{FloatText, Calendar, Codec, Listing file}.
Context (now clock ttl : Q).

Definition fate_of (f : file) : fate :=
match _load_message_for_sweep clock f with
| Err _ => Broken
| Ok (m, stamp) =>
    let t := match stamp with Some d => ensure_aware d | None => mtime f end in
    if negb (Qle_bool t now) || Qle_bool ((now - t) / 3600) ttl then Stays
    else if _is_ttl_protected m then Protected else Stale
end.
Definition fate_outcome (x : fate) : sweep_outcome :=
match x with
| Stays => Skipped | Protected => SweptProtected | Broken => SweptQuarantined | Stale => SweptExpired
end.
Definition outcome_of (f : file) : sweep_outcome := fate_outcome (fate_of f).
(** The names among [ns] whose file has the fate [x]. *)
Definition fated (x : fate) (d : folder) (ns : list string) : list string :=
filter (λ n, bool_decide (fate_of <$> d !! n = Some x) = true) ns.

Lemma fated_ext x d d' ns : (∀ n, n ∈ ns → d !! n = d' !! n) → fated x d ns = fated x d' ns.
Proof. intros Hd. apply filter_ext_in. intros n Hn. by rewrite (Hd n Hn). Qed.
Lemma fated_cons x d n ns : fated x d (n :: ns) =
  if decide (fate_of <$> d !! n = Some x) then n :: fated x d ns else fated x d ns.
Proof. unfold fated. rewrite filter_cons. repeat case_decide; breflect; done. Qed.

Lemma fated_fresh x d n ns : n ∉ ns → n ∉ fated x d ns.
Proof. unfold fated. intros Hn [_ ?]%list_elem_of_filter. done. Qed.

Lemma sweep_one_spec n mb f : inbox mb !! n = Some f →
  ∃ n', expired mb !! n' = None ∧
  sweep_one now clock ttl n mb =
    (Ok (outcome_of f),
     match fate_of f with
     | Stays | Protected => mb
     | Broken => quarantined [n] mb
     | Stale => mk_mailbox (delete n (inbox mb)) (processed mb) (quarantine mb) (<[n' := f]> (expired mb))
     end).
Proof.
  intros E. destruct (move_file_spec n mb f E) as (n' & Hfree & Hmove). exists n'. split; [done|].
  unfold sweep_one, outcome_of, fate_of. run_unfold. rewrite E.
  destruct (_load_message_for_sweep clock f) as [[m stamp]|e].
  - destruct (Qle_bool _ now); cbn [negb orb]; [|done].
    destruct (Qle_bool _ ttl); [done|]. destruct (_is_ttl_protected m); [done|]. by rewrite Hmove.
  - by rewrite quarantine_file_spec by (by exists f).
Qed.

(** The directories after the files [ns] have been looked at. *)
Record swept (ns : list string) (mb mb' : mailbox) : Prop := {
  swept_inbox : inbox mb' = without (fated Broken (inbox mb) ns ++ fated Stale (inbox mb) ns) (inbox mb);
  swept_processed : processed mb' = processed mb;
  swept_quarantine : quarantine mb' = only (fated Broken (inbox mb) ns) (inbox mb) ∪ quarantine mb;
  swept_expired : expired mb ⊆ expired mb';
  swept_contents : contents (expired mb') ≡ₚ contents (only (fated Stale (inbox mb) ns) (inbox mb)) ++ contents (expired mb)
}.

Lemma swept_nil mb : swept [] mb mb.
Proof. split; cbn; rewrite ?without_nil, ?only_nil, ?(left_id_L ∅ union); done. Qed.

Lemma swept_skip n ns mb mb' : fate_of <$> inbox mb !! n ≠ Some Broken → fate_of <$> inbox mb !! n ≠ Some Stale →
  swept ns mb mb' → swept (n :: ns) mb mb'.
Proof.
  intros Hb Hs [? ? ? ? ?].
  split; rewrite ?(fated_cons Broken), ?(fated_cons Stale), ?(decide_False _ _ Hb), ?(decide_False _ _ Hs); done.
Qed.

Lemma swept_broken n ns mb mb' : n ∉ ns → fate_of <$> inbox mb !! n = Some Broken →
  swept ns (quarantined [n] mb) mb' → swept (n :: ns) mb mb'.
Proof.
  intros Hn Hf [Hi Hp Hq He Hc]. cbn [quarantined inbox processed quarantine expired] in *.
  assert (∀ k, k ∈ ns → without [n] (inbox mb) !! k = inbox mb !! k) as Hext.
  { intros k Hk. rewrite lookup_without, decide_False; [done|]. apply not_elem_of_cons.
    split; [by intros ->|apply not_elem_of_nil]. }
  rewrite !(fated_ext _ _ _ _ Hext) in *.
  pose proof (fated_fresh Stale (inbox mb) n ns Hn). pose proof (fated_fresh Broken (inbox mb) n ns Hn).
  split; rewrite ?(fated_cons Broken), ?(fated_cons Stale), ?(decide_True _ _ Hf), ?Hf.
  - rewrite Hi, (decide_False (P := Some Broken = Some Stale)) by done. folder_eq.
  - done.
  - rewrite Hq. folder_eq.
  - done.
  - rewrite Hc, (decide_False (P := Some Broken = Some Stale)) by done. f_equiv. f_equiv. folder_eq.
Qed.

Lemma swept_stale n n' ns mb mb' f : n ∉ ns → inbox mb !! n = Some f → fate_of f = Stale → expired mb !! n' = None →
  swept ns (mk_mailbox (delete n (inbox mb)) (processed mb) (quarantine mb) (<[n' := f]> (expired mb))) mb' →
  swept (n :: ns) mb mb'.
Proof.
  intros Hn E Hf Hfree [Hi Hp Hq He Hc]. cbn [inbox processed quarantine expired] in *.
  assert (∀ k, k ∈ ns → delete n (inbox mb) !! k = inbox mb !! k) as Hext
    by (intros k Hk; apply lookup_delete_ne; by intros ->).
  rewrite !(fated_ext _ _ _ _ Hext) in *.
  pose proof (fated_fresh Stale (inbox mb) n ns Hn). pose proof (fated_fresh Broken (inbox mb) n ns Hn).
  assert (fate_of <$> inbox mb !! n = Some Stale) as Hst by (by rewrite E, <- Hf).
  split; rewrite ?(fated_cons Broken), ?(fated_cons Stale), ?(decide_True _ _ Hst), ?Hst,
    ?(decide_False (P := Some Stale = Some Broken)) by done.
  - rewrite Hi. folder_eq.
  - done.
  - rewrite Hq. folder_eq.
  - etrans; [by apply insert_subseteq|done].
  - rewrite Hc, (contents_insert _ _ _ Hfree), (only_step n _ _ f E), contents_insert; [by rewrite <- Permutation_middle|].
    rewrite lookup_only, lookup_delete. by repeat case_decide.
Qed.

(** Agreement of two directories on every name but one. *)
Definition agree (n : string) (d d' : folder) : Prop := ∀ j, j ≠ n → d !! j = d' !! j.
Lemma agree_quarantined n mb : agree n (inbox (quarantined [n] mb)) (inbox mb).
Proof.
  intros j Hj. cbn [inbox quarantined]. rewrite lookup_without, decide_False; [done|]. by rewrite list_elem_of_singleton.
Qed.
Lemma agree_delete n (d : folder) : agree n (delete n d) d.
Proof. intros j Hj. by apply lookup_delete_ne. Qed.
Lemma agree_present n (d d' : folder) (ns : list string) : n ∉ ns → agree n d d' → (∀ k, k ∈ n :: ns → is_Some (d' !! k)) →
  ∀ k, k ∈ ns → is_Some (d !! k).
Proof. intros Hn Hd Hns k Hk. rewrite Hd by (by intros ->). apply Hns. by right. Qed.
Lemma agree_outcomes n (d d' : folder) (ns : list string) : n ∉ ns → agree n d d' →
  omap (λ k, outcome_of <$> d !! k) ns = omap (λ k, outcome_of <$> d' !! k) ns.
Proof.
  intros Hn Hd. induction ns as [|k ns IH]; [done|]. apply not_elem_of_cons in Hn as [Hk Hn].
  cbn [omap list_omap]. rewrite Hd by done. destruct (d' !! k); simpl; by rewrite IH.
Qed.

Definition outcomes (d : folder) (ns : list string) : list sweep_outcome := omap (λ n, outcome_of <$> d !! n) ns.
Lemma outcomes_cons d n ns f : d !! n = Some f → outcomes d (n :: ns) = outcome_of f :: outcomes d ns.
Proof. intros E. unfold outcomes. cbn [omap list_omap]. by rewrite E. Qed.

Lemma sweep_files_spec ns mb : NoDup ns → (∀ n, n ∈ ns → is_Some (inbox mb !! n)) →
  ∃ mb', sweep_files now clock ttl ns mb = (Ok (outcomes (inbox mb) ns), mb') ∧ swept ns mb mb'.
Proof.
  intros Hnd. revert mb. induction Hnd as [|n ns Hn Hnd IH]; intros mb Hns; [by exists mb; split; [|apply swept_nil]|].
  destruct (Hns n) as [f E]; [left|]. destruct (sweep_one_spec n mb f E) as (n' & Hfree & Hone).
  cbn [sweep_files]. run_unfold. rewrite Hone, (outcomes_cons _ n ns f E).
  assert (∀ mb1, agree n (inbox mb1) (inbox mb) → (∀ mb', swept ns mb1 mb' → swept (n :: ns) mb mb') →
    ∃ mb', sweep_files now clock ttl ns mb1 = (Ok (outcomes (inbox mb) ns), mb') ∧ swept (n :: ns) mb mb') as Hgo.
  { intros mb1 Hag Hsw. destruct (IH mb1 (agree_present n _ _ ns Hn Hag Hns)) as (mb' & Hrun & Hs).
    exists mb'. rewrite Hrun. split; [|by apply Hsw]. by rewrite (agree_outcomes n _ _ ns Hn Hag : outcomes _ ns = outcomes _ ns). }
  destruct (fate_of f) eqn:Hf.
  - destruct (Hgo mb) as (mb' & -> & Hs); [done|intros mb'; apply swept_skip; rewrite E; simpl; congruence|]. by exists mb'.
  - destruct (Hgo mb) as (mb' & -> & Hs); [done|intros mb'; apply swept_skip; rewrite E; simpl; congruence|]. by exists mb'.
  - destruct (Hgo (quarantined [n] mb)) as (mb' & -> & Hs); [apply agree_quarantined| |by exists mb'].
    intros mb'. apply swept_broken; [done|]. by rewrite E, <- Hf.
  - destruct (Hgo (mk_mailbox (delete n (inbox mb)) (processed mb) (quarantine mb) (<[n' := f]> (expired mb))))
      as (mb' & -> & Hs); [apply agree_delete| |by exists mb'].
    intros mb'. by apply (swept_stale n n' ns mb mb' f).
Qed.

Lemma no_errors d ns : count SweepError (outcomes d ns) = 0.
Proof.
  unfold outcomes, count. induction ns as [|n ns IH]; [done|]. cbn [omap list_omap].
  destruct (d !! n) as [f|]; [|done]. simpl. rewrite filter_cons, decide_False; [done|].
  unfold outcome_of. by destruct (fate_of f).
Qed.

(** The files of the inbox with a given fate, and the retention. *)
Definition with_fate (x : fate) (d : folder) : folder :=
filter (λ nf, endswith ".json" nf.1 = true ∧ fate_of nf.2 = x) d.
Definition retained (days : Q) (d : folder) : folder :=
filter (λ nf, Qle_bool (clock - days * 86400) (mtime nf.2) = true) d.

Lemma with_fate_fated x d : with_fate x d = only (fated x d (sorted_json d)) d.
Proof.
  apply map_eq. intros n. rewrite lookup_only. unfold with_fate, fated.
  destruct (d !! n) as [f|] eqn:E.
  - case_decide as Hin.
    + apply map_lookup_filter_Some. split; [done|]. apply list_elem_of_filter in Hin as [Hx Hs].
      apply sorted_json_spec in Hs as [Hs _]. breflect. by rewrite E in Hx; simplify_eq/=.
    + apply map_lookup_filter_None. right. intros g Hg [Hj Hx]. simplify_eq. apply Hin, list_elem_of_filter.
      split; [apply bool_decide_eq_true; by rewrite E|]. apply sorted_json_spec. by split; [|exists f].
  - rewrite (proj2 (map_lookup_filter_None _ _ _)); [by case_decide|]. by left.
Qed.

Lemma count_size x d ns : NoDup ns → (∀ n, n ∈ ns → is_Some (d !! n)) →
  count (fate_outcome x) (outcomes d ns) = size (only (fated x d ns) d).
Proof.
  unfold count. intros Hnd. revert d. induction Hnd as [|n ns Hn Hnd IH]; intros d Hns; [by rewrite only_nil|].
  destruct (Hns n) as [f E]; [left|]. rewrite (outcomes_cons d n ns f E), filter_cons, fated_cons, E.
  unfold outcome_of. cbn [fmap option_fmap option_map].
  destruct (decide (fate_of f = x)) as [<-|Hx].
  - rewrite (decide_True (P := Some _ = Some _)) by done.
    rewrite (size_only_step n _ _ f E). rewrite decide_True by done. cbn [length]. f_equal.
    rewrite IH by (intros; apply Hns; by right). f_equal. apply map_eq. intros k.
    pose proof (fated_fresh (fate_of f) d n ns Hn). rewrite !lookup_only. case_decide; [|done].
    symmetry. apply lookup_delete_ne. by intros ->.
  - rewrite (decide_False (P := Some _ = Some _)) by congruence. rewrite decide_False by (by destruct x, (fate_of f)).
    apply IH. intros. apply Hns. by right.
Qed.
End sweep.

Section sweep_expired.
Context `{FloatText, Calendar, Codec, Listing file}.

(** What stays in the inbox: files that are no messages by their name, and
  messages that are recent or protected. *)
Definition unswept (now clock ttl : Q) (d : folder) : folder :=
filter (λ nf, ¬ (endswith ".json" nf.1 = true ∧ (fate_of now clock ttl nf.2 = Broken ∨ fate_of now clock ttl nf.2 = Stale))) d.

Lemma unswept_without now clock ttl (d : folder) :
  without (fated now clock ttl Broken d (sorted_json d) ++ fated now clock ttl Stale d (sorted_json d)) d = unswept now clock ttl d.
Proof.
  apply map_eq. intros n. rewrite lookup_without. unfold unswept.
  destruct (d !! n) as [f|] eqn:E.
  - assert (n ∈ sorted_json d ↔ endswith ".json" n = true) as Hn by (rewrite sorted_json_spec, E; naive_solver).
    assert (∀ x, n ∈ fated now clock ttl x d (sorted_json d) ↔ endswith ".json" n = true ∧ fate_of now clock ttl f = x) as Hx.
    { intros x. unfold fated. rewrite list_elem_of_filter, Hn, bool_decide_eq_true, E. simpl. naive_solver. }
    pose proof (Hx Broken). pose proof (Hx Stale). symmetry. case_decide as Hc; rewrite elem_of_app in Hc.
    + apply map_lookup_filter_None. right. intros g Hg. simplify_eq/=. tauto.
    + apply map_lookup_filter_Some. split; [done|]. simpl. tauto.
  - symmetry. assert (filter (λ nf : string * file, ¬ (endswith ".json" nf.1 = true ∧
      (fate_of now clock ttl nf.2 = Broken ∨ fate_of now clock ttl nf.2 = Stale))) d !! n = None) as ->
      by (apply map_lookup_filter_None; by left). by case_decide.
Qed.

End sweep_expired.
