(* ===== verification/Channels.v ===== *)
(** * Shared channels ([core/messenger.py])

    A channel is an append-only file of JSON lines [channels/<name>.jsonl]
    with an optional metadata file [channels/<name>.meta.json], which carries
    the access list.  Both are kept here as the texts of the files.  The
    lookup of known names in the configuration is an argument ([None]: the
    configuration cannot be read); a sandboxed writer falls back to the host,
    which runs the same code ([server/routes/internal.py]). *)

From Stdlib Require Import Ascii.
From stdpp Require Import prelude strings list gmap.
From S2P Require Import Prelude PyValue PyText JsonText JournalText.
Open Scope nat_scope.

Record channels := mk_channels { posts : gmap string string; metas : gmap string string }.

(** [_SAFE_NAME_RE] = [^[a-z][a-z0-9_-]{0,30}$]; [$] also matches before a
    final newline. *)
Definition lower_letter (c : ascii) : bool := in_range 97 122 (code c).
Definition name_char (c : ascii) : bool := lower_letter c || is_digit c || ceq c "_" || ceq c "-".
Fixpoint all_name_chars (s : string) : bool :=
  match s with EmptyString => true | String c s' => name_char c && all_name_chars s' end.
Fixpoint drop_final_newline (s : string) : string :=
  match s with
  | EmptyString => ""
  | String c EmptyString => if bool_decide (code c = 10) then "" else s
  | String c s' => String c (drop_final_newline s')
  end.
Definition safe_name (s : string) : bool :=
  match drop_final_newline s with
  | String c s' => lower_letter c && all_name_chars s' && (String.length s' <=? 30)
  | EmptyString => false
  end.
Definition _validate_name (name : string) : result unit := raise_if (negb (safe_name name)) (RecipientNotFoundError name).

(** [validate_anima_name] of the factory: [None] for a valid name. *)
Definition valid_anima_name (s : string) : bool :=
  match drop_final_newline s with
  | String c s' => lower_letter c && all_name_chars s'
  | EmptyString => false
  end.

(** [x in v] for a string [x]. *)
Definition py_in (x : string) (v : json) : result bool :=
  match v with
  | JStr s => Ok (contains x s)
  | JList l => Ok (any (λ e, py_eq e (JStr x)) l)
  | JObj d => Ok (dhas x d)
  | _ => Err (TypeError "argument is not iterable")
  end.

Record ChannelMeta := mk_meta {
  members : json; created_by : json; created_at : json; description : json; closed : bool;
  slack_sync_disabled : bool; slack_deleted_at : json; company : json
}.

Section channels.
Context `{FloatText}.

(** [None]: there is no metadata, or it is no JSON. *)
Definition load_channel_meta (cs : channels) (channel : string) : result (option ChannelMeta) :=
match metas cs !! channel with
| None => Ok None
| Some t =>
    if negb (utf8_valid t) then Err (ValueError "UnicodeDecodeError") else
    match loads t with
    | None => Ok None
    | Some (JObj data) =>
        let company := dget_default "company" (JStr "") data in
        Ok (Some (mk_meta (dget_default "members" (JList []) data) (dget_default "created_by" (JStr "") data)
          (dget_default "created_at" (JStr "") data) (dget_default "description" (JStr "") data)
          (truthy (dget_default "closed" (JBool false) data))
          (truthy (dget_default "slack_sync_disabled" (JBool false) data))
          (dget_default "slack_deleted_at" (JStr "") data)
          (if truthy company then company else JStr "")))
    | Some _ => Err (AttributeError "get")
    end
end.
(** The keys in the order they are written; [indent=2] only adds blanks. *)
Definition meta_dict (m : ChannelMeta) : dict :=
[("members", members m); ("created_by", created_by m); ("created_at", created_at m); ("description", description m);
 ("closed", JBool (closed m)); ("slack_sync_disabled", JBool (slack_sync_disabled m));
 ("slack_deleted_at", slack_deleted_at m); ("company", company m)].
Definition save_channel_meta (channel : string) (m : ChannelMeta) : M channels unit :=
modify (λ cs, mk_channels (posts cs) (<[channel := dumps " " (JObj (meta_dict m))]> (metas cs))).

Definition is_channel_member (cs : channels) (channel anima_name source : string) : result bool :=
if bool_decide (source = "human") then Ok true else
meta ← load_channel_meta cs channel;
match meta with
| None => Ok true
| Some m =>
    if negb (truthy (members m)) && negb (closed m) then Ok true else
    if closed m then Ok false else
    py_in anima_name (members m)
end.

Definition post_entry (ts poster text source : string) : list (string * string) :=
[("ts", ts); ("from", poster); ("text", text); ("source", source)].
Definition append_line (channel line : string) : M channels unit :=
modify (λ cs, mk_channels (<[channel := default "" (posts cs !! channel) +:+ line +:+ String (ascii_of_nat 10) ""]> (posts cs)) (metas cs)).

(** The body of [post_channel]; [fallback] is what happens when the file
  cannot be opened for writing. *)
Definition post_checks (self channel source : string) : M channels unit :=
_ ← lift (_validate_name channel);
cs ← get;
meta ← lift (load_channel_meta cs channel);
_ ← match posts cs !! channel with
    | Some _ => mret tt
    | None => match meta with
              | None => raise (ChannelNotFoundError channel)
              | Some m => guard_raise (closed m) (ChannelAccessDeniedError channel)
              end
    end;
may ← lift (is_channel_member cs channel self source);
guard_raise (negb may) (ChannelAccessDeniedError channel).
(** A name the configuration does not know is refused without an error. *)
Definition poster_unknown (self poster : string) (cfg : option (list string)) : bool :=
negb (bool_decide (poster = "human")) &&
match cfg with
| Some known => negb (bool_decide (known = [])) && str_in self known && negb (str_in poster known)
| None => false
end.
Definition post_body (fallback : M channels unit) (writable : bool) (self channel text source : string)
  (from_name : option string) (cfg : option (list string)) (ts : string) : M channels unit :=
let poster := default self (n ← from_name; if str_truthy n then Some n else None) in
_ ← post_checks self channel source;
if poster_unknown self poster cfg then mret tt else
if writable then append_line channel (dumps " " (JObj (str_dict (post_entry ts poster text source))))
else fallback.

(** [/internal/post-channel] on the host: its errors are HTTP errors to the
  caller. *)
Definition internal_post_channel (self channel text source poster : string) (cfg : option (list string)) (ts : string) :
  M channels unit :=
if negb (valid_anima_name self) then raise (ValueError "400 Invalid anima name") else
post_body (raise (DeliveryError "500")) true self channel text source (Some poster) cfg ts.
(** [server]: the host can be reached. *)
Definition _post_channel_via_server (server : bool) (self channel text source poster : string) (cfg : option (list string))
  (ts : string) : M channels unit :=
if server then catch (internal_post_channel self channel text source poster cfg ts) (λ _, raise (DeliveryError channel))
else raise (DeliveryError channel).
Definition post_channel (writable server : bool) (self channel text source : string) (from_name : option string)
  (cfg : option (list string)) (ts : string) : M channels unit :=
let poster := default self (n ← from_name; if str_truthy n then Some n else None) in
post_body (_post_channel_via_server server self channel text source poster cfg ts) writable self channel text source
  from_name cfg ts.

(* ------------------------------------------------------------------ *)
(** ** Reading *)

Definition channel_lines (t : string) : list string := splitlines (strip t).

(** The newest [limit] entries, newest first; lines that are blank or no JSON
  are passed over. *)
Fixpoint newest (human_only : bool) (limit : Z) (acc : list json) (lines : list string) : result (list json) :=
match lines with
| [] => Ok acc
| line :: rest =>
    if blank line then newest human_only limit acc rest else
    match loads line with
    | None => newest human_only limit acc rest
    | Some entry =>
        let keep := acc ++ [entry] in
        let go := if (limit <=? Z.of_nat (length keep))%Z then Ok keep else newest human_only limit keep rest in
        if human_only
        then match entry with
             | JObj d => if py_eq (dget_none "source" d) (JStr "human") then go else newest human_only limit acc rest
             | _ => Err (AttributeError "get")
             end
        else go
    end
end.
Definition read_channel (cs : channels) (self channel : string) (limit : Z) (human_only : bool) (source : string) :
  result (list json) :=
_ ← _validate_name channel;
may ← is_channel_member cs channel self source;
if negb may then Ok [] else
match posts cs !! channel with
| None => Ok []
| Some t =>
    if negb (utf8_valid t) then Err (ValueError "UnicodeDecodeError") else
    entries ← newest human_only limit [] (reverse (channel_lines t));
    Ok (reverse entries)
end.

(** [mentions[-limit:]]. *)
Definition last_n {A} (limit : Z) (l : list A) : list A :=
if (limit =? 0)%Z then l
else if (limit <? 0)%Z then drop (Z.to_nat (- limit)) l
else drop (length l - Z.to_nat limit) l.
Fixpoint mentioning (tag : string) (ms : list json) : result (list json) :=
match ms with
| [] => Ok []
| JObj d :: rest =>
    here ← py_in tag (dget_default "text" (JStr "") d);
    l ← mentioning tag rest;
    Ok (if here : bool then JObj d :: l else l)
| _ :: _ => Err (AttributeError "get")
end.
Definition read_channel_mentions (cs : channels) (self channel : string) (name : option string) (limit : Z) (source : string) :
  result (list json) :=
_ ← _validate_name channel;
let target := default self (n ← name; if str_truthy n then Some n else None) in
all_msgs ← read_channel cs self channel 1000 false source;
mentions ← mentioning ("@" +:+ target) all_msgs;
Ok (last_n limit mentions).

Fixpoint first_from (anima_name : string) (lines : list string) : result (option dict) :=
match lines with
| [] => Ok None
| line :: rest =>
    if blank line then first_from anima_name rest else
    match loads line with
    | None => first_from anima_name rest
    | Some (JObj d) =>
        if py_eq (dget_none "from" d) (JStr anima_name) then Ok (Some d) else first_from anima_name rest
    | Some _ => Err (AttributeError "get")
    end
end.
Definition last_post_by (cs : channels) (anima_name channel : string) : result (option dict) :=
match posts cs !! channel with
| None => Ok None
| Some t =>
    if negb (utf8_valid t) then Err (ValueError "UnicodeDecodeError") else
    first_from anima_name (reverse (channel_lines t))
end.
End channels.
