(* ===== verification/ChannelProps.v ===== *)
(** * Shared channels are append-only logs with an access list

    A channel whose posts are texts without line-break characters behaves as a
    list of entries: a post appends one, a read gives the newest ones in order
    ([channel_log]).  Whatever is posted went through the checks
    ([post_guarded]); outsiders see nothing. *)

From Stdlib Require Import Ascii.
From stdpp Require Import prelude strings list gmap.
From S2P Require Import Prelude PyValue PyText JsonText JsonRound JsonPrefix JournalText Channels.
Open Scope nat_scope.

Section log.
Context `{FT : !FloatText}.

(** One entry as a list of fields, its line and its value. *)
Abbreviation entry := (list (string * string)).
Definition line_of_entry (e : entry) : string := dumps " " (JObj (str_dict e)).
Definition good_entry (e : entry) : Prop := dict_text e = true ∧ NoDup (fst <$> e).
Definition value_of (e : entry) : json := JObj (str_dict e).

Lemma good_post_entry ts poster text source :
  line_text ts = true → line_text poster = true → line_text text = true → line_text source = true →
  good_entry (post_entry ts poster text source).
Proof.
  intros H1 H2 H3 H4. split; [|cbn; apply (bool_decide_unpack _); vm_compute; exact I].
  unfold dict_text, post_entry. cbn [forallb fst snd]. rewrite H1, H2, H3, H4. done.
Qed.

Lemma entry_clean e : good_entry e → clean (line_of_entry e) = true.
Proof. intros [Hg _]. unfold line_of_entry. rewrite <- (string_app_nil (dumps _ _)). by apply object_clean. Qed.
Lemma entry_utf8 e : good_entry e → utf8_valid (line_of_entry e) = true.
Proof. intros [Hg Hnd]. apply object_utf8; [done|by apply dict_text_utf8|done]. Qed.
Lemma entry_loads e : good_entry e → loads (line_of_entry e) = Some (value_of e).
Proof. intros [_ Hnd]. apply loads_dumps, object_wf; done. Qed.
Lemma entry_ends e : ∃ x, line_of_entry e = String "{" (x +:+ "}").
Proof. eexists. unfold line_of_entry. cbn [dumps]. reflexivity. Qed.
Lemma entry_visible e : blank (line_of_entry e) = false.
Proof. destruct (entry_ends e) as [x ->]. apply (blank_visible "" "{"); vm_compute; [done|lia]. Qed.

(** The file of a channel with these entries. *)
Definition log_of (es : list entry) : string := file_text (line_of_entry <$> es) "".

Lemma log_of_snoc es e : log_of (es ++ [e]) = log_of es +:+ line_of_entry e +:+ String LF "".
Proof. unfold log_of. rewrite fmap_app. cbn [fmap list_fmap]. by rewrite file_text_snoc, <- file_text_tail. Qed.

Lemma log_utf8 es : Forall good_entry es → utf8_valid (log_of es) = true.
Proof.
  intros Hes. unfold log_of. induction Hes as [|e es He _ IH]; [done|].
  change (file_text (line_of_entry <$> e :: es) "") with
    (line_of_entry e +:+ String LF (file_text (line_of_entry <$> es) "")).
  apply utf8_app; [by apply entry_utf8|]. by rewrite utf8_ascii by (vm_compute; lia).
Qed.

Lemma log_lines es : Forall good_entry es → channel_lines (log_of es) = line_of_entry <$> es.
Proof.
  intros Hes. unfold channel_lines. destruct es as [|e es _] using rev_ind; [done|].
  assert (∃ y, log_of (es ++ [e]) = String "{" y) as [y Hy].
  { destruct es as [|e' es]; [destruct (entry_ends e) as [x Hx]|destruct (entry_ends e') as [x Hx]];
      unfold log_of; cbn [app fmap list_fmap]; eexists; unfold file_text; cbn [foldr]; rewrite Hx; reflexivity. }
  rewrite Hy, strip_brace, <- Hy. rewrite log_of_snoc. destruct (entry_ends e) as [x Hx].
  assert (rstrip (log_of es +:+ line_of_entry e +:+ String LF "") = file_text (line_of_entry <$> es) (line_of_entry e)) as ->.
  { rewrite Hx. change (String "{" (x +:+ "}")) with (("{" +:+ x) +:+ "}").
    rewrite string_app_assoc, <- string_app_assoc. change ("}" +:+ String LF "") with (String "}" (String LF "")).
    rewrite rstrip_visible; [|done|vm_compute; lia]. unfold log_of.
    rewrite string_app_assoc, <- file_text_tail. done. }
  apply Forall_app in Hes as [Hes He]. apply Forall_cons in He as [He _].
  rewrite splitlines_file; [|by apply Forall_fmap; eapply Forall_impl; [exact Hes|]; intros; apply entry_clean|by apply entry_clean].
  rewrite bool_decide_eq_false_2 by (rewrite Hx; done). by rewrite fmap_app.
Qed.

(** The newest [limit] entries that count, oldest first. *)
Definition counts (human_only : bool) (e : entry) : bool :=
negb human_only || py_eq (dget_none "source" (str_dict e)) (JStr "human").
Definition newest_entries (human_only : bool) (limit : nat) (es : list entry) : list entry :=
let l := filter (λ e, counts human_only e = true) es in drop (length l - limit) l.

Lemma newest_spec human_only limit acc es : length acc < limit → Forall good_entry es →
  newest human_only (Z.of_nat limit) acc (line_of_entry <$> es) =
    Ok (take limit (acc ++ (value_of <$> filter (λ e, counts human_only e = true) es))).
Proof.
  intros Hacc Hes. revert acc Hacc. induction Hes as [|e es He _ IH]; intros acc Hacc.
  { cbn [newest fmap list_fmap]. rewrite app_nil_r, take_ge by lia. done. }
  cbn [newest fmap list_fmap]. rewrite entry_visible, (entry_loads e He). unfold value_of at 1 2 3. cbn beta iota zeta.
  assert (∀ l, take limit ((acc ++ [value_of e]) ++ l) =
     if (Z.of_nat limit <=? Z.of_nat (length (acc ++ [value_of e])))%Z then acc ++ [value_of e]
     else take limit ((acc ++ [value_of e]) ++ l)) as Hcut.
  { intros l. destruct (Z.leb_spec (Z.of_nat limit) (Z.of_nat (length (acc ++ [value_of e])))) as [Hle|]; [|done].
    rewrite length_app in Hle. simpl in Hle. rewrite take_app_le by (rewrite length_app; simpl; lia).
    apply take_ge. rewrite length_app. simpl. lia. }
  assert (∀ l, (if (Z.of_nat limit <=? Z.of_nat (length (acc ++ [value_of e])))%Z then Ok (acc ++ [value_of e])
     else Ok (take limit ((acc ++ [value_of e]) ++ l))) = Ok (take limit ((acc ++ [value_of e]) ++ l))) as Hgo.
  { intros l. rewrite (Hcut l) at 2. by destruct (_ <=? _)%Z. }
  assert (counts human_only e = true →
    (if (Z.of_nat limit <=? Z.of_nat (length (acc ++ [value_of e])))%Z then Ok (acc ++ [value_of e])
     else newest human_only (Z.of_nat limit) (acc ++ [value_of e]) (line_of_entry <$> es)) =
    Ok (take limit (acc ++ (value_of <$> filter (λ e, counts human_only e = true) (e :: es))))) as Hkeep.
  { intros Hc. rewrite filter_cons_True by done. cbn [fmap list_fmap].
    set (l := value_of <$> filter _ _). change (acc ++ value_of e :: l) with (acc ++ [value_of e] ++ l).
    rewrite (app_assoc acc [value_of e] l), <- Hgo. unfold l.
    destruct (Z.leb_spec (Z.of_nat limit) (Z.of_nat (length (acc ++ [value_of e])))); [done|]. apply IH. lia. }
  destruct human_only.
  - destruct (py_eq _ _) eqn:Ehuman.
    + apply Hkeep. unfold counts. by rewrite Ehuman.
    + rewrite IH by done. rewrite filter_cons_False; [done|]. unfold counts. by rewrite Ehuman.
  - by apply Hkeep.
Qed.

Lemma filter_reverse_comm {A} (P : A → Prop) `{!∀ x, Decision (P x)} (l : list A) :
  filter P (reverse l) = reverse (filter P l).
Proof.
  induction l as [|x l IH]; [done|]. rewrite reverse_cons, filter_app, IH, !filter_cons.
  case_decide; [by rewrite reverse_cons|by rewrite app_nil_r].
Qed.
Lemma reverse_take_reverse {A} n (l : list A) : reverse (take n (reverse l)) = drop (length l - n) l.
Proof. by rewrite take_reverse, reverse_involutive. Qed.

(** The file of [ch] holds these entries. *)
Record holds (cs : channels) (ch : string) (es : list entry) : Prop := {
  holds_text : posts cs !! ch = Some (log_of es);
  holds_good : Forall good_entry es
}.

Lemma read_holds cs self ch limit human_only src es : holds cs ch es → safe_name ch = true → 0 < limit →
  is_channel_member cs ch self src = Ok true →
  read_channel cs self ch (Z.of_nat limit) human_only src = Ok (value_of <$> newest_entries human_only limit es).
Proof.
  intros [Htext Hgood] Hname Hlimit Hmember. unfold read_channel, _validate_name. run_unfold.
  rewrite Hname, Hmember, Htext, (log_utf8 es Hgood), (log_lines es Hgood). cbn [negb].
  rewrite <- fmap_reverse, newest_spec; [|done|by apply Forall_reverse]. cbn [app].
  rewrite filter_reverse_comm, fmap_reverse, reverse_take_reverse, length_fmap. unfold newest_entries.
  by rewrite fmap_drop.
Qed.

(** One post: who, what, where from, under which name, when. *)
Record post_args := mk_post_args {
  pa_self : string; pa_text : string; pa_source : string; pa_from : option string; pa_ts : string
}.
Definition poster_of (p : post_args) : string :=
default (pa_self p) (n ← pa_from p; if str_truthy n then Some n else None).
Definition entry_of (p : post_args) : entry := post_entry (pa_ts p) (poster_of p) (pa_text p) (pa_source p).
Definition do_post (ch : string) (cfg : option (list string)) (p : post_args) : M channels unit :=
post_channel true true (pa_self p) ch (pa_text p) (pa_source p) (pa_from p) cfg (pa_ts p).

(** Posts that are let through: members and open channels, known names, texts
  of single lines. *)
Record allowed (cs : channels) (ch : string) (cfg : option (list string)) (p : post_args) : Prop := {
  allowed_member : is_channel_member cs ch (pa_self p) (pa_source p) = Ok true;
  allowed_poster : poster_unknown (pa_self p) (poster_of p) cfg = false;
  allowed_text : good_entry (entry_of p)
}.

Lemma member_metas cs cs' ch self src : metas cs' = metas cs → is_channel_member cs' ch self src = is_channel_member cs ch self src.
Proof. intros E. unfold is_channel_member, load_channel_meta. by rewrite E. Qed.

Lemma do_post_holds cs ch cfg p es m : holds cs ch es → safe_name ch = true → load_channel_meta cs ch = Ok m →
  allowed cs ch cfg p →
  ∃ cs', do_post ch cfg p cs = (Ok tt, cs') ∧ metas cs' = metas cs ∧ holds cs' ch (es ++ [entry_of p]).
Proof.
  intros [Htext Hgood] Hname Hmeta [Hmem Hknown He].
  exists (mk_channels (<[ch := log_of es +:+ line_of_entry (entry_of p) +:+ String LF ""]> (posts cs)) (metas cs)).
  split; [|split; [done|split]].
  - unfold do_post, post_channel, post_body. cbv zeta. fold (poster_of p). rewrite Hknown.
    unfold post_checks, _validate_name. run_unfold. rewrite Hname, Hmeta. cbn [negb]. rewrite Htext, Hmem.
    unfold append_line. run_unfold. cbn [negb]. rewrite Htext. reflexivity.
  - cbn [posts]. rewrite lookup_insert, decide_True by done. by rewrite log_of_snoc.
  - by apply Forall_app_2; [|apply Forall_singleton].
Qed.

End log.

(* ------------------------------------------------------------------ *)
(** ** The access list *)

Section access.
Context `{FT : !FloatText}.

(** There is a file or the metadata of an open channel. *)
Definition existed (cs : channels) (ch : string) : Prop :=
is_Some (posts cs !! ch) ∨ ∃ m, load_channel_meta cs ch = Ok (Some m) ∧ closed m = false.
Definition poster_name (self : string) (from_name : option string) : string :=
default self (n ← from_name; if str_truthy n then Some n else None).
Definition with_line (cs : channels) (ch line : string) : channels :=
mk_channels (<[ch := default "" (posts cs !! ch) +:+ line +:+ String LF ""]> (posts cs)) (metas cs).

Lemma poster_name_again self from_name : poster_name self (Some (poster_name self from_name)) = poster_name self from_name.
Proof.
  unfold poster_name. destruct from_name as [n|]; simpl; [destruct (str_truthy n) eqn:En; simpl; rewrite ?En|];
    try done; by destruct (str_truthy self).
Qed.

Lemma post_checks_ok self ch src cs cs' : post_checks self ch src cs = (Ok tt, cs') →
  cs' = cs ∧ safe_name ch = true ∧ existed cs ch ∧ is_channel_member cs ch self src = Ok true.
Proof.
  unfold post_checks, _validate_name, existed. run_unfold. destruct (safe_name ch); cbn [negb]; [|done].
  destruct (load_channel_meta cs ch) as [m|e]; [|done].
  destruct (posts cs !! ch) as [t|] eqn:Et.
  - destruct (is_channel_member cs ch self src) as [[]|e]; cbn [negb]; intros; simplify_eq. eauto.
  - destruct m as [m|]; [|done]. destruct (closed m) eqn:Ec; [done|].
    destruct (is_channel_member cs ch self src) as [[]|e]; cbn [negb]; intros; simplify_eq. eauto 10.
Qed.
Lemma post_checks_err self ch src cs e cs' : post_checks self ch src cs = (Err e, cs') → cs' = cs.
Proof.
  unfold post_checks, _validate_name. run_unfold. destruct (safe_name ch); cbn [negb]; [|congruence].
  destruct (load_channel_meta cs ch) as [m|e']; [|congruence].
  destruct (posts cs !! ch) as [t|]; [|destruct m as [m|]; [destruct (closed m)|]];
    destruct (is_channel_member cs ch self src) as [[]|e'']; cbn [negb]; congruence.
Qed.

Lemma post_body_guarded fallback w self ch text src from_name cfg ts cs r cs' :
  (∀ cs r cs', fallback cs = (r, cs') → cs' ≠ cs → r = Ok tt ∧
     cs' = with_line cs ch (dumps " " (JObj (str_dict (post_entry ts (poster_name self from_name) text src))))) →
  post_body fallback w self ch text src from_name cfg ts cs = (r, cs') → cs' ≠ cs →
  r = Ok tt ∧ safe_name ch = true ∧ existed cs ch ∧ is_channel_member cs ch self src = Ok true ∧
  poster_unknown self (poster_name self from_name) cfg = false ∧
  cs' = with_line cs ch (dumps " " (JObj (str_dict (post_entry ts (poster_name self from_name) text src)))).
Proof.
  intros Hfb Hrun Hne. unfold post_body in Hrun. cbv zeta in Hrun. fold (poster_name self from_name) in Hrun.
  unfold mbind, M_bind, mret, M_ret in Hrun. destruct (post_checks self ch src cs) as [[[]|e] cs1] eqn:Ec.
  - apply post_checks_ok in Ec as (-> & Hname & Hex & Hmem).
    destruct (poster_unknown _ _ _) eqn:Eu; [by simplify_eq|]. destruct w.
    + unfold append_line, modify in Hrun. simplify_eq. done.
    + apply Hfb in Hrun as [-> ->]; done.
  - apply post_checks_err in Ec as ->. by simplify_eq.
Qed.

(** Whatever [post_channel] changes, in the process itself or on the host
  it falls back to, is one line appended to that one channel, which existed
  before, by someone who may write there and under a known name; in every
  other case, error or not, nothing is written and no channel comes into
  being. *)
Theorem post_guarded w sv self ch text src from_name cfg ts cs r cs' :
  post_channel w sv self ch text src from_name cfg ts cs = (r, cs') → cs' ≠ cs →
  r = Ok tt ∧ safe_name ch = true ∧ existed cs ch ∧ is_channel_member cs ch self src = Ok true ∧
  poster_unknown self (poster_name self from_name) cfg = false ∧
  cs' = with_line cs ch (dumps " " (JObj (str_dict (post_entry ts (poster_name self from_name) text src)))).
Proof.
  unfold post_channel. cbv zeta. fold (poster_name self from_name). apply post_body_guarded.
  clear. intros cs r cs' Hrun Hne. unfold _post_channel_via_server, internal_post_channel in Hrun.
  destruct sv; [|by unfold raise in Hrun; simplify_eq].
  destruct (valid_anima_name self); cbn [negb] in Hrun; [|by unfold catch, raise in Hrun; simplify_eq].
  unfold catch in Hrun. destruct (post_body _ _ _ _ _ _ _ _ _ cs) as [[[]|e] cs1] eqn:Eb.
  - simplify_eq. apply post_body_guarded in Eb as (_ & _ & _ & _ & _ & E); [|by intros ??? [=]|done].
    by rewrite poster_name_again in E.
  - unfold raise in Hrun. simplify_eq. exfalso.
    apply post_body_guarded in Eb as (Hr & _); [done|by intros ??? [=]|done].
Qed.

(** Someone the access list leaves out gets nothing of a channel: no post,
  which raises, and no message of it; and the list leaves out, of all but the
  humans at the web interface, everybody when the channel is closed and
  everybody but its members when it has any. *)
Theorem outsiders_excluded w sv cs self ch text src from_name cfg ts limit human_only :
  safe_name ch = true → is_channel_member cs ch self src = Ok false →
  (∃ m, src ≠ "human" ∧ load_channel_meta cs ch = Ok (Some m) ∧
        (closed m = true ∨ truthy (members m) = true ∧ py_in self (members m) = Ok false)) ∧
  post_channel w sv self ch text src from_name cfg ts cs = (Err (ChannelAccessDeniedError ch), cs) ∧
  read_channel cs self ch limit human_only src = Ok [].
Proof.
  intros Hname Hmem.
  assert (∃ m, src ≠ "human" ∧ load_channel_meta cs ch = Ok (Some m) ∧
    (closed m = true ∨ truthy (members m) = true ∧ py_in self (members m) = Ok false)) as (m & Hsrc & Hmeta & Hout).
  { revert Hmem. unfold is_channel_member. case_bool_decide; [done|]. run_unfold.
    destruct (load_channel_meta cs ch) as [[m|]|e]; [|done..]. intros Hm. exists m. split; [done|]. split; [done|].
    destruct (truthy (members m)); cbn [negb andb] in Hm; destruct (closed m); cbn [negb] in Hm; auto; done. }
  split; [by exists m|]. split.
  - unfold post_channel, post_body, post_checks, _validate_name. cbv zeta. run_unfold. rewrite Hname, Hmeta. cbn [negb].
    destruct (posts cs !! ch) as [t|]; [|destruct (closed m) eqn:Ec]; rewrite ?Hmem; done.
  - unfold read_channel, _validate_name. run_unfold. by rewrite Hname, Hmem.
Qed.

(** Metadata that are no JSON count as no metadata: the channel is open to
  everybody, whoever its members were. *)
Lemma corrupt_meta_opens cs ch t self src : metas cs !! ch = Some t → utf8_valid t = true → loads t = None →
  is_channel_member cs ch self src = Ok true.
Proof.
  intros Ht Hu Hl. unfold is_channel_member, load_channel_meta. case_bool_decide; [done|]. run_unfold.
  by rewrite Ht, Hu, Hl.
Qed.

(** Saved metadata are what is loaded again, a missing company aside. *)
Theorem channel_meta_roundtrip cs ch m : json_wf (JObj (meta_dict m)) = true → json_utf8 (JObj (meta_dict m)) = true →
  (company m = JStr "" ∨ truthy (company m) = true) →
  load_channel_meta (snd (save_channel_meta ch m cs)) ch = Ok (Some m).
Proof.
  intros Hwf Hutf Hco. unfold save_channel_meta, load_channel_meta, modify. cbn [snd metas].
  rewrite lookup_insert, decide_True by done. rewrite dumps_utf8, loads_dumps by done. cbn [negb].
  transitivity (Ok (Some (mk_meta (members m) (created_by m) (created_at m) (description m) (closed m)
    (slack_sync_disabled m) (slack_deleted_at m) (if truthy (company m) then company m else JStr "")))); [reflexivity|].
  destruct m as [mem cb ca de cl sl sd co]. simpl in *. by destruct Hco as [->| ->].
Qed.
End access.
