(* ===== verification/Messenger.v ===== *)
(** * Sending ([core/messenger.py])

    [Messenger.send] with its guards (the durable delivery identifier and the
    message limits of [Cascade]), the fallback to the host for a process that
    may not write [shared/inbox] ([server/routes/internal.py]), the read
    acknowledgements, and the intake of messages from external platforms with
    its in-memory record of recent deliveries.  The state is the directory
    [shared/inbox] (one mailbox per name), the channels, the record and the
    [message_sent] events of the activity logs.

    A recipient is taken as a directory name; a name with a slash in it, which
    the file system would read as a path, is not modelled.  The texts of the
    error messages that stand in for a refused message are the localised
    strings of [core/i18n]; a refusal is modelled by its reason. *)

From Stdlib Require Import Ascii QArith.
From stdpp Require Import prelude strings list gmap sorting.
From S2P Require Import Prelude PyValue PyText JsonText TaskQueue Activity Cascade Mailbox Channels.
Open Scope nat_scope.

(** [re.fullmatch(r"[a-zA-Z0-9_-]{1,160}", s)] and the recipient names of the
    host endpoint. *)
Definition id_char (c : ascii) : bool :=
  is_digit c || in_range 65 90 (code c) || lower_letter c || ceq c "_" || ceq c "-".
Fixpoint all_id_chars (s : string) : bool :=
  match s with EmptyString => true | String c s' => id_char c && all_id_chars s' end.
Definition valid_delivery_id (s : string) : bool :=
  all_id_chars s && (1 <=? String.length s) && (String.length s <=? 160).
Definition valid_recipient (s : string) : bool := all_id_chars s && (1 <=? String.length s).

(** One [message_sent] event: the log it goes to, the recipient, the text and
    the intent. *)
Record sent_event := mk_sent { sent_by : string; sent_to : string; sent_text : string; sent_intent : string }.

Record post := mk_post {
  boxes : gmap string mailbox;
  channel_files : channels;
  external_seen : list (string * Q);
  sent_log : list sent_event
}.
Definition box (p : post) (name : string) : mailbox := default ∅ (boxes p !! name).
Definition set_box (name : string) (mb : mailbox) (p : post) : post :=
  mk_post (<[name := mb]> (boxes p)) (channel_files p) (external_seen p) (sent_log p).
(** An operation of one anima's mailbox. *)
Definition in_box {A} (name : string) (m : M mailbox A) : M post A := λ p,
  let '(r, mb) := m (box p name) in (r, set_box name mb p).
Definition in_channels {A} (m : M channels A) : M post A := λ p,
  let '(r, cs) := m (channel_files p) in (r, mk_post (boxes p) cs (external_seen p) (sent_log p)).

(** What a call to [send] finds: the directories below [animas/] ([None]:
    there is no such directory), the message limits and the activity log they
    read, the time, whether [shared/inbox] can be written, whether the host
    can be reached. *)
Record send_env := mk_env {
  animas_dir : option (list string);
  depth_limiter : ConversationDepthLimiter;
  outbound : result outbound_limits;
  activity : option (Z → day_file);
  today : Z;
  now : Q;
  writable : bool;
  server : bool
}.

(** The arguments of [send] after the recipient and the text. *)
Record send_args := mk_args {
  msg_type : string; a_thread_id : string; a_reply_to : string; skip_logging : bool; a_intent : string;
  a_origin_chain : list string; a_meta : dict; a_source : string; delivery_id : string
}.
Definition default_args : send_args := mk_args "message" "" "" false "" [] [] "anima" "".

(** [send] returns the message, or an error message from ["system"] to the
    sender in place of a message that was refused. *)
Inductive refusal := OutboundLimit (c : outbound_check) | DepthExceeded (to : string).
Inductive sent := Sent (m : Message) | Refused (why : refusal).

Section messenger.
Context `{FloatText, Calendar, Codec, Listing file}.

(** A message as [Message( ** fields)] builds it: the defaults of [id] and
  [timestamp] come from the clock.  [fresh_id] is the local time of the call
  to the microsecond. *)
Definition new_message (fresh_id : string) (stamp : datetime) (sender to content : string) (a : send_args) : Message :=
let id := if str_truthy (delivery_id a) then delivery_id a else fresh_id in
mk_message id (str_or (a_thread_id a) id) (a_reply_to a) sender to (msg_type a) content [] (a_intent a) stamp
  (a_source a) "" "" "" "" (a_origin_chain a) (a_meta a).

Definition file_name (id : string) : string := id +:+ ".json".
Definition write_message (now : Q) (to : string) (m : Message) : M post unit :=
in_box to (modify (λ mb, set_files Inbox (<[file_name (id m) := mk_file (model_dump_json m) now]> (inbox mb)) mb)).

(** [/internal/send-message]. *)
Definition internal_send_message (now : Q) (m : Message) : M post unit :=
if negb (valid_anima_name (from_person m)) || negb (valid_recipient (to_person m))
then raise (ValueError "400 Invalid sender/recipient name") else
if negb (valid_delivery_id (id m)) then raise (ValueError "400 Invalid message ID") else
done ← gets (λ p, bool_decide (is_Some (processed (box p (to_person m)) !! file_name (id m))));
if done : bool then mret tt else write_message now (to_person m) m.
Definition _deliver_via_server (e : send_env) (m : Message) : M post unit :=
if server e then catch (internal_send_message (now e) m) (λ _, raise (DeliveryError (to_person m)))
else raise (DeliveryError (to_person m)).

(** An earlier delivery under the same identifier. *)
Definition earlier_delivery (p : post) (to delivery_id : string) : option file :=
match inbox (box p to) !! file_name delivery_id with
| Some f => Some f
| None => processed (box p to) !! file_name delivery_id
end.

Definition is_internal (e : send_env) (to : string) : bool :=
match animas_dir e with Some names => str_in to names | None => false end.
Definition limited (e : send_env) (a : send_args) (to : string) : bool :=
bool_decide (a_source a = "anima") && negb (str_in (msg_type a) ["ack"; "error"; "system_alert"]) && is_internal e to.
Definition check_limits (e : send_env) (sender to : string) : result (option refusal) :=
outcome ← check_global_outbound (depth_limiter e) sender (outbound e) (activity e) (today e) (now e);
match outcome with
| Allowed =>
    if check_depth (depth_limiter e) to (activity e) (today e) (now e) then Ok None else Ok (Some (DepthExceeded to))
| o => Ok (Some (OutboundLimit o))
end.

Definition log_sent (e : send_env) (sender to content : string) (a : send_args) : M post unit :=
if skip_logging a then mret tt else
match animas_dir e with
| Some names =>
    if str_in sender names
    then modify (λ p, mk_post (boxes p) (channel_files p) (external_seen p)
                        (sent_log p ++ [mk_sent sender to content (a_intent a)]))
    else mret tt
| None => mret tt
end.

(** The delivery itself: the file, or the host. *)
Definition deliver (e : send_env) (to : string) (m : Message) : M post unit :=
if writable e then write_message (now e) to m else _deliver_via_server e m.

Definition send (e : send_env) (fresh_id : string) (stamp : datetime) (sender to content : string) (a : send_args) : M post sent :=
_ ← guard_raise (str_truthy (delivery_id a) && negb (valid_delivery_id (delivery_id a)))
      (ValueError "Invalid durable delivery ID");
previous ← gets (λ p, if str_truthy (delivery_id a) then earlier_delivery p to (delivery_id a) else None);
match previous with
| Some f =>
    match load_message (now e) f with
    | Some m => mret (Sent m)
    | None => raise (ValueError "ValidationError")
    end
| None =>
    refused ← lift (if limited e a to then check_limits e sender to else Ok None);
    match refused with
    | Some why => mret (Refused why)
    | None =>
        let m := new_message fresh_id stamp sender to content a in
        _ ← deliver e to m;
        _ ← log_sent e sender to content a;
        mret (Sent m)
    end
end.

Definition reply (e : send_env) (fresh_id : string) (stamp : datetime) (sender : string) (original : Message)
  (content intent : string) : M post sent :=
send e fresh_id stamp sender (from_person original) content
  (mk_args "message" (str_or (thread_id original) (id original)) (id original) false intent [] [] "anima" "").

(* ------------------------------------------------------------------ *)
(** ** Read acknowledgements *)

(** [senders.setdefault(m.from_person, []).append(m)]. *)
Definition add_sender (acc : list (string * list Message)) (m : Message) : list (string * list Message) :=
dset (from_person m) (default [] (dget (from_person m) acc) ++ [m]) acc.
Definition by_sender (ms : list Message) : list (string * list Message) := foldl add_sender [] ms.

(** [receipt] is the localised text of an acknowledgement; [stamps] gives the
  identifier and the time of the n-th message sent. *)
Fixpoint send_acks (e : send_env) (stamps : nat → string * datetime) (self : string) (receipt : list Message → string)
  (k : nat) (groups : list (string * list Message)) : M post unit :=
match groups with
| [] => mret tt
| (sender, ms) :: rest =>
    _ ← catch (_ ← send e (fst (stamps k)) (snd (stamps k)) self sender (receipt ms)
                     (mk_args "ack" "" "" true "" [] [] "anima" ""); mret tt) (λ _, mret tt);
    send_acks e stamps self receipt (S k) rest
end.
Definition receive_and_archive (e : send_env) (stamps : nat → string * datetime) (self : string)
  (cfg : option (list string)) (enable_read_ack : bool) (receipt : list Message → string) : M post (list Message) :=
messages ← in_box self (receive self cfg (now e));
match messages with
| [] => mret []
| _ =>
    _ ← (if enable_read_ack
         then send_acks e stamps self receipt 0
                (by_sender (filter (λ m, type m ∉ ["ack"; "board_mention"]) messages))
         else mret tt);
    _ ← in_box self archive_all;
    mret messages
end.

(* ------------------------------------------------------------------ *)
(** ** Messages from external platforms *)

Definition _EXTERNAL_DEDUP_TTL : Q := 30.
Definition external_key (source source_message_id : string) : string := source +:+ ":" +:+ source_message_id.
Fixpoint drop_old (now : Q) (seen : list (string * Q)) : list (string * Q) :=
match seen with
| (k, t) :: rest => if negb (Qle_bool (now - _EXTERNAL_DEDUP_TTL) t) then drop_old now rest else seen
| [] => []
end.
Definition _is_duplicate_external (monotonic : Q) (source source_message_id : string) (seen : list (string * Q)) :
  bool * list (string * Q) :=
if negb (str_truthy source_message_id) then (false, seen) else
let key := external_key source source_message_id in
let seen := drop_old monotonic seen in
if dhas key seen then (true, seen) else (false, dset key monotonic seen).

(** The arguments of [receive_external]. *)
Record external := mk_external {
  x_content : string; x_source : string; x_message_id : string; x_user_id : string; x_channel_id : string;
  x_thread_ts : string; x_intent : string
}.
Definition ORIGIN_EXTERNAL_PLATFORM : string := "external_platform".
Definition external_message (fresh_id : string) (stamp : datetime) (self : string) (x : external) : Message :=
mk_message fresh_id fresh_id "" (if str_truthy (x_user_id x) then x_source x +:+ ":" +:+ x_user_id x else x_source x) self
  "message" (x_content x) [] (x_intent x) stamp (x_source x) (x_message_id x) (x_user_id x) (x_channel_id x)
  (x_thread_ts x) [ORIGIN_EXTERNAL_PLATFORM] [].

(** The mirror of a human's [@all]; a missing or closed channel is passed
  over. *)
Definition mirror_all (self : string) (cfg : option (list string)) (ts : string) (x : external) : M post unit :=
if bool_decide (x_source x = "human") && contains "@all" (x_content x)
then catch (in_channels (post_channel true true self "general" (x_content x) "human" (Some (str_or (x_user_id x) "human")) cfg ts))
       (λ err, match err with
               | ChannelNotFoundError _ | ChannelAccessDeniedError _ => mret tt
               | err => raise err
               end)
else mret tt.

(** [monotonic] is the process clock of the record, [wall] the time of the
  write, [writes] whether the file can be written. *)
Definition receive_external (monotonic wall : Q) (writes : bool) (fresh_id : string) (stamp : datetime) (self : string)
  (cfg : option (list string)) (ts : string) (x : external) : M post (option Message) :=
dup ← (λ p, let '(dup, seen) := _is_duplicate_external monotonic (x_source x) (x_message_id x) (external_seen p) in
            (Ok dup, mk_post (boxes p) (channel_files p) seen (sent_log p)));
if dup : bool then mret None else
let m := external_message fresh_id stamp self x in
_ ← (if writes then write_message wall self m else raise (FileNotFoundError (file_name (id m))));
_ ← mirror_all self cfg ts x;
mret (Some m).
End messenger.
