(* ===== verification/MessengerProps.v ===== *)
(** * What the messenger promises

    A message that was sent is read by its recipient; a durable message is
    delivered once, however often it is sent again and whatever the recipient
    does with it meanwhile; an external message is accepted once within the
    window of the record of recent deliveries. *)

From Stdlib Require Import Ascii QArith Lqa.
From stdpp Require Import prelude strings list gmap sorting.
From S2P Require Import Prelude PyValue PyText JsonText JsonRound TaskQueue.
From S2P Require Import Activity Cascade Mailbox MailboxProps Channels ChannelProps Messenger.
Open Scope nat_scope.

Lemma box_set name n mb p : box (set_box name mb p) n = if decide (n = name) then mb else box p n.
Proof.
  unfold box, set_box. cbn [boxes]. case_decide; [subst; by rewrite lookup_insert, decide_True|].
  by rewrite lookup_insert_ne.
Qed.

Lemma file_name_inj a b : file_name a = file_name b → a = b.
Proof. unfold file_name. apply string_app_inj_r. Qed.

Section messenger.
Context `{FloatText, Calendar, Codec, Listing file}.

(** Every mailbox but that of [name] is as it was. *)
Definition elsewhere (name : string) (p p' : post) : Prop := ∀ n, n ≠ name → box p' n = box p n.

Lemma in_box_run {A} name (m : M mailbox A) p r p' : in_box name m p = (r, p') →
  ∃ mb', m (box p name) = (r, mb') ∧ p' = set_box name mb' p.
Proof. unfold in_box. destruct (m (box p name)) as [r' mb']. intros. simplify_eq. eauto. Qed.

(** The file of a new message, and the mailbox that has it. *)
Definition with_file (id : string) (f : file) (mb : mailbox) : mailbox :=
set_files Inbox (<[file_name id := f]> (inbox mb)) mb.
Lemma write_message_run now to m p :
  write_message now to m p = (Ok tt, set_box to (with_file (id m) (mk_file (model_dump_json m) now) (box p to)) p).
Proof. done. Qed.

(** Delivering a message writes it, unless the host finds it archived already
  or refuses. *)
Lemma deliver_run e to m p r p' : to_person m = to → deliver e to m p = (r, p') →
  p' = p ∧ (r = Ok tt → is_Some (processed (box p to) !! file_name (id m))) ∨
  p' = set_box to (with_file (id m) (mk_file (model_dump_json m) (now e)) (box p to)) p ∧ r = Ok tt.
Proof.
  intros Hto. unfold deliver, _deliver_via_server, internal_send_message. destruct (writable e).
  { rewrite write_message_run. intros. simplify_eq. by right. }
  run_unfold. destruct (server e); [|intros; simplify_eq; by left].
  destruct (_ || _); [intros; simplify_eq; by left|].
  destruct (valid_delivery_id (id m)); cbn [negb]; [|intros; simplify_eq; by left].
  rewrite Hto. case_bool_decide; [intros; simplify_eq; by left|].
  rewrite write_message_run. intros. simplify_eq. by right.
Qed.
Lemma deliver_writable e to m p : writable e = true →
  deliver e to m p = (Ok tt, set_box to (with_file (id m) (mk_file (model_dump_json m) (now e)) (box p to)) p).
Proof. intros Hw. unfold deliver. by rewrite Hw. Qed.

Lemma log_sent_run e sender to content a p : ∃ l,
  log_sent e sender to content a p = (Ok tt, mk_post (boxes p) (channel_files p) (external_seen p) (sent_log p ++ l)).
Proof.
  unfold log_sent. destruct (skip_logging a); [exists []; rewrite app_nil_r; by destruct p|].
  destruct (animas_dir e) as [names|]; [|exists []; rewrite app_nil_r; by destruct p].
  destruct (str_in sender names); [|exists []; rewrite app_nil_r; by destruct p]. by eexists.
Qed.

(** All a call to [send] can do to the mailboxes. *)
Lemma send_run e fid stamp sender to content a p r p' : send e fid stamp sender to content a p = (r, p') →
  let m := new_message fid stamp sender to content a in
  (∀ n, box p' n = box p n) ∧
    (∀ m', r = Ok (Sent m') → str_truthy (delivery_id a) = true ∧ is_Some (earlier_delivery p to (delivery_id a)) ∨
                              is_Some (processed (box p to) !! file_name (id m))) ∨
  r = Ok (Sent m) ∧ (str_truthy (delivery_id a) = true → earlier_delivery p to (delivery_id a) = None) ∧
  (∀ n, box p' n = if decide (n = to) then with_file (id m) (mk_file (model_dump_json m) (now e)) (box p to) else box p n).
Proof.
  intros Hrun m. unfold send in Hrun. run_unfold.
  destruct (str_truthy (delivery_id a) && negb (valid_delivery_id (delivery_id a))); [simplify_eq; by left|].
  destruct (if str_truthy (delivery_id a) then earlier_delivery p to (delivery_id a) else None) as [f|] eqn:Eprev.
  { left. split; [destruct (load_message (now e) f); by simplify_eq|]. intros m' ->. left.
    destruct (str_truthy (delivery_id a)); [|done]. by split; [|exists f]. }
  destruct (if limited e a to then check_limits e sender to else Ok None) as [[why|]|err]; [simplify_eq; by left| |simplify_eq; by left].
  fold m in Hrun. destruct (deliver e to m p) as [[[]|err] p1] eqn:Ed.
  - match type of Hrun with context [log_sent ?e ?s ?t ?c ?a ?p1] => destruct (log_sent_run e s t c a p1) as [l El] end.
    rewrite El in Hrun. simplify_eq. apply deliver_run in Ed as [[-> Hp]|[-> _]]; [| |done].
    + left. split; [done|]. intros m' _. right. by apply Hp.
    + right. split; [done|]. split; [intros Hd; by rewrite Hd in Eprev|]. intros n. apply (box_set to n _ p).
  - apply deliver_run in Ed as [[-> _]|[_ [=]]]; [|done]. simplify_eq. by left.
Qed.

(* ------------------------------------------------------------------ *)
(** ** Durable messages *)

(** The file [k] is unread, or it is archived. *)
Definition unread (k : string) (f : file) (mb : mailbox) : Prop := inbox mb !! k = Some f ∧ processed mb !! k = None.
Definition read_once (k : string) (f : file) (mb : mailbox) : Prop := inbox mb !! k = None ∧ processed mb !! k = Some f.
(** What the file [k] may go through: unread it stays or is archived, archived
  it stays. *)
Definition progresses (k : string) (f : file) (mb mb' : mailbox) : Prop :=
(unread k f mb → unread k f mb' ∨ read_once k f mb') ∧ (read_once k f mb → read_once k f mb').

#[local] Instance progresses_preorder k f : PreOrder (progresses k f).
Proof.
  split; [intros mb; split; auto|]. intros m1 m2 m3 [Ha Hb] [Hc Hd]. split; [|auto].
  intros [Hu|Hr]%Ha; auto.
Qed.

Lemma within_map {S A B} (R : S → S → Prop) (m : M S A) (g : A → B) : within R m → within R (m ≫= λ a, mret (g a)).
Proof. intros Hm s. specialize (Hm s). unfold mbind, M_bind. by destruct (m s) as [[a|e] s']. Qed.

Lemma progresses_rename k f n : within (progresses k f) (rename Inbox n Processed n).
Proof.
  intros mb. unfold rename, progresses, unread, read_once. cbn [files set_files].
  destruct (inbox mb !! n) as [g|] eqn:E; cbn [snd inbox processed]; [|auto].
  rewrite lookup_delete, lookup_insert. repeat case_decide; subst; try tauto.
  rewrite E. split; [intros [[= ->] _]; by right|by intros [? _]].
Qed.
Lemma progresses_archive_names k f ns : within (progresses k f) (archive_names ns).
Proof.
  induction ns as [|n ns IH]; [apply within_ret|]. cbn [archive_names]. apply within_bind; [apply within_gets|].
  intros [|]; [|done]. apply within_bind; [apply progresses_rename|]. intros _. by apply within_map.
Qed.
Lemma progresses_rename_all k f ns : within (progresses k f) (rename_all ns).
Proof.
  induction ns as [|n ns IH]; [apply within_ret|]. cbn [rename_all]. apply within_bind; [apply progresses_rename|].
  intros _. by apply within_map.
Qed.
Lemma progresses_archive_all k f : within (progresses k f) archive_all.
Proof.
  unfold archive_all. apply within_bind; [apply within_gets|]. intros ns. apply within_bind; [apply progresses_rename_all|].
  intros c. apply within_bind; [apply within_gets|]. intros rest. apply within_map, progresses_rename_all.
Qed.
Lemma progresses_archive_from k f sender : within (progresses k f) (archive_from sender).
Proof.
  unfold archive_from. apply within_bind; [apply within_gets|]. intros ns. induction ns as [|n ns IH]; [apply within_ret|].
  cbn [archive_from_names]. apply within_bind; [apply within_gets|]. intros [g|]; [|done].
  destruct (negb _); [apply within_raise|]. destruct (loads (text g)) as [[]|]; try apply within_raise; try done.
  destruct (py_eq _ _); [|done]. apply within_bind; [apply progresses_rename|]. intros _. by apply within_map.
Qed.
Lemma progresses_receive k f m self cfg now mb : load_message now f = Some m →
  unknown_sender (known_animas self cfg) m = false →
  progresses k f mb (snd (receive_with_paths self cfg now mb)).
Proof.
  intros Hload Hknown. rewrite receive_spec. cbn [snd]. unfold progresses, unread, read_once, quarantined.
  cbn [inbox processed]. rewrite lookup_without. split.
  - intros [E Hp]. left. rewrite decide_False; [done|]. unfold rejected. intros [Hr _]%list_elem_of_filter.
    unfold readable, verdict in Hr. rewrite E in Hr. simpl in Hr. rewrite Hload in Hr. simpl in Hr.
    by rewrite Hknown in Hr.
  - intros [E Hp]. rewrite E. by case_decide.
Qed.

(** Everything that can happen to the mailboxes but the sweep: sends, reads
  and the ways of archiving, by anybody.  Reading where [to] knows the sender
  of [m]; the identifiers made of the time are not [d]. *)
Inductive traffic (to d : string) (m : Message) : post → post → Prop :=
| t_send e fid stamp sender to' content a p r p' : fid ≠ d →
    send e fid stamp sender to' content a p = (r, p') → traffic to d m p p'
| t_receive name cfg now p r p' : (name = to → unknown_sender (known_animas name cfg) m = false) →
    in_box name (receive_with_paths name cfg now) p = (r, p') → traffic to d m p p'
| t_archive_paths name items p r p' : in_box name (archive_paths items) p = (r, p') → traffic to d m p p'
| t_archive_all name p r p' : in_box name archive_all p = (r, p') → traffic to d m p p'
| t_archive_from name sender p r p' : in_box name (archive_from sender) p = (r, p') → traffic to d m p p'
| t_external mono wall writes fid stamp name cfg ts x p r p' : fid ≠ d →
    receive_external mono wall writes fid stamp name cfg ts x p = (r, p') → traffic to d m p p'.

Lemma progresses_with_file k f mb id g : k ≠ file_name id → progresses k f mb (with_file id g mb).
Proof.
  intros Hne. unfold progresses, unread, read_once, with_file. cbn [set_files inbox processed].
  rewrite lookup_insert_ne by done. tauto.
Qed.

Lemma in_box_progresses {A} k f name to (m : M mailbox A) p r p' : within (progresses k f) m →
  in_box name m p = (r, p') → progresses k f (box p to) (box p' to).
Proof.
  intros Hm (mb' & Hrun & ->)%in_box_run. rewrite box_set. case_decide; [subst|done].
  specialize (Hm (box p name)). by rewrite Hrun in Hm.
Qed.

Lemma external_boxes mono wall writes fid stamp name cfg ts x p r p' :
  receive_external mono wall writes fid stamp name cfg ts x p = (r, p') →
  ∀ n, box p' n = box p n ∨ n = name ∧ ∃ g, box p' n = with_file fid g (box p n).
Proof.
  intros Hrun n. unfold receive_external in Hrun. run_unfold.
  destruct (_is_duplicate_external mono (x_source x) (x_message_id x) (external_seen p)) as [[] seen]; [simplify_eq; by left|].
  destruct writes; [|simplify_eq; by left]. rewrite write_message_run in Hrun.
  assert (∀ q r q', mirror_all name cfg ts x q = (r, q') → box q' n = box q n) as Hmirror.
  { clear. intros q r q'. unfold mirror_all. destruct (_ && _); [|intros; by run_unfold; simplify_eq].
    unfold catch, in_channels. destruct (post_channel _ _ _ _ _ _ _ _ _ _) as [[a|err] cs]; [intros; by simplify_eq|].
    destruct err; intros; run_unfold; by simplify_eq. }
  match type of Hrun with context [mirror_all name cfg ts x ?q] => destruct (mirror_all name cfg ts x q) as [r1 q1] eqn:Em;
    pose proof (Hmirror _ _ _ Em) as Hbox end.
  rewrite box_set in Hbox. assert (box p' n = box q1 n) as -> by (destruct r1; by simplify_eq).
  rewrite Hbox. case_decide; [right|by left]. subst. split; [done|]. by eexists.
Qed.

Lemma traffic_progresses to d m f p p' : (∀ now, load_message now f = Some m) → earlier_delivery p to d = Some f →
  traffic to d m p p' → progresses (file_name d) f (box p to) (box p' to).
Proof.
  intros Hload Hearly Hstep. destruct Hstep as [e fid stamp sender to' content a p r p' Hfid Hrun
    |name cfg now p r p' Hknown Hrun|name items p r p' Hrun|name p r p' Hrun|name sender p r p' Hrun
    |mono wall writes fid stamp name cfg ts x p r p' Hfid Hrun].
  - destruct (send_run _ _ _ _ _ _ _ _ _ _ Hrun) as [[Hb _]|(_ & Hnew & Hb)]; [by rewrite Hb|].
    rewrite Hb. case_decide; [subst to'|done]. unfold new_message. cbn [id].
    destruct (str_truthy (delivery_id a)) eqn:Ed.
    + apply progresses_with_file. intros ->%file_name_inj. rewrite Hnew in Hearly by done. done.
    + apply progresses_with_file. intros ?%file_name_inj. congruence.
  - apply in_box_run in Hrun as (mb' & Hrun & ->). rewrite box_set. case_decide as Hn; [subst|done].
    pose proof (progresses_receive (file_name d) f m name cfg now (box p name) (Hload now) (Hknown eq_refl)) as Hp.
    by rewrite Hrun in Hp.
  - by eapply in_box_progresses; [apply progresses_archive_names|].
  - by eapply in_box_progresses; [apply progresses_archive_all|].
  - by eapply in_box_progresses; [apply progresses_archive_from|].
  - destruct (external_boxes _ _ _ _ _ _ _ _ _ _ _ _ Hrun to) as [->|(-> & g & ->)]; [done|].
    apply progresses_with_file. intros ?%file_name_inj. congruence.
Qed.

Lemma earlier_unread p to d f : unread (file_name d) f (box p to) ∨ read_once (file_name d) f (box p to) →
  earlier_delivery p to d = Some f.
Proof. unfold earlier_delivery. intros [[E E']|[E E']]; by rewrite E, ?E'. Qed.
Lemma earlier_none p to d : earlier_delivery p to d = None →
  inbox (box p to) !! file_name d = None ∧ processed (box p to) !! file_name d = None.
Proof. unfold earlier_delivery. by destruct (inbox (box p to) !! file_name d). Qed.

Lemma traffic_keeps to d m f p p' : (∀ now, load_message now f = Some m) →
  unread (file_name d) f (box p to) ∨ read_once (file_name d) f (box p to) →
  rtc (traffic to d m) p p' → progresses (file_name d) f (box p to) (box p' to).
Proof.
  intros Hload Hu Hsteps. induction Hsteps as [p|p1 p2 p3 Hstep _ IH]; [done|].
  pose proof (traffic_progresses to d m f p1 p2 Hload (earlier_unread p1 to d f Hu) Hstep) as Hp.
  etrans; [exact Hp|]. apply IH. destruct Hp as [Ha Hb]. destruct Hu as [Hu|Hr]; auto.
Qed.

(** A repeated send under an identifier that has a file is answered from the
  file. *)
Lemma send_again e fid stamp sender to content a p f m : valid_delivery_id (delivery_id a) = true →
  earlier_delivery p to (delivery_id a) = Some f → load_message (now e) f = Some m →
  send e fid stamp sender to content a p = (Ok (Sent m), p).
Proof.
  intros Hv He Hl. unfold send. run_unfold. rewrite Hv, andb_false_r.
  assert (str_truthy (delivery_id a) = true) as ->.
  { unfold valid_delivery_id in Hv. by destruct (delivery_id a). }
  by rewrite He, Hl.
Qed.

(** C19. A message sent under a delivery identifier is delivered exactly once:
  whatever is sent, read and archived afterwards by anybody, the recipient's
  mailbox holds its one file, first unread, then archived for good, and any
  further send under the identifier, with whatever text, changes nothing and
  answers with the message of the first.  (The sweep, which moves the file to
  a directory the send does not look into, is not among the steps.) *)
Theorem durable_delivery e fid stamp sender to content a m p p1 p2 :
  let d := delivery_id a in
  valid_delivery_id d = true → earlier_delivery p to d = None →
  send e fid stamp sender to content a p = (Ok (Sent m), p1) →
  (∀ now t, load_message now (mk_file (model_dump_json m) t) = Some m) →
  rtc (traffic to d m) p1 p2 →
  (∃ t, let f := mk_file (model_dump_json m) t in
     (unread (file_name d) f (box p2 to) ∨ read_once (file_name d) f (box p2 to)) ∧
     (∀ p3, rtc (traffic to d m) p2 p3 → read_once (file_name d) f (box p2 to) → read_once (file_name d) f (box p3 to))) ∧
  ∀ e' fid' stamp' sender' content' a', delivery_id a' = d →
    send e' fid' stamp' sender' to content' a' p2 = (Ok (Sent m), p2).
Proof.
  intros d Hv Hnone Hrun Hload Hsteps. set (f := mk_file (model_dump_json m) (now e)).
  assert (str_truthy d = true) as Ht by (unfold valid_delivery_id in Hv; by destruct d).
  destruct (earlier_none p to d Hnone) as [Hin Hpr].
  assert (unread (file_name d) f (box p1 to)) as Hu.
  { destruct (send_run _ _ _ _ _ _ _ _ _ _ Hrun) as [[_ Hb]|(Hm & _ & Hb)].
    - destruct (Hb m eq_refl) as [[_ Hg]|[g Hg]]; [fold d in Hg; rewrite Hnone in Hg; by destruct Hg|].
      unfold new_message in Hg. cbn [id] in Hg. fold d in Hg. rewrite Ht in Hg. congruence.
    - injection Hm as Hm. unfold unread. rewrite Hb, decide_True by done. rewrite <- Hm.
      assert (id m = d) as -> by (rewrite Hm; unfold new_message; cbn [id]; fold d; by rewrite Ht).
      unfold with_file. cbn [set_files inbox processed]. by rewrite lookup_insert, decide_True. }
  assert (∀ now, load_message now f = Some m) as Hf by (intros; apply Hload).
  destruct (traffic_keeps to d m f p1 p2 Hf (or_introl Hu) Hsteps) as [Hkeep _]. specialize (Hkeep Hu).
  split.
  - exists (now e). fold f. split; [done|]. intros p3 Hp3 Hr.
    by apply (traffic_keeps to d m f p2 p3 Hf Hkeep Hp3).
  - intros e' fid' stamp' sender' content' a' Ha'. apply (send_again _ _ _ _ _ _ _ _ f); rewrite ?Ha'; [done| |done].
    by apply earlier_unread.
Qed.

(* ------------------------------------------------------------------ *)
(** ** Recent external deliveries *)

(** The verdicts of the record over a sequence of calls: the time, the
    platform and the identifier of each. *)
Definition call : Type := Q * string * string.
Fixpoint run_dedup (seen : list (string * Q)) (calls : list call) : list bool :=
match calls with
| [] => []
| (t, src, i) :: rest =>
    let '(dup, seen) := _is_duplicate_external t src i seen in dup :: run_dedup seen rest
end.
(** What they are meant to be: a duplicate is a call whose key was accepted
  within the last 30 seconds. *)
Definition accepted_lately (hist : list (string * Q)) (t : Q) (key : string) : bool :=
any (λ kt, bool_decide (fst kt = key) && Qle_bool (t - _EXTERNAL_DEDUP_TTL) (snd kt)) hist.
Fixpoint intended (hist : list (string * Q)) (calls : list call) : list bool :=
match calls with
| [] => []
| (t, src, i) :: rest =>
    if str_truthy i
    then let dup := accepted_lately hist t (external_key src i) in
         dup :: intended (if dup then hist else (external_key src i, t) :: hist) rest
    else false :: intended hist rest
end.
Definition call_time (c : call) : Q := fst (fst c).

Lemma drop_old_elem t seen kt : kt ∈ seen → Qle_bool (t - _EXTERNAL_DEDUP_TTL) (snd kt) = true → kt ∈ drop_old t seen.
Proof.
  induction seen as [|[k u] seen IH]; [by intros ?%not_elem_of_nil|]. cbn [drop_old]. intros Hin Hle.
  destruct (Qle_bool (t - _EXTERNAL_DEDUP_TTL) u) eqn:Eu; cbn [negb]; [done|].
  apply elem_of_cons in Hin as [->|Hin]; [simpl in Hle; congruence|auto].
Qed.
Lemma drop_old_suffix t seen : ∃ old, seen = old ++ drop_old t seen.
Proof.
  induction seen as [|[k u] seen [old IH]]; [by exists []|]. cbn [drop_old].
  destruct (negb _); [exists ((k, u) :: old); by rewrite IH at 1|by exists []].
Qed.

Definition by_time (a b : string * Q) : Prop := (snd a <= snd b)%Q.
Lemma drop_old_recent t seen kt : StronglySorted by_time seen → kt ∈ drop_old t seen →
  Qle_bool (t - _EXTERNAL_DEDUP_TTL) (snd kt) = true.
Proof.
  induction seen as [|[k u] seen IH]; [by intros _ ?%not_elem_of_nil|]. cbn [drop_old]. intros Hs Hin.
  apply StronglySorted_inv in Hs as [Hs Hall].
  destruct (Qle_bool (t - _EXTERNAL_DEDUP_TTL) u) eqn:Eu; cbn [negb] in Hin; [|auto].
  apply elem_of_cons in Hin as [->|Hin]; [done|]. rewrite Forall_forall in Hall. specialize (Hall kt Hin).
  apply Qle_bool_iff in Eu. apply Qle_bool_iff. unfold by_time in Hall. simpl in Hall. lra.
Qed.

(** The record against the history of the accepted calls, up to a time. *)
Record recorded (t : Q) (seen hist : list (string * Q)) : Prop := {
  rec_sorted : StronglySorted by_time seen;
  rec_keys : NoDup (fst <$> seen);
  rec_past : Forall (λ kt, (snd kt <= t)%Q) seen;
  rec_sound : ∀ kt, kt ∈ seen → kt ∈ hist;
  rec_complete : ∀ kt, kt ∈ hist → kt ∈ seen ∨ (snd kt < t - _EXTERNAL_DEDUP_TTL)%Q
}.

Lemma dhas_elem {V} k (d : list (string * V)) : dhas k d = true ↔ ∃ v, (k, v) ∈ d.
Proof.
  unfold dhas. split.
  - intros E. destruct (dget k d) as [v|] eqn:Ev; [|done]. exists v. by apply dget_elem.
  - intros [v Hv]. induction d as [|[k' v'] d IH]; [by apply not_elem_of_nil in Hv|]. cbn [dget].
    case_bool_decide; [done|]. apply elem_of_cons in Hv as [[= -> ->]|Hv]; [done|auto].
Qed.

Lemma recorded_step t u src i seen hist : (t <= u)%Q → recorded t seen hist → str_truthy i = true →
  let '(dup, seen') := _is_duplicate_external u src i seen in
  dup = accepted_lately hist u (external_key src i) ∧
  recorded u seen' (if dup then hist else (external_key src i, u) :: hist).
Proof.
  intros Htu [Hs Hk Hp Hsound Hcomp] Hi. unfold _is_duplicate_external. rewrite Hi. cbn [negb]. cbv zeta.
  set (key := external_key src i). set (live := drop_old u seen). destruct (drop_old_suffix u seen) as [old Hold]. fold live in Hold.
  assert (recorded u live hist) as [Hs' Hk' Hp' Hsound' Hcomp'].
  { rewrite Hold in Hs, Hk, Hp. split.
    - clear -Hs. induction old as [|x old IH]; [done|]. apply StronglySorted_inv in Hs as [Hs _]. auto.
    - rewrite fmap_app in Hk. by apply NoDup_app in Hk as (_ & _ & ?).
    - apply Forall_app in Hp as [_ Hp]. eapply Forall_impl; [exact Hp|]. intros x Hx. simpl in *. lra.
    - intros kt Hin. apply Hsound. rewrite Hold. apply elem_of_app. by right.
    - intros kt Hin. destruct (Hcomp kt Hin) as [Hin'|Hlt]; [|right; lra].
      destruct (Qle_bool (u - _EXTERNAL_DEDUP_TTL) (snd kt)) eqn:E; [left; by apply drop_old_elem|].
      right. apply Qnot_le_lt. intros Hle. apply Qle_bool_iff in Hle. congruence. }
  assert (dhas key live = accepted_lately hist u key) as Hdup.
  { apply eq_true_iff_eq. rewrite dhas_elem. unfold accepted_lately. rewrite any_true. split.
    - intros [v Hv]. exists (key, v). split; [auto|]. rewrite bool_decide_eq_true_2 by done. cbn [andb].
      by apply (drop_old_recent u seen (key, v)).
    - intros ([k v] & Hin & [Hkk%bool_decide_eq_true Hle]%andb_true_iff). simpl in *. subst k. exists v.
      destruct (Hcomp' _ Hin) as [?|Hlt]; [done|]. apply Qle_bool_iff in Hle. simpl in Hlt. lra. }
  destruct (dhas key live) eqn:Ehas; (split; [done|]); [by split|].
  rewrite dset_fresh.
  2:{ change (map fst live) with (fst <$> live). intros ([k v] & -> & Hin)%list_elem_of_fmap.
      assert (dhas k live = true) by (apply dhas_elem; eauto). simpl in *. congruence. }
  split.
  - apply StronglySorted_app_2; [|done|repeat constructor].
    intros x y Hx ->%list_elem_of_singleton. rewrite Forall_forall in Hp'. by apply Hp'.
  - rewrite fmap_app. apply NoDup_app. split; [done|]. split; [|apply NoDup_singleton].
    intros k ([k' v] & -> & Hin)%list_elem_of_fmap Hk1%list_elem_of_singleton. simpl in Hk1. subst k'.
    assert (dhas key live = true) by (apply dhas_elem; eauto). congruence.
  - apply Forall_app_2; [done|]. apply Forall_singleton. apply Qle_refl.
  - intros kt [Hin| ->%list_elem_of_singleton]%elem_of_app; [right; auto|left].
  - intros kt [->|Hin]%elem_of_cons; [left; apply elem_of_app; right; left|].
    destruct (Hcomp' kt Hin); [left; apply elem_of_app; by left|by right].
Qed.

(** The record of recent deliveries gives, for any sequence of calls in the
  order of their times, exactly the intended verdicts: a call with an
  identifier is a duplicate if and only if one with the same platform and
  identifier was accepted in the 30 seconds before it, although the record
  forgets as it goes.  The recipient is no part of the key. *)
Theorem dedup_exact calls : StronglySorted (λ a b, (call_time a <= call_time b)%Q) calls →
  run_dedup [] calls = intended [] calls.
Proof.
  intros Hs.
  assert (∀ t seen hist, Forall (λ c, (t <= call_time c)%Q) calls → recorded t seen hist →
    run_dedup seen calls = intended hist calls) as Hrun.
  { induction Hs as [|[[u src] i] calls Hs IH Hall]; [done|]. intros t seen hist Hle Hrec.
    apply Forall_cons in Hle as [Hle _]. unfold call_time in Hle. simpl in Hle. cbn [run_dedup intended].
    assert (Forall (λ c, (u <= call_time c)%Q) calls) as Hlater by
      (eapply Forall_impl; [exact Hall|]; intros c Hc; exact Hc).
    destruct (str_truthy i) eqn:Ei.
    - pose proof (recorded_step t u src i seen hist Hle Hrec Ei) as Hstep.
      destruct (_is_duplicate_external u src i seen) as [dup seen']. destruct Hstep as [<- Hrec'].
      f_equal. by apply (IH u).
    - unfold _is_duplicate_external. rewrite Ei. cbn [negb]. f_equal. apply (IH t); [|done].
      eapply Forall_impl; [exact Hlater|]. intros c Hc. simpl in *. lra. }
  destruct calls as [|c calls]; [done|]. apply (Hrun (call_time c)).
  - apply StronglySorted_inv in Hs as [_ Hs]. constructor; [apply Qle_refl|].
    eapply Forall_impl; [exact Hs|]. intros c' Hc'. exact Hc'.
  - split; [constructor|constructor|constructor|by intros ? ?%not_elem_of_nil|by intros ? ?%not_elem_of_nil].
Qed.

(** Once a call for an external message was not taken for a duplicate, every
  further call within 30 seconds with the same platform and identifier is
  dropped and no mailbox changes: that holds for a repeated delivery, and as
  well for another recipient of the same message, and when the first call
  failed to write its file. *)
Theorem external_key_shared mono wall writes fid stamp name cfg ts x p r p1
    mono' wall' writes' fid' stamp' name' cfg' ts' x' :
  str_truthy (x_message_id x) = true →
  fst (_is_duplicate_external mono (x_source x) (x_message_id x) (external_seen p)) = false →
  receive_external mono wall writes fid stamp name cfg ts x p = (r, p1) →
  (mono <= mono')%Q → (mono' <= mono + 30)%Q → x_source x' = x_source x → x_message_id x' = x_message_id x →
  ∃ p2, receive_external mono' wall' writes' fid' stamp' name' cfg' ts' x' p1 = (Ok None, p2) ∧ ∀ n, box p2 n = box p1 n.
Proof.
  intros Hi Hnew Hrun H1' H2' Hsrc Hid.
  assert (dhas (external_key (x_source x) (x_message_id x)) (drop_old mono' (external_seen p1)) = true) as Hhas.
  { apply dhas_elem. exists mono. apply drop_old_elem.
    - assert (external_seen p1 = snd (_is_duplicate_external mono (x_source x) (x_message_id x) (external_seen p))) as ->.
      { unfold receive_external in Hrun. run_unfold.
        destruct (_is_duplicate_external mono (x_source x) (x_message_id x) (external_seen p)) as [dup seen]. simpl in Hnew. subst dup.
        destruct writes; [|by simplify_eq]. rewrite write_message_run in Hrun.
        match type of Hrun with context [mirror_all name cfg ts x ?q] => destruct (mirror_all name cfg ts x q) as [r1 q1] eqn:Em end.
        assert (external_seen q1 = seen) as Hq.
        { revert Em. unfold mirror_all. destruct (_ && _); [|intros; by run_unfold; simplify_eq].
          unfold catch, in_channels. destruct (post_channel _ _ _ _ _ _ _ _ _ _) as [[b|err] cs]; [intros; by simplify_eq|].
          destruct err; intros; run_unfold; by simplify_eq. }
        destruct r1; by simplify_eq. }
      revert Hnew. unfold _is_duplicate_external. rewrite Hi. cbn [negb]. cbv zeta.
      destruct (dhas _ _) eqn:Ehas; [done|]. intros _. cbn [snd]. rewrite dset_fresh; [apply elem_of_app; right; left|].
      change (map fst ?l) with (fst <$> l). intros ([k v] & Hk & Hin)%list_elem_of_fmap. simpl in Hk. subst k.
      assert (dhas (external_key (x_source x) (x_message_id x)) (drop_old mono (external_seen p)) = true) by
        (apply dhas_elem; eauto). congruence.
    - apply Qle_bool_iff. unfold _EXTERNAL_DEDUP_TTL. simpl. lra. }
  unfold receive_external, _is_duplicate_external. rewrite Hsrc, Hid, Hi. cbn [negb]. cbv zeta. run_unfold.
  rewrite Hhas. eexists. split; [reflexivity|]. by intros n.
Qed.
End messenger.
