(* ===== verification/InboxFlow.v ===== *)
(** * Working through an inbox ([core/_anima_inbox.py], [core/memory/dedup.py])

    One run of [process_inbox_message]: reading the mailbox, setting messages
    aside (suppressed senders, overflow, delegations the framework answers,
    self-made notices, messages presented too often), presenting the rest to
    the model, and archiving what it dealt with.  The state is the mailbox of
    the anima, the counter file [state/inbox_read_counts.json] ([None]: not
    there or unreadable; else an object of integers, as this code writes it),
    the directory [state/overflow_inbox/] ([None]: not there) as the list of
    the messages written to it with the times of their files, and the
    [message_received] events.

    The run of the model is an argument: how the cycle ended, and the messages
    that arrived while it ran.  The wording of prompts, episodes and log
    entries, the streaming journal and the automatic posts to Slack and Discord
    are not modelled. *)

From Stdlib Require Import Ascii QArith.
From stdpp Require Import prelude strings list gmap sorting.
From S2P Require Import Prelude PyValue PyText JsonText Sql TaskModels TaskStore TaskQueue Mailbox.
Open Scope nat_scope.

(* ------------------------------------------------------------------ *)
(** ** Reading the text of a message *)

(** What follows the first occurrence of [p]. *)
Fixpoint after_first (p s : string) : option string :=
  match after p s with
  | Some r => Some r
  | None => match s with EmptyString => None | String _ s' => after_first p s' end
  end.

(** [_RE_THREAD_CTX.match]: the text after the leading thread context and the
    white space behind it. *)
Definition after_thread_ctx (content : string) : option string :=
  r ← after "[Thread context" content;
  r ← after_first "]" r;
  r ← after_first "[/Thread context]" r;
  Some (lstrip r).
Definition _extract_user_body (content : string) : string :=
  match after_thread_ctx content with Some r => strip r | None => strip content end.

Definition _is_self_task_completion_notice (m : Message) (anima_name : string) : bool :=
  if negb (bool_decide (source m = "anima")) then false else
  if negb (bool_decide (from_person m = anima_name)) then false else
  let body := _extract_user_body (content m) in
  startswith "タスク「" body && contains "が完了しました" body.

(** The [IGNORECASE] folding of the letters of the probes: the ASCII letters,
    the long s and the Kelvin sign. *)
Fixpoint fold_case (s : string) : string :=
  match s with
  | EmptyString => ""
  | String a s1 =>
      match s1 with
      | String b s2 =>
          if bool_decide (code a = 197) && bool_decide (code b = 191) then String "s" (fold_case s2) else
          match s2 with
          | String c s3 =>
              if bool_decide (code a = 226) && bool_decide (code b = 132) && bool_decide (code c = 170)
              then String "k" (fold_case s3) else String (lower_ascii a) (fold_case s1)
          | EmptyString => String (lower_ascii a) (fold_case s1)
          end
      | EmptyString => String (lower_ascii a) ""
      end
  end.
Definition probe_words : list string :=
  let ask s := [s; s +:+ "？"; s +:+ "?"] in
  ["test"; "テスト"; "ping"; "疎通"; "疎通確認"] ++ ask "届いた" ++ ask "反応" ++ ask "反応ある" ++ ask "応答" ++ ask "応答ある" ++
  ask "確認" ++ ask "確認ですか" ++ ask "見えてる".
(** [test\s+from\s+slack]. *)
Definition test_from_slack (s : string) : bool :=
  match after "test" s with
  | Some r =>
      negb (bool_decide (lstrip r = r)) &&
      match after "from" (lstrip r) with
      | Some r' => negb (bool_decide (lstrip r' = r')) && bool_decide (lstrip r' = "slack")
      | None => false
      end
  | None => false
  end.
Definition _is_fast_slack_probe (m : Message) : bool :=
  if negb (bool_decide (source m = "slack")) then false else
  if negb (str_truthy (external_channel_id m)) then false else
  let body := _extract_user_body (content m) in
  str_truthy body && (char_count body <=? 40) &&
  (str_in (fold_case body) probe_words || test_from_slack (fold_case body)).

(** [_RE_TASK_ID.search]. *)
Definition task_hex (c : ascii) : bool := is_digit c || in_range 97 102 (code c).
Fixpoint take_hex (n : nat) (s : string) : option string :=
  match n, s with
  | O, _ => Some ""
  | S k, String c s' => if task_hex c then String c <$> take_hex k s' else None
  | S _, EmptyString => None
  end.
Definition task_id_at (s : string) : option string :=
  r ← match after "タスクID" s with Some r => Some r | None => after "Task ID" s end;
  r ← after ":" r;
  take_hex 12 (lstrip r).
Fixpoint search_task_id (s : string) : option string :=
  match task_id_at s with
  | Some t => Some t
  | None => match s with EmptyString => None | String _ s' => search_task_id s' end
  end.
Definition _extract_task_id (m : Message) : option json :=
  match dget "task_id" (meta m) with
  | Some tid => if truthy tid then Some tid else JStr <$> search_task_id (content m)
  | None => JStr <$> search_task_id (content m)
  end.

Definition is_delegation (i : InboxItem) : bool :=
  bool_decide (intent (msg i) = "delegation") && bool_decide (is_Some (_extract_task_id (msg i))).
Definition _split_delegation_items (items : list InboxItem) : list InboxItem * list InboxItem :=
  (filter (λ i, is_delegation i = true) items, filter (λ i, is_delegation i = false) items).

(** [get_task_by_id] is [get_view] of the task store; an identifier that is no
    string names no task. *)
Definition _check_task_state (tasks : db) (anima : string) (task_id : json) : string :=
  match t ← str_of task_id; get_view anima t tasks with
  | None => "missing"
  | Some entry =>
      default "pending"
        (dget (TaskModels.status entry) [("done", "completed"); ("cancelled", "terminal"); ("in_progress", "processing")])
  end.

(* ------------------------------------------------------------------ *)
(** ** The state of a run *)

Definition _MAX_INBOX_RETRIES : Z := 3.
Definition _NON_CRITICAL_LIMIT : nat := 10.
Definition _OVERFLOW_MAX_AGE_DAYS : Q := 7.
Definition _OVERFLOW_MAX_FILES : nat := 500.

Abbreviation counters := (gmap string Z).
Record flow := mk_flow {
  box : mailbox;
  read_counts : option counters;
  overflow_inbox : option (list (Q * Message));
  received : list Message
}.
Definition set_box (mb : mailbox) (s : flow) : flow := mk_flow mb (read_counts s) (overflow_inbox s) (received s).
Definition set_counts (c : option counters) (s : flow) : flow := mk_flow (box s) c (overflow_inbox s) (received s).
Definition set_overflow (o : option (list (Q * Message))) (s : flow) : flow := mk_flow (box s) (read_counts s) o (received s).
Definition log_received (ms : list Message) : M flow unit :=
  modify (λ s, mk_flow (box s) (read_counts s) (overflow_inbox s) (received s ++ ms)).
Definition in_mailbox {A} (m : M mailbox A) : M flow A := λ s,
  let '(r, mb) := m (box s) in (r, set_box mb s).

(* ------------------------------------------------------------------ *)
(** ** Overflow *)

Definition split_critical (items : list InboxItem) : list InboxItem * list InboxItem :=
  (filter (λ i, intent (msg i) = "delegation") items, filter (λ i, intent (msg i) ≠ "delegation") items).

Definition by_mtime (a b : Q * Message) : Prop := Qle_bool (fst a) (fst b) = true.
#[local] Instance by_mtime_dec : RelDecision by_mtime.
Proof. intros a b. unfold by_mtime. apply _. Defined.
(** [_cleanup_overflow]: drop what is older than the limit, then the oldest
    beyond the number. *)
Definition _cleanup_overflow (now : Q) : M flow unit :=
  modify (λ s,
    set_overflow ((λ files,
      let kept := filter (λ f, Qle_bool (now - _OVERFLOW_MAX_AGE_DAYS * 86400) (fst f) = true) files in
      let remaining := merge_sort by_mtime kept in
      drop (length remaining - _OVERFLOW_MAX_FILES) remaining) <$> overflow_inbox s) s).
(** [_write_overflow_file]: without the directory the write fails. *)
Definition _write_overflow_file (now : Q) (m : Message) : M flow unit := λ s,
  match overflow_inbox s with
  | Some files => (Ok tt, set_overflow (Some (files ++ [(now, m)])) s)
  | None => (Err (FileNotFoundError "overflow_inbox"), s)
  end.
Definition make_overflow_dir : M flow unit :=
  modify (λ s, set_overflow (Some (default [] (overflow_inbox s))) s).
Definition overflow_to_files (now : Q) (items : list InboxItem) : M flow (list InboxItem * nat) :=
  _ ← _cleanup_overflow now;
  if length items <=? _NON_CRITICAL_LIMIT then mret (items, 0) else
  let kept := take _NON_CRITICAL_LIMIT items in
  let overflow := drop _NON_CRITICAL_LIMIT items in
  _ ← make_overflow_dir;
  _ ← for_each overflow (λ i, _write_overflow_file now (msg i));
  mret (kept, length overflow).

(* ------------------------------------------------------------------ *)
(** ** Reading and setting aside *)

(** What a run finds outside: the anima, the names of the configuration, the
    time, the task store, the senders the cascade limiter holds back. *)
Record surroundings := mk_surroundings {
  self : string;
  cfg_animas : option (list string);
  now : Q;
  tasks_db : db;
  suppressed : list string
}.

(** Messages carry the item they come from, so that identity can be told. *)
Record InboxResult := mk_result {
  inbox_items : list InboxItem;
  messages : list InboxItem;
  unread_count : nat;
  prompt_lines : list (InboxItem * Z)
}.
Definition empty_result : InboxResult := mk_result [] [] 0 [].

Definition state_of_item (e : surroundings) (i : InboxItem) : option string :=
  _check_task_state (tasks_db e) (self e) <$> _extract_task_id (msg i).
Definition unresolved (e : surroundings) (items : list InboxItem) : list InboxItem :=
  filter (λ i, state_of_item e i = Some "missing") items.
Definition resolved (e : surroundings) (items : list InboxItem) : list InboxItem :=
  filter (λ i, state_of_item e i ≠ Some "missing") items.

Definition recordable (items : list InboxItem) : list Message :=
  take 50 (filter (λ m, type m ≠ "ack") (msg <$> items)).
Definition is_external (i : InboxItem) : bool := str_in (source (msg i)) ["slack"; "chatwork"].
Definition is_notice (e : surroundings) (i : InboxItem) : bool := _is_self_task_completion_notice (msg i) (self e).
(** [external_items and deferred_internal and len(...) < len(inbox_items)]. *)
Definition defers (e : surroundings) (items : list InboxItem) : bool :=
  any is_external items && any (is_notice e) items && any (λ i, negb (is_notice e i)) items.

Definition count_of (k : string) (c : counters) : Z := default 0%Z (c !! k).
Definition bump (c : counters) (i : InboxItem) : counters := <[path i := (count_of (path i) c + 1)%Z]> c.
Definition present_in (mb : mailbox) (c : counters) : counters := filter (λ kv, is_Some (inbox mb !! kv.1)) c.
Definition is_stale (c : counters) (i : InboxItem) : bool := (_MAX_INBOX_RETRIES <? count_of (path i) c)%Z.
Definition forget (c : counters) (i : InboxItem) : counters := delete (path i) c.

Section flow.
Context `{FloatText, Calendar, Codec, Listing file}.

Definition set_aside_overflow (e : surroundings) (items : list InboxItem) : M flow (list InboxItem) :=
let '(critical, non_critical) := split_critical items in
'(kept, _) ← overflow_to_files (now e) non_critical;
mret (critical ++ kept).

(** [_handle_delegation_dms]: log and archive those whose task exists. *)
Definition _handle_delegation_dms (e : surroundings) (items : list InboxItem) : M flow (list InboxItem) :=
_ ← log_received (msg <$> resolved e items);
_ ← in_mailbox (archive_paths (resolved e items));
mret (unresolved e items).

(** Force-archive: an overflow copy of each, then the archive; nothing of the
  kind when a copy cannot be written. *)
Definition force_archive (e : surroundings) (stale : list InboxItem) : M flow unit :=
catch (_ ← for_each stale (λ i, _write_overflow_file (now e) (msg i));
       _ ← in_mailbox (archive_paths stale);
       mret tt)
      (λ _, mret tt).

(** The part after the delegations: notices, counters, stale messages. *)
Definition defer_notices (e : surroundings) (items messages : list InboxItem) : M flow (list InboxItem * list InboxItem) :=
if defers e items
then _ ← in_mailbox (archive_paths (filter (λ i, is_notice e i = true) items));
     let items := filter (λ i, is_notice e i = false) items in
     mret (items, items)
else mret (items, messages).
Definition count_presentations (items : list InboxItem) : M flow counters :=
gets (λ s, present_in (box s) (foldl bump (default ∅ (read_counts s)) items)).
Definition drop_stale (e : surroundings) (counts : counters) (items messages : list InboxItem) :
  M flow (counters * list InboxItem * list InboxItem) :=
let stale := filter (λ i, is_stale counts i = true) items in
let kept := filter (λ i, is_stale counts i = false) items in
match stale with
| [] => mret (counts, items, messages)
| _ => _ ← force_archive e stale; mret (foldl forget counts stale, kept, kept)
end.

Definition prompt_of (counts : counters) (items messages : list InboxItem) : list (InboxItem * Z) :=
((λ i, (i, default 1%Z (counts !! path i))) <$> items) ++
((λ i, (i, 1%Z)) <$> filter (λ i, path i ∉ path <$> items) messages).

(** [_process_inbox_messages]. *)
Definition _process_inbox_messages (e : surroundings) (track_retries : bool) : M flow InboxResult :=
any_unread ← gets (λ s, has_unread (box s));
if negb any_unread then mret empty_result else
items ← in_mailbox (receive_with_paths (self e) (cfg_animas e) (now e));
let items := filter (λ i, from_person (msg i) ∉ suppressed e) items in
messages ← (if track_retries then set_aside_overflow e items else mret items);
let '(delegation, others) := _split_delegation_items items in
'(items, messages) ← match delegation with
  | [] => mret (items, messages)
  | _ => left ← _handle_delegation_dms e delegation;
         mret (others ++ left, others ++ left)
  end;
'(items, messages) ← defer_notices e items messages;
if negb track_retries then mret (mk_result items messages (length messages) []) else
counts ← count_presentations items;
'(counts, items, messages) ← drop_stale e counts items messages;
_ ← modify (set_counts (Some counts));
_ ← log_received (recordable messages);
mret (mk_result items messages (length messages) (prompt_of counts items messages)).

(* ------------------------------------------------------------------ *)
(** ** The run *)

(** How the model's cycle ended: an error result, an exception, or a normal
  end with or without an answer (text, or a message to a sender). *)
Inductive cycle := Failed | Crashed | Finished (answered : bool).
#[global] Instance cycle_eq_dec : EqDecision cycle.
Proof. solve_decision. Defined.
Inductive reply := Idle | FastReply | OverBudget | Error | Responded.

Definition undo_one (c : counters) (i : InboxItem) : counters :=
match c !! path i with
| Some n => if (1 <? n)%Z then <[path i := (n - 1)%Z]> c else delete (path i) c
| None => c
end.
Definition _undo_failed_inbox_presentation (items : list InboxItem) : M flow unit :=
modify (λ s, match items, read_counts s with
             | [], _ | _, None => s
             | _, Some c => set_counts (Some (foldl undo_one c items)) s
             end).
Definition _archive_processed_messages (items : list InboxItem) : M flow nat := in_mailbox (archive_paths items).
(** [all(...) if inbox_items else False], on the counters read again. *)
Definition all_exhausted (s : flow) (items : list InboxItem) : bool :=
match items with
| [] => false
| _ => all (is_stale (default ∅ (read_counts s))) items
end.
(** Messages that come in while the model is running. *)
Definition arrive (new : folder) : M flow unit :=
modify (λ s, set_box (set_files Inbox (new ∪ inbox (box s)) (box s)) s).

(** [posted]: the canned reply to a connectivity probe went out. *)
Definition _maybe_fast_reply_external_probe (posted : bool) (r : InboxResult) : M flow bool :=
match inbox_items r with
| [i] =>
    if bool_decide (unread_count r = 1) && _is_fast_slack_probe (msg i) && posted
    then _ ← in_mailbox (archive_paths (inbox_items r)); mret true
    else mret false
| _ => mret false
end.

(** [process_inbox_message]; [over_budget]: the monthly budget is used up. *)
Definition process_inbox_message (e : surroundings) (over_budget posted : bool) (new : folder) (c : cycle) : M flow reply :=
r ← _process_inbox_messages e (negb over_budget);
if bool_decide (unread_count r = 0)
then _ ← (match inbox_items r with [] => mret 0 | items => _archive_processed_messages items end);
     mret Idle
else
fast ← _maybe_fast_reply_external_probe posted r;
if fast : bool then mret FastReply else
if over_budget then mret OverBudget else
_ ← arrive new;
match c with
| Crashed => _ ← _undo_failed_inbox_presentation (inbox_items r); raise (RuntimeError "cycle")
| Failed => _ ← _undo_failed_inbox_presentation (inbox_items r); mret Error
| Finished true => _ ← _archive_processed_messages (inbox_items r); mret Responded
| Finished false =>
    exhausted ← gets (λ s, all_exhausted s (inbox_items r));
    _ ← (if exhausted : bool then _archive_processed_messages (inbox_items r) else mret 0);
    mret Responded
end.
End flow.
