(* ===== verification/InboxFlowProps.v ===== *)
(** * What a run does with the messages of an inbox

    Closed forms of the stages of [_process_inbox_messages], and from them: no
    message is archived without a reason, none gets lost, a failed cycle
    leaves no trace, an unanswered message is given up after three
    presentations — if the overflow directory exists, and never if not. *)

From Stdlib Require Import Ascii QArith.
From stdpp Require Import prelude strings list gmap sorting.
From S2P Require Import Prelude PyValue PyText JsonText TaskModels TaskQueue Mailbox MailboxProps InboxFlow.
Open Scope nat_scope.

Section stages.
Context `{FloatText, Calendar, Codec, Listing file}.

Definition paths (items : list InboxItem) : list string := path <$> items.
Definition archive_in (items : list InboxItem) (s : flow) : flow := set_box (archived (paths items) (box s)) s.

Lemma archive_run items s : ∃ n, in_mailbox (archive_paths items) s = (Ok n, archive_in items s).
Proof. unfold in_mailbox, archive_paths. rewrite archive_names_spec. by eexists. Qed.

(** A stage that leaves everything alone but the overflow directory, which it
    may fill or create. *)
Definition grows (o o' : option (list (Q * Message))) : Prop := is_Some o → is_Some o'.
Record only_overflow (s s' : flow) : Prop := {
  oo_box : box s' = box s;
  oo_counts : read_counts s' = read_counts s;
  oo_received : received s' = received s;
  oo_dir : grows (overflow_inbox s) (overflow_inbox s')
}.
#[local] Instance only_overflow_preorder : PreOrder only_overflow.
Proof.
  split; [intros s; split; try done; by intros ?|]. intros s1 s2 s3 [? ? ? Ha] [? ? ? Hb].
  split; [congruence..|]. intros Hs. auto.
Qed.

Lemma cleanup_only now : within only_overflow (_cleanup_overflow now).
Proof.
  apply within_modify. intros s. split; try done. unfold grows. cbn [overflow_inbox set_overflow].
  by intros [o ->].
Qed.
Lemma write_only now m : within only_overflow (_write_overflow_file now m).
Proof.
  intros s. unfold _write_overflow_file. destruct (overflow_inbox s) eqn:E; cbn [snd]; [|done].
  split; try done. unfold grows. cbn [overflow_inbox set_overflow]. done.
Qed.
Lemma mkdir_only : within only_overflow make_overflow_dir.
Proof. apply within_modify. intros s. split; try done. unfold grows. cbn [overflow_inbox set_overflow]. done. Qed.

(** Copies that are written, one after the other. *)
Definition copies (now : Q) (items : list InboxItem) : list (Q * Message) := (λ i, (now, msg i)) <$> items.
Lemma write_one now m s o : overflow_inbox s = Some o →
  _write_overflow_file now m s = (Ok tt, set_overflow (Some (o ++ [(now, m)])) s).
Proof. intros E. unfold _write_overflow_file. by rewrite E. Qed.
Lemma write_none now m s : overflow_inbox s = None →
  _write_overflow_file now m s = (Err (FileNotFoundError "overflow_inbox"), s).
Proof. intros E. unfold _write_overflow_file. by rewrite E. Qed.
Lemma write_all now items s o : overflow_inbox s = Some o →
  for_each items (λ i, _write_overflow_file now (msg i)) s = (Ok tt, set_overflow (Some (o ++ copies now items)) s).
Proof.
  revert s o. induction items as [|i items IH]; intros s o Ho.
  - cbn [copies fmap list_fmap]. rewrite app_nil_r. destruct s; cbn in *; by subst.
  - cbn [for_each]. unfold mbind, M_bind. rewrite (write_one now (msg i) s o Ho).
    rewrite (IH _ (o ++ [(now, msg i)])) by done. cbn [set_overflow copies fmap list_fmap]. by rewrite <- app_assoc.
Qed.

(** Setting the overflow aside: ten messages that are no delegations stay, the
    copies of the others are written. *)
Lemma set_aside_spec e items s : ∃ s',
  set_aside_overflow e items s =
    (Ok (let '(critical, non_critical) := split_critical items in critical ++ take _NON_CRITICAL_LIMIT non_critical), s') ∧
  only_overflow s s' ∧
  (overflow_inbox s = None → length (snd (split_critical items)) ≤ _NON_CRITICAL_LIMIT → overflow_inbox s' = None).
Proof.
  unfold set_aside_overflow, overflow_to_files. destruct (split_critical items) as [critical non_critical]. cbn [snd].
  run_unfold. unfold _cleanup_overflow at 1. run_unfold. set (s1 := set_overflow _ s).
  assert (only_overflow s s1) as Hs1 by exact (cleanup_only (now e) s).
  destruct (Nat.leb_spec (length non_critical) _NON_CRITICAL_LIMIT) as [Hle|Hlt].
  - exists s1. rewrite take_ge by done. split; [done|]. split; [done|]. intros Ho _. unfold s1. cbn [set_overflow overflow_inbox].
    by rewrite Ho.
  - unfold make_overflow_dir. run_unfold. set (s2 := set_overflow _ s1).
    assert (only_overflow s1 s2) as Hs2 by exact (mkdir_only s1).
    rewrite (write_all _ _ s2 (default [] (overflow_inbox s1))) by done. eexists. split; [reflexivity|].
    split; [etrans; [exact Hs1|]; etrans; [exact Hs2|]; split; try done; unfold grows; done|]. intros _ ?. lia.
Qed.

Lemma elem_resolved e items i : i ∈ items → i ∈ resolved e items ∨ i ∈ unresolved e items.
Proof.
  intros Hi. destruct (decide (state_of_item e i = Some "missing")).
  - right. by apply list_elem_of_filter.
  - left. by apply list_elem_of_filter.
Qed.

(* ------------------------------------------------------------------ *)
(** ** The plan of a run, from the mailbox and the counters alone *)

Section plan.
Context (e : surroundings) (s : flow).

Definition known : option (list string) := known_animas (self e) (cfg_animas e).
Definition read_names : list string := sorted_json (inbox (box s)).
Definition refused : list string := rejected known (now e) (inbox (box s)) read_names.
Definition readings : list InboxItem := items_of known (now e) (inbox (box s)) read_names.
Definition candidates : list InboxItem := filter (λ i, from_person (msg i) ∉ suppressed e) readings.
Definition delegations : list InboxItem := filter (λ i, is_delegation i = true) candidates.
Definition dealt : list InboxItem := resolved e delegations.
Definition considered : list InboxItem := filter (λ i, is_delegation i = false) candidates ++ unresolved e delegations.
Definition noticed : list InboxItem := if defers e considered then filter (λ i, is_notice e i = true) considered else [].
Definition presentable : list InboxItem := if defers e considered then filter (λ i, is_notice e i = false) considered else considered.
Definition box_read : mailbox := quarantined refused (box s).
Definition box_dealt : mailbox := archived (paths dealt ++ paths noticed) box_read.
Definition new_counts : counters := present_in box_dealt (foldl bump (default ∅ (read_counts s)) presentable).
Definition given_up : list InboxItem := filter (λ i, is_stale new_counts i = true) presentable.
Definition presented : list InboxItem := filter (λ i, is_stale new_counts i = false) presentable.

(** What the run comes to; [dir] says whether the overflow directory is there
    when the copies of the messages that are given up are written. *)
Record comes_to (tracked dir : bool) (r : InboxResult) (s' : flow) : Prop := {
  ct_items : inbox_items r = if tracked then presented else presentable;
  ct_box : box s' = archived (paths dealt ++ paths noticed ++ (if tracked && dir then paths given_up else [])) box_read;
  ct_counts : read_counts s' = if tracked then Some (foldl forget new_counts given_up) else read_counts s;
  ct_copies : tracked = true → dir = true → ∀ i, i ∈ given_up →
    ∃ o, overflow_inbox s' = Some o ∧ (now e, msg i) ∈ o;
  ct_dir : is_Some (overflow_inbox s) → is_Some (overflow_inbox s') ∧ dir = true;
  ct_no_dir : overflow_inbox s = None → length (snd (split_critical candidates)) ≤ _NON_CRITICAL_LIMIT →
    overflow_inbox s' = None ∧ dir = false;
  ct_unread : unread_count r = 0 → inbox_items r = [];
  ct_lines : tracked = true → ∀ i, i ∈ inbox_items r → ∃ n, (i, n) ∈ prompt_lines r
}.

Lemma considered_nil : delegations = [] → considered = candidates.
Proof.
  intros Hd. unfold considered. rewrite Hd. cbn [unresolved]. unfold unresolved. rewrite filter_nil, app_nil_r.
  apply filter_all. intros i Hi. destruct (is_delegation i) eqn:E; [|done]. exfalso.
  assert (i ∈ delegations) as Hin by (by apply list_elem_of_filter). rewrite Hd in Hin. by apply not_elem_of_nil in Hin.
Qed.
Lemma set_aside_nonempty items : (let '(critical, non_critical) := split_critical items in
  critical ++ take _NON_CRITICAL_LIMIT non_critical) = [] → items = [].
Proof.
  unfold split_critical. intros [Hc Hn]%app_eq_nil. destruct items as [|i items]; [done|]. exfalso.
  destruct (decide (intent (msg i) = "delegation")) as [Hi|Hi].
  - by rewrite filter_cons_True in Hc.
  - by rewrite filter_cons_True in Hn.
Qed.

(** A state reached after the reading: only the mailbox has moved, to [mb], and
    perhaps the overflow directory and the log. *)
Record at_box (mb : mailbox) (o : option (list (Q * Message))) (s1 : flow) : Prop := {
  at_mailbox : box s1 = mb;
  at_counts : read_counts s1 = read_counts s;
  at_overflow : overflow_inbox s1 = o
}.

Lemma delegation_stage msgs s1 o : at_box box_read o s1 → (msgs = [] → candidates = []) →
  ∃ msgs' s2,
    (match delegations with
     | [] => mret (candidates, msgs)
     | _ => left ← _handle_delegation_dms e delegations;
            mret (filter (λ i, is_delegation i = false) candidates ++ left,
                  filter (λ i, is_delegation i = false) candidates ++ left)
     end) s1 = (Ok (considered, msgs'), s2) ∧
    at_box (archived (paths dealt) box_read) o s2 ∧ (msgs' = [] → considered = []).
Proof.
  intros [Hb Hc Ho] Hm. destruct delegations as [|d ds] eqn:Ed.
  - exists msgs, s1. rewrite (considered_nil Ed). split; [done|]. split; [|done].
    split; [|done..]. unfold dealt. rewrite Ed. cbn [resolved]. unfold resolved, paths. rewrite filter_nil.
    cbn [fmap list_fmap]. by rewrite archived_nil.
  - rewrite <- Ed. unfold _handle_delegation_dms. run_unfold. unfold log_received, modify.
    destruct (archive_run (resolved e delegations)
      (mk_flow (box s1) (read_counts s1) (overflow_inbox s1) (received s1 ++ (msg <$> resolved e delegations)))) as [n ->].
    eexists _, _. split; [reflexivity|]. split; [|done]. split; [|done..]. cbn [archive_in set_box box]. by rewrite Hb.
Qed.

Lemma notice_stage msgs s1 o : at_box (archived (paths dealt) box_read) o s1 → (msgs = [] → considered = []) →
  ∃ msgs' s2, defer_notices e considered msgs s1 = (Ok (presentable, msgs'), s2) ∧ at_box box_dealt o s2 ∧
    (msgs' = [] → presentable = []).
Proof.
  intros [Hb Hc Ho] Hm. unfold defer_notices, presentable, box_dealt, noticed. rewrite <- archived_app.
  destruct (defers e considered).
  - unfold mbind, M_bind. destruct (archive_run (filter (λ i, is_notice e i = true) considered) s1) as [n ->].
    eexists _, _. split; [reflexivity|]. split; [|done]. split; [|done..]. cbn [archive_in set_box box]. by rewrite Hb.
  - exists msgs, s1. split; [done|]. split; [|done]. split; [|done..]. cbn [paths fmap list_fmap]. by rewrite archived_nil.
Qed.

Lemma stale_stage msgs s1 o : at_box box_dealt o s1 → (msgs = [] → presentable = []) →
  ∃ msgs' s2, drop_stale e new_counts presentable msgs s1 =
      (Ok (foldl forget new_counts given_up, presented, msgs'), s2) ∧
    at_box (archived (if bool_decide (is_Some o) then paths given_up else []) box_dealt)
      ((λ l, l ++ copies (now e) given_up) <$> o) s2 ∧
    (msgs' = [] → presented = []).
Proof.
  intros [Hb Hc Ho] Hm. unfold drop_stale. fold given_up presented.
  destruct given_up as [|i is_] eqn:Eg.
  - assert (presented = presentable) as Hp.
    { unfold presented. apply filter_all. intros j Hj. destruct (is_stale new_counts j) eqn:Es; [|done]. exfalso.
      assert (j ∈ given_up) as Hin by (by apply list_elem_of_filter). rewrite Eg in Hin. by apply not_elem_of_nil in Hin. }
    exists msgs, s1. rewrite Hp. split; [done|]. split; [|done]. cbn [paths fmap list_fmap copies].
    split; [rewrite Hb; by destruct (bool_decide (is_Some o)); rewrite archived_nil|done|].
    rewrite Ho. destruct o as [l|]; [|done]. cbn. by rewrite app_nil_r.
  - rewrite <- Eg. unfold force_archive, mbind, M_bind, catch. destruct o as [l|].
    + rewrite (write_all (now e) given_up s1 l Ho).
      destruct (archive_run given_up (set_overflow (Some (l ++ copies (now e) given_up)) s1)) as [n ->].
      eexists _, _. split; [reflexivity|]. split; [|done]. split; [|done..]. cbn [archive_in set_box set_overflow box].
      by rewrite Hb, bool_decide_eq_true_2.
    + assert (for_each given_up (λ i, _write_overflow_file (now e) (msg i)) s1 = (Err (FileNotFoundError "overflow_inbox"), s1)) as ->.
      { rewrite Eg. cbn [for_each]. unfold mbind, M_bind. by rewrite write_none. }
      eexists _, _. split; [reflexivity|]. split; [|done]. rewrite bool_decide_eq_false_2 by (by intros [? ?]).
      rewrite archived_nil. done.
Qed.

Lemma process_messages_spec tracked : has_unread (box s) = true →
  ∃ dir r s', _process_inbox_messages e tracked s = (Ok r, s') ∧ comes_to tracked dir r s'.
Proof.
  intros Hun. unfold _process_inbox_messages. unfold mbind at 1, M_bind at 1. unfold gets at 1. rewrite Hun. cbn [negb].
  unfold mbind at 1, M_bind at 1. unfold in_mailbox at 1. rewrite receive_spec.
  cbv beta iota zeta. fold known read_names. fold readings refused. fold box_read. fold candidates.
  unfold mbind at 1, M_bind at 1.
  assert (∃ msgs s1 o, (if tracked then set_aside_overflow e candidates else mret candidates) (set_box box_read s) = (Ok msgs, s1) ∧
    at_box box_read o s1 ∧ (msgs = [] → candidates = []) ∧ grows (overflow_inbox s) o ∧
    (overflow_inbox s = None → length (snd (split_critical candidates)) ≤ _NON_CRITICAL_LIMIT → o = None))
    as (msgs & s1 & o & -> & Hat & Hmsgs & Hgrow & Hnone).
  { destruct tracked.
    - destruct (set_aside_spec e candidates (set_box box_read s)) as (s1 & Hrun & [? ? ? ?] & Hn).
      eexists _, s1, (overflow_inbox s1). split; [exact Hrun|]. split; [by split|]. split; [apply set_aside_nonempty|done].
    - eexists candidates, _, (overflow_inbox s). split; [done|]. split; [by split|]. split; [done|]. split; [by intros ?|done]. }
  cbn [_split_delegation_items]. fold delegations. unfold mbind at 1, M_bind at 1.
  destruct (delegation_stage msgs s1 o Hat Hmsgs) as (msgs2 & s2 & -> & Hat2 & Hmsgs2).
  unfold mbind at 1, M_bind at 1.
  destruct (notice_stage msgs2 s2 o Hat2 Hmsgs2) as (msgs3 & s3 & -> & Hat3 & Hmsgs3).
  destruct Hat3 as [Hb3 Hc3 Ho3]. exists (bool_decide (is_Some o)).
  destruct tracked; cbn [negb].
  - unfold mbind at 1, M_bind at 1. unfold count_presentations, gets. rewrite Hb3, Hc3. fold new_counts.
    unfold mbind at 1, M_bind at 1.
    destruct (stale_stage msgs3 s3 o (Build_at_box _ _ _ Hb3 Hc3 Ho3) Hmsgs3) as (msgs4 & s4 & -> & [Hb4 Hc4 Ho4] & Hmsgs4).
    unfold log_received, modify. eexists _, _. split; [reflexivity|].
    split; cbn [inbox_items messages unread_count prompt_lines box read_counts overflow_inbox set_counts]; try done.
    + rewrite Hb4. unfold box_dealt. by rewrite archived_app, <- app_assoc.
    + intros _ [l ->]%bool_decide_eq_true i Hi. exists (l ++ copies (now e) given_up). rewrite Ho4. split; [done|].
      apply elem_of_app. right. apply list_elem_of_fmap. by exists i.
    + intros Ho. rewrite Ho4. specialize (Hgrow Ho). destruct Hgrow as [l ->]. by rewrite bool_decide_eq_true_2.
    + intros Ho Hle. rewrite Ho4, (Hnone Ho Hle). done.
    + intros Hn%nil_length_inv. auto.
    + intros _ i Hi. eexists. unfold prompt_of. apply elem_of_app. left. apply list_elem_of_fmap. by exists i.
  - eexists _, _. split; [reflexivity|].
    split; cbn [inbox_items messages unread_count prompt_lines andb]; try done.
    + rewrite Hb3. unfold box_dealt. by rewrite app_nil_r.
    + intros Ho. rewrite Ho3. specialize (Hgrow Ho). split; [done|]. by rewrite bool_decide_eq_true_2.
    + intros Ho Hle. rewrite Ho3, (Hnone Ho Hle). done.
    + intros Hn%nil_length_inv. auto.
Qed.

(** *** The parts of the reading *)

Lemma split_perm {A} (P Q : A → Prop) `{!∀ x, Decision (P x), !∀ x, Decision (Q x)} (l : list A) :
  (∀ x, Q x ↔ ¬ P x) → l ≡ₚ filter P l ++ filter Q l.
Proof.
  intros HQ. induction l as [|x l IH]; [done|]. rewrite !filter_cons.
  destruct (decide (P x)) as [Hp|Hp].
  - rewrite (decide_False (P := Q x)) by (by rewrite HQ; intros ?). cbn [app]. by rewrite <- IH.
  - rewrite (decide_True (P := Q x)) by (by apply HQ). rewrite <- Permutation_middle. by rewrite <- IH.
Qed.

Lemma candidates_split : candidates ≡ₚ dealt ++ noticed ++ presentable.
Proof.
  assert (delegations ≡ₚ dealt ++ unresolved e delegations) as Hd.
  { unfold dealt, resolved, unresolved. apply split_perm. intros i. split; [by intros -> ?|].
    intros Hn. destruct (decide (state_of_item e i = Some "missing")); [done|]. by destruct Hn. }
  assert (considered ≡ₚ noticed ++ presentable) as Hc.
  { unfold noticed, presentable. destruct (defers e considered); [|done]. apply split_perm.
    intros i. by destruct (is_notice e i). }
  rewrite <- Hc. unfold considered. rewrite (Permutation_app_comm (filter _ _)), app_assoc, <- Hd. apply split_perm.
  intros i. by destruct (is_delegation i).
Qed.
Lemma presentable_split : presentable ≡ₚ given_up ++ presented.
Proof. apply split_perm. intros i. by destruct (is_stale new_counts i). Qed.

Lemma candidates_NoDup : NoDup (paths candidates).
Proof.
  unfold candidates, paths. assert (NoDup (path <$> readings)) as Hnd.
  { unfold readings. rewrite items_of_paths. apply NoDup_filter, sorted_json_NoDup. }
  revert Hnd. generalize readings. intros l. induction l as [|i l IH]; [done|]. rewrite fmap_cons, NoDup_cons. intros [Hi Hnd].
  rewrite filter_cons. case_decide; [|auto]. rewrite fmap_cons, NoDup_cons. split; [|auto].
  intros Hin. apply Hi. apply list_elem_of_fmap in Hin as (j & -> & [_ Hj]%list_elem_of_filter).
  apply list_elem_of_fmap. by exists j.
Qed.
Lemma parts_NoDup : NoDup (paths dealt ++ paths noticed ++ paths given_up ++ paths presented).
Proof.
  pose proof candidates_NoDup as Hnd. unfold paths in *. rewrite candidates_split, presentable_split in Hnd.
  by rewrite !fmap_app in Hnd.
Qed.

Lemma elem_candidates i : i ∈ candidates ↔
  endswith ".json" (path i) = true ∧ verdict known (now e) (inbox (box s)) (path i) = Some (msg i) ∧
  from_person (msg i) ∉ suppressed e.
Proof.
  unfold candidates, readings. rewrite list_elem_of_filter, elem_items_of. unfold read_names. rewrite sorted_json_spec.
  split; [tauto|]. intros (Hj & Hv & Hs). repeat split; try done. unfold verdict in Hv.
  destruct (inbox (box s) !! path i) as [f|]; [by exists f|done].
Qed.

(** Files that were read are in the mailbox and not refused. *)
Lemma candidate_file i : i ∈ candidates → ∃ f, inbox (box s) !! path i = Some f ∧ inbox box_read !! path i = Some f.
Proof.
  intros (Hj & Hv & Hs)%elem_candidates. unfold box_read, quarantined. cbn [inbox]. rewrite lookup_without.
  rewrite decide_False.
  - unfold verdict in Hv. destruct (inbox (box s) !! path i) as [f|]; [by exists f|done].
  - unfold refused, rejected. intros [Hr _]%list_elem_of_filter. unfold readable in Hr. by rewrite Hv in Hr.
Qed.

(** *** The counters *)

Lemma paths_cons i items : paths (i :: items) = path i :: paths items.
Proof. done. Qed.

Lemma count_bump k c i : count_of k (bump c i) = if decide (k = path i) then (count_of k c + 1)%Z else count_of k c.
Proof.
  unfold count_of, bump. rewrite lookup_insert. case_decide as Hk; [subst|]; [by rewrite decide_True|].
  by rewrite decide_False.
Qed.
Lemma count_bumps k c items : NoDup (paths items) →
  count_of k (foldl bump c items) = (count_of k c + if decide (k ∈ paths items) then 1 else 0)%Z.
Proof.
  revert c. induction items as [|i items IH]; intros c Hnd.
  - cbn [foldl paths fmap list_fmap]. rewrite decide_False by apply not_elem_of_nil. lia.
  - cbn [paths fmap list_fmap] in Hnd. apply NoDup_cons in Hnd as [Hi Hnd]. cbn [foldl]. rewrite IH by done.
    rewrite count_bump. cbn [paths fmap list_fmap]. fold (paths items) in *.
    destruct (decide (k = path i)) as [->|Hk].
    + rewrite (decide_False (P := path i ∈ paths items)) by done. rewrite decide_True by left. lia.
    + destruct (decide (k ∈ paths items)) as [Hin|Hin].
      * rewrite decide_True by (by right). lia.
      * rewrite decide_False by (by apply not_elem_of_cons). lia.
Qed.
Lemma count_present k mb c : is_Some (inbox mb !! k) → count_of k (present_in mb c) = count_of k c.
Proof.
  intros Hk. unfold count_of, present_in. f_equal. destruct (c !! k) as [n|] eqn:E.
  - by apply map_lookup_filter_Some.
  - apply map_lookup_filter_None. by left.
Qed.
Lemma count_delete k j c : count_of k (delete j c) = if decide (k = j) then 0%Z else count_of k c.
Proof.
  unfold count_of. destruct (decide (k = j)) as [->|Hk]; [by rewrite lookup_delete_eq|].
  by rewrite lookup_delete_ne.
Qed.
Lemma count_forget k c items : count_of k (foldl forget c items) = if decide (k ∈ paths items) then 0%Z else count_of k c.
Proof.
  revert c. induction items as [|i items IH]; intros c; [done|]. cbn [foldl]. rewrite IH, paths_cons. unfold forget.
  rewrite count_delete. repeat case_decide; set_solver.
Qed.

Lemma new_count i : i ∈ presentable →
  count_of (path i) new_counts = (count_of (path i) (default ∅ (read_counts s)) + 1)%Z.
Proof.
  intros Hi. pose proof parts_NoDup as Hnd. unfold new_counts.
  assert (NoDup (paths presentable)) as Hpre.
  { unfold paths in *. rewrite presentable_split, fmap_app.
    apply NoDup_app in Hnd as (_ & _ & Hnd). by apply NoDup_app in Hnd as (_ & _ & Hnd). }
  assert (path i ∈ paths presentable) as Hp by (apply list_elem_of_fmap; by exists i).
  rewrite count_present; [by rewrite (count_bumps _ _ _ Hpre), decide_True|].
  assert (i ∈ candidates) as Hc by (rewrite candidates_split, !elem_of_app; auto).
  destruct (candidate_file i Hc) as (f & _ & Hf). unfold box_dealt, archived. cbn [inbox]. rewrite lookup_without.
  rewrite decide_False; [by exists f|]. unfold paths in *. rewrite presentable_split, fmap_app in Hp.
  rewrite app_assoc in Hnd. apply NoDup_app in Hnd as (_ & Hdis & _). intros Hin. by apply (Hdis (path i)).
Qed.
End plan.
End stages.

(* ------------------------------------------------------------------ *)
(** ** Whole runs *)

Section runs.
Context `{FloatText, Calendar, Codec, Listing file}.

Definition arrived (new : folder) (s : flow) : flow := set_box (set_files Inbox (new ∪ inbox (box s)) (box s)) s.
Definition undone (items : list InboxItem) (s : flow) : flow :=
match items, read_counts s with
| [], _ | _, None => s
| _, Some c => set_counts (Some (foldl undo_one c items)) s
end.
Lemma arrive_run new s : arrive new s = (Ok tt, arrived new s).
Proof. done. Qed.
Lemma undo_run items s : _undo_failed_inbox_presentation items s = (Ok tt, undone items s).
Proof. done. Qed.

(** How a run ends after the messages have been set aside. *)
Inductive ending (ob posted : bool) (new : folder) (c : cycle) (r : InboxResult) (s1 : flow) : result reply → flow → Prop :=
| e_idle : inbox_items r = [] → ending ob posted new c r s1 (Ok Idle) s1
| e_fast i : inbox_items r = [i] → _is_fast_slack_probe (msg i) = true → posted = true →
    ending ob posted new c r s1 (Ok FastReply) (archive_in [i] s1)
| e_budget : ob = true → ending ob posted new c r s1 (Ok OverBudget) s1
| e_crashed : ob = false → c = Crashed →
    ending ob posted new c r s1 (Err (RuntimeError "cycle")) (undone (inbox_items r) (arrived new s1))
| e_failed : ob = false → c = Failed →
    ending ob posted new c r s1 (Ok Error) (undone (inbox_items r) (arrived new s1))
| e_answered : ob = false → c = Finished true →
    ending ob posted new c r s1 (Ok Responded) (archive_in (inbox_items r) (arrived new s1))
| e_unanswered : ob = false → c = Finished false → ending ob posted new c r s1 (Ok Responded) (arrived new s1).

(** Once the messages presented too often are set aside, none of those left
    has been: the last resort of an unanswered cycle is never taken. *)
Lemma not_exhausted e s dir r s1 : comes_to e s true dir r s1 →
  ∀ s2, read_counts s2 = read_counts s1 → all_exhausted s2 (inbox_items r) = false.
Proof.
  intros [Hi _ Hc _ _ _ _ _] s2 Hs2. unfold all_exhausted. destruct (inbox_items r) as [|i items] eqn:Er; [done|].
  rewrite Hs2, Hc. cbn [from_option Datatypes.id]. unfold all. cbn [any].
  assert (is_stale (foldl forget (new_counts e s) (given_up e s)) i = false) as ->; [|done].
  assert (i ∈ presented e s) as Hin by (rewrite <- Hi; left). unfold is_stale. rewrite count_forget.
  case_decide; [done|]. by apply list_elem_of_filter in Hin as [? _].
Qed.

Lemma run_spec e ob posted new c s r s' : process_inbox_message e ob posted new c s = (r, s') →
  has_unread (box s) = false ∧ r = Ok Idle ∧ s' = s ∨
  has_unread (box s) = true ∧
    ∃ dir res s1, comes_to e s (negb ob) dir res s1 ∧ ending ob posted new c res s1 r s'.
Proof.
  intros Hrun. unfold process_inbox_message in Hrun. destruct (has_unread (box s)) eqn:Hun.
  2:{ left. assert (_process_inbox_messages e (negb ob) s = (Ok empty_result, s)) as Hnone.
      { unfold _process_inbox_messages, gets. unfold mbind at 1, M_bind at 1. by rewrite Hun. }
      unfold mbind at 1, M_bind at 1 in Hrun. rewrite Hnone in Hrun. cbn [unread_count inbox_items empty_result] in Hrun.
      rewrite bool_decide_eq_true_2 in Hrun by done. run_unfold. by simplify_eq. }
  right. split; [done|]. destruct (process_messages_spec e s (negb ob) Hun) as (dir & res & s1 & Hmsgs & Hct).
  exists dir, res, s1. split; [done|]. unfold mbind at 1, M_bind at 1 in Hrun. rewrite Hmsgs in Hrun.
  case_bool_decide as Hn.
  { rewrite (ct_unread _ _ _ _ _ _ Hct Hn) in Hrun. run_unfold. simplify_eq. apply e_idle. by apply (ct_unread _ _ _ _ _ _ Hct). }
  assert (∀ r s', (if ob then mret OverBudget else
      _ ← arrive new;
      match c with
      | Crashed => _ ← _undo_failed_inbox_presentation (inbox_items res); raise (RuntimeError "cycle")
      | Failed => _ ← _undo_failed_inbox_presentation (inbox_items res); mret Error
      | Finished true => _ ← _archive_processed_messages (inbox_items res); mret Responded
      | Finished false =>
          exhausted ← gets (λ s, all_exhausted s (inbox_items res));
          _ ← (if exhausted : bool then _archive_processed_messages (inbox_items res) else mret 0);
          mret Responded
      end) s1 = (r, s') → ending ob posted new c res s1 r s') as Hrest.
  { clear Hrun. intros r0 s0 Hrun. destruct ob; [run_unfold; simplify_eq; by apply e_budget|].
    unfold mbind, M_bind in Hrun. rewrite arrive_run in Hrun. destruct c as [| |[]].
    - rewrite undo_run in Hrun. run_unfold. simplify_eq. by apply e_failed.
    - rewrite undo_run in Hrun. run_unfold. simplify_eq. by apply e_crashed.
    - unfold _archive_processed_messages in Hrun. destruct (archive_run (inbox_items res) (arrived new s1)) as [n En].
      rewrite En in Hrun. run_unfold. simplify_eq. by apply e_answered.
    - unfold gets in Hrun. rewrite (not_exhausted e s dir res s1 Hct) in Hrun by done.
      run_unfold. simplify_eq. by apply e_unanswered. }
  unfold _maybe_fast_reply_external_probe in Hrun. destruct (inbox_items res) as [|i [|j items]] eqn:Ei.
  - apply Hrest. unfold mbind at 1, M_bind at 1, mret at 1, M_ret at 1 in Hrun. exact Hrun.
  - destruct (bool_decide (unread_count res = 1) && _is_fast_slack_probe (msg i) && posted) eqn:Ep.
    + unfold mbind, M_bind in Hrun. destruct (archive_run [i] s1) as [n En]. rewrite En in Hrun. run_unfold. simplify_eq.
      apply andb_true_iff in Ep as [[_ Hp]%andb_true_iff Hposted]. by apply e_fast.
    + apply Hrest. unfold mbind at 1, M_bind at 1, mret at 1, M_ret at 1 in Hrun. exact Hrun.
  - apply Hrest. unfold mbind at 1, M_bind at 1, mret at 1, M_ret at 1 in Hrun. exact Hrun.
Qed.

(* ------------------------------------------------------------------ *)
(** ** Where a message is after a run *)

(** Unread; archived; in the quarantine. *)
Definition at_inbox (k : string) (f : file) (s : flow) : Prop := inbox (box s) !! k = Some f.
Definition at_processed (k : string) (f : file) (s : flow) : Prop :=
inbox (box s) !! k = None ∧ processed (box s) !! k = Some f.
Definition at_quarantine (k : string) (f : file) (s : flow) : Prop :=
inbox (box s) !! k = None ∧ quarantine (box s) !! k = Some f.

Lemma archive_in_inbox k f items s : at_inbox k f s →
  if decide (k ∈ paths items) then at_processed k f (archive_in items s) else at_inbox k f (archive_in items s).
Proof.
  unfold at_inbox, at_processed, archive_in, archived. cbn [box set_box inbox processed]. intros E.
  rewrite lookup_without, lookup_union, lookup_only. case_decide; [|done]. split; [done|]. rewrite E. by destruct (processed _ !! k).
Qed.
Lemma archive_in_processed k f items s : at_processed k f s → at_processed k f (archive_in items s).
Proof.
  unfold at_processed, archive_in, archived. cbn [box set_box inbox processed]. intros [E E'].
  rewrite lookup_without, lookup_union, lookup_only, E, E'. by case_decide.
Qed.
Lemma archive_in_quarantine k f items s : at_quarantine k f s → at_quarantine k f (archive_in items s).
Proof.
  unfold at_quarantine, archive_in, archived. cbn [box set_box inbox quarantine]. intros [E E'].
  rewrite lookup_without, E. by case_decide.
Qed.
Lemma arrived_keeps new k f s : new !! k = None →
  (at_inbox k f s → at_inbox k f (arrived new s)) ∧ (at_processed k f s → at_processed k f (arrived new s)) ∧
  (at_quarantine k f s → at_quarantine k f (arrived new s)).
Proof.
  intros Hk. unfold at_inbox, at_processed, at_quarantine, arrived. cbn [box set_box set_files inbox processed quarantine].
  rewrite lookup_union, Hk, (left_id_L None union). tauto.
Qed.
Lemma undone_box items s : box (undone items s) = box s ∧ overflow_inbox (undone items s) = overflow_inbox s.
Proof. unfold undone. by destruct items, (read_counts s). Qed.
Lemma undone_keeps items k f s :
  (at_inbox k f s → at_inbox k f (undone items s)) ∧ (at_processed k f s → at_processed k f (undone items s)) ∧
  (at_quarantine k f s → at_quarantine k f (undone items s)).
Proof. unfold at_inbox, at_processed, at_quarantine. by rewrite (proj1 (undone_box items s)). Qed.

Lemma ending_overflow ob posted new c res s1 r s' : ending ob posted new c res s1 r s' → overflow_inbox s' = overflow_inbox s1.
Proof. intros []; try done; by rewrite (proj2 (undone_box _ _)). Qed.
Lemma ending_archived ob posted new c res s1 r s' k f : new !! k = None → ending ob posted new c res s1 r s' →
  (at_processed k f s1 → at_processed k f s') ∧ (at_quarantine k f s1 → at_quarantine k f s').
Proof.
  intros Hk Hend. destruct (arrived_keeps new k f s1 Hk) as (_ & Hp & Hq).
  destruct Hend; try done.
  - split; [apply archive_in_processed|apply archive_in_quarantine].
  - destruct (undone_keeps (inbox_items res) k f (arrived new s1)) as (_ & ? & ?). auto.
  - destruct (undone_keeps (inbox_items res) k f (arrived new s1)) as (_ & ? & ?). auto.
  - split; intros; [apply archive_in_processed|apply archive_in_quarantine]; auto.
Qed.
(** A message that is still unread when the cycle starts leaves the inbox only
    if it was presented and answered. *)
Lemma ending_inbox ob posted new c res s1 r s' k f : new !! k = None → ending ob posted new c res s1 r s' → at_inbox k f s1 →
  at_inbox k f s' ∨ at_processed k f s' ∧ k ∈ paths (inbox_items res) ∧
    (r = Ok Responded ∧ c = Finished true ∧ ob = false ∨
     r = Ok FastReply ∧ ∃ i, inbox_items res = [i] ∧ _is_fast_slack_probe (msg i) = true).
Proof.
  intros Hk Hend Hin. destruct (arrived_keeps new k f s1 Hk) as (Ha & _). specialize (Ha Hin).
  destruct Hend as [Hi|i Hi Hp Hposted|Hob|Hob Hc|Hob Hc|Hob Hc|Hob Hc]; try (by left).
  - pose proof (archive_in_inbox k f [i] s1 Hin) as Hcase. rewrite Hi. case_decide; [right|by left].
    split; [done|]. split; [done|]. right. eauto.
  - left. by apply undone_keeps.
  - left. by apply undone_keeps.
  - pose proof (archive_in_inbox k f (inbox_items res) (arrived new s1) Ha) as Hcase. case_decide; [right|by left].
    split; [done|]. split; [done|]. by left.
Qed.

(** Before the cycle: what [_process_inbox_messages] does with one file. *)
Lemma set_aside_file e s tracked dir res s1 k f : comes_to e s tracked dir res s1 → at_inbox k f s →
  at_quarantine k f s1 ∧ k ∈ refused e s ∨
  at_processed k f s1 ∧ k ∈ paths (dealt e s) ++ paths (noticed e s) ++ (if tracked && dir then paths (given_up e s) else []) ∨
  at_inbox k f s1 ∧ k ∉ refused e s ∧
    k ∉ paths (dealt e s) ++ paths (noticed e s) ++ (if tracked && dir then paths (given_up e s) else []).
Proof.
  intros Hct Hin. unfold at_inbox, at_processed, at_quarantine in *. rewrite (ct_box _ _ _ _ _ _ Hct).
  unfold archived, box_read, quarantined. cbn [inbox processed quarantine].
  rewrite !lookup_without, !lookup_union, !lookup_only, !lookup_without.
  destruct (decide (k ∈ refused e s)) as [Hr|Hr].
  - left. split; [|done]. split; [by case_decide|]. rewrite Hin. by destruct (quarantine _ !! k).
  - right. case_decide as Hk; [left|right; done]. split; [|done]. split; [done|]. rewrite Hin. by destruct (processed _ !! k).
Qed.

Lemma item_of_path k items : k ∈ paths items → ∃ i, i ∈ items ∧ path i = k.
Proof. intros (i & -> & Hi)%list_elem_of_fmap. by exists i. Qed.
Lemma candidate_parts e s i : i ∈ dealt e s ∨ i ∈ noticed e s ∨ i ∈ given_up e s ∨ i ∈ presented e s → i ∈ candidates e s.
Proof. intros Hi. rewrite candidates_split, presentable_split, !elem_of_app. tauto. Qed.
Lemma considered_candidates e s i : i ∈ considered e s → i ∈ candidates e s.
Proof.
  unfold considered, unresolved, delegations. intros [[_ Hi]%list_elem_of_filter|[_ [_ Hi]%list_elem_of_filter]%list_elem_of_filter]%elem_of_app; done.
Qed.

(** The reasons for which a run may archive a message [m] in the file [k]. *)
Definition reason (e : surroundings) (s : flow) (ob : bool) (c : cycle) (k : string) (m : Message) (r : result reply)
    (s' : flow) : Prop :=
(* the model was shown it and answered *)
r = Ok Responded ∧ c = Finished true ∧ ob = false ∨
(* a connectivity probe that was answered without the model *)
r = Ok FastReply ∧ _is_fast_slack_probe m = true ∨
(* a delegation whose task is on record *)
intent m = "delegation" ∧ (∃ t, _extract_task_id m = Some t ∧ _check_task_state (tasks_db e) (self e) t ≠ "missing") ∨
(* the anima's own notice of a finished task, while someone outside waits *)
_is_self_task_completion_notice m (self e) = true ∧ (∃ i, i ∈ candidates e s ∧ is_external i = true) ∨
(* presented three times without an answer, and copied to the overflow *)
ob = false ∧ (_MAX_INBOX_RETRIES <= count_of k (default ∅ (read_counts s)))%Z ∧
  (∃ o, overflow_inbox s' = Some o ∧ (now e, m) ∈ o).

Lemma set_aside_reason e s ob posted new c dir res s1 r s' k m : comes_to e s (negb ob) dir res s1 →
  ending ob posted new c res s1 r s' → verdict (known e) (now e) (inbox (box s)) k = Some m →
  k ∈ paths (dealt e s) ++ paths (noticed e s) ++ (if negb ob && dir then paths (given_up e s) else []) →
  from_person m ∉ suppressed e ∧ reason e s ob c k m r s'.
Proof.
  intros Hct Hend Hv Hk.
  assert (∃ i, path i = k ∧ (i ∈ dealt e s ∨ i ∈ noticed e s ∨ ob = false ∧ dir = true ∧ i ∈ given_up e s)) as (i & Hpath & Hi).
  { apply elem_of_app in Hk as [Hk|Hk]; [|apply elem_of_app in Hk as [Hk|Hk]].
    - apply item_of_path in Hk as (i & Hi & <-). eauto.
    - apply item_of_path in Hk as (i & Hi & <-). eauto.
    - destruct ob, dir; cbn in Hk; try by apply not_elem_of_nil in Hk. apply item_of_path in Hk as (i & Hi & <-). eauto 10. }
  assert (i ∈ candidates e s) as Hc by (apply candidate_parts; tauto).
  apply elem_candidates in Hc as (_ & Hv' & Hs). rewrite Hpath, Hv in Hv'. injection Hv' as ->. split; [done|].
  unfold reason. destruct Hi as [Hi|[Hi|(Hob & Hdir & Hi)]].
  - do 2 right. left. unfold dealt, resolved, delegations in Hi.
    apply list_elem_of_filter in Hi as [Hst [Hd _]%list_elem_of_filter]. unfold is_delegation in Hd. breflect.
    split; [done|]. unfold state_of_item in Hst. destruct (_extract_task_id (msg i)) as [t|] eqn:Et;
      [|by match goal with E : is_Some None |- _ => destruct E end].
    exists t. split; [done|]. intros Hm. apply Hst. simpl. by rewrite Hm.
  - do 3 right. left. unfold noticed in Hi. destruct (defers e (considered e s)) eqn:Ed; [|by apply not_elem_of_nil in Hi].
    apply list_elem_of_filter in Hi as [Hn _]. split; [done|]. unfold defers in Ed. breflect.
    match goal with E : any is_external _ = true |- _ => apply any_true in E as (j & Hj & Hx) end.
    exists j. split; [|done]. by apply considered_candidates.
  - do 4 right. split; [done|]. split.
    + unfold given_up in Hi. apply list_elem_of_filter in Hi as [Hst Hp]. unfold is_stale in Hst. rewrite (new_count e s i Hp) in Hst.
      apply Z.ltb_lt in Hst. rewrite <- Hpath. unfold _MAX_INBOX_RETRIES in *. lia.
    + destruct (ct_copies _ _ _ _ _ _ Hct) with (i := i) as (o & Ho & Hin); [by rewrite Hob|done|done|].
      exists o. split; [|done]. by rewrite (ending_overflow _ _ _ _ _ _ _ _ Hend).
Qed.

(** C17. A run of the inbox loses no message and archives none without a reason:
  every file that was unread is afterwards still unread, or in the quarantine
  because it is no message from a sender the anima knows, or in the archive
  with the same contents, and then the model was shown it and answered, or it
  is a connectivity probe answered directly, a delegation whose task is on
  record, the anima's own notice of a finished task while someone outside is
  waiting, or was presented three times in vain and copied to the overflow
  directory. *)
Theorem message_accounted e ob posted new c s r s' k f :
  at_inbox k f s → new !! k = None → process_inbox_message e ob posted new c s = (r, s') →
  at_inbox k f s' ∨
  at_quarantine k f s' ∧ verdict (known e) (now e) (inbox (box s)) k = None ∨
  at_processed k f s' ∧ ∃ m, verdict (known e) (now e) (inbox (box s)) k = Some m ∧ from_person m ∉ suppressed e ∧
    reason e s ob c k m r s'.
Proof.
  intros Hin Hnew [(_ & _ & ->)|(_ & dir & res & s1 & Hct & Hend)]%run_spec; [by left|].
  destruct (ending_archived _ _ _ _ _ _ _ _ k f Hnew Hend) as [Hp Hq].
  destruct (set_aside_file e s _ dir res s1 k f Hct Hin) as [[Hk Hr]|[[Hk Hns]|(Hk & Hr & Hns)]].
  - right. left. split; [auto|]. unfold refused, rejected in Hr. apply list_elem_of_filter in Hr as [Hr _].
    unfold readable in Hr. breflect. by apply eq_None_not_Some.
  - right. right. split; [auto|].
    assert (∃ i, i ∈ candidates e s ∧ path i = k) as (i & (_ & Hv & _)%elem_candidates & <-).
    { rewrite !elem_of_app in Hns. destruct Hns as [Hns|[Hns|Hns]].
      - apply item_of_path in Hns as (i & Hi & <-). exists i. split; [|done]. apply candidate_parts. tauto.
      - apply item_of_path in Hns as (i & Hi & <-). exists i. split; [|done]. apply candidate_parts. tauto.
      - destruct (negb ob && dir); [|by apply not_elem_of_nil in Hns].
        apply item_of_path in Hns as (i & Hi & <-). exists i. split; [|done]. apply candidate_parts. tauto. }
    exists (msg i). split; [done|]. by apply (set_aside_reason e s ob posted new c dir res s1 r s').
  - destruct (ending_inbox _ _ _ _ _ _ _ _ k f Hnew Hend Hk) as [Ha|(Ha & Hpath & Hwhy)]; [by left|]. right. right.
    split; [done|]. apply item_of_path in Hpath as (i & Hi & <-).
    assert (i ∈ candidates e s) as Hc.
    { rewrite (ct_items _ _ _ _ _ _ Hct) in Hi. destruct (negb ob).
      - apply candidate_parts. tauto.
      - rewrite candidates_split, !elem_of_app. tauto. }
    apply elem_candidates in Hc as (_ & Hv & Hs). exists (msg i). split; [done|]. split; [done|]. unfold reason.
    destruct Hwhy as [Hw|(Hr' & j & Hj & Hpr)]; [by left|]. right. left. split; [done|]. rewrite Hj in Hi.
    by apply list_elem_of_singleton in Hi as ->.
Qed.

(* ------------------------------------------------------------------ *)
(** ** Messages that are only for the model *)

(** A message the run would present: readable, from a known sender that is not
    held back, neither a delegation nor a notice of its own. *)
Record ordinary (e : surroundings) (k : string) (f : file) (m : Message) : Prop := {
  or_json : endswith ".json" k = true;
  or_load : load_message (now e) f = Some m;
  or_known : unknown_sender (known e) m = false;
  or_free : from_person m ∉ suppressed e;
  or_delegation : is_delegation (mk_item m k) = false;
  or_notice : is_notice e (mk_item m k) = false
}.
Definition presentations (k : string) (s : flow) : Z := count_of k (default ∅ (read_counts s)).

Lemma ordinary_presentable e s k f m : at_inbox k f s → ordinary e k f m → mk_item m k ∈ presentable e s.
Proof.
  intros Hin [Hj Hl Hk Hs Hd Hn]. assert (mk_item m k ∈ candidates e s) as Hc.
  { apply elem_candidates. cbn [path msg]. split; [done|]. split; [|done]. unfold verdict. rewrite Hin. simpl. rewrite Hl. simpl.
    by rewrite Hk. }
  rewrite candidates_split, !elem_of_app in Hc. destruct Hc as [Hc|[Hc|Hc]]; [| |done]; exfalso.
  - unfold dealt, resolved, delegations in Hc. apply list_elem_of_filter in Hc as [_ [Hd' _]%list_elem_of_filter]. congruence.
  - unfold noticed in Hc. destruct (defers e (considered e s)); [|by apply not_elem_of_nil in Hc].
    apply list_elem_of_filter in Hc as [Hn' _]. congruence.
Qed.
Lemma unread_has k f s : at_inbox k f s → endswith ".json" k = true → has_unread (box s) = true.
Proof.
  intros Hin Hj. unfold has_unread. apply any_true. exists k. split; [|done]. apply json_names_spec. by split; [|exists f].
Qed.

Lemma undo_other k c items : k ∉ paths items → count_of k (foldl undo_one c items) = count_of k c.
Proof.
  revert c. induction items as [|i items IH]; intros c Hk; [done|]. rewrite paths_cons in Hk. apply not_elem_of_cons in Hk as [Hne Hk].
  cbn [foldl]. rewrite IH by done. unfold undo_one. destruct (c !! path i) as [n|]; [|done].
  destruct (1 <? n)%Z; [unfold count_of; by rewrite lookup_insert_ne|]. rewrite count_delete. by rewrite decide_False.
Qed.
Lemma undo_count k c items n : NoDup (paths items) → k ∈ paths items → (0 <= n)%Z → count_of k c = (n + 1)%Z →
  count_of k (foldl undo_one c items) = n.
Proof.
  intros Hnd Hk Hn. revert c. induction items as [|i items IH]; intros c Hc; [by apply not_elem_of_nil in Hk|].
  rewrite paths_cons in *. apply NoDup_cons in Hnd as [Hi Hnd]. cbn [foldl]. apply elem_of_cons in Hk as [->|Hk].
  - rewrite undo_other by done. unfold undo_one. unfold count_of in Hc |- *.
    destruct (c !! path i) as [v|] eqn:Ev; cbn [from_option Datatypes.id] in Hc; [|lia].
    destruct (Z.ltb_spec 1 v).
    + rewrite lookup_insert, decide_True by done. simpl. lia.
    + rewrite lookup_delete_eq. simpl. lia.
  - apply IH; [done..|]. unfold undo_one. assert (k ≠ path i) as Hne by congruence.
    destruct (c !! path i) as [v|]; [|done]. destruct (1 <? v)%Z; [unfold count_of in *; by rewrite lookup_insert_ne|].
    rewrite count_delete. by rewrite decide_False.
Qed.

(** A cycle over an unprobed message that was not answered: undone, or not. *)
Lemma ending_unanswered posted new c res s1 r s' i : ending false posted new c res s1 r s' → i ∈ inbox_items res →
  (posted = true → _is_fast_slack_probe (msg i) = false) → c ≠ Finished true →
  (c = Failed ∨ c = Crashed) ∧ s' = undone (inbox_items res) (arrived new s1) ∨ c = Finished false ∧ s' = arrived new s1.
Proof.
  intros [Hi|j Hi Hp Hposted|Hob|Hob Hc|Hob Hc|Hob Hc|Hob Hc] Hin Hprobe Hne; auto; try done; exfalso.
  - rewrite Hi in Hin. by apply not_elem_of_nil in Hin.
  - rewrite Hi in Hin. apply list_elem_of_singleton in Hin as ->. rewrite Hprobe in Hp; done.
Qed.
Lemma undone_presentations items s k : items ≠ [] →
  presentations k (undone items s) = count_of k (foldl undo_one (default ∅ (read_counts s)) items).
Proof.
  intros Hi. unfold presentations, undone. destruct items as [|i items]; [done|]. destruct (read_counts s) as [c|] eqn:E; [done|].
  rewrite E. cbn [from_option]. clear. generalize (i :: items). intros l. induction l as [|j l IH]; [done|].
  cbn [foldl]. unfold undo_one at 2. by rewrite lookup_empty.
Qed.

(** Fewer than three presentations so far: the message stays, and the run is
    counted if the model came to an end. *)
Lemma ordinary_counted e posted new c s r s' k f m : at_inbox k f s → ordinary e k f m → new !! k = None →
  (posted = true → _is_fast_slack_probe m = false) → c ≠ Finished true → (0 <= presentations k s < _MAX_INBOX_RETRIES)%Z →
  process_inbox_message e false posted new c s = (r, s') →
  at_inbox k f s' ∧
  presentations k s' = (if decide (c = Finished false) then presentations k s + 1 else presentations k s)%Z.
Proof.
  intros Hin Hord Hnew Hprobe Hc Hcount Hrun.
  apply run_spec in Hrun as [(Hun & _)|(_ & dir & res & s1 & Hct & Hend)].
  { by rewrite (unread_has k f s Hin (or_json _ _ _ _ Hord)) in Hun. }
  pose proof (ordinary_presentable e s k f m Hin Hord) as Hp. pose proof (new_count e s _ Hp) as Hn. cbn [path] in Hn.
  assert (mk_item m k ∈ presented e s) as Hpres.
  { apply list_elem_of_filter. split; [|done]. unfold is_stale. cbn [path]. rewrite Hn. apply Z.ltb_ge.
    unfold presentations, _MAX_INBOX_RETRIES in *. lia. }
  assert (k ∈ paths (presented e s)) as Hpath by (apply list_elem_of_fmap; by exists (mk_item m k)).
  pose proof (parts_NoDup e s) as Hnd. rewrite !app_assoc in Hnd. apply NoDup_app in Hnd as (_ & Hdis & Hndp).
  assert (k ∉ paths (dealt e s) ++ paths (noticed e s) ++ paths (given_up e s)) as Hns.
  { intros Hk. apply (Hdis k); [by rewrite <- app_assoc|done]. }
  pose proof (ct_items _ _ _ _ _ _ Hct) as Hitems. cbn [negb] in Hitems.
  assert (at_inbox k f s1) as Hin1.
  { destruct (set_aside_file e s _ dir res s1 k f Hct Hin) as [[_ Hr]|[[_ Hk]|[? _]]]; [| |done]; exfalso.
    - unfold refused, rejected in Hr. apply list_elem_of_filter in Hr as [Hr _]. unfold readable in Hr. breflect.
      apply Hr. exists m. by apply (elem_candidates e s (mk_item m k)), candidate_parts; auto.
    - apply Hns. destruct dir; cbn [negb andb] in Hk; [done|]. rewrite app_nil_r in Hk. rewrite app_assoc.
      apply elem_of_app. by left. }
  assert (presentations k s1 = (presentations k s + 1)%Z) as Hc1.
  { unfold presentations. rewrite (ct_counts _ _ _ _ _ _ Hct). cbn [negb from_option Datatypes.id]. rewrite count_forget.
    rewrite decide_False; [done|]. intros Hk. apply Hns. rewrite !elem_of_app. auto. }
  assert (mk_item m k ∈ inbox_items res) as Hir by (by rewrite Hitems).
  destruct (ending_unanswered _ _ _ _ _ _ _ _ Hend Hir Hprobe Hc) as [[Hcc ->]|[-> ->]].
  - split; [by apply undone_keeps, arrived_keeps|]. rewrite decide_False by (by destruct Hcc as [-> | ->]).
    rewrite undone_presentations; [|intros E; rewrite E in Hir; by apply not_elem_of_nil in Hir].
    apply undo_count; rewrite ?Hitems; [done|done|lia|]. exact Hc1.
  - split; [by apply arrived_keeps|]. rewrite decide_True by done. exact Hc1.
Qed.

Lemma ending_other ob posted new c res s1 r s' k f : new !! k = None → ending ob posted new c res s1 r s' →
  k ∉ paths (inbox_items res) →
  (at_inbox k f s1 → at_inbox k f s') ∧ presentations k s' = presentations k s1.
Proof.
  intros Hnew Hend Hk. split.
  - intros Hin. destruct (ending_inbox _ _ _ _ _ _ _ _ k f Hnew Hend Hin) as [?|(_ & ? & _)]; done.
  - assert (∀ s2, presentations k (undone (inbox_items res) s2) = presentations k s2) as Hu.
    { intros s2. unfold presentations, undone. destruct (inbox_items res) as [|i items]; [done|].
      destruct (read_counts s2) as [cs|] eqn:E; [|by rewrite E]. cbn [read_counts set_counts from_option Datatypes.id].
      by apply undo_other. }
    destruct Hend; try done; by rewrite Hu.
Qed.

(** Three presentations so far: the message is given up, if its copy can be
    written; otherwise it stays and counting starts again. *)
Lemma ordinary_given_up e posted new c s r s' k f m : at_inbox k f s → ordinary e k f m → new !! k = None →
  (_MAX_INBOX_RETRIES <= presentations k s)%Z → process_inbox_message e false posted new c s = (r, s') →
  (is_Some (overflow_inbox s) → at_processed k f s') ∧
  (overflow_inbox s = None → length (snd (split_critical (candidates e s))) ≤ _NON_CRITICAL_LIMIT →
     at_inbox k f s' ∧ presentations k s' = 0%Z).
Proof.
  intros Hin Hord Hnew Hcount Hrun.
  apply run_spec in Hrun as [(Hun & _)|(_ & dir & res & s1 & Hct & Hend)].
  { by rewrite (unread_has k f s Hin (or_json _ _ _ _ Hord)) in Hun. }
  pose proof (ordinary_presentable e s k f m Hin Hord) as Hp. pose proof (new_count e s _ Hp) as Hn. cbn [path] in Hn.
  assert (mk_item m k ∈ given_up e s) as Hgu.
  { apply list_elem_of_filter. split; [|done]. unfold is_stale. cbn [path]. rewrite Hn. apply Z.ltb_lt.
    unfold presentations, _MAX_INBOX_RETRIES in *. lia. }
  assert (k ∈ paths (given_up e s)) as Hpath by (apply list_elem_of_fmap; by exists (mk_item m k)).
  pose proof (parts_NoDup e s) as Hnd.
  assert (k ∉ paths (dealt e s) ++ paths (noticed e s)) as Hns.
  { rewrite app_assoc in Hnd. apply NoDup_app in Hnd as (_ & Hdis & _). intros Hk. apply (Hdis k Hk), elem_of_app. by left. }
  assert (k ∉ paths (inbox_items res)) as Hres.
  { rewrite (ct_items _ _ _ _ _ _ Hct). cbn [negb]. rewrite app_assoc in Hnd. apply NoDup_app in Hnd as (_ & _ & Hnd).
    apply NoDup_app in Hnd as (_ & Hdis & _). auto. }
  assert (k ∉ refused e s) as Hr.
  { unfold refused, rejected. intros [Hr _]%list_elem_of_filter. unfold readable in Hr. breflect.
    apply Hr. exists m. by apply (elem_candidates e s (mk_item m k)), candidate_parts; auto. }
  destruct (ending_other _ _ _ _ _ _ _ _ k f Hnew Hend Hres) as [Hkeep Hpres].
  split.
  - intros Ho. destruct (ct_dir _ _ _ _ _ _ Hct Ho) as [_ ->].
    destruct (set_aside_file e s _ true res s1 k f Hct Hin) as [[_ ?]|[[Ha _]|(_ & _ & Hk)]]; [done| |].
    + by apply (ending_archived _ _ _ _ _ _ _ _ k f Hnew Hend).
    + exfalso. apply Hk. rewrite !elem_of_app. auto.
  - intros Ho Hle. destruct (ct_no_dir _ _ _ _ _ _ Hct Ho Hle) as [_ ->].
    destruct (set_aside_file e s _ false res s1 k f Hct Hin) as [[_ ?]|[[_ Hk]|(Ha & _ & _)]]; [done| |].
    + exfalso. apply Hns. cbn [negb andb] in Hk. by rewrite app_nil_r in Hk.
    + split; [auto|]. rewrite Hpres. unfold presentations. rewrite (ct_counts _ _ _ _ _ _ Hct).
      cbn [negb from_option Datatypes.id]. rewrite count_forget. by rewrite decide_True.
Qed.

(** A run of the inbox: what it finds, whether a probe reply goes out, what
    arrives, and how the cycle ends. *)
Record visit := mk_visit { v_e : surroundings; v_posted : bool; v_new : folder; v_cycle : cycle }.
Definition visit_once (v : visit) (s : flow) : flow :=
  snd (process_inbox_message (v_e v) false (v_posted v) (v_new v) (v_cycle v) s).
Fixpoint visits (l : list visit) (s : flow) : flow :=
match l with
| [] => s
| v :: l => visits l (visit_once v s)
end.
(** The message is only for the model, and the model does not answer. *)
Record in_vain (k : string) (f : file) (m : Message) (v : visit) : Prop := {
  iv_ordinary : ordinary (v_e v) k f m;
  iv_new : v_new v !! k = None;
  iv_probe : v_posted v = true → _is_fast_slack_probe m = false;
  iv_cycle : v_cycle v ≠ Finished true
}.
(** The cycles that came to an end, without an answer. *)
Definition silences (l : list visit) : nat := length (filter (λ v, v_cycle v = Finished false) l).

Lemma visit_run v s : ∃ r, process_inbox_message (v_e v) false (v_posted v) (v_new v) (v_cycle v) s = (r, visit_once v s).
Proof. unfold visit_once. destruct (process_inbox_message _ _ _ _ _ s) as [r s']. by exists r. Qed.
Lemma visit_dir v s : is_Some (overflow_inbox s) → is_Some (overflow_inbox (visit_once v s)).
Proof.
  intros Ho. destruct (visit_run v s) as [r Hrun].
  apply run_spec in Hrun as [(_ & _ & ->)|(_ & dir & res & s1 & Hct & Hend)]; [done|].
  rewrite (ending_overflow _ _ _ _ _ _ _ _ Hend). by apply (ct_dir _ _ _ _ _ _ Hct).
Qed.
Lemma visit_processed v s k f : v_new v !! k = None → at_processed k f s → at_processed k f (visit_once v s).
Proof.
  intros Hnew Hp. destruct (visit_run v s) as [r Hrun].
  apply run_spec in Hrun as [(_ & _ & ->)|(_ & dir & res & s1 & Hct & Hend)]; [done|].
  apply (ending_archived _ _ _ _ _ _ _ _ k f Hnew Hend).
  unfold at_processed in *. rewrite (ct_box _ _ _ _ _ _ Hct). unfold archived, box_read, quarantined. cbn [inbox processed].
  destruct Hp as [E E']. rewrite !lookup_without, lookup_union, lookup_only, lookup_without, E, E'. by repeat case_decide.
Qed.


Lemma few_candidates e s : length (snd (split_critical (candidates e s))) ≤ size (inbox (box s)).
Proof.
  unfold split_critical. cbn [snd]. etrans; [apply length_filter|].
  assert (length (candidates e s) = length (paths (candidates e s))) as -> by (unfold paths; by rewrite length_fmap).
  assert (size (inbox (box s)) = length (map_to_list (inbox (box s))).*1) as -> by (by rewrite length_fmap, length_map_to_list).
  apply submseteq_length, NoDup_submseteq; [apply candidates_NoDup|].
  intros k (i & -> & Hi)%list_elem_of_fmap. destruct (candidate_file e s i Hi) as (f & Hf & _).
  apply list_elem_of_fmap. exists (path i, f). split; [done|]. by apply elem_of_map_to_list.
Qed.
Lemma archive_in_subset items s : inbox (box (archive_in items s)) ⊆ inbox (box s).
Proof. unfold archive_in, archived. cbn [box set_box inbox]. apply map_filter_subseteq. Qed.
Lemma ending_subset ob posted c res s1 r s' : ending ob posted ∅ c res s1 r s' → inbox (box s') ⊆ inbox (box s1).
Proof.
  assert (inbox (box (arrived ∅ s1)) = inbox (box s1)) as Ha.
  { unfold arrived. cbn [box set_box set_files inbox]. by rewrite (left_id_L ∅ union). }
  intros []; try done; rewrite ?(proj1 (undone_box _ _)), ?Ha; try done; [apply archive_in_subset|].
  etrans; [apply archive_in_subset|]. by rewrite Ha.
Qed.
Lemma visit_shrinks v s : v_new v = ∅ → inbox (box (visit_once v s)) ⊆ inbox (box s).
Proof.
  intros Hnew. destruct (visit_run v s) as [r Hrun].
  apply run_spec in Hrun as [(_ & _ & ->)|(_ & dir & res & s1 & Hct & Hend)]; [done|].
  rewrite Hnew in Hend. etrans; [by eapply ending_subset|]. rewrite (ct_box _ _ _ _ _ _ Hct).
  unfold archived, box_read, quarantined. cbn [inbox]. etrans; apply map_filter_subseteq.
Qed.

(** While the overflow directory is not there — nothing but an overflow of
    more than ten messages creates it — an unanswered message is never given
    up, and is presented over and over. *)
Theorem never_given_up k f m l s : at_inbox k f s → presentations k s = 0%Z → overflow_inbox s = None →
  size (inbox (box s)) ≤ _NON_CRITICAL_LIMIT → Forall (λ v, in_vain k f m v ∧ v_new v = ∅) l → at_inbox k f (visits l s).
Proof.
  intros Hin Hz. assert (0 <= presentations k s <= _MAX_INBOX_RETRIES)%Z as Hj by (unfold _MAX_INBOX_RETRIES; lia). clear Hz.
  intros Ho Hsize Hl. revert s Hin Hj Ho Hsize. induction Hl as [|v l [[Hord Hnew Hprobe Hcyc] Hempty] Hl IH]; [done|].
  intros s Hin Hj Ho Hsize. cbn [visits]. destruct (visit_run v s) as [r Hrun].
  assert (length (snd (split_critical (candidates (v_e v) s))) ≤ _NON_CRITICAL_LIMIT) as Hfew by
    (etrans; [apply few_candidates|done]).
  assert (overflow_inbox (visit_once v s) = None) as Ho'.
  { apply run_spec in Hrun as [(_ & _ & ->)|(_ & dir & res & s1 & Hct & Hend)]; [done|].
    rewrite (ending_overflow _ _ _ _ _ _ _ _ Hend). by apply (ct_no_dir _ _ _ _ _ _ Hct). }
  assert (size (inbox (box (visit_once v s))) ≤ _NON_CRITICAL_LIMIT) as Hsize'.
  { etrans; [|exact Hsize]. apply map_subseteq_size. by apply visit_shrinks. }
  unfold _MAX_INBOX_RETRIES in *. destruct (decide (presentations k s < 3)%Z) as [Hlt|Hge].
  - destruct (ordinary_counted _ _ _ _ _ _ _ _ _ _ Hin Hord Hnew Hprobe Hcyc ltac:(unfold _MAX_INBOX_RETRIES; lia) Hrun) as [Hin' Hc'].
    apply IH; [done| |done|done]. rewrite Hc'. case_decide; lia.
  - destruct (ordinary_given_up _ _ _ _ _ _ _ _ _ _ Hin Hord Hnew ltac:(unfold _MAX_INBOX_RETRIES; lia) Hrun) as [_ Hgu].
    destruct (Hgu Ho Hfew) as [Hin' Hc']. apply IH; [done|lia|done|done].
Qed.

(** Messages moved to the overflow directory are in the prompt all the same:
    it lists every message that is still to be presented, however many. *)
Theorem overflow_presented e s dir r s' i : comes_to e s true dir r s' → i ∈ presented e s →
  ∃ n, (i, n) ∈ prompt_lines r.
Proof. intros Hct Hi. apply (ct_lines _ _ _ _ _ _ Hct); [done|]. by rewrite (ct_items _ _ _ _ _ _ Hct). Qed.
End runs.
