(* ===== verification/MailWitnesses.v ===== *)
(** * Mail at work

    A concrete codec for messages, mailboxes and channels, and for each
    theorem about mail an instance of it there; two runs show what the
    overflow and the sweep do not promise. *)

From Stdlib Require Import Ascii QArith.
From stdpp Require Import prelude strings list gmap sorting.
From S2P Require Import Prelude PyValue PyText JsonText JournalText Sql TaskModels TaskQueue Activity.
From S2P Require Import Cascade Mailbox MailboxProps InboxFlow InboxFlowProps Channels ChannelProps Messenger MessengerProps IpcWitnesses.
Open Scope nat_scope.

(** Timestamps are not read here; directories are listed in the order of the
    map. *)
#[local] Instance demo_calendar : Calendar := {|
  fromisoformat s := None; instant_at _ := 0%Q; wall_to_instant q := q
|}.
#[local] Instance demo_listing {F} : Listing F := {| glob_order d := (map_to_list d).*1; glob_order_keys d := reflexivity _ |}.

(** Messages of text fields, a missing one being empty, all of the same time. *)
Definition text_at (k : string) (d : dict) : string := default "" (str_of (dget_none k d)).
Definition noon : datetime := mk_datetime true 0.
Definition demo_validate (now : Q) (d : dict) : option Message :=
  from ← str_of (dget_none "from_person" d);
  to ← str_of (dget_none "to_person" d);
  body ← str_of (dget_none "content" d);
  Some (mk_message (text_at "id" d) (text_at "thread_id" d) (text_at "reply_to" d) from to (text_at "type" d) body []
    (text_at "intent" d) noon (text_at "source" d) (text_at "source_message_id" d) (text_at "external_user_id" d)
    (text_at "external_channel_id" d) (text_at "external_thread_ts" d) [] []).
Definition demo_dump (m : Message) : string :=
  dumps " " (JObj [("id", JStr (id m)); ("thread_id", JStr (thread_id m)); ("reply_to", JStr (reply_to m));
    ("from_person", JStr (from_person m)); ("to_person", JStr (to_person m)); ("type", JStr (type m));
    ("content", JStr (content m)); ("intent", JStr (intent m)); ("source", JStr (source m));
    ("source_message_id", JStr (source_message_id m)); ("external_user_id", JStr (external_user_id m));
    ("external_channel_id", JStr (external_channel_id m)); ("external_thread_ts", JStr (external_thread_ts m))]).
#[local] Instance demo_codec : Codec := {| validate := demo_validate; model_dump_json := demo_dump |}.

(* ------------------------------------------------------------------ *)
(** ** Channels *)

Definition general : channels := mk_channels {["general" := ""]} ∅.
Definition team : channels := mk_channels {["team" := ""]}
  {["team" := dumps " " (JObj (meta_dict (mk_meta (JList [JStr "rin"]) (JStr "rin") (JStr "") (JStr "") false false (JStr "") (JStr ""))))]}.
Definition hello (who text : string) : post_args := mk_post_args who text "anima" None "t1".

Lemma general_holds : holds general "general" [].
Proof. split; [reflexivity|constructor]. Qed.
Lemma hello_allowed who text : line_text who = true → line_text text = true → allowed general "general" None (hello who text).
Proof.
  intros Hw Ht. split; [reflexivity| |by apply good_post_entry].
  unfold poster_unknown. by rewrite andb_false_r.
Qed.

Lemma outsiders_excluded_witness :
  post_channel true true "kaede" "team" "hi" "anima" None None "t1" team = (Err (ChannelAccessDeniedError "team"), team) ∧
  read_channel team "kaede" "team" 20 false "anima" = Ok [].
Proof.
  apply (outsiders_excluded true true team "kaede" "team" "hi" "anima" None None "t1" 20 false); vm_compute; reflexivity.
Defined.
Lemma post_guarded_witness : is_channel_member team "team" "rin" "anima" = Ok true.
Proof.
  eapply (post_guarded true true "rin" "team" "hi" "anima" None None "t1" team).
  - vm_compute. reflexivity.
  - intros E. apply (f_equal (λ cs, posts cs !! "team")) in E. vm_compute in E. discriminate E.
Defined.

(** A post with a line separator in it is not read back. *)
Example separator_post_lost :
  read_channel (snd (do_post "general" None (hello "rin" ("a" +:+ LINE_SEPARATOR +:+ "b")) general)) "rin" "general" 20 false
    "anima" = Ok [].
Proof. vm_compute. reflexivity. Qed.

(* ------------------------------------------------------------------ *)
(** ** Durable messages *)

Definition demo_limits : heartbeat_limits := mk_heartbeat 600 6 true.
Definition open_env : send_env :=
  mk_env None (new_limiter demo_limits None None None None) (Ok (mk_limits 15 50 2)) None 10 100 true false.
Definition wakeup : send_args := mk_args "system_alert" "" "" false "report" [] [] "anima" "task-wakeup-7f".
Definition nobody : post := mk_post ∅ general [] [].
Definition wakeup_message : Message := new_message "20260101" noon "rin" "kaede" "done" wakeup.
Definition delivered : post :=
  set_box "kaede" (with_file "task-wakeup-7f" (mk_file (demo_dump wakeup_message) 100) ∅) nobody.

Lemma wakeup_sent : send open_env "20260101" noon "rin" "kaede" "done" wakeup nobody = (Ok (Sent wakeup_message), delivered).
Proof. reflexivity. Qed.
Lemma wakeup_loads : ∀ now t, load_message now (mk_file (demo_dump wakeup_message) t) = Some wakeup_message.
Proof. intros now t. vm_compute. reflexivity. Qed.

(** After the recipient has read and archived it, the sender tries again. *)
Definition archive_it : M post nat := in_box "kaede" (archive_paths [mk_item wakeup_message "task-wakeup-7f.json"]).
Lemma durable_delivery_witness :
  send open_env "20260102" noon "rin" "kaede" "done, again" wakeup (snd (archive_it delivered)) =
    (Ok (Sent wakeup_message), snd (archive_it delivered)).
Proof.
  apply (durable_delivery open_env "20260101" noon "rin" "kaede" "done" wakeup wakeup_message nobody delivered
    (snd (archive_it delivered))).
  - vm_compute. reflexivity.
  - reflexivity.
  - exact wakeup_sent.
  - exact wakeup_loads.
  - apply rtc_once. apply (t_archive_paths _ _ _ "kaede" [mk_item wakeup_message "task-wakeup-7f.json"] _ (fst (archive_it delivered))).
    apply surjective_pairing.
  - reflexivity.
Defined.

(** Not so after the sweep: the file is in [expired/], and the next try
    delivers a second one. *)
Definition swept_away : post := snd (in_box "kaede" (sweep_expired None default_retention 100000) delivered).
Lemma swept_is_expired : inbox (box swept_away "kaede") = ∅ ∧ dom (expired (box swept_away "kaede")) = {["task-wakeup-7f.json"]}.
Proof. split; vm_compute; reflexivity. Qed.
Example delivered_again :
  inbox (box (snd (send open_env "20260102" noon "rin" "kaede" "done" wakeup swept_away)) "kaede") !! "task-wakeup-7f.json" =
    Some (mk_file (demo_dump wakeup_message) 100).
Proof. vm_compute. reflexivity. Qed.

(* ------------------------------------------------------------------ *)
(** ** External messages *)

Definition slack_message : external := mk_external "hello" "slack" "1700.1" "U1" "C1" "" "question".
(** The same Slack message for a second anima, one second later: nothing. *)
Lemma external_key_shared_witness : ∃ p2,
  receive_external 101 101 true "b" noon "kaede" None "t" slack_message
    (snd (receive_external 100 100 true "a" noon "rin" None "t" slack_message nobody)) = (Ok None, p2) ∧
  ∀ n, box p2 n = box (snd (receive_external 100 100 true "a" noon "rin" None "t" slack_message nobody)) n.
Proof.
  apply (external_key_shared 100 100 true "a" noon "rin" None "t" slack_message nobody
    (fst (receive_external 100 100 true "a" noon "rin" None "t" slack_message nobody)));
    first [apply surjective_pairing | reflexivity | vm_compute; congruence].
Defined.

Definition retries : list call := [(10, "slack", "m1"); (35, "slack", "m1"); (50, "slack", "m1"); (60, "slack", "")]%Q.
Lemma dedup_exact_witness : run_dedup [] retries = [false; true; false; false].
Proof.
  rewrite (dedup_exact retries); [vm_compute; reflexivity|].
  repeat constructor; vm_compute; congruence.
Defined.

(* ------------------------------------------------------------------ *)
(** ** Working through an inbox *)

Definition at_noon : surroundings := mk_surroundings "rin" None 100 empty_db [].
Definition question (n : string) : Message :=
  mk_message n n "" "kaede" "rin" "message" "ready?" [] "question" noon "anima" "" "" "" "" [] [].
Definition file_of (m : Message) : file := mk_file (demo_dump m) 50.
Definition name_of (m : Message) : string := id m +:+ ".json".
Definition inbox_with (ms : list Message) : mailbox :=
  mk_mailbox (list_to_map ((λ m, (name_of m, file_of m)) <$> ms)) ∅ ∅ ∅.
Definition one : Message := question "m1".
Definition asked (overflow : option (list (Q * Message))) : flow := mk_flow (inbox_with [one]) None overflow [].

Lemma one_ordinary : ordinary at_noon "m1.json" (file_of one) one.
Proof. split; try (vm_compute; reflexivity). apply not_elem_of_nil. Qed.
Lemma one_in_vain c : c ≠ Finished true → in_vain "m1.json" (file_of one) one (mk_visit at_noon false ∅ c).
Proof. intros Hc. split; [exact one_ordinary|reflexivity|done|exact Hc]. Qed.
Definition silence : visit := mk_visit at_noon false ∅ (Finished false).
Definition outage : visit := mk_visit at_noon false ∅ Failed.

Definition two_silent : list visit := [silence; outage; silence; outage].
Definition four_silent : list visit := [silence; outage; silence; silence; outage; silence].
Lemma asked_unread o : at_inbox "m1.json" (file_of one) (asked o).
Proof. unfold at_inbox. vm_compute. reflexivity. Qed.
Lemma silent_in_vain : Forall (in_vain "m1.json" (file_of one) one) two_silent ∧ Forall (in_vain "m1.json" (file_of one) one) four_silent.
Proof. split; repeat (apply Forall_cons_2; [apply one_in_vain; discriminate|]); apply Forall_nil_2. Qed.

(** Without the directory the same message is still unread after a hundred
    silent cycles. *)
Lemma never_given_up_witness : at_inbox "m1.json" (file_of one) (visits (replicate 100 silence) (asked None)).
Proof.
  apply (never_given_up "m1.json" (file_of one) one (replicate 100 silence) (asked None)).
  - apply asked_unread.
  - reflexivity.
  - reflexivity.
  - vm_compute. lia.
  - apply Forall_replicate. split; [apply one_in_vain; discriminate|reflexivity].
Defined.

(** The run that answers the question. *)
Definition answered : result InboxFlow.reply * flow := process_inbox_message at_noon false false ∅ (Finished true) (asked None).
Lemma answered_reads : inbox (InboxFlow.box (snd answered)) !! "m1.json" = None ∧
  quarantine (InboxFlow.box (snd answered)) !! "m1.json" = None.
Proof. split; vm_compute; reflexivity. Qed.
Lemma message_accounted_witness : at_processed "m1.json" (file_of one) (snd answered).
Proof.
  destruct (message_accounted at_noon false false ∅ (Finished true) (asked None) (fst answered) (snd answered) "m1.json" (file_of one))
    as [Hi|[[[_ Hq] _]|[Hp _]]].
  - vm_compute. reflexivity.
  - reflexivity.
  - apply surjective_pairing.
  - exfalso. unfold at_inbox in Hi. rewrite (proj1 answered_reads) in Hi. discriminate Hi.
  - exfalso. rewrite (proj2 answered_reads) in Hq. discriminate Hq.
  - exact Hp.
Defined.

(** Twelve questions: two are written to the overflow directory, ten are
    counted as unread, and all twelve are in the prompt. *)
Definition twelve : flow :=
  mk_flow (inbox_with (question <$> ["a"; "b"; "c"; "d"; "e"; "f"; "g"; "h"; "i"; "j"; "k"; "l"])) None None [].
Example overflow_still_in_prompt :
  match _process_inbox_messages at_noon true twelve with
  | (Ok r, s) => length (prompt_lines r) = 12 ∧ unread_count r = 10 ∧ (length <$> overflow_inbox s) = Some 2
  | _ => False
  end.
Proof. vm_compute. repeat split. Qed.
(** ... and written again when the run fails and the next one starts. *)
Example overflow_written_twice :
  length <$> overflow_inbox (visit_once outage (visit_once outage twelve)) = Some 4.
Proof. vm_compute. reflexivity. Qed.
