(* ===== verification/Executor.v ===== *)
(** * The executor of pending tasks ([core/supervisor/pending_executor.py])

    The watcher of one anima: it recovers attempts whose process died,
    delivers the wake-ups of the task store as messages, claims what may start
    and runs it, and settles every attempt when its run ends.  The state joins
    the task store ([TaskStore]), the mailboxes ([Messenger]), the identifiers
    of the tasks running here, the files of [state/task_results/] and the
    start and end events of the activity log.

    The run of the model is an argument ([worker]): a function of the prompt
    and the state that returns the state in which it ended, whatever the model,
    its tools and other processes did in the meantime, and how it ended; for an
    isolated task, the same for the child process.  Prompt templates and
    localised texts are the parameter [Wording]; the table of processes
    ([psutil]) and Python's reading of numbers are the parameter [Processes].
    Identifiers in a descriptor are strings.

    Not modelled: the pool of worker sessions and its display slots, model
    overrides, the streaming journal of a run (see [Journal]).  The command
    descriptors of [state/background_tasks/] are in [Commands]. *)

From Stdlib Require Import QArith Qabs.
From stdpp Require Import prelude strings list gmap sorting.
From S2P Require Import Prelude PyValue PyText JsonText Sql TaskModels TaskStore TaskQueue.
From S2P Require Import Activity Cascade Mailbox Channels Messenger.
Open Scope nat_scope.

(* ------------------------------------------------------------------ *)
(** ** State and surroundings *)

Inductive exec_event := ExecStart (task : string) | ExecEnd (task status : string).

Record executor := mk_executor {
  tw : world;
  mail : post;
  _active_task_ids : gset string;
  (** the claimed tasks whose dispatch has not ended *)
  _active_dispatch_tasks : list dict;
  (** by task, and by attempt where the run has one *)
  task_results : gmap (string * option string) string;
  activity_events : list exec_event
}.
Definition set_tw (v : world) (s : executor) : executor :=
  mk_executor v (mail s) (_active_task_ids s) (_active_dispatch_tasks s) (task_results s) (activity_events s).
Definition set_mail (v : post) (s : executor) : executor :=
  mk_executor (tw s) v (_active_task_ids s) (_active_dispatch_tasks s) (task_results s) (activity_events s).
Definition set_active (v : gset string) (s : executor) : executor :=
  mk_executor (tw s) (mail s) v (_active_dispatch_tasks s) (task_results s) (activity_events s).
Definition set_results (v : gmap (string * option string) string) (s : executor) : executor :=
  mk_executor (tw s) (mail s) (_active_task_ids s) (_active_dispatch_tasks s) v (activity_events s).
Definition set_dispatched (v : list dict) (s : executor) : executor :=
  mk_executor (tw s) (mail s) (_active_task_ids s) v (task_results s) (activity_events s).
Definition log_event (v : exec_event) : M executor unit :=
  modify (λ s, mk_executor (tw s) (mail s) (_active_task_ids s) (_active_dispatch_tasks s) (task_results s) (activity_events s ++ [v])).

(** An operation of the store, and one of the messenger. *)
Definition in_tasks {A} (m : M world A) : M executor A := λ s,
  let '(r, w) := m (tw s) in (r, set_tw w s).
Definition in_mail {A} (m : M post A) : M executor A := λ s,
  let '(r, p) := m (mail s) in (r, set_mail p s).
(** [with attempt_scope(identity)] around a run of the executor. *)
Definition scoped {A} (identity : option attempt_identity) (m : M executor A) : M executor A := λ s,
  let '(r, s') := m (set_tw (set_ctx_identity identity (tw s)) s) in
  (r, set_tw (set_ctx_identity (w_ctx_identity (tw s)) (tw s')) s').

(** [psutil]: what a process identifier names now. *)
Inductive process := NoSuchProcess | AccessDenied | ProcessOf (create_time : Q) (zombie : bool).
Class Processes := {
  int_text : string → option Z;
  float_text : string → option Q
}.
Class Wording := {
  text_completed : string;
  text_cancelled : string;
  none_value : string;
  no_workspace : string;
  dep_result_header : string → string;
  task_fail_notify : string → json → string → result string;
  task_complete_notify : string → json → string → result string;
  (** [f"{type(exc).__name__}: {str(exc)[:200]}"] *)
  exception_text : exn → string
}.

(** What a call finds: its own name, process and identity, whether the anima is
    shutting down, the time, the other processes, the pool size in use, the
    messenger's surroundings and the identifier and time of the n-th message. *)
Record exec_env := mk_exec_env {
  self : string;
  getpid : Z;
  process_identity : dict;
  shutting_down : bool;
  utc_now : Q;
  process_of : Z → process;
  pool_size : json;
  workspace : string;
  mail_env : send_env;
  stamps : nat → string * datetime
}.

(** What a model is given for a task. *)
Record task_prompt := mk_prompt {
  p_task_id : string; p_title : string; p_workspace : string; p_description : string; p_context : string;
  p_criteria : string; p_constraints : string; p_paths : string; p_siblings : string
}.
(** How a run of the model ends: with the chunks it streamed, with an
    exception, or cancelled. *)
Inductive cycle_end := Streamed (chunks : list dict) | CycleFailed (err : exn) | CycleCancelled.
Definition session : Type := task_prompt → executor → cycle_end * executor.
(** An isolated run: the identity of the child once it is spawned, then what
    became of it ([TaskRunnerError]: it exited without a result). *)
Inductive child_end :=
| ChildResult (result : json) | TaskRunnerError (cause : string) | ChildFailed (err : exn) | ChildCancelled.
Record child := mk_child { spawned : option dict; run_child : executor → child_end * executor }.
Inductive worker := Inline (c : session) | Isolated (c : child).
(** What runs a task: a worker for the model, and the manager of background
    commands, up to the return of its call. *)
Record machinery := mk_machinery { run_llm : worker; run_command : executor → option exn * executor }.

(* ------------------------------------------------------------------ *)
(** ** Constants and texts *)

Definition _LLM_TASK_TTL_HOURS : Q := 24.
Definition _TASK_RESULT_MAX_CHARS : nat := 2000.
Definition _TASK_COMPLETE_NOTIFY_MAX_CHARS : nat := 10000.
Definition _SENTINEL_CANCELLED : string := "(cancelled)".
Definition _SENTINEL_EXPIRED : string := "(expired)".
Definition _SENTINEL_BUDGET_SKIPPED : string := "(budget_skipped)".
Definition _SENTINEL_UNDECLARED : string := "(undeclared)".
Definition _QUEUE_STICKY_STATUSES : list string := ["done"; "cancelled"; "delegated"].
Definition ORIGIN_ANIMA : string := "anima".

(** [a or b]. *)
Definition json_or (a b : json) : json := if truthy a then a else b.

(** The first line of a text that is not blank, stripped. *)
Definition first_line (s : string) : string :=
  from_option Datatypes.id "" (head (filter (λ l, str_truthy l = true) (strip <$> splitlines s))).

Section executor.
Context `{Oracle, Calendar, FloatText, Codec, Listing file, Processes, Wording}.

Definition _task_activity_identity (desc : dict) : string * string * string :=
let task_id := str_json (json_or (dget_none "task_id" desc) (JStr "unknown")) in
let description := str_json (json_or (dget_none "description" desc) (JStr "")) in
let title := strip (str_json (json_or (dget_none "title" desc) (JStr ""))) in
let title := if str_truthy title then title else take_chars 100 (first_line description) in
(task_id, str_or title task_id, description).

(** Map a result to the status of the queue and a summary. *)
Definition _classify_task_result (result : string) : string * string :=
if bool_decide (result = _SENTINEL_CANCELLED) then ("cancelled", text_cancelled) else
if bool_decide (result = _SENTINEL_EXPIRED) then ("cancelled", "expired (TTL exceeded)") else
if bool_decide (result = _SENTINEL_BUDGET_SKIPPED)
then ("pending", "execution skipped because token budget is unavailable") else
if bool_decide (result = _SENTINEL_UNDECLARED) then ("pending", "run ended without a completion declaration") else
("done", take_chars 200 result).

Definition _worker_pool_size (e : exec_env) : Z :=
match int_of (pool_size e) with
| Some v => if (1 <=? v)%Z && (v <=? 10)%Z then v else 1%Z
| None => 1%Z
end.

(** [reply_to], or its ["name"] when it is an object, when that is a text that
  is not empty. *)
Definition reply_name (desc : dict) : option string :=
let v := match dget_none "reply_to" desc with JObj d => dget_none "name" d | v => v end in
match v with JStr s => if str_truthy s then Some s else None | _ => None end.

(* ------------------------------------------------------------------ *)
(** ** Processes *)

(** [int(v)] and [float(v)]. *)
Definition py_int (v : json) : result Z :=
match v with
| JInt z => Ok z
| JBool b => Ok (if b then 1 else 0)%Z
| JFloat q => Ok (Z.quot (Qnum q) (Zpos (Qden q)))
| JStr s => match int_text s with Some z => Ok z | None => Err (ValueError "int") end
| _ => Err (TypeError "int")
end.
Definition py_float (v : json) : result Q :=
match num_of v, v with
| Some q, _ => Ok q
| None, JStr s => match float_text s with Some q => Ok q | None => Err (ValueError "float") end
| None, _ => Err (TypeError "float")
end.

Definition identity_liveness (e : exec_env) (identity : dict) : string :=
let step : result string :=
  pid ← (if truthy (dget_none "task_pid" identity) then Ok (dget_none "task_pid" identity)
         else match dget "pid" identity with Some v => Ok v | None => Err (KeyError "pid") end);
  pid ← py_int pid;
  match process_of e pid with
  | NoSuchProcess => Ok "dead"
  | AccessDenied => Ok "unknown"
  | ProcessOf created zombie =>
      started ← match dget "process_start_time" identity with
                | Some v => py_float v
                | None => Err (KeyError "process_start_time")
                end;
      Ok (if negb (Qle_bool (Qabs (created - started)) (1 # 100)) then "dead"
          else if zombie : bool then "dead" else "live")
  end in
match step with
| Ok v => v
| Err (ValueError _) => "dead"
| Err _ => "unknown"
end.

(* ------------------------------------------------------------------ *)
(** ** The records of a run *)

Definition _save_task_result (tid summary_ : string) : M executor unit :=
identity ← in_tasks current_attempt_identity;
modify (λ s, set_results
  (<[(tid, id_token <$> identity) := take_chars _TASK_RESULT_MAX_CHARS summary_]> (task_results s)) s).

Definition _record_run_ended (e : exec_env) (tid stop_kind : string) (note : option string) : M executor unit :=
if negb (str_truthy tid) then mret tt else
catch
  (now ← in_tasks now_iso;
   let patch := [("last_run_ended_at", JStr now); ("last_run_stop_kind", JStr stop_kind)] in
   let patch := if str_truthy (default "" note)
                then dset "last_run_note" (JStr (take_chars 300 (default "" note))) patch else patch in
   _ ← in_tasks (update_meta (self e) tid patch None);
   mret tt)
  (λ _, mret tt).

Definition _get_task_queue_entry (e : exec_env) (tid : string) : M executor (option TaskEntry) :=
if negb (str_truthy tid) then mret None else
catch (in_tasks (get_task_by_id (self e) tid)) (λ _, mret None).

(** A cancelled task, and one that was declared done or handed to a
  subordinate, is not walked back. *)
Definition _sync_task_queue (e : exec_env) (tid st : string) (summary_ : option string) : M executor unit :=
catch
  (entry ← in_tasks (get_task_by_id (self e) tid);
   let current := status <$> entry in
   if bool_decide (current = Some "cancelled") then mret tt else
   if match current with
      | Some c => negb (bool_decide (c = st)) && str_in c _QUEUE_STICKY_STATUSES
      | None => false
      end then mret tt else
   if bool_decide (st = "pending") then
     _ ← (if str_truthy (default "" summary_)
          then _ ← in_tasks (update_meta (self e) tid
                               [("last_run_note", JStr (take_chars 300 (default "" summary_)))] None); mret tt
          else mret tt);
     _ ← in_tasks (update_status (self e) tid st None);
     mret tt
   else
     _ ← in_tasks (update_status (self e) tid st summary_);
     mret tt)
  (λ _, mret tt).

(** Two tries to send a notice; a failure of both is logged. *)
Definition notify_twice (e : exec_env) (to content : string) : M executor unit :=
let try_ n := _ ← in_mail (send (mail_env e) (fst (stamps e n)) (snd (stamps e n)) (self e) to content
                             (mk_args "message" "" "" false "" [ORIGIN_ANIMA] [] "anima" "")); mret tt in
catch (try_ 0) (λ _, catch (try_ 1) (λ _, mret tt)).

Definition _return_task_to_pending (e : exec_env) (desc : dict) (reason stop_kind : string) : M executor unit :=
let '(tid, title, _) := _task_activity_identity desc in
entry ← _get_task_queue_entry e tid;
if bool_decide (status <$> entry = Some "cancelled") then mret tt else
_ ← _save_task_result tid reason;
_ ← _record_run_ended e tid stop_kind (Some reason);
_ ← _sync_task_queue e tid "pending" None;
if truthy (dget_none "_attempt_token" desc) then mret tt else
let recipient := default (self e) (reply_name desc) in
match task_fail_notify tid (JStr title) reason with
| Err _ => mret tt
| Ok text => notify_twice e recipient text
end.

(* ------------------------------------------------------------------ *)
(** ** One run of the model *)

Definition _build_dependency_context (desc : dict) (completed : list (string * string)) : result string :=
deps ← depends_on desc;
Ok (join (newline +:+ newline)
      ((λ d, dep_result_header d +:+ newline +:+ default "" (dget d completed)) <$>
         filter (λ d, str_truthy (default "" (dget d completed)) = true) deps)).

(** [status="in_progress"] entries but this one, one line each, eight at most. *)
Definition sibling_line (e : TaskEntry) : string :=
let s := strip (TaskModels.summary e) in
let s := if str_truthy s then from_option Datatypes.id "" (head (splitlines s)) else "-" in
let s := if 160 <? char_count s then take_chars 160 s +:+ "..." else s in
"- [" +:+ take_chars 8 (task_id e) +:+ "] " +:+ s +:+ " (" +:+ take_chars 16 (updated_at e) +:+ ")".
Definition _format_active_sibling_tasks (e : exec_env) (current : string) : M executor string :=
catch
  (entries ← in_tasks (list_tasks (self e) (Some "in_progress"));
   mret (join newline (sibling_line <$> take 8 (filter (λ t, task_id t ≠ current) entries))))
  (λ _, mret "").

(** ["\n".join(f"- {c}" for c in v) if v else none]. *)
Definition bullets (v : json) : result string :=
if negb (truthy v) then Ok none_value else
let lines l := Ok (join newline ((λ c, "- " +:+ c) <$> l)) in
match v with
| JList l => lines (str_json <$> l)
| JStr s => lines (chars s)
| JObj d => lines (fst <$> d)
| _ => Err (TypeError "object is not iterable")
end.

(** The newest of submission and last touch; timestamps that cannot be read
  do not count. *)
Definition stamp_of (v : json) : option Q := s ← str_of v; dt_seconds <$> fromisoformat s.
Definition expired_task (e : exec_env) (submitted_at : json) (touched_at : string) : bool :=
match omap stamp_of [submitted_at; JStr touched_at] with
| [] => false
| q :: qs => let newest := foldl (λ a b, if Qle_bool b a then a else b) q qs in
             negb (Qle_bool ((utc_now e - newest) / 3600) _LLM_TASK_TTL_HOURS)
end.

(** The variables of the streaming loop. *)
Record streamed := mk_streamed {
  accumulated_text : string; result_summary : string; task_failed_reason : string;
  had_error : bool; error_message : string; stop_kind : string; cycle_error_category : string
}.
Definition stream_start : streamed := mk_streamed "" "" "" false "" "normal" "".
Definition text_of (v : json) : result string :=
match v with JStr s => Ok s | _ => Err (TypeError "str") end.
Definition chunk_step (st : streamed) (chunk : dict) : result streamed :=
let '(mk_streamed acc summ failed had msg stop cat) := st in
match dget_none "type" chunk with
| JStr kind =>
    if bool_decide (kind = "text_delta") then
      t ← text_of (dget_default "text" (JStr "") chunk);
      Ok (mk_streamed (acc +:+ t) summ failed had msg stop cat)
    else if bool_decide (kind = "error") then
      Ok (mk_streamed acc summ failed true (str_json (dget_default "message" (JStr "unknown error") chunk)) stop cat)
    else if bool_decide (kind = "retry_start") then Ok (mk_streamed acc summ failed false "" stop cat)
    else if bool_decide (kind = "cycle_done") then
      match dget_default "cycle_result" (JObj []) chunk with
      | JObj cr =>
          s ← text_of (dget_default "summary" (JStr (take_chars 500 acc)) cr);
          let k := str_json (json_or (dget_none "stop_kind" cr) (JStr "normal")) in
          Ok (mk_streamed acc s
                (if py_eq (dget_none "action" cr) (JStr "error") || bool_decide (k = "stream_error")
                 then str_or s "task execution failed" else failed)
                had msg k (str_json (json_or (dget_none "error_category" cr) (JStr ""))))
      | _ => Err (AttributeError "get")
      end
    else Ok st
| _ => Ok st
end.
Fixpoint stream (st : streamed) (chunks : list dict) : result streamed :=
match chunks with
| [] => Ok st
| c :: cs => st' ← chunk_step st c; stream st' cs
end.

(** A declared completion excuses an error of the stream, and its note is the
  result. *)
Definition declared (entry : TaskEntry) : bool :=
bool_decide (status entry = "done") &&
py_eq (dget_none "completed_by" (TaskModels.meta entry)) (JStr "agent_declaration").
Definition suppressed_summary (entry : TaskEntry) (st : streamed) : string :=
str_json (json_or (dget_none "result_note" (TaskModels.meta entry))
  (JStr (str_or (TaskModels.summary entry) (str_or (result_summary st)
     (str_or (take_chars 500 (accumulated_text st)) text_completed))))).

(** The notification of a completion, for a run without an attempt. *)
Definition notify_completion (e : exec_env) (desc : dict) (tid title result : string) : M executor unit :=
if truthy (dget_none "_attempt_token" desc) then mret tt else
match reply_name desc with
| None => mret tt
| Some to =>
    let body := strip result in
    if negb (str_truthy body) || bool_decide (body = text_completed) || startswith "[Session interrupted" body
    then mret tt
    else match task_complete_notify tid (JStr title) (take_chars _TASK_COMPLETE_NOTIFY_MAX_CHARS result) with
         | Err _ => mret tt
         | Ok text => notify_twice e to text
         end
end.

(** What is left to do when the stream has ended. *)
Definition after_stream (e : exec_env) (desc : dict) (tid title : string) (st : streamed) : M executor string :=
let broken := had_error st || str_truthy (task_failed_reason st) in
entry ← (if broken then catch (in_tasks (get_task_by_id (self e) tid)) (λ _, mret None) else mret None);
let error_suppressed := from_option declared false entry in
let result := match entry with
              | Some en => if declared en then suppressed_summary en st else result_summary st
              | None => result_summary st
              end in
_ ← guard_raise (had_error st && negb error_suppressed)
      (TaskExecError ("Task " +:+ tid +:+ " encountered streaming error: " +:+ error_message st));
_ ← guard_raise (str_truthy (task_failed_reason st) && negb error_suppressed) (RuntimeError (task_failed_reason st));
if bool_decide (stop_kind st = "budget_skipped") then
  _ ← _record_run_ended e tid (stop_kind st) None; mret _SENTINEL_BUDGET_SKIPPED
else
let result := if str_truthy result then result
              else str_or (take_chars 500 (accumulated_text st)) text_completed in
_ ← guard_raise (bool_decide (cycle_error_category st = "auth"))
      (TaskExecError "task execution failed due to a terminal authentication error (credential problem)");
entry ← _get_task_queue_entry e tid;
match entry with
| None => _ ← notify_completion e desc tid title result; mret result
| Some en =>
    _ ← _record_run_ended e tid (stop_kind st) None;
    if bool_decide (status en = "cancelled") then mret _SENTINEL_CANCELLED else
    if negb (str_in (status en) ["done"; "delegated"]) then
      _ ← _save_task_result tid (_SENTINEL_UNDECLARED +:+ newline +:+ newline +:+ result);
      mret _SENTINEL_UNDECLARED
    else
      let result := if py_eq (dget_none "completed_by" (TaskModels.meta en)) (JStr "agent_declaration")
                    then str_json (json_or (dget_none "result_note" (TaskModels.meta en)) (JStr result)) else result in
      _ ← notify_completion e desc tid title result;
      mret result
end.

(** [None]: the run was cancelled and the cancellation propagates. *)
Definition _run_llm_task_under_agent_session_context (e : exec_env) (c : session) (desc : dict)
  (completed : list (string * string)) : M executor (option string) :=
let '(tid, title, description) := _task_activity_identity desc in
entry ← catch (in_tasks (get_task_by_id (self e) tid)) (λ _, mret None);
if bool_decide (status <$> entry = Some "cancelled") then mret (Some _SENTINEL_CANCELLED) else
if expired_task e (dget_default "submitted_at" (JStr "") desc) (from_option updated_at "" entry)
then mret (Some _SENTINEL_EXPIRED) else
_ ← _sync_task_queue e tid "in_progress" None;
dep_context ← lift (match completed with [] => Ok "" | _ => _build_dependency_context desc completed end);
criteria ← lift (bullets (dget_default "acceptance_criteria" (JList []) desc));
constraints ← lift (bullets (dget_default "constraints" (JList []) desc));
paths ← lift (bullets (dget_default "file_paths" (JList []) desc));
let context := str_json (json_or (dget_default "context" (JStr "") desc) (JStr none_value)) in
let context := if str_truthy dep_context then context +:+ newline +:+ newline +:+ dep_context else context in
let cwd := str_json (json_or (dget_default "working_directory" (JStr "") desc) (JStr (workspace e))) in
siblings ← _format_active_sibling_tasks e tid;
ended ← (λ s, let '(r, s') := c (mk_prompt tid title (str_or cwd no_workspace) description context criteria constraints
                                   paths (str_or siblings none_value)) s in (Ok r, s'));
match ended with
| CycleCancelled => mret None
| CycleFailed err => raise err
| Streamed chunks =>
    st ← lift (stream stream_start chunks);
    r ← after_stream e desc tid title st;
    mret (Some r)
end.

(** [_run_llm_task]: the run with its events. *)
Definition end_status (result : string) : string :=
if bool_decide (result = _SENTINEL_CANCELLED) then "cancelled" else
if bool_decide (result = _SENTINEL_EXPIRED) then "expired" else
if bool_decide (result = _SENTINEL_BUDGET_SKIPPED) then "budget_skipped" else
if bool_decide (result = _SENTINEL_UNDECLARED) then "undeclared" else "completed".
Definition _run_llm_task (e : exec_env) (c : session) (desc : dict) (completed : list (string * string)) :
  M executor (option string) :=
let '(tid, _, _) := _task_activity_identity desc in
_ ← log_event (ExecStart tid);
r ← catch (_run_llm_task_under_agent_session_context e c desc completed)
      (λ err, _ ← log_event (ExecEnd tid "error"); raise err);
_ ← log_event (ExecEnd tid (from_option end_status "cancelled" r));
mret r.

(** The result of a child as a text. *)
Definition child_text (result : json) : string :=
match result with JStr r => r | JNull => "" | r => str_json r end.
(** The child gets the descriptor; its identity is recorded as it starts. *)
Definition _run_llm_task_isolated (c : child) (desc : dict) : M executor (option string) :=
_ ← match spawned c with
    | Some job =>
        if truthy (dget_none "_attempt_token" desc)
        then _ ← in_tasks (set_identity (str_json (dget_none "_attempt_token" desc)) job); mret tt
        else mret tt
    | None => mret tt
    end;
ended ← (λ s, let '(r, s') := run_child c s in (Ok r, s'));
match ended with
| ChildCancelled => mret None
| TaskRunnerError cause =>
    raise (RuntimeError ("INTERRUPTED: task runner child exited without a result (cause: " +:+ cause +:+
      "). May have PARTIALLY EXECUTED; verify actual completion state before re-delegating."))
| ChildFailed err => raise err
| ChildResult r => mret (Some (child_text r))
end.

Definition _run_task_in_worker (e : exec_env) (wk : worker) (desc : dict) (completed : list (string * string)) :
  M executor (option string) :=
match wk with
| Isolated c => _run_llm_task_isolated c desc
| Inline c => _run_llm_task e c desc completed
end.

(** [_execute_llm_task]; [None]: cancelled.  During a shutdown an error is left
  to the recovery of the next start. *)
Definition _execute_llm_task (e : exec_env) (wk : worker) (desc : dict) (completed : list (string * string)) :
  M executor (option unit) :=
let tid := str_json (dget_default "task_id" (JStr "unknown") desc) in
catch
  (result ← _run_task_in_worker e wk desc completed;
   match result with
   | None => mret None
   | Some result =>
       _ ← (if bool_decide (result = _SENTINEL_UNDECLARED) then mret tt else _save_task_result tid result);
       let '(st, summary_) := _classify_task_result result in
       _ ← _sync_task_queue e tid st (Some summary_);
       mret (Some tt)
   end)
  (λ err, if shutting_down e then raise err else
          _ ← _return_task_to_pending e desc (exception_text err) "crash"; mret (Some tt)).

(** Routes by [task_type]. *)
Definition execute_pending_task (e : exec_env) (mach : machinery) (desc : dict) (completed : list (string * string)) :
  M executor (option unit) :=
if py_eq (dget_default "task_type" (JStr "command") desc) (JStr "llm")
then _execute_llm_task e (run_llm mach) desc completed
else λ s, match run_command mach s with
          | (None, s') => (Ok (Some tt), s')
          | (Some err, s') => (Err err, s')
          end.

(* ------------------------------------------------------------------ *)
(** ** Attempts *)

(** [str(entry.meta.get("result_note") or entry.summary)]. *)
Definition result_text (entry : TaskEntry) : string :=
str_json (json_or (dget_none "result_note" (TaskModels.meta entry)) (JStr (TaskModels.summary entry))).

(** The status an attempt ends with, from the ledger. *)
Definition ledger_status (entry : option TaskEntry) : string :=
match entry with
| Some en => if str_in (status en) ["done"; "cancelled"] then status en else "pending"
| None => "pending"
end.
(** Why it ended: a run that ended normally asks the ledger. *)
Definition final_stop_kind (entry : option TaskEntry) (kind : string) : string :=
let kind := match entry with
            | Some en => if bool_decide (kind = "normal")
                         then str_json (json_or (dget_none "last_run_stop_kind" (TaskModels.meta en)) (JStr kind)) else kind
            | None => kind
            end in
if bool_decide (ledger_status entry = "cancelled") && bool_decide (kind = "normal") then "interrupted" else kind.

(** The [finally] block of [_execute_canonical_task]. *)
Definition child_still_live (e : exec_env) (active : option attempt_row) : bool :=
match active with
| Some a =>
    negb (py_eq (json_or (dget_none "task_pid" (att_identity a)) (dget_none "pid" (att_identity a))) (JInt (getpid e))) &&
    negb (bool_decide (identity_liveness e (att_identity a) = "dead"))
| None => false
end.
Definition result_path (tid token : string) : string := "state/task_results/" +:+ tid +:+ "/" +:+ token +:+ ".md".
Definition settle (e : exec_env) (tid token kind : string) : M executor unit :=
entries ← in_tasks (read (self e) true);
let entry := dget tid entries in
attempts ← in_tasks (active_attempts (self e));
_ ← (if child_still_live e (select_first (λ a, bool_decide (att_token a = token)) attempts) then mret tt
     else has_result ← gets (λ s, bool_decide (is_Some (task_results s !! (tid, Some token))));
          _ ← in_tasks (finish token (ledger_status entry) (final_stop_kind entry kind) None
                          (if has_result : bool then result_path tid token else ""));
          mret tt);
modify (λ s, set_active (_active_task_ids s ∖ {[tid]}) s).

(** The text results of the dependencies that are on record. *)
Definition completed_results (deps : list string) (entries : list (string * TaskEntry)) : list (string * string) :=
dmerge [] (omap (λ d, (λ en, (d, result_text en)) <$> dget d entries) deps).

(** One claimed task; [false]: the run was cancelled. *)
Definition _execute_canonical_task (e : exec_env) (mach : machinery) (desc : dict) : M executor bool :=
tid ← lift (item "task_id" desc);
token ← lift (item "_attempt_token" desc);
let tid := str_json tid in
let token := str_json token in
let body :=
  entries ← in_tasks (read (self e) true);
  deps ← lift (depends_on desc);
  let completed := completed_results deps entries in
  execute_pending_task e mach (dset "_completed_results" (JObj (prod_map Datatypes.id JStr <$> completed)) desc) completed in
kind ← catch
         (r ← scoped (Some (mk_identity (self e) tid token)) body;
          mret (match r with Some _ => "normal" | None => "interrupted" end))
         (λ _, mret "crash");
_ ← settle e tid token kind;
mret (negb (bool_decide (kind = "interrupted"))).

(** Only an attempt whose process is proved dead is ended, and nothing is run
  again. *)
Definition recover_one (e : exec_env) (a : attempt_row) : M executor unit :=
here ← gets (λ s, bool_decide (att_task_id a ∈ _active_task_ids s));
if here : bool then mret tt else
if negb (bool_decide (identity_liveness e (att_identity a) = "dead")) then mret tt else
entries ← in_tasks (read (self e) true);
_ ← in_tasks (finish (att_token a) (ledger_status (dget (att_task_id a) entries)) "owner_exited" None "");
mret tt.
Definition _recover_task_attempts (e : exec_env) : M executor unit :=
attempts ← in_tasks (active_attempts (self e));
for_each attempts (recover_one e).

(* ------------------------------------------------------------------ *)
(** ** Wake-ups *)

Definition wakeup_id (k : wakeup_row) : string := "task-wakeup-" +:+ wk_token k.
Definition completion (k : wakeup_row) : bool := bool_decide (wk_reason k = "completion").
(** Whoever asked for the task, and the anima itself unless it was completed. *)
Definition recipients (e : exec_env) (k : wakeup_row) (payload : dict) : list string :=
merge_sort str_le (remove_dups ((if completion k then [] else [self e]) ++ option_list (reply_name payload))).
Definition wakeup_args (k : wakeup_row) : send_args :=
mk_args "system_alert" "" "" false "report" []
  [("task_id", JStr (wk_task_id k)); ("attempt_token", JStr (wk_token k));
   ("event", JStr (if completion k then "task_completed" else "task_needs_attention"))] "anima" (wakeup_id k).
Definition wakeup_text (e : exec_env) (k : wakeup_row) (payload : dict) : M executor string :=
let title := dget_default "title" (JStr (wk_task_id k)) payload in
if completion k then
  entries ← in_tasks (read (self e) true);
  let result := from_option result_text "" (dget (wk_task_id k) entries) in
  lift (task_complete_notify (wk_task_id k) title (take_chars _TASK_COMPLETE_NOTIFY_MAX_CHARS result))
else lift (task_fail_notify (wk_task_id k) title (wk_reason k)).
Definition send_wakeup (e : exec_env) (k : wakeup_row) (content to : string) : M executor unit :=
_ ← in_mail (send (mail_env e) (fst (stamps e 0)) (snd (stamps e 0)) (self e) to content (wakeup_args k)); mret tt.
Definition deliver_wakeup (e : exec_env) (k : wakeup_row) : M executor unit :=
payload ← in_tasks (get_input (self e) (wk_task_id k));
let payload := default [] payload in
catch
  (content ← wakeup_text e k payload;
   _ ← for_each (recipients e k payload) (send_wakeup e k content);
   in_tasks (acknowledge_wakeup (self e) (wk_token k)))
  (λ _, mret tt).
Definition _deliver_task_wakeups (e : exec_env) : M executor unit :=
events ← in_tasks (wakeups (self e));
for_each events (deliver_wakeup e).

(* ------------------------------------------------------------------ *)
(** ** The watcher *)

(** A claimed task is dispatched at once. *)
Definition claim_one (e : exec_env) (payload : dict) : M executor unit :=
tid ← lift (item "task_id" payload);
started ← in_tasks (claim (self e) (str_json tid) (process_identity e) (_worker_pool_size e));
match started with
| None => mret tt
| Some desc =>
    tid ← lift (item "task_id" desc);
    modify (λ s, set_dispatched (_active_dispatch_tasks s ++ [desc])
                   (set_active ({[str_json tid]} ∪ _active_task_ids s) s))
end.
(** The part of one turn of [watcher_loop] that concerns tasks of the store. *)
Definition watcher_pass (e : exec_env) : M executor unit :=
_ ← _recover_task_attempts e;
_ ← _deliver_task_wakeups e;
payloads ← in_tasks (pending (self e));
for_each payloads (claim_one e).
(** A dispatch, with its done callback. *)
Definition dispatch (e : exec_env) (mach : machinery) (desc : dict) : M executor unit :=
_ ← catch (_ ← _execute_canonical_task e mach desc; mret tt) (λ _, mret tt);
modify (λ s, set_dispatched 
  (filter (λ d, py_eq (dget_none "_attempt_token" d) (dget_none "_attempt_token" desc) = false) (_active_dispatch_tasks s)) s).
End executor.
