(* ===== verification/ExecutorProps.v ===== *)
(** * What the executor promises

    The wake-ups of the task store reach their recipients: an event is only
    acknowledged when all of them have it, nobody gets it twice, and a pass
    that can write empties the outbox.  A run that ends settles its attempt
    with the outcome the anima declared.  Recovery ends the attempts of dead
    processes and no others. *)

From Stdlib Require Import QArith.
From stdpp Require Import prelude strings list gmap sorting.
From S2P Require Import Prelude PyValue PyText JsonText Sql TaskModels TaskStore TaskStoreInv TaskStoreProps TaskQueue TaskQueueProps.
From S2P Require Import Activity Cascade Mailbox MailboxProps Channels Messenger MessengerProps Executor.
Open Scope nat_scope.

(* ------------------------------------------------------------------ *)
(** ** Runs of the executor *)

Definition on_tw (R : world → world → Prop) : executor → executor → Prop := λ s s', R (tw s) (tw s').
Definition on_mail (R : post → post → Prop) : executor → executor → Prop := λ s s', R (mail s) (mail s').
#[global] Instance on_tw_preorder R `{!PreOrder R} : PreOrder (on_tw R).
Proof. split; [intros s; unfold on_tw; reflexivity|intros s1 s2 s3; unfold on_tw; apply transitivity]. Qed.
#[global] Instance on_mail_preorder R `{!PreOrder R} : PreOrder (on_mail R).
Proof. split; [intros s; unfold on_mail; reflexivity|intros s1 s2 s3; unfold on_mail; apply transitivity]. Qed.

Lemma within_in_tasks {A} R (m : M world A) : within R m → within (on_tw R) (in_tasks m).
Proof. intros Hm s. specialize (Hm (tw s)). unfold in_tasks, on_tw. by destruct (m (tw s)). Qed.
Lemma within_in_mail {A} R (m : M post A) : within R m → within (on_mail R) (in_mail m).
Proof. intros Hm s. specialize (Hm (mail s)). unfold in_mail, on_mail. by destruct (m (mail s)). Qed.
Lemma in_tasks_mail {A} R `{!Reflexive R} (m : M world A) : within (on_mail R) (in_tasks m).
Proof. intros s. unfold in_tasks, on_mail. destruct (m (tw s)). simpl. reflexivity. Qed.
Lemma in_mail_tasks {A} R `{!Reflexive R} (m : M post A) : within (on_tw R) (in_mail m).
Proof. intros s. unfold in_mail, on_tw. destruct (m (mail s)). simpl. reflexivity. Qed.
Lemma in_tasks_run {A} (m : M world A) s r s' : in_tasks m s = (r, s') →
  m (tw s) = (r, tw s') ∧ s' = set_tw (tw s') s.
Proof. unfold in_tasks. destruct (m (tw s)). intros. by simplify_eq/=. Qed.
Lemma in_mail_run {A} (m : M post A) s r s' : in_mail m s = (r, s') →
  m (mail s) = (r, mail s') ∧ s' = set_mail (mail s') s.
Proof. unfold in_mail. destruct (m (mail s)). intros. by simplify_eq/=. Qed.

(** A query of the store outside any transaction. *)
Lemma in_tasks_query {A} (f : db → A) s : w_conn (tw s) = None →
  in_tasks (reader (query f)) s = (Ok (f (w_db (tw s))), s).
Proof.
  intros Hc. unfold in_tasks, reader. rewrite Hc. unfold query, gets. simpl. f_equal.
  destruct s as [[] ? ? ? ? ?]. simpl in *. by subst.
Qed.

(* ------------------------------------------------------------------ *)
(** ** Wake-ups *)

(** Files that were there stay, and no file that somebody has, read or unread,
    is written again. *)
Record grows (p p' : post) : Prop := {
  g_archives n : processed (box p' n) = processed (box p n);
  g_inbox n : inbox (box p n) ⊆ inbox (box p' n);
  g_new n k f : inbox (box p' n) !! k = Some f → inbox (box p n) !! k = Some f ∨
                inbox (box p n) !! k = None ∧ processed (box p n) !! k = None
}.
#[global] Instance grows_preorder : PreOrder grows.
Proof.
  split; [by split; auto|]. intros p1 p2 p3 [Ha Hb Hc] [Hd He Hf]. split; intros n.
  - by rewrite Hd, Ha.
  - etrans; [apply Hb|apply He].
  - intros k f [Hk|[Hk Hp]]%Hf; [auto|]. right. split; [|by rewrite <- Ha].
    destruct (inbox (box p1 n) !! k) eqn:E; [|done]. eapply lookup_weaken in E; [|apply Hb]. congruence.
Qed.

Section wakeups.
Context `{Oracle, Calendar, FloatText, Codec, Listing file, Processes, Wording}.

Definition has_it (p : post) (k : wakeup_row) (to : string) : Prop := is_Some (earlier_delivery p to (wakeup_id k)).
Lemma grows_has p p' k to : grows p p' → has_it p k to → has_it p' k to.
Proof.
  intros [Ha Hb _]. unfold has_it, earlier_delivery. rewrite Ha. destruct (inbox (box p to) !! _) as [f|] eqn:E.
  - intros _. by rewrite (lookup_weaken _ _ _ _ E (Hb to)).
  - intros Hs. destruct (inbox (box p' to) !! _); [done|exact Hs].
Qed.

Lemma wakeup_id_truthy k : str_truthy (wakeup_id k) = true.
Proof. done. Qed.

(** Sending an event to one recipient. *)
Lemma send_wakeup_run e k content to s r s' : send_wakeup e k content to s = (r, s') →
  grows (mail s) (mail s') ∧ s' = set_mail (mail s') s ∧ (r = Ok tt → has_it (mail s') k to).
Proof.
  unfold send_wakeup. run_unfold.
  destruct (in_mail _ s) as [r1 s1] eqn:E. apply in_mail_run in E as [E Hs1].
  intros Hr. assert (s' = s1) as -> by (destruct r1; by simplify_eq).
  destruct (send_run _ _ _ _ _ _ _ _ _ _ E) as [[Hb Hok]|(-> & Hnew & Hb)].
  - split; [split; intros n; rewrite Hb; auto|split; [done|]]. intros ->. destruct r1 as [[m|why]|]; [| |by simplify_eq].
    + unfold has_it, earlier_delivery. rewrite Hb. destruct (Hok m eq_refl) as [[_ Hs]|Hp]; [exact Hs|].
      by destruct (inbox (box (mail s) to) !! _).
    + exfalso. revert E. unfold send. run_unfold. destruct (_ && _); [by intros [=]|].
      destruct (if str_truthy _ then _ else _); [destruct (load_message _ _); by intros [=]|].
      assert (limited (mail_env e) (wakeup_args k) to = false) as ->.
      { unfold limited. cbn [wakeup_args msg_type]. by rewrite andb_false_r. }
      destruct (deliver _ _ _ _) as [[]]; [|by intros [=]].
      match goal with |- context [log_sent ?e ?s ?t ?c ?a ?p1] => destruct (log_sent_run e s t c a p1) as [l ->] end.
      by intros [=].
  - specialize (Hnew (wakeup_id_truthy k)). apply earlier_none in Hnew as [Hi Hp].
    split; [|split; [done|]].
    + split; intros n; rewrite Hb; case_decide as Hn; [subst n|done|subst n|done|subst n|auto].
      * done.
      * cbn [with_file set_files inbox]. by apply insert_subseteq.
      * intros j f. cbn [with_file set_files inbox]. rewrite lookup_insert. case_decide; [subst j|auto]. auto.
    + intros _. unfold has_it, earlier_delivery. rewrite Hb, decide_True by done.
      cbn [with_file set_files inbox new_message id wakeup_args delivery_id]. cbn [str_truthy].
      by rewrite lookup_insert, decide_True.
Qed.

Lemma wakeup_id_inj k k' : wakeup_id k = wakeup_id k' → wk_token k = wk_token k'.
Proof. unfold wakeup_id. apply string_app_inj_l. Qed.

(** A file under another name or for another recipient is not touched. *)
Lemma send_wakeup_other e k content to s r s' d to' : send_wakeup e k content to s = (r, s') →
  d ≠ wakeup_id k ∨ to' ≠ to → earlier_delivery (mail s') to' d = earlier_delivery (mail s) to' d.
Proof.
  unfold send_wakeup. run_unfold.
  destruct (in_mail _ s) as [r1 s1] eqn:E. apply in_mail_run in E as [E Hs1].
  intros Hr Hne. assert (s' = s1) as -> by (destruct r1; by simplify_eq).
  unfold earlier_delivery. destruct (send_run _ _ _ _ _ _ _ _ _ _ E) as [[Hb _]|(_ & _ & Hb)]; rewrite Hb; [done|].
  case_decide; [subst to'|done]. destruct Hne as [Hne|]; [|done].
  cbn [with_file set_files inbox processed new_message id wakeup_args delivery_id str_truthy].
  rewrite lookup_insert_ne; [done|]. intros Hd%file_name_inj. apply Hne. exact (eq_sym Hd).
Qed.

(** Where the mailboxes can be written, an earlier delivery can be read and the
  identifier is a legal one, the send succeeds. *)
Definition sendable (e : exec_env) (k : wakeup_row) (to : string) (p : post) : Prop :=
∀ f, earlier_delivery p to (wakeup_id k) = Some f → is_Some (load_message (now (mail_env e)) f).
Lemma send_wakeup_ok e k content to s : writable (mail_env e) = true → valid_delivery_id (wakeup_id k) = true →
  sendable e k to (mail s) → fst (send_wakeup e k content to s) = Ok tt.
Proof.
  intros Hw Hv Hs. unfold send_wakeup, in_mail. run_unfold.
  enough (∃ m, fst (send (mail_env e) (fst (stamps e 0)) (snd (stamps e 0)) (self e) to content (wakeup_args k) (mail s)) =
    Ok (Sent m)) as [m Hm].
  { destruct (send _ _ _ _ _ _ _ _) as [r p]. simpl in Hm. by subst. }
  unfold send. run_unfold. cbn [wakeup_args delivery_id]. rewrite Hv, andb_false_r, wakeup_id_truthy.
  destruct (earlier_delivery (mail s) to (wakeup_id k)) as [f|] eqn:Ef.
  { destruct (Hs f Ef) as [m ->]. eauto. }
  assert (limited (mail_env e) (wakeup_args k) to = false) as Hl.
  { unfold limited. cbn [wakeup_args msg_type]. by rewrite andb_false_r. }
  rewrite Hl, deliver_writable by done.
  match goal with |- context [log_sent ?e ?s ?t ?c ?a ?p1] => destruct (log_sent_run e s t c a p1) as [l ->] end. simpl. eauto.
Qed.

(** All the recipients of an event. *)
Lemma sends_run e k content l s r s' : for_each l (send_wakeup e k content) s = (r, s') →
  grows (mail s) (mail s') ∧ s' = set_mail (mail s') s ∧ (r = Ok tt → Forall (has_it (mail s') k) l).
Proof.
  revert s. induction l as [|to l IH]; intros s; cbn [for_each].
  { intros [= <- <-]. split; [done|]. split; [by destruct s|]. constructor. }
  run_unfold. destruct (send_wakeup e k content to s) as [[[]|err] s1] eqn:E;
    apply send_wakeup_run in E as (Hg & Hs1 & Hok).
  - intros (Hg' & Hs' & Hall)%IH. split; [by etrans|]. split; [rewrite Hs', Hs1; by destruct s|].
    intros Hr. constructor; [|by apply Hall]. eapply grows_has; [exact Hg'|]. by apply Hok.
  - intros [= <- <-]. split_and!; [done..|by intros].
Qed.
Lemma sends_other e k content l s r s' d to' : for_each l (send_wakeup e k content) s = (r, s') →
  d ≠ wakeup_id k ∨ to' ∉ l → earlier_delivery (mail s') to' d = earlier_delivery (mail s) to' d.
Proof.
  revert s. induction l as [|to l IH]; intros s; cbn [for_each]; [by intros [= <- <-]|].
  run_unfold. destruct (send_wakeup e k content to s) as [[[]|err] s1] eqn:E.
  - intros Hrun Hne. rewrite (IH _ Hrun), (send_wakeup_other _ _ _ _ _ _ _ d to' E); [done|..].
    all: destruct Hne as [|[]%not_elem_of_cons]; auto.
  - intros [= <- <-] Hne. apply (send_wakeup_other _ _ _ _ _ _ _ d to' E).
    destruct Hne as [|[]%not_elem_of_cons]; auto.
Qed.
Lemma sends_ok e k content l s : writable (mail_env e) = true → valid_delivery_id (wakeup_id k) = true → NoDup l →
  Forall (λ to, sendable e k to (mail s)) l → fst (for_each l (send_wakeup e k content) s) = Ok tt.
Proof.
  intros Hw Hv Hl. revert s. induction Hl as [|to l Hto Hl IH]; intros s; cbn [for_each]; [done|].
  intros [Hs Hall]%Forall_cons. pose proof (send_wakeup_ok e k content to s Hw Hv Hs) as Hok.
  run_unfold. destruct (send_wakeup e k content to s) as [r s1] eqn:E. simpl in Hok. subst r.
  apply IH. rewrite Forall_forall in Hall |- *. intros to' Hto' f. 
  rewrite (send_wakeup_other _ _ _ _ _ _ _ _ to' E); [by apply Hall|right; by intros ->].
Qed.

(** *** One event *)

(** The input of a task and the text of an event, read off the tables. *)
Definition input_of (e : exec_env) (k : wakeup_row) (d : db) : dict :=
default [] (let '(owner, rid) := resolve d (self e) (wk_task_id k) in
            match select_key task_key (owner, rid) (tasks d) with Some r => row_input r | None => None end).
Definition text_for (e : exec_env) (k : wakeup_row) (d : db) : result string :=
let title := dget_default "title" (JStr (wk_task_id k)) (input_of e k d) in
if completion k
then task_complete_notify (wk_task_id k) title
       (take_chars _TASK_COMPLETE_NOTIFY_MAX_CHARS
          (from_option result_text "" (dget (wk_task_id k) (read_view (self e) true d))))
else task_fail_notify (wk_task_id k) title (wk_reason k).
Definition told (e : exec_env) (k : wakeup_row) (d : db) : list string := recipients e k (input_of e k d).

Lemma told_nodup e k d : NoDup (told e k d).
Proof. unfold told, recipients. rewrite merge_sort_Permutation. apply NoDup_remove_dups. Qed.

Lemma wakeup_text_run e k s : w_conn (tw s) = None →
  wakeup_text e k (input_of e k (w_db (tw s))) s = (text_for e k (w_db (tw s)), s).
Proof.
  intros Hc. unfold wakeup_text, text_for. destruct (completion k); [|done].
  unfold read. unfold mbind, M_bind. by rewrite in_tasks_query.
Qed.

(** The rows an acknowledgement marks. *)
Definition acknowledged (anima tok at_ : string) (d : db) : db :=
set_wakeups (update_where (λ k, bool_decide (wk_anima k = anima) && bool_decide (wk_token k = tok))
               (acknowledge at_) (task_wakeups d)) d.
Lemma acknowledge_run anima tok w : w_conn w = None → ∃ w', acknowledge_wakeup anima tok w = (Ok tt, w') ∧
  w_conn w' = None ∧ w_db w' = acknowledged anima tok (now_at (w_clock w)) (w_db w).
Proof.
  intros Hc. unfold acknowledge_wakeup. eexists.
  split; [unfold transaction; rewrite Hc; run_unfold; cbn; reflexivity|]. by split.
Qed.

Lemma deliver_wakeup_run e k s : w_conn (tw s) = None → ∃ s', deliver_wakeup e k s = (Ok tt, s') ∧
  w_conn (tw s') = None ∧ grows (mail s) (mail s') ∧ s' = set_tw (tw s') (set_mail (mail s') s) ∧
  (∀ d to, d ≠ wakeup_id k → earlier_delivery (mail s') to d = earlier_delivery (mail s) to d) ∧
  (w_db (tw s') = w_db (tw s) ∨
   (∃ at_, w_db (tw s') = acknowledged (self e) (wk_token k) at_ (w_db (tw s))) ∧
   Forall (has_it (mail s') k) (told e k (w_db (tw s)))) ∧
  (writable (mail_env e) = true → valid_delivery_id (wakeup_id k) = true → is_ok (text_for e k (w_db (tw s))) = true →
   Forall (λ to, sendable e k to (mail s)) (told e k (w_db (tw s))) →
   ∃ at_, w_db (tw s') = acknowledged (self e) (wk_token k) at_ (w_db (tw s))).
Proof.
  intros Hc. unfold deliver_wakeup. unfold get_input. unfold mbind at 1, M_bind at 1.
  rewrite in_tasks_query by done. cbv beta iota. fold (input_of e k (w_db (tw s))).
  unfold catch. unfold mbind at 1, M_bind at 1. rewrite wakeup_text_run by done.
  destruct (text_for e k (w_db (tw s))) as [content|err].
  2:{ exists s. split; [done|]. split_and!; [done|done|by destruct s|done|by left|done]. }
  fold (told e k (w_db (tw s))). unfold mbind at 1, M_bind at 1.
  destruct (for_each (told e k (w_db (tw s))) (send_wakeup e k content) s) as [r s1] eqn:E.
  destruct (sends_run _ _ _ _ _ _ _ E) as (Hg & Hs1 & Hall).
  assert (tw s1 = tw s) as Htw by (rewrite Hs1; by destruct s).
  assert (∀ d to, d ≠ wakeup_id k → earlier_delivery (mail s1) to d = earlier_delivery (mail s) to d) as Hother.
  { intros d to Hd. apply (sends_other _ _ _ _ _ _ _ d to E). by left. }
  destruct r as [[]|err].
  - destruct (acknowledge_run (self e) (wk_token k) (tw s1)) as (w' & Hack & Hc' & Hdb); [by rewrite Htw|].
    unfold in_tasks. rewrite Hack. exists (set_tw w' s1). split; [done|]. rewrite Htw in Hdb.
    split_and!; [done|done|rewrite Hs1; by destruct s|done| |eauto]. right. split; [eauto|by apply Hall].
  - exists s1. split; [done|]. split_and!; [by rewrite Htw|done|rewrite Hs1; by destruct s|done|left; by rewrite Htw|].
    intros Hw Hv _ Hs. pose proof (sends_ok e k content (told e k (w_db (tw s))) s Hw Hv (told_nodup e k _) Hs) as Hok.
    by rewrite E in Hok.
Qed.

(** *** A pass over the outbox *)

Definition due (e : exec_env) (d : db) : list wakeup_row :=
filter (λ k, wk_anima k = self e ∧ wk_acknowledged_at k = None) (task_wakeups d).
(** Only the outbox differs. *)
Definition outbox_only (d d' : db) : Prop := d' = set_wakeups (task_wakeups d') d.
Definition deliverable (e : exec_env) (d : db) (p : post) (k : wakeup_row) : Prop :=
valid_delivery_id (wakeup_id k) = true ∧ is_ok (text_for e k d) = true ∧
Forall (λ to, sendable e k to p) (told e k d).

Lemma outbox_views d d' e k : outbox_only d d' → told e k d' = told e k d ∧ text_for e k d' = text_for e k d.
Proof. intros ->. done. Qed.
Lemma acknowledged_only anima tok at_ d : outbox_only d (acknowledged anima tok at_ d).
Proof. done. Qed.
Lemma acknowledged_elem anima tok at_ d k : k ∈ task_wakeups d →
  k ∈ task_wakeups (acknowledged anima tok at_ d) ∨
  acknowledge at_ k ∈ task_wakeups (acknowledged anima tok at_ d) ∧ wk_anima k = anima ∧ wk_token k = tok.
Proof.
  intros Hk. cbn [acknowledged set_wakeups task_wakeups].
  destruct (bool_decide (wk_anima k = anima) && bool_decide (wk_token k = tok)) eqn:E.
  - right. split; [|apply andb_true_iff in E as [E1 E2]; breflect; done].
    apply elem_of_update_where. exists k. by rewrite E.
  - left. apply elem_of_update_where. exists k. by rewrite E.
Qed.
Lemma acknowledged_open anima tok at_ d k : k ∈ task_wakeups (acknowledged anima tok at_ d) →
  wk_acknowledged_at k = None → k ∈ task_wakeups d ∧ (wk_anima k = anima → wk_token k ≠ tok).
Proof.
  cbn [acknowledged set_wakeups task_wakeups]. intros (k0 & Hk & ->)%elem_of_update_where.
  destruct (_ && _) eqn:E; [done|]. intros _. split; [done|]. intros Ha Ht.
  by rewrite !bool_decide_eq_true_2 in E by done.
Qed.

Lemma deliver_all e l : NoDup (wk_token <$> l) → ∀ s, w_conn (tw s) = None →
  ∃ s', for_each l (deliver_wakeup e) s = (Ok tt, s') ∧
  outbox_only (w_db (tw s)) (w_db (tw s')) ∧ grows (mail s) (mail s') ∧
  (∀ k, k ∈ task_wakeups (w_db (tw s)) → k ∈ task_wakeups (w_db (tw s')) ∨
     (∃ at_, acknowledge at_ k ∈ task_wakeups (w_db (tw s'))) ∧ wk_anima k = self e ∧
     ∃ k0, k0 ∈ l ∧ wk_token k0 = wk_token k ∧ Forall (has_it (mail s') k0) (told e k0 (w_db (tw s)))) ∧
  (∀ k, k ∈ task_wakeups (w_db (tw s')) → wk_acknowledged_at k = None →
     k ∈ task_wakeups (w_db (tw s)) ∧
     (writable (mail_env e) = true → Forall (deliverable e (w_db (tw s)) (mail s)) l → wk_anima k = self e →
      wk_token k ∉ wk_token <$> l)).
Proof.
  induction l as [|k l IH]; intros Hl s Hc; cbn [for_each].
  { exists s. split; [done|]. split; [by destruct (w_db (tw s))|]. split; [done|]. split; [auto|].
    intros k Hk Ho. split; [done|]. intros _ _ _. apply not_elem_of_nil. }
  apply NoDup_cons in Hl as [Hkl Hl].
  destruct (deliver_wakeup_run e k s Hc) as (s1 & Hrun & Hc1 & Hg & _ & Hother & Hdb & Hlive).
  unfold mbind, M_bind. rewrite Hrun.
  destruct (IH Hl s1 Hc1) as (s' & Hrun' & Ho & Hg' & Hkept & Hopen). exists s'. split; [done|].
  assert (outbox_only (w_db (tw s)) (w_db (tw s1))) as Ho1.
  { destruct Hdb as [->|[[at_ ->] _]]; [by destruct (w_db (tw s))|apply acknowledged_only]. }
  split; [unfold outbox_only in *; rewrite Ho at 1; by rewrite Ho1 at 1|]. split; [by etrans|]. split.
  - intros j Hj. assert (j ∈ task_wakeups (w_db (tw s1)) ∨
      (∃ at_, acknowledge at_ j ∈ task_wakeups (w_db (tw s1))) ∧ wk_anima j = self e ∧ wk_token k = wk_token j ∧
      Forall (has_it (mail s1) k) (told e k (w_db (tw s)))) as [Hj1|([at_ Hj1] & Ha & Ht & Hall)].
    { destruct Hdb as [->|[[at_ ->] Hall]]; [by left|].
      destruct (acknowledged_elem (self e) (wk_token k) at_ _ j Hj) as [|(Hj1 & Ha & Ht)]; [by left|right].
      split_and!; eauto. }
    + destruct (Hkept j Hj1) as [|(Hj2 & Ha & k0 & Hk0 & Ht & Hall)]; [by left|right]. split_and!; [done..|].
      exists k0. split; [by right|]. split; [done|]. by rewrite (proj1 (outbox_views _ _ e k0 Ho1)) in Hall.
    + right. split_and!; [|done|].
      * destruct (Hkept _ Hj1) as [|([at2 Hj2] & _)]; [eauto|]. exists at2. by destruct j.
      * exists k. split; [left|]. split; [done|]. eapply Forall_impl; [exact Hall|]. intros to. by apply grows_has.
  - intros j Hj Hopenj. destruct (Hopen j Hj Hopenj) as [Hj1 Hlive']. split.
    { destruct Hdb as [<-|[[at_ E] _]]; [done|]. rewrite E in Hj1. by apply acknowledged_open in Hj1 as [? _]. }
    intros Hw [(Hv & Ht & Hs) Hdel]%Forall_cons Ha. cbn [fmap list_fmap]. apply not_elem_of_cons. split.
    + destruct (Hlive Hw Hv Ht Hs) as [at_ E]. rewrite E in Hj1. apply acknowledged_open in Hj1 as [_ Hne]; auto.
    + apply Hlive'; [done| |done]. rewrite Forall_forall in Hdel |- *. intros k0 Hk0.
      destruct (Hdel k0 Hk0) as (Hv0 & Ht0 & Hs0). destruct (outbox_views _ _ e k0 Ho1) as [Etold Etext].
      unfold deliverable. rewrite Etext, Etold. split_and!; [done..|]. eapply Forall_impl; [exact Hs0|].
      intros to Hsend f. rewrite Hother; [apply Hsend|]. intros Heq%wakeup_id_inj. apply Hkl.
      rewrite <- Heq. by apply list_elem_of_fmap_2.
Qed.

Lemma wakeups_due e w : w_conn w = None → ∃ l, wakeups (self e) w = (Ok l, w) ∧ l ≡ₚ due e (w_db w).
Proof.
  intros Hc. exists (merge_sort wakeup_le (due e (w_db w))). split; [|apply merge_sort_Permutation]. unfold wakeups, reader. rewrite Hc.
  unfold query, gets. cbn. f_equal. by destruct w; simpl in *; subst.
Qed.

End wakeups.
