(* ===== verification/ExecutorRuns.v ===== *)
(** * How a run ends

    The bookkeeping of the executor around a run of the model only ever writes
    metadata of a task and walks its status back to pending or in progress;
    what the anima declared stands.  A run that ends, whichever way, ends its
    attempt with the outcome on record. *)

From Stdlib Require Import QArith.
From stdpp Require Import prelude strings list gmap sorting.
From S2P Require Import Prelude PyValue PyText JsonText Sql TaskModels TaskStore TaskStoreInv TaskStoreProps TaskQueue TaskQueueProps.
From S2P Require Import Activity Cascade Mailbox MailboxProps Channels Messenger MessengerProps Executor ExecutorProps.
Open Scope nat_scope.

(* ------------------------------------------------------------------ *)
(** ** Updates of the store *)

(** Rows, attempts and inputs stay; a status stays or becomes [st]. *)
Record restated (st : option string) (d d' : db) : Prop := {
  re_aliases : task_aliases d' = task_aliases d;
  re_attempts : task_attempts d' = task_attempts d;
  re_rows k r : select_key task_key k (tasks d) = Some r → ∃ r', select_key task_key k (tasks d') = Some r' ∧
    row_current r' = row_current r ∧ row_input r' = row_input r ∧
    (status (row_entry r') = status (row_entry r) ∨ Some (status (row_entry r')) = st)
}.
#[global] Instance restated_preorder st : PreOrder (restated st).
Proof.
  split; [intros d; split; eauto 10|]. intros d1 d2 d3 [Ha Hb Hc] [Hd He Hf]. split; [congruence|congruence|].
  intros k r (r2 & E2 & Hc2 & Hi2 & Hs2)%Hc. destruct (Hf k r2 E2) as (r3 & E3 & Hc3 & Hi3 & Hs3).
  exists r3. split_and!; [done|congruence|congruence|]. destruct Hs3 as [->|]; [|by right]. done.
Qed.
Lemma restated_mono st d d' : restated None d d' → restated st d d'.
Proof.
  intros [Ha Hb Hc]. split; [done|done|]. intros k r (r' & E & Hcur & Hi & [Hs|Hs])%Hc; [|done]. exists r'. auto.
Qed.

(** The state between two operations. *)
Definition idle (w : world) : Prop := w_conn w = None.
(** What the bookkeeping does to the store. *)
Definition books (st : option string) (w w' : world) : Prop :=
  (idle w → idle w') ∧ (inv (w_db w) → inv (w_db w')) ∧ restated st (w_db w) (w_db w').
#[global] Instance books_preorder st : PreOrder (books st).
Proof.
  split; [intros w; split_and!; [auto..|reflexivity]|].
  intros w1 w2 w3 (Ha & Hb & Hc) (Hd & He & Hf). split_and!; [auto..|by etrans].
Qed.
Lemma books_mono st w w' : books None w w' → books st w w'.
Proof. intros (Ha & Hb & Hc). split_and!; [done..|by apply restated_mono]. Qed.
Lemma books_db st w w' : w_db w' = w_db w → (idle w → idle w') → books st w w'.
Proof. intros E Hi. split_and!; [done|by rewrite E|rewrite E; reflexivity]. Qed.

Section store.
Context `{Oracle}.

Lemma apply_restated anima id st sm up mp : within (on_db (restated st)) (apply anima (EvUpdate id st sm up mp)).
Proof.
  apply within_transaction. intros w. body_cases; try reflexivity.
  all: unfold on_db; split; [done..|]; intros k r Hr; cbn [w_db set_db tasks set_tasks];
    rewrite select_update_key by done; match goal with |- context [decide (k = ?x)] => destruct (decide (k = x)) as [->|] end; [|by exists r; auto].
  all: rewrite Hr; eexists; split; [reflexivity|]; cbn [row_entry set_row_ready set_row_archived set_row_entry row_current row_input].
  all: rewrite merge_update_status; subst; simplify_eq; (split_and!; [done..|]); destruct st; auto.
Qed.
Lemma transaction_idle {A} (body : M world A) : within (keeps idle) (transaction body).
Proof. intros w Hw. by destruct (transaction_top body w Hw) as (_ & _ & ? & _). Qed.
Lemma reader_idle {A} (body : M world A) : within (keeps idle) (reader body).
Proof. intros w Hw. unfold reader. rewrite Hw. by destruct (body _). Qed.

Lemma apply_idle anima ev : within (keeps idle) (apply anima ev).
Proof. unfold apply. apply transaction_idle. Qed.
Lemma append_idle anima ev : within (keeps idle) (append anima ev).
Proof. unfold append, locked_queue. apply transaction_idle. Qed.
Lemma set_identity_idle tok i : within (keeps idle) (set_identity tok i).
Proof. unfold set_identity. apply transaction_idle. Qed.
Lemma apply_inv anima ev : within (on_db keeps_inv) (apply anima ev).
Proof. apply apply_keeps. Qed.
Lemma set_identity_inv tok i : within (on_db keeps_inv) (set_identity tok i).
Proof. apply set_identity_keeps. Qed.
Lemma apply_books anima id st sm up mp : within (books st) (apply anima (EvUpdate id st sm up mp)).
Proof.
  intros w. split_and!; [exact (apply_idle _ _ w)|exact (apply_inv _ _ w)|exact (apply_restated _ _ _ _ _ _ w)].
Qed.
Lemma append_books anima id st sm up mp : within (books st) (append anima (EvUpdate id st sm up mp)).
Proof.
  intros w. split_and!; [exact (append_idle _ _ w)| |].
  - refine (within_transaction (R := keeps_inv) _ _ w). apply apply_inv.
  - refine (within_transaction (R := restated st) _ _ w). apply apply_restated.
Qed.
Lemma reader_books {A} st (f : db → A) : within (books st) (reader (query f)).
Proof. intros w. apply books_db; [apply reader_query_db|exact (reader_idle _ w)]. Qed.
Lemma now_books st : within (books st) now_iso.
Proof. intros w. by apply books_db. Qed.
Lemma identity_books st : within (books st) current_attempt_identity.
Proof. intros w. by apply books_db. Qed.
Lemma after_commit_books st cb : within (books st) (after_commit cb).
Proof.
  intros w. unfold after_commit. run_unfold. destruct (w_conn w) eqn:E; [by apply books_db|].
  pose proof (hook_frame cb w) as Hf. unfold fixes in Hf. injection Hf as Hd Hc _. apply books_db; [done|].
  unfold idle. by rewrite Hc.
Qed.
#[local] Hint Resolve append_books reader_books now_books identity_books after_commit_books : within.

Lemma update_meta_books anima tid mp sm : within (books None) (update_meta anima tid mp sm).
Proof. unfold update_meta, load_all, read, get_task_by_id, get_task. within_tac. Qed.
Lemma update_status_books anima tid st sm : within (books (Some st)) (update_status anima tid st sm).
Proof. unfold update_status, load_all, read, get_task_by_id, get_task. within_tac. Qed.
Lemma set_identity_books tok i : within (λ w w', (idle w → idle w') ∧ (inv (w_db w) → inv (w_db w')) ∧
  task_aliases (w_db w') = task_aliases (w_db w) ∧ tasks (w_db w') = tasks (w_db w)) (set_identity tok i).
Proof.
  intros w. split_and!; [exact (set_identity_idle _ _ w)|exact (set_identity_inv _ _ w)|..].
  - refine (within_transaction (R := λ d d', task_aliases d' = task_aliases d) _ _ w). intros w0. by body_cases.
  - refine (within_transaction (R := λ d d', tasks d' = tasks d) _ _ w). intros w0. by body_cases.
Qed.
Lemma set_identity_ok tok i w : idle w → ∃ b w', set_identity tok i w = (Ok b, w').
Proof.
  intros Hi. unfold set_identity, transaction. rewrite Hi. body_unfold.
  destruct (select_key _ _ _) as [a|]; [destruct (attempt_live a)|]; cbn; eauto.
Qed.
End store.

(* ------------------------------------------------------------------ *)
(** ** The ledger of a running task *)

(** [anima]'s task [tid] runs under [token] and is on record with status [c]. *)
Record ledger (anima tid token c : string) (w : world) : Prop := {
  l_idle : idle w;
  l_inv : inv (w_db w);
  l_row : ∃ r, owns anima tid r (w_db w) ∧ row_current r = Some token ∧ status (row_entry r) = c
}.
(** The status such a run is settled with. *)
Definition settled (c : string) : string := if str_in c ["done"; "cancelled"] then c else "pending".

Lemma ledger_books anima tid token c st w w' : ledger anima tid token c w → books st w w' →
  ∃ c', ledger anima tid token c' w' ∧ (c' = c ∨ Some c' = st).
Proof.
  intros [Hi Hinv (r & [Ha Hr] & Hcur & Hst)] (Hidle & Hkeep & [Hal _ Hrows]).
  destruct (Hrows _ _ Hr) as (r' & Hr' & Hcur' & _ & Hs). exists (status (row_entry r')). split.
  - split; [auto..|]. exists r'. split_and!; [split; [by rewrite Hal|done]|congruence|done].
  - destruct Hs as [->|]; auto.
Qed.
Lemma ledger_kept anima tid token c w w' : ledger anima tid token c w → books None w w' → ledger anima tid token c w'.
Proof. intros Hl Hb. destruct (ledger_books _ _ _ _ _ _ _ Hl Hb) as (c' & Hl' & [->|]); done. Qed.
Lemma ledger_ctx anima tid token c i w : ledger anima tid token c (set_ctx_identity i w) ↔ ledger anima tid token c w.
Proof. split; intros [? ? ?]; split; done. Qed.

Lemma ledger_get `{Oracle} anima tid token c w : ledger anima tid token c w →
  ∃ en, get_task_by_id anima tid w = (Ok (Some en), w) ∧ status en = c.
Proof. intros [_ _ (r & Ho & _ & Hst)]. exists (row_entry r). split; [by apply get_own|done]. Qed.
Lemma ledger_read `{Oracle} anima tid token c w : ledger anima tid token c w →
  ∃ view en, read anima true w = (Ok view, w) ∧ dget tid view = Some en ∧ status en = c.
Proof.
  intros [_ Hinv (r & Ho & _ & Hst)]. destruct (load_own anima tid r w true Hinv Ho eq_refl) as (view & Hv & Hd).
  exists view, (row_entry r). done.
Qed.

Section runs.
Context `{Oracle, Calendar, FloatText, Codec, Listing file, Processes, Wording} (e : exec_env).

Abbreviation quiet := (on_tw (books None)).

#[local] Hint Resolve within_in_tasks in_mail_tasks update_meta_books reader_books now_books identity_books within_catch : within.

Lemma get_task_books anima tid : within (books None) (get_task_by_id anima tid).
Proof. unfold get_task_by_id, get_task. apply reader_books. Qed.
#[local] Hint Resolve get_task_books : within.

Lemma log_event_quiet v : within quiet (log_event v).
Proof. intros s. apply (reflexivity (R := books None)). Qed.
Lemma save_result_quiet tid x : within quiet (_save_task_result tid x).
Proof.
  unfold _save_task_result. apply within_bind; [apply within_in_tasks, identity_books|]. intros i s.
  apply (reflexivity (R := books None)).
Qed.
Lemma record_run_ended_quiet tid kind note : within quiet (_record_run_ended e tid kind note).
Proof.
  unfold _record_run_ended. destruct (negb _); [apply within_ret|]. apply within_catch; [|intros; apply within_ret].
  apply within_bind; [apply within_in_tasks, now_books|]. intros now.
  apply within_ret_bind, within_in_tasks, update_meta_books.
Qed.
Lemma queue_entry_quiet tid : within quiet (_get_task_queue_entry e tid).
Proof.
  unfold _get_task_queue_entry. destruct (negb _); [apply within_ret|]. apply within_catch; [|intros; apply within_ret].
  apply within_in_tasks, get_task_books.
Qed.
Lemma notify_quiet to x : within quiet (notify_twice e to x).
Proof.
  unfold notify_twice. apply within_catch; [|intros _; apply within_catch; [|intros; apply within_ret]].
  all: apply within_ret_bind, in_mail_tasks, _.
Qed.
Lemma completion_quiet desc tid title x : within quiet (notify_completion e desc tid title x).
Proof. unfold notify_completion. repeat case_match; try apply within_ret. apply notify_quiet. Qed.
Lemma siblings_quiet tid : within quiet (_format_active_sibling_tasks e tid).
Proof.
  unfold _format_active_sibling_tasks. apply within_catch; [|intros; apply within_ret].
  apply within_map, within_in_tasks. unfold list_tasks, load_all, read. apply within_map, reader_books.
Qed.

Context (tid token : string) (Htid : tid ≠ "").
Abbreviation at_status c s := (ledger (self e) tid token c (tw s)).

Lemma run_within {S A} (R : S → S → Prop) (m : M S A) s r s' : within R m → m s = (r, s') → R s s'.
Proof. intros Hm E. specialize (Hm s). by rewrite E in Hm. Qed.
Lemma at_quiet {A} (m : M executor A) c s r s' : within quiet m → m s = (r, s') → at_status c s → at_status c s'.
Proof. intros Hm E Hl. eapply ledger_kept; [exact Hl|]. exact (run_within _ _ _ _ _ Hm E). Qed.

Lemma get_at c s : at_status c s → ∃ en, in_tasks (get_task_by_id (self e) tid) s = (Ok (Some en), s) ∧ status en = c.
Proof.
  intros Hl. destruct (ledger_get _ _ _ _ _ Hl) as (en & Hg & Hst). exists en. split; [|done].
  unfold in_tasks. rewrite Hg. by destruct s.
Qed.
Lemma entry_at c s : at_status c s → ∃ en, _get_task_queue_entry e tid s = (Ok (Some en), s) ∧ status en = c.
Proof.
  intros Hl. destruct (get_at c s Hl) as (en & Hg & Hst). exists en. split; [|done].
  unfold _get_task_queue_entry, str_truthy. rewrite bool_decide_eq_false_2 by done. cbn [negb].
  unfold catch. by rewrite Hg.
Qed.

(** A status the anima declared, and one it gave away, stays; any other
  follows. *)
Lemma sync_at st sm c s r s' : at_status c s → _sync_task_queue e tid st sm s = (r, s') →
  r = Ok tt ∧ ∃ c', at_status c' s' ∧ (c' = c ∨ c' = st ∧ c ∉ _QUEUE_STICKY_STATUSES).
Proof.
  intros Hl Hrun. assert (r = Ok tt) as ->.
  { apply (f_equal fst) in Hrun. unfold _sync_task_queue in Hrun. by rewrite catch_total in Hrun. }
  split; [done|]. destruct (get_at c s Hl) as (en & Hg & <-). unfold _sync_task_queue, catch in Hrun.
  unfold mbind at 1, M_bind at 1 in Hrun. rewrite Hg in Hrun. cbn [fmap option_fmap option_map] in Hrun.
  destruct (bool_decide (Some (status en) = Some "cancelled")); [injection Hrun as <-; eauto|].
  destruct (negb (bool_decide (status en = st)) && str_in (status en) _QUEUE_STICKY_STATUSES) eqn:Hk; [injection Hrun as <-; eauto|].
  match type of Hrun with context [(if bool_decide (st = "pending") then ?a else ?b) s] =>
    assert (within (on_tw (books (Some st))) (if bool_decide (st = "pending") then a else b)) as Hw;
    [|destruct ((if bool_decide (st = "pending") then a else b) s) as [r1 s1] eqn:E] end.
  { case_bool_decide as Hst'.
    - apply within_bind; [|intros _; apply within_ret_bind, within_in_tasks, update_status_books].
      destruct (str_truthy _); [|apply within_ret]. apply within_ret_bind, within_in_tasks.
      eapply within_mono; [|apply update_meta_books]. intros; by apply books_mono.
    - apply within_ret_bind, within_in_tasks, update_status_books. }
  assert (s' = s1) as -> by (destruct r1; by injection Hrun).
  destruct (ledger_books _ _ _ _ _ _ _ Hl (run_within _ _ _ _ _ Hw E)) as (c' & Hl' & [->|[= ->]]); [eauto|].
  exists st. split; [done|]. apply andb_false_iff in Hk as [Hk|Hk].
  - left. apply negb_false_iff, bool_decide_eq_true in Hk. done.
  - right. split; [done|]. by apply bool_decide_eq_false in Hk.
Qed.

(** A guard that does not raise is passed. *)
Ltac pass_guard :=
  unfold mbind at 1, M_bind at 1, guard_raise at 1;
  match goal with |- context [(if ?b then raise _ else ?ok) ?s] =>
    destruct b; [by cbv [raise]; intros [= <- <-]|];
    change (ok s) with (@Ok unit tt, s); cbv beta iota
  end.

(** Results that put a task back to pending, or that change nothing because
  the status is sticky. *)
Definition harmless (c x : string) : Prop := fst (_classify_task_result x) = "pending" ∨ c ∈ _QUEUE_STICKY_STATUSES.
Definition harmless_result (c : string) (r : result string) : Prop := ∀ x, r = Ok x → harmless c x.

Lemma after_stream_at desc title st c s r s' : at_status c s → after_stream e desc tid title st s = (r, s') →
  at_status c s' ∧ harmless_result c r.
Proof.
  intros Hl. unfold after_stream. unfold mbind at 1, M_bind at 1.
  match goal with |- context [(if ?b then _ else mret None) s] =>
    assert (∃ v, (if b then catch (in_tasks (get_task_by_id (self e) tid)) (λ _, mret None) else mret None) s = (Ok v, s))
      as [v ->] end.
  { destruct (get_at c s Hl) as (en & Hg & _). destruct (_ || _); [|by exists None]. exists (Some en). unfold catch. by rewrite Hg. }
  cbv zeta beta iota. pass_guard. pass_guard.
  destruct (bool_decide (stop_kind st = "budget_skipped")).
  { unfold mbind, M_bind. destruct (_record_run_ended e tid (stop_kind st) None s) as [r1 s1] eqn:E.
    pose proof (at_quiet _ _ _ _ _ (record_run_ended_quiet tid (stop_kind st) None) E Hl) as Hl1.
    destruct r1; intros [= <- <-]; (split; [done|]); intros x [= <-]. by left. }
  pass_guard. destruct (entry_at c s Hl) as (en & Hen & <-). unfold mbind at 1, M_bind at 1. rewrite Hen.
  unfold mbind at 1, M_bind at 1. destruct (_record_run_ended e tid (stop_kind st) None s) as [r1 s1] eqn:E.
  pose proof (at_quiet _ _ _ _ _ (record_run_ended_quiet tid (stop_kind st) None) E Hl) as Hl1.
  destruct r1 as [[]|]; [|by intros [= <- <-]]. case_bool_decide as Hcanc.
  { intros [= <- <-]. split; [done|]. intros x _. right. rewrite Hcanc. set_solver. }
  destruct (str_in (status en) ["done"; "delegated"]) eqn:Hdd; cbn [negb].
  - unfold mbind, M_bind. match goal with |- context [notify_completion e desc tid title ?x s1] =>
      destruct (notify_completion e desc tid title x s1) as [r2 s2] eqn:E2;
      pose proof (at_quiet _ _ _ _ _ (completion_quiet desc tid title x) E2 Hl1) as Hl2 end.
    apply bool_decide_eq_true in Hdd.
    destruct r2; intros [= <- <-]; (split; [done|]); intros x [= <-]; right; set_solver.
  - unfold mbind, M_bind. match goal with |- context [_save_task_result tid ?x s1] =>
      destruct (_save_task_result tid x s1) as [r2 s2] eqn:E2;
      pose proof (at_quiet _ _ _ _ _ (save_result_quiet tid x) E2 Hl1) as Hl2 end.
    destruct r2; intros [= <- <-]; (split; [done|]); intros x [= <-]; by left.
Qed.

Lemma settled_sync c c' st : c' = c ∨ c' = st ∧ c ∉ _QUEUE_STICKY_STATUSES → st = "pending" ∨ c ∈ _QUEUE_STICKY_STATUSES →
  settled c' = settled c.
Proof.
  intros [->|[-> Hc]] [->|Hst]; try done. unfold settled, str_in. rewrite (bool_decide_eq_false_2 (c ∈ _)); [done|].
  intros Hin. apply Hc. set_solver.
Qed.

Lemma return_to_pending_at desc reason kind c s r s' : fst (fst (_task_activity_identity desc)) = tid →
  at_status c s → _return_task_to_pending e desc reason kind s = (r, s') → ∃ c', at_status c' s' ∧ settled c' = settled c.
Proof.
  intros Hid Hl. unfold _return_task_to_pending. destruct (_task_activity_identity desc) as [[tid' title] d].
  simpl in Hid. subst tid'. destruct (entry_at c s Hl) as (en & Hen & <-). unfold mbind at 1, M_bind at 1. rewrite Hen.
  destruct (bool_decide _); [intros [= _ <-]; eauto|].
  unfold mbind at 1, M_bind at 1. destruct (_save_task_result tid reason s) as [r1 s1] eqn:E1.
  pose proof (at_quiet _ _ _ _ _ (save_result_quiet tid reason) E1 Hl) as Hl1.
  destruct r1; [|intros [= _ <-]; eauto].
  unfold mbind at 1, M_bind at 1. destruct (_record_run_ended e tid kind (Some reason) s1) as [r2 s2] eqn:E2.
  pose proof (at_quiet _ _ _ _ _ (record_run_ended_quiet tid kind (Some reason)) E2 Hl1) as Hl2.
  destruct r2; [|intros [= _ <-]; eauto].
  unfold mbind at 1, M_bind at 1. destruct (_sync_task_queue e tid "pending" None s2) as [r3 s3] eqn:E3.
  destruct (sync_at _ _ _ _ _ _ Hl2 E3) as (-> & c' & Hl3 & Hc'). 
  match goal with |- ?m s3 = _ → _ => assert (within quiet m) as Hq end.
  { repeat case_match; try apply within_ret. apply notify_quiet. }
  intros E4. exists c'. split; [exact (at_quiet _ _ _ _ _ Hq E4 Hl3)|]. eapply settled_sync; [exact Hc'|by left].
Qed.

(** What a worker leaves behind: the task on record with status [c], still
  under this attempt; and an isolated child reports a completion only of a
  task that was declared done or given away. *)
Definition leaves (wk : worker) (c : string) : Prop :=
match wk with
| Inline f => ∀ p s, (∃ c0, at_status c0 s) → at_status c (snd (f p s))
| Isolated ch => ∀ s, (∃ c0, at_status c0 s) →
    at_status c (snd (run_child ch s)) ∧ ∀ j, fst (run_child ch s) = ChildResult j → harmless c (child_text j)
end.
(** A descriptor that can be run. *)
Record runnable (desc : dict) : Prop := {
  run_id : dget "task_id" desc = Some (JStr tid);
  run_deps : is_ok (depends_on desc) = true;
  run_criteria : is_ok (bullets (dget_default "acceptance_criteria" (JList []) desc)) = true;
  run_constraints : is_ok (bullets (dget_default "constraints" (JList []) desc)) = true;
  run_paths : is_ok (bullets (dget_default "file_paths" (JList []) desc)) = true
}.
(** The attempt as it was claimed, and not too old. *)
Definition fresh (desc : dict) (s : executor) : Prop :=
idle (tw s) ∧ inv (w_db (tw s)) ∧ ∃ r, owns (self e) tid r (w_db (tw s)) ∧ row_current r = Some token ∧
  status (row_entry r) = "in_progress" ∧
  expired_task e (dget_default "submitted_at" (JStr "") desc) (updated_at (row_entry r)) = false.

Lemma activity_id desc : dget "task_id" desc = Some (JStr tid) → fst (fst (_task_activity_identity desc)) = tid.
Proof.
  intros Hd. unfold _task_activity_identity, dget_none, dget_default. rewrite Hd. cbn [fst from_option].
  unfold json_or, Datatypes.id. cbn [truthy]. unfold str_truthy. by rewrite bool_decide_eq_false_2.
Qed.
Lemma fresh_at desc s : fresh desc s → at_status "in_progress" s.
Proof. intros (Hi & Hv & r & Ho & Hc & Hs & _). split; [done..|]. eauto. Qed.
Lemma catch_ok {S A} (m : M S A) (a : A) s : ∃ b, val_of (catch m (λ _, mret a) s) = Ok b.
Proof. unfold catch. destruct (m s) as [[b|] ?]; by eexists. Qed.

Lemma run_session_at f desc completed c s r s' : runnable desc → fresh desc s → leaves (Inline f) c →
  _run_llm_task_under_agent_session_context e f desc completed s = (r, s') →
  at_status c s' ∧ ∀ x, r = Ok (Some x) → harmless c x.
Proof.
  intros [Hid Hdeps Hcrit Hcons Hpaths] Hfresh Hleaves. pose proof (activity_id desc Hid) as Htid'.
  unfold _run_llm_task_under_agent_session_context. destruct (_task_activity_identity desc) as [[tid' title] descr].
  simpl in Htid'. subst tid'. pose proof (fresh_at desc s Hfresh) as Hl.
  destruct Hfresh as (Hi & Hv & row & Ho & Hc & Hs & Hexp).
  assert (in_tasks (get_task_by_id (self e) tid) s = (Ok (Some (row_entry row)), s)) as Hg.
  { unfold in_tasks. rewrite (get_own _ _ _ _ Ho). by destruct s. }
  unfold mbind at 1, M_bind at 1, catch. rewrite Hg. cbn [fmap option_fmap option_map from_option]. rewrite Hs, Hexp.
  rewrite bool_decide_eq_false_2 by done.
  unfold mbind at 1, M_bind at 1. destruct (_sync_task_queue e tid "in_progress" None s) as [r1 s1] eqn:E1.
  destruct (sync_at _ _ _ _ _ _ Hl E1) as (-> & c1 & Hl1 & _).
  assert (∃ t, (match completed with [] => Ok "" | _ => _build_dependency_context desc completed end) = Ok t) as [ctx Hctx].
  { destruct completed; [eauto|]. unfold _build_dependency_context. destruct (depends_on desc); [by eexists|done]. }
  unfold mbind at 1, M_bind at 1, lift at 1. rewrite Hctx.
  destruct (bullets _) as [t1|]; [|done]. destruct (bullets _) as [t2|]; [|done]. destruct (bullets _) as [t3|]; [|done].
  unfold mbind at 1, M_bind at 1, lift at 1. unfold mbind at 1, M_bind at 1, lift at 1. unfold mbind at 1, M_bind at 1, lift at 1.
  unfold mbind at 1, M_bind at 1. destruct (_format_active_sibling_tasks e tid s1) as [r2 s2] eqn:E2.
  pose proof (at_quiet _ _ _ _ _ (siblings_quiet tid) E2 Hl1) as Hl2.
  assert (∃ sib, r2 = Ok sib) as [sib ->].
  { match type of E2 with ?m = _ => assert (val_of m = r2) as <- by (by rewrite E2) end. apply catch_ok. }
  unfold mbind at 1, M_bind at 1. match goal with |- context [f ?p s2] =>
    pose proof (Hleaves p s2 (ex_intro _ _ Hl2)) as Hl3; destruct (f p s2) as [ended s3] end.
  simpl in Hl3. destruct ended as [chunks|err|]; [|by intros [= <- <-]..].
  unfold mbind at 1, M_bind at 1, lift. destruct (stream stream_start chunks) as [st|err]; [|by intros [= <- <-]].
  unfold mbind, M_bind. destruct (after_stream e desc tid title st s3) as [r4 s4] eqn:E4.
  destruct (after_stream_at _ _ _ _ _ _ _ Hl3 E4) as [Hl4 Hh].
  destruct r4 as [x|err]; intros [= <- <-]; (split; [done|]); [intros y [= <-]; by apply Hh|by intros].
Qed.

Lemma run_llm_at f desc completed c s r s' : runnable desc → fresh desc s → leaves (Inline f) c →
  _run_llm_task e f desc completed s = (r, s') → at_status c s' ∧ ∀ x, r = Ok (Some x) → harmless c x.
Proof.
  intros Hr Hf Hle. unfold _run_llm_task. destruct (_task_activity_identity desc) as [[tid' title] descr].
  unfold mbind at 1, M_bind at 1, log_event at 1, modify at 1. unfold mbind at 1, M_bind at 1, catch.
  match goal with |- context [_run_llm_task_under_agent_session_context e f desc completed ?s0] =>
    destruct (_run_llm_task_under_agent_session_context e f desc completed s0) as [r1 s1] eqn:E end.
  eapply run_session_at in E as [Hl Hh]; [|exact Hr|exact Hf|exact Hle].
  destruct r1 as [x|err]; intros [= <- <-]; (split; [by destruct Hl|]); [intros y [= ->]; by apply Hh|by intros].
Qed.

Lemma run_isolated_at ch desc c s r s' : at_status "in_progress" s → leaves (Isolated ch) c →
  _run_llm_task_isolated ch desc s = (r, s') → at_status c s' ∧ ∀ x, r = Ok (Some x) → harmless c x.
Proof.
  intros Hl Hle. unfold _run_llm_task_isolated. unfold mbind at 1, M_bind at 1.
  match goal with |- context [(match spawned ch with Some j => @?b j | None => ?n end) s] =>
    assert (∃ s1, (match spawned ch with Some j => b j | None => n end) s = (Ok tt, s1) ∧ ∃ c0, at_status c0 s1)
      as (s1 & -> & Hs1) end.
  { destruct (spawned ch) as [job|]; [|by eauto]. destruct (truthy _); [|by eauto].
    unfold mbind, M_bind, in_tasks.
    destruct (set_identity_ok (str_json (dget_none "_attempt_token" desc)) job (tw s) (l_idle _ _ _ _ _ Hl)) as (b & w1 & E).
    rewrite E.
    destruct (set_identity_books (str_json (dget_none "_attempt_token" desc)) job (tw s)) as (Hi & Hv & Hal & Ht).
    rewrite E in Hi, Hv, Hal, Ht. simpl in *. destruct Hl as [Hidle Hinv (row & [Hno Hrow] & Hcur & Hst)].
    assert (at_status "in_progress" (set_tw w1 s)) as Hl1.
    { split; [by apply Hi|by apply Hv|]. exists row. unfold owns. cbn [tw set_tw]. by rewrite Hal, Ht. }
    eauto. }
  destruct (Hle s1 Hs1) as [Hl2 Hh]. unfold mbind, M_bind. destruct (run_child ch s1) as [ended s2]. simpl in *.
  destruct ended as [j|cause|err|]; intros [= <- <-]; (split; [done|]); [intros x [= <-]; by apply Hh|by intros..].
Qed.

(** The whole of a run keeps what was left on record, up to what it is settled
  with. *)
Lemma execute_llm_at wk desc completed c s r s' : runnable desc → fresh desc s → leaves wk c →
  _execute_llm_task e wk desc completed s = (r, s') → ∃ c', at_status c' s' ∧ settled c' = settled c.
Proof.
  intros Hr Hf Hle. pose proof (activity_id desc (run_id desc Hr)) as Hid. unfold _execute_llm_task.
  assert (str_json (dget_default "task_id" (JStr "unknown") desc) = tid) as ->.
  { unfold dget_default. by rewrite (run_id desc Hr). }
  unfold catch. unfold mbind at 1, M_bind at 1.
  destruct (_run_task_in_worker e wk desc completed s) as [r1 s1] eqn:E1.
  assert (at_status c s1 ∧ ∀ x, r1 = Ok (Some x) → harmless c x) as [Hl1 Hh].
  { destruct wk as [f|ch]; [by eapply run_llm_at|]. eapply run_isolated_at; [by eapply fresh_at|done..]. }
  assert (∀ c2 s2 err, at_status c2 s2 → settled c2 = settled c →
    (if shutting_down e then raise err
     else _ ← _return_task_to_pending e desc (exception_text err) "crash"; mret (Some ())) s2 = (r, s') →
    ∃ c', at_status c' s' ∧ settled c' = settled c) as Hhandler.
  { intros c2 s2 err Hl2 Hset. destruct (shutting_down e); [intros [= _ <-]; eauto|].
    unfold mbind, M_bind. destruct (_return_task_to_pending e desc (exception_text err) "crash" s2) as [r3 s3] eqn:E3.
    destruct (return_to_pending_at _ _ _ _ _ _ _ Hid Hl2 E3) as (c3 & Hl3 & Hs3).
    destruct r3; intros [= _ <-]; exists c3; by rewrite Hs3. }
  destruct r1 as [[x|]|err]; [|by intros [= _ <-]; eauto|by eauto].
  unfold mbind at 1, M_bind at 1.
  match goal with |- context [(if ?b then mret tt else _save_task_result tid x) s1] =>
    destruct ((if b then mret tt else _save_task_result tid x) s1) as [r2 s2] eqn:E2 end.
  assert (at_status c s2) as Hl2.
  { destruct (bool_decide _) in E2; [by injection E2 as _ <-|]. exact (at_quiet _ _ _ _ _ (save_result_quiet tid x) E2 Hl1). }
  destruct r2 as [[]|err]; [|by eauto].
  specialize (Hh x eq_refl). unfold harmless in Hh. destruct (_classify_task_result x) as [st sm]. simpl in Hh.
  unfold mbind, M_bind. destruct (_sync_task_queue e tid st (Some sm) s2) as [r3 s3] eqn:E3.
  destruct (sync_at _ _ _ _ _ _ Hl2 E3) as (-> & c3 & Hl3 & Hc3). intros [= _ <-]. exists c3. split; [done|].
  by eapply settled_sync.
Qed.

(* ------------------------------------------------------------------ *)
(** ** Settling *)

(** The attempt is over and the task is idle with status [c]; nobody runs it
  again by itself, and its owner is told when it was not finished. *)
Record closed (c : string) (d : db) : Prop := {
  closed_row : ∃ r, select_key task_key (self e, tid) (tasks d) = Some r ∧ row_current r = None ∧
    row_ready r = false ∧ status (row_entry r) = c;
  closed_attempt : ∃ a, select_key att_token token (task_attempts d) = Some a ∧ is_Some (att_ended_at a) ∧
    attempt_task a = (self e, tid);
  closed_wakeup : c = "pending" → (self e, tid, token) ∈ wakeup_key <$> task_wakeups d;
  closed_fence : attempt_task_row token d = None
}.
(** The process of the attempt is this one, or dead. *)
Definition child_gone (d : db) : Prop :=
∀ a, a ∈ task_attempts d → att_token a = token → child_still_live e (Some a) = false.

Lemma finish_closes kind ref c w : ledger (self e) tid token c w → closed (settled c) (w_db (snd (finish token (settled c) kind None ref w))) ∧
  is_ok (fst (finish token (settled c) kind None ref w)) = true.
Proof.
  clear Htid. intros [Hidle Hinv (r & [Hno Hr] & Hcur & Hst)]. pose proof (select_key_Some _ _ _ _ Hr) as [Hin Hkey].
  assert (settled c ∈ ["pending"; "done"; "cancelled"]) as Hset.
  { unfold settled, str_in. case_bool_decide; set_solver. }
  destruct (finish_effect token (settled c) kind None ref w r Hidle Hinv Hset Hin Hcur) as (Hv & Hrow & Hatt & Hwake & Hf).
  assert ((if bool_decide (status (row_entry r) = "cancelled") then "cancelled" else settled c) = settled c) as Heq.
  { rewrite Hst. destruct (decide (c = "cancelled")) as [->|]; [reflexivity|]. by rewrite bool_decide_eq_false_2. }
  rewrite Heq in Hrow, Hwake. split; [|by rewrite Hv]. rewrite Hkey in Hrow, Hatt. split.
  - destruct Hrow as (r' & ? & ? & ? & ? & ?). eauto 10.
  - destruct Hatt as (a & ? & ? & _ & _ & ?). eauto 10.
  - intros Hp. specialize (Hwake Hp). unfold task_key in Hkey. by injection Hkey as <- <-.
  - done.
Qed.

Lemma settle_at kind c s : at_status c s → ∃ s', settle e tid token kind s = (Ok tt, s') ∧ tid ∉ _active_task_ids s' ∧
  (child_gone (w_db (tw s')) → closed (settled c) (w_db (tw s'))).
Proof.
  intros Hl. destruct (ledger_read _ _ _ _ _ Hl) as (view & en & Hread & Hen & Hst).
  unfold settle. unfold mbind at 1, M_bind at 1, in_tasks at 1. rewrite Hread.
  assert (set_tw (tw s) s = s) as -> by (by destruct s). rewrite Hen. cbv zeta.
  unfold mbind at 1, M_bind at 1, active_attempts. rewrite in_tasks_query by apply Hl.
  assert (ledger_status (Some en) = settled c) as -> by (unfold ledger_status, settled; by rewrite Hst).
  set (active := select_first _ _). destruct (child_still_live e active) eqn:Elive.
  - exists (set_active (_active_task_ids s ∖ {[tid]}) s). split; [reflexivity|]. split; [cbn; set_solver|].
    intros Hgone. exfalso. destruct active as [a|] eqn:Ea; [|done]. unfold active in Ea.
    apply select_first_Some in Ea as [[_ Ha]%list_elem_of_filter Ht%bool_decide_eq_true].
    specialize (Hgone a Ha Ht). congruence.
  - unfold mbind at 1, M_bind at 1. cbn [gets]. unfold gets at 1. unfold mbind at 1 2, M_bind at 1 2, in_tasks.
    match goal with |- context [finish token (settled c) ?k None ?ref (tw s)] =>
      destruct (finish_closes k ref c (tw s) Hl) as [Hcl Hok];
      destruct (finish token (settled c) k None ref (tw s)) as [r1 w1] end.
    simpl in Hcl, Hok. destruct r1; [|done]. eexists. split; [reflexivity|]. split; [cbn; set_solver|]. intros _. exact Hcl.
Qed.

End runs.
