(* ===== verification/ExecutorRecovery.v ===== *)
(** * Recovery of attempts

    When an anima starts, and at every turn of its watcher, the attempts whose
    process is proved dead are ended, and no others. *)

From Stdlib Require Import QArith.
From stdpp Require Import prelude strings list gmap sorting.
From S2P Require Import Prelude PyValue PyText JsonText Sql TaskModels TaskStore TaskStoreInv TaskStoreProps TaskQueue TaskQueueProps.
From S2P Require Import Activity Cascade Mailbox Channels Messenger Executor ExecutorProps ExecutorRuns.
Open Scope nat_scope.

Section recovery.
Context `{Oracle, Calendar, FloatText, Codec, Listing file, Processes, Wording} (e : exec_env).

(** Nothing but the task [k] and the attempt [tok] differs, and no wake-up is
  lost. *)
Record elsewhere_same (P : string * string → Prop) (Q : string → Prop) (d d' : db) : Prop := {
  es_aliases : task_aliases d' = task_aliases d;
  es_rows k : ¬ P k → select_key task_key k (tasks d') = select_key task_key k (tasks d);
  es_attempts t : ¬ Q t → select_key att_token t (task_attempts d') = select_key att_token t (task_attempts d);
  es_wakeups x : x ∈ wakeup_key <$> task_wakeups d → x ∈ wakeup_key <$> task_wakeups d'
}.

Lemma add_wakeup_keeps k d x : x ∈ wakeup_key <$> task_wakeups d → x ∈ wakeup_key <$> task_wakeups (finish_wakeups k d).
Proof.
  destruct k as [k|]; [|done]. cbn [finish_wakeups add_wakeup task_wakeups set_wakeups]. unfold insert_or_ignore.
  destruct (select_key _ _ _); [done|]. rewrite fmap_app. intros Hx. apply elem_of_app. by left.
Qed.

Lemma finish_frame tid tok c kind ref w : ledger (self e) tid tok c w →
  let w' := snd (finish tok (settled c) kind None ref w) in
  idle w' ∧ inv (w_db w') ∧ elsewhere_same (eq (self e, tid)) (eq tok) (w_db w) (w_db w').
Proof.
  intros [Hidle Hinv (r & [Hno Hr] & Hcur & Hst)] w'. pose proof (select_key_Some _ _ _ _ Hr) as [Hin Hkey].
  assert (settled c ∈ ["pending"; "done"; "cancelled"]) as Hset.
  { unfold settled, str_in. case_bool_decide; set_solver. }
  destruct (finish_success tok (settled c) kind None ref w r Hidle Hinv Hset Hin Hcur) as (en & k & _ & Hdb & _).
  assert (within (keeps idle) (finish tok (settled c) kind None ref)) as Hfi.
  { unfold finish. destruct (negb _); [apply within_raise|apply transaction_idle]. }
  assert (within (on_db keeps_inv) (finish tok (settled c) kind None ref)) as Hfv by apply finish_keeps.
  split; [by apply Hfi|]. split; [by apply Hfv|]. unfold w'. rewrite Hdb. split.
  - by destruct k.
  - intros k' Hne. rewrite finish_wakeups_tasks. cbn [finish_rows tasks set_tasks set_attempts].
    rewrite select_update_key by done. rewrite decide_False; [done|]. rewrite Hkey. by intros ->.
  - intros t Hne. rewrite finish_wakeups_attempts. cbn [finish_rows task_attempts set_tasks set_attempts].
    rewrite select_update_key by done. by rewrite decide_False.
  - intros x Hx. by apply add_wakeup_keeps.
Qed.

(** An attempt of this anima that is on record as running. *)
Definition on_record (a : attempt_row) (c : string) (w : world) : Prop :=
ledger (self e) (att_task_id a) (att_token a) c w ∧ select_key att_token (att_token a) (task_attempts (w_db w)) = Some a.
(** Its process is proved dead and it does not run here. *)
Definition orphaned (s : executor) (a : attempt_row) : Prop :=
att_task_id a ∉ _active_task_ids s ∧ identity_liveness e (att_identity a) = "dead".
#[global] Instance orphaned_dec s a : Decision (orphaned s a).
Proof. apply and_dec; apply _. Defined.

Lemma recover_one_run a c s : on_record a c (tw s) → ∃ s', recover_one e a s = (Ok tt, s') ∧
  _active_task_ids s' = _active_task_ids s ∧ idle (tw s') ∧ inv (w_db (tw s')) ∧
  if decide (orphaned s a)
  then closed e (att_task_id a) (att_token a) (settled c) (w_db (tw s')) ∧
       elsewhere_same (eq (self e, att_task_id a)) (eq (att_token a)) (w_db (tw s)) (w_db (tw s'))
  else s' = s.
Proof.
  intros [Hl _]. unfold recover_one. unfold mbind at 1, M_bind at 1, gets at 1.
  destruct (decide (orphaned s a)) as [[Hact Hdead]|Hno].
  - rewrite bool_decide_eq_false_2 by done. rewrite Hdead. rewrite bool_decide_eq_true_2 by done. cbn [negb].
    destruct (ledger_read _ _ _ _ _ Hl) as (view & en & Hread & Hen & Hst).
    unfold mbind at 1, M_bind at 1, in_tasks at 1. rewrite Hread. assert (set_tw (tw s) s = s) as -> by (by destruct s).
    rewrite Hen. assert (ledger_status (Some en) = settled c) as -> by (unfold ledger_status, settled; by rewrite Hst).
    destruct (finish_closes e _ _ "owner_exited" "" c (tw s) Hl) as [Hcl Hok].
    destruct (finish_frame _ _ _ "owner_exited" "" (tw s) Hl) as (Hi & Hv & Hes).
    unfold mbind, M_bind, in_tasks. destruct (finish (att_token a) (settled c) "owner_exited" None "" (tw s)) as [r1 w1].
    simpl in *. destruct r1; [|done]. eexists. split; [reflexivity|]. done.
  - exists s. split; [|split_and!; [done|apply Hl|apply Hl|done]].
    case_bool_decide as Ha; [done|]. case_bool_decide as Hd; [|done]. by destruct Hno.
Qed.

Lemma on_record_elsewhere a b c cb w w' : on_record a c w → on_record b cb w → att_token a ≠ att_token b →
  idle w' → inv (w_db w') → elsewhere_same (eq (self e, att_task_id a)) (eq (att_token a)) (w_db w) (w_db w') →
  on_record b cb w'.
Proof.
  intros [[_ Hinv (ra & [_ Hra] & Hca & _)] _] [[_ _ (rb & [Hnb Hrb] & Hcb & Hsb)] Hb] Hne Hi Hv [Hal Hrows Hatt _].
  split; [|by rewrite Hatt]. split; [done..|]. exists rb. split_and!; [|done..]. split; [by rewrite Hal|].
  rewrite Hrows; [done|]. intros [= Heq]. rewrite Heq in Hra. congruence.
Qed.

Lemma closed_elsewhere tid tok c P Q d d' : closed e tid tok c d → elsewhere_same P Q d d' → ¬ P (self e, tid) → ¬ Q tok →
  closed e tid tok c d'.
Proof.
  intros [(r & Hr & Hrow) (a & Ha & Hend & Hkey) Hwake Hf] [_ Hrows Hatt Hw] Hk Ht. split.
  - exists r. by rewrite Hrows.
  - exists a. by rewrite Hatt.
  - auto.
  - unfold attempt_task_row in *. rewrite Hatt, Ha by done. destruct Hend as [x Hx].
    unfold attempt_live. by rewrite Hx.
Qed.
Lemma elsewhere_same_trans (P P1 P2 : string * string → Prop) (Q Q1 Q2 : string → Prop) d1 d2 d3 :
  (∀ k, P1 k → P k) → (∀ k, P2 k → P k) → (∀ t, Q1 t → Q t) → (∀ t, Q2 t → Q t) →
  elsewhere_same P1 Q1 d1 d2 → elsewhere_same P2 Q2 d2 d3 → elsewhere_same P Q d1 d3.
Proof.
  intros HP1 HP2 HQ1 HQ2 [Ha Hb Hc Hd] [He Hf Hg Hh]. split; [congruence|..|auto].
  - intros k Hk. rewrite Hf, Hb; naive_solver.
  - intros t Ht. rewrite Hg, Hc; naive_solver.
Qed.

(** The attempts of [l] that are orphaned, by task and by token. *)
Definition orphan_tasks (s : executor) (l : list attempt_row) (k : string * string) : Prop :=
∃ a, a ∈ l ∧ orphaned s a ∧ (self e, att_task_id a) = k.
Definition orphan_tokens (s : executor) (l : list attempt_row) (t : string) : Prop :=
∃ a, a ∈ l ∧ orphaned s a ∧ att_token a = t.

Lemma recover_all l : NoDup (att_token <$> l) → ∀ s (cs : attempt_row → string),
  idle (tw s) → inv (w_db (tw s)) → (∀ a, a ∈ l → on_record a (cs a) (tw s)) →
  ∃ s', for_each l (recover_one e) s = (Ok tt, s') ∧
    (∀ a, a ∈ l → orphaned s a → closed e (att_task_id a) (att_token a) (settled (cs a)) (w_db (tw s'))) ∧
    elsewhere_same (orphan_tasks s l) (orphan_tokens s l) (w_db (tw s)) (w_db (tw s')).
Proof.
  induction l as [|a l IH]; intros Hl s cs Hi Hv Hon; cbn [for_each].
  { exists s. split; [done|]. split; [by intros ? ?%not_elem_of_nil|]. by split. }
  apply NoDup_cons in Hl as [Hal Hl]. pose proof (Hon a ltac:(left)) as Hona.
  destruct (recover_one_run a (cs a) s Hona) as (s1 & Hrun & Hact & Hi1 & Hv1 & Hstep).
  unfold mbind, M_bind. rewrite Hrun.
  assert (∀ b, b ∈ l → att_token a ≠ att_token b) as Hne.
  { intros b Hb Heq. apply Hal. rewrite Heq. by apply list_elem_of_fmap_2. }
  assert (∀ b, b ∈ l → on_record b (cs b) (tw s1)) as Hon1.
  { intros b Hb. pose proof (Hon b ltac:(by right)) as Honb. destruct (decide (orphaned s a)) as [|]; [|by subst].
    destruct Hstep as [_ Hes]. exact (on_record_elsewhere _ _ _ _ _ _ Hona Honb (Hne b Hb) Hi1 Hv1 Hes). }
  destruct (IH Hl s1 cs Hi1 Hv1 Hon1) as (s' & Hrun' & Hcl & Hes). exists s'. split; [done|].
  assert (∀ b, orphaned s1 b ↔ orphaned s b) as Horph by (intros b; unfold orphaned; by rewrite Hact).
  split.
  - intros b [->|Hb]%elem_of_cons Ho; [|by apply Hcl; [|apply Horph]]. rewrite decide_True in Hstep by done.
    destruct Hstep as [Hcla _]. eapply closed_elsewhere; [exact Hcla|exact Hes|..].
    + intros (b & Hb & _ & [= Heq]). apply (Hne b Hb).
      destruct Hona as [[_ _ (ra & [_ Hra] & Hca & _)] _]. destruct (Hon b ltac:(by right)) as [[_ _ (rb & [_ Hrb] & Hcb & _)] _].
      congruence.
    + intros (b & Hb & _ & Heq). by apply (Hne b Hb).
  - destruct (decide (orphaned s a)) as [Ho|Ho].
    + destruct Hstep as [_ Hes1]. eapply elsewhere_same_trans; [..|exact Hes1|exact Hes].
      * intros k <-. exists a. split; [left|done].
      * intros k (b & Hb & Hob & <-). exists b. split; [by right|]. by rewrite <- Horph.
      * intros t <-. exists a. split; [left|done].
      * intros t (b & Hb & Hob & <-). exists b. split; [by right|]. by rewrite <- Horph.
    + subst s1. destruct Hes as [Ha Hb Hc Hd]. split; [done|..|done].
      * intros k Hk. apply Hb. intros (b & Hbl & Hob & <-). apply Hk. exists b. split; [by right|done].
      * intros t Ht. apply Hc. intros (b & Hbl & Hob & <-). apply Ht. exists b. split; [by right|done].
Qed.

(** C14. Recovery is exact: a pass always completes; it ends each attempt of the
  anima whose process is proved dead and which does not run here, settling
  its task with the outcome on record, idle, not scheduled again, and with a
  wake-up if it was not finished; every other task and every other attempt,
  live ones included, stays exactly as it was. *)
Theorem recovery_exact s :
  idle (tw s) → inv (w_db (tw s)) →
  (∀ a, a ∈ task_attempts (w_db (tw s)) → att_anima a = self e →
     select_key alias_key (self e, att_task_id a) (task_aliases (w_db (tw s))) = None) →
  let lost := filter (λ a, att_anima a = self e ∧ att_ended_at a = None ∧ orphaned s a) (task_attempts (w_db (tw s))) in
  ∃ s', _recover_task_attempts e s = (Ok tt, s') ∧
    (∀ a, a ∈ lost → ∃ r, select_key task_key (self e, att_task_id a) (tasks (w_db (tw s))) = Some r ∧
       closed e (att_task_id a) (att_token a) (settled (status (row_entry r))) (w_db (tw s'))) ∧
    elsewhere_same (λ k, k ∈ attempt_task <$> lost) (λ t, t ∈ att_token <$> lost) (w_db (tw s)) (w_db (tw s')).
Proof.
  intros Hi Hv Hal lost. set (d := w_db (tw s)) in *.
  set (l := filter (λ a, att_anima a = self e ∧ att_ended_at a = None) (task_attempts d)).
  assert (∀ a, a ∈ l → ∃ r, select_key task_key (self e, att_task_id a) (tasks d) = Some r ∧ on_record a (status (row_entry r)) (tw s))
    as Hrec.
  { intros a [[Ha He] Hin]%list_elem_of_filter.
    assert ((attempt_task a, att_token a) ∈ running (tasks d)) as (r & Hr & Hk & Hc)%elem_of_running.
    { apply (inv_fence _ Hv), elem_of_live. exists a. unfold attempt_live. by rewrite He. }
    unfold attempt_task in Hk. rewrite Ha in Hk. pose proof (select_key_elem _ _ _ (inv_tasks _ Hv) Hr) as Hsel.
    rewrite Hk in Hsel. exists r. split; [done|]. split.
    - split; [done..|]. exists r. split_and!; [split; [by apply Hal|done]|done..].
    - by apply select_key_elem; [apply Hv|]. }
  set (cs a := from_option (λ r, status (row_entry r)) "" (select_key task_key (self e, att_task_id a) (tasks d))).
  destruct (recover_all l) with (s := s) (cs := cs) as (s' & Hrun & Hcl & [Ha Hb Hc Hd]).
  { pose proof (inv_tokens _ Hv) as Ht. unfold unique in Ht. eapply (sublist_NoDup _ _ Ht), fmap_sublist, sublist_filter. }
  { done. }
  { done. }
  { intros a Hin. destruct (Hrec a Hin) as (r & Hr & Hon). unfold cs. by rewrite Hr. }
  assert (∀ a, a ∈ lost ↔ a ∈ l ∧ orphaned s a) as Hlost.
  { intros a. unfold lost, l. rewrite !list_elem_of_filter. tauto. }
  exists s'. split; [|split].
  - unfold _recover_task_attempts, active_attempts. unfold mbind, M_bind. rewrite in_tasks_query by done. exact Hrun.
  - intros a [Hin Ho]%Hlost. destruct (Hrec a Hin) as (r & Hr & _). exists r. split; [done|].
    pose proof (Hcl a Hin Ho) as Hclosed. unfold cs in Hclosed. by rewrite Hr in Hclosed.
  - split; [done|..|done].
    + intros k Hk. apply Hb. intros (a & Hin & Ho & <-). apply Hk. apply list_elem_of_fmap. exists a.
      split; [|by apply Hlost]. apply list_elem_of_filter in Hin as [[Hself _] _]. unfold attempt_task. by rewrite Hself.
    + intros t Ht. apply Hc. intros (a & Hin & Ho & <-). apply Ht, list_elem_of_fmap_2. by apply Hlost.
Qed.
End recovery.
