(* ===== verification/ExecWitnesses.v ===== *)
(** * The executor at work

    A task that is claimed, run and settled, an outbox that is delivered and an
    attempt that is recovered: for each theorem about the executor an instance
    of it there.  The examples at the end show wake-ups that are never
    delivered, and a delegation that is walked back. *)

From Stdlib Require Import Ascii QArith.
From stdpp Require Import prelude strings list gmap sorting relations.
From S2P Require Import Prelude PyValue PyText JsonText Sql TaskModels TaskStore TaskStoreInv TaskStoreProps TaskQueue TaskQueueProps TaskWitnesses.
From S2P Require Import Activity Cascade Mailbox Channels Messenger MessengerProps IpcWitnesses MailWitnesses.
From S2P Require Import Executor ExecutorProps ExecutorRuns ExecutorRecovery.
Open Scope nat_scope.

#[local] Existing Instances TaskWitnesses.demo_oracle MailWitnesses.demo_calendar MailWitnesses.demo_codec MailWitnesses.demo_listing.
#[local] Instance demo_wording : Wording := {|
  text_completed := "completed"; text_cancelled := "cancelled"; none_value := "(none)"; no_workspace := "(none)";
  dep_result_header d := d; task_fail_notify t title reason := Ok (t +:+ ": " +:+ reason);
  task_complete_notify t title result := Ok (t +:+ ": " +:+ result); exception_text _ := "error"
|}.
#[local] Instance demo_numbers : Processes := {| int_text _ := None; float_text _ := None |}.

(** Sakura's executor, process 100; no other process is alive. *)
Definition demo_exec : exec_env :=
  mk_exec_env "sakura" 100 [("pid", JInt 100)] false 0 (λ _, NoSuchProcess) (JInt 2) "" open_env (λ _, ("x", noon)).
Definition executor_of (w : world) : executor := mk_executor w nobody ∅ [] ∅ [].

(* ------------------------------------------------------------------ *)
(** ** Wake-ups *)

(** The attempt of [w_fin] ended without a result: one event is due. *)
Definition the_event : wakeup_row := default (mk_wakeup "" "" "" "" "" None) (head (due demo_exec (w_db w_fin))).
Lemma one_due : due demo_exec (w_db w_fin) = [the_event].
Proof. vm_compute. reflexivity. Qed.
Lemma event_deliverable : deliverable demo_exec (w_db w_fin) nobody the_event.
Proof.
  split; [vm_compute; reflexivity|]. split; [vm_compute; reflexivity|].
  assert (told demo_exec the_event (w_db w_fin) = ["sakura"]) as -> by (vm_compute; reflexivity).
  apply Forall_singleton. intros f Hf. vm_compute in Hf. discriminate Hf.
Qed.

(* ------------------------------------------------------------------ *)
(** ** A run *)

Definition llm_payload : dict := dset "task_type" (JStr "llm") (demo_payload "t1").
Definition w_claimable : world := after_ops [OpSubmit "sakura" (demo_entry "t1") llm_payload false] w_empty.
Definition w_claimed : world := after_ops [OpClaim "sakura" "t1" [("pid", JInt 100)] 2] w_claimable.
Definition w_declared (st : string) : world :=
  after_ops [OpApply "sakura" (EvUpdate "t1" (Some st) None None None)] w_claimed.
Definition llm_desc : dict := dset "_attempt_token" (JStr "token") llm_payload.

Lemma w_claimed_reachable : reachable (w_db w_claimed).
Proof.
  unfold reachable. etrans; apply rtc_once.
  - apply (op_step (OpSubmit "sakura" (demo_entry "t1") llm_payload false) w_empty); done.
  - apply (op_step (OpClaim "sakura" "t1" [("pid", JInt 100)] 2) w_claimable); done.
Qed.
Lemma w_declared_inv st : inv (w_db (w_declared st)).
Proof.
  apply reachable_inv. unfold reachable. etrans; [apply w_claimed_reachable|].
  apply rtc_once. apply (op_step (OpApply "sakura" (EvUpdate "t1" (Some st) None None None)) w_claimed); done.
Qed.

(** The model declares the task done, and then its stream breaks. *)
Definition declares (st : string) : machinery :=
  mk_machinery (Inline (λ _ s, (Streamed [[("type", JStr "error"); ("message", JStr "reset")]], set_tw (w_declared st) s)))
    (λ s, (None, s)).
Definition done_run : result bool * executor :=
  _execute_canonical_task demo_exec (declares "done") llm_desc (executor_of w_claimed).

Lemma claimed_fresh : fresh demo_exec "t1" "token" llm_desc (executor_of w_claimed).
Proof.
  split; [reflexivity|]. split; [apply reachable_inv, w_claimed_reachable|].
  exists (the_row w_claimed). split; [split; vm_compute; reflexivity|]. split_and!; vm_compute; reflexivity.
Qed.
Lemma desc_runnable : runnable "t1" llm_desc.
Proof. split; vm_compute; reflexivity. Qed.
Lemma declares_leaves : leaves demo_exec "t1" "token" (run_llm (declares "done")) "done".
Proof.
  intros p s _. split; [reflexivity|apply w_declared_inv|].
  exists (the_row (w_declared "done")). split; [split; vm_compute; reflexivity|]. split; vm_compute; reflexivity.
Qed.
Lemma done_run_gone : child_gone demo_exec "token" (w_db (tw (snd done_run))).
Proof.
  intros a Ha _. assert (Forall (λ a, child_still_live demo_exec (Some a) = false) (task_attempts (w_db (tw (snd done_run))))) as Hall.
  { vm_compute. repeat constructor. }
  rewrite Forall_forall in Hall. by apply Hall.
Qed.

(* ------------------------------------------------------------------ *)
(** ** Recovery *)

(** The attempt of [w_orphan] belongs to process 77, which is dead. *)
Definition w_orphan : world := after_ops [OpClaim "sakura" "t1" [("pid", JInt 77)] 2] w_claimable.
Definition lost_attempt : attempt_row :=
  default (mk_attempt "" "" "" 0 [] "" None None None) (head (task_attempts (w_db w_orphan))).
Lemma w_orphan_inv : inv (w_db w_orphan).
Proof.
  apply reachable_inv. unfold reachable. etrans; apply rtc_once.
  - apply (op_step (OpSubmit "sakura" (demo_entry "t1") llm_payload false) w_empty); done.
  - apply (op_step (OpClaim "sakura" "t1" [("pid", JInt 77)] 2) w_claimable); done.
Qed.
Lemma lost_found : lost_attempt ∈ task_attempts (w_db w_orphan).
Proof. assert (task_attempts (w_db w_orphan) = [lost_attempt]) as -> by (vm_compute; reflexivity). by left. Qed.
Lemma lost_facts : att_task_id lost_attempt = "t1" ∧ att_token lost_attempt = "token" ∧ att_anima lost_attempt = "sakura" ∧
  att_ended_at lost_attempt = None ∧ identity_liveness demo_exec (att_identity lost_attempt) = "dead".
Proof. split_and!; vm_compute; reflexivity. Qed.
Definition recovering : executor := executor_of w_orphan.
Lemma recovering_start : idle (tw recovering) ∧ inv (w_db (tw recovering)) ∧
  (∀ a, a ∈ task_attempts (w_db (tw recovering)) → att_anima a = self demo_exec →
     select_key alias_key (self demo_exec, att_task_id a) (task_aliases (w_db (tw recovering))) = None).
Proof.
  assert (task_aliases (w_db w_orphan) = []) as E by (vm_compute; reflexivity).
  split; [reflexivity|]. split; [exact w_orphan_inv|]. intros a _ _. cbn [recovering executor_of tw]. by rewrite E.
Qed.
Lemma lost_one : lost_attempt ∈ filter (λ a, att_anima a = self demo_exec ∧ att_ended_at a = None ∧ orphaned demo_exec recovering a)
  (task_attempts (w_db (tw recovering))).
Proof.
  destruct lost_facts as (Et & Ek & Ea & Ee & El). apply list_elem_of_filter. split; [|exact lost_found].
  unfold orphaned. rewrite Ea, Ee, El. split; [reflexivity|]. split; [reflexivity|]. split; [apply not_elem_of_empty|reflexivity].
Qed.
Lemma lost_row r : select_key task_key (self demo_exec, att_task_id lost_attempt) (tasks (w_db (tw recovering))) = Some r →
  settled (status (row_entry r)) = "pending".
Proof.
  assert (select_key task_key (self demo_exec, att_task_id lost_attempt) (tasks (w_db (tw recovering))) = Some (the_row w_orphan)) as ->
    by (vm_compute; reflexivity).
  intros [= <-]. vm_compute. reflexivity.
Qed.
Lemma recovery_exact_witness : ∃ s', _recover_task_attempts demo_exec recovering = (Ok tt, s') ∧
  closed demo_exec (att_task_id lost_attempt) (att_token lost_attempt) "pending" (w_db (tw s')).
Proof.
  destruct (recovery_exact demo_exec recovering (proj1 recovering_start) (proj1 (proj2 recovering_start))
    (proj2 (proj2 recovering_start))) as (s' & Hrun & Hlost & _).
  exists s'. split; [exact Hrun|]. destruct (Hlost lost_attempt lost_one) as (r & Hr & Hcl).
  rewrite (lost_row r Hr) in Hcl. exact Hcl.
Defined.

(* ------------------------------------------------------------------ *)
(** ** What goes wrong *)

Definition needs (tid dep : string) : dict := dset "depends_on" (JList [JStr dep]) (demo_payload tid).
Definition cancelled_dependency (tid dep : string) : list store_op :=
  [OpSubmit "sakura" (demo_entry dep) (demo_payload dep) false;
   OpApply "sakura" (EvUpdate dep (Some "cancelled") None None None);
   OpSubmit "sakura" (demo_entry tid) (needs tid dep) false;
   OpClaim "sakura" tid [] 9].
(** The task [build#1] waits for a task that is cancelled.  Its wake-up cannot
    be sent: [#] is legal in a task identifier but not in a delivery
    identifier.  The event stays due and nobody is told, at this pass and at
    every other. *)
Definition w_hash : world := after_ops (cancelled_dependency "build#1" "fetch") w_empty.
Example wakeup_undeliverable :
  let s := snd (_deliver_task_wakeups demo_exec (executor_of w_hash)) in
  length (due demo_exec (w_db w_hash)) = 1 ∧ due demo_exec (w_db (tw s)) = due demo_exec (w_db w_hash) ∧
  inbox (box (mail s) "sakura") = ∅.
Proof. split_and!; vm_compute; reflexivity. Qed.
(** [x] waits for [y-z] and [x-y] for [z]: both wake-ups are called
    [dependency-x-y-z], and one message goes out for the two. *)
Definition w_clash : world := after_ops (cancelled_dependency "x" "y-z" ++ cancelled_dependency "x-y" "z") w_empty.
Example wakeups_collide :
  let s := snd (_deliver_task_wakeups demo_exec (executor_of w_clash)) in
  length (due demo_exec (w_db w_clash)) = 2 ∧ due demo_exec (w_db (tw s)) = [] ∧
  size (inbox (box (mail s) "sakura")) = 1.
Proof. split_and!; vm_compute; reflexivity. Qed.
(** The model hands its task to a subordinate and says so; when the run ends
    the task is pending again. *)
Example delegation_walked_back :
  status (row_entry (the_row (w_declared "delegated"))) = "delegated" ∧
  status (row_entry (the_row (tw (snd (_execute_canonical_task demo_exec (declares "delegated") llm_desc (executor_of w_claimed)))))) =
    "pending".
Proof. split; vm_compute; reflexivity. Qed.
