(* ===== verification/Fleet.v ===== *)
(** * The fleet and its reconciliation

    [core/supervisor/_mgr_reconcile.py]: the pass that brings the processes of
    all animas in line with their directories, with [start_anima],
    [stop_anima] and [restart_anima] of [manager.py] as whole calls
    ([Supervisor] has their interleavings for one anima) and
    [read_anima_enabled].  Nothing else happens during a pass; how each start
    and stop ends and what the clock shows at each anima are arguments.  Left
    out: the notifications of the server, the background bootstrap a start may
    launch, the refresh of the configuration and the generation of assets. *)

From Stdlib Require Import QArith.
From stdpp Require Import prelude strings list gmap sorting.
From S2P Require Import Prelude PyValue PyText.
Open Scope nat_scope.

(* ------------------------------------------------------------------ *)
(** ** State *)

(** A JSON file: missing, not readable as JSON, not UTF-8, or a value. *)
Inductive json_file := NoFile | Unreadable | NotUtf8 | Contents (v : json).
Record anima_dir := mk_dir { identity_md : bool; status_json : json_file }.

Record fleet := mk_fleet {
  _shutdown : bool;
  (** [None]: the directory of the animas does not exist *)
  animas_dir : option (gmap string anima_dir);
  processes : gset string;
  _permanently_failed : gset string;
  _failed_log_times : gmap string Q;
  _restart_counts : gmap string nat;
  _restarting : gset string;
  _starting : gset string;
  _bootstrapping : gset string;
  _rag_repairs_in_progress : gset string;
  _recently_stopped : gmap string Q;
  _start_failed_times : gmap string Q;
  _start_fail_counts : gmap string nat;
  (** [usage_governor.enabled] of the server's configuration, and
      [usage_governor_state.json] *)
  governor_enabled : bool;
  governor_file : json_file
}.
Definition set_animas_dir v s := mk_fleet (_shutdown s) v (processes s) (_permanently_failed s) (_failed_log_times s)
  (_restart_counts s) (_restarting s) (_starting s) (_bootstrapping s) (_rag_repairs_in_progress s) (_recently_stopped s)
  (_start_failed_times s) (_start_fail_counts s) (governor_enabled s) (governor_file s).
Definition set_processes v s := mk_fleet (_shutdown s) (animas_dir s) v (_permanently_failed s) (_failed_log_times s)
  (_restart_counts s) (_restarting s) (_starting s) (_bootstrapping s) (_rag_repairs_in_progress s) (_recently_stopped s)
  (_start_failed_times s) (_start_fail_counts s) (governor_enabled s) (governor_file s).
Definition set_failures v t c s := mk_fleet (_shutdown s) (animas_dir s) (processes s) v t
  c (_restarting s) (_starting s) (_bootstrapping s) (_rag_repairs_in_progress s) (_recently_stopped s)
  (_start_failed_times s) (_start_fail_counts s) (governor_enabled s) (governor_file s).
Definition set_restarting v s := mk_fleet (_shutdown s) (animas_dir s) (processes s) (_permanently_failed s) (_failed_log_times s)
  (_restart_counts s) v (_starting s) (_bootstrapping s) (_rag_repairs_in_progress s) (_recently_stopped s)
  (_start_failed_times s) (_start_fail_counts s) (governor_enabled s) (governor_file s).
Definition set_stopped v s := mk_fleet (_shutdown s) (animas_dir s) (processes s) (_permanently_failed s) (_failed_log_times s)
  (_restart_counts s) (_restarting s) (_starting s) (_bootstrapping s) (_rag_repairs_in_progress s) v
  (_start_failed_times s) (_start_fail_counts s) (governor_enabled s) (governor_file s).
Definition set_start_failures t c s := mk_fleet (_shutdown s) (animas_dir s) (processes s) (_permanently_failed s)
  (_failed_log_times s) (_restart_counts s) (_restarting s) (_starting s) (_bootstrapping s) (_rag_repairs_in_progress s)
  (_recently_stopped s) t c (governor_enabled s) (governor_file s).
Definition set_governor_file v s := mk_fleet (_shutdown s) (animas_dir s) (processes s) (_permanently_failed s)
  (_failed_log_times s) (_restart_counts s) (_restarting s) (_starting s) (_bootstrapping s) (_rag_repairs_in_progress s)
  (_recently_stopped s) (_start_failed_times s) (_start_fail_counts s) (governor_enabled s) v.

(** The places that start or stop a process. *)
Inductive site := AtRecovery | AtRequest | AtStart | AtFailure | AtDisabled | AtRemoved | AtResume | AtSuspend | AtStartup.
(** How starts and stops end ([true]: without an exception) and the clocks. *)
Record pass_env := mk_pass_env {
  spawns : site → string → bool;
  halts : site → string → bool;
  loop_time : string → Q;
  monotonic : site → string → Q;
  pass_time : Q
}.

(* ------------------------------------------------------------------ *)
(** ** Starting and stopping *)

Definition read_anima_enabled (f : json_file) : result bool :=
  match f with
  | Contents (JObj d) => Ok (truthy (dget_default "enabled" (JBool true) d))
  | NotUtf8 => Err (ValueError "utf-8")
  | NoFile | Unreadable | Contents _ => Ok true
  end.
Definition dir_of (n : string) (s : fleet) : option anima_dir := d ← animas_dir s; d !! n.
Definition status_of (n : string) (s : fleet) : json_file := from_option status_json NoFile (dir_of n s).

Section calls.
Context (e : pass_env).

Definition start_anima (at_ : site) (n : string) : M fleet unit :=
shut ← gets _shutdown;
if shut : bool then mret tt else
enabled ← (λ s, (read_anima_enabled (status_of n s), s));
if negb enabled then mret tt else
here ← gets (λ s, bool_decide (n ∈ processes s) || bool_decide (n ∈ _starting s));
if here : bool then mret tt else
if spawns e at_ n then
  modify (λ s, set_start_failures (delete n (_start_failed_times s)) (delete n (_start_fail_counts s))
                 (set_processes ({[n]} ∪ processes s) s))
else raise (RuntimeError "ProcessError").

Definition stop_anima (at_ : site) (n : string) : M fleet unit :=
here ← gets (λ s, bool_decide (n ∈ processes s));
if negb here then mret tt else
if halts e at_ n then
  modify (λ s, set_stopped (<[n := monotonic e at_ n]> (_recently_stopped s)) (set_processes (processes s ∖ {[n]}) s))
else raise (RuntimeError "ProcessError").

Definition drop_failure (n : string) (s : fleet) : fleet :=
set_failures (_permanently_failed s ∖ {[n]}) (delete n (_failed_log_times s)) (delete n (_restart_counts s)) s.
Definition restart_anima (at_ : site) (n : string) : M fleet unit :=
_ ← modify (λ s, if _shutdown s then s else drop_failure n s);
_ ← modify (λ s, set_restarting ({[n]} ∪ _restarting s) s);
let done := modify (λ s, set_restarting (_restarting s ∖ {[n]}) s) in
_ ← catch
      (here ← gets (λ s, bool_decide (n ∈ processes s));
       _ ← (if here : bool then stop_anima at_ n else mret tt);
       start_anima at_ n)
      (λ err, _ ← done; raise err);
done.

(* ------------------------------------------------------------------ *)
(** ** One pass *)

(** The directories with an [identity.md], in order: those with a status file
    and whether they are enabled, and the names of the others. *)
Definition complete (d : anima_dir) : bool :=
identity_md d && match status_json d with NoFile => false | _ => true end.
Definition incomplete (d : anima_dir) : bool :=
identity_md d && match status_json d with NoFile => true | _ => false end.
Fixpoint scan (dirs : list (string * anima_dir)) : result (list (string * bool)) :=
match dirs with
| [] => Ok []
| (n, d) :: dirs =>
    if complete d then
      enabled ← read_anima_enabled (status_json d);
      rest ← scan dirs;
      Ok ((n, enabled) :: rest)
    else scan dirs
end.
Definition listing (d : gmap string anima_dir) : list (string * anima_dir) :=
omap (λ n, pair n <$> d !! n) (merge_sort str_le (elements (dom d))).

(** A process given up is started afresh when it failed a minute ago. *)
Definition recover_failed (on_disk : list (string * bool)) (n : string) : M fleet unit :=
shut ← gets _shutdown;
if shut : bool then mret tt else
here ← gets (λ s, bool_decide (n ∈ processes s));
if negb here then modify (λ s, set_failures (_permanently_failed s ∖ {[n]}) (_failed_log_times s) (_restart_counts s) s) else
if negb (default false (dget n on_disk)) then mret tt else
since ← gets (λ s, default 0%Q (_failed_log_times s !! n));
if negb (Qle_bool 60 (loop_time e n - since)) then mret tt else
_ ← modify (λ s, drop_failure n (set_processes (processes s ∖ {[n]}) s));
catch (start_anima AtRecovery n) (λ _, mret tt).

(** [restart_requested] in a status file. *)
Definition clear_request (n : string) (d : dict) (s : fleet) : fleet :=
set_animas_dir (alter (λ a, mk_dir (identity_md a) (Contents (JObj (dpop "restart_requested" d)))) n <$> animas_dir s) s.
Definition restart_if_requested (n : string) : M fleet unit :=
status ← gets (status_of n);
match status with
| NoFile | Unreadable => mret tt
| NotUtf8 => raise (ValueError "utf-8")
| Contents (JObj d) =>
    if negb (truthy (dget_none "restart_requested" d)) then mret tt else
    repairing ← gets (λ s, bool_decide (n ∈ _rag_repairs_in_progress s));
    if repairing : bool then mret tt else
    _ ← modify (clear_request n d);
    catch (restart_anima AtRequest n) (λ _, mret tt)
| Contents _ => raise (AttributeError "get")
end.

(** [set(v)], as far as names are concerned. *)
Definition hashable (v : json) : bool := match v with JList _ | JObj _ => false | _ => true end.
Definition set_of_json (v : json) : result (gset string) :=
match v with
| JList l => if all hashable l then Ok (list_to_set (omap str_of l)) else Err (TypeError "unhashable type")
| JStr s => Ok (list_to_set (chars s))
| JObj d => Ok (list_to_set (fst <$> d))
| _ => Err (TypeError "object is not iterable")
end.
Definition suspended_in (f : json_file) : gset string :=
match f with
| Contents (JObj d) => match set_of_json (dget_default "suspended_animas" (JList []) d) with Ok names => names | Err _ => ∅ end
| _ => ∅
end.
Definition governor_suspended (s : fleet) : gset string :=
if governor_enabled s then suspended_in (governor_file s) else ∅.

Definition evict (s : fleet) : fleet :=
set_stopped (filter (λ kv, Qle_bool (pass_time e - kv.2) 30 = true) (_recently_stopped s)) s.

(** [min(300.0, 60.0 * (1 + count))]. *)
Definition cooldown (count : nat) : Q :=
let c := (60 * (1 + inject_Z (Z.of_nat count)))%Q in if Qle_bool 300 c then 300%Q else c.
(** What keeps a stopped anima from being started. *)
Definition held_back (n : string) (s : fleet) : bool :=
bool_decide (n ∈ _restarting s) || bool_decide (n ∈ _starting s) || bool_decide (n ∈ _bootstrapping s) ||
bool_decide (n ∈ _rag_repairs_in_progress s) ||
from_option (λ t, negb (Qle_bool 5 (monotonic e AtStart n - t))) false (_recently_stopped s !! n).
Definition cooling (n : string) (s : fleet) : bool :=
from_option (λ t, negb (Qle_bool (cooldown (default 0 (_start_fail_counts s !! n))) (monotonic e AtStart n - t)))
  false (_start_failed_times s !! n).
Definition start_enabled (running suspended : gset string) (x : string * bool) : M fleet unit :=
let '(n, enabled) := x in
shut ← gets _shutdown;
if shut : bool then mret tt else
if negb enabled || bool_decide (n ∈ running) then mret tt else
held ← gets (held_back n);
if held : bool then mret tt else
if bool_decide (n ∈ suspended) then mret tt else
cool ← gets (cooling n);
if cool : bool then mret tt else
catch
  (_ ← start_anima AtStart n;
   modify (λ s, set_start_failures (delete n (_start_failed_times s)) (delete n (_start_fail_counts s)) s))
  (λ _, modify (λ s, set_start_failures (<[n := monotonic e AtFailure n]> (_start_failed_times s))
                       (<[n := S (default 0 (_start_fail_counts s !! n))]> (_start_fail_counts s)) s)).

(** Bootstrap and repair are waited for. *)
Definition stop_unless_busy (at_ : site) (n : string) : M fleet unit :=
busy ← gets (λ s, bool_decide (n ∈ _bootstrapping s) || bool_decide (n ∈ _rag_repairs_in_progress s));
if busy : bool then mret tt else catch (stop_anima at_ n) (λ _, mret tt).
Definition stop_disabled (running : gset string) (x : string * bool) : M fleet unit :=
let '(n, enabled) := x in
if negb enabled && bool_decide (n ∈ running) then stop_unless_busy AtDisabled n else mret tt.
Definition stop_removed (on_disk : list (string * bool)) (dirs : gmap string anima_dir) (n : string) : M fleet unit :=
if dhas n on_disk || from_option incomplete false (dirs !! n) then mret tt else stop_unless_busy AtRemoved n.

Definition _reconcile : M fleet unit :=
shut ← gets _shutdown;
if shut : bool then mret tt else
dirs ← gets animas_dir;
match dirs with
| None => mret tt
| Some dirs =>
    on_disk ← lift (scan (listing dirs));
    failed ← gets _permanently_failed;
    _ ← for_each (elements failed) (recover_failed on_disk);
    _ ← for_each (fst <$> on_disk) restart_if_requested;
    running ← gets processes;
    suspended ← gets governor_suspended;
    _ ← modify evict;
    _ ← for_each on_disk (start_enabled running suspended);
    _ ← for_each on_disk (stop_disabled running);
    for_each (elements running) (stop_removed on_disk dirs)
end.

(** [start_all] of the server's start: without the suspended animas. *)
Definition start_up (anima_names : list string) : M fleet unit :=
suspended ← gets governor_suspended;
for_each (filter (λ n, n ∉ suspended) anima_names) (λ n, catch (start_anima AtStartup n) (λ _, mret tt)).
End calls.
