(* ===== verification/FleetProps.v ===== *)
(** * What a reconciliation pass does

    A pass works on each anima as if it were alone: [anima] is what the fleet
    records of one anima ([view]), and every step on an anima simulates a
    program on its view ([local]).  The specification of a pass is therefore a
    program for one anima ([reconcile_one]), from which the table of a pass
    follows. *)

From Stdlib Require Import QArith.
From stdpp Require Import prelude strings list gmap sorting.
From S2P Require Import Prelude PyValue PyText Fleet.
Open Scope nat_scope.

(* ------------------------------------------------------------------ *)
(** ** One anima *)

Record anima := mk_anima {
  a_dir : option anima_dir;
  a_running : bool;
  a_failed : bool;
  a_failed_at : option Q;
  a_restarts : option nat;
  a_restarting : bool;
  a_starting : bool;
  a_bootstrapping : bool;
  a_repairing : bool;
  a_stopped : option Q;
  a_start_failed : option Q;
  a_start_fails : option nat
}.
Definition view (n : string) (s : fleet) : anima :=
  mk_anima (dir_of n s) (bool_decide (n ∈ processes s)) (bool_decide (n ∈ _permanently_failed s)) (_failed_log_times s !! n)
    (_restart_counts s !! n) (bool_decide (n ∈ _restarting s)) (bool_decide (n ∈ _starting s))
    (bool_decide (n ∈ _bootstrapping s)) (bool_decide (n ∈ _rag_repairs_in_progress s)) (_recently_stopped s !! n)
    (_start_failed_times s !! n) (_start_fail_counts s !! n).
(** What no step of a pass changes. *)
Definition shared (s : fleet) : bool * option (gset string) * bool * json_file :=
  (_shutdown s, dom <$> animas_dir s, governor_enabled s, governor_file s).

Definition a_status (a : anima) : json_file := from_option status_json NoFile (a_dir a).
Definition a_set_running (v : bool) (a : anima) : anima :=
  mk_anima (a_dir a) v (a_failed a) (a_failed_at a) (a_restarts a) (a_restarting a) (a_starting a) (a_bootstrapping a)
    (a_repairing a) (a_stopped a) (a_start_failed a) (a_start_fails a).
Definition a_forgive (a : anima) : anima :=
  mk_anima (a_dir a) (a_running a) false None None (a_restarting a) (a_starting a) (a_bootstrapping a)
    (a_repairing a) (a_stopped a) (a_start_failed a) (a_start_fails a).
Definition a_unmark (a : anima) : anima :=
  mk_anima (a_dir a) (a_running a) false (a_failed_at a) (a_restarts a) (a_restarting a) (a_starting a) (a_bootstrapping a)
    (a_repairing a) (a_stopped a) (a_start_failed a) (a_start_fails a).
Definition a_set_restarting (v : bool) (a : anima) : anima :=
  mk_anima (a_dir a) (a_running a) (a_failed a) (a_failed_at a) (a_restarts a) v (a_starting a) (a_bootstrapping a)
    (a_repairing a) (a_stopped a) (a_start_failed a) (a_start_fails a).
Definition a_set_stopped (v : option Q) (a : anima) : anima :=
  mk_anima (a_dir a) (a_running a) (a_failed a) (a_failed_at a) (a_restarts a) (a_restarting a) (a_starting a)
    (a_bootstrapping a) (a_repairing a) v (a_start_failed a) (a_start_fails a).
Definition a_set_start_failure (t : option Q) (c : option nat) (a : anima) : anima :=
  mk_anima (a_dir a) (a_running a) (a_failed a) (a_failed_at a) (a_restarts a) (a_restarting a) (a_starting a)
    (a_bootstrapping a) (a_repairing a) (a_stopped a) t c.
Definition a_set_status (v : json) (a : anima) : anima :=
  mk_anima ((λ d, mk_dir (identity_md d) (Contents v)) <$> a_dir a) (a_running a) (a_failed a) (a_failed_at a) (a_restarts a)
    (a_restarting a) (a_starting a) (a_bootstrapping a) (a_repairing a) (a_stopped a) (a_start_failed a) (a_start_fails a).

(* ------------------------------------------------------------------ *)
(** ** Programs on one anima *)

Section one.
Context (e : pass_env) (n : string) (shut : bool).

Definition one_start (at_ : site) : M anima unit :=
if shut : bool then mret tt else
enabled ← (λ a, (read_anima_enabled (a_status a), a));
if negb enabled then mret tt else
here ← gets (λ a, a_running a || a_starting a);
if here : bool then mret tt else
if spawns e at_ n then modify (λ a, a_set_start_failure None None (a_set_running true a))
else raise (RuntimeError "ProcessError").
Definition one_stop (at_ : site) : M anima unit :=
here ← gets a_running;
if negb here then mret tt else
if halts e at_ n then modify (λ a, a_set_stopped (Some (monotonic e at_ n)) (a_set_running false a))
else raise (RuntimeError "ProcessError").
Definition one_restart (at_ : site) : M anima unit :=
_ ← modify (λ a, if shut then a else a_forgive a);
_ ← modify (a_set_restarting true);
_ ← catch
      (here ← gets a_running;
       _ ← (if here : bool then one_stop at_ else mret tt);
       one_start at_)
      (λ err, _ ← modify (a_set_restarting false); raise err);
modify (a_set_restarting false).
Definition one_recover (enabled : bool) : M anima unit :=
if shut : bool then mret tt else
here ← gets a_running;
if negb here then modify a_unmark else
if negb enabled then mret tt else
since ← gets (λ a, default 0%Q (a_failed_at a));
if negb (Qle_bool 60 (loop_time e n - since)) then mret tt else
_ ← modify (λ a, a_forgive (a_set_running false a));
catch (one_start AtRecovery) (λ _, mret tt).
Definition one_requested : M anima unit :=
status ← gets a_status;
match status with
| NoFile | Unreadable => mret tt
| NotUtf8 => raise (ValueError "utf-8")
| Contents (JObj d) =>
    if negb (truthy (dget_none "restart_requested" d)) then mret tt else
    repairing ← gets a_repairing;
    if repairing : bool then mret tt else
    _ ← modify (a_set_status (JObj (dpop "restart_requested" d)));
    catch (one_restart AtRequest) (λ _, mret tt)
| Contents _ => raise (AttributeError "get")
end.
Definition one_evict (a : anima) : anima :=
a_set_stopped (t ← a_stopped a; if Qle_bool (pass_time e - t) 30 then Some t else None) a.
Definition a_held (a : anima) : bool :=
a_restarting a || a_starting a || a_bootstrapping a || a_repairing a ||
from_option (λ t, negb (Qle_bool 5 (monotonic e AtStart n - t))) false (a_stopped a).
Definition a_cooling (a : anima) : bool :=
from_option (λ t, negb (Qle_bool (cooldown (default 0 (a_start_fails a))) (monotonic e AtStart n - t)))
  false (a_start_failed a).
Definition one_start_enabled (enabled running suspended : bool) : M anima unit :=
if shut : bool then mret tt else
if negb enabled || running then mret tt else
held ← gets a_held;
if held : bool then mret tt else
if suspended : bool then mret tt else
cool ← gets a_cooling;
if cool : bool then mret tt else
catch (_ ← one_start AtStart; modify (a_set_start_failure None None))
  (λ _, modify (λ a, a_set_start_failure (Some (monotonic e AtFailure n)) (Some (S (default 0 (a_start_fails a)))) a)).
Definition one_stop_unless_busy (at_ : site) : M anima unit :=
busy ← gets (λ a, a_bootstrapping a || a_repairing a);
if busy : bool then mret tt else catch (one_stop at_) (λ _, mret tt).

(** What a pass does to an anima: [enabled] is [None] for one without a
    complete directory. *)
Definition one_rest (enabled : option bool) (suspended : bool) : M anima unit :=
running ← gets a_running;
_ ← modify one_evict;
match enabled with
| Some enabled =>
    _ ← one_start_enabled enabled running suspended;
    if negb enabled && running then one_stop_unless_busy AtDisabled else mret tt
| None =>
    part ← gets (λ a, from_option incomplete false (a_dir a));
    if running && negb part then one_stop_unless_busy AtRemoved else mret tt
end.
Definition reconcile_one (enabled : option bool) (suspended : bool) : M anima unit :=
failed ← gets a_failed;
_ ← (if failed : bool then one_recover (default false enabled) else mret tt);
_ ← (if bool_decide (is_Some enabled) then one_requested else mret tt);
one_rest enabled suspended.
End one.

(* ------------------------------------------------------------------ *)
(** ** Simulation *)

(** The step [m] of the fleet on the anima [n] is the step [mv] of its view,
    and leaves the other animas and what is shared alone. *)
Definition local {A} (n : string) (shut : bool) (m : M fleet A) (mv : M anima A) : Prop := ∀ s, _shutdown s = shut →
  fst (m s) = fst (mv (view n s)) ∧ view n (snd (m s)) = snd (mv (view n s)) ∧
  (∀ k, k ≠ n → view k (snd (m s)) = view k s) ∧ shared (snd (m s)) = shared s.

Lemma shared_shut s s' : shared s' = shared s → _shutdown s' = _shutdown s.
Proof. by intros [= -> _ _ _]. Qed.

Section local.
Context (n : string) (shut : bool).
Notation local := (local n shut).

Lemma local_ret {A} (a : A) : local (mret a) (mret a).
Proof. by intros s _. Qed.
Lemma local_raise {A} (err : exn) : local (raise err : M fleet A) (raise err).
Proof. by intros s _. Qed.
Lemma local_gets {A} (f : fleet → A) (g : anima → A) : (∀ s, f s = g (view n s)) → local (gets f) (gets g).
Proof. intros H s _. simpl. by rewrite H. Qed.
Lemma local_lookup {A} (f : fleet → result A) (g : anima → result A) :
  (∀ s, f s = g (view n s)) → local (λ s, (f s, s)) (λ a, (g a, a)).
Proof. intros H s _. simpl. by rewrite H. Qed.
Lemma local_modify (f : fleet → fleet) (g : anima → anima) :
  (∀ s, _shutdown s = shut → view n (f s) = g (view n s) ∧ (∀ k, k ≠ n → view k (f s) = view k s) ∧ shared (f s) = shared s) →
  local (modify f) (modify g).
Proof. intros H s Hs. destruct (H s Hs) as (H1 & H2 & H3). by split_and!. Qed.
Lemma local_bind {A B} (m : M fleet A) mv (f : A → M fleet B) fv :
  local m mv → (∀ a, local (f a) (fv a)) → local (m ≫= f) (mv ≫= fv).
Proof.
  intros Hm Hf s Hs. destruct (Hm s Hs) as (H1 & H2 & H3 & H4). unfold mbind, M_bind.
  destruct (m s) as [r s1], (mv (view n s)) as [rv a1]. simpl in *. subst rv a1.
  destruct r as [a|err]; [|done].
  destruct (Hf a s1 ltac:(by rewrite (shared_shut _ _ H4))) as (H5 & H6 & H7 & H8).
  split_and!; [done|done| |congruence]. intros k Hk. by rewrite H7, H3.
Qed.
Lemma local_catch {A} (m : M fleet A) mv (h : exn → M fleet A) hv :
  local m mv → (∀ err, local (h err) (hv err)) → local (catch m h) (catch mv hv).
Proof.
  intros Hm Hh s Hs. destruct (Hm s Hs) as (H1 & H2 & H3 & H4). unfold catch.
  destruct (m s) as [r s1], (mv (view n s)) as [rv a1]. simpl in *. subst rv a1.
  destruct r as [a|err]; [done|].
  destruct (Hh err s1 ltac:(by rewrite (shared_shut _ _ H4))) as (H5 & H6 & H7 & H8).
  split_and!; [done|done| |congruence]. intros k Hk. by rewrite H7, H3.
Qed.
Lemma local_shut {A} (f : bool → M fleet A) fv : local (f shut) fv → local (gets _shutdown ≫= f) fv.
Proof. intros H s Hs. unfold mbind, M_bind, gets. rewrite Hs. by apply H. Qed.
End local.
Create HintDb local discriminated.

(** Views of updated fleets. *)
Ltac view_tac :=
  intros; unfold view, shared, dir_of, drop_failure; simpl; split_and!;
  repeat (match goal with |- mk_anima _ _ _ _ _ _ _ _ _ _ _ _ = _ => unfold a_set_running, a_forgive, a_unmark,
    a_set_restarting, a_set_stopped, a_set_start_failure; simpl end);
  intros; try f_equal; simplify_map_eq; try (apply bool_decide_ext; set_solver); try (apply bool_decide_eq_true; set_solver);
  try (apply bool_decide_eq_false; set_solver); try done.
Ltac local_tac :=
  repeat first
    [ apply local_ret | apply local_raise | assumption | solve [auto with local nocore]
    | apply local_shut | apply local_bind; [|intros ?] | apply local_catch; [|intros ?]
    | apply local_gets; by intros s | apply local_lookup; by intros s
    | match goal with
      | |- local _ _ (match ?x with _ => _ end) _ => destruct x
      | |- local _ _ (if ?x then _ else _) _ => destruct x
      end
    | apply local_modify ].

Section steps.
Context (e : pass_env) (n : string) (shut : bool).
Notation local := (local n shut).

Lemma start_local at_ : local (start_anima e at_ n) (one_start e n shut at_).
Proof. unfold start_anima, one_start. local_tac; view_tac. Qed.
Lemma stop_local at_ : local (stop_anima e at_ n) (one_stop e n at_).
Proof. unfold stop_anima, one_stop. local_tac; view_tac. Qed.
Hint Resolve start_local stop_local : local.
Lemma restart_local at_ : local (restart_anima e at_ n) (one_restart e n shut at_).
Proof.
  unfold restart_anima, one_restart. local_tac.
  1: { intros s ->. destruct shut; [done|]. revert s. view_tac. }
  all: view_tac.
Qed.
Hint Resolve restart_local : local.
Lemma recover_local on_disk : local (recover_failed e on_disk n) (one_recover e n shut (default false (dget n on_disk))).
Proof. unfold recover_failed, one_recover. local_tac; view_tac. Qed.
Lemma requested_local : local (restart_if_requested e n) (one_requested e n shut).
Proof.
  unfold restart_if_requested, one_requested. apply local_bind; [by apply local_gets|].
  intros [| | |[]]; local_tac. intros s _. unfold view, shared, dir_of, clear_request. simpl.
  destruct (animas_dir s) as [dirs|]; simpl; [|by split_and!].
  split_and!; [by rewrite lookup_alter_eq| |by rewrite dom_alter_L]. intros k Hk. by rewrite lookup_alter_ne.
Qed.
Lemma stop_unless_busy_local at_ : local (stop_unless_busy e at_ n) (one_stop_unless_busy e n at_).
Proof. unfold stop_unless_busy, one_stop_unless_busy. local_tac. Qed.
Lemma start_enabled_local running suspended enabled :
  local (start_enabled e running suspended (n, enabled))
    (one_start_enabled e n shut enabled (bool_decide (n ∈ running)) (bool_decide (n ∈ suspended))).
Proof. unfold start_enabled, one_start_enabled. local_tac; view_tac. Qed.
End steps.
#[export] Hint Resolve stop_unless_busy_local : local.

Lemma view_evict e n s : view n (evict e s) = one_evict e (view n s) ∧ shared (evict e s) = shared s.
Proof.
  split; [|done]. unfold view, evict, one_evict, a_set_stopped. simpl. f_equal.
  rewrite map_lookup_filter. destruct (_recently_stopped s !! n) as [t|]; [|done]. simpl.
  destruct (Qle_bool _ _) eqn:E; by case_guard.
Qed.

(** A loop over different animas acts on each of them once. *)
Lemma for_each_local {X} (key : X → string) (f : X → M fleet unit) (fv : X → M anima unit) shut l s :
  NoDup (key <$> l) → _shutdown s = shut → (∀ x, x ∈ l → local (key x) shut (f x) (fv x)) →
  (∀ x, x ∈ l → fst (fv x (view (key x) s)) = Ok tt) →
  ∃ s', for_each l f s = (Ok tt, s') ∧ shared s' = shared s ∧
    (∀ x, x ∈ l → view (key x) s' = snd (fv x (view (key x) s))) ∧ (∀ k, k ∉ key <$> l → view k s' = view k s).
Proof.
  revert s. induction l as [|x l IH]; intros s Hnd Hs Hl Hok; simpl.
  { exists s. split_and!; [done..|by intros ? ?%not_elem_of_nil|done]. }
  simpl in Hnd. apply NoDup_cons in Hnd as [Hx Hnd].
  destruct (Hl x ltac:(left) s Hs) as (H1 & H2 & H3 & H4). rewrite (Hok x ltac:(left)) in H1.
  unfold mbind, M_bind. destruct (f x s) as [r s1]. simpl in *. subst r.
  assert (∀ y, y ∈ l → view (key y) s1 = view (key y) s) as Hsame.
  { intros y Hy. apply H3. intros E. apply Hx. rewrite <-E. by apply list_elem_of_fmap_2. }
  destruct (IH s1 Hnd ltac:(by rewrite (shared_shut _ _ H4)) ltac:(intros; apply Hl; by right)) as (s' & Hrun & Hsh & Hin & Hout).
  { intros y Hy. rewrite Hsame by done. apply Hok. by right. }
  exists s'. split_and!; [done|congruence| |].
  - intros y [->|Hy]%elem_of_cons; [by rewrite Hout|]. by rewrite Hin, Hsame.
  - intros k Hk. rewrite Hout by set_solver. apply H3. set_solver.
Qed.

(* ------------------------------------------------------------------ *)
(** ** The directories *)

(** Status files that are objects, or cannot be parsed. *)
Definition tolerable (f : json_file) : bool :=
  match f with NotUtf8 => false | Contents (JObj _) => true | Contents _ => false | _ => true end.
Definition tidy (s : fleet) : Prop :=
  ∀ n d, dir_of n s = Some d → complete d = true → tolerable (status_json d) = true.
(** The entry of an anima in [on_disk]. *)
Definition desired (d : option anima_dir) : option bool :=
  d ← d; if complete d then match read_anima_enabled (status_json d) with Ok b => Some b | Err _ => None end else None.

Lemma elem_of_listing dirs n d : (n, d) ∈ listing dirs ↔ dirs !! n = Some d.
Proof.
  unfold listing. rewrite list_elem_of_omap. split.
  - intros (k & _ & E). destruct (dirs !! k) eqn:Ek; simplify_eq/=. done.
  - intros E. exists n. rewrite merge_sort_Permutation, elem_of_elements, elem_of_dom, E. split; [by eexists|done].
Qed.
Lemma listing_nodup dirs : NoDup (fst <$> listing dirs).
Proof.
  unfold listing. assert (NoDup (merge_sort str_le (elements (dom dirs)))) as Hnd.
  { rewrite merge_sort_Permutation. apply NoDup_elements. }
  revert Hnd. generalize (merge_sort str_le (elements (dom dirs))). induction l as [|n l IH]; intros Hnd; simpl; [constructor|].
  apply NoDup_cons in Hnd as [Hn Hnd]. destruct (dirs !! n) as [d|]; simpl; [|by apply IH].
  constructor; [|by apply IH]. intros ([k d'] & -> & Hk)%list_elem_of_fmap. simpl in Hn.
  apply list_elem_of_omap in Hk as (m & Hm & E). destruct (dirs !! m); simplify_eq/=. done.
Qed.
Lemma scan_spec l : NoDup (fst <$> l) → (∀ n d, (n, d) ∈ l → complete d = true → status_json d ≠ NotUtf8) →
  ∃ r, scan l = Ok r ∧ NoDup (fst <$> r) ∧ (∀ n, dget n r = desired (dget n l)) ∧ (∀ n, n ∈ fst <$> r → n ∈ fst <$> l).
Proof.
  induction l as [|[n d] l IH]; intros Hnd Ht; simpl. { exists []. split_and!; [done|constructor|done|by intros ?]. }
  simpl in Hnd. apply NoDup_cons in Hnd as [Hn Hnd].
  destruct IH as (r & Hr & Hrnd & Hget & Hsub); [done|intros; eapply Ht; [by right|done]|].
  assert (dget n l = None) as Hnone.
  { destruct (dget n l) eqn:E; [|done]. exfalso. apply Hn. apply (list_elem_of_fmap_2 fst _ _ (dget_elem _ _ _ E)). }
  destruct (complete d) eqn:Hc.
  2:{ exists r. split_and!; [done..| |]; [|intros; right; by apply Hsub]. intros k. rewrite Hget. simpl.
      case_bool_decide as Hk; [|done]. subst. rewrite Hnone. simpl. by rewrite Hc. }
  assert (∃ b, read_anima_enabled (status_json d) = Ok b) as [b Hb].
  { pose proof (Ht n d ltac:(left) Hc) as Htol. destruct (status_json d) as [| | |[]]; simpl in *; eauto. done. }
  rewrite Hb, Hr. simpl. eexists. split; [reflexivity|]. split_and!.
  - simpl. constructor; [|done]. intros Hin. by apply Hn, Hsub.
  - intros k. simpl. case_bool_decide as Hk; [|apply Hget]. subst. simpl. by rewrite Hc, Hb.
  - intros k. simpl. set_solver.
Qed.
Lemma dget_listing dirs n : dget n (listing dirs) = dirs !! n.
Proof.
  destruct (dirs !! n) as [d|] eqn:E.
  - apply dget_wf; [apply listing_nodup|by apply elem_of_listing].
  - destruct (dget n (listing dirs)) as [d|] eqn:E'; [|done]. apply dget_elem, elem_of_listing in E'. congruence.
Qed.

(* ------------------------------------------------------------------ *)
(** ** The steps of a pass on one anima *)

(** A run of nested catches, by cases. *)
Ltac outcome_tac :=
  run_unfold; repeat (case_match; simplify_eq/=); repeat match goal with u : unit |- _ => destruct u end; try done.

Section outcomes.
Context (e : pass_env) (n : string) (shut : bool).

Lemma one_recover_ok enabled a : fst (one_recover e n shut enabled a) = Ok tt.
Proof. unfold one_recover. outcome_tac. Qed.
Lemma one_requested_ok a : tolerable (a_status a) = true → fst (one_requested e n shut a) = Ok tt.
Proof.
  unfold one_requested. unfold mbind at 1, M_bind at 1, gets at 1.
  destruct (a_status a) as [| | |[]]; simpl; try done. intros _. outcome_tac.
Qed.
Lemma one_start_enabled_ok enabled running suspended a : fst (one_start_enabled e n shut enabled running suspended a) = Ok tt.
Proof. unfold one_start_enabled. outcome_tac. Qed.
Lemma one_stop_unless_busy_ok at_ a : fst (one_stop_unless_busy e n at_ a) = Ok tt.
Proof. unfold one_stop_unless_busy. outcome_tac. Qed.
End outcomes.

(** No step moves a directory. *)
Lemma start_dir e n shut at_ : within (fixes a_dir) (one_start e n shut at_).
Proof. unfold one_start. within_tac; by intros ?. Qed.
Lemma recover_dir e n shut enabled : within (fixes a_dir) (one_recover e n shut enabled).
Proof.
  pose proof (start_dir e n shut). unfold one_recover. within_tac; try by intros ?.
  intros _. apply within_catch; [done|]. intros ?. apply within_ret.
Qed.

(* ------------------------------------------------------------------ *)
(** ** A pass acts on every anima as if it were alone *)

Lemma run_ok {S A B} (m : M S A) (f : A → M S B) s a : fst (m s) = Ok a → (m ≫= f) s = f a (snd (m s)).
Proof. unfold mbind, M_bind. destruct (m s) as [r s']. simpl. by intros ->. Qed.

(** The loops over a set of names, and over the entries on disk. *)
Lemma loop_names (f : string → M fleet unit) (fv : string → M anima unit) (l : list string) s :
  NoDup l → _shutdown s = false → (∀ n, local n false (f n) (fv n)) → (∀ n, n ∈ l → fst (fv n (view n s)) = Ok tt) →
  ∃ s', for_each l f s = (Ok tt, s') ∧ shared s' = shared s ∧
    ∀ n, view n s' = snd ((if bool_decide (n ∈ l) then fv n else mret tt) (view n s)).
Proof.
  intros Hnd Hs Hl Hok. destruct (for_each_local (λ n, n) f fv false l s) as (s' & Hrun & Hsh & Hin & Hout); [|done..|].
  { by rewrite list_fmap_id. }
  rewrite list_fmap_id in Hout. exists s'. split_and!; [done..|]. intros n. case_bool_decide; [by apply Hin|by apply Hout].
Qed.
Lemma loop_disk (f : string * bool → M fleet unit) (fv : string → bool → M anima unit) disk s :
  NoDup (fst <$> disk) → _shutdown s = false → (∀ n b, local n false (f (n, b)) (fv n b)) →
  (∀ n b a, fst (fv n b a) = Ok tt) →
  ∃ s', for_each disk f s = (Ok tt, s') ∧ shared s' = shared s ∧
    ∀ n, view n s' = snd (match dget n disk with Some b => fv n b | None => mret tt end (view n s)).
Proof.
  intros Hnd Hs Hl Hok.
  destruct (for_each_local fst f (λ x, fv x.1 x.2) false disk s) as (s' & Hrun & Hsh & Hin & Hout); [done..| | |].
  { intros [n b] _. apply Hl. } { intros; apply Hok. }
  exists s'. split_and!; [done..|]. intros n. destruct (dget n disk) as [b|] eqn:E.
  - apply (Hin (n, b)), dget_elem, E.
  - apply Hout. intros ([k b] & -> & Hk)%list_elem_of_fmap. simpl in E. by rewrite (dget_wf _ _ _ Hnd Hk) in E.
Qed.

(** The second half of a pass, after recovery and requests. *)
Lemma rest_local e disk dirs s : NoDup (fst <$> disk) → _shutdown s = false →
  (∀ n, dget n disk = None → a_dir (view n s) = dirs !! n) →
  ∃ s', (running ← gets processes; suspended ← gets governor_suspended; _ ← modify (evict e);
         _ ← for_each disk (start_enabled e running suspended); _ ← for_each disk (stop_disabled e running);
         for_each (elements running) (stop_removed e disk dirs)) s = (Ok tt, s') ∧ shared s' = shared s ∧
    ∀ n, view n s' = snd (one_rest e n false (dget n disk) (bool_decide (n ∈ governor_suspended s)) (view n s)).
Proof.
  intros Hnd Hs Hd. set (R := processes s). set (G := governor_suspended s).
  unfold mbind at 1, M_bind at 1, gets at 1. unfold mbind at 1, M_bind at 1, gets at 1.
  unfold mbind at 1, M_bind at 1, modify at 1. fold R G.
  destruct (loop_disk (start_enabled e R G)
    (λ n b, one_start_enabled e n false b (bool_decide (n ∈ R)) (bool_decide (n ∈ G))) disk (evict e s))
    as (s1 & E1 & Hsh1 & Hv1); [done..| | |].
  { intros; apply start_enabled_local. } { intros; apply one_start_enabled_ok. }
  unfold mbind at 1, M_bind at 1. rewrite E1. unfold mbind at 1, M_bind at 1.
  destruct (loop_disk (stop_disabled e R)
    (λ n b, if negb b && bool_decide (n ∈ R) then one_stop_unless_busy e n AtDisabled else mret tt) disk s1)
    as (s2 & -> & Hsh2 & Hv2); [done|by rewrite (shared_shut _ _ Hsh1)| | |].
  { intros n b. unfold stop_disabled. local_tac. } { intros n b a. case_match; [apply one_stop_unless_busy_ok|done]. }
  destruct (loop_names (stop_removed e disk dirs)
    (λ n, if dhas n disk || from_option incomplete false (dirs !! n) then mret tt else one_stop_unless_busy e n AtRemoved)
    (elements R) s2) as (s3 & -> & Hsh3 & Hv3);
    [apply NoDup_elements|by rewrite (shared_shut _ _ Hsh2), (shared_shut _ _ Hsh1)| | |].
  { intros n. unfold stop_removed. local_tac. } { intros n _. case_match; [done|apply one_stop_unless_busy_ok]. }
  exists s3. split_and!; [done|by rewrite Hsh3, Hsh2, Hsh1|]. intros n. rewrite Hv3, Hv2, Hv1, (proj1 (view_evict e n s)).
  assert (bool_decide (n ∈ elements R) = a_running (view n s)) as ->.
  { unfold view, R. simpl. apply bool_decide_ext. by rewrite elem_of_elements. }
  assert (bool_decide (n ∈ R) = a_running (view n s)) as -> by done.
  specialize (Hd n). unfold one_rest, dhas, mbind, M_bind, gets, modify.
  destruct (dget n disk) as [b|]; cbn iota beta.
  - generalize (one_start_enabled_ok e n false b (a_running (view n s)) (bool_decide (n ∈ G)) (one_evict e (view n s))).
    generalize (one_start_enabled e n false b (a_running (view n s)) (bool_decide (n ∈ G)) (one_evict e (view n s))).
    intros [r a1]. simpl. intros ->. by destruct (bool_decide (n ∈ processes s)).
  - rewrite <-Hd by done. change (a_dir (one_evict e (view n s))) with (a_dir (view n s)).
    by destruct (a_running (view n s)), (from_option incomplete false (a_dir (view n s))).
Qed.
Theorem reconcile_local e s : _shutdown s = false → is_Some (animas_dir s) → tidy s →
  ∃ s', _reconcile e s = (Ok tt, s') ∧ shared s' = shared s ∧
    ∀ n, view n s' =
      snd (reconcile_one e n false (desired (dir_of n s)) (bool_decide (n ∈ governor_suspended s)) (view n s)).
Proof.
  intros Hs [dirs Hdirs] Ht. unfold _reconcile. unfold mbind at 1, M_bind at 1, gets at 1. rewrite Hs.
  unfold mbind at 1, M_bind at 1, gets at 1. rewrite Hdirs. unfold mbind at 1, M_bind at 1, lift at 1.
  assert (∀ k, dir_of k s = dirs !! k) as Hdir by (intros k; unfold dir_of; by rewrite Hdirs).
  destruct (scan_spec (listing dirs)) as (disk & -> & Hnd & Hget & Hsub).
  { apply listing_nodup. }
  { intros k d Hk%elem_of_listing Hc E. rewrite <-Hdir in Hk. pose proof (Ht k d Hk Hc) as Hb. by rewrite E in Hb. }
  setoid_rewrite dget_listing in Hget. setoid_rewrite <-Hdir in Hget.
  unfold mbind at 1, M_bind at 1, gets at 1. unfold mbind at 1, M_bind at 1.
  destruct (loop_names (recover_failed e disk) (λ n, one_recover e n false (default false (dget n disk)))
    (elements (_permanently_failed s)) s) as (s1 & -> & Hsh1 & Hv1); [apply NoDup_elements|done| | |].
  { intros; apply recover_local. } { intros; apply one_recover_ok. }
  assert (∀ n, a_dir (view n s1) = dir_of n s) as Hd1.
  { intros n. rewrite Hv1. case_bool_decide; [|done]. by rewrite recover_dir. }
  assert (∀ n, n ∈ fst <$> disk ↔ is_Some (desired (dir_of n s))) as elem_of_disk.
  { intros n. rewrite <-Hget. split.
    - intros ([k b] & -> & Hk)%list_elem_of_fmap. simpl. rewrite (dget_wf _ _ _ Hnd Hk). by eexists.
    - intros [b Hb%dget_elem]. by apply (list_elem_of_fmap_2 fst _ (n, b)). }
  assert (∀ n, is_Some (desired (dir_of n s)) → fst (one_requested e n false (view n s1)) = Ok tt) as Hreq.
  { intros n [b E]. apply one_requested_ok. unfold a_status. rewrite Hd1. unfold desired in E.
    destruct (dir_of n s) as [d|] eqn:Ed; [|done]. simpl in *. destruct (complete d) eqn:Ec; [|done]. by apply (Ht n d). }
  unfold mbind at 1, M_bind at 1.
  destruct (loop_names (restart_if_requested e) (λ n, one_requested e n false) (fst <$> disk) s1) as (s2 & -> & Hsh2 & Hv2);
    [done|by rewrite (shared_shut _ _ Hsh1)| | |].
  { intros; apply requested_local. }
  { intros n Hn. apply Hreq, elem_of_disk, Hn. }
  destruct (rest_local e disk dirs s2) as (s3 & -> & Hsh3 & Hv3);
    [done|by rewrite (shared_shut _ _ Hsh2), (shared_shut _ _ Hsh1)| |].
  { intros n Hn. rewrite Hv2, bool_decide_eq_false_2; [by rewrite <-Hdir, <-Hd1|].
    intros ([k b] & -> & Hk)%list_elem_of_fmap. simpl in Hn. by rewrite (dget_wf _ _ _ Hnd Hk) in Hn. }
  exists s3. split_and!; [done|congruence|]. intros n. rewrite Hv3, Hget.
  assert (governor_suspended s2 = governor_suspended s) as ->.
  { unfold governor_suspended. assert (shared s2 = shared s) as [= _ _ -> ->] by congruence. done. }
  rewrite Hv2, (bool_decide_ext _ _ (elem_of_disk n)). specialize (Hreq n). rewrite Hv1, Hget in Hreq |- *.
  rewrite (bool_decide_ext _ _ (elem_of_elements (_permanently_failed s) n)) in Hreq |- *.
  unfold reconcile_one. erewrite run_ok by done. cbn [view a_failed snd gets].
  erewrite run_ok by (case_match; [apply one_recover_ok|done]).
  erewrite run_ok by (destruct (bool_decide_reflect (is_Some (desired (dir_of n s)))); [by apply Hreq|done]). done.
Qed.

(* ------------------------------------------------------------------ *)
(** ** The table of a pass *)

(** [restart_requested] is set. *)
Definition requested (f : json_file) : bool :=
  match f with Contents (JObj d) => truthy (dget_none "restart_requested" d) | _ => false end.
Definition busy (n : string) (s : fleet) : bool :=
  bool_decide (n ∈ _bootstrapping s) || bool_decide (n ∈ _rag_repairs_in_progress s).

(** Whether a running anima keeps its process, and whether a stopped one gets
    one, when neither recovery nor a request concerns it. *)
Definition stays (e : pass_env) (s : fleet) (n : string) : bool :=
  match desired (dir_of n s) with
  | Some true => true
  | Some false => busy n s || negb (halts e AtDisabled n)
  | None => from_option incomplete false (dir_of n s) || busy n s || negb (halts e AtRemoved n)
  end.
Definition starts (e : pass_env) (s : fleet) (n : string) : bool :=
  default false (desired (dir_of n s)) && negb (held_back e n (evict e s)) && negb (bool_decide (n ∈ governor_suspended s)) &&
  negb (cooling e n s) && spawns e AtStart n.

Lemma one_stop_unless_busy_running e n at_ a :
  a_running (snd (one_stop_unless_busy e n at_ a)) = a_running a && (a_bootstrapping a || a_repairing a || negb (halts e at_ n)).
Proof.
  unfold one_stop_unless_busy, one_stop. run_unfold. destruct (a_running a) eqn:Er, (a_bootstrapping a || a_repairing a), (halts e at_ n);
    simpl; rewrite ?Er; done.
Qed.
Lemma desired_enabled d b : desired d = Some b → read_anima_enabled (from_option status_json NoFile d) = Ok b.
Proof. unfold desired. destruct d as [d|]; simpl; [|done]. repeat case_match; congruence. Qed.
Lemma one_start_enabled_running e n b suspended a : read_anima_enabled (a_status a) = Ok b →
  a_running (snd (one_start_enabled e n false b (a_running a) suspended a)) =
  a_running a || (b && negb (a_held e n a) && negb suspended && negb (a_cooling e n a) && spawns e AtStart n).
Proof.
  intros Hen. unfold one_start_enabled, one_start. run_unfold.
  destruct b; simpl; [|by rewrite orb_false_r]. destruct (a_running a) eqn:Er; simpl; [done|].
  destruct (a_held e n a) eqn:Eh; simpl; [done|]. destruct suspended; simpl; [done|].
  destruct (a_cooling e n a); simpl; [done|]. rewrite Hen. simpl. rewrite ?Er. simpl. unfold a_held in Eh. breflect.
  repeat match goal with H : a_starting a = _ |- _ => rewrite H end. simpl. by destruct (spawns e AtStart n).
Qed.
Lemma one_start_enabled_busy e n b running suspended a :
  let a' := snd (one_start_enabled e n false b running suspended a) in
  a_bootstrapping a' = a_bootstrapping a ∧ a_repairing a' = a_repairing a.
Proof. unfold one_start_enabled, one_start. run_unfold. by repeat (case_match; simplify_eq/=). Qed.
Lemma one_rest_running e n suspended a :
  a_running (snd (one_rest e n false (desired (a_dir a)) suspended a)) =
  if a_running a
  then match desired (a_dir a) with
       | Some true => true
       | Some false => a_bootstrapping a || a_repairing a || negb (halts e AtDisabled n)
       | None => from_option incomplete false (a_dir a) || (a_bootstrapping a || a_repairing a) || negb (halts e AtRemoved n)
       end
  else default false (desired (a_dir a)) && negb (a_held e n (one_evict e a)) && negb suspended && negb (a_cooling e n a) &&
       spawns e AtStart n.
Proof.
  unfold one_rest. erewrite run_ok by done. cbn [gets snd]. erewrite run_ok by done. cbn [modify snd].
  set (a1 := one_evict e a). assert (a_running a1 = a_running a ∧ a_cooling e n a1 = a_cooling e n a) as [Er Ec] by done.
  destruct (desired (a_dir a)) as [b|] eqn:Edes.
  - erewrite run_ok by apply one_start_enabled_ok. pose proof (desired_enabled _ _ Edes) as Hen.
    pose proof (one_start_enabled_running e n b suspended a1 Hen) as Hrun.
    destruct (one_start_enabled_busy e n b (a_running a) suspended a1) as [Hb Hr]. rewrite Er, Ec in Hrun.
    set (a2 := snd (one_start_enabled _ _ _ _ _ _ _)) in *.
    destruct (negb b && a_running a) eqn:Eb; [rewrite one_stop_unless_busy_running, Hrun, Hb, Hr|cbn [mret M_ret snd]; rewrite Hrun];
      by destruct b, (a_running a).
  - erewrite run_ok by done. cbn [gets snd]. change (a_dir a1) with (a_dir a).
    destruct (a_running a) eqn:Er', (from_option incomplete false (a_dir a)); cbn [negb andb orb default];
      rewrite ?one_stop_unless_busy_running; cbn [mret M_ret snd]; rewrite ?Er; done.
Qed.
(** An anima that no recovery and no request concerns. *)
Lemma reconcile_one_quiet e n enabled suspended a : a_failed a && a_running a = false →
  requested (a_status a) = false → tolerable (a_status a) = true ∨ enabled = None →
  ∃ a', snd (reconcile_one e n false enabled suspended a) = snd (one_rest e n false enabled suspended a') ∧
    (a' = a ∨ a' = a_unmark a).
Proof.
  intros Hf Hr Ht. set (a' := if a_failed a then a_unmark a else a).
  assert (a_status a' = a_status a) as Es by (unfold a'; by case_match).
  exists a'. split; [|unfold a'; case_match; auto]. unfold reconcile_one. erewrite run_ok by done. cbn [gets snd].
  erewrite (run_ok _ _ a).
  2:{ instantiate (1 := tt). destruct (a_failed a); [apply one_recover_ok|done]. }
  assert (snd ((if a_failed a then one_recover e n false (default false enabled) else mret ()) a) = a') as ->.
  { unfold a'. destruct (a_failed a); [|done]. unfold one_recover. run_unfold. simpl in Hf. by rewrite Hf. }
  assert ((if bool_decide (is_Some enabled) then one_requested e n false else mret ()) a' = (Ok tt, a')) as E.
  { case_bool_decide; [|done]. destruct Ht as [Ht| ->]; [|by destruct H]. rewrite <-Es in Hr, Ht.
    unfold one_requested. unfold mbind, M_bind, gets. destruct (a_status a') as [| | |[]]; simpl in *; try done. by rewrite Hr. }
  erewrite run_ok by by rewrite E. by rewrite E.
Qed.
(** A process given up is started afresh, and a requested restart is done once. *)
Lemma reconcile_one_recovers e n suspended a : a_failed a = true → a_running a = true → desired (a_dir a) = Some true →
  requested (a_status a) = false → tolerable (a_status a) = true → Qle_bool 60 (loop_time e n - default 0%Q (a_failed_at a)) = true →
  a_starting a = false → spawns e AtRecovery n = true →
  let a' := snd (reconcile_one e n false (desired (a_dir a)) suspended a) in a_running a' = true.
Proof.
  intros Hf Hr Hd Hq Ht Hw Hs Hsp. unfold reconcile_one. erewrite run_ok by done. cbn [gets snd]. rewrite Hf.
  erewrite run_ok by apply one_recover_ok.
  set (a1 := snd (one_recover _ _ _ _ _)).
  assert (a1 = a_set_start_failure None None (a_set_running true (a_forgive (a_set_running false a)))) as E1.
  { unfold a1, one_recover, one_start. rewrite Hd. run_unfold. rewrite Hr. change (default false (Some true)) with true. cbn [negb]. rewrite Hw.
    cbn [negb]. change (a_status (a_forgive (a_set_running false a))) with (a_status a).
    rewrite (desired_enabled _ _ Hd : read_anima_enabled (a_status a) = Ok true).
    cbn. by rewrite Hs, Hsp. }
  assert ((if bool_decide (is_Some (desired (a_dir a))) then one_requested e n false else mret ()) a1 = (Ok tt, a1)) as E.
  { rewrite Hd. change (bool_decide (is_Some (Some true))) with true. unfold one_requested, mbind, M_bind, gets.
    assert (a_status a1 = a_status a) as -> by by rewrite E1.
    destruct (a_status a) as [| | |[]]; simpl in *; try done. by rewrite Hq. }
  erewrite run_ok by by rewrite E. rewrite E. cbn [snd].
  assert (a_dir a1 = a_dir a) as <- by by rewrite E1. rewrite one_rest_running.
  assert (a_running a1 = true ∧ a_dir a1 = a_dir a) as [-> ->] by by rewrite E1. by rewrite Hd.
Qed.
Lemma desired_pop d m : status_json d = Contents (JObj m) →
  desired (Some (mk_dir (identity_md d) (Contents (JObj (dpop "restart_requested" m))))) = desired (Some d).
Proof.
  intros E. unfold desired, complete. simpl. rewrite E. unfold dget_default. by rewrite dget_dpop_ne.
Qed.
Lemma one_requested_restarts e n a : desired (a_dir a) = Some true →
  requested (a_status a) = true → a_repairing a = false → a_starting a = false → halts e AtRequest n = true →
  spawns e AtRequest n = true →
  ∃ a1, one_requested e n false a = (Ok tt, a1) ∧ a_running a1 = true ∧ desired (a_dir a1) = desired (a_dir a).
Proof.
  intros Hd Hq Hrep Hs Hh Hsp. unfold a_status in Hq. destruct (a_dir a) as [d|] eqn:Ed; [|done]. simpl in Hq.
  destruct (status_json d) as [| | |[| | | | | |m]] eqn:Em; try done. simpl in Hq.
  pose proof (desired_pop d m Em) as Hpop. pose proof (desired_enabled _ _ (eq_trans Hpop Hd)) as Hen. simpl in Hen.
  destruct a as [dir run f fa rs rsg st bo rep sto sf sfs]. simpl in *. subst dir rep st.
  unfold one_requested, a_status. run_unfold. simpl. rewrite Em, Hq. simpl. unfold one_restart, one_stop, one_start. run_unfold.
  destruct run; simpl; rewrite ?Hh; unfold a_status; simpl; unfold read_anima_enabled in Hen; injection Hen as ->; simpl;
    rewrite Hsp; (eexists; split_and!; [done..|]); rewrite Em in Hpop; exact Hpop.
Qed.
Lemma reconcile_one_restarts e n suspended a : a_failed a = false → desired (a_dir a) = Some true →
  requested (a_status a) = true → a_repairing a = false → a_starting a = false → halts e AtRequest n = true →
  spawns e AtRequest n = true →
  a_running (snd (reconcile_one e n false (desired (a_dir a)) suspended a)) = true.
Proof.
  intros Hf Hd Hq Hrep Hs Hh Hsp. destruct (one_requested_restarts e n a) as (a1 & E & Er & Ed); try done.
  unfold reconcile_one. erewrite run_ok by done. cbn [gets snd]. rewrite Hf. erewrite run_ok by done. cbn [mret M_ret snd].
  rewrite (bool_decide_eq_true_2 (is_Some (desired (a_dir a)))) by by rewrite Hd.
  erewrite run_ok by by rewrite E. rewrite E. cbn [snd]. by rewrite <-Ed, one_rest_running, Er, Ed, Hd.
Qed.


(* ------------------------------------------------------------------ *)
(** ** A status file that is not an object *)

Lemma unrequested_step e n s : status_of n s ≠ NotUtf8 → requested (status_of n s) = false →
  restart_if_requested e n s = ((if tolerable (status_of n s) then Ok tt else Err (AttributeError "get")), s).
Proof.
  unfold restart_if_requested, mbind, M_bind, gets. destruct (status_of n s) as [| | |[]]; simpl; try done. by intros _ ->.
Qed.
Lemma unrequested_loop e l s n : (∀ k, k ∈ l → status_of k s ≠ NotUtf8 ∧ requested (status_of k s) = false) →
  n ∈ l → tolerable (status_of n s) = false → for_each l (restart_if_requested e) s = (Err (AttributeError "get"), s).
Proof.
  intros Hl Hn Hb. induction l as [|k l IH]; [by apply not_elem_of_nil in Hn|]. simpl. unfold mbind, M_bind.
  destruct (Hl k ltac:(left)) as [Hu Hq]. rewrite unrequested_step by done.
  destruct (tolerable (status_of k s)) eqn:E; [|done]. apply IH; [intros; apply Hl; by right|].
  apply elem_of_cons in Hn as [->|Hn]; [congruence|done].
Qed.
(** [read_anima_enabled] takes an anima whose status file is JSON but not an
    object for enabled; the pass asks the same file for a requested restart,
    fails, and does nothing for any anima, at this turn and at every other. *)
Theorem malformed_status_blocks e s n d v : _shutdown s = false → dir_of n s = Some d → identity_md d = true →
  status_json d = Contents v → tolerable (Contents v) = false →
  _permanently_failed s = ∅ →
  (∀ k d', dir_of k s = Some d' → status_json d' ≠ NotUtf8 ∧ requested (status_json d') = false) →
  read_anima_enabled (status_json d) = Ok true ∧ _reconcile e s = (Err (AttributeError "get"), s).
Proof.
  intros Hs Hd Hid Hst Hb Hf Hall. split; [rewrite Hst; by destruct v|].
  unfold _reconcile. unfold mbind at 1, M_bind at 1, gets at 1. rewrite Hs.
  unfold mbind at 1, M_bind at 1, gets at 1. unfold dir_of in Hd. destruct (animas_dir s) as [dirs|] eqn:Hdirs; [|done].
  assert (∀ k, dir_of k s = dirs !! k) as Hdir by (intros k; unfold dir_of; by rewrite Hdirs).
  unfold mbind at 1, M_bind at 1, lift at 1.
  destruct (scan_spec (listing dirs)) as (disk & -> & Hnd & Hget & Hsub).
  { apply listing_nodup. } { intros k d' Hk%elem_of_listing _. rewrite <-Hdir in Hk. by eapply Hall. }
  unfold mbind at 1, M_bind at 1, gets at 1. rewrite Hf, elements_empty. unfold mbind at 1, M_bind at 1. cbn [for_each mret M_ret].
  unfold mbind at 1, M_bind at 1. rewrite (unrequested_loop e (fst <$> disk) s n); [done| | |].
  - intros k Hk%Hsub. apply list_elem_of_fmap in Hk as ([k' d'] & -> & Hk%elem_of_listing). simpl in *. rewrite <-Hdir in Hk.
    unfold status_of. rewrite Hk. by eapply Hall.
  - assert (is_Some (dget n disk)) as [b Hb'%dget_elem]; [|by apply (list_elem_of_fmap_2 fst _ (n, b))].
    rewrite Hget, dget_listing. simpl in Hd. rewrite Hd. unfold desired, complete. simpl. rewrite Hid, Hst. destruct v; by eexists.
  - unfold status_of. rewrite Hdir. simpl in Hd. rewrite Hd. simpl. by rewrite Hst.
Qed.
