(* ===== verification/Governor.v ===== *)
(** * The usage governor ([server/usage_governor.py])

    Every check fetches the usage of the providers, evaluates a policy (a JSON
    file) and suspends the animas of providers that run low by stopping their
    processes; it resumes them when the usage allows.  Its state is
    [GovernorState] beside the fleet ([Fleet]); [usage_governor_state.json] is
    the fleet's [governor_file], which the reconciliation reads.

    What the fetches and the new login return, the clock, and how starts and
    stops end are arguments of a check.  Reasons are data, rendered by the
    parameter [Texts]; the notices to supervisors and humans are recorded, not
    sent.  Numbers are exact.  The file is one [save] wrote. *)

From Stdlib Require Import QArith.
From stdpp Require Import prelude strings list gmap sorting.
From S2P Require Import Prelude PyValue PyText Fleet.
Open Scope nat_scope.

(* ------------------------------------------------------------------ *)
(** ** Data *)

Inductive reason_item :=
| BelowThreshold (provider window : string) (remaining below : Q) (level : json)
| OverPace (provider window : string) (remaining time_pct deficit : Q) (level : json)
| BelowFloor (provider window : string) (remaining floor : Q)
| Unavailable (provider : string) (error : json) (kept : list string).
(** The text of the reasons of a check, and [datetime.fromisoformat(v).timestamp()]. *)
Class Texts := { reasons_text : list reason_item → string; timestamp_of : string → option Q }.

Record GovernorState := mk_governor {
  suspended_animas : list string;
  reason : string;
  since : string;
  _relogin_timestamps : gmap string (list Q);
  _relogin_cooldown_until : gmap string Q
}.
(** The server: the fleet, the governor, and the notices sent about suspensions. *)
Record server := mk_server { fl : fleet; gov : GovernorState; notices : list (string * string) }.
Definition set_fl (v : fleet) (s : server) : server := mk_server v (gov s) (notices s).
Definition set_gov (v : GovernorState) (s : server) : server := mk_server (fl s) v (notices s).
Definition in_fleet {A} (m : M fleet A) : M server A := λ s, let '(r, f) := m (fl s) in (r, set_fl f s).

(** What one check finds. *)
Record check_env := mk_check_env {
  fetched : string → dict;
  relogin_result : dict;
  refetched : dict;
  check_time : Q;
  relogin_time : Q;
  now : Q;
  since_text : string;
  has_supervisor : bool;
  calls : pass_env
}.

Definition _CREDENTIAL_TO_PROVIDER : list (string * string) :=
  [("anthropic", "claude"); ("openai", "openai"); ("nanogpt", "nanogpt")].
Definition PROVIDERS : list string := ["claude"; "openai"; "nanogpt"].
Definition _RELOGIN_MAX_PER_HOUR : nat := 3.
Definition _RELOGIN_COOLDOWN_SECONDS : Q := 600.

Definition deficit_rule (above level : Z) : json := JObj [("deficit_above", JInt above); ("activity_level", JInt level)].
Definition time_window : json := JObj
  [("mode", JStr "time_proportional"); ("deficit_rules", JList [deficit_rule 0 60; deficit_rule 10 30; deficit_rule 20 10])].
Definition DEFAULT_POLICY : dict :=
  [("enabled", JBool true); ("check_interval_seconds", JInt 120); ("hard_floor_pct", JInt 15);
   ("providers", JObj
     [("claude", JObj [("five_hour", time_window); ("seven_day", time_window)]);
      ("openai", JObj [("5h", time_window); ("Week", time_window)]);
      ("nanogpt", JObj [("Week", time_window)])]);
   ("suspend_thresholds", JObj [("non_essential_below", JInt 30); ("all_except_coo_below", JInt 15)]);
   ("coo_anima", JStr "sakura"); ("essential_animas", JList [JStr "sakura"])].

(* ------------------------------------------------------------------ *)
(** ** Values *)

Definition num (v : json) : result Q := match num_of v with Some q => Ok q | None => Err (TypeError "number") end.
Definition obj (v : json) : result dict := match v with JObj d => Ok d | _ => Err (AttributeError "get") end.
Definition iter (v : json) : result (list json) :=
  match v with
  | JList l => Ok l
  | JStr s => Ok (JStr <$> chars s)
  | JObj d => Ok (JStr ∘ fst <$> d)
  | _ => Err (TypeError "object is not iterable")
  end.
Definition qlt (a b : Q) : bool := negb (Qle_bool b a).

(** [rule[key]] as a number, with the rule. *)
Definition keyed (key : string) (v : json) : result (Q * dict) :=
  match v with
  | JObj d => match dget key d with Some k => q ← num k; Ok (q, d) | None => Err (KeyError key) end
  | _ => Err (TypeError "indices")
  end.
Fixpoint all_keyed (key : string) (l : list json) : result (list (Q * dict)) :=
  match l with
  | [] => Ok []
  | v :: l => x ← keyed key v; xs ← all_keyed key l; Ok (x :: xs)
  end.
(** [sorted], which keeps the order of equals. *)
Fixpoint insert_by (before : Q → Q → bool) (x : Q * dict) (l : list (Q * dict)) : list (Q * dict) :=
  match l with
  | [] => [x]
  | y :: l' => if before x.1 y.1 then x :: l else y :: insert_by before x l'
  end.
Definition sort_rules (before : Q → Q → bool) (l : list (Q * dict)) : list (Q * dict) := foldr (insert_by before) [] l.

(* ------------------------------------------------------------------ *)
(** ** Evaluation of a policy *)

Section governor.
Context `{Texts}.

Definition _parse_resets_at (v : json) : option Q :=
match num_of v, v with
| Some q, _ => Some (if qlt q 1000000000000 then q else q / 1000)%Q
| None, JStr s => timestamp_of s
| None, _ => None
end.
Definition _time_remaining_pct (now resets : Q) (window_seconds : json) : result Q :=
let remaining := (resets - now)%Q in
if Qle_bool remaining 0 then Ok 0%Q else
w ← num window_seconds;
let pct := (remaining / w * 100)%Q in
Ok (if qlt 100 pct then 100%Q else pct).

(** The level is Python's [None] ([JNull]) when no rule applies. *)
Definition level_of (rule : dict) : result json :=
match dget "activity_level" rule with Some v => Ok v | None => Err (KeyError "activity_level") end.
Definition _evaluate_threshold (remaining : Q) (thresholds : json) (p w : string) : result (json * option reason_item) :=
l ← iter thresholds;
l ← all_keyed "remaining_below" l;
match filter (λ r, qlt remaining r.1 = true) (sort_rules Qle_bool l) with
| [] => Ok (JNull, None)
| r :: _ => level ← level_of r.2; Ok (level, Some (BelowThreshold p w remaining r.1 level))
end.
Definition _evaluate_time_proportional (now remaining : Q) (window config : dict) (p w : string) :
  result (json * option reason_item) :=
match _parse_resets_at (dget_none "resets_at" window) with
| None => Ok (JNull, None)
| Some resets =>
    let seconds := dget_none "window_seconds" window in
    if negb (truthy seconds) then Ok (JNull, None) else
    time_pct ← _time_remaining_pct now resets seconds;
    let deficit := (time_pct - remaining)%Q in
    if Qle_bool deficit 0 then Ok (JNull, None) else
    l ← iter (dget_default "deficit_rules" (JList []) config);
    l ← all_keyed "deficit_above" l;
    match filter (λ r, Qle_bool r.1 deficit = true) (sort_rules (λ a b, Qle_bool b a) l) with
    | [] => Ok (JNull, None)
    | r :: _ => level ← level_of r.2; Ok (level, Some (OverPace p w remaining time_pct deficit level))
    end
end.
Definition _evaluate_hard_floor (remaining : Q) (hard_floor : json) (p w : string) : result (json * option reason_item) :=
floor ← num hard_floor;
Ok (if qlt remaining floor then (JInt 10, Some (BelowFloor p w remaining floor)) else (JNull, None)).

(** The rules of one window, by the form of its configuration. *)
Definition evaluate_window (now remaining : Q) (window : dict) (config : json) (p w : string) :
  result (json * option reason_item) :=
match config with
| JList _ => _evaluate_threshold remaining config p w
| JObj c =>
    if py_eq (dget_default "mode" (JStr "threshold") c) (JStr "time_proportional")
    then _evaluate_time_proportional now remaining window c p w
    else _evaluate_threshold remaining (dget_default "rules" (JList []) c) p w
| _ => Ok (JNull, None)
end.

Record worst := mk_worst { worst_remaining : Q; worst_level : json; worst_reason : option reason_item }.
Definition _update_worst (x : json * option reason_item) (st : worst) : result worst :=
match x.1, worst_level st with
| JNull, _ => Ok st
| _, JNull => Ok (mk_worst (worst_remaining st) x.1 x.2)
| _, _ => a ← num x.1; b ← num (worst_level st); Ok (if qlt a b then mk_worst (worst_remaining st) x.1 x.2 else st)
end.
Definition window_step (now : Q) (hard_floor : json) (p : string) (data : dict) (st : worst) (c : string * json) : result worst :=
match dget_none c.1 data with
| JObj window =>
    match window, dget_none "remaining" window with
    | [], _ | _, JNull => Ok st
    | _, v =>
        r ← num v;
        let st := mk_worst (if qlt r (worst_remaining st) then r else worst_remaining st) (worst_level st) (worst_reason st) in
        x ← evaluate_window now r window c.2 p c.1;
        st ← _update_worst x st;
        y ← _evaluate_hard_floor r hard_floor p c.1;
        _update_worst y st
    end
| _ => Ok st
end.
Fixpoint windows (now : Q) (hard_floor : json) (p : string) (data : dict) (st : worst) (l : dict) : result worst :=
match l with
| [] => Ok st
| c :: l => st ← window_step now hard_floor p data st c; windows now hard_floor p data st l
end.
Definition _provider_usage_fetch_failed (data : dict) : bool := truthy (dget_none "error" data).
Definition _evaluate_provider_remaining (now : Q) (data policy : dict) (p : string) : result worst :=
providers ← obj (dget_default "providers" (JObj []) policy);
let rules := dget_default p (JObj []) providers in
if _provider_usage_fetch_failed data then Ok (mk_worst 100 JNull None) else
match rules with
| JObj l => windows now (dget_default "hard_floor_pct" (JInt 15) policy) p data (mk_worst 100 JNull None) l
| _ => Err (AttributeError "items")
end.

Definition _animas_to_suspend (remaining : Q) (policy : dict) (names : list string) : result (list string) :=
thresholds ← obj (dget_default "suspend_thresholds" (JObj []) policy);
essential ← set_of_json (dget_default "essential_animas" (JList []) policy);
let coo := dget_default "coo_anima" (JStr "sakura") policy in
all_below ← num (dget_default "all_except_coo_below" (JInt 15) thresholds);
if qlt remaining all_below then Ok (filter (λ n, py_eq (JStr n) coo = false) names) else
non_essential_below ← num (dget_default "non_essential_below" (JInt 30) thresholds);
if qlt remaining non_essential_below then Ok (filter (λ n, n ∉ essential) names) else Ok [].

(* ------------------------------------------------------------------ *)
(** ** Animas and their providers *)

Definition _read_anima_credential (f : json_file) : json :=
match f with Contents (JObj d) => dget_default "credential" (JStr "") d | _ => JStr "" end.
Definition provider_of (credential : json) : result string :=
match credential with
| JStr c => Ok (default "local" (dget c _CREDENTIAL_TO_PROVIDER))
| JList _ | JObj _ => Err (TypeError "unhashable type")
| _ => Ok "local"
end.
Fixpoint _classify_animas (f : fleet) (names : list string) : result (list (string * string)) :=
match names with
| [] => Ok []
| n :: names =>
    p ← provider_of (_read_anima_credential (status_of n f));
    rest ← _classify_animas f names;
    Ok ((n, p) :: rest)
end.
Definition _get_all_anima_names (e : check_env) (s : server) : list string :=
merge_sort str_le (elements ((if has_supervisor e then processes (fl s) else ∅) ∪ list_to_set (suspended_animas (gov s)))).

(** The verdict on one provider: whom to suspend, and why. *)
Definition judge_provider (e : check_env) (policy data : dict) (p : string) (suspended names : list string) :
  result (list string * list reason_item) :=
match names with
| [] => Ok ([], [])
| _ =>
    if _provider_usage_fetch_failed data then
      let retained := filter (λ n, n ∈ suspended) names in
      Ok (retained, [Unavailable p (dget_none "error" data) retained])
    else
      w ← _evaluate_provider_remaining (now e) data policy p;
      l ← _animas_to_suspend (worst_remaining w) policy names;
      Ok (l, option_list (worst_reason w))
end.
Fixpoint judge (e : check_env) (policy : dict) (usage : string → dict) (suspended : list string)
  (groups : list (string * string)) (ps : list string) : result (list string * list reason_item) :=
match ps with
| [] => Ok ([], [])
| p :: ps =>
    x ← judge_provider e policy (usage p) p suspended (fst <$> filter (λ g, g.2 = p) groups);
    y ← judge e policy usage suspended groups ps;
    Ok (x.1 ++ y.1, x.2 ++ y.2)
end.

(* ------------------------------------------------------------------ *)
(** ** New logins *)

Definition can_relogin (provider : string) (t : Q) (g : GovernorState) : bool * GovernorState :=
if qlt t (default 0%Q (_relogin_cooldown_until g !! provider)) then (false, g) else
let recent := filter (λ u, qlt (t - u) 3600 = true) (default [] (_relogin_timestamps g !! provider)) in
(length recent <? _RELOGIN_MAX_PER_HOUR,
 mk_governor (suspended_animas g) (reason g) (since g) (<[provider := recent]> (_relogin_timestamps g)) (_relogin_cooldown_until g)).
Definition record_relogin (provider : string) (t : Q) (success : bool) (g : GovernorState) : GovernorState :=
mk_governor (suspended_animas g) (reason g) (since g)
  (<[provider := default [] (_relogin_timestamps g !! provider) ++ [t]]> (_relogin_timestamps g))
  (if success then _relogin_cooldown_until g
   else <[provider := (t + _RELOGIN_COOLDOWN_SECONDS)%Q]> (_relogin_cooldown_until g)).
(** The usage after a new login, when Claude's cannot be fetched. *)
Definition fetch_usage (e : check_env) (g : GovernorState) : (string → dict) * GovernorState :=
let again := match dget_default "error" (JStr "") (fetched e "claude") with
             | JStr err => str_in err ["rate_limited"; "unauthorized"; "no_credentials"]
             | _ => false
             end in
if negb again then (fetched e, g) else
let '(allowed, g) := can_relogin "claude" (check_time e) g in
if negb allowed then (fetched e, g) else
let success := truthy (dget_none "success" (relogin_result e)) in
let g := record_relogin "claude" (relogin_time e) success g in
((λ p, if success && bool_decide (p = "claude") then refetched e else fetched e p), g).

(* ------------------------------------------------------------------ *)
(** ** A check *)

Definition resume_one (e : check_env) (n : string) : M server unit :=
catch
  (here ← gets (λ s, bool_decide (n ∈ processes (fl s)));
   if here : bool then mret tt else in_fleet (start_anima (calls e) AtResume n))
  (λ _, mret tt).
(** A notice goes out for an anima that was not suspended before. *)
Definition _notify_supervisor (n text : string) : M server unit :=
modify (λ s, mk_server (fl s) (gov s) (notices s ++ [(n, text)])).
Definition suspend_one (e : check_env) (newly : gset string) (n : string) : M server unit :=
catch
  (here ← gets (λ s, bool_decide (n ∈ processes (fl s)));
   if negb here then mret tt else
   _ ← in_fleet (stop_anima (calls e) AtSuspend n);
   text ← gets (λ s, reason (gov s));
   if bool_decide (n ∈ newly) then _notify_supervisor n text else mret tt)
  (λ _, mret tt).
Definition set_suspended (v : list string) (g : GovernorState) : GovernorState :=
mk_governor v (reason g) (since g) (_relogin_timestamps g) (_relogin_cooldown_until g).
Definition _apply_suspensions (e : check_env) (target : gset string) : M server unit :=
if negb (has_supervisor e) then mret tt else
current ← gets (λ s, list_to_set (suspended_animas (gov s)));
_ ← for_each (elements (current ∖ target)) (resume_one e);
_ ← for_each (elements target) (suspend_one e (target ∖ current));
modify (λ s, set_gov (set_suspended (merge_sort str_le (elements target)) (gov s)) s).

Definition saved (g : GovernorState) : json_file :=
Contents (JObj [("suspended_animas", JList (JStr <$> suspended_animas g)); ("reason", JStr (reason g)); ("since", JStr (since g))]).
Definition save (s : server) : server := set_fl (set_governor_file (saved (gov s)) (fl s)) s.
(** [_load], of a file written by [save]. *)
Definition load (f : json_file) : GovernorState :=
match f with
| Contents (JObj d) =>
    mk_governor (match dget_none "suspended_animas" d with JList l => omap str_of l | _ => [] end)
      (default "" (str_of (dget_default "reason" (JStr "") d))) (default "" (str_of (dget_default "since" (JStr "") d))) ∅ ∅
| _ => mk_governor [] "" "" ∅ ∅
end.

Definition explain (e : check_env) (l : list string) (reasons : list reason_item) (g : GovernorState) : GovernorState :=
mk_governor (suspended_animas g) (match reasons with [] => "" | _ => reasons_text reasons end)
  (match l with [] => "" | _ => str_or (since g) (since_text e) end)
  (_relogin_timestamps g) (_relogin_cooldown_until g).
Definition verdict (e : check_env) (policy : dict) (usage : string → dict) (s : server) : result (list string * list reason_item) :=
groups ← _classify_animas (fl s) (_get_all_anima_names e s);
judge e policy usage (suspended_animas (gov s)) groups PROVIDERS.
Definition _tick (e : check_env) (policy : dict) : M server unit :=
usage ← (λ s, let '(u, g) := fetch_usage e (gov s) in (Ok u, set_gov g s));
x ← (λ s, (verdict e policy usage s, s));
_ ← _apply_suspensions e (list_to_set x.1);
modify (λ s, save (set_gov (explain e x.1 x.2 (gov s)) s)).

Definition load_policy (f : json_file) : json :=
match f with Contents v => v | _ => JObj DEFAULT_POLICY end.
(** One turn of [_loop]; an exception ends the turn. *)
Definition loop_once (e : check_env) (policy_file : json_file) : M server unit :=
catch
  (policy ← lift (obj (load_policy policy_file));
   if negb (truthy (dget_default "enabled" (JBool true) policy)) then mret tt else _tick e policy)
  (λ _, mret tt).
End governor.
