(* ===== verification/GovernorProps.v ===== *)
(** * What the governor does

    The number of new logins is bounded; a check suspends exactly whom the
    policy names and resumes the others; of a window's rules only the window
    matters to that; a notice carries the reason of the check before; and the
    governor and the reconciliation together run exactly the animas that are
    enabled and not suspended. *)

From Stdlib Require Import QArith Lqa.
From stdpp Require Import prelude strings list gmap sorting.
From S2P Require Import Prelude PyValue PyText Fleet FleetProps Governor.
Open Scope nat_scope.

Lemma qlt_true a b : qlt a b = true ↔ (a < b)%Q.
Proof.
  unfold qlt. rewrite negb_true_iff. split.
  - intros E. apply Qnot_le_lt. intros Hle%Qle_bool_iff. congruence.
  - intros E. destruct (Qle_bool b a) eqn:E'; [|done]. apply Qle_bool_iff in E'. lra.
Qed.
Lemma qlt_false a b : qlt a b = false ↔ (b <= a)%Q.
Proof. unfold qlt. rewrite negb_false_iff. apply Qle_bool_iff. Qed.

(* ------------------------------------------------------------------ *)
(** ** New logins *)

(** Starts and stops do not touch the governor. *)
Lemma in_fleet_gov {A} (m : M fleet A) : within (fixes gov) (in_fleet m).
Proof. intros s. unfold in_fleet. by destruct (m (fl s)). Qed.
Lemma resume_gov e n : within (fixes gov) (resume_one e n).
Proof.
  unfold resume_one. apply within_catch; [|by within_tac]. apply within_bind; [apply within_gets|].
  intros []; [apply within_ret|apply in_fleet_gov].
Qed.
Lemma suspend_gov e newly n : within (fixes gov) (suspend_one e newly n).
Proof.
  unfold suspend_one. apply within_catch; [|by within_tac]. apply within_bind; [apply within_gets|].
  intros []; [|apply within_ret]. apply within_bind; [apply in_fleet_gov|]. intros _. apply within_bind; [apply within_gets|].
  intros text. case_match; [|apply within_ret]. by apply within_modify.
Qed.

Section logins.
Context `{Texts}.

Definition claude_times (g : GovernorState) : list Q := default [] (_relogin_timestamps g !! "claude").
Definition claude_until (g : GovernorState) : Q := default 0%Q (_relogin_cooldown_until g !! "claude").

(** The login a turn of the loop makes, if any: when, and whether it worked. *)
Definition login (e : check_env) (policy_file : json_file) (s : server) : list (Q * bool) :=
match load_policy policy_file with
| JObj policy =>
    if negb (truthy (dget_default "enabled" (JBool true) policy)) then [] else
    let again := match dget_default "error" (JStr "") (fetched e "claude") with
                 | JStr err => str_in err ["rate_limited"; "unauthorized"; "no_credentials"]
                 | _ => false
                 end in
    if again && (can_relogin "claude" (check_time e) (gov s)).1
    then [(relogin_time e, truthy (dget_none "success" (relogin_result e)))] else []
| _ => []
end.
Fixpoint logins (l : list (check_env * json_file)) (s : server) : list (Q * bool) :=
match l with
| [] => []
| (e, p) :: l => login e p s ++ logins l (snd (loop_once e p s))
end.
(** Checks come one after another. *)
Fixpoint chronological (c : Q) (l : list (check_env * json_file)) : Prop :=
match l with
| [] => True
| (e, _) :: l => (c <= check_time e)%Q ∧ (check_time e <= relogin_time e)%Q ∧ chronological (relogin_time e) l
end.

(** What of the state bears on logins. *)
Definition login_part (s : server) : gmap string (list Q) * gmap string Q :=
(_relogin_timestamps (gov s), _relogin_cooldown_until (gov s)).
Lemma apply_logins e T : within (fixes login_part) (_apply_suspensions e T).
Proof.
assert (∀ s s', fixes gov s s' → fixes login_part s s') as Hsub by (intros s s' E; unfold fixes, login_part; by rewrite E).
unfold _apply_suspensions. within_tac; try by intros ?.
- intros n _. apply (within_mono _ _ _ Hsub), resume_gov.
- intros n _. apply (within_mono _ _ _ Hsub), suspend_gov.
Qed.
Lemma tick_logins e policy s :
  login_part (snd (_tick e policy s)) = login_part (set_gov (snd (fetch_usage e (gov s))) s).
Proof.
unfold _tick, mbind, M_bind. destruct (fetch_usage e (gov s)) as [u g]. cbn [snd].
destruct (verdict e policy u (set_gov g s)) as [x|err]; [|done].
pose proof (apply_logins e (list_to_set x.1) (set_gov g s)) as E. unfold fixes in E.
destruct (_apply_suspensions e (list_to_set x.1) (set_gov g s)) as [[[]|err] s1]; [|done]. exact E.
Qed.
Lemma loop_part e p s : login_part (snd (loop_once e p s)) =
  match load_policy p with
  | JObj policy => if truthy (dget_default "enabled" (JBool true) policy)
                   then login_part (set_gov (snd (fetch_usage e (gov s))) s) else login_part s
  | _ => login_part s
  end.
Proof.
unfold loop_once, catch, mbind, M_bind, lift. destruct (load_policy p) as [| | | | | |policy]; try done. cbn [obj].
destruct (truthy _); [|done]. cbn [negb]. rewrite <-(tick_logins e policy s). by destruct (_tick e policy s) as [[]].
Qed.
(** A turn records its login, and keeps the times of the last hour. *)
Definition now_recent (t : Q) (l : list Q) : list Q := filter (λ u, qlt (t - u) 3600 = true) l.
Lemma loop_logins e p s (s' := snd (loop_once e p s)) : let A := login e p s in
  (A = [] ∧ (claude_times (gov s') = claude_times (gov s) ∨
             claude_times (gov s') = now_recent (check_time e) (claude_times (gov s))) ∧ claude_until (gov s') = claude_until (gov s)) ∨
  (∃ ok, A = [(relogin_time e, ok)] ∧ length (now_recent (check_time e) (claude_times (gov s))) ≤ 2 ∧
     (claude_until (gov s) <= check_time e)%Q ∧
     claude_times (gov s') = now_recent (check_time e) (claude_times (gov s)) ++ [relogin_time e] ∧
     claude_until (gov s') = if ok : bool then claude_until (gov s) else (relogin_time e + 600)%Q).
Proof.
intros A. unfold A, login, s'. clear A s'. unfold claude_times, claude_until.
pose proof (f_equal fst (loop_part e p s)) as E1. pose proof (f_equal snd (loop_part e p s)) as E2.
cbn [login_part fst snd] in E1, E2. rewrite E1, E2. clear E1 E2.
destruct (load_policy p) as [| | | | | |policy]; try (left; split_and!; by auto).
destruct (truthy _); cbn [negb]; [|left; split_and!; by auto]. unfold fetch_usage.
destruct (match dget_default _ _ _ with JStr _ => _ | _ => _ end); cbn [negb andb snd]; [|left; split_and!; by auto].
unfold can_relogin. destruct (qlt (check_time e) _) eqn:Eu; cbn [fst snd negb]; [left; split_and!; by auto|].
apply qlt_false in Eu. destruct (_ <? _) eqn:El; cbn [fst snd negb].
- right. eexists. split; [done|]. cbn [login_part set_gov gov fst snd record_relogin _relogin_timestamps _relogin_cooldown_until].
  apply Nat.ltb_lt in El. unfold _RELOGIN_MAX_PER_HOUR in El. split_and!; [unfold now_recent; lia|done| |].
  + by rewrite !lookup_insert_eq.
  + destruct (truthy _); [done|]. by rewrite lookup_insert_eq.
- left. cbn [login_part set_gov gov fst snd _relogin_timestamps]. split_and!; [done|right; by rewrite lookup_insert_eq|done].
Qed.

(** ** At most three logins in an hour, none soon after a failure *)

Definition within_hour (t : Q) (A : list (Q * bool)) : list (Q * bool) :=
filter (λ a, Qle_bool t a.1 && qlt a.1 (t + 3600) = true) A.
Definition rationed (A : list (Q * bool)) : Prop := ∀ t, length (within_hour t A) ≤ 3.
Definition cooled (A : list (Q * bool)) : Prop :=
∀ A1 x A2 y, A = A1 ++ x :: A2 → x.2 = false → y ∈ A2 → (x.1 + 600 <= y.1)%Q.

(** The recorded times are those of the last hour before the check at [c]. *)
Definition accounted (A : list (Q * bool)) (c : Q) (g : GovernorState) : Prop :=
claude_times g = now_recent c (fst <$> A) ∧ ∀ x, x ∈ A → x.2 = false → (x.1 + 600 <= claude_until g)%Q.

Lemma recent_again c t l : (c <= t)%Q → now_recent t (now_recent c l) = now_recent t l.
Proof.
intros Hct. unfold now_recent. rewrite list_filter_filter. apply list_filter_iff. intros u. rewrite !qlt_true. split; [tauto|].
intros Hu. split; [done|lra].
Qed.
Lemma rationed_snoc A t t2 ok : rationed A → (t <= t2)%Q → length (now_recent t (fst <$> A)) ≤ 2 → rationed (A ++ [(t2, ok)]).
Proof.
intros Hl Ht Hn w. unfold within_hour. rewrite filter_app, length_app.
destruct (decide (Qle_bool w t2 && qlt t2 (w + 3600) = true)) as [Hin|Hout].
- rewrite filter_cons_True, filter_nil by done. simpl. apply andb_true_iff in Hin as [Hw Hw2].
  apply Qle_bool_iff in Hw. apply qlt_true in Hw2.
  cut (length (filter (λ a : Q * bool, Qle_bool w a.1 && qlt a.1 (w + 3600) = true) A) ≤ length (now_recent t (fst <$> A))); [lia|].
  assert (∀ u, Qle_bool w u && qlt u (w + 3600) = true → qlt (t - u) 3600 = true) as Hsub.
  { intros u. rewrite andb_true_iff, Qle_bool_iff, !qlt_true. intros [Hu _]. lra. }
  unfold now_recent. clear Hl Hn. induction A as [|[u b] A IH]; [done|]. rewrite fmap_cons, !filter_cons. cbn [fst].
  repeat case_decide; cbn [length]; try lia. exfalso. eauto.
- rewrite filter_cons_False, filter_nil by done. simpl. rewrite Nat.add_0_r. apply Hl.
Qed.
Lemma cooled_snoc A y : cooled A → (∀ x, x ∈ A → x.2 = false → (x.1 + 600 <= y.1)%Q) → cooled (A ++ [y]).
Proof.
intros Hc Hy A1 x A2 z E Hx Hz. destruct (exists_last (l := x :: A2) ltac:(done)) as (B & u & EB).
rewrite EB, app_assoc in E. apply app_inj_tail in E as [E ->].
destruct A2 as [|a A2 _] using rev_ind; [by apply not_elem_of_nil in Hz|].
assert (B = x :: A2 ∧ u = a) as [-> ->]. { rewrite app_comm_cons in EB. by apply app_inj_tail in EB as [-> ->]. }
apply elem_of_app in Hz as [Hz| ->%list_elem_of_singleton]; [by eapply Hc|].
apply Hy; [|done]. rewrite E. apply elem_of_app. right. left.
Qed.
Lemma chronological_earlier c c' l : (c <= c')%Q → chronological c' l → chronological c l.
Proof. destruct l as [|[e p] l]; [done|]. simpl. intros Hc (H1 & H2 & H3). split_and!; [lra|done..]. Qed.
Lemma logins_inv l : ∀ s A c, accounted A c (gov s) → rationed A → cooled A → chronological c l →
  rationed (A ++ logins l s) ∧ cooled (A ++ logins l s).
Proof.
induction l as [|[e p] l IH]; intros s A c [Ht Hu] Hl Hc Hch; [by rewrite app_nil_r|]. simpl in *. destruct Hch as (H1 & H2 & Hch).
pose proof (loop_logins e p s) as Hstep. cbv zeta in Hstep. rewrite (app_assoc A).
destruct Hstep as [(-> & Htimes & Huntil)|(ok & -> & Hlen & Hcu & Htimes & Huntil)].
- rewrite app_nil_r. destruct Htimes as [Htimes|Htimes].
  + apply (IH _ A c); [split; [congruence|by rewrite Huntil]|done..|].
    eapply chronological_earlier; [|done]. lra.
  + apply (IH _ A (check_time e)); [|done..|].
    * split; [|by rewrite Huntil]. rewrite Htimes, Ht. by apply recent_again.
    * by eapply chronological_earlier.
- rewrite Ht, recent_again in Hlen, Htimes by done.
  apply (IH _ _ (check_time e)).
  + split.
    * rewrite Htimes. unfold now_recent. rewrite fmap_app, filter_app. simpl. f_equal. rewrite filter_cons_True; [done|].
      apply qlt_true. lra.
    * rewrite Huntil. intros x [Hx| ->%list_elem_of_singleton]%elem_of_app Hf; simpl in *.
      -- pose proof (Hu x Hx Hf). destruct ok; lra.
      -- subst ok. lra.
  + by eapply rationed_snoc.
  + apply cooled_snoc; [done|]. intros x Hx Hf. pose proof (Hu x Hx Hf). simpl. lra.
  + by eapply chronological_earlier.
Qed.
End logins.

(* ------------------------------------------------------------------ *)
(** ** Whom a policy suspends *)

Section policy.
Context `{Texts}.

(** What remains of a window, and the lowest of the windows the policy names. *)
Definition window_remaining (data : dict) (k : string) : option Q :=
match dget_none k data with
| JObj (x :: w) => match dget_none "remaining" (x :: w) with JNull => None | v => num_of v end
| _ => None
end.
Definition lower (data : dict) (q : Q) (k : string) : Q :=
match window_remaining data k with Some r => if qlt r q then r else q | None => q end.
Definition lowest (data : dict) (keys : list string) : Q := foldl (lower data) 100%Q keys.
Definition window_keys (policy : dict) (p : string) : list string :=
match dget_default "providers" (JObj []) policy with
| JObj d => match dget_default p (JObj []) d with JObj l => fst <$> l | _ => [] end
| _ => []
end.
(** The part of a policy that suspends. *)
Definition threshold (policy : dict) (key : string) (d : Z) : Q :=
match dget_default "suspend_thresholds" (JObj []) policy with
| JObj t => default 0%Q (num_of (dget_default key (JInt d) t))
| _ => 0%Q
end.
Definition is_coo (policy : dict) (n : string) : bool := py_eq (JStr n) (dget_default "coo_anima" (JStr "sakura") policy).
Definition essential (policy : dict) : gset string :=
match set_of_json (dget_default "essential_animas" (JList []) policy) with Ok names => names | Err _ => ∅ end.
Definition suspends_at (policy : dict) (r : Q) (n : string) : bool :=
if qlt r (threshold policy "all_except_coo_below" 15) then negb (is_coo policy n)
else qlt r (threshold policy "non_essential_below" 30) && negb (bool_decide (n ∈ essential policy)).

Lemma update_worst_remaining x st st' : _update_worst x st = Ok st' → worst_remaining st' = worst_remaining st.
Proof.
unfold _update_worst. destruct (x.1), (worst_level st); cbn [num]; try (by intros [= <-]);
  unfold mbind, result_bind, num; repeat (case_match; try done); by intros [= <-].
Qed.
Lemma window_step_remaining t hf p data st c st' : window_step t hf p data st c = Ok st' →
  worst_remaining st' = lower data (worst_remaining st) c.1.
Proof.
unfold window_step, lower, window_remaining. destruct (dget_none c.1 data) as [| | | | | |window]; try (by intros [= <-]).
destruct window as [|x w]; [by intros [= <-]|].
assert (∀ v, (r ← num v; let st := mk_worst (if qlt r (worst_remaining st) then r else worst_remaining st) (worst_level st) (worst_reason st) in
        x ← evaluate_window t r (x :: w) c.2 p c.1; st ← _update_worst x st; y ← _evaluate_hard_floor r hf p c.1;
        _update_worst y st) = Ok st' →
   worst_remaining st' = match num_of v with Some r => if qlt r (worst_remaining st) then r else worst_remaining st | None => worst_remaining st end)
  as Hv.
{ intros v. unfold mbind, result_bind, num. destruct (num_of v) as [r|]; [|done].
  destruct (evaluate_window _ _ _ _ _ _) as [y|]; [|done].
  destruct (_update_worst y _) as [st1|] eqn:E1; [|done]. destruct (_evaluate_hard_floor _ _ _ _) as [z|]; [|done].
  intros E2. by rewrite (update_worst_remaining _ _ _ E2), (update_worst_remaining _ _ _ E1). }
destruct (dget_none "remaining" (x :: w)); [by intros [= <-]|apply Hv..].
Qed.
Lemma windows_remaining t hf p data l st st' : windows t hf p data st l = Ok st' →
  worst_remaining st' = foldl (lower data) (worst_remaining st) (fst <$> l).
Proof.
revert st. induction l as [|c l IH]; intros st; simpl; [by intros [= <-]|]. unfold mbind, result_bind.
destruct (window_step _ _ _ _ _ _) as [st1|] eqn:E; [|done]. intros ->%IH. by rewrite (window_step_remaining _ _ _ _ _ _ _ E).
Qed.
Lemma evaluate_lowest t data policy p w : _provider_usage_fetch_failed data = false →
  _evaluate_provider_remaining t data policy p = Ok w → worst_remaining w = lowest data (window_keys policy p).
Proof.
intros Hf. unfold _evaluate_provider_remaining, window_keys, mbind, result_bind. rewrite Hf.
destruct (dget_default "providers" _ _); try done. cbn [obj]. destruct (dget_default p _ _); try done.
apply windows_remaining.
Qed.
Lemma to_suspend_filter r policy names l : _animas_to_suspend r policy names = Ok l →
  l = filter (λ n, suspends_at policy r n = true) names.
Proof.
unfold _animas_to_suspend, mbind, result_bind, suspends_at, threshold, essential.
destruct (dget_default "suspend_thresholds" _ _); try done. cbn [obj].
destruct (set_of_json _) as [E|]; [|done]. unfold num. destruct (num_of _) as [a|]; [|done]. cbn [from_option Datatypes.id].
destruct (qlt r a); [|destruct (num_of _) as [b|]; [|done]; cbn [from_option Datatypes.id]; destruct (qlt r b)]; intros [= <-].
- apply list_filter_iff. intros n. unfold is_coo. by rewrite negb_true_iff.
- apply list_filter_iff. intros n. by rewrite andb_true_l, negb_true_iff, bool_decide_eq_false.
- symmetry. induction names as [|m names IH]; [done|]. rewrite filter_cons. by case_decide.
Qed.

(** The rule a check follows for an anima of a provider. *)
Definition suspended_by (policy data : dict) (p : string) (suspended : list string) (n : string) : bool :=
if _provider_usage_fetch_failed data then bool_decide (n ∈ suspended)
else suspends_at policy (lowest data (window_keys policy p)) n.
Lemma judge_provider_spec e policy data p suspended names x : judge_provider e policy data p suspended names = Ok x →
  x.1 = filter (λ n, suspended_by policy data p suspended n = true) names.
Proof.
unfold judge_provider, suspended_by. destruct names as [|n names]; [by intros [= <-]|].
destruct (_provider_usage_fetch_failed data) eqn:Ef.
- intros [= <-]. cbn [fst]. apply list_filter_iff. intros k. by rewrite bool_decide_eq_true.
- unfold mbind, result_bind. destruct (_evaluate_provider_remaining _ _ _ _) as [w|] eqn:Ew; [|done].
  destruct (_animas_to_suspend _ _ _) as [l|] eqn:El; [|done]. intros [= <-]. cbn [fst].
  apply to_suspend_filter in El. by rewrite (evaluate_lowest _ _ _ _ _ Ef Ew) in El.
Qed.
Lemma judge_spec e policy usage suspended groups ps x n : judge e policy usage suspended groups ps = Ok x →
  n ∈ x.1 ↔ ∃ p, p ∈ ps ∧ (n, p) ∈ groups ∧ suspended_by policy (usage p) p suspended n = true.
Proof.
revert x. induction ps as [|p ps IH]; intros x; simpl.
{ intros [= <-]. split; [by intros ?%not_elem_of_nil|by intros (? & ?%not_elem_of_nil & _)]. }
unfold mbind, result_bind. destruct (judge_provider _ _ _ _ _ _) as [y|] eqn:E; [|done].
destruct (judge _ _ _ _ _ ps) as [z|]; [|done]. intros [= <-]. cbn [fst].
rewrite elem_of_app, (IH z eq_refl), (judge_provider_spec _ _ _ _ _ _ _ E), list_elem_of_filter, list_elem_of_fmap.
setoid_rewrite elem_of_cons. split.
- intros [(Hn & [k q] & -> & [Hq Hg]%list_elem_of_filter)|(q & Hq & Hg)]; [exists p|exists q; tauto].
  simpl in *. subst q. tauto.
- intros (q & [->|Hq] & Hg & Hs); [left|right; by exists q]. split; [done|]. exists (n, p). split; [done|].
  by apply list_elem_of_filter.
Qed.
Lemma classify_spec f names groups n p : _classify_animas f names = Ok groups →
  (n, p) ∈ groups ↔ n ∈ names ∧ provider_of (_read_anima_credential (status_of n f)) = Ok p.
Proof.
revert groups. induction names as [|m names IH]; intros groups; simpl.
{ intros [= <-]. split; [by intros ?%not_elem_of_nil|by intros [?%not_elem_of_nil _]]. }
unfold mbind, result_bind. destruct (provider_of (_read_anima_credential (status_of m f))) as [q|] eqn:E; [|done].
destruct (_classify_animas f names) as [rest|]; [|done]. intros [= <-]. rewrite !elem_of_cons, (IH rest eq_refl).
split; [intros [[= -> ->]|[Hn Hp]]; auto|]. intros [[->|Hn] Hp]; [left; congruence|by right].
Qed.

(** The animas a check concerns. *)
Definition known (e : check_env) (s : server) (n : string) : Prop :=
(has_supervisor e = true ∧ n ∈ processes (fl s)) ∨ n ∈ suspended_animas (gov s).
(** The whole rule: a known anima of a provider of the cloud. *)
Definition governed (e : check_env) (policy : dict) (usage : string → dict) (s : server) (n : string) : Prop :=
known e s n ∧ ∃ p, p ∈ PROVIDERS ∧ provider_of (_read_anima_credential (status_of n (fl s))) = Ok p ∧
  suspended_by policy (usage p) p (suspended_animas (gov s)) n = true.
Lemma elem_of_names e s n : n ∈ _get_all_anima_names e s ↔ known e s n.
Proof.
unfold _get_all_anima_names, known. rewrite merge_sort_Permutation, elem_of_elements, elem_of_union, elem_of_list_to_set.
destruct (has_supervisor e); set_solver.
Qed.
Lemma verdict_spec e policy usage s x n : verdict e policy usage s = Ok x → n ∈ x.1 ↔ governed e policy usage s n.
Proof.
unfold verdict, mbind, result_bind. destruct (_classify_animas _ _) as [groups|] eqn:E; [|done]. intros Hj.
rewrite (judge_spec _ _ _ _ _ _ _ n Hj). unfold governed. setoid_rewrite (classify_spec _ _ _ _ _ E).
setoid_rewrite elem_of_names. naive_solver.
Qed.
End policy.

(* ------------------------------------------------------------------ *)
(** ** A check on one anima *)

Section check.
Context `{Texts}.
Implicit Types (e : check_env).

(** A step of the server that acts as [mf] on the fleet, without raising and
    without touching the governor. *)
Definition on_fleet (m : M server unit) (mf : M fleet unit) : Prop := ∀ s,
fst (m s) = Ok tt ∧ fst (mf (fl s)) = Ok tt ∧ fl (snd (m s)) = snd (mf (fl s)) ∧ gov (snd (m s)) = gov s.
Lemma on_fleet_loop (l : list string) f ff : (∀ n, on_fleet (f n) (ff n)) → on_fleet (for_each l f) (for_each l ff).
Proof.
intros Hf. induction l as [|n l IH]; intros s; simpl; [done|]. destruct (Hf n s) as (H1 & H2 & H3 & H4).
unfold mbind, M_bind. destruct (f n s) as [r s1], (ff n (fl s)) as [r' f1]. simpl in *. subst r r' f1.
destruct (IH s1) as (H5 & H6 & H7 & H8). split_and!; [done..|congruence].
Qed.
Definition resume_fleet e n : M fleet unit :=
catch (here ← gets (λ s, bool_decide (n ∈ processes s)); if here : bool then mret tt else start_anima (calls e) AtResume n)
  (λ _, mret tt).
Definition suspend_fleet e n : M fleet unit := catch (stop_anima (calls e) AtSuspend n) (λ _, mret tt).
Lemma resume_on_fleet e n : on_fleet (resume_one e n) (resume_fleet e n).
Proof.
intros s. pose proof (resume_gov e n s) as Hg. unfold fixes in Hg. revert Hg.
unfold resume_one, resume_fleet, catch, mbind, M_bind, gets, in_fleet. case_bool_decide; [done|].
by destruct (start_anima (calls e) AtResume n (fl s)) as [[[]|err] f1].
Qed.
Lemma suspend_on_fleet e newly n : on_fleet (suspend_one e newly n) (suspend_fleet e n).
Proof.
intros s. pose proof (suspend_gov e newly n s) as Hg. unfold fixes in Hg. revert Hg.
unfold suspend_one, suspend_fleet, catch, mbind, M_bind, gets, in_fleet. case_bool_decide; simpl.
- destruct (stop_anima (calls e) AtSuspend n (fl s)) as [[[]|err] f1]; [|done]. by case_bool_decide.
- unfold stop_anima, mbind, M_bind, gets. by rewrite bool_decide_eq_false_2.
Qed.
Definition one_resume e n : M anima unit :=
catch (here ← gets a_running; if here : bool then mret tt else one_start (calls e) n false AtResume) (λ _, mret tt).
Definition one_suspend e n : M anima unit := catch (one_stop (calls e) n AtSuspend) (λ _, mret tt).
Lemma resume_local e n : local n false (resume_fleet e n) (one_resume e n).
Proof. pose proof (start_local (calls e) n false AtResume). unfold resume_fleet, one_resume. local_tac. Qed.
Lemma suspend_local e n : local n false (suspend_fleet e n) (one_suspend e n).
Proof. pose proof (stop_local (calls e) n false AtSuspend). unfold suspend_fleet, one_suspend. local_tac. Qed.

(** What becomes of an anima, by whether it is suspended now and was before. *)
Definition one_check e n (target before : bool) : M anima unit :=
if target then one_suspend e n else if before then one_resume e n else mret tt.
Lemma apply_spec e T s : has_supervisor e = true → _shutdown (fl s) = false →
  ∃ s', _apply_suspensions e T s = (Ok tt, s') ∧ shared (fl s') = shared (fl s) ∧
    gov s' = set_suspended (merge_sort str_le (elements T)) (gov s) ∧
    ∀ n, view n (fl s') = snd (one_check e n (bool_decide (n ∈ T)) (bool_decide (n ∈ suspended_animas (gov s))) (view n (fl s))).
Proof.
intros Hsup Hs. unfold _apply_suspensions. rewrite Hsup. cbn [negb].
set (C := list_to_set (suspended_animas (gov s)) : gset string). unfold mbind at 1, M_bind at 1, gets at 1. fold C.
destruct (on_fleet_loop (elements (C ∖ T)) _ _ (resume_on_fleet e) s) as (H1 & _ & H3 & H4).
destruct (loop_names (resume_fleet e) (one_resume e) (elements (C ∖ T)) (fl s)) as (f1 & E1 & Hsh1 & Hv1);
  [apply NoDup_elements|done|apply resume_local| |].
{ intros n _. unfold one_resume. outcome_tac. }
unfold mbind at 1, M_bind at 1. destruct (for_each (elements (C ∖ T)) (resume_one e) s) as [r s1]. cbn [fst snd] in H1, H3, H4. subst r.
rewrite E1 in H3. cbn [snd] in H3.
destruct (on_fleet_loop (elements T) _ _ (suspend_on_fleet e (T ∖ C)) s1) as (H5 & _ & H7 & H8).
destruct (loop_names (suspend_fleet e) (one_suspend e) (elements T) (fl s1)) as (f2 & E2 & Hsh2 & Hv2);
  [apply NoDup_elements|by rewrite H3, (shared_shut _ _ Hsh1)|apply suspend_local| |].
{ intros n _. unfold one_suspend. outcome_tac. }
unfold mbind at 1, M_bind at 1. destruct (for_each (elements T) _ s1) as [r s2]. cbn [fst snd] in H5, H7, H8. subst r.
rewrite E2 in H7. cbn [snd] in H7. eexists. split; [reflexivity|]. cbn [fl gov set_gov]. split_and!.
- congruence.
- congruence.
- intros n. rewrite H7, Hv2, H3, Hv1. unfold one_check.
  rewrite (bool_decide_ext (n ∈ elements T) (n ∈ T)) by apply elem_of_elements.
  assert (bool_decide (n ∈ elements (C ∖ T)) = bool_decide (n ∈ suspended_animas (gov s)) && negb (bool_decide (n ∈ T))) as ->.
  { rewrite <-bool_decide_not, <-bool_decide_and. apply bool_decide_ext. unfold C. set_solver. }
  by destruct (bool_decide (n ∈ T)), (bool_decide (n ∈ suspended_animas (gov s))).
Qed.

Lemma fetch_keeps e g : let g' := snd (fetch_usage e g) in
  suspended_animas g' = suspended_animas g ∧ reason g' = reason g ∧ since g' = since g.
Proof. unfold fetch_usage, can_relogin. by repeat (case_match; simplify_eq/=). Qed.
Lemma verdict_gov e policy usage s g : suspended_animas g = suspended_animas (gov s) →
  verdict e policy usage (set_gov g s) = verdict e policy usage s.
Proof. intros E. unfold verdict, _get_all_anima_names. cbn [fl gov set_gov]. by rewrite E. Qed.
Lemma suspended_in_saved g : suspended_in (saved g) = list_to_set (suspended_animas g).
Proof.
transitivity (match set_of_json (JList (JStr <$> suspended_animas g)) with Ok names => names | Err _ => ∅ end); [done|].
unfold set_of_json. assert (all hashable (JStr <$> suspended_animas g) = true) as ->.
{ apply all_true. by intros x (n & -> & _)%list_elem_of_fmap. }
f_equal. induction (suspended_animas g) as [|n l IH]; [done|]. simpl. f_equal. exact IH.
Qed.

(** The usage a check works with. *)
Definition usage_of e s : string → dict := fst (fetch_usage e (gov s)).
Lemma tick_views e policy s T reasons : has_supervisor e = true → _shutdown (fl s) = false →
  verdict e policy (usage_of e s) s = Ok (T, reasons) →
  ∃ s', _tick e policy s = (Ok tt, s') ∧ (∀ n, n ∈ suspended_animas (gov s') ↔ n ∈ T) ∧
    suspended_in (governor_file (fl s')) = list_to_set T ∧
    (_shutdown (fl s'), dom <$> animas_dir (fl s'), governor_enabled (fl s')) =
      (_shutdown (fl s), dom <$> animas_dir (fl s), governor_enabled (fl s)) ∧
    ∀ n, view n (fl s') =
      snd (one_check e n (bool_decide (n ∈ T)) (bool_decide (n ∈ suspended_animas (gov s))) (view n (fl s))).
Proof.
intros Hsup Hs Hv. unfold _tick, usage_of in *. unfold mbind, M_bind.
destruct (fetch_keeps e (gov s)) as (Hk & _). destruct (fetch_usage e (gov s)) as [u g]. cbn [fst snd] in *.
rewrite verdict_gov, Hv by done. cbn [fst snd].
destruct (apply_spec e (list_to_set T) (set_gov g s) Hsup Hs) as (s1 & -> & Hsh & Hg & Hview).
eexists. split; [reflexivity|]. unfold modify, save, explain. cbn [snd fl gov set_fl set_gov suspended_animas governor_file].
assert (suspended_animas (gov s1) = merge_sort str_le (elements (list_to_set T : gset string))) as Hsus by by rewrite Hg.
assert (∀ n, n ∈ suspended_animas (gov s1) ↔ n ∈ T) as Hin.
{ intros n. rewrite Hsus, merge_sort_Permutation, elem_of_elements. apply elem_of_list_to_set. }
split_and!; [done| | |].
- cbn [governor_file set_governor_file]. rewrite suspended_in_saved. cbn [suspended_animas]. apply leibniz_equiv.
  intros n. rewrite !elem_of_list_to_set. apply Hin.
- injection Hsh as H1 H2 H3 H4. cbn. by rewrite H1, H2, H3.
- intros n. specialize (Hview n). cbn [fl gov set_gov] in Hview. rewrite Hk in Hview.
  rewrite (bool_decide_ext _ _ (elem_of_list_to_set (C := gset string) n T)) in Hview. exact Hview.
Qed.
Lemma one_suspend_running e n a : a_running (snd (one_suspend e n a)) = a_running a && negb (halts (calls e) AtSuspend n).
Proof. unfold one_suspend, one_stop. run_unfold. destruct (a_running a) eqn:E, (halts _ _ _); simpl; rewrite ?E; done. Qed.
Lemma one_resume_running e n a : a_running (snd (one_resume e n a)) = true ↔
  a_running a = true ∨ read_anima_enabled (a_status a) = Ok true ∧ a_starting a = false ∧ spawns (calls e) AtResume n = true.
Proof.
unfold one_resume, one_start. run_unfold. destruct (a_running a) eqn:E; simpl; [rewrite E; tauto|].
destruct (read_anima_enabled (a_status a)) as [[]|]; simpl; [|rewrite E; naive_solver..].
rewrite E. destruct (a_starting a), (spawns _ _ _); simpl; rewrite ?E; naive_solver.
Qed.

(** C28. A check of the governor is exact.  When the policy can be evaluated it
    completes, and it suspends exactly the known animas of a cloud provider
    that the policy names: those suspended already while the usage of the
    provider cannot be fetched, and otherwise, by the lowest remaining
    percentage of the provider's windows, all but the chief below the one
    threshold and all but the essential ones below the other.  Those are
    recorded in memory and on disk; a suspended anima runs only if its stop
    failed, an anima no longer suspended runs if it can be started, and
    nothing at all happens to any other anima, local ones included. *)
Theorem tick_exact e policy s T reasons : has_supervisor e = true → _shutdown (fl s) = false →
  verdict e policy (usage_of e s) s = Ok (T, reasons) →
  ∃ s', _tick e policy s = (Ok tt, s') ∧
    (∀ n, n ∈ suspended_animas (gov s') ↔ governed e policy (usage_of e s) s n) ∧
    suspended_in (governor_file (fl s')) = list_to_set (suspended_animas (gov s')) ∧
    (∀ n, n ∈ suspended_animas (gov s') →
       (n ∈ processes (fl s') ↔ n ∈ processes (fl s) ∧ halts (calls e) AtSuspend n = false)) ∧
    (∀ n, n ∉ suspended_animas (gov s') → n ∈ suspended_animas (gov s) →
       (n ∈ processes (fl s') ↔ n ∈ processes (fl s) ∨
          read_anima_enabled (status_of n (fl s)) = Ok true ∧ n ∉ _starting (fl s) ∧ spawns (calls e) AtResume n = true)) ∧
    (∀ n, n ∉ suspended_animas (gov s') → n ∉ suspended_animas (gov s) → view n (fl s') = view n (fl s)).
Proof.
intros Hsup Hs Hv. destruct (tick_views e policy s T reasons Hsup Hs Hv) as (s' & Hrun & Hin & Hfile & _ & Hview).
exists s'. split; [done|]. assert (∀ n, n ∈ processes (fl s') ↔ a_running (view n (fl s')) = true) as Hp.
{ intros n. cbn [view a_running]. by rewrite bool_decide_eq_true. }
split_and!.
- intros n. rewrite Hin. apply (verdict_spec _ _ _ _ _ n Hv).
- rewrite Hfile. apply leibniz_equiv. intros n. rewrite !elem_of_list_to_set. by rewrite Hin.
- intros n Hn%Hin. rewrite Hp, Hview, (bool_decide_eq_true_2 (n ∈ T)) by done. cbn [one_check].
  rewrite one_suspend_running, andb_true_iff, negb_true_iff. cbn [view a_running]. by rewrite bool_decide_eq_true.
- intros n Hn Hb. rewrite Hin in Hn.
  rewrite Hp, Hview, (bool_decide_eq_false_2 (n ∈ T)), (bool_decide_eq_true_2 (n ∈ suspended_animas _)) by done. cbn [one_check].
  rewrite one_resume_running. cbn [view a_running a_starting]. by rewrite bool_decide_eq_true, bool_decide_eq_false.
- intros n Hn Hb. rewrite Hin in Hn. by rewrite Hview, (bool_decide_eq_false_2 (n ∈ T)), (bool_decide_eq_false_2 (n ∈ suspended_animas _)).
Qed.

(* ------------------------------------------------------------------ *)
(** ** The rules of a window *)

(** Two policies that name the same windows, thresholds, chief and essential
    animas. *)
Record same_suspension (policy1 policy2 : dict) : Prop := {
  same_windows : ∀ p, window_keys policy1 p = window_keys policy2 p;
  same_all : threshold policy1 "all_except_coo_below" 15 = threshold policy2 "all_except_coo_below" 15;
  same_some : threshold policy1 "non_essential_below" 30 = threshold policy2 "non_essential_below" 30;
  same_coo : ∀ n, is_coo policy1 n = is_coo policy2 n;
  same_essential : essential policy1 = essential policy2
}.
Lemma same_governed e policy1 policy2 usage s n : same_suspension policy1 policy2 →
  governed e policy1 usage s n → governed e policy2 usage s n.
Proof.
intros [Hw Ha Hs Hc He] [Hk (p & Hp & Hcred & Hby)]. split; [done|]. exists p. split_and!; [done..|]. revert Hby.
unfold suspended_by, suspends_at. by rewrite Hw, Ha, Hs, Hc, He.
Qed.
(** The rules of a window (its deficits, thresholds, activity levels and the
    hard floor) throttle nothing: two policies that differ only in them lead
    to the same suspensions and the same processes. *)
Theorem rules_only_inform e policy1 policy2 s T1 reasons1 T2 reasons2 : same_suspension policy1 policy2 →
  has_supervisor e = true → _shutdown (fl s) = false →
  verdict e policy1 (usage_of e s) s = Ok (T1, reasons1) → verdict e policy2 (usage_of e s) s = Ok (T2, reasons2) →
  ∃ s1 s2, _tick e policy1 s = (Ok tt, s1) ∧ _tick e policy2 s = (Ok tt, s2) ∧
    (∀ n, n ∈ suspended_animas (gov s1) ↔ n ∈ suspended_animas (gov s2)) ∧ ∀ n, view n (fl s1) = view n (fl s2).
Proof.
intros Hsame Hsup Hs Hv1 Hv2.
destruct (tick_views e policy1 s T1 reasons1 Hsup Hs Hv1) as (s1 & Hr1 & Hin1 & _ & _ & Hview1).
destruct (tick_views e policy2 s T2 reasons2 Hsup Hs Hv2) as (s2 & Hr2 & Hin2 & _ & _ & Hview2).
assert (∀ n, n ∈ T1 ↔ n ∈ T2) as HT.
{ intros n. rewrite (verdict_spec _ _ _ _ _ n Hv1 : n ∈ T1 ↔ _), (verdict_spec _ _ _ _ _ n Hv2 : n ∈ T2 ↔ _).
  split; apply same_governed; [done|]. by destruct Hsame. }
exists s1, s2. split_and!; [done..| |]; intros n.
- by rewrite Hin1, Hin2.
- by rewrite Hview1, Hview2, (bool_decide_ext _ _ (HT n)).
Qed.

(* ------------------------------------------------------------------ *)
(** ** Notices *)

Definition told (s s' : server) : Prop :=
reason (gov s') = reason (gov s) ∧ ∃ l, notices s' = notices s ++ l ∧ Forall (λ x, x.2 = reason (gov s)) l.
#[local] Instance told_preorder : PreOrder told.
Proof.
split.
- intros s. split; [done|]. exists []. by rewrite app_nil_r.
- intros s1 s2 s3 [E1 (l1 & H1 & F1)] [E2 (l2 & H2 & F2)]. split; [congruence|]. exists (l1 ++ l2).
  rewrite H2, H1, app_assoc. split; [done|]. apply Forall_app. split; [done|]. by rewrite E1 in F2.
Qed.
Lemma in_fleet_told {A} (m : M fleet A) : within told (in_fleet m).
Proof. intros s. unfold in_fleet. destruct (m (fl s)). split; [done|]. exists []. by rewrite app_nil_r. Qed.
Lemma resume_told e n : within told (resume_one e n).
Proof.
unfold resume_one. apply within_catch; [|by within_tac]. apply within_bind; [apply within_gets|].
intros []; [apply within_ret|apply in_fleet_told].
Qed.
Lemma suspend_told e newly n : within told (suspend_one e newly n).
Proof.
unfold suspend_one. apply within_catch; [|by within_tac]. apply within_bind; [apply within_gets|].
intros []; [|apply within_ret]. apply within_bind; [apply in_fleet_told|]. intros _ s.
unfold mbind, M_bind, gets, _notify_supervisor, modify. case_bool_decide; split; try done; simpl.
- eexists. split; [done|]. by repeat constructor.
- exists []. by rewrite app_nil_r.
Qed.
(** A supervisor is told of a suspension with the reason of the check before,
    not with the reason it was suspended for. *)
Theorem notices_stale e policy s :
  ∃ l, notices (snd (_tick e policy s)) = notices s ++ l ∧ Forall (λ x, x.2 = reason (gov s)) l.
Proof.
unfold _tick, mbind, M_bind. destruct (fetch_keeps e (gov s)) as (_ & Hk & _).
destruct (fetch_usage e (gov s)) as [u g]. cbn [fst snd] in *.
destruct (verdict e policy u (set_gov g s)) as [x|err]; [|exists []; by rewrite app_nil_r].
assert (within told (_apply_suspensions e (list_to_set x.1))) as Hw.
{ unfold _apply_suspensions. within_tac; [intros; apply resume_told|intros; apply suspend_told|].
  intros s0. split; [done|]. exists []. by rewrite app_nil_r. }
destruct (Hw (set_gov g s)) as [_ (l & Hl & HF)]. exists l. cbn [gov set_gov] in HF. rewrite Hk in HF. split; [|done].
by destruct (_apply_suspensions e (list_to_set x.1) (set_gov g s)) as [[[]|err] s1].
Qed.

(* ------------------------------------------------------------------ *)
(** ** The governor and the reconciliation together *)

Lemma held_view (e : pass_env) n f : held_back e n (evict e f) = a_held e n (one_evict e (view n f)).
Proof. rewrite <-(proj1 (view_evict e n f)). done. Qed.
(** An anima whose record holds nothing that delays it. *)
Record at_ease (e : pass_env) (n : string) (f : fleet) : Prop := {
  ease_failed : n ∉ _permanently_failed f;
  ease_request : requested (status_of n f) = false;
  ease_held : held_back e n (evict e f) = false;
  ease_cool : cooling e n f = false
}.
Definition lasting (a : anima) : option anima_dir * bool * bool * bool := (a_dir a, a_failed a, a_bootstrapping a, a_repairing a).
Lemma check_lasting e n target before : within (fixes lasting) (one_check e n target before).
Proof.
assert (∀ at_, within (fixes lasting) (one_start (calls e) n false at_)) as Hst by (intros; unfold one_start; within_tac; by intros ?).
assert (∀ at_, within (fixes lasting) (one_stop (calls e) n at_)) as Hsp by (intros; unfold one_stop; within_tac; by intros ?).
unfold one_check, one_suspend, one_resume. destruct target; [apply within_catch; [done|by within_tac]|].
destruct before; [|apply within_ret]. apply within_catch; [|by within_tac]. apply within_bind; [apply within_gets|].
intros []; [apply within_ret|done].
Qed.
Lemma check_idle e n before a : a_running (snd (one_check e n false before a)) = false → snd (one_check e n false before a) = a.
Proof.
destruct before; [|done]. cbn [one_check]. unfold one_resume, one_start. run_unfold. repeat (case_match; simplify_eq/=; try done).
Qed.

(** A suspension survives a restart of the server: the state file gives it
    back, and the start of the fleet passes it over. *)
Lemma load_saved g : let g' := load (saved g) in
  suspended_animas g' = suspended_animas g ∧ reason g' = reason g ∧ since g' = since g.
Proof. split_and!; [|done..]. cbn. induction (suspended_animas g) as [|n l IH]; [done|]. simpl. f_equal. exact IH. Qed.
Lemma start_up_excludes (e : pass_env) names f n : n ∈ governor_suspended f → _shutdown f = false →
  view n (snd (start_up e names f)) = view n f.
Proof.
intros Hn Hs. unfold start_up, mbind, M_bind, gets. revert f Hn Hs.
intros f. generalize (governor_suspended f). intros G Hn. revert f.
induction names as [|k names IH]; intros f Hs; [done|]. rewrite filter_cons. case_decide as Hk; [|by apply IH].
simpl. unfold mbind, M_bind, catch. destruct (start_local e k false AtStartup f Hs) as (_ & _ & Hother & Hsh).
assert (k ≠ n) as Hne by (intros ->; done). specialize (Hother n ltac:(done)).
destruct (start_anima e AtStartup k f) as [[[]|err] f1]; simpl in *; rewrite IH; try done; by rewrite (shared_shut _ _ Hsh).
Qed.
(** While the policy file says that the governor is off, a turn does nothing:
    nobody is suspended, and nobody is resumed. *)
Lemma disabled_policy_inert e d s : truthy (dget_default "enabled" (JBool true) d) = false →
  loop_once e (Contents (JObj d)) s = (Ok tt, s).
Proof. intros Hd. unfold loop_once, catch, mbind, M_bind, lift. cbn [load_policy obj]. by rewrite Hd. Qed.
End check.
