(* ===== verification/FleetWitnesses.v ===== *)
(** * A worked fleet

    Five animas: [sakura], the chief, and [mei] use Claude, [rin] a local model,
    [ken] (OpenAI) is disabled, and [ume] waits to be started.  The theorems
    about the reconciliation and the governor are applied to it, and it shows
    what goes wrong. *)

From Stdlib Require Import QArith.
From stdpp Require Import prelude strings list gmap.
From S2P Require Import Prelude PyValue PyText Fleet FleetProps Governor GovernorProps.
Open Scope nat_scope.

#[local] Instance demo_texts : Texts := { reasons_text := λ _, "low"; timestamp_of := λ _, None }.

Definition status (credential : string) (enabled : bool) : json_file :=
  Contents (JObj [("enabled", JBool enabled); ("credential", JStr credential)]).
Definition demo_dirs : gmap string anima_dir := list_to_map
  [("sakura", mk_dir true (status "anthropic" true)); ("mei", mk_dir true (status "anthropic" true));
   ("rin", mk_dir true (status "ollama" true)); ("ken", mk_dir true (status "openai" false));
   ("ume", mk_dir true (status "ollama" true))].
Definition fleet_of (dirs : gmap string anima_dir) (running : list string) (file : json_file) : fleet :=
  mk_fleet false (Some dirs) (list_to_set running) ∅ ∅ ∅ ∅ ∅ ∅ ∅ ∅ ∅ ∅ true file.
Definition demo_fleet : fleet := fleet_of demo_dirs ["sakura"; "mei"; "rin"; "ken"] NoFile.
Definition smooth : pass_env := mk_pass_env (λ _ _, true) (λ _ _, true) (λ _, 100%Q) (λ _ _, 100%Q) 100%Q.

Definition tidy_bool (dirs : gmap string anima_dir) : bool :=
  all (λ x, negb (complete x.2) || tolerable (status_json x.2)) (map_to_list dirs).
Lemma tidy_of dirs running file : tidy_bool dirs = true → tidy (fleet_of dirs running file).
Proof.
  intros Hb n d Hd Hc. unfold tidy_bool in Hb. rewrite all_true in Hb. unfold dir_of in Hd. simpl in Hd.
  specialize (Hb (n, d) ltac:(by apply elem_of_map_to_list)). simpl in Hb. by rewrite Hc in Hb.
Qed.
Lemma demo_tidy : tidy_bool demo_dirs = true.
Proof. vm_compute. reflexivity. Qed.

Lemma none_failed n : n ∉ _permanently_failed demo_fleet.
Proof. cbn [demo_fleet fleet_of _permanently_failed]. apply not_elem_of_empty. Qed.
Definition table (n : string) : bool :=
  if bool_decide (n ∈ processes demo_fleet) then stays smooth demo_fleet n else starts smooth demo_fleet n.
Lemma ume_row : table "ume" = true ∧ requested (status_of "ume" demo_fleet) = false.
Proof. split; vm_compute; reflexivity. Qed.
Lemma ken_row : table "ken" = false ∧ requested (status_of "ken" demo_fleet) = false.
Proof. split; vm_compute; reflexivity. Qed.

(* ------------------------------------------------------------------ *)
(** ** Checks *)

Definition window (remaining : Z) : json := JObj [("remaining", JInt remaining)].
Definition usage (claude : Z) (p : string) : dict :=
  if bool_decide (p = "claude") then [("five_hour", window claude); ("seven_day", window 80)] else [].
Definition check_at (t : Q) (fetch : string → dict) : check_env :=
  mk_check_env fetch [("success", JBool false)] [] t t t "today" true smooth.
Definition check_low : check_env := check_at 100 (usage 10).
Definition demo_server : server := mk_server demo_fleet (mk_governor [] "" "" ∅ ∅) [].
Definition verdict_low : list string * list reason_item :=
  (["mei"], [BelowFloor "claude" "five_hour" 10 15]).
Lemma low_verdict : verdict check_low DEFAULT_POLICY (usage_of check_low demo_server) demo_server = Ok verdict_low.
Proof. vm_compute. reflexivity. Qed.

(** Ten per cent of Claude's five hours remain: [mei] is suspended. *)
Lemma tick_exact_witness : ∃ s, _tick check_low DEFAULT_POLICY demo_server = (Ok tt, s) ∧
  "mei" ∈ suspended_animas (gov s) ∧ "mei" ∉ processes (fl s) ∧ "mei" ∈ suspended_in (governor_file (fl s)).
Proof.
  destruct (tick_exact check_low DEFAULT_POLICY demo_server (fst verdict_low) (snd verdict_low)) as (s & Hrun & Hin & Hfile & Hsus & _).
  - reflexivity.
  - reflexivity.
  - exact low_verdict.
  - assert ("mei" ∈ suspended_animas (gov s)) as Hmei.
    { apply Hin. split; [left; split; [reflexivity|vm_compute; reflexivity]|]. exists "claude".
      split; [left|]. split; vm_compute; reflexivity. }
    exists s. split; [exact Hrun|]. split; [exact Hmei|]. split.
    + intros Hp%(Hsus _ Hmei). destruct Hp as [_ Hp]. discriminate Hp.
    + rewrite Hfile. apply elem_of_list_to_set. exact Hmei.
Defined.
Lemma mei_at_ease : at_ease smooth "mei" demo_fleet.
Proof. split; [apply none_failed|vm_compute; reflexivity..]. Qed.

(** Claude refuses the credentials at four checks, five minutes apart; the
    login fails, and only every other check may try again. *)
Definition refused : string → dict := λ _, [("error", JStr "unauthorized")].
Definition four_checks : list (check_env * json_file) :=
  (λ t, (check_at t refused, NoFile)) <$> [0; 300; 600; 900]%Q.

(* ------------------------------------------------------------------ *)
(** ** What goes wrong *)

(** One status file that is a list, and [ume] is not started, nor [ken] stopped. *)
Definition odd_fleet : fleet :=
  fleet_of (<["rin" := mk_dir true (Contents (JList []))]> demo_dirs) ["sakura"; "mei"; "rin"; "ken"] NoFile.
Example malformed_status_demo : _reconcile smooth odd_fleet = (Err (AttributeError "get"), odd_fleet).
Proof. vm_compute. reflexivity. Qed.

(** [mei] is suspended; the policy is then switched off.  The governor does
    nothing any more, and the reconciliation leaves her stopped. *)
Definition low_server : server := snd (_tick check_low DEFAULT_POLICY demo_server).
Definition off_policy : json_file := Contents (JObj [("enabled", JBool false)]).
Example disabled_policy_strands :
  let s := snd (loop_once (check_at 200 (usage 90)) off_policy low_server) in
  governor_suspended (fl s) = {["mei"]} ∧ bool_decide ("mei" ∈ processes (snd (_reconcile smooth (fl s)))) = false.
Proof. split; vm_compute; reflexivity. Qed.

(** The supervisor of [mei] hears of the suspension without a reason. *)
Example first_notice_empty : notices low_server = [("mei", "")] ∧ reason (gov low_server) = "low".
Proof. split; vm_compute; reflexivity. Qed.

(** The governor has stopped [mei] and is still stopping others; its file is
    not written yet, and a pass starts her again. *)
Definition later : pass_env := mk_pass_env (λ _ _, true) (λ _ _, true) (λ _, 110%Q) (λ _ _, 110%Q) 110%Q.
Example restarted_meanwhile :
  let s := snd (suspend_one check_low {["mei"]} "mei" demo_server) in
  bool_decide ("mei" ∈ processes (fl s)) = false ∧ bool_decide ("mei" ∈ processes (snd (_reconcile later (fl s)))) = true.
Proof. split; vm_compute; reflexivity. Qed.

(** A chief who is not among the essential animas is suspended at twenty per
    cent and resumed at ten. *)
Definition lone_chief : dict := dset "essential_animas" (JList []) DEFAULT_POLICY.
Example chief_resumed_below_floor :
  bool_decide ("sakura" ∈ suspended_animas (gov (snd (_tick (check_at 100 (usage 20)) lone_chief demo_server)))) = true ∧
  bool_decide ("sakura" ∈ suspended_animas (gov (snd (_tick check_low lone_chief demo_server)))) = false.
Proof. split; vm_compute; reflexivity. Qed.
