(* ===== verification/Lease.v ===== *)
(** * Leases of claimed descriptors ([core/platform/processing_lease.py])

    The file beside a claimed descriptor that says which process works on it,
    and the classification of that process as live, dead or unknown.  What the
    operating system says about a process is the argument [probe]. *)

From Stdlib Require Import QArith Qround.
From stdpp Require Import prelude strings list gmap.
From S2P Require Import Prelude PyValue PyText Fleet.
Open Scope nat_scope.

Inductive liveness := Live | Dead | Uncertain.
#[global] Instance liveness_eq_dec : EqDecision liveness.
Proof. solve_decision. Defined.

(** [_pid_exists] ([None]: uncertain), [_process_create_time] and
    [_read_proc_cmdline] ([None]: unavailable). *)
Record os_view := mk_os_view {
  _pid_exists : Z → option bool;
  _process_create_time : Z → option Q;
  _read_proc_cmdline : Z → option string
}.

(** [round], halves to even. *)
Definition py_round (q : Q) : Z :=
  let f := Qfloor q in
  let d := (q - inject_Z f)%Q in
  if negb (Qle_bool (1 # 2) d) then f
  else if negb (Qle_bool d (1 # 2)) then (f + 1)%Z
  else if Z.even f then f else (f + 1)%Z.
Definition _centisecond (q : Q) : Z := py_round (q * 100)%Q.

(** What a lease is written from: the claimant, and the job of a task runner. *)
Record job := mk_job { job_id : string; task_pid : Z; pgid : Z; root_epoch : string; job_attempt : Z; start_time : option Q }.
Definition lease_payload (o : os_view) (now : Q) (pid : Z) (anima task_id : string) (j : option job) : dict :=
  [("pid", JInt pid); ("anima", JStr anima); ("leased_at", JFloat now); ("task_id", JStr task_id)] ++
  match j with
  | None => []
  | Some j =>
      [("schema_version", JInt 2); ("job_id", JStr (job_id j)); ("task_pid", JInt (task_pid j)); ("pgid", JInt (pgid j));
       ("root_epoch", JStr (root_epoch j)); ("attempt", JInt (job_attempt j));
       ("process_start_time", JFloat
          match start_time j, _process_create_time o (task_pid j) with
          | Some t, _ | None, Some t => t
          | None, None => now
          end)]
  end.

Definition _is_positive_int (v : json) : bool := match v with JInt z => (0 <? z)%Z | _ => false end.
Definition _is_finite_number (v : json) : bool := match v with JInt _ | JFloat _ => true | _ => false end.
Definition nonempty (v : json) : bool := match v with JStr s => str_truthy s | _ => false end.
Definition _validate_common_fields (d : dict) (expected_anima : option string) : bool :=
  _is_positive_int (dget_none "pid" d) && nonempty (dget_none "anima" d) && _is_finite_number (dget_none "leased_at" d) &&
  nonempty (dget_none "task_id" d) &&
  match expected_anima with None => true | Some a => py_eq (dget_none "anima" d) (JStr a) end.

Definition _cmdline_matches_v1 (cmdline anima : string) : bool := contains "core.supervisor.runner" cmdline && contains anima cmdline.
Definition _cmdline_matches_v2 (cmdline anima job_id : string) : bool :=
  any (λ marker, contains marker cmdline) ["core.supervisor.runner"; "core.supervisor.task_runner"] &&
  contains anima cmdline && contains job_id cmdline.

(** The process [pid], once it exists: by its command line. *)
Definition by_cmdline (o : os_view) (pid : Z) (matches : string → bool) : liveness :=
  match _read_proc_cmdline o pid with
  | None => Uncertain
  | Some c => if matches c then Live else Dead
  end.
Definition text (v : json) : string := match v with JStr s => s | _ => "" end.
Definition int_or_zero (v : json) : Z := match v with JInt z => z | _ => 0%Z end.
Definition _classify_v1 (o : os_view) (d : dict) : liveness :=
  let pid := int_or_zero (dget_none "pid" d) in
  match _pid_exists o pid with
  | Some false => Dead
  | None => Uncertain
  | Some true => by_cmdline o pid (λ c, _cmdline_matches_v1 c (text (dget_none "anima" d)))
  end.
Definition _classify_v2 (o : os_view) (d : dict) : liveness :=
  let tp := dget_none "task_pid" d in
  if negb (_is_positive_int tp && _is_positive_int (dget_none "pgid" d) && nonempty (dget_none "root_epoch" d) &&
           nonempty (dget_none "job_id" d) && _is_positive_int (dget_none "attempt" d) &&
           _is_finite_number (dget_none "process_start_time" d)) then Dead else
  let pid := int_or_zero tp in
  match _pid_exists o pid with
  | Some false => Dead
  | None => Uncertain
  | Some true =>
      let started := default 0%Q (num_of (dget_none "process_start_time" d)) in
      if match _process_create_time o pid with
         | Some t => negb (_centisecond t =? _centisecond started)%Z
         | None => false
         end then Dead
      else by_cmdline o pid (λ c, _cmdline_matches_v2 c (text (dget_none "anima" d)) (text (dget_none "job_id" d)))
  end.
Definition classify_processing_lease (o : os_view) (expected_anima : option string) (f : json_file) : liveness :=
  match f with
  | Contents (JObj d) =>
      if negb (_validate_common_fields d expected_anima) then Dead else
      let v := dget_none "schema_version" d in
      if py_eq v (JInt 2) then _classify_v2 o d else
      if negb (py_eq v JNull) && negb (py_eq v (JInt 1)) then Dead else
      _classify_v1 o d
  | _ => Dead
  end.
Definition is_processing_lease_live (o : os_view) (expected_anima : option string) (f : json_file) : bool :=
  negb (bool_decide (classify_processing_lease o expected_anima f = Dead)).
Definition read_processing_lease (f : json_file) : option dict :=
  match f with Contents (JObj d) => Some d | _ => None end.

(* ------------------------------------------------------------------ *)
(** ** What a lease says of its process *)

Record valid_job (j : job) : Prop := {
  vj_pid : (0 < task_pid j)%Z;
  vj_pgid : (0 < pgid j)%Z;
  vj_epoch : root_epoch j ≠ "";
  vj_id : job_id j ≠ "";
  vj_attempt : (1 <= job_attempt j)%Z
}.
Lemma positive z : (0 < z)%Z → _is_positive_int (JInt z) = true.
Proof. apply Z.ltb_lt. Qed.
Lemma not_empty s : s ≠ "" → nonempty (JStr s) = true.
Proof. intros Hs. simpl. unfold str_truthy. by rewrite bool_decide_eq_false_2. Qed.
(** A lease written for a job tells its process from every other one that gets
    the same number: the process is taken for the job's only if it was created
    at the recorded hundredth of a second and its command line names the anima
    and the job; what the system cannot tell counts as alive. *)
Theorem lease_fence o now pid anima task_id j started : (0 < pid)%Z → anima ≠ "" → task_id ≠ "" → valid_job j →
  start_time j = Some started →
  classify_processing_lease o (Some anima) (Contents (JObj (lease_payload o now pid anima task_id (Some j)))) =
    match _pid_exists o (task_pid j) with
    | Some false => Dead
    | None => Uncertain
    | Some true =>
        if match _process_create_time o (task_pid j) with
           | Some t => negb (_centisecond t =? _centisecond started)%Z
           | None => false
           end then Dead
        else by_cmdline o (task_pid j) (λ c, _cmdline_matches_v2 c anima (job_id j))
    end.
Proof.
  intros Hp Ha Ht [H1 H2 H3 H4 H5] Hs. unfold classify_processing_lease.
  set (d := lease_payload o now pid anima task_id (Some j)).
  assert (_validate_common_fields d (Some anima) = true) as ->.
  { unfold _validate_common_fields, d, lease_payload. cbn [dget_none dget_default dget app].
    change (dget_none "pid" _) with (JInt pid). rewrite (positive _ Hp). change (dget_none "anima" _) with (JStr anima).
    rewrite (not_empty _ Ha). change (dget_none "task_id" _) with (JStr task_id). rewrite (not_empty _ Ht). simpl.
    by rewrite bool_decide_eq_true_2. }
  change (dget_none "schema_version" d) with (JInt 2). change (py_eq (JInt 2) (JInt 2)) with true. cbn [negb].
  unfold _classify_v2. change (dget_none "task_pid" d) with (JInt (task_pid j)). change (dget_none "pgid" d) with (JInt (pgid j)).
  change (dget_none "root_epoch" d) with (JStr (root_epoch j)). change (dget_none "job_id" d) with (JStr (job_id j)).
  change (dget_none "attempt" d) with (JInt (job_attempt j)). change (dget_none "anima" d) with (JStr anima).
  rewrite !positive, !not_empty by (done || lia).
  assert (dget_none "process_start_time" d = JFloat started) as -> by (unfold d, lease_payload; rewrite Hs; done). done.
Qed.
