(* ===== verification/Commands.v ===== *)
(** * Command descriptors ([core/supervisor/pending_executor.py])

    [animaworks-tool submit] writes a descriptor into the pending directory;
    the watcher moves it into [processing/], leases it, runs the command and
    deletes it.  A command is at least submitted to the manager of background
    tasks ([launches]); one that runs on is [tracked] until its done callback.
    At a restart the descriptors left behind are returned to their owners.

    A descriptor carries a serial number and its time of arrival; directories
    are maps from the stem of a file name.  The executor's own state
    ([Executor]) is shared with the tasks of the store, which run beside. *)

From Stdlib Require Import QArith.
From stdpp Require Import prelude strings list gmap sorting.
From S2P Require Import Prelude PyValue PyText JsonText Sql TaskModels TaskStore TaskQueue.
From S2P Require Import Activity Cascade Mailbox Channels Messenger Executor Fleet Lease.
Open Scope nat_scope.

Record descriptor := mk_descriptor { serial : nat; arrived : Q; body : json_file }.
Record desk := mk_desk {
  ex : executor;
  pending_dir : gmap string descriptor;
  processing_dir : gmap string descriptor;
  leases : gmap string json_file;
  _attempt_by_task_id : gmap string Z;
  (** the commands still running: task and file *)
  tracked : list (string * string);
  (** the serial numbers of the descriptors that were run *)
  ran : list nat
}.
Definition set_ex v s := mk_desk v (pending_dir s) (processing_dir s) (leases s) (_attempt_by_task_id s) (tracked s) (ran s).
Definition set_pending v s := mk_desk (ex s) v (processing_dir s) (leases s) (_attempt_by_task_id s) (tracked s) (ran s).
Definition set_processing v s := mk_desk (ex s) (pending_dir s) v (leases s) (_attempt_by_task_id s) (tracked s) (ran s).
Definition set_leases v s := mk_desk (ex s) (pending_dir s) (processing_dir s) v (_attempt_by_task_id s) (tracked s) (ran s).
Definition set_tracked v s := mk_desk (ex s) (pending_dir s) (processing_dir s) (leases s) (_attempt_by_task_id s) v (ran s).
Definition set_ran v s := mk_desk (ex s) (pending_dir s) (processing_dir s) (leases s) (_attempt_by_task_id s) (tracked s) v.
Definition active (s : desk) : gset string := _active_task_ids (ex s).
Definition set_active_ids (v : gset string) (s : desk) : desk := set_ex (set_active v (ex s)) s.

(** How the call that runs a command ends: the command goes on in the
    background, is over, or an exception. *)
Inductive launch := Goes_on | Is_over | Raises.
Record desk_env := mk_desk_env {
  xe : exec_env;
  probe : os_view;
  lease_time : Q;
  leases_writable : bool;
  renames : string → bool;
  launches : string → launch
}.

Definition in_ex {A} (m : M executor A) : M desk A := λ s, let '(r, x) := m (ex s) in (r, set_ex x s).
(** Descriptors in the order of their arrival. *)
Definition arrives_before (x y : string * descriptor) : Prop := Qle_bool (arrived x.2) (arrived y.2) = true.
#[global] Instance arrives_before_dec : ∀ x y, Decision (arrives_before x y).
Proof. intros x y. unfold arrives_before. apply _. Defined.
Definition _order_pending_claims (d : gmap string descriptor) : list string := fst <$> merge_sort arrives_before (map_to_list d).

(** [_unlink_processing_descriptor]: the descriptor and its lease. *)
Definition _unlink_processing_descriptor (stem : string) (s : desk) : desk :=
  set_leases (delete stem (leases s)) (set_processing (delete stem (processing_dir s)) s).

Section commands.
Context `{Oracle, Calendar, FloatText, Codec, Listing file, Processes, Wording}.

Definition task_id_of (stem : string) (desc : dict) : string :=
strip (str_json (json_or (dget_none "task_id" desc) (JStr stem))).

Definition _should_defer_claim (stem : string) (desc : dict) (s : desk) : bool :=
let tid := task_id_of stem desc in
if negb (bool_decide (stem = tid)) then false else
bool_decide (tid ∈ active s) || bool_decide (is_Some (processing_dir s !! stem)).

(** The lease on record is that of an attempt this process made, and alive. *)
Definition same_attempt (e : desk_env) (stem tid : string) (s : desk) : bool :=
match leases s !! stem ≫= read_processing_lease with
| None => false
| Some lease =>
    match dget_none "attempt" lease with
    | JInt a => (1 <=? a)%Z && bool_decide (_attempt_by_task_id s !! tid = Some a) &&
                is_processing_lease_live (probe e) (Some (self (xe e))) (default NoFile (leases s !! stem))
    | _ => false
    end
end.
Definition _claim_processing_task (e : desk_env) (stem : string) (desc : dict) : M desk (option string) :=
let tid := task_id_of stem desc in
again ← gets (same_attempt e stem tid);
if again : bool then mret None else
if negb (leases_writable e) then _ ← modify (_unlink_processing_descriptor stem); mret None else
_ ← modify (λ s, set_leases
      (<[stem := Contents (JObj (lease_payload (probe e) (lease_time e) (getpid (xe e)) (self (xe e)) tid None))]> (leases s)) s);
taken ← gets (λ s, bool_decide (tid ∈ active s));
if taken : bool then _ ← modify (_unlink_processing_descriptor stem); mret None else
_ ← modify (λ s, set_active_ids ({[tid]} ∪ active s) s);
mret (Some tid).

(** What is left when a command is over: [_done] of [_track_command_claim]. *)
Definition finish_command (x : string * string) (s : desk) : desk :=
let s := _unlink_processing_descriptor x.2 s in
set_tracked (filter (λ y, y.1 ≠ x.1) (tracked s)) (set_active_ids (active s ∖ {[x.1]}) s).

(** One file of the pending directory. *)
Definition process_one (e : desk_env) (stem : string) : M desk unit :=
found ← gets (λ s, pending_dir s !! stem);
match found with
| None => raise (FileNotFoundError stem)
| Some d =>
    match body d with
    | Unreadable => modify (λ s, set_pending (delete stem (pending_dir s)) s)
    | NoFile => raise (FileNotFoundError stem)
    | NotUtf8 => raise (ValueError "utf-8")
    | Contents (JObj desc) =>
        defer ← gets (_should_defer_claim stem desc);
        if defer : bool then mret tt else
        if negb (renames e stem) then mret tt else
        _ ← modify (λ s, set_processing (<[stem := d]> (processing_dir s)) (set_pending (delete stem (pending_dir s)) s));
        claimed ← _claim_processing_task e stem desc;
        match claimed with
        | None => mret tt
        | Some tid =>
            _ ← modify (λ s, set_ran (ran s ++ [serial d]) s);
            match launches e stem with
            | Goes_on => modify (λ s, set_tracked (tracked s ++ [(tid, stem)]) s)
            | Is_over | Raises => modify (λ s, set_active_ids (active s ∖ {[tid]}) (_unlink_processing_descriptor stem s))
            end
        end
    | Contents _ => raise (AttributeError "get")
    end
end.
Definition commands_pass (e : desk_env) : M desk unit :=
names ← gets (λ s, _order_pending_claims (pending_dir s));
for_each names (process_one e).
(** One turn of [watcher_loop]: the commands, then the tasks of the store. *)
Definition watcher_turn (e : desk_env) : M desk unit :=
_ ← commands_pass e;
in_ex (watcher_pass (xe e)).

(** A descriptor left in [processing/] by a process that is gone. *)
Definition interrupted_text : string :=
"INTERRUPTED: the run was interrupted and may have PARTIALLY EXECUTED (commits/messages may already exist). Verify the actual state before running this task again.".
Definition recover_orphan (e : desk_env) (stem : string) : M desk unit :=
found ← gets (λ s, (default (mk_descriptor 0 0 NoFile) (processing_dir s !! stem), default NoFile (leases s !! stem)));
let '(d, lease) := found in
if is_processing_lease_live (probe e) (Some (self (xe e))) lease then mret tt else
match body d with
| NotUtf8 => raise (ValueError "utf-8")
| f =>
    let desc := match f with Contents (JObj desc) => desc | _ => [] end in
    let tid := str_or (strip (str_json (json_or (dget_none "task_id" desc) (JStr "")))) stem in
    _ ← modify (_unlink_processing_descriptor stem);
    in_ex (_return_task_to_pending (xe e) (dset "task_id" (JStr tid) desc) interrupted_text "crash")
end.
Definition _recover_processing (e : desk_env) : M desk unit :=
orphans ← gets (λ s, elements (dom (processing_dir s)));
for_each orphans (recover_orphan e).
(** A new process of the anima, up to its first turn. *)
Definition restart (e : desk_env) : M desk unit :=
_ ← modify (λ s, mk_desk (set_active ∅ (ex s)) (pending_dir s) (processing_dir s) (leases s) ∅ [] (ran s));
_recover_processing e.

(** [animaworks-tool submit]: the file appears, and is then written. *)
Definition open_descriptor (stem : string) (n : nat) (t : Q) (s : desk) : desk :=
set_pending (<[stem := mk_descriptor n t Unreadable]> (pending_dir s)) s.
Definition write_descriptor (stem : string) (desc : dict) (s : desk) : desk :=
set_pending (alter (λ d, mk_descriptor (serial d) (arrived d) (Contents (JObj desc))) stem (pending_dir s)) s.
End commands.
