(* ===== verification/CommandsProps.v ===== *)
(** * What becomes of command descriptors

    Whatever is submitted and in whatever order turns, completions, restarts
    and the work on other tasks follow each other, a descriptor is run at most
    once, no two commands of one task run at a time, and the descriptor of a
    running command stays on disk until it is over; a turn runs whatever waits.
    And one descriptor that is not an object stops the watcher altogether. *)

From Stdlib Require Import QArith.
From stdpp Require Import prelude strings list gmap sorting.
From S2P Require Import Prelude PyValue PyText JsonText Sql TaskModels TaskStore TaskQueue.
From S2P Require Import Activity Cascade Mailbox Channels Messenger Executor Fleet Lease Commands.
Open Scope nat_scope.

Section commands.
Context `{Oracle, Calendar, FloatText, Codec, Listing file, Processes, Wording}.

(** A serial number that was not used, and a descriptor as the tool writes it. *)
Definition unused (n : nat) (s : desk) : Prop :=
n ∉ ran s ∧ ∀ stem d, pending_dir s !! stem = Some d → serial d ≠ n.
Definition canonical (stem : string) (f : json_file) : Prop :=
match f with Contents (JObj desc) => task_id_of stem desc = stem | Contents _ => False | _ => True end.

Inductive desk_step : desk → desk → Prop :=
| step_open stem n t s : pending_dir s !! stem = None → unused n s → desk_step s (open_descriptor stem n t s)
| step_write stem desc s : task_id_of stem desc = stem → desk_step s (write_descriptor stem desc s)
| step_turn e s : desk_step s (snd (commands_pass e s))
| step_done x s : x ∈ tracked s → desk_step s (finish_command x s)
| step_beside ex' leases' attempts' s : (∀ x, x ∈ tracked s → x.1 ∈ _active_task_ids ex') →
    desk_step s (mk_desk ex' (pending_dir s) (processing_dir s) leases' attempts' (tracked s) (ran s))
| step_restart e s : desk_step s (snd (restart e s)).

Record desk_inv (s : desk) : Prop := {
  di_once : NoDup (ran s);
  di_fresh : ∀ stem d, pending_dir s !! stem = Some d → serial d ∉ ran s;
  di_distinct : ∀ a b d d', pending_dir s !! a = Some d → pending_dir s !! b = Some d' → serial d = serial d' → a = b;
  di_canonical : ∀ stem d, pending_dir s !! stem = Some d → canonical stem (body d);
  di_exclusive : NoDup (fst <$> tracked s);
  di_active : ∀ x, x ∈ tracked s → x.1 ∈ active s ∧ x.2 = x.1 ∧ is_Some (processing_dir s !! x.1)
}.

Lemma open_inv stem n t s : pending_dir s !! stem = None → unused n s → desk_inv s → desk_inv (open_descriptor stem n t s).
Proof.
intros Hno [Hn Hu] [J1 J2 J3 J4 J5 J6]. split; try done; unfold open_descriptor; cbn [pending_dir set_pending ran].
- intros k d [[<- <-]|[Hk Hd]]%lookup_insert_Some; [done|]. by eapply J2.
- intros a b d d'. rewrite !lookup_insert_Some. intros [[<- <-]|[Ha Hd]] [[<- <-]|[Hb Hd']] E; [done| | |by eapply J3].
  + exfalso. by eapply (Hu _ _ Hd').
  + exfalso. by eapply (Hu _ _ Hd).
- intros k d [[<- <-]|[Hk Hd]]%lookup_insert_Some; [done|]. by eapply J4.
Qed.
Lemma write_inv stem desc s : task_id_of stem desc = stem → desk_inv s → desk_inv (write_descriptor stem desc s).
Proof.
intros Hc [J1 J2 J3 J4 J5 J6]. unfold write_descriptor.
assert (∀ k d, alter (λ d, mk_descriptor (serial d) (arrived d) (Contents (JObj desc))) stem (pending_dir s) !! k = Some d →
  ∃ d0, pending_dir s !! k = Some d0 ∧ serial d = serial d0 ∧ (body d = body d0 ∨ (k = stem ∧ body d = Contents (JObj desc)))) as Ha.
{ intros k d. rewrite lookup_alter_Some. intros [(<- & d0 & E & ->)|[Hk E]]; eexists; eauto. }
split; try done; cbn [pending_dir set_pending ran].
- intros k d (d0 & E & -> & _)%Ha. by eapply J2.
- intros a b d d' (d0 & E & E1 & _)%Ha (d0' & E' & E1' & _)%Ha Heq. eapply J3; [done..|congruence].
- intros k d (d0 & E & _ & [-> | [-> ->]])%Ha; [by eapply J4|done].
Qed.
Lemma finish_inv x s : x ∈ tracked s → desk_inv s → desk_inv (finish_command x s).
Proof.
intros Hx [J1 J2 J3 J4 J5 J6]. destruct (J6 x Hx) as (Hact & Hstem & _).
split; try done; unfold finish_command, _unlink_processing_descriptor, set_active_ids, active; simpl.
- eapply sublist_NoDup; [done|]. apply fmap_sublist, sublist_filter.
- intros y [Hne Hy]%list_elem_of_filter. destruct (J6 y Hy) as (Ha & Hs & Hp). split_and!; [|done|].
  + unfold active in Ha. set_solver.
  + rewrite Hstem. by rewrite lookup_delete_ne.
Qed.
Lemma restart_parts e : ∀ s, let s' := snd (_recover_processing e s) in
  pending_dir s' = pending_dir s ∧ ran s' = ran s ∧ tracked s' = tracked s.
Proof.
assert (within (fixes (λ s, (pending_dir s, ran s, tracked s))) (_recover_processing e)) as Hw.
{ unfold _recover_processing. apply within_bind; [apply within_gets|]. intros l. apply within_for_each. intros stem _.
  unfold recover_orphan. apply within_bind; [apply within_gets|]. intros [d lease]. case_match; [apply within_ret|].
  assert (∀ m : M executor unit, within (fixes (λ s, (pending_dir s, ran s, tracked s))) (in_ex m)) as Hex.
  { intros m s. unfold in_ex. by destruct (m (ex s)). }
  case_match; try apply within_raise; (apply within_bind; [by apply within_modify|intros _; apply Hex]). }
intros s s'. specialize (Hw s). unfold fixes in Hw. by injection Hw.
Qed.
Lemma restart_inv e s : desk_inv s → desk_inv (snd (restart e s)).
Proof.
intros [J1 J2 J3 J4 J5 J6]. unfold restart, mbind, M_bind, modify. cbn [snd].
set (s0 := mk_desk _ _ _ _ _ _ _). destruct (restart_parts e s0) as (Hp & Hr & Ht).
split; rewrite ?Hp, ?Hr, ?Ht; try done; cbn [s0 tracked]; [constructor|by intros x ?%not_elem_of_nil].
Qed.

(** A descriptor leaves the pending directory, unused, *)
Lemma desk_moved_inv stem s s' : desk_inv s → stem ∉ active s → pending_dir s' = delete stem (pending_dir s) → ran s' = ran s →
  tracked s' = tracked s → active s ⊆ active s' → (∀ k, k ≠ stem → processing_dir s' !! k = processing_dir s !! k) → desk_inv s'.
Proof.
intros [J1 J2 J3 J4 J5 J6] Hst Hp Hr Ht Ha Hk. split; rewrite ?Hp, ?Hr, ?Ht; try done.
- intros k d [_ Hd]%lookup_delete_Some. by eapply J2.
- intros a b d d' [_ Hd]%lookup_delete_Some [_ Hd']%lookup_delete_Some. by apply J3.
- intros k d [_ Hd]%lookup_delete_Some. by eapply J4.
- intros x Hx. destruct (J6 x Hx) as (E1 & E2 & E3). split_and!; [set_solver|done|]. rewrite Hk; [done|]. intros E. apply Hst. by rewrite <-E.
Qed.
(** or to be run. *)
Lemma ran_inv stem d more s s' : desk_inv s → stem ∉ active s → pending_dir s !! stem = Some d →
  pending_dir s' = delete stem (pending_dir s) → ran s' = ran s ++ [serial d] → tracked s' = tracked s ++ more → active s ⊆ active s' →
  (∀ k, k ≠ stem → processing_dir s' !! k = processing_dir s !! k) →
  more = [] ∨ (more = [(stem, stem)] ∧ stem ∈ active s' ∧ is_Some (processing_dir s' !! stem)) → desk_inv s'.
Proof.
intros [J1 J2 J3 J4 J5 J6] Hst Hd Hp Hr Ht Ha Hk Hmore.
assert (∀ x, x ∈ tracked s → x.1 ≠ stem) as Hne by (intros x Hx E; apply Hst; rewrite <-E; by apply J6).
split; rewrite ?Hp, ?Hr, ?Ht.
- apply NoDup_app. split_and!; [done| |apply NoDup_singleton]. intros n Hn ->%list_elem_of_singleton. by apply (J2 _ _ Hd).
- intros k d' [Hks Hd']%lookup_delete_Some [Hin| E%list_elem_of_singleton]%elem_of_app; [by eapply J2|].
  apply Hks. symmetry. by eapply J3.
- intros a b d1 d2 [_ Hd1]%lookup_delete_Some [_ Hd2]%lookup_delete_Some. by apply J3.
- intros k d' [_ Hd']%lookup_delete_Some. by eapply J4.
- destruct Hmore as [-> | (-> & _ & _)]; [by rewrite app_nil_r|]. rewrite fmap_app. apply NoDup_app. split_and!; [done| |apply NoDup_singleton].
  intros n (x & -> & Hx)%list_elem_of_fmap E%list_elem_of_singleton. by apply (Hne x).
- intros x [Hx|Hx]%elem_of_app.
  + destruct (J6 x Hx) as (E1 & E2 & E3). split_and!; [set_solver|done|]. rewrite Hk; [done|]. by apply Hne.
  + destruct Hmore as [-> | (-> & Hin & Hpr)]; [by apply not_elem_of_nil in Hx|]. apply list_elem_of_singleton in Hx as ->. done.
Qed.
Lemma process_inv e stem : within (keeps desk_inv) (process_one e stem).
Proof.
intros s Hinv. unfold process_one. unfold mbind at 1, M_bind at 1, gets at 1.
destruct (pending_dir s !! stem) as [d|] eqn:Hd; [|done]. pose proof (di_canonical _ Hinv _ _ Hd) as Hc.
destruct (body d) as [| | |v] eqn:Hb; [done| |done|].
{ destruct Hinv as [J1 J2 J3 J4 J5 J6]. split; cbn [modify snd pending_dir set_pending ran tracked]; try done.
  - intros k d' [_ Hd']%lookup_delete_Some. by eapply J2.
  - intros a b d1 d2 [_ Hd1]%lookup_delete_Some [_ Hd2]%lookup_delete_Some. by apply J3.
  - intros k d' [_ Hd']%lookup_delete_Some. by eapply J4. }
destruct v as [| | | | | |desc]; try done. simpl in Hc.
unfold mbind at 1, M_bind at 1, gets at 1. unfold _should_defer_claim. rewrite Hc, (bool_decide_eq_true_2 (stem = stem)) by done.
cbn [negb]. destruct (_ || _) eqn:Hdef; [done|]. apply orb_false_iff in Hdef as [Hact _]. apply bool_decide_eq_false in Hact.
destruct (renames e stem); [|done]. cbn [negb]. unfold mbind at 1, M_bind at 1, modify at 1.
unfold mbind at 1, M_bind at 1, _claim_processing_task. rewrite Hc.
set (s1 := set_processing _ _). unfold mbind at 1, M_bind at 1, gets at 1.
assert (∀ k, k ≠ stem → <[stem:=d]> (processing_dir s) !! k = processing_dir s !! k) as Hins by (intros; by rewrite lookup_insert_ne).
assert (∀ k, k ≠ stem → delete stem (<[stem:=d]> (processing_dir s)) !! k = processing_dir s !! k) as Hdel.
{ intros. by rewrite lookup_delete_ne, lookup_insert_ne. }
destruct (same_attempt e stem stem s1); [by apply (desk_moved_inv stem s s1)|].
destruct (leases_writable e); [|by eapply (desk_moved_inv stem s)]. cbn [negb].
unfold mbind at 1, M_bind at 1, modify at 1. unfold mbind at 1, M_bind at 1, gets at 1.
rewrite (bool_decide_eq_false_2 (stem ∈ _)) by done. unfold mbind, M_bind, modify, mret, M_ret.
destruct (launches e stem); cbn [snd].
- apply (ran_inv stem d [(stem, stem)] s); try done; [unfold active; set_solver|]. right. split_and!; [done|unfold active; set_solver|].
  cbn. by rewrite lookup_insert_eq.
- apply (ran_inv stem d [] s); try done; [by rewrite app_nil_r|unfold active; cbn; set_solver|by left].
- apply (ran_inv stem d [] s); try done; [by rewrite app_nil_r|unfold active; cbn; set_solver|by left].
Qed.
Lemma desk_step_inv s s' : desk_step s s' → desk_inv s → desk_inv s'.
Proof.
intros [stem n t s0|stem desc s0|e s0|x s0|ex' leases' attempts' s0|e s0] Hinv.
- by apply open_inv.
- by apply write_inv.
- assert (within (keeps desk_inv) (commands_pass e)) as Hw; [|by apply Hw]. unfold commands_pass.
  apply within_bind; [apply within_gets|]. intros l. apply within_for_each. intros k _. apply process_inv.
- by apply finish_inv.
- destruct Hinv as [J1 J2 J3 J4 J5 J6]. split; try done. intros x Hx. destruct (J6 x Hx) as (_ & E2 & E3). split_and!; [|done..].
  cbn. auto.
- by apply restart_inv.
Qed.
(** An empty desk. *)
Definition clear_desk (x : executor) : desk := mk_desk x ∅ ∅ ∅ ∅ [] [].
(** C16. Commands are run at most once, and one at a time per task.  In every
    order of submissions, turns of the watcher, completions, restarts and work
    on other tasks: no descriptor is run twice; no two running commands have
    the same task; and while a command runs its task counts as active and its
    descriptor is kept, so that a crash can be reported. *)
Theorem commands_once x s : rtc desk_step (clear_desk x) s →
  NoDup (ran s) ∧ NoDup (fst <$> tracked s) ∧
  ∀ tid stem, (tid, stem) ∈ tracked s → tid ∈ active s ∧ stem = tid ∧ is_Some (processing_dir s !! tid).
Proof.
intros Hsteps. assert (desk_inv (clear_desk x)) as Hstart.
{ split; cbn [clear_desk ran pending_dir tracked];
    [apply NoDup_nil_2|by intros ? ? ?%lookup_empty_Some|by intros ? ? ? ? ?%lookup_empty_Some|by intros ? ? ?%lookup_empty_Some
    |apply NoDup_nil_2|by intros ? ?%not_elem_of_nil]. }
assert (desk_inv s) as [J1 J2 J3 J4 J5 J6].
{ induction Hsteps as [|s1 s2 s3 Hs _ IH]; [done|]. apply IH. by eapply desk_step_inv. }
split_and!; [done..|]. intros tid stem Hin. apply (J6 (tid, stem) Hin).
Qed.

(* ------------------------------------------------------------------ *)
(** ** A turn runs what waits *)

(** A descriptor that can be run at once. *)
Record waiting (stem : string) (d : descriptor) (s : desk) : Prop := {
  wt_pending : pending_dir s !! stem = Some d;
  wt_idle : stem ∉ active s;
  wt_unclaimed : processing_dir s !! stem = None;
  wt_unleased : leases s !! stem = None
}.
Definition readable (stem : string) (s : desk) : Prop :=
∃ d, pending_dir s !! stem = Some d ∧ canonical stem (body d) ∧ body d ≠ NotUtf8 ∧ body d ≠ NoFile.
Definition untouched (k : string) (s s' : desk) : Prop :=
pending_dir s' !! k = pending_dir s !! k ∧ processing_dir s' !! k = processing_dir s !! k ∧ leases s' !! k = leases s !! k ∧
(k ∈ active s' ↔ k ∈ active s).

(** One step: it returns, runs its own descriptor if it can, and leaves the
    others alone. *)
Lemma process_step e stem s : readable stem s → renames e stem = true → leases_writable e = true →
  ∃ s', process_one e stem s = (Ok tt, s') ∧ (∀ k, k ≠ stem → untouched k s s') ∧ (∀ n, n ∈ ran s → n ∈ ran s') ∧
    (∀ d desc, waiting stem d s → body d = Contents (JObj desc) → serial d ∈ ran s').
Proof.
intros (d & Hd & Hc & Hu & Hn) Hren Hlw. unfold process_one.
unfold mbind at 1, M_bind at 1, gets at 1. rewrite Hd.
destruct (body d) as [| | |v] eqn:Hb; [done| |done|].
{ eexists. split; [reflexivity|]. cbn. split_and!; [|done|intros d' desc [Hd' _ _ _]; congruence].
  intros k Hk. unfold untouched. cbn. by rewrite lookup_delete_ne. }
destruct v as [| | | | | |desc]; try done. simpl in Hc. unfold mbind at 1, M_bind at 1, gets at 1.
assert (_should_defer_claim stem desc s = bool_decide (stem ∈ active s) || bool_decide (is_Some (processing_dir s !! stem))) as ->.
{ unfold _should_defer_claim. by rewrite Hc, (bool_decide_eq_true_2 (stem = stem)). }
destruct (_ || _) eqn:Hdef.
{ eexists. split; [reflexivity|]. split_and!; [done|done|]. intros d' desc' [_ Hi Hp _] _. exfalso. revert Hdef.
  rewrite bool_decide_eq_false_2, bool_decide_eq_false_2; [done|rewrite Hp; by intros []|done]. }
apply orb_false_iff in Hdef as [Hact%bool_decide_eq_false _]. rewrite Hren. cbn [negb]. unfold mbind at 1, M_bind at 1, modify at 1.
unfold mbind at 1, M_bind at 1, _claim_processing_task. rewrite Hc. set (s1 := set_processing _ _).
unfold mbind at 1, M_bind at 1, gets at 1. destruct (same_attempt e stem stem s1) eqn:Hsame.
{ eexists. split; [reflexivity|]. split_and!; [|done|].
  - intros k Hk. unfold untouched. cbn. by rewrite lookup_delete_ne, lookup_insert_ne.
  - intros d' desc' [_ _ _ Hl] _. exfalso. unfold same_attempt in Hsame. cbn in Hsame. by rewrite Hl in Hsame. }
rewrite Hlw. cbn [negb]. unfold mbind at 1, M_bind at 1, modify at 1. unfold mbind at 1, M_bind at 1, gets at 1.
rewrite (bool_decide_eq_false_2 (stem ∈ _)) by done. unfold mbind, M_bind, modify, mret, M_ret.
destruct (launches e stem); (eexists; split; [reflexivity|]; split_and!;
  [intros k Hk; unfold untouched, active; cbn; rewrite ?lookup_delete_ne, ?lookup_insert_ne by done; split_and!; [done..|set_solver]
  |cbn; intros; set_solver|intros d' desc' [Hd' _ _ _] _; cbn; set_solver]).
Qed.
Lemma order_nodup m : NoDup (_order_pending_claims m).
Proof. unfold _order_pending_claims. rewrite merge_sort_Permutation. apply NoDup_fst_map_to_list. Qed.
Lemma elem_of_order m k : k ∈ _order_pending_claims m ↔ is_Some (m !! k).
Proof.
unfold _order_pending_claims. rewrite merge_sort_Permutation, list_elem_of_fmap. split.
- intros ([k' d] & -> & E%elem_of_map_to_list). by exists d.
- intros [d E%elem_of_map_to_list]. by exists (k, d).
Qed.
Lemma pass_loop e l : NoDup l → (∀ k, renames e k = true) → leases_writable e = true → ∀ s, (∀ k, k ∈ l → readable k s) →
  ∃ s', for_each l (process_one e) s = (Ok tt, s') ∧ (∀ n, n ∈ ran s → n ∈ ran s') ∧
    ∀ k d desc, k ∈ l → waiting k d s → body d = Contents (JObj desc) → serial d ∈ ran s'.
Proof.
intros Hnd Hren Hlw. induction l as [|x l IH]; intros s Hl; simpl; [exists s; split_and!; [done..|by intros ? ? ? ?%not_elem_of_nil]|].
apply NoDup_cons in Hnd as [Hx Hnd]. destruct (process_step e x s) as (s1 & E & Hun & Hran & Hdone); [apply Hl; left|done..|].
destruct (IH Hnd s1) as (s' & E' & Hran' & Hall).
{ intros k Hk. destruct (Hl k ltac:(by right)) as (d & Hd & Hrest). exists d. split; [|done].
  by rewrite (proj1 (Hun k ltac:(intros ->; done))). }
exists s'. unfold mbind, M_bind. rewrite E. split_and!; [done|auto|].
intros k d desc Hk Hw Hb. destruct (decide (k = x)) as [->|Hne]; [by eapply Hran', Hdone|].
apply elem_of_cons in Hk as [->|Hk]; [done|]. eapply Hall; [done| |done]. destruct (Hun k Hne) as (P1 & P2 & P3 & P4).
destruct Hw as [W1 W2 W3 W4]. split; [by rewrite P1|by rewrite P4|by rewrite P2|by rewrite P3].
Qed.
(** A turn over files that can be read, moved and leased completes, and runs
    every command whose task is not running or being cleaned up. *)
Theorem pass_runs_waiting e s : (∀ k, is_Some (pending_dir s !! k) → readable k s) → (∀ k, renames e k = true) →
  leases_writable e = true →
  ∃ s', commands_pass e s = (Ok tt, s') ∧
    ∀ k d desc, waiting k d s → body d = Contents (JObj desc) → serial d ∈ ran s'.
Proof.
intros Hr Hren Hlw. destruct (pass_loop e (_order_pending_claims (pending_dir s)) (order_nodup _) Hren Hlw s) as (s' & E & _ & Hall).
{ intros k Hk%elem_of_order. auto. }
exists s'. split; [exact E|]. intros k d desc Hw Hb. eapply Hall; [|done..]. apply elem_of_order. rewrite (wt_pending _ _ _ Hw). by eexists.
Qed.

(** ** One descriptor that is not an object stops everything *)
Theorem malformed_descriptor_blocks e s stem names d v : _order_pending_claims (pending_dir s) = stem :: names →
  pending_dir s !! stem = Some d → body d = Contents v → (∀ desc, v ≠ JObj desc) →
  watcher_turn e s = (Err (AttributeError "get"), s).
Proof.
intros Ho Hd Hb Hv. unfold watcher_turn, commands_pass. unfold mbind at 1, M_bind at 1. unfold mbind at 1, M_bind at 1, gets at 1.
rewrite Ho. cbn [for_each]. unfold mbind at 1, M_bind at 1, process_one. unfold mbind at 1, M_bind at 1, gets at 1. rewrite Hd, Hb.
destruct v; try done. by destruct (Hv kvs).
Qed.
End commands.
