(* ===== verification/CommandWitnesses.v ===== *)
(** * Command descriptors at work

    A command that is submitted, run and over, and what can go wrong with
    descriptors and leases. *)

From Stdlib Require Import QArith.
From stdpp Require Import prelude strings list gmap relations.
From S2P Require Import Prelude PyValue PyText JsonText Sql TaskModels TaskStore TaskQueue TaskWitnesses.
From S2P Require Import Activity Cascade Mailbox Channels Messenger IpcWitnesses MailWitnesses Executor ExecWitnesses.
From S2P Require Import Fleet Lease Commands CommandsProps.
Open Scope nat_scope.

#[local] Existing Instances TaskWitnesses.demo_oracle MailWitnesses.demo_calendar MailWitnesses.demo_codec MailWitnesses.demo_listing.
#[local] Existing Instances ExecWitnesses.demo_wording ExecWitnesses.demo_numbers.

Definition no_probe : os_view := mk_os_view (λ _, Some false) (λ _, None) (λ _, None).
Definition desk_at (l : launch) : desk_env := mk_desk_env demo_exec no_probe 0 true (λ _, true) (λ _, l).
Definition idle_executor : executor := executor_of w_empty.
Definition command (tid : string) : dict := [("task_id", JStr tid); ("tool_name", JStr "transcribe")].

(** Submitted in two steps, and run by the next turn. *)
Definition opened : desk := open_descriptor "a1" 0 10 (clear_desk idle_executor).
Definition submitted : desk := write_descriptor "a1" (command "a1") opened.
Definition running_desk : desk := snd (commands_pass (desk_at Goes_on) submitted).
Lemma running_reachable : rtc desk_step (clear_desk idle_executor) running_desk.
Proof.
  eapply rtc_l; [apply (step_open "a1" 0 10); [done|split; [by apply not_elem_of_nil|done]]|].
  eapply rtc_l; [apply (step_write "a1" (command "a1")); vm_compute; reflexivity|].
  eapply rtc_l; [apply (step_turn (desk_at Goes_on))|]. apply rtc_refl.
Qed.
Lemma running_tracked : ("a1", "a1") ∈ tracked running_desk.
Proof. assert (tracked running_desk = [("a1", "a1")]) as -> by (vm_compute; reflexivity). by left. Qed.
Lemma commands_once_witness : NoDup (ran running_desk) ∧ is_Some (processing_dir running_desk !! "a1").
Proof.
  destruct (commands_once idle_executor running_desk running_reachable) as (H1 & _ & H3).
  split; [exact H1|]. destruct (H3 "a1" "a1" running_tracked) as (_ & _ & Hp). exact Hp.
Defined.

(** The tool has created the file and not yet written it when the watcher
    reads it: the file is deleted, and the command is never run. *)
Example half_written_lost :
  let s := write_descriptor "a1" (command "a1") (snd (commands_pass (desk_at Goes_on) opened)) in
  pending_dir s = ∅ ∧ ran (snd (commands_pass (desk_at Goes_on) s)) = [].
Proof. split; vm_compute; reflexivity. Qed.

(** A file with an empty list in it: no command is run, and no task of the
    store is claimed, recovered or reported. *)
Definition stuck_desk : desk :=
  set_pending (<["odd" := mk_descriptor 7 5 (Contents (JList []))]> (pending_dir submitted)) submitted.
Example stuck_watcher : watcher_turn (desk_at Goes_on) stuck_desk = (Err (AttributeError "get"), stuck_desk).
Proof. vm_compute. reflexivity. Qed.
