(* ===== verification/InboxLimiter.v ===== *)
(** * The inbox rate limiter ([core/supervisor/inbox_rate_limiter.py])

    One asyncio loop runs the watcher, the deferred timer, the lock-released
    callback, the tasks they create and the scheduler's heartbeat; a step is a
    stretch of code between two suspension points, so the transition system
    has every interleaving of them.  What a step observes — unread mail, the
    mail itself, locks, files, the configuration — is given with the step and
    may be that a read raised.

    The theorems, by induction on the steps: at most one inbox run at a time
    and never one beside a heartbeat; no sender gets more than the threshold
    of runs in a window; and how the limiter can be stopped for good. *)

From stdpp Require Import prelude strings list gmap relations.
From Stdlib Require Import QArith Qminmax Lqa.
From S2P Require Import Prelude PyValue Mailbox.
Open Scope nat_scope.

Definition DISABLED_SKIP_LOG_COOLDOWN_SEC : Q := 30.


(** The settings of a limiter. *)
Record settings := mk_settings {
  anima_name : string;
  cooldown_sec : Q;
  cascade_window_s : Q;
  cascade_threshold : Z
}.

(** The timer variable: unset, set to a handle that is due, or set to one that
    has fired. *)
Inductive timer := NoTimer | Armed (due : Q) | Fired.

Abbreviation pair_times := (gmap (string * string) (list Q)).

Record limiter := mk_limiter {
  clock : Q;
  pending_trigger : bool;
  deferred_timer : timer;
  last_msg_heartbeat_end : Q;
  pair_heartbeat_times : pair_times;
  last_disabled_skip_log : Q;
  failure_retry_until : Q;
  (** the scheduler's flag, and whether its own heartbeat runs *)
  heartbeat_running : bool;
  scheduled_heartbeat : bool;
  (** tasks: deferred triggers and inbox runs created, inbox runs under way *)
  fired : nat;
  created : nat;
  running : list (list string)
}.

Definition initial (t : Q) : limiter := mk_limiter t false NoTimer 0 ∅ 0 0 false false 0 0 [].

Definition set_pending (b : bool) (s : limiter) : limiter :=
  mk_limiter (clock s) b (deferred_timer s) (last_msg_heartbeat_end s) (pair_heartbeat_times s)
    (last_disabled_skip_log s) (failure_retry_until s) (heartbeat_running s) (scheduled_heartbeat s) (fired s)
    (created s) (running s).
Definition set_timer (t : timer) (s : limiter) : limiter :=
  mk_limiter (clock s) (pending_trigger s) t (last_msg_heartbeat_end s) (pair_heartbeat_times s)
    (last_disabled_skip_log s) (failure_retry_until s) (heartbeat_running s) (scheduled_heartbeat s) (fired s)
    (created s) (running s).
Definition set_pairs (p : pair_times) (s : limiter) : limiter :=
  mk_limiter (clock s) (pending_trigger s) (deferred_timer s) (last_msg_heartbeat_end s) p
    (last_disabled_skip_log s) (failure_retry_until s) (heartbeat_running s) (scheduled_heartbeat s) (fired s)
    (created s) (running s).
Definition set_skip_log (t : Q) (s : limiter) : limiter :=
  mk_limiter (clock s) (pending_trigger s) (deferred_timer s) (last_msg_heartbeat_end s) (pair_heartbeat_times s)
    t (failure_retry_until s) (heartbeat_running s) (scheduled_heartbeat s) (fired s) (created s) (running s).
Definition set_retry (t : Q) (s : limiter) : limiter :=
  mk_limiter (clock s) (pending_trigger s) (deferred_timer s) (last_msg_heartbeat_end s) (pair_heartbeat_times s)
    (last_disabled_skip_log s) t (heartbeat_running s) (scheduled_heartbeat s) (fired s) (created s) (running s).
Definition set_tasks (f c : nat) (r : list (list string)) (s : limiter) : limiter :=
  mk_limiter (clock s) (pending_trigger s) (deferred_timer s) (last_msg_heartbeat_end s) (pair_heartbeat_times s)
    (last_disabled_skip_log s) (failure_retry_until s) (heartbeat_running s) (scheduled_heartbeat s) f c r.
Definition set_heartbeat (flag scheduled : bool) (s : limiter) : limiter :=
  mk_limiter (clock s) (pending_trigger s) (deferred_timer s) (last_msg_heartbeat_end s) (pair_heartbeat_times s)
    (last_disabled_skip_log s) (failure_retry_until s) flag scheduled (fired s) (created s) (running s).
Definition set_end (t : Q) (s : limiter) : limiter :=
  mk_limiter (clock s) (pending_trigger s) (deferred_timer s) t (pair_heartbeat_times s)
    (last_disabled_skip_log s) (failure_retry_until s) (heartbeat_running s) (scheduled_heartbeat s) (fired s)
    (created s) (running s).
Definition set_clock (t : Q) (s : limiter) : limiter :=
  mk_limiter t (pending_trigger s) (deferred_timer s) (last_msg_heartbeat_end s) (pair_heartbeat_times s)
    (last_disabled_skip_log s) (failure_retry_until s) (heartbeat_running s) (scheduled_heartbeat s) (fired s)
    (created s) (running s).

(** What a step reads: unread mail, the mail ([None]: the read raised), the
    inbox lock, the status file (absent, unreadable or parsed), the actionable
    intents of the configuration ([None]: loading it raised). *)
Record observation := mk_obs {
  o_unread : bool;
  o_inbox : option (list Message);
  o_locked : bool;
  o_status : option (option json);
  o_intents : option (list string)
}.

(* ------------------------------------------------------------------ *)
(** ** The parts *)

Definition is_immediately_actionable_intent (intent source : string) (actionable_intents : list string) : bool :=
  str_in intent actionable_intents ||
  bool_decide (intent = "delegation") && negb (str_in source ("human" :: EXTERNAL_PLATFORM_SOURCES)).

Definition read_anima_enabled (status : option (option json)) : bool :=
  match status with
  | Some (Some (JObj d)) => truthy (dget_default "enabled" (JBool true) d)
  | _ => true
  end.

Section limiter_ops.
Variable cfg : settings.

Definition is_in_cooldown (s : limiter) : bool :=
negb (Qle_bool (cooldown_sec cfg) (clock s - last_msg_heartbeat_end s)).
Definition retry_is_delayed (s : limiter) : bool := negb (Qle_bool (failure_retry_until s) (clock s)).

(** [blocked]: what the rate guard says, unless asking it failed. *)
Definition record_processing_failure (blocked : option Q) (s : limiter) : limiter :=
let delay := Qmax (cooldown_sec cfg) 30 in
let delay := match blocked with Some b => Qmax delay b | None => delay end in
set_retry (clock s + delay) s.

Definition is_external_directed (m : Message) : bool :=
str_in (source m) EXTERNAL_PLATFORM_SOURCES && str_truthy (intent m).
Definition has_external_platform_message (o : observation) : bool :=
match o_inbox o with Some ms => any is_external_directed ms | None => false end.

(** [self._pair_heartbeat_times.get(k, [])], and the eviction for one key. *)
Definition times_of (k : string * string) (p : pair_times) : list Q := default [] (p !! k).
Definition live (now t : Q) : bool := negb (Qle_bool (cascade_window_s cfg) (now - t)).
Definition evict_pair (now : Q) (k : string * string) (p : pair_times) : nat * pair_times :=
let times := filter (λ t, live now t = true) (times_of k p) in
(length times, match times with [] => delete k p | _ => <[k := times]> p end).

Fixpoint check_cascade (now : Q) (senders : list string) (p : pair_times) : bool * pair_times :=
match senders with
| [] => (false, p)
| sender :: rest =>
    let '(n1, p1) := evict_pair now (anima_name cfg, sender) p in
    let '(n2, p2) := evict_pair now (sender, anima_name cfg) p1 in
    if (cascade_threshold cfg <=? Z.of_nat (n1 + n2))%Z then (true, p2) else check_cascade now rest p2
end.

Definition record_pair (now : Q) (p : pair_times) (sender : string) : pair_times :=
let k := (anima_name cfg, sender) in <[k := times_of k p ++ [now]]> p.
Definition record_pair_heartbeat (now : Q) (senders : list string) (p : pair_times) : pair_times :=
foldl (record_pair now) p senders.

Definition schedule_deferred_trigger (s : limiter) : limiter :=
match deferred_timer s with
| NoTimer =>
    let remaining := Qmax (cooldown_sec cfg - (clock s - last_msg_heartbeat_end s)) (failure_retry_until s - clock s) in
    set_timer (Armed (clock s + Qmax remaining 2)) s
| _ => s
end.

Definition on_anima_lock_released (o : observation) (s : limiter) : limiter :=
if negb (o_unread o) then s else
if pending_trigger s then s else schedule_deferred_trigger s.

(** [self._pending_trigger = True; create_task(self.message_triggered_inbox())]. *)
Definition create_trigger (s : limiter) : limiter :=
set_tasks (fired s) (S (created s)) (running s) (set_pending true s).

Definition must_defer (o : observation) (s : limiter) : bool :=
retry_is_delayed s || (is_in_cooldown s && negb (has_external_platform_message o)) || o_locked o.

Definition try_deferred_trigger (o : observation) (s0 : limiter) : limiter :=
let s := set_timer NoTimer s0 in
if negb (o_unread o) then s else
if pending_trigger s then s else
if must_defer o s then schedule_deferred_trigger s else create_trigger s.

(** The log line about a disabled anima, at most one in 30 seconds. *)
Definition skip_disabled (s : limiter) : limiter :=
if Qle_bool DISABLED_SKIP_LOG_COOLDOWN_SEC (clock s - last_disabled_skip_log s) then set_skip_log (clock s) s else s.

(** One turn of [inbox_watcher_loop]. *)
Definition inbox_watcher_poll (o : observation) (s : limiter) : limiter :=
if pending_trigger s then s else
if negb (o_unread o) then s else
if must_defer o s then schedule_deferred_trigger s else
if negb (read_anima_enabled (o_status o)) then skip_disabled s else
create_trigger s.

(** [message_triggered_inbox] up to the inbox run. *)
Definition actionable (intents : list string) (ms : list Message) : bool :=
any (λ m, bool_decide (source m = "human")) ms || any is_external_directed ms ||
any (λ m, is_immediately_actionable_intent (intent m) (source m) intents) ms.
Definition cascade_senders (ms : list Message) : list string :=
remove_dups (from_person <$> filter (λ m, str_in (source m) EXTERNAL_PLATFORM_SOURCES = false) ms).

Definition trigger_start (o : observation) (s0 : limiter) : limiter :=
let s := set_tasks (fired s0) (pred (created s0)) (running s0) s0 in
if retry_is_delayed s then schedule_deferred_trigger (set_pending false s) else
if negb (read_anima_enabled (o_status o)) then set_pending false (skip_disabled s) else
if heartbeat_running s then set_pending false s else
match o_inbox o, o_intents o with
| Some ms, Some intents =>
    if negb (actionable intents ms) then set_pending false s else
    let senders := cascade_senders ms in
    let '(blocked, p) := match senders with
                         | [] => (false, pair_heartbeat_times s)
                         | _ => check_cascade (clock s) senders (pair_heartbeat_times s)
                         end in
    let s := set_pairs p s in
    if blocked : bool then set_pending false s
    else set_heartbeat true (scheduled_heartbeat s) (set_tasks (fired s) (created s) (senders :: running s) s)
| _, _ => s
end.

(** How the inbox run ended. *)
Inductive run_outcome := Succeeded | Failed (blocked : option Q) | Cancelled.

(** The rest of [message_triggered_inbox], with the senders it was started for. *)
Definition trigger_finish (r : run_outcome) (senders : list string) (rest : list (list string)) (s0 : limiter) : limiter :=
let s1 := match r with
          | Succeeded => set_retry 0 s0
          | Failed blocked => record_processing_failure blocked s0
          | Cancelled => s0
          end in
let s2 := set_end (clock s1) (set_pending false (set_heartbeat false (scheduled_heartbeat s1) s1)) in
let s3 := set_pairs (record_pair_heartbeat (clock s2) senders (pair_heartbeat_times s2)) s2 in
set_tasks (fired s3) (created s3) rest s3.

Definition cancel_deferred_timer (s : limiter) : limiter := set_timer NoTimer s.

(* ------------------------------------------------------------------ *)
(** ** The transition system *)

Inductive step : limiter → limiter → Prop :=
| StTime s d : (0 <= d)%Q → step s (set_clock (clock s + d) s)
| StPoll s o : step s (inbox_watcher_poll o s)
| StLockReleased s o : step s (on_anima_lock_released o s)
| StTimer s due : deferred_timer s = Armed due → (due <= clock s)%Q →
  step s (set_tasks (S (fired s)) (created s) (running s) (set_timer Fired s))
| StDeferred s o n : fired s = S n →
  step s (try_deferred_trigger o (set_tasks n (created s) (running s) s))
| StStart s o n : created s = S n → step s (trigger_start o s)
| StFinish s r l1 senders l2 : running s = l1 ++ senders :: l2 → step s (trigger_finish r senders (l1 ++ l2) s)
| StHeartbeat s : heartbeat_running s = false → step s (set_heartbeat true true s)
| StHeartbeatEnd s : scheduled_heartbeat s = true → step s (set_heartbeat false false s)
| StCancel s : step s (cancel_deferred_timer s).

Definition reachable (s : limiter) : Prop := ∃ t, rtc step (initial t) s.
End limiter_ops.

(* ------------------------------------------------------------------ *)
(** ** Exclusion *)

Section invariants.
Variable cfg : settings.

Record exclusive (s : limiter) : Prop := {
ex_one : created s + length (running s) ≤ 1;
ex_pending : created s + length (running s) = 1 → pending_trigger s = true;
ex_beat : (if scheduled_heartbeat s then 1 else 0) + length (running s) ≤ 1;
ex_flag : heartbeat_running s = scheduled_heartbeat s || negb (bool_decide (running s = []))
}.

(** A change of the state that keeps what exclusion and the pairs depend on. *)
Definition frame (s s' : limiter) : Prop :=
clock s' = clock s ∧ created s' = created s ∧ running s' = running s ∧
scheduled_heartbeat s' = scheduled_heartbeat s ∧ heartbeat_running s' = heartbeat_running s ∧
pair_heartbeat_times s' = pair_heartbeat_times s.

Lemma exclusive_frame s s' :
frame s s' → (pending_trigger s' = pending_trigger s ∨ created s + length (running s) = 0) →
exclusive s → exclusive s'.
Proof.
intros (_ & Hc & Hr & Hs & Hh & _) Hp [E1 E2 E3 E4]. split; rewrite ?Hc, ?Hr, ?Hs, ?Hh; try done.
intros H1. destruct Hp as [->|H0]; [by apply E2|lia].
Qed.

Lemma schedule_frame s : frame s (schedule_deferred_trigger cfg s) ∧
pending_trigger (schedule_deferred_trigger cfg s) = pending_trigger s.
Proof. unfold schedule_deferred_trigger, frame. by destruct (deferred_timer s). Qed.
Lemma skip_frame s : frame s (skip_disabled s) ∧ pending_trigger (skip_disabled s) = pending_trigger s.
Proof. unfold skip_disabled, frame. by destruct (Qle_bool _ _). Qed.

Lemma exclusive_schedule s : exclusive s → exclusive (schedule_deferred_trigger cfg s).
Proof. destruct (schedule_frame s) as [? ?]. apply exclusive_frame; [done|by left]. Qed.
Lemma exclusive_skip s : exclusive s → exclusive (skip_disabled s).
Proof. destruct (skip_frame s) as [? ?]. apply exclusive_frame; [done|by left]. Qed.

Lemma exclusive_trigger s : pending_trigger s = false → exclusive s → exclusive (create_trigger s).
Proof.
intros Hp [E1 E2 E3 E4].
assert (created s + length (running s) = 0) as H0.
{ destruct (created s + length (running s)) as [|[|]] eqn:E; [done| |lia]. rewrite E2 in Hp; done. }
split; simpl; try done; lia.
Qed.

Lemma exclusive_start o s n : created s = S n → exclusive s → exclusive (trigger_start cfg o s).
Proof.
intros Hc [E1 E2 E3 E4].
assert (n = 0 ∧ running s = []) as [-> Hr].
{ rewrite Hc in E1. destruct (running s); simpl in *; [split; [lia|done]|lia]. }
set (s1 := set_tasks (fired s) (pred (created s)) (running s) s).
assert (created s1 = 0 ∧ running s1 = []) as [Hc1 Hr1] by (unfold s1; simpl; by rewrite Hc).
assert (∀ s', created s' = created s1 → running s' = running s1 → scheduled_heartbeat s' = scheduled_heartbeat s1 →
  heartbeat_running s' = heartbeat_running s1 → exclusive s') as Hidle.
{ intros s' C1 C2 C3 C4. split; rewrite ?C1, ?C2, ?C3, ?C4, ?Hc1, ?Hr1; simpl; [lia|lia| |].
  - destruct (scheduled_heartbeat s); lia.
  - rewrite Hr in E4. done. }
unfold trigger_start. fold s1.
destruct (retry_is_delayed s1); [destruct (schedule_frame (set_pending false s1)) as [(? & ? & ? & ? & ? & ?) _]; by apply Hidle|].
destruct (negb (read_anima_enabled _)); [destruct (skip_frame s1) as [(? & ? & ? & ? & ? & ?) _]; by apply Hidle|].
destruct (heartbeat_running s1) eqn:Ehb; [by apply Hidle|].
destruct (o_inbox o) as [ms|]; [|by apply Hidle]. destruct (o_intents o) as [intents|]; [|by apply Hidle].
destruct (negb (actionable _ _)); [by apply Hidle|].
destruct (match cascade_senders ms with [] => _ | _ => _ end) as [[] p]; [by apply Hidle|].
assert (scheduled_heartbeat s = false) as Hsch.
{ change (heartbeat_running s = false) in Ehb. rewrite E4 in Ehb. by apply orb_false_iff in Ehb as [? _]. }
split; simpl; rewrite ?Hc, ?Hr, ?Hsch; simpl; try lia; try done.
intros _. apply E2. rewrite Hc, Hr. done.
Qed.

Lemma exclusive_finish r senders l1 l2 s :
running s = l1 ++ senders :: l2 → exclusive s → exclusive (trigger_finish cfg r senders (l1 ++ l2) s).
Proof.
intros Hr [E1 E2 E3 E4].
assert (l1 = [] ∧ l2 = [] ∧ created s = 0 ∧ scheduled_heartbeat s = false) as (-> & -> & Hc & Hs).
{ rewrite Hr, length_app in E1, E3. simpl in *. destruct l1, l2, (scheduled_heartbeat s); simpl in *; try lia.
  split_and!; try done; lia. }
assert (∀ x, created x = 0 → scheduled_heartbeat x = false → running x = [] → heartbeat_running x = false → exclusive x)
  as Hidle.
{ intros x H1 H2 H3 H4. split; rewrite ?H1, ?H2, ?H3, ?H4; simpl; try lia; try done. }
unfold trigger_finish. destruct r; apply Hidle; done.
Qed.

Lemma exclusive_step s s' : step cfg s s' → exclusive s → exclusive s'.
Proof.
intros Hst He. destruct Hst as [s d Hd|s o|s o|s due Ht Hd|s o n Hf|s o n Hc|s r l1 senders l2 Hr|s Hh|s Hh|s].
- by destruct He.
- unfold inbox_watcher_poll. destruct (pending_trigger s) eqn:Ep; [done|]. destruct (negb (o_unread o)); [done|].
  destruct (must_defer _ _ _); [by apply exclusive_schedule|].
  destruct (negb (read_anima_enabled _)); [by apply exclusive_skip|by apply exclusive_trigger].
- unfold on_anima_lock_released. destruct (negb (o_unread o)); [done|]. destruct (pending_trigger s); [done|].
  by apply exclusive_schedule.
- by destruct He.
- set (s1 := set_tasks n (created s) (running s) s). assert (exclusive (set_timer NoTimer s1)) as He1 by by destruct He.
  unfold try_deferred_trigger. destruct (negb (o_unread o)); [done|].
  destruct (pending_trigger (set_timer NoTimer s1)) eqn:Ep; [done|].
  destruct (must_defer _ _ _); [by apply exclusive_schedule|by apply exclusive_trigger].
- by eapply exclusive_start.
- by apply exclusive_finish.
- destruct He as [E1 E2 E3 E4]. rewrite Hh in E4. symmetry in E4. apply orb_false_iff in E4 as [Hs Hr].
  apply negb_false_iff, bool_decide_eq_true in Hr. split; simpl; rewrite ?Hr in *; simpl in *; try done; lia.
- destruct He as [E1 E2 E3 E4]. rewrite Hh in E3.
  assert (running s = []) as Hr by (destruct (running s); [done|simpl in E3; lia]).
  split; simpl; rewrite ?Hr in *; simpl in *; try done; lia.
- by destruct He.
Qed.

(* ------------------------------------------------------------------ *)
(** ** The cascade bound *)

(** The runs recorded for a pair that are still in the window. *)
Definition recorded (now : Q) (k : string * string) (p : pair_times) : nat :=
length (filter (λ t, live cfg now t = true) (times_of k p)).
(** The runs under way for a sender. *)
Definition under_way (sender : string) (l : list (list string)) : nat := length (filter (λ ss, sender ∈ ss) l).

Lemma times_insert k k' v p : times_of k (<[k' := v]> p) = if decide (k' = k) then v else times_of k p.
Proof. unfold times_of. case_decide; simplify_map_eq; done. Qed.
Lemma times_delete k k' p : times_of k (delete k' p) = if decide (k' = k) then [] else times_of k p.
Proof. unfold times_of. case_decide; simplify_map_eq; done. Qed.

Lemma evict_times now k k' p :
times_of k' (snd (evict_pair cfg now k p)) =
  if decide (k = k') then filter (λ t, live cfg now t = true) (times_of k p) else times_of k' p.
Proof.
unfold evict_pair. destruct (filter _ (times_of k p)) as [|t l] eqn:E; simpl.
- rewrite times_delete. by case_decide.
- rewrite times_insert. by case_decide.
Qed.

(** Evicting does not change the live counts of any pair. *)
Lemma evict_recorded now k k' p : recorded now k' (snd (evict_pair cfg now k p)) = recorded now k' p.
Proof.
unfold recorded. rewrite evict_times. case_decide; subst; [|done].
f_equal. rewrite list_filter_filter. apply list_filter_iff. intros t. tauto.
Qed.

Lemma check_cascade_recorded now senders p k :
recorded now k (snd (check_cascade cfg now senders p)) = recorded now k p.
Proof.
revert p. induction senders as [|x senders IH]; intros p; [done|]. cbn [check_cascade].
pose proof (evict_recorded now (anima_name cfg, x) k p) as H1.
destruct (evict_pair cfg now (anima_name cfg, x) p) as [n1 p1]. simpl in H1.
pose proof (evict_recorded now (x, anima_name cfg) k p1) as H2.
destruct (evict_pair cfg now (x, anima_name cfg) p1) as [n2 p2]. simpl in H2.
destruct (_ <=? _)%Z; simpl; [congruence|]. rewrite IH. congruence.
Qed.

Lemma check_cascade_under now senders p p' sender :
check_cascade cfg now senders p = (false, p') → sender ∈ senders →
(Z.of_nat (recorded now (anima_name cfg, sender) p) < cascade_threshold cfg)%Z.
Proof.
revert p. induction senders as [|x senders IH]; intros p Hc Hin; [by apply not_elem_of_nil in Hin|].
cbn [check_cascade] in Hc.
pose proof (λ k, evict_recorded now (anima_name cfg, x) k p) as H1.
assert (fst (evict_pair cfg now (anima_name cfg, x) p) = recorded now (anima_name cfg, x) p) as Hn by done.
destruct (evict_pair cfg now (anima_name cfg, x) p) as [n1 p1]. simpl in H1, Hn.
pose proof (λ k, evict_recorded now (x, anima_name cfg) k p1) as H2.
destruct (evict_pair cfg now (x, anima_name cfg) p1) as [n2 p2]. simpl in H2.
destruct (Z.leb_spec (cascade_threshold cfg) (Z.of_nat (n1 + n2))) as [|Hlt]; [done|].
apply elem_of_cons in Hin as [->|Hin]; [lia|]. rewrite <- H1, <- H2. by apply IH.
Qed.

Lemma recorded_mono now now' k p : (now <= now')%Q → recorded now' k p ≤ recorded now k p.
Proof.
intros Hle. unfold recorded. apply filter_length_le. intros t. unfold live. rewrite !negb_true_iff.
intros Hf. destruct (Qle_bool _ (now - t)) eqn:E; [|done]. apply Qle_bool_iff in E.
assert (cascade_window_s cfg <= now' - t)%Q as H1 by lra. apply Qle_bool_iff in H1. congruence.
Qed.

Lemma record_pair_recorded now p x sender :
recorded now (anima_name cfg, sender) (record_pair cfg now p x) ≤
  recorded now (anima_name cfg, sender) p + (if decide (sender = x) then 1 else 0).
Proof.
unfold recorded, record_pair. rewrite times_insert. destruct (decide (sender = x)) as [->|Hne].
- rewrite decide_True by done. rewrite filter_app, length_app, filter_cons. case_decide; simpl; lia.
- rewrite decide_False by congruence. lia.
Qed.

Lemma record_pairs_recorded now senders p sender :
NoDup senders →
recorded now (anima_name cfg, sender) (record_pair_heartbeat cfg now senders p) ≤
  recorded now (anima_name cfg, sender) p + (if decide (sender ∈ senders) then 1 else 0).
Proof.
unfold record_pair_heartbeat. revert p. induction senders as [|x senders IH]; intros p Hnd; simpl.
{ lia. }
apply NoDup_cons in Hnd as [Hx Hnd]. etrans; [by apply IH|].
pose proof (record_pair_recorded now p x sender) as Hr.
repeat case_decide; subst; try lia; set_solver.
Qed.

(** No sender has more runs, recorded in the window or under way, than the
  threshold. *)
Record bounded (s : limiter) : Prop := {
bd_runs : Forall NoDup (running s);
bd_count : ∀ sender,
  (Z.of_nat (recorded (clock s) (anima_name cfg, sender) (pair_heartbeat_times s) + under_way sender (running s)) ≤
     Z.max 0 (cascade_threshold cfg))%Z
}.

Lemma bounded_frame s s' : frame s s' → bounded s → bounded s'.
Proof. intros (H1 & _ & H2 & _ & _ & H3) [B1 B2]. split; rewrite ?H1, ?H2, ?H3; done. Qed.

Lemma bounded_start o s n : created s = S n → exclusive s → bounded s → bounded (trigger_start cfg o s).
Proof.
intros Hc [E1 _ _ _] Hb.
assert (running s = []) as Hr by (rewrite Hc in E1; destruct (running s); [done|simpl in E1; lia]).
set (s1 := set_tasks (fired s) (pred (created s)) (running s) s).
assert (bounded s1) as Hb1 by (destruct Hb; by split).
assert (∀ b, bounded (set_pending b s1)) as Hset by (intros b; destruct Hb1; by split).
unfold trigger_start. fold s1.
destruct (retry_is_delayed s1); [by eapply bounded_frame; [apply schedule_frame|]|].
destruct (negb (read_anima_enabled _)).
{ eapply (bounded_frame (skip_disabled s1)); [done|]. by eapply bounded_frame; [apply skip_frame|]. }
destruct (heartbeat_running s1); [done|].
destruct (o_inbox o) as [ms|]; [|done]. destruct (o_intents o) as [intents|]; [|done].
destruct (negb (actionable _ _)); [done|].
destruct (match cascade_senders ms with [] => _ | _ => _ end) as [blocked p] eqn:Ech.
assert (∀ k, recorded (clock s1) k p = recorded (clock s1) k (pair_heartbeat_times s1)) as Hrec.
{ intros k. destruct (cascade_senders ms) as [|x xs]; [by simplify_eq|].
  pose proof (check_cascade_recorded (clock s1) (x :: xs) (pair_heartbeat_times s1) k) as Hk. by rewrite Ech in Hk. }
destruct Hb1 as [B1 B2]. destruct blocked.
- split; [done|]. intros sender. cbn. rewrite Hrec. apply B2.
- assert (NoDup (cascade_senders ms)) as Hnd by apply NoDup_remove_dups.
  split; [cbn; rewrite Hr; by constructor|]. intros sender.
  change (Z.of_nat (recorded (clock s1) (anima_name cfg, sender) p + under_way sender (cascade_senders ms :: running s)) ≤
    Z.max 0 (cascade_threshold cfg))%Z. rewrite Hrec.
  specialize (B2 sender). change (running s1) with (running s) in B2. rewrite Hr in *. unfold under_way in *.
  rewrite filter_cons. case_decide as Hin; [|done].
  assert (Z.of_nat (recorded (clock s1) (anima_name cfg, sender) (pair_heartbeat_times s1)) < cascade_threshold cfg)%Z.
  { destruct (cascade_senders ms) as [|x xs]; [by apply not_elem_of_nil in Hin|].
    by eapply check_cascade_under. }
  cbn [length filter list_filter] in *. lia.
Qed.

Lemma bounded_finish r senders l1 l2 s :
running s = l1 ++ senders :: l2 → bounded s → bounded (trigger_finish cfg r senders (l1 ++ l2) s).
Proof.
intros Hr [B1 B2]. rewrite Hr in B1. apply Forall_app in B1 as [F1 F2]. apply Forall_cons in F2 as [Hnd F2].
assert (∀ s1, clock s1 = clock s → pair_heartbeat_times s1 = pair_heartbeat_times s →
  ∀ sender, (Z.of_nat (recorded (clock s1) (anima_name cfg, sender)
      (record_pair_heartbeat cfg (clock s1) senders (pair_heartbeat_times s1)) + under_way sender (l1 ++ l2)) ≤
    Z.max 0 (cascade_threshold cfg))%Z) as Hcount.
{ intros s1 -> -> sender. specialize (B2 sender). rewrite Hr in B2. unfold under_way in *.
  rewrite filter_app, length_app in *. rewrite filter_cons in B2.
  pose proof (record_pairs_recorded (clock s) senders (pair_heartbeat_times s) sender Hnd).
  repeat case_decide; simpl in *; try done; lia. }
split.
- unfold trigger_finish. cbn. by apply Forall_app.
- intros sender. unfold trigger_finish. destruct r; cbn; by apply Hcount.
Qed.

Lemma bounded_step s s' : step cfg s s' → exclusive s → bounded s → bounded s'.
Proof.
intros Hst He Hb. destruct Hst as [s d Hd|s o|s o|s due Ht Hd|s o n Hf|s o n Hc|s r l1 senders l2 Hr|s Hh|s Hh|s].
- destruct Hb as [B1 B2]. split; [done|]. intros sender. specialize (B2 sender).
  change (Z.of_nat (recorded (clock s + d) (anima_name cfg, sender) (pair_heartbeat_times s) +
    under_way sender (running s)) ≤ Z.max 0 (cascade_threshold cfg))%Z.
  assert (clock s <= clock s + d)%Q as Hle by lra.
  pose proof (recorded_mono _ _ (anima_name cfg, sender) (pair_heartbeat_times s) Hle). lia.
- unfold inbox_watcher_poll. destruct (pending_trigger s); [done|]. destruct (negb (o_unread o)); [done|].
  destruct (must_defer _ _ _); [by eapply bounded_frame; [apply schedule_frame|]|].
  destruct (negb (read_anima_enabled _)); [by eapply bounded_frame; [apply skip_frame|]|]. by destruct Hb.
- unfold on_anima_lock_released. destruct (negb (o_unread o)); [done|]. destruct (pending_trigger s); [done|].
  by eapply bounded_frame; [apply schedule_frame|].
- by destruct Hb.
- unfold try_deferred_trigger. set (s1 := set_timer NoTimer _). assert (bounded s1) as Hb1 by by destruct Hb.
  destruct (negb (o_unread o)); [done|]. destruct (pending_trigger s1); [done|].
  destruct (must_defer _ _ _); [by eapply bounded_frame; [apply schedule_frame|]|]. by destruct Hb1.
- by eapply bounded_start.
- by apply bounded_finish.
- by destruct Hb.
- by destruct Hb.
- by destruct Hb.
Qed.

Lemma reachable_ok s : reachable cfg s → exclusive s ∧ bounded s.
Proof.
intros [t Hst]. assert (exclusive (initial t) ∧ bounded (initial t)) as Hinit.
{ split; [split; simpl; try done; lia|]. split; [done|]. intros sender.
  unfold recorded, times_of, under_way, initial. cbn [pair_heartbeat_times running]. rewrite lookup_empty. cbn. lia. }
induction Hst as [|x y z Hxy _ IH]; [done|]. apply IH. destruct Hinit as [He Hb].
split; [by eapply exclusive_step|by eapply bounded_step].
Qed.


(* ------------------------------------------------------------------ *)
(** ** A trigger that is lost *)

(** The trigger flag is set, and no run is there to clear it. *)
Definition stuck (s : limiter) : Prop := pending_trigger s = true ∧ created s = 0 ∧ running s = [].

Lemma stuck_step s s' : step cfg s s' → stuck s → stuck s'.
Proof.
intros Hst Hs. destruct Hst as [s d Hd|s o|s o|s due Ht Hd|s o n Hf|s o n Hc|s r l1 senders l2 Hr|s Hh|s Hh|s];
  try exact Hs; destruct Hs as (Hp & Hc' & Hr').
- unfold inbox_watcher_poll. by rewrite Hp.
- unfold on_anima_lock_released. rewrite Hp. by destruct (negb _).
- unfold try_deferred_trigger. cbn. rewrite Hp. by destruct (negb _).
- congruence.
- rewrite Hr' in Hr. by destruct l1.
Qed.

(** An exception before the inbox run stops the inbox for good: when a
  created trigger finds the anima enabled and idle but reading the inbox or
  loading the configuration raises, the trigger flag stays set, and in no
  later state, whatever happens, is an inbox run created or under way. *)
Theorem inbox_stuck_forever s o s' :
reachable cfg s → created s ≠ 0 →
retry_is_delayed s = false → read_anima_enabled (o_status o) = true → heartbeat_running s = false →
o_inbox o = None ∨ o_intents o = None →
rtc (step cfg) (trigger_start cfg o s) s' →
pending_trigger s' = true ∧ created s' = 0 ∧ running s' = [].
Proof.
intros [[E1 E2 _ _] _]%reachable_ok Hc Hd Hen Hh Hraise Hst.
assert (created s = 1 ∧ running s = []) as [Hc1 Hr].
{ destruct (running s); simpl in *; [split; [lia|done]|lia]. }
assert (stuck (trigger_start cfg o s)) as Hstuck.
{ unfold trigger_start. change (retry_is_delayed (set_tasks _ _ _ s)) with (retry_is_delayed s).
  rewrite Hd, Hen. cbn [negb heartbeat_running set_tasks]. rewrite Hh.
  assert (stuck (set_tasks (fired s) (pred (created s)) (running s) s)) as Hs.
  { split; cbn; [apply E2; rewrite Hc1, Hr; done|]. by rewrite Hc1. }
  destruct Hraise as [->|Hi]; [done|]. destruct (o_inbox o); [|done]. by rewrite Hi. }
clear - Hst Hstuck. induction Hst as [|x y z Hxy _ IH]; [done|]. by apply IH, (stuck_step x).
Qed.
End invariants.
