(* ===== verification/Bootstrap.v ===== *)
(** * The bootstrap of an anima ([core/bootstrap_state.py])

    The lifecycle state of a new anima, derived from the files of its
    directory and a persisted state file, and the operations that run, judge
    and repair a bootstrap.  The directory is a finite map from relative paths
    to file contents; a content is a text that parses as JSON, given by its
    value, or one that does not.  Links and unreadable files are not
    modelled.  [repair_bootstrap_fresh], which recreates the anima through the
    factory, is not modelled.

    The theorems: a run is finalized exactly when its output is valid and its
    prompt is then archived without loss; a repair that completes leaves a
    valid anima; a repair that retries leaves one that can be resumed. *)

From stdpp Require Import prelude strings list gmap sorting pretty.
From Stdlib Require Import QArith.
From S2P Require Import Prelude PyValue PyText.
Open Scope nat_scope.

Definition STATE_PENDING_USER_INPUT : string := "pending_user_input".
Definition STATE_RUNNING : string := "running".
Definition STATE_COMPLETED : string := "completed".
Definition STATE_FAILED : string := "failed".
Definition STATE_NEEDS_REPAIR : string := "needs_repair".
Definition ALLOWED_STATES : list string :=
  [STATE_PENDING_USER_INPUT; STATE_RUNNING; STATE_COMPLETED; STATE_FAILED; STATE_NEEDS_REPAIR].
Definition UNDEFINED_MARKERS : list string := ["未定義"; "undefined"].
Definition PRESERVED_STATUS_KEYS : list string :=
  ["priming_profile"; "model"; "credential"; "execution_mode"; "background_model"; "background_credential";
   "background_execution_mode"; "heartbeat_enabled"].

(* ------------------------------------------------------------------ *)
(** ** The directory *)

Abbreviation path := (list string).
Inductive content :=
| Text (s : string)
| Json (j : json).

Record anima_fs := mk_fs {
  fs_exists : bool;
  fs_files : gmap path content;
  fs_retry_counts : option content;
  fs_tick : nat
}.

(** Readings of the clock, in ISO form and as a file stamp; [int()] of a text;
    the text of a JSON document, the path of the directory, and Python's text
    of the compound values. *)
Class BootEnv := {
  boot_now : nat → string;
  boot_stamp : nat → string;
  int_of_text : string → option Z;
  json_text : json → string;
  anima_path : string;
  boot_repr : json → string
}.

Definition identity_md : path := ["identity.md"].
Definition injection_md : path := ["injection.md"].
Definition bootstrap_md : path := ["bootstrap.md"].
Definition character_sheet_md : path := ["character_sheet.md"].
Definition bootstrap_state_path : path := ["state"; "bootstrap_state.json"].
Definition archive_dir : path := ["state"; "bootstrap_archive"].
Definition bootstrap_artifacts : list string := ["bootstrap.md.auto_resolved"; "bootstrap.md.failed"].

Definition set_files (f : gmap path content) (w : anima_fs) : anima_fs :=
  mk_fs (fs_exists w) f (fs_retry_counts w) (fs_tick w).
(** Writing a file creates the directories above it. *)
Definition put_file (p : path) (c : content) (w : anima_fs) : anima_fs :=
  mk_fs true (<[p := c]> (fs_files w)) (fs_retry_counts w) (fs_tick w).

(** [path.exists()] of a file of the directory. *)
Definition has_file (p : path) (w : anima_fs) : bool := bool_decide (is_Some (fs_files w !! p)).

(** [shutil.move(src, dst)]. *)
Definition move_file (src dst : path) (w : anima_fs) : anima_fs :=
  match fs_files w !! src with
  | Some c => set_files (<[dst := c]> (delete src (fs_files w))) w
  | None => w
  end.

Definition json_of (c : option content) : dict :=
  match c with Some (Json (JObj d)) => d | _ => [] end.
Definition read_json (p : path) (w : anima_fs) : dict := json_of (fs_files w !! p).
Definition read_bootstrap_state (w : anima_fs) : dict := read_json bootstrap_state_path w.

Section bootstrap.
Context `{BootEnv}.

Definition boot_str (j : json) : string := match py_str j with Some s => s | None => boot_repr j end.
(** [str(d.get(k) or default)]. *)
Definition str_or_default (k default_ : string) (d : dict) : string :=
if truthy (dget_none k d) then boot_str (dget_none k d) else default_.

(** [int(v)]. *)
Definition py_int (v : json) : result Z :=
match v with
| JInt z => Ok z
| JBool b => Ok (if b then 1 else 0)%Z
| JFloat q => Ok (Z.quot (Qnum q) (Zpos (Qden q)))
| JStr s => match int_of_text s with Some z => Ok z | None => Err (ValueError "int") end
| _ => Err (TypeError "int")
end.
(** [int(d.get("retry_count") or 0)]. *)
Definition retry_count_of (d : dict) : result Z :=
if truthy (dget_none "retry_count" d) then py_int (dget_none "retry_count" d) else Ok 0%Z.

Definition now_iso : M anima_fs string := λ w,
(Ok (boot_now (fs_tick w)), mk_fs (fs_exists w) (fs_files w) (fs_retry_counts w) (S (fs_tick w))).
Definition now_stamp : M anima_fs string := λ w,
(Ok (boot_stamp (fs_tick w)), mk_fs (fs_exists w) (fs_files w) (fs_retry_counts w) (S (fs_tick w))).

Definition write_bootstrap_state (state : dict) : M anima_fs dict :=
now ← now_iso;
let payload := dset "updated_at" (JStr now) (dset "version" (JInt 1) state) in
match dget_none "state" payload with
| JList _ | JObj _ => raise (TypeError "unhashable type")
| s =>
    let allowed := match s with JStr t => str_in t ALLOWED_STATES | _ => false end in
    let payload := if allowed then payload
                   else dset "reason" (JStr "invalid_bootstrap_state") (dset "state" (JStr STATE_NEEDS_REPAIR) payload) in
    _ ← modify (put_file bootstrap_state_path (Json (JObj payload)));
    mret payload
end.

(** The arguments of [_base_state] with their defaults. *)
Record base_args := mk_args {
a_mode : string;
a_reason : string;
a_errors : list json;
a_last_error : string;
a_retry_count : Z;
a_started_at : json;
a_completed_at : json
}.
Definition args (mode reason : string) (errors : list json) (retry : Z) : base_args :=
mk_args mode reason errors "" retry JNull JNull.

Definition base_dict (state : string) (a : base_args) (now : string) : dict :=
[("version", JInt 1); ("state", JStr state); ("mode", JStr (a_mode a)); ("reason", JStr (a_reason a));
 ("started_at", a_started_at a); ("completed_at", a_completed_at a); ("updated_at", JStr now);
 ("last_error", JStr (a_last_error a)); ("validation_errors", JList (a_errors a));
 ("retry_count", JInt (a_retry_count a))].
Definition base_state (state : string) (a : base_args) : M anima_fs dict :=
now ← now_iso; mret (base_dict state a now).

(** The text of a file. *)
Definition read_text (p : path) (w : anima_fs) : string :=
match fs_files w !! p with
| Some (Text s) => s
| Some (Json j) => json_text j
| None => ""
end.

(** No character outside ASCII lower-cases to a text with a marker in it, so
  lower-casing the ASCII letters decides. *)
Definition file_is_defined (p : path) (w : anima_fs) : bool :=
if negb (has_file p w) then false else
let content := strip (read_text p w) in
if negb (str_truthy content) then false else
negb (any (λ marker, contains marker (lower content)) UNDEFINED_MARKERS).

(** [path.stem] of a name ending in [.json]. *)
Fixpoint drop_suffix (n : nat) (s : string) : string :=
match s with
| EmptyString => ""
| String a s' => if bool_decide (String.length s ≤ n) then "" else String a (drop_suffix n s')
end.
Definition json_stem (name : string) : string := drop_suffix 5 name.

Definition task_id_of (name : string) (data : dict) : string :=
if truthy (dget_none "task_id" data) then boot_str (dget_none "task_id" data)
else if truthy (dget_none "id" data) then boot_str (dget_none "id" data)
else json_stem name.

(** A JSON file that holds a task of the bootstrap. *)
Definition is_bootstrap_task (p : path) (c : content) : bool :=
match last p with
| Some name => endswith ".json" name && startswith "bootstrap-" (task_id_of name (json_of (Some c)))
| None => false
end.

Definition pending_candidates : list path :=
[["state"; "background_tasks"; "pending"]; ["state"; "background_tasks"; "pending"; "processing"];
 ["state"; "pending"]; ["state"; "pending"; "processing"]; ["state"; "pending"; "deferred"]].

Definition name_before (a b : string) : Prop := String.leb a b = true.
#[global] Instance name_before_dec : ∀ a b, Decision (name_before a b).
Proof. intros a b. unfold name_before. apply _. Defined.

(** The bootstrap tasks directly in a directory, by name. *)
Definition bootstrap_tasks_in (dir : path) (w : anima_fs) : list path :=
let names := omap (λ '(p, c),
  match last p with
  | Some name => if bool_decide (p = dir ++ [name]) && is_bootstrap_task p c then Some name else None
  | None => None
  end) (map_to_list (fs_files w)) in
(λ name, dir ++ [name]) <$> merge_sort name_before names.
Definition pending_task_files (w : anima_fs) : list path := pending_candidates ≫= λ dir, bootstrap_tasks_in dir w.

Definition present_artifacts (w : anima_fs) : list string := filter (λ n, has_file [n] w = true) bootstrap_artifacts.

Definition apply_flags (w : anima_fs) (payload : dict) : dict :=
let state := str_or_default "state" STATE_NEEDS_REPAIR payload in
let has_bootstrap := has_file bootstrap_md w in
let has_character_sheet := has_file character_sheet_md w in
let blocking := any (λ n, has_file [n] w) bootstrap_artifacts in
let p1 := dset "needs_user_input"
  (JBool (bool_decide (state = STATE_PENDING_USER_INPUT) && has_bootstrap && negb has_character_sheet &&
          negb blocking)) payload in
let p2 := dset "needs_repair" (JBool (bool_decide (state = STATE_NEEDS_REPAIR))) p1 in
let p3 := dset "needs_background_bootstrap"
  (JBool (has_bootstrap && has_character_sheet &&
          negb (str_in state [STATE_RUNNING; STATE_FAILED; STATE_NEEDS_REPAIR]) && negb blocking)) p2 in
dset "needs_bootstrap" (JBool (negb (bool_decide (state = STATE_COMPLETED)))) p3.

(** [list(v or [])]. *)
Definition list_of (v : json) : result (list json) :=
if truthy v then
  match v with
  | JList l => Ok l
  | JStr s => Ok (JStr <$> chars s)
  | JObj d => Ok ((λ kv, JStr (fst kv)) <$> d)
  | _ => Err (TypeError "not iterable")
  end
else Ok [].

(** The state a directory without blocking artifacts is in: the state, and the
  arguments of its record. *)
Definition derive_status (w : anima_fs) (persisted : dict) (retry : Z) : result (string * base_args) :=
let persisted_state := str_or_default "state" "" persisted in
let mode := str_or_default "mode" "" persisted in
let identity := file_is_defined identity_md w in
let injection := file_is_defined injection_md w in
if str_in persisted_state [STATE_RUNNING; STATE_FAILED; STATE_NEEDS_REPAIR] then
  match list_of (dget_none "validation_errors" persisted) with
  | Err e => Err e
  | Ok errors =>
      Ok (persisted_state,
          mk_args mode (str_or_default "reason" "" persisted) errors (str_or_default "last_error" "" persisted) retry
            (dget_none "started_at" persisted) (dget_none "completed_at" persisted))
  end
else if has_file bootstrap_md w then
  if has_file character_sheet_md w
  then Ok (STATE_PENDING_USER_INPUT, args "character_sheet" "character_sheet_background_ready" [] retry)
  else if bool_decide (persisted_state = STATE_PENDING_USER_INPUT) &&
          py_eq (dget_none "mode" persisted) (JStr "interactive")
  then Ok (STATE_PENDING_USER_INPUT, args "interactive" "interactive_bootstrap_in_progress" [] retry)
  else if negb identity
  then Ok (STATE_PENDING_USER_INPUT, args "interactive" "identity_undefined_without_character_sheet" [] retry)
  else if negb injection
  then Ok (STATE_NEEDS_REPAIR, args "" "injection_undefined_with_bootstrap" [JStr "injection_undefined"] retry)
  else Ok (STATE_NEEDS_REPAIR,
           args "" "bootstrap_file_left_after_definition" [JStr "bootstrap_file_left_after_definition"] retry)
else if bool_decide (persisted_state = STATE_COMPLETED) then
  Ok (STATE_COMPLETED,
      mk_args mode (str_or_default "reason" "completed" persisted) [] "" retry JNull (dget_none "completed_at" persisted))
else if bool_decide (persisted_state = STATE_PENDING_USER_INPUT) then
  let mode := str_or_default "mode" "interactive" persisted in
  if identity && injection
  then Ok (STATE_COMPLETED, args mode "interactive_bootstrap_completed" [] retry)
  else if identity && negb injection
  then Ok (STATE_NEEDS_REPAIR, args mode "interactive_bootstrap_incomplete" [JStr "injection_undefined"] retry)
  else Ok (STATE_NEEDS_REPAIR,
           args mode "interactive_bootstrap_prompt_missing"
             ([JStr "bootstrap_missing"] ++ (if negb identity then [JStr "identity_undefined"] else []) ++
              (if negb injection then [JStr "injection_undefined"] else [])) retry)
else Ok (STATE_COMPLETED, args "" "no_bootstrap_artifacts" [] retry).

Definition get_bootstrap_status : M anima_fs dict :=
w ← get;
let persisted := read_bootstrap_state w in
retry ← lift (retry_count_of persisted);
'(state, a) ← lift (
  if negb (fs_exists w) then Ok (STATE_COMPLETED, args "" "anima_dir_missing" [] retry)
  else match present_artifacts w with
       | [] => derive_status w persisted retry
       | names =>
           Ok (STATE_NEEDS_REPAIR,
               args (str_or_default "mode" "" persisted) "bootstrap_artifact_requires_repair"
                 ((λ n, JStr ("unexpected_bootstrap_artifact:" +:+ n)) <$> names) retry)
       end);
payload ← base_state state a;
mret (apply_flags w payload).

(** [{k: v for k, v in status.items() if not k.startswith("needs_")}]. *)
Definition without_flags (status : dict) : dict := filter (λ kv, startswith "needs_" (fst kv) = false) status.

Definition initialize_bootstrap_state : M anima_fs dict :=
status ← get_bootstrap_status;
write_bootstrap_state (without_flags status).

Definition mark_bootstrap_running (mode : string) : M anima_fs dict :=
persisted ← gets read_bootstrap_state;
retry ← lift (retry_count_of persisted);
started ← now_iso;
payload ← base_state STATE_RUNNING (mk_args mode "background_bootstrap_running" [] "" retry (JStr started) JNull);
write_bootstrap_state payload.

Definition mark_bootstrap_failed (error reason : string) : M anima_fs dict :=
persisted ← gets read_bootstrap_state;
retry ← lift (retry_count_of persisted);
payload ← base_state STATE_FAILED
  (mk_args (str_or_default "mode" "background" persisted) reason [] error (retry + 1)
     (dget_none "started_at" persisted) JNull);
write_bootstrap_state payload.

Definition definition_errors (w : anima_fs) : list json :=
(if negb (file_is_defined identity_md w) then [JStr "identity_undefined"] else []) ++
(if negb (file_is_defined injection_md w) then [JStr "injection_undefined"] else []).

Definition validation_errors (w : anima_fs) : list json :=
definition_errors w ++
((λ n, JStr ("unexpected_bootstrap_artifact:" +:+ n)) <$> present_artifacts w) ++
(if has_file character_sheet_md w then [JStr "character_sheet_unprocessed"] else []) ++
((λ p, JStr ("bootstrap_pending_task:" +:+ join "/" p)) <$> pending_task_files w).

Definition validate_bootstrap : M anima_fs dict :=
w ← get;
let errors := validation_errors w in
let passed := match errors with [] => true | _ => false end in
retry ← lift (retry_count_of (read_bootstrap_state w));
payload ← base_state (if passed then STATE_COMPLETED else STATE_NEEDS_REPAIR)
  (args "" (if passed then "validation_passed" else "validation_failed") errors retry);
mret (apply_flags w payload).
End bootstrap.

(* ------------------------------------------------------------------ *)
(** ** Archiving *)

(** The first candidate that names no file. *)
Fixpoint first_free (fuel n : nat) (candidate : nat → path) (w : anima_fs) : path :=
  match fuel with
  | O => candidate n
  | S fuel' => if has_file (candidate n) w then first_free fuel' (S n) candidate w else candidate n
  end.
Definition free_path (candidate : nat → path) (w : anima_fs) : path :=
  first_free (S (size (fs_files w))) 0 candidate w.

Definition bootstrap_candidate (stamp : string) (n : nat) : path :=
  archive_dir ++ ["bootstrap-" +:+ stamp +:+ match n with O => ".md" | S _ => "-" +:+ pretty n +:+ ".md" end].
(** The counter is appended to the stem that already has the earlier ones. *)
Fixpoint counted_stem (stem : string) (n : nat) : string :=
  match n with O => stem | S m => counted_stem stem m +:+ "-" +:+ pretty n end.
Definition named_candidate (stem suffix : string) (n : nat) : path :=
  archive_dir ++ [counted_stem stem n +:+ suffix].

Section repair.
Context `{BootEnv}.

Definition archive_bootstrap_file : M anima_fs path :=
stamp ← now_stamp;
w ← get;
let p := free_path (bootstrap_candidate stamp) w in
_ ← modify (move_file bootstrap_md p);
mret p.

(** [filename] is given by its stem and its suffix. *)
Definition archive_named_file (source : path) (stem suffix : string) : M anima_fs path :=
w ← get;
let p := free_path (named_candidate stem suffix) w in
_ ← modify (move_file source p);
mret p.

Definition path_text (p : path) : string := anima_path +:+ "/" +:+ join "/" p.

(** The two ends of [finalize_bootstrap_run]. *)
Definition persist_invalid (status : dict) : M anima_fs dict :=
mode ← gets (λ w, dget_none "mode" (read_bootstrap_state w));
write_bootstrap_state (dset "mode" (if truthy mode then mode else JStr "background") (without_flags status)).
Definition archive_completed (status : dict) : M anima_fs dict :=
w ← get;
if has_file bootstrap_md w then
  p ← archive_bootstrap_file;
  mret (dset "archived_bootstrap" (JStr (path_text p)) (dset "reason" (JStr "completed_bootstrap_archived") status))
else mret status.

Definition finalize_bootstrap_run : M anima_fs dict :=
status ← validate_bootstrap;
if negb (py_eq (dget_none "state" status) (JStr STATE_COMPLETED)) then persist_invalid status
else
  status ← archive_completed status;
  now ← now_iso;
  write_bootstrap_state (dset "completed_at" (JStr now) (without_flags status)).

(* ------------------------------------------------------------------ *)
(** ** Repair *)

Fixpoint restore_artifacts (names : list string) (restored : bool) : M anima_fs unit :=
match names with
| [] => mret tt
| n :: rest =>
    w ← get;
    if negb (has_file [n] w) then restore_artifacts rest restored
    else if negb (has_file bootstrap_md w) && negb restored
    then _ ← modify (move_file [n] bootstrap_md); restore_artifacts rest true
    else stamp ← now_stamp;
         _ ← modify (move_file [n] (archive_dir ++ [n +:+ "." +:+ stamp]));
         restore_artifacts rest restored
end.

Definition delete_files (P : path → content → bool) (w : anima_fs) : anima_fs :=
set_files (filter (λ pc, P (fst pc) (snd pc) = false) (fs_files w)) w.

Definition is_prefix (d p : path) : bool := bool_decide (d `prefix_of` p).
Definition in_shortterm (p : path) (_ : content) : bool := is_prefix ["shortterm"] p.
Definition is_session_file (p : path) (_ : content) : bool :=
match p with
| [d; n] => bool_decide (d = "state") && startswith "current_session_" n && endswith ".json" n
| _ => false
end.
Definition is_pending_bootstrap (p : path) (c : content) : bool :=
(is_prefix ["state"; "pending"] p || is_prefix ["state"; "background_tasks"; "pending"] p) && is_bootstrap_task p c.
Definition remove_bootstrap_pending_tasks : M anima_fs unit := modify (delete_files is_pending_bootstrap).

(** The entry of the anima in the file of retry counts. *)
Definition clear_retry_count (name : string) (w : anima_fs) : anima_fs :=
mk_fs (fs_exists w) (fs_files w)
  ((λ c, Json (JObj (dpop name (json_of (Some c))))) <$> fs_retry_counts w) (fs_tick w).

Definition repair_bootstrap_retry (name : string) : M anima_fs dict :=
_ ← modify (λ w, mk_fs true (fs_files w) (fs_retry_counts w) (fs_tick w));
_ ← restore_artifacts bootstrap_artifacts false;
_ ← modify (delete_files in_shortterm);
_ ← modify (delete_files is_session_file);
_ ← remove_bootstrap_pending_tasks;
_ ← modify (clear_retry_count name);
sheet ← gets (has_file character_sheet_md);
payload ← base_state STATE_PENDING_USER_INPUT
  (args (if sheet : bool then "character_sheet" else "interactive") "retry_prepared" [] 0);
_ ← write_bootstrap_state payload;
get_bootstrap_status.

(** The three kinds of stale input, each archived when it is there. *)
Definition archive_prompt : M anima_fs (list string) :=
w ← get;
if has_file bootstrap_md w then p ← archive_bootstrap_file; mret [path_text p] else mret [].
Definition archive_artifact (stamp n : string) : M anima_fs (list string) :=
w ← get;
if has_file [n] w then p ← archive_named_file [n] n ("." +:+ stamp); mret [path_text p] else mret [].
Definition archive_sheet (stamp : string) : M anima_fs string :=
w ← get;
if has_file character_sheet_md w
then p ← archive_named_file character_sheet_md ("character_sheet-" +:+ stamp) ".md"; mret (path_text p)
else mret "".

Fixpoint archive_artifacts (stamp : string) (names : list string) : M anima_fs (list string) :=
match names with
| [] => mret []
| n :: rest => one ← archive_artifact stamp n; ps ← archive_artifacts stamp rest; mret (one ++ ps)
end.

Definition archive_inputs : M anima_fs (list string * string) :=
first ← archive_prompt;
stamp ← now_stamp;
others ← archive_artifacts stamp bootstrap_artifacts;
sheet ← archive_sheet stamp;
mret (first ++ others, sheet).

Definition repair_bootstrap_complete (name : string) : M anima_fs dict :=
w ← get;
if negb (fs_exists w) then raise (FileNotFoundError ("Anima not found: " +:+ name)) else
match definition_errors w with
| [] =>
    '(archived, sheet) ← archive_inputs;
    _ ← remove_bootstrap_pending_tasks;
    _ ← modify (clear_retry_count name);
    completed ← now_iso;
    payload ← base_state STATE_COMPLETED
      (mk_args "repaired" "completed_after_bootstrap_repair" [] "" 0 JNull (JStr completed));
    let payload := match archived with
                   | [] => payload
                   | _ => dset "archived_bootstrap_artifacts" (JList (JStr <$> archived)) payload
                   end in
    let payload := if str_truthy sheet then dset "archived_character_sheet" (JStr sheet) payload else payload in
    _ ← write_bootstrap_state payload;
    get_bootstrap_status
| errors =>
    retry ← lift (retry_count_of (read_bootstrap_state w));
    payload ← base_state STATE_NEEDS_REPAIR (args "" "complete_repair_requires_defined_identity" errors retry);
    _ ← write_bootstrap_state payload;
    get_bootstrap_status
end.

Definition preserved_status_settings (status_data : dict) : dict :=
filter (λ kv, str_in (fst kv) PRESERVED_STATUS_KEYS || startswith "background_" (fst kv) = true) status_data.
End repair.
