(* ===== verification/BootstrapProps.v ===== *)
(** * What a bootstrap leaves behind

    Archiving never overwrites, the operations carry every file they do not
    mean to delete, and the theorems on finalizing and repairing. *)

From stdpp Require Import prelude strings list gmap sorting pretty fin_maps.
From S2P Require Import Prelude PyValue PyText Bootstrap.
Open Scope nat_scope.

(* ------------------------------------------------------------------ *)
(** ** Free names *)

Lemma bootstrap_candidate_inj stamp i j : bootstrap_candidate stamp i = bootstrap_candidate stamp j → i = j.
Proof.
  unfold bootstrap_candidate. intros E. apply app_inv_head in E. injection E as E.
  do 2 apply string_app_inj_l in E.
  destruct i as [|i], j as [|j]; [done| | |].
  - apply (f_equal String.length) in E. rewrite !string_length_app in E. simpl in E. lia.
  - apply (f_equal String.length) in E. rewrite !string_length_app in E. simpl in E. lia.
  - apply string_app_inj_l, string_app_inj_r in E. by apply (inj pretty) in E.
Qed.

Lemma counted_stem_length stem i j :
  i < j → String.length (counted_stem stem i) < String.length (counted_stem stem j).
Proof.
  induction 1 as [|j _ IH]; cbn [counted_stem]; rewrite !string_length_app; simpl; lia.
Qed.
Lemma named_candidate_inj stem suffix i j : named_candidate stem suffix i = named_candidate stem suffix j → i = j.
Proof.
  unfold named_candidate. intros E. apply app_inv_head in E. injection E as E%string_app_inj_r.
  destruct (Nat.lt_total i j) as [Hl|[?|Hl]]; [|done|];
    apply (counted_stem_length stem) in Hl; rewrite E in Hl; lia.
Qed.

Lemma first_free_spec fuel n candidate w :
  (∀ i, n ≤ i < n + fuel → has_file (candidate i) w = true) ∨
  ∃ i, first_free fuel n candidate w = candidate i ∧ has_file (candidate i) w = false.
Proof.
  revert n. induction fuel as [|fuel IH]; intros n; [left; lia|]. cbn [first_free].
  destruct (has_file (candidate n) w) eqn:E; [|right; eauto].
  destruct (IH (S n)) as [Hall|?]; [left|by right]. intros i Hi.
  destruct (decide (i = n)) as [->|]; [done|]. apply Hall. lia.
Qed.

(** Among more candidates than there are files one is free. *)
Lemma free_path_spec candidate w :
  (∀ i j, candidate i = candidate j → i = j) →
  ∃ i, free_path candidate w = candidate i ∧ fs_files w !! free_path candidate w = None.
Proof.
  intros Hinj. unfold free_path.
  destruct (first_free_spec (S (size (fs_files w))) 0 candidate w) as [Hall|(i & E & Hf)].
  - exfalso. set (l := candidate <$> seq 0 (S (size (fs_files w)))).
    assert (NoDup l) as Hnd by (apply (@NoDup_fmap_2 _ _ candidate Hinj), NoDup_seq).
    assert ((list_to_set l : gset path) ⊆ dom (fs_files w)) as Hsub.
    { intros p. rewrite elem_of_list_to_set. unfold l. intros (i & -> & Hi%elem_of_seq)%list_elem_of_fmap.
      apply elem_of_dom. specialize (Hall i). unfold has_file in Hall. specialize (Hall Hi).
      by apply bool_decide_eq_true in Hall. }
    apply subseteq_size in Hsub. rewrite size_list_to_set, size_dom in Hsub by done.
    unfold l in Hsub. rewrite length_fmap, length_seq in Hsub. lia.
  - exists i. rewrite E. split; [done|]. unfold has_file in Hf. apply bool_decide_eq_false in Hf.
    by apply eq_None_not_Some.
Qed.

(* ------------------------------------------------------------------ *)
(** ** Carrying files *)

(** A path under the archive. *)
Definition in_archive (p : path) : Prop := archive_dir `prefix_of` p.

Section carry.
Context `{BootEnv}.

(** Every file but the state file and the bootstrap's tasks is still there, in
  its place or in the archive. *)
Definition carried (w w' : anima_fs) : Prop :=
∀ p c, fs_files w !! p = Some c → p ≠ bootstrap_state_path → is_pending_bootstrap p c = false →
  ∃ q, (q = p ∨ in_archive q) ∧ fs_files w' !! q = Some c.

Lemma archive_not_state q : in_archive q → q ≠ bootstrap_state_path.
Proof. intros [k ->]. done. Qed.
Lemma archive_not_pending q c : in_archive q → is_pending_bootstrap q c = false.
Proof.
intros [k ->]. unfold is_pending_bootstrap, is_prefix.
rewrite !bool_decide_eq_false_2; [done|intros [? ?]; done..].
Qed.

#[export] Instance carried_preorder : PreOrder carried.
Proof.
split.
- intros w p c Hp _ _. exists p. split; [by left|done].
- intros w1 w2 w3 H1 H2 p c Hp Hst Hpe. destruct (H1 p c Hp Hst Hpe) as (q & [->|Hq] & Hc).
  + by apply H2.
  + destruct (H2 q c Hc) as (q' & [->|Hq'] & Hc').
    * by apply archive_not_state.
    * by apply archive_not_pending.
    * exists q. split; [by right|done].
    * exists q'. split; [by right|done].
Qed.

(** The lookups outside the archive after the files [P] are gone. *)
Definition drops (P : path → bool) (w w' : anima_fs) : Prop :=
fs_exists w' = fs_exists w ∧
∀ p, ¬ in_archive p → fs_files w' !! p = if P p then None else fs_files w !! p.

Lemma drops_refl w : drops (λ _, false) w w.
Proof. done. Qed.
Lemma drops_trans P Q w1 w2 w3 : drops P w1 w2 → drops Q w2 w3 → drops (λ p, P p || Q p) w1 w3.
Proof.
intros [E1 H1] [E2 H2]. split; [congruence|]. intros p Hp. rewrite H2, H1 by done. by destruct (P p), (Q p).
Qed.
Lemma drops_none P w w' : (∀ p, P p = true → fs_files w !! p = None) → drops (λ _, false) w w' → drops P w w'.
Proof.
intros Hn [E Hd]. split; [done|]. intros p Hp. rewrite Hd by done. destruct (P p) eqn:Ep; [by apply Hn|done].
Qed.

(** A file moved to a free place of the archive. *)
Lemma move_to_archive src dst w :
in_archive dst → fs_files w !! dst = None →
carried w (move_file src dst w) ∧ (¬ in_archive src → drops (λ p, bool_decide (p = src)) w (move_file src dst w)).
Proof.
intros Hdst Hfree. unfold move_file. destruct (fs_files w !! src) as [c|] eqn:Es.
- split.
  + intros p d Hp Hst Hpe. unfold set_files; cbn [fs_files]. destruct (decide (p = src)) as [->|Hne].
    * exists dst. split; [by right|]. simplify_map_eq. done.
    * exists p. split; [by left|]. rewrite lookup_insert_ne by congruence. by rewrite lookup_delete_ne.
  + intros Hsrc. split; [done|]. intros p Hp. unfold set_files; cbn [fs_files]. case_bool_decide as E.
    * subst. rewrite lookup_insert_ne by congruence. by rewrite lookup_delete_eq.
    * rewrite lookup_insert_ne by congruence. by rewrite lookup_delete_ne.
- split; [reflexivity|]. intros _. apply drops_none; [|done]. by intros p ->%bool_decide_eq_true.
Qed.

Lemma tick_drops w n : drops (λ _, false) w (mk_fs (fs_exists w) (fs_files w) (fs_retry_counts w) n).
Proof. done. Qed.

Lemma top_not_archive n : ¬ in_archive [n].
Proof. intros [k E]. done. Qed.

(** [m] returns, having moved the file [src], if there is one, to the archive. *)
Definition archives {A} (P : path → bool) (m : M anima_fs A) : Prop :=
∀ w, ∃ a w', m w = (Ok a, w') ∧ carried w w' ∧ drops P w w'.

Lemma archives_bind {A B} P Q (m : M anima_fs A) (f : A → M anima_fs B) :
archives P m → (∀ a, archives Q (f a)) → archives (λ p, P p || Q p) (m ≫= f).
Proof.
intros Hm Hf w. destruct (Hm w) as (a & w1 & E1 & C1 & D1). destruct (Hf a w1) as (b & w2 & E2 & C2 & D2).
exists b, w2. unfold mbind, M_bind. rewrite E1. split; [done|]. split; [by etrans|by eapply drops_trans].
Qed.
Lemma archives_ext {A} P Q (m : M anima_fs A) : (∀ p, P p = Q p) → archives P m → archives Q m.
Proof.
intros HPQ Hm w. destruct (Hm w) as (a & w1 & E1 & C1 & D1 & D2). exists a, w1. split; [done|]. split; [done|]. split; [done|].
intros p Hp. rewrite D2 by done. by rewrite HPQ.
Qed.
Lemma archives_ret {A} (a : A) : archives (λ _, false) (mret a).
Proof. intros w. exists a, w. split; [done|]. split; [reflexivity|apply drops_refl]. Qed.
Lemma archives_stamp : archives (λ _, false) now_stamp.
Proof. intros w. do 2 eexists. split; [done|]. split; [|done]. intros p c Hp _ _. exists p. split; [by left|done]. Qed.

Lemma archives_move src dst_of :
¬ in_archive src → (∀ w, in_archive (dst_of w) ∧ fs_files w !! dst_of w = None) →
archives (λ p, bool_decide (p = src)) (w ← get; _ ← modify (move_file src (dst_of w)); mret (dst_of w)).
Proof.
intros Hsrc Hdst w. destruct (Hdst w) as [Ha Hn]. destruct (move_to_archive src (dst_of w) w) as [Hc Hd]; [done..|].
do 2 eexists. split; [done|]. split; [done|by apply Hd].
Qed.

Lemma archives_bootstrap : archives (λ p, bool_decide (p = bootstrap_md)) archive_bootstrap_file.
Proof.
eapply archives_ext; [|apply archives_bind; [apply archives_stamp|]]; [done|]. intros stamp.
apply (archives_move bootstrap_md (free_path (bootstrap_candidate stamp))); [apply top_not_archive|].
intros w. destruct (free_path_spec (bootstrap_candidate stamp) w) as (i & E & Hf); [apply bootstrap_candidate_inj|].
split; [|done]. rewrite E. by eexists.
Qed.

Lemma archives_named n stem suffix : archives (λ p, bool_decide (p = [n])) (archive_named_file [n] stem suffix).
Proof.
apply (archives_move [n] (free_path (named_candidate stem suffix))); [apply top_not_archive|].
intros w. destruct (free_path_spec (named_candidate stem suffix) w) as (i & E & Hf); [apply named_candidate_inj|].
split; [|done]. rewrite E. by eexists.
Qed.

(** An archiving step taken only when the file is there. *)
Lemma archives_if {A} src (m k : M anima_fs A) :
archives (λ p, bool_decide (p = src)) m → archives (λ _, false) k →
archives (λ p, bool_decide (p = src)) (w ← get; if has_file src w then m else k).
Proof.
intros Hm Hk w. change (∃ a w', (if has_file src w then m else k) w = (Ok a, w') ∧ carried w w' ∧
  drops (λ p, bool_decide (p = src)) w w').
destruct (has_file src w) eqn:E; [apply Hm|].
destruct (Hk w) as (a & w' & Ek & Hc & Hd). exists a, w'. split; [done|]. split; [done|].
apply drops_none; [|done]. intros p ->%bool_decide_eq_true. unfold has_file in E.
by apply bool_decide_eq_false, eq_None_not_Some in E.
Qed.

Lemma archives_then {A B} P (m : M anima_fs A) (f : A → B) : archives P m → archives P (a ← m; mret (f a)).
Proof.
intros Hm. eapply archives_ext; [|apply archives_bind; [exact Hm|intros a; apply archives_ret]].
intros p. apply orb_false_r.
Qed.

(** The inputs of a bootstrap. *)
Definition is_input (p : path) : bool :=
bool_decide (p ∈ bootstrap_md :: ((λ n, [n]) <$> bootstrap_artifacts) ++ [character_sheet_md]).

Lemma archives_artifacts stamp names :
archives (λ p, bool_decide (p ∈ (λ n, [n]) <$> names)) (archive_artifacts stamp names).
Proof.
induction names as [|n names IH]; cbn [archive_artifacts].
- eapply archives_ext; [|apply archives_ret]. intros p. by rewrite bool_decide_eq_false_2 by apply not_elem_of_nil.
- eapply archives_ext; [|apply archives_bind; [|intros one; apply archives_then, IH]].
  2: { apply archives_if; [apply archives_then, archives_named|apply archives_ret]. }
  intros p. rewrite fmap_cons. rewrite (bool_decide_ext (p ∈ [n] :: _) _ (elem_of_cons _ _ _)).
  by rewrite bool_decide_or.
Qed.

Lemma archives_inputs : archives is_input archive_inputs.
Proof.
unfold archive_inputs.
eapply archives_ext; [|apply archives_bind; [|intros first; apply archives_bind; [apply archives_stamp|
  intros stamp; apply archives_bind; [apply archives_artifacts|intros others; apply archives_then]]]].
2: { apply archives_if; [apply archives_then, archives_bootstrap|apply archives_ret]. }
2: { apply archives_if; [apply archives_then, archives_named|apply archives_ret]. }
intros p. unfold is_input. cbn [orb].
rewrite (bool_decide_ext (p ∈ bootstrap_md :: _) _ (elem_of_cons _ _ _)), bool_decide_or. f_equal.
rewrite (bool_decide_ext _ _ (elem_of_app _ _ _)), bool_decide_or. f_equal.
apply bool_decide_ext. by rewrite list_elem_of_singleton.
Qed.
End carry.

(* ------------------------------------------------------------------ *)
(** ** Writing and reading the state *)

Section status.
Context `{BootEnv}.

Definition tick (w : anima_fs) : anima_fs := mk_fs (fs_exists w) (fs_files w) (fs_retry_counts w) (S (fs_tick w)).

(** What a write of an allowed state leaves. *)
Definition stamped (st : dict) (w : anima_fs) : dict :=
dset "updated_at" (JStr (boot_now (fs_tick w))) (dset "version" (JInt 1) st).

Lemma write_run st s w :
dget "state" st = Some (JStr s) → s ∈ ALLOWED_STATES →
write_bootstrap_state st w = (Ok (stamped st w), put_file bootstrap_state_path (Json (JObj (stamped st w))) (tick w)).
Proof.
intros Hs Ha. unfold write_bootstrap_state, now_iso. run_unfold. fold (stamped st w).
assert (dget_none "state" (stamped st w) = JStr s) as ->.
{ unfold dget_none, dget_default, stamped. by rewrite !dget_dset_ne, Hs. }
unfold str_in. by rewrite bool_decide_eq_true_2.
Qed.

Lemma dget_stamped k st w : k ≠ "updated_at" → k ≠ "version" → dget k (stamped st w) = dget k st.
Proof. intros. unfold stamped. by rewrite !dget_dset_ne. Qed.

Lemma read_state_put w st : read_bootstrap_state (put_file bootstrap_state_path (Json (JObj st)) w) = st.
Proof. unfold read_bootstrap_state, read_json, put_file. cbn [fs_files]. by rewrite lookup_insert_eq. Qed.

Lemma put_lookup p q c w : q ≠ p → fs_files (put_file p c w) !! q = fs_files w !! q.
Proof. intros. unfold put_file. cbn [fs_files]. by rewrite lookup_insert_ne. Qed.

Lemma dget_apply_flags k w p :
k ∉ ["needs_user_input"; "needs_repair"; "needs_background_bootstrap"; "needs_bootstrap"] →
dget k (apply_flags w p) = dget k p.
Proof. rewrite !not_elem_of_cons. intros (? & ? & ? & ? & _). unfold apply_flags. by rewrite !dget_dset_ne. Qed.

Lemma without_flags_get k d : startswith "needs_" k = false → dget k (without_flags d) = dget k d.
Proof.
intros Hk. unfold without_flags. induction d as [|[k0 v0] d IH]; [done|].
rewrite filter_cons. cbn [fst dget]. case_bool_decide; subst; case_decide; cbn [dget]; try done.
- by rewrite bool_decide_eq_true_2.
- by rewrite bool_decide_eq_false_2.
Qed.

(** A retry count that was written is read back. *)
Lemma retry_count_read st z : dget "retry_count" st = Some (JInt z) → retry_count_of st = Ok z.
Proof.
intros Hd. unfold retry_count_of, dget_none, dget_default. rewrite Hd. simpl.
destruct (Z.eqb_spec z 0) as [->|]; done.
Qed.

Lemma str_or_default_get k dflt d s : dget k d = Some (JStr s) → s ≠ "" → str_or_default k dflt d = s.
Proof.
intros Hd Hs. unfold str_or_default, dget_none, dget_default. rewrite Hd. cbn [from_option id truthy].
unfold str_truthy. by rewrite bool_decide_eq_false_2.
Qed.

(** The flags of a status. *)
Definition flag (k : string) (d : dict) : option bool :=
match dget k d with Some (JBool b) => Some b | _ => None end.

Lemma flag_dset k b d : flag k (dset k (JBool b) d) = Some b.
Proof. unfold flag. by rewrite dget_dset_eq. Qed.
Lemma flag_dset_ne k k' v d : k ≠ k' → flag k (dset k' v d) = flag k d.
Proof. intros. unfold flag. by rewrite dget_dset_ne. Qed.

Lemma status_flags w s a now :
s ∈ ALLOWED_STATES →
let d := apply_flags w (base_dict s a now) in
let blocking := any (λ n, has_file [n] w) bootstrap_artifacts in
dget "state" d = Some (JStr s) ∧ flag "needs_bootstrap" d = Some (negb (bool_decide (s = STATE_COMPLETED))) ∧
flag "needs_user_input" d = Some (bool_decide (s = STATE_PENDING_USER_INPUT) && has_file bootstrap_md w &&
  negb (has_file character_sheet_md w) && negb blocking) ∧
flag "needs_background_bootstrap" d = Some (has_file bootstrap_md w && has_file character_sheet_md w &&
  negb (str_in s [STATE_RUNNING; STATE_FAILED; STATE_NEEDS_REPAIR]) && negb blocking).
Proof.
intros Hs d blocking. unfold d. rewrite dget_apply_flags by (rewrite !not_elem_of_cons; split_and!; try done; apply not_elem_of_nil).
assert (s ≠ "") as Hne by (intros ->; unfold ALLOWED_STATES in Hs; set_solver).
split; [done|]. unfold apply_flags.
rewrite (str_or_default_get "state" STATE_NEEDS_REPAIR (base_dict s a now) s) by done.
rewrite flag_dset. split; [done|]. rewrite !(flag_dset_ne "needs_user_input" "needs_bootstrap") by done.
rewrite !(flag_dset_ne "needs_user_input" "needs_background_bootstrap") by done.
rewrite !(flag_dset_ne "needs_user_input" "needs_repair"), flag_dset by done. split; [done|].
by rewrite !(flag_dset_ne "needs_background_bootstrap" "needs_bootstrap"), flag_dset by done.
Qed.

Lemma present_artifacts_nil w :
present_artifacts w = [] ↔ any (λ n, has_file [n] w) bootstrap_artifacts = false.
Proof.
unfold present_artifacts. rewrite any_false. split.
- intros E n Hn. destruct (has_file [n] w) eqn:Hf; [|done].
  assert (n ∈ filter (λ n, has_file [n] w = true) bootstrap_artifacts) as Hin by by apply list_elem_of_filter.
  rewrite E in Hin. by apply not_elem_of_nil in Hin.
- intros Hall. destruct (filter _ _) as [|n l] eqn:E; [done|].
  assert (n ∈ n :: l) as Hn by left. rewrite <- E in Hn. apply list_elem_of_filter in Hn as [Hf Hn].
  rewrite Hall in Hf by done. done.
Qed.

(** The status read after a state was written, when nothing blocks. *)
Lemma status_run w retry s a :
fs_exists w = true → present_artifacts w = [] → retry_count_of (read_bootstrap_state w) = Ok retry →
derive_status w (read_bootstrap_state w) retry = Ok (s, a) →
get_bootstrap_status w = (Ok (apply_flags w (base_dict s a (boot_now (fs_tick w)))), tick w).
Proof.
intros He Hp Hr Hd. unfold get_bootstrap_status. run_unfold. rewrite Hr, He, Hp. cbn [negb].
by rewrite Hd.
Qed.
End status.

Section written.
Context `{BootEnv}.

Lemma has_file_put p c w q : q ≠ p → has_file q (put_file p c w) = has_file q w.
Proof. intros. unfold has_file. by rewrite put_lookup. Qed.

Lemma present_artifacts_put st w :
present_artifacts (put_file bootstrap_state_path st w) = present_artifacts w.
Proof. unfold present_artifacts. apply filter_ext_in. intros n _. by rewrite has_file_put. Qed.

Lemma carried_put st w : carried w (put_file bootstrap_state_path st (tick w)).
Proof. intros p c Hp Hst _. exists p. split; [by left|]. by rewrite put_lookup. Qed.

Lemma completed_allowed : STATE_COMPLETED ∈ ALLOWED_STATES.
Proof. by apply (bool_decide_unpack _). Qed.
Lemma needs_repair_allowed : STATE_NEEDS_REPAIR ∈ ALLOWED_STATES.
Proof. by apply (bool_decide_unpack _). Qed.
Lemma pending_allowed : STATE_PENDING_USER_INPUT ∈ ALLOWED_STATES.
Proof. by apply (bool_decide_unpack _). Qed.

(** The status of a directory whose state file was just written. *)
Section after_write.
Context (w : anima_fs) (st : dict) (z : Z).
Context (Hretry : dget "retry_count" st = Some (JInt z)).
Let w' : anima_fs := put_file bootstrap_state_path (Json (JObj st)) w.

Lemma status_completed :
  dget "state" st = Some (JStr STATE_COMPLETED) → present_artifacts w = [] → has_file bootstrap_md w = false →
  ∃ d, val_of (get_bootstrap_status w') = Ok d ∧ dget "state" d = Some (JStr STATE_COMPLETED) ∧
   flag "needs_bootstrap" d = Some false.
Proof.
  intros Hs Ha Hb. eexists. erewrite status_run; [split; [done|]|done|by unfold w'; rewrite present_artifacts_put| |].
  - split; apply status_flags, completed_allowed.
  - unfold w'. rewrite read_state_put. by apply retry_count_read.
  - unfold w'. rewrite read_state_put. unfold derive_status. rewrite has_file_put, Hb by done.
rewrite (str_or_default_get "state" "" st STATE_COMPLETED) by done. done.
Qed.

Lemma status_needs_repair e :
  dget "state" st = Some (JStr STATE_NEEDS_REPAIR) → dget "validation_errors" st = Some (JList e) →
  ∃ d, val_of (get_bootstrap_status w') = Ok d ∧ dget "state" d = Some (JStr STATE_NEEDS_REPAIR).
Proof.
  intros Hs Hv. destruct (present_artifacts w) as [|n l] eqn:Ea.
  - eexists. erewrite status_run; [split; [done|]|done|by unfold w'; rewrite present_artifacts_put| |].
+ apply status_flags, needs_repair_allowed.
+ unfold w'. rewrite read_state_put. by apply retry_count_read.
+ unfold w'. rewrite read_state_put. unfold derive_status.
  rewrite (str_or_default_get "state" "" st STATE_NEEDS_REPAIR) by done.
  assert (list_of (dget_none "validation_errors" st) = Ok e) as ->; [|done].
  unfold list_of, dget_none, dget_default. rewrite Hv. by destruct e.
  - unfold get_bootstrap_status. run_unfold. unfold w'. rewrite read_state_put, (retry_count_read st z) by done.
rewrite present_artifacts_put, Ea. cbn [put_file fs_exists negb]. eexists. split; [done|].
apply status_flags, needs_repair_allowed.
Qed.

Lemma status_resumable mode :
  dget "state" st = Some (JStr STATE_PENDING_USER_INPUT) → dget "mode" st = Some (JStr mode) →
  (has_file character_sheet_md w = false → mode = "interactive") →
  present_artifacts w = [] → has_file bootstrap_md w = true →
  ∃ d, val_of (get_bootstrap_status w') = Ok d ∧ dget "state" d = Some (JStr STATE_PENDING_USER_INPUT) ∧
   flag "needs_background_bootstrap" d = Some (has_file character_sheet_md w) ∧
   flag "needs_user_input" d = Some (negb (has_file character_sheet_md w)).
Proof.
  intros Hs Hm Hmode Ha Hb.
  assert (∃ a, derive_status w' (read_bootstrap_state w') z = Ok (STATE_PENDING_USER_INPUT, a)) as [a Hd].
  { unfold w'. rewrite read_state_put. unfold derive_status. rewrite !has_file_put, Hb by done.
rewrite (str_or_default_get "state" "" st STATE_PENDING_USER_INPUT) by done.
destruct (has_file character_sheet_md w); [by eexists|]. rewrite Hmode in Hm by done.
unfold dget_none, dget_default. rewrite Hm. by eexists. }
  eexists. erewrite status_run; [|done|by unfold w'; rewrite present_artifacts_put| |exact Hd].
  2: { unfold w'. rewrite read_state_put. by apply retry_count_read. }
  destruct (status_flags w' STATE_PENDING_USER_INPUT a (boot_now (fs_tick w')) pending_allowed) as (F1 & _ & F3 & F4).
  assert (any (λ n, has_file [n] w') bootstrap_artifacts = false) as Hblk.
  { apply present_artifacts_nil. unfold w'. by rewrite present_artifacts_put. }
  assert (has_file bootstrap_md w' = true ∧ has_file character_sheet_md w' = has_file character_sheet_md w) as [Hb' Hs'].
  { unfold w'. by rewrite !has_file_put. }
  rewrite Hblk, Hb', Hs' in F3, F4. split; [done|]. split; [exact F1|]. rewrite F3, F4.
  by destruct (has_file character_sheet_md w).
Qed.
End after_write.
End written.

(* ------------------------------------------------------------------ *)
(** ** Theorems *)

Section theorems.
Context `{BootEnv}.

Lemma drops_has P w w' p : drops P w w' → ¬ in_archive p → has_file p w' = negb (P p) && has_file p w.
Proof. intros [_ Hd] Hp. unfold has_file. rewrite Hd by done. by destruct (P p). Qed.

Lemma validate_run w retry :
retry_count_of (read_bootstrap_state w) = Ok retry →
∃ d, validate_bootstrap w = (Ok d, tick w) ∧ dget "retry_count" d = Some (JInt retry) ∧
  dget "validation_errors" d = Some (JList (validation_errors w)) ∧
  dget "state" d = Some (JStr (match validation_errors w with [] => STATE_COMPLETED | _ => STATE_NEEDS_REPAIR end)).
Proof.
intros Hr. unfold validate_bootstrap. run_unfold. rewrite Hr. eexists. split; [done|].
rewrite !dget_apply_flags by (by apply (bool_decide_unpack _)). split_and!; [done|done|].
by destruct (validation_errors w).
Qed.

Lemma valid_no_artifacts w : validation_errors w = [] → present_artifacts w = [].
Proof.
unfold validation_errors. intros (_ & (E & _)%app_nil)%app_nil. by apply fmap_nil_inv in E.
Qed.

(** The archiving part of a valid run. *)
Lemma archive_completed_run w status :
∃ d w1, archive_completed status w = (Ok d, w1) ∧
  dget "state" d = dget "state" status ∧ dget "retry_count" d = dget "retry_count" status ∧
  carried w w1 ∧ drops (λ p, bool_decide (p = bootstrap_md)) w w1.
Proof.
unfold archive_completed. run_unfold. destruct (has_file bootstrap_md w) eqn:Eb.
- destruct (archives_bootstrap w) as (p & w1 & E & Hc & Hd). rewrite E.
  do 2 eexists. split; [done|]. by rewrite !dget_dset_ne.
- do 2 eexists. split; [done|]. split_and!; [done|done|reflexivity|].
  apply drops_none; [|done]. intros p ->%bool_decide_eq_true. unfold has_file in Eb.
  by apply bool_decide_eq_false, eq_None_not_Some in Eb.
Qed.

Lemma drops_artifacts P w w' :
drops P w w' → (∀ n, n ∈ bootstrap_artifacts → P [n] = false) → present_artifacts w' = present_artifacts w.
Proof.
intros Hd HP. unfold present_artifacts. apply filter_ext_in. intros n Hn.
rewrite (drops_has P w w') by (done || apply top_not_archive). by rewrite HP.
Qed.

(** Finalizing a bootstrap run: it completes exactly when the output is
  valid; then the prompt is gone from the directory and no bootstrap is
  needed; otherwise it needs repair and nothing but the state file changed.
  The status read afterwards is the one it returned, and every other file is
  still there, in its place or in the archive, where nothing was
  overwritten. *)
Theorem finalize_spec w retry :
retry_count_of (read_bootstrap_state w) = Ok retry →
∃ d w' s, finalize_bootstrap_run w = (Ok d, w') ∧ val_of (get_bootstrap_status w') = Ok s ∧
  dget "state" s = dget "state" d ∧ carried w w' ∧
  (validation_errors w = [] →
     dget "state" d = Some (JStr STATE_COMPLETED) ∧ has_file bootstrap_md w' = false ∧
     flag "needs_bootstrap" s = Some false) ∧
  (validation_errors w ≠ [] →
     dget "state" d = Some (JStr STATE_NEEDS_REPAIR) ∧
     ∀ p, p ≠ bootstrap_state_path → fs_files w' !! p = fs_files w !! p).
Proof.
intros Hr. destruct (validate_run w retry Hr) as (v & Hv & Hvr & Hve & Hvs).
unfold finalize_bootstrap_run. unfold mbind at 1, M_bind at 1. rewrite Hv.
assert (dget_none "state" v = JStr (match validation_errors w with [] => STATE_COMPLETED | _ => STATE_NEEDS_REPAIR end))
  as -> by (unfold dget_none, dget_default; by rewrite Hvs).
destruct (validation_errors w) as [|e errors] eqn:Eerr.
- destruct (archive_completed_run (tick w) v) as (d & w1 & Ha & Hds & Hdr & Hc & Hdrop).
  simpl. unfold mbind, M_bind. rewrite Ha. unfold now_iso at 1.
  set (st := dset "completed_at" (JStr _) (without_flags d)).
  assert (dget "state" st = Some (JStr STATE_COMPLETED) ∧ dget "retry_count" st = Some (JInt retry)) as [Hst1 Hst2].
  { unfold st. rewrite !dget_dset_ne, !without_flags_get by done. by rewrite Hds, Hdr. }
  rewrite (write_run st STATE_COMPLETED) by (done || apply completed_allowed).
  assert (has_file bootstrap_md w1 = false) as Hb.
  { rewrite (drops_has _ _ _ bootstrap_md Hdrop) by apply top_not_archive. by rewrite bool_decide_eq_true_2. }
  destruct (status_completed (tick (tick w1)) (stamped st (tick w1)) retry) as (s & Hs1 & Hs2 & Hs3).
  { by rewrite dget_stamped. } { by rewrite dget_stamped. }
  { transitivity (present_artifacts w); [|by apply valid_no_artifacts].
    eapply (drops_artifacts _ w w1); [exact Hdrop|]. intros n Hn. apply bool_decide_eq_false. intros [= ->].
    revert Hn. by apply (bool_decide_unpack _). } { exact Hb. }
  eexists _, _, s. split; [done|]. split; [exact Hs1|]. rewrite dget_stamped, Hst1 by done.
  split; [done|]. split; [|split; [|done]].
  + etrans; [exact Hc|]. apply (carried_put _ (tick w1)).
  + intros _. rewrite has_file_put by done. done.
- simpl. unfold persist_invalid. run_unfold.
  set (st := dset "mode" _ (without_flags v)).
  assert (dget "state" st = Some (JStr STATE_NEEDS_REPAIR) ∧ dget "retry_count" st = Some (JInt retry) ∧
          dget "validation_errors" st = Some (JList (e :: errors))) as (Hst1 & Hst2 & Hst3).
  { unfold st. by rewrite !dget_dset_ne, !without_flags_get. }
  rewrite (write_run st STATE_NEEDS_REPAIR) by (done || apply needs_repair_allowed).
  destruct (status_needs_repair (tick (tick w)) (stamped st (tick w)) retry) with (e := e :: errors) as (s & Hs1 & Hs2).
  { by rewrite dget_stamped. } { by rewrite dget_stamped. } { by rewrite dget_stamped. }
  eexists _, _, s. split; [done|]. split; [exact Hs1|]. rewrite dget_stamped, Hst1 by done.
  split; [done|]. split; [apply (carried_put _ (tick w))|]. split; [done|]. intros _. split; [done|].
  intros p Hp. by rewrite put_lookup.
Qed.

(** Deleting files. *)
Lemma delete_lookup P w p :
fs_files (delete_files P w) !! p =
  match fs_files w !! p with Some c => if P p c then None else Some c | None => None end.
Proof.
unfold delete_files, set_files. cbn [fs_files]. rewrite map_lookup_filter.
destruct (fs_files w !! p) as [c|]; [|done]. simpl. by destruct (P p c).
Qed.
Lemma delete_keeps P w p : (∀ c, P p c = false) → fs_files (delete_files P w) !! p = fs_files w !! p.
Proof. intros HP. rewrite delete_lookup. destruct (fs_files w !! p) as [c|]; [|done]. by rewrite HP. Qed.
Lemma has_file_eq p w w' : fs_files w' !! p = fs_files w !! p → has_file p w' = has_file p w.
Proof. unfold has_file. by intros ->. Qed.

Lemma top_not_pending n c : is_pending_bootstrap [n] c = false.
Proof.
unfold is_pending_bootstrap, is_prefix. rewrite !bool_decide_eq_false_2; [done|intros [? ?]; done..].
Qed.

Lemma no_pending w :
(∀ p c, fs_files w !! p = Some c → is_pending_bootstrap p c = false) → pending_task_files w = [].
Proof.
intros Hno. unfold pending_task_files.
assert (∀ dir, is_prefix ["state"; "pending"] dir || is_prefix ["state"; "background_tasks"; "pending"] dir = true →
          bootstrap_tasks_in dir w = []) as Hdir.
{ intros dir Hd. unfold bootstrap_tasks_in.
  set (names := omap _ _). assert (names = []) as ->; [|done].
  destruct names as [|n l] eqn:E; [done|]. assert (n ∈ names) as Hn by (rewrite E; left). clear E.
  unfold names in Hn. apply list_elem_of_omap in Hn as ([p c] & Hpc%elem_of_map_to_list & Hn).
  apply Hno in Hpc. destruct (last p) as [m|]; [|done]. destruct (_ && _) eqn:E; simplify_eq.
  apply andb_true_iff in E as [Ep%bool_decide_eq_true Et]. unfold is_pending_bootstrap in Hpc.
  rewrite Et, andb_true_r in Hpc. exfalso. apply orb_false_iff in Hpc as [H1 H2].
  unfold is_prefix in *. apply orb_true_iff in Hd as [Hd|Hd]; apply bool_decide_eq_true in Hd.
  - apply bool_decide_eq_false in H1. destruct H1. rewrite Ep. by apply prefix_app_r.
  - apply bool_decide_eq_false in H2. destruct H2. rewrite Ep. by apply prefix_app_r. }
unfold pending_candidates. cbn [mbind list_bind]. rewrite !Hdir; [done|vm_compute; done..].
Qed.

Lemma defined_ext p w w' : fs_files w' !! p = fs_files w !! p → file_is_defined p w' = file_is_defined p w.
Proof. intros E. unfold file_is_defined, read_text. by rewrite (has_file_eq p w w' E), E. Qed.

Lemma validation_errors_files w w' : fs_files w' = fs_files w → validation_errors w' = validation_errors w.
Proof. destruct w, w'. simpl. by intros ->. Qed.

(** Reading the status changes no file. *)
Lemma status_files w : fs_files (state_of (get_bootstrap_status w)) = fs_files w.
Proof.
unfold get_bootstrap_status, base_state, now_iso. run_unfold.
destruct (retry_count_of _); [|done]. destruct (if negb (fs_exists w) then _ else _) as [[]|]; done.
Qed.

(** The directory a completing repair leaves, up to the state file. *)
Definition cleaned (name : string) (w : anima_fs) : anima_fs :=
clear_retry_count name (delete_files is_pending_bootstrap w).

Lemma cleaned_top name w n : fs_files (cleaned name w) !! [n] = fs_files w !! [n].
Proof. apply (delete_keeps is_pending_bootstrap w [n]), top_not_pending. Qed.

Lemma cleaned_carried name w : carried w (cleaned name w).
Proof.
intros p c Hp _ Hn. exists p. split; [by left|].
change (fs_files (delete_files is_pending_bootstrap w) !! p = Some c). by rewrite delete_lookup, Hp, Hn.
Qed.

Lemma cleaned_no_pending name w st :
pending_task_files (put_file bootstrap_state_path st (cleaned name w)) = [].
Proof.
apply no_pending. intros p c. destruct (decide (p = bootstrap_state_path)) as [->|Hne].
- intros _. done.
- rewrite put_lookup by done. change (fs_files (cleaned name w)) with (fs_files (delete_files is_pending_bootstrap w)).
  rewrite delete_lookup. destruct (fs_files w !! p) as [d|]; [|done]. destruct (is_pending_bootstrap p d) eqn:E; [done|].
  by intros [= <-].
Qed.

Lemma complete_run name w :
fs_exists w = true → definition_errors w = [] →
∃ inputs w1 st n, archive_inputs w = (Ok inputs, w1) ∧ carried w w1 ∧ drops is_input w w1 ∧
  dget "state" st = Some (JStr STATE_COMPLETED) ∧ dget "retry_count" st = Some (JInt 0) ∧
  let w2 := put_file bootstrap_state_path (Json (JObj st))
              (cleaned name (mk_fs (fs_exists w1) (fs_files w1) (fs_retry_counts w1) n)) in
  repair_bootstrap_complete name w = get_bootstrap_status w2.
Proof.
intros He Hd. destruct (archives_inputs w) as ([ar sh] & w1 & Ha & Hc & Hdr).
assert (∃ st v, repair_bootstrap_complete name w = (_ ← write_bootstrap_state st; get_bootstrap_status) v ∧
    dget "state" st = Some (JStr STATE_COMPLETED) ∧ dget "retry_count" st = Some (JInt 0) ∧
    v = cleaned name (mk_fs (fs_exists w1) (fs_files w1) (fs_retry_counts w1) (fs_tick v)))
  as (st & v & Hrun & Hs1 & Hs2 & Hv).
{ unfold repair_bootstrap_complete, base_state, now_iso, remove_bootstrap_pending_tasks. run_unfold.
  rewrite He, Hd. cbn [negb]. cbv beta iota. rewrite Ha. cbv beta iota. eexists _, _. split; [reflexivity|]. split_and!; [..|done].
  - destruct (str_truthy sh), ar; by rewrite ?dget_dset_ne.
  - destruct (str_truthy sh), ar; by rewrite ?dget_dset_ne. }
exists (ar, sh), w1, (stamped st v), (S (fs_tick v)).
split_and!; [done|done|done|by rewrite dget_stamped|by rewrite dget_stamped|].
cbn zeta. rewrite Hrun. unfold mbind, M_bind.
rewrite (write_run st STATE_COMPLETED) by (done || apply completed_allowed). by rewrite Hv.
Qed.

(** A repair that completes a defined anima really completes it: the
  status it returns is completed with no bootstrap needed, the directory then
  passes validation and has no prompt, and every file but the state file and
  the bootstrap's own pending tasks is kept, in its place or in the
  archive. *)
Theorem repair_complete_spec name w :
fs_exists w = true → definition_errors w = [] →
∃ d w', repair_bootstrap_complete name w = (Ok d, w') ∧ dget "state" d = Some (JStr STATE_COMPLETED) ∧
  flag "needs_bootstrap" d = Some false ∧ validation_errors w' = [] ∧ has_file bootstrap_md w' = false ∧
  carried w w'.
Proof.
intros He Hdef. destruct (complete_run name w He Hdef) as (inputs & w1 & st & n & _ & Hc & Hdr & Hs & Hrc & ->).
set (w1' := mk_fs _ _ _ n). set (w2 := cleaned name w1').
assert (∀ x, fs_files w2 !! [x] = if is_input [x] then None else fs_files w !! [x]) as Htop.
{ intros x. unfold w2. rewrite cleaned_top. apply Hdr, top_not_archive. }
assert (∀ x, is_input [x] = true → has_file [x] w2 = false) as Hgone.
{ intros x Hx. unfold has_file. by rewrite Htop, Hx. }
assert (present_artifacts w2 = []) as Hart.
{ unfold present_artifacts, bootstrap_artifacts. rewrite !filter_cons, !Hgone by done. done. }
set (w3 := put_file bootstrap_state_path (Json (JObj st)) w2).
destruct (status_completed w2 st 0 Hrc Hs Hart) as (d & Hd & Hd1 & Hd2); [by apply Hgone|].
pose proof (status_files w3) as Hf. change (put_file bootstrap_state_path _ w2) with w3 in Hd |- *.
destruct (get_bootstrap_status w3) as [r w']. cbn [fst snd] in Hd, Hf. subst r.
exists d, w'. split; [done|]. split; [done|]. split; [done|].
assert (∀ x, fs_files w3 !! [x] = fs_files w2 !! [x]) as H32 by (intros x; by apply put_lookup).
split; [|split].
- rewrite (validation_errors_files w3) by done. unfold validation_errors.
  assert (pending_task_files w3 = []) as -> by apply cleaned_no_pending.
  assert (has_file character_sheet_md w3 = false) as ->.
  { rewrite (has_file_eq _ w2 w3) by apply H32. by apply Hgone. }
  assert (present_artifacts w3 = []) as -> by (unfold w3; by rewrite present_artifacts_put).
  rewrite !app_nil_r. unfold definition_errors in *.
  rewrite (defined_ext identity_md w w3) by (unfold identity_md; by rewrite H32, Htop).
  by rewrite (defined_ext injection_md w w3) by (unfold injection_md; by rewrite H32, Htop).
- rewrite (has_file_eq _ w2 w'); [by apply Hgone|]. rewrite Hf. by apply H32.
- etrans; [exact Hc|]. etrans; [apply (cleaned_carried name w1')|].
  intros p c Hp Hst _. exists p. split; [by left|]. rewrite Hf. by unfold w3; rewrite put_lookup.
Qed.

(* ------------------------------------------------------------------ *)
(** ** Retrying *)

(** The prompt is not an artifact. *)
Ltac prompt_ne := unfold bootstrap_md; congruence.

(** A file moved onto another name. *)
Lemma move_lookup src dst w p :
src ≠ dst → is_Some (fs_files w !! src) →
fs_files (move_file src dst w) !! p =
  if decide (p = dst) then fs_files w !! src else if decide (p = src) then None else fs_files w !! p.
Proof.
intros Hne [c Hc]. unfold move_file, set_files. rewrite Hc. cbn [fs_files].
repeat case_decide; subst; simplify_map_eq; done.
Qed.

(** What restoring leaves: no artifact, the prompt kept or taken from one, and
  the rest of the directory outside the archive. *)
Record restored_from (names : list string) (w w' : anima_fs) : Prop := {
rs_gone : ∀ n, n ∈ names → fs_files w' !! [n] = None;
rs_prompt : ∀ c, fs_files w !! bootstrap_md = Some c → fs_files w' !! bootstrap_md = Some c;
rs_has : has_file bootstrap_md w' = has_file bootstrap_md w || any (λ n, has_file [n] w) names;
rs_rest : ∀ p, p ≠ bootstrap_md → p ∉ (λ n, [n]) <$> names → ¬ in_archive p → fs_files w' !! p = fs_files w !! p
}.

Lemma restored_skip n names w w' :
has_file [n] w = false → n ∉ names → "bootstrap.md" ≠ n → restored_from names w w' → restored_from (n :: names) w w'.
Proof.
intros Hn Hnin Hbn [Hg Hp Hh Hr]. split.
- intros m [->|Hm]%elem_of_cons; [|by apply Hg]. rewrite Hr; [|prompt_ne| |apply top_not_archive].
  + unfold has_file in Hn. by apply bool_decide_eq_false, eq_None_not_Some in Hn.
  + by intros (x & [= ->] & ?)%list_elem_of_fmap.
- done.
- rewrite Hh. simpl. by rewrite Hn.
- intros p Hb Hin Ha. apply Hr; [done| |done]. intros ?. apply Hin. rewrite fmap_cons. by right.
Qed.

(** Moving one artifact away, then restoring from the others. *)
Lemma restored_move n names dst w w1 w' :
has_file [n] w = true → n ∉ names → "bootstrap.md" ≠ n →
(dst = bootstrap_md ∧ has_file bootstrap_md w = false ∨ in_archive dst ∧ has_file bootstrap_md w = true) →
fs_files w1 = fs_files (move_file [n] dst w) →
restored_from names w1 w' → restored_from (n :: names) w w'.
Proof.
intros Hn Hnin Hbn Hdst Hw1 [Hg Hp Hh Hr].
assert (is_Some (fs_files w !! [n])) as Hsome by (unfold has_file in Hn; by apply bool_decide_eq_true in Hn).
assert ([n] ≠ dst) as Hne.
{ destruct Hdst as [[-> _]|[Ha _]]; [prompt_ne|]. intros <-. by apply top_not_archive in Ha. }
assert (has_file bootstrap_md w1 = true) as Hb1.
{ unfold has_file. apply bool_decide_eq_true. rewrite Hw1, move_lookup by done.
  case_decide; [done|]. rewrite decide_False by (prompt_ne).
  destruct Hdst as [[-> _]|[_ Hb]]; [done|]. unfold has_file in Hb. by apply bool_decide_eq_true in Hb. }
split.
- intros m [->|Hm]%elem_of_cons; [|by apply Hg]. rewrite Hr; [|prompt_ne| |apply top_not_archive].
  + rewrite Hw1, move_lookup by done. by rewrite decide_False, decide_True.
  + by intros (x & [= ->] & ?)%list_elem_of_fmap.
- intros c Hc. apply Hp. rewrite Hw1, move_lookup by done.
  destruct Hdst as [[-> Hb]|[Ha _]]; [unfold has_file in Hb; rewrite Hc in Hb; by rewrite bool_decide_eq_true_2 in Hb|].
  rewrite !decide_False; [done|prompt_ne|]. intros <-. by apply top_not_archive in Ha.
- rewrite Hh, Hb1. simpl. by rewrite Hn, orb_true_r.
- intros p Hb Hin Ha. rewrite fmap_cons, not_elem_of_cons in Hin. destruct Hin as [Hpn Hin].
  rewrite Hr, Hw1, move_lookup by done. rewrite !decide_False; [done|done|].
  destruct Hdst as [[-> _]|[Hda _]]; [done|]. by intros ->.
Qed.

Lemma restore_run names r w :
NoDup names → "bootstrap.md" ∉ names → (r = true → has_file bootstrap_md w = true) →
∃ w', restore_artifacts names r w = (Ok tt, w') ∧ fs_exists w' = fs_exists w ∧ restored_from names w w'.
Proof.
revert r w. induction names as [|n names IH]; intros r w Hnd Hb Hr.
{ exists w. split_and!; [done|done|]. split; [by intros ? ?%not_elem_of_nil|done|by rewrite orb_false_r|done]. }
apply NoDup_cons in Hnd as [Hnin Hnd]. apply not_elem_of_cons in Hb as [Hbn Hb].
cbn [restore_artifacts]. run_unfold. destruct (has_file [n] w) eqn:En; cbn [negb].
- assert (∀ dst v, fs_exists (move_file [n] dst v) = fs_exists v) as Hex.
  { intros. unfold move_file. by destruct (_ !! _). }
  destruct (has_file bootstrap_md w) eqn:Ebm; cbn [negb andb].
  + unfold now_stamp. cbv beta iota.
    match goal with |- context [restore_artifacts names r ?v] => set (w1 := v) end.
    assert (fs_files w1 = fs_files (move_file [n] (archive_dir ++ [n +:+ "." +:+ boot_stamp (fs_tick w)]) w)) as Hw1.
    { unfold w1, move_file. cbn [fs_files]. by destruct (fs_files w !! [n]). }
    destruct (IH r w1) as (w' & E & He & Hrs); [done|done| |].
    { intros Hrt. rewrite (has_file_eq _ w w1); [done|]. rewrite Hw1. unfold has_file in En.
      apply bool_decide_eq_true in En. rewrite move_lookup by done. rewrite !decide_False; [done|prompt_ne|done]. }
    exists w'. split; [done|]. split; [rewrite He; unfold w1; by rewrite Hex|].
    eapply restored_move; [done..| |exact Hw1|exact Hrs]. right. split; [by eexists|done].
  + assert (r = false) as -> by (destruct r; [by specialize (Hr eq_refl)|done]). cbn [negb].
    destruct (IH true (move_file [n] bootstrap_md w)) as (w' & E & He & Hrs); [done|done| |].
    { intros _. unfold has_file in *. apply bool_decide_eq_true in En. apply bool_decide_eq_true.
      rewrite move_lookup by (done || prompt_ne). by rewrite decide_True. }
    exists w'. split; [done|]. split; [rewrite He; apply Hex|].
    eapply restored_move; [done..| |done|exact Hrs]. by left.
- destruct (IH r w) as (w' & E & He & Hrs); [done..|]. exists w'. split; [done|]. split; [done|].
  by apply restored_skip.
Qed.

(** The files a retry keeps untouched among those of the top directory. *)
Lemma delete_all_top w n :
n ≠ "shortterm" →
fs_files (delete_files is_pending_bootstrap (delete_files is_session_file (delete_files in_shortterm w))) !! [n] =
  fs_files w !! [n].
Proof.
intros Hn. rewrite delete_keeps by apply top_not_pending. rewrite delete_keeps by done.
apply delete_keeps. intros c. unfold in_shortterm, is_prefix. apply bool_decide_eq_false.
intros [k E]. simplify_eq/=.
Qed.

Lemma retry_run name w :
∃ w1 st v, restored_from bootstrap_artifacts w w1 ∧
  repair_bootstrap_retry name w = get_bootstrap_status (put_file bootstrap_state_path (Json (JObj st)) v) ∧
  dget "state" st = Some (JStr STATE_PENDING_USER_INPUT) ∧ dget "retry_count" st = Some (JInt 0) ∧
  dget "mode" st = Some (JStr (if has_file character_sheet_md v then "character_sheet" else "interactive")) ∧
  fs_files v = fs_files (cleaned name (delete_files is_session_file (delete_files in_shortterm w1))).
Proof.
set (w0 := mk_fs true (fs_files w) (fs_retry_counts w) (fs_tick w)).
destruct (restore_run bootstrap_artifacts false w0) as (w1 & E & _ & Hrs);
  [by apply (bool_decide_unpack _)|by apply (bool_decide_unpack _)|done|].
exists w1. set (v0 := cleaned name (delete_files is_session_file (delete_files in_shortterm w1))).
set (mode := if has_file character_sheet_md v0 then "character_sheet" else "interactive").
set (st := base_dict STATE_PENDING_USER_INPUT (args mode "retry_prepared" [] 0) (boot_now (fs_tick v0))).
exists (stamped st (tick v0)), (tick (tick v0)).
assert (repair_bootstrap_retry name w = (_ ← write_bootstrap_state st; get_bootstrap_status) (tick v0)) as Hrun.
{ unfold repair_bootstrap_retry, remove_bootstrap_pending_tasks, base_state, now_iso. run_unfold.
  fold w0. by rewrite E. }
split; [by destruct Hrs|]. split_and!; [|done|done|done|done].
rewrite Hrun. unfold mbind, M_bind. by rewrite (write_run st STATE_PENDING_USER_INPUT) by (done || apply pending_allowed).
Qed.

(** A repair that retries leaves an anima that can be resumed: when there
  was a prompt, or an artifact one was renamed to, the prompt is there (the
  old one if there was one), no artifact and no pending task of the
  bootstrap is, and the status waits for the background bootstrap when there
  is a character sheet and for the user otherwise. *)
Theorem repair_retry_resumable name w :
has_file bootstrap_md w || any (λ n, has_file [n] w) bootstrap_artifacts = true →
∃ d w', repair_bootstrap_retry name w = (Ok d, w') ∧
  dget "state" d = Some (JStr STATE_PENDING_USER_INPUT) ∧
  flag "needs_background_bootstrap" d = Some (has_file character_sheet_md w) ∧
  flag "needs_user_input" d = Some (negb (has_file character_sheet_md w)) ∧
  has_file bootstrap_md w' = true ∧ present_artifacts w' = [] ∧ pending_task_files w' = [] ∧
  ∀ c, fs_files w !! bootstrap_md = Some c → fs_files w' !! bootstrap_md = Some c.
Proof.
intros Hany. destruct (retry_run name w) as (w1 & st & v & [Hg Hp Hh Hr] & Hrun & Hs & Hrc & Hm & Hv).
rewrite Hany in Hh.
assert (∀ n, n ≠ "shortterm" → fs_files v !! [n] = fs_files w1 !! [n]) as Htop.
{ intros n Hn. rewrite Hv. by apply (delete_all_top w1 n). }
assert (has_file bootstrap_md v = true) as Hb.
{ by rewrite (has_file_eq _ w1 v) by by apply Htop. }
assert (present_artifacts v = []) as Hart.
{ apply present_artifacts_nil, any_false. intros n Hn. unfold has_file. rewrite Htop, Hg; [done|done|].
  intros ->. revert Hn. by apply (bool_decide_unpack _). }
assert (has_file character_sheet_md v = has_file character_sheet_md w) as Hsheet.
{ apply has_file_eq. unfold character_sheet_md at 1. rewrite Htop by done.
  apply Hr; [done|by apply (bool_decide_unpack _)|apply top_not_archive]. }
destruct (status_resumable v st 0 Hrc _ Hs Hm) as (d & Hd & D1 & D2 & D3); [by intros ->|done|done|].
rewrite Hsheet in D2, D3. rewrite Hrun.
set (v' := put_file bootstrap_state_path (Json (JObj st)) v) in *.
pose proof (status_files v') as Hf. destruct (get_bootstrap_status v') as [r w']. cbn [fst snd] in Hd, Hf. subst r.
assert (∀ n, fs_files w' !! [n] = fs_files v !! [n]) as Hw' by (intros n; rewrite Hf; by apply put_lookup).
exists d, w'. split_and!; [done..| | | |].
- by rewrite (has_file_eq _ v w') by by apply Hw'.
- rewrite <- Hart. unfold present_artifacts. apply filter_ext_in. intros n _. by rewrite (has_file_eq _ v w').
- apply no_pending. intros p c. rewrite Hf. unfold v'. destruct (decide (p = bootstrap_state_path)) as [->|Hne]; [done|].
  rewrite put_lookup, Hv by done. change (fs_files (cleaned name ?x)) with (fs_files (delete_files is_pending_bootstrap x)).
  rewrite delete_lookup. destruct (fs_files _ !! p) as [e|]; [|done]. destruct (is_pending_bootstrap p e) eqn:Ee; [done|].
  by intros [= <-].
- intros c Hc. unfold bootstrap_md. rewrite Hw', Htop by done. by apply Hp.
Qed.
End theorems.
