(* ===== verification/GuardWitnesses.v ===== *)
(** * The guards, limits and the bootstrap at work

    For each theorem about them a concrete instance, with its hypotheses
    evaluated. *)

From stdpp Require Import prelude strings list gmap pretty relations.
From Stdlib Require Import QArith.
From S2P Require Import Prelude PyValue PyText TaskModels TaskQueue LoopGuards LoopGuardsProps RateGuard Activity Cascade Mailbox InboxLimiter Bootstrap BootstrapProps.
Open Scope nat_scope.

(* ------------------------------------------------------------------ *)
(** ** The loops *)

Definition turn_a : signature := ["read_file:1"].


(** A provider that fails twice and then answers. *)
Definition flaky : retry_env string string := mk_env
  (λ log, if bool_decide (length (omap call_of log) < 2) then inl "529" else inr "hello")
  (λ _, mk_classified (Some "overloaded") true (Some 2%Q))
  (λ _ q, q) (Some (λ _, false)) true None 3.

Lemma retry_bounded_witness :
  fst (call_llm_with_retry flaky) = Returned "hello" ∧
  1 ≤ length (omap call_of (snd (call_llm_with_retry flaky))) ≤ 4.
Proof.
  split; [vm_compute; reflexivity|].
  destruct (retry_bounded flaky) as [Hb _]; [discriminate|].
  destruct (call_llm_with_retry flaky) as [o log]. apply Hb.
Defined.

#[local] Instance plain_oracle : Oracle := {| now_at _ := ""; uuid_at _ := ""; py_repr _ := "" |}.

Definition tool_history : list dict :=
  [[("role", JStr "user"); ("content", JStr "go")];
   [("role", JStr "assistant"); ("content", JNull);
    ("tool_calls", JList [JObj [("function", JObj [("name", JStr "search")])]])];
   [("role", JStr "tool"); ("name", JStr "search"); ("tool_call_id", JStr "1"); ("content", JStr "found")]].
Definition stripped : list dict :=
  match strip_tool_protocol_messages tool_history with Ok l => l | Err _ => [] end.

Lemma stripped_messages_witness : length stripped = 3 ∧ Forall tool_free stripped.
Proof.
  split; [vm_compute; reflexivity|].
  destruct (stripped_messages tool_history) as [_ Hs].
  apply (Hs stripped). vm_compute. reflexivity.
Defined.

(* ------------------------------------------------------------------ *)
(** ** The rate guard *)

#[local] Instance demo_guard_env : GuardEnv := {|
  time_at n := inject_Z (Z.of_nat n);
  monotonic_at n := inject_Z (Z.of_nat n);
  load_guard_config _ := default_config;
  stat_key_at n := (Z.of_nat n, 0%Z);
  current_anima_name := "sakura"
|}.

(** A process with the default settings, and another that starts up later. *)
Definition g_empty : guard_world := mk_gworld FMissing [] true true (Some default_config) None 0 None None 0.
Definition g_other : guard_world :=
  mk_gworld (g_file (state_of (report_block "claude" (Some 5000%Q) "rate_limit" g_empty))) [] true true None None 0 None
    None 7.

Lemma report_seen_witness :
  val_of (block_reason "claude" g_other) = Ok (Some "rate_limit") ∧
  ∃ now s, val_of (blocked_until "claude" g_other) = Ok (now + s)%Q ∧ (s <= 600)%Q.
Proof.
  destruct (report_seen "claude" (Some 5000%Q) "rate_limit" g_empty default_config g_other default_config) as
    ((now & s & Hu & Hle & _) & Hr & _); try reflexivity.
  - intros k c d _ Hk. discriminate.
  - split; [exact Hr|]. exists now, s. split; [exact Hu|exact Hle].
Defined.

Lemma guard_fails_open_witness :
  val_of (blocked_until "claude" g_empty) = Ok 0%Q.
Proof.
  destruct (guard_fails_open "claude" None "rate_limit" g_empty) as (_ & _ & _ & Hf).
  apply (Hf default_config); [reflexivity|]. right. left. reflexivity.
Defined.

(** Three failures in a row: twice doubled. *)
Lemma quota_escalation_witness :
  ∃ now s, dget "claude" (file_doc (g_file (state_of (quota_reports 3 "claude" None g_empty)))) =
      Some (JObj (block_entry now s "quota_exhausted" 3)) ∧ (s == 240)%Q.
Proof.
  destruct (quota_escalation 2 "claude" None default_config g_empty) as (now & s & Hd & Hs); try reflexivity.
  - discriminate.
  - discriminate.
  - discriminate.
  - intros n. unfold time_at, demo_guard_env, QUOTA_RECURRENCE_GRACE_S. change 600%Q with (inject_Z 600).
    rewrite <- inject_Z_plus, <- Zle_Qle. lia.
  - exists now, s. split; [exact Hd|]. rewrite Hs. vm_compute. reflexivity.
Defined.

(* ------------------------------------------------------------------ *)
(** ** The message limits *)

#[local] Instance demo_calendar : Calendar := {|
  fromisoformat s := Some (mk_datetime true (if bool_decide (s = "08:59") then 32340%Q else 0%Q));
  instant_at _ := 0%Q;
  wall_to_instant q := q
|}.

Definition sent (t : string) : log_line :=
  Line (JObj [("ts", JStr t); ("type", JStr "message_sent"); ("to", JStr "kaede")]).
Definition demo_log (day : Z) : day_file :=
  if (day =? 10)%Z then DayLog [sent "08:59"; Blank; sent "08:59"; sent "00:00"] else NoFile.
Definition strict : ConversationDepthLimiter := Cascade.mk_limiter 600 6 (Some 2%Z) None true.

(** Two messages in the last minute exhaust an hourly limit of two. *)
Lemma outbound_gate_witness :
  sent_count "sakura" 32400 3600 (outbound_entries demo_log 10) = 2%Z ∧
  check_global_outbound strict "sakura" (Ok general_limits) (Some demo_log) 10 32400 ≠ Ok Allowed.
Proof.
  split; [vm_compute; reflexivity|].
  destruct (outbound_gate strict "sakura" general_limits demo_log 10 32400 "kaede" eq_refl) as ((Hok & _) & _).
  intros Ha. apply Hok in Ha as [Hh _]. vm_compute in Hh. discriminate.
Defined.

Definition lax : ConversationDepthLimiter := Cascade.mk_limiter 600 6 (Some 1000%Z) (Some 1000%Z) true.
Lemma limit_above_window_witness :
  check_global_outbound lax "sakura" (Ok general_limits) (Some demo_log) 10 32400 = Ok Allowed.
Proof. apply (limit_above_window lax "sakura" general_limits demo_log 10 32400); reflexivity. Defined.

(* ------------------------------------------------------------------ *)
(** ** The inbox *)

Definition demo_settings : settings := mk_settings "sakura" 300 1800 3.
Definition letter : Message :=
  mk_message "m1" "m1" "" "kaede" "sakura" "message" "" [] "delegation" (mk_datetime true 0) "anima" "" "" "" "" [] [].
Definition mail : observation :=
  mk_obs true (Some [letter]) false None (Some []).
Definition broken_config : observation :=
  mk_obs true (Some [letter]) false None None.

(** Mail found ten minutes after the start, and the run it triggers. *)
Definition i_polled : limiter := inbox_watcher_poll demo_settings mail (initial 600).
Definition i_running : limiter := trigger_start demo_settings mail i_polled.
Lemma i_polled_reachable : reachable demo_settings i_polled.
Proof. exists 600%Q. apply rtc_once. apply StPoll. Qed.
Lemma i_running_reachable : reachable demo_settings i_running.
Proof.
  destruct i_polled_reachable as [t Ht]. exists t. eapply rtc_r; [exact Ht|].
  apply (StStart demo_settings i_polled mail 0). vm_compute. reflexivity.
Qed.


Lemma inbox_stuck_forever_witness :
  let s := trigger_start demo_settings broken_config i_polled in
  let s' := inbox_watcher_poll demo_settings mail s in
  pending_trigger s' = true ∧ created s' = 0 ∧ running s' = [].
Proof.
  intros s s'. apply (inbox_stuck_forever demo_settings i_polled broken_config s' i_polled_reachable).
  - vm_compute. discriminate.
  - vm_compute. reflexivity.
  - vm_compute. reflexivity.
  - vm_compute. reflexivity.
  - right. reflexivity.
  - apply rtc_once. apply StPoll.
Defined.

(* ------------------------------------------------------------------ *)
(** ** The bootstrap *)

#[local] Instance demo_boot : BootEnv := {|
  boot_now _ := "2026-01-01T00:00:00";
  boot_stamp _ := "20260101_000000";
  int_of_text _ := None;
  json_text _ := "{}";
  anima_path := "/animas/sakura";
  boot_repr _ := "..."
|}.

(** A defined anima with its prompt, and one left behind by a failed run. *)
Definition defined_files : gmap path content :=
  {[ identity_md := Text "Sakura"; injection_md := Text "Be kind"; bootstrap_md := Text "Prompt" ]}.
Definition fs_ready : anima_fs := mk_fs true defined_files None 0.
Definition fs_failed : anima_fs :=
  mk_fs true (<[["bootstrap.md.failed"] := Text "Old prompt"]> (<[character_sheet_md := Text "Sheet"]> defined_files))
    None 0.

Lemma finalize_spec_witness :
  ∃ d w' s, finalize_bootstrap_run fs_ready = (Ok d, w') ∧ has_file bootstrap_md w' = false ∧
    val_of (get_bootstrap_status w') = Ok s ∧ flag "needs_bootstrap" s = Some false.
Proof.
  destruct (finalize_spec fs_ready 0) as (d & w' & s & Hrun & Hst & _ & _ & Hok & _).
  - vm_compute. reflexivity.
  - destruct Hok as (_ & Hb & Hf); [vm_compute; reflexivity|]. exists d, w', s. split_and!; assumption.
Defined.

Lemma repair_complete_spec_witness :
  ∃ d w', repair_bootstrap_complete "sakura" fs_failed = (Ok d, w') ∧ validation_errors w' = [].
Proof.
  destruct (repair_complete_spec "sakura" fs_failed) as (d & w' & Hrun & _ & _ & Hv & _).
  - reflexivity.
  - vm_compute. reflexivity.
  - exists d, w'. split; assumption.
Defined.

Lemma repair_retry_resumable_witness :
  ∃ d w', repair_bootstrap_retry "sakura" fs_failed = (Ok d, w') ∧
    flag "needs_background_bootstrap" d = Some (has_file character_sheet_md fs_failed).
Proof.
  destruct (repair_retry_resumable "sakura" fs_failed) as (d & w' & Hrun & _ & Hf & _).
  - vm_compute. reflexivity.
  - exists d, w'. split; assumption.
Defined.
